(* ===== verification/_CoqProject ===== *)
-Q . S2P
Prelude.v
Bytes.v
Bitops.v
BitCount.v
BitopsSpec.v
HostUtils.v
HostDiv.v
HostSpec.v
TcgCond.v
TcgOpc.v
TcgCtx.v
TcgHelpers.v
TcgGen.v
TcgSem.v
TcgOp32.v
TcgOp64.v
TcgOpMix.v
TcgTemps.v
TcgWp.v
TcgVal.v
TcgValDw.v
TcgAssign.v
TcgGenOk.v
TcgOp32Ok.v
TcgOp64Ok.v
TcgOpMixOk.v
TcgOpAll.v
RegSpec.v
MemOp.v
TciCode.v
TciOut.v
TciExec.v
TciOk.v
Wasm.v
WasmSem.v
WasmOut.v
WasmOk.v
WasmCtl.v
TcgOut.v
Samples.v
TciOps.v
WasmOps.v
WasmOps2.v
TcgOutOk.v
TcgBlock.v
WasmInst.v
WasmMem.v
SabFs.v
SabApi.v
SabInv.v
SabTree.v
SabFile.v
SabRw.v
SabMeta.v
SabFrame.v
SabDir.v
SabEntry.v
SabGood.v
SabSafe.v
SabOps.v
SabIo.v
SabInit.v
SabMain.v
SabSpec.v
SabDirSpec.v
SabRuns.v
NineBackend.v
NineElf.v
NineOk.v
NineVec.v
NineCache.v
NineLoad.v
