(* ===== verification/Prelude.v ===== *)
(** * Verification of QEMU for WebAssembly

    QEMU translates guest code to the intermediate ops of TCG and runs them in
    a browser: the wasm32 backend writes every op as bytecode for an
    interpreter and as WebAssembly, runs a block in the interpreter until it
    is hot, and then instantiates its module.  The files of the guest live in
    a SharedArrayBuffer that a 9p backend serves.  This library models both
    sides as executable definitions, translated function by function, and
    proves what each part promises to the next.  Definitions have the names
    of the source.

    ** Parts and files

    Words.  [Prelude] (w-bit words on Z, bit-level tactics and hints),
    [Bytes] (little-endian memory), [Bitops], [BitCount] and [BitopsSpec]
    (include/qemu/bitops.h, bswap.h, the counts of host-utils.h), [HostUtils],
    [HostDiv] and [HostSpec] (128-bit arithmetic of host-utils.h and
    util/host-utils.c).

    Op expansion (tcg/tcg-op.c, tcg/tcg.c).  [TcgCond] and [TcgOpc] have the
    conditions and opcodes; what a host supports is the class [TcgTarget].
    [TcgCtx] is the context of a translation: temporaries, constants, labels,
    ops, with generation as a monad that can overflow or fail an assertion.
    [TcgHelpers], [TcgGen], [TcgOp32], [TcgOp64] and [TcgOpMix] are the
    generation functions.  [TcgSem] is the meaning of ops; what a host makes
    of a shift count out of range is the class [Overshift], without laws.  [TcgTemps],
    [TcgWp], [TcgVal], [TcgValDw], [TcgAssign] and the files ending in Ok
    carry the proofs; [TcgOpAll] has the theorems.

    The backend (tcg/wasm32/tcg-target.c.inc, tcg/wasm32.c, tcg/tcg.c).
    [RegSpec] says what a backend owes an op.  [TciCode], [TciOut] and
    [TciExec] are the bytecode, its emission and the interpreter; [Wasm],
    [WasmSem], [WasmOut] and [WasmCtl] the instructions, their validation and
    execution, and the emission; [TcgOut] is tcg_out_op, which writes both.
    [MemOp] has the memory operations, [Samples] concrete machines.  [TciOk],
    [TciOps], [WasmOk], [WasmOps], [WasmOps2], [TcgOutOk], [TcgBlock] and
    [WasmMem] have the proofs.  [WasmInst] models the ring of instances, the
    counters that threads share, and the loop of tcg_qemu_tb_exec.

    The file system (sabfs.js).  [SabFs] has the buffer, blocks, inodes and
    directories, [SabApi] paths and the exported functions.  [SabInv] to
    [SabInit] carry the invariant through every function; [SabMain],
    [SabSpec] and [SabDirSpec] have the theorems, [SabRuns] runs that differ
    from POSIX.

    The 9p side (hw/9pfs).  [NineBackend] is 9p-sabfs-backend.c, [NineElf]
    9p-sabfs.c: the cache of executables, the map of descriptors, vectored
    access.  [NineOk], [NineVec], [NineCache] and [NineLoad] have the
    theorems.  The build file of that directory does not list the two sources.

    ** What the theorems show

    - [BitopsSpec], [HostSpec], [TcgCond]: each word function computes what
      its comment says on all inputs, the ranges where it aborts included.
    - [TcgOpAll]: the ops that each function of tcg-op.c emits compute its
      operation, for every set of optional host ops, the 64-bit ones with
      64-bit registers; the code needs no more temporaries than stated and
      changes nothing else.
    - [TciOut], [TcgOutOk]: decoding inverts encoding in every layout, labels
      and pointers after relocation included; the interpreter
      implements every pure op but ctpop, the WebAssembly every pure op
      outside [wasm_wrong], and for the others a counterexample runs.
    - [TcgBlock], [WasmMem]: on well-typed straight blocks both engines end
      with the values that the meaning of the ops gives; both look up the TLB
      alike.
    - [WasmInst]: in every interleaving the counts are right, no stale code is
      called, and the loop refines running the blocks one by one.  There the
      two engines are arbitrary functions on the machine, so the theorem is
      about the loop alone.
    - [SabMain]: after any [sensible] calls no block has two owners, the free
      list is sound, and no such call throws.  [SabSpec]: files are arrays of bytes.
      [SabDirSpec]: directories are maps.
    - [NineOk], [NineVec], [NineCache], [NineLoad]: the 9p operations return
      and keep the invariant; the two vectored implementations agree up to the
      first empty buffer; the cache never reads freed or foreign memory; an
      executable that the cache loads is the file in the file system, and one
      that it has is the copy made then.

    ** Bounds and fuel

    Integers are Z with the conversions of C and JavaScript written out.
    Retries of compareExchange succeed at once without other workers, so one
    attempt is enough; loops over a file have [loops count] iterations, one
    per block touched and one to spare, which the proofs show to suffice; the
    theorems state results, not only that results are right.  Path resolution
    follows at most 40 links, as the code does.  Files have at most
    (8 + 1024 + 1024 * 1024) blocks: positions beyond are excluded by
    [sensible] and [allowed], as are negative offsets and buffers that are too
    short.  Buffers of the 9p server are below 2 GB, since the bindings take
    counts as signed numbers.  The cache is followed for fewer than 2^32 calls,
    the range of a reference count, with files of the host below 4 GB and a
    realloc that does not free.

    ** What is not modelled

    - Code outside the repository is a parameter: TextEncoder, TextDecoder and
      the clock ([Browser]), the string conversion of Emscripten
      ([Emscripten]), system calls and the allocator of the host, libffi, the
      slow paths of guest accesses, the engine that instantiates modules.
    - Workers that interleave inside a call of SABFS, and retries of a failed
      compareExchange.
    - The optimizer, liveness analysis and register allocation: the backend
      theorems hold for whatever registers are chosen.  Vector ops, which this
      host does not have.  64-bit functions on hosts with 32-bit registers
      are defined, but the theorems on them are for 64-bit registers.
    - Devices, guest CPUs, block layer, migration, monitor and user
      interfaces: I/O and clients of the parts above. *)

From Stdlib Require Import ZArith Lia Bool Btauto.
From stdpp Require Import base numbers functions list.

Declare Scope word_scope.
Delimit Scope word_scope with W.
Local Open Scope Z_scope.

(** ** Machine integers

    A [w]-bit object of the C program is a [Z]; [uint w] is the conversion to
    the unsigned [w]-bit type, [sint w] the conversion to the signed one. *)

Definition uint (w x : Z) : Z := x mod 2 ^ w.

Definition sint (w x : Z) : Z :=
  if uint w x <? 2 ^ (w - 1) then uint w x else uint w x - 2 ^ w.

Notation "'u32' x" := (uint 32 x) (at level 10, x at level 9) : word_scope.
Notation "'u64' x" := (uint 64 x) (at level 10, x at level 9) : word_scope.
Notation "'s32' x" := (sint 32 x) (at level 10, x at level 9) : word_scope.
Notation "'s64' x" := (sint 64 x) (at level 10, x at level 9) : word_scope.

(** C's boolean-to-integer conversion. *)
Definition b2z (b : bool) : Z := if b then 1 else 0.

(** ** Bit-level reasoning

    The database [zbits] pushes [Z.testbit] through the operations the code
    uses; [zbits] proves an equality of words by comparing every bit. *)

Create Rewrite HintDb zbits.
#[global] Arguments Z.testbit : simpl never.

Lemma uint_testbit w x i :
  0 <= w -> Z.testbit (uint w x) i = (i <? w) && Z.testbit x i.
Proof.
  intros Hw. unfold uint. destruct (Z.ltb_spec i w).
  - by rewrite Z.mod_pow2_bits_low.
  - by rewrite Z.mod_pow2_bits_high by lia.
Qed.

Lemma uint_bit w x i : 0 <= i < w -> Z.testbit (uint w x) i = Z.testbit x i.
Proof. intros Hi. rewrite uint_testbit by lia. by destruct (Z.ltb_spec i w); [| lia]. Qed.

Lemma uint_range w x : 0 <= w -> 0 <= uint w x < 2 ^ w.
Proof. intros. apply Z.mod_pos_bound, Z.pow_pos_nonneg; lia. Qed.

Lemma uint_small w x : 0 <= x < 2 ^ w -> uint w x = x.
Proof. apply Z.mod_small. Qed.

Lemma uint_uint w x : 0 <= w -> uint w (uint w x) = uint w x.
Proof. intros. by apply uint_small, uint_range. Qed.

Lemma uint_uint_le v w x : 0 <= v <= w -> uint v (uint w x) = uint v x.
Proof.
  intros. apply Z.bits_inj'; intros i Hi.
  rewrite !uint_testbit by lia.
  destruct (Z.ltb_spec i v), (Z.ltb_spec i w); try lia; done.
Qed.

Lemma testbit_above w x i : 0 <= x < 2 ^ w -> w <= i -> Z.testbit x i = false.
Proof.
  intros Hx Hi. destruct (Z.ltb_spec w 0).
  - rewrite Z.pow_neg_r in Hx; lia.
  - rewrite <- (uint_small w x), uint_testbit by done.
    destruct (Z.ltb_spec i w); [lia | done].
Qed.

Lemma pow2_double w : 0 < w -> 2 ^ w = 2 * 2 ^ (w - 1).
Proof. intros. rewrite <- Z.pow_succ_r by lia. f_equal. lia. Qed.

Lemma pow2_pos w : 0 <= w -> 0 < 2 ^ w.
Proof. intros. apply Z.pow_pos_nonneg; lia. Qed.

(** The sign bit of a [w]-bit word is its bit [w - 1]. *)
Lemma uint_sign_bit w x :
  0 < w -> (uint w x <? 2 ^ (w - 1)) = negb (Z.testbit x (w - 1)).
Proof.
  intros Hw. pose proof (uint_range w x ltac:(lia)) as Hr.
  assert (Hb : Z.testbit x (w - 1) = Z.testbit (uint w x) (w - 1)).
  { rewrite uint_testbit by lia. destruct (Z.ltb_spec (w - 1) w); [done | lia]. }
  rewrite Hb. destruct (Z.ltb_spec (uint w x) (2 ^ (w - 1))) as [Hlt | Hge].
  - rewrite (testbit_above (w - 1)); [done | lia | lia].
  - rewrite pow2_double in Hr by lia.
    enough (Z.testbit (uint w x) (w - 1) = true) as -> by done.
    rewrite Z.testbit_true by lia.
    rewrite <- (Z.div_unique (uint w x) (2 ^ (w - 1)) 1 (uint w x - 2 ^ (w - 1)));
      [done | lia | lia].
Qed.

(** Words with no common bit are added by [Z.lor]. *)
Lemma lor_add_disjoint a b : Z.land a b = 0 -> Z.lor a b = a + b.
Proof. intros H. by rewrite Z.add_nocarry_lxor, Z.lxor_lor. Qed.

Lemma sint_testbit w x i :
  0 < w -> 0 <= i -> Z.testbit (sint w x) i = Z.testbit x (if i <? w then i else w - 1).
Proof.
  intros Hw Hi. unfold sint. rewrite uint_sign_bit by lia.
  destruct (Z.testbit x (w - 1)) eqn:Hs; simpl.
  - assert (Hd : Z.land (uint w x) (Z.shiftl (-1) w) = 0).
    { apply Z.bits_inj'; intros j Hj.
      rewrite Z.land_spec, uint_testbit, Z.shiftl_spec, Z.bits_0 by lia.
      destruct (Z.ltb_spec j w); [|done].
      rewrite (Z.testbit_neg_r (-1)) by lia. apply andb_false_r. }
    replace (uint w x - 2 ^ w) with (Z.lor (uint w x) (Z.shiftl (-1) w)).
    + rewrite Z.lor_spec, uint_testbit, Z.shiftl_spec by lia.
      destruct (Z.ltb_spec i w).
      * rewrite (Z.testbit_neg_r (-1)) by lia. by rewrite orb_false_r.
      * rewrite Z.bits_m1 by lia. by rewrite Hs.
    + rewrite lor_add_disjoint, Z.shiftl_mul_pow2 by (done || lia). lia.
  - rewrite uint_testbit by lia. destruct (Z.ltb_spec i w); [done | by rewrite Hs].
Qed.

Lemma sint_bit w x i : 0 <= i < w -> Z.testbit (sint w x) i = Z.testbit x i.
Proof. intros Hi. rewrite sint_testbit by lia. by destruct (Z.ltb_spec i w); [| lia]. Qed.

Lemma shiftl_testbit x k i :
  0 <= k -> 0 <= i -> Z.testbit (Z.shiftl x k) i = (k <=? i) && Z.testbit x (i - k).
Proof.
  intros. rewrite Z.shiftl_spec by lia. destruct (Z.leb_spec k i); [done|].
  by rewrite Z.testbit_neg_r by lia.
Qed.

Lemma ones_testbit n i : 0 <= n -> 0 <= i -> Z.testbit (Z.ones n) i = (i <? n).
Proof. intros. by apply Z.testbit_ones_nonneg. Qed.

Lemma m1_testbit i : 0 <= i -> Z.testbit (-1) i = true.
Proof. apply Z.bits_m1. Qed.

Lemma if_testbit (b : bool) x y i :
  Z.testbit (if b then x else y) i = if b then Z.testbit x i else Z.testbit y i.
Proof. by destruct b. Qed.

#[export] Hint Rewrite
  Z.land_spec Z.lor_spec Z.lxor_spec Z.ldiff_spec Z.bits_0 : zbits.
#[export] Hint Rewrite
  uint_testbit sint_testbit shiftl_testbit Z.shiftr_spec Z.lnot_spec
  ones_testbit m1_testbit using lia : zbits.

(** A constant mask is a function of the bit number; [mask_testbit] turns a
    check of its low [n] bits by evaluation into the statement for every bit. *)
Lemma mask_testbit (n : nat) c f i :
  0 <= c < 2 ^ Z.of_nat n ->
  forallb (fun k => eqb (Z.testbit c (Z.of_nat k)) (f (Z.of_nat k))) (List.seq 0 n) = true ->
  (forall j, Z.of_nat n <= j -> f j = false) ->
  0 <= i -> Z.testbit c i = f i.
Proof.
  intros Hc Hall Hhi Hi. destruct (Z.ltb_spec i (Z.of_nat n)) as [Hlt | Hge].
  - rewrite forallb_forall in Hall.
    specialize (Hall (Z.to_nat i)). rewrite Z2Nat.id in Hall by lia.
    apply eqb_prop, Hall, in_seq. lia.
  - rewrite Hhi by done. by eapply testbit_above.
Qed.

(** Case analysis on the comparisons that [zbits] leaves. *)
Ltac split_cmp :=
  repeat match goal with
  | |- context [?a <? ?b] => destruct (Z.ltb_spec a b); try lia
  | |- context [?a <=? ?b] => destruct (Z.leb_spec a b); try lia
  | |- context [?a =? ?b] => destruct (Z.eqb_spec a b); try lia
  end.

Ltac bit_atoms :=
  repeat match goal with
  | |- context [Z.testbit ?x ?i] =>
      progress (rewrite (Z.testbit_neg_r x i) by lia)
  end.

Ltac close_bits :=
  simpl; rewrite ?andb_true_r, ?andb_false_r, ?orb_true_r, ?orb_false_r,
    ?andb_true_l, ?andb_false_l, ?orb_true_l, ?orb_false_l,
    ?xorb_false_l, ?xorb_false_r, ?xorb_true_l, ?xorb_true_r, ?negb_involutive;
  try first
    [ reflexivity | lia
    | f_equal; lia
    | repeat f_equal; lia
    | btauto ].

Ltac zbits_at i Hi :=
  apply Z.bits_inj'; intros i Hi;
  repeat (progress (autorewrite with zbits));
  split_cmp;
  repeat (progress (autorewrite with zbits));
  split_cmp;
  close_bits.

Ltac zbits := let i := fresh "i" in let Hi := fresh "Hi" in zbits_at i Hi.

(** Evaluates the operations on integer literals in the goal. *)
Ltac z_literal t :=
  lazymatch t with
  | Z0 => idtac
  | Zpos ?p => is_ground p
  | Zneg ?p => is_ground p
  end.

Ltac z_compute_at f a b :=
  z_literal a; z_literal b;
  let v := eval vm_compute in (f a b) in change (f a b) with v.

Ltac z_compute :=
  repeat match goal with
  | |- context [Z.lxor ?a ?b] => z_compute_at Z.lxor a b
  | |- context [Z.land ?a ?b] => z_compute_at Z.land a b
  | |- context [Z.lor ?a ?b] => z_compute_at Z.lor a b
  | |- context [Z.eqb ?a ?b] => z_compute_at Z.eqb a b
  | |- context [Z.ltb ?a ?b] => z_compute_at Z.ltb a b
  | |- context [Z.leb ?a ?b] => z_compute_at Z.leb a b
  | |- context [Z.add ?a ?b] => z_compute_at Z.add a b
  | |- context [Z.sub ?a ?b] => z_compute_at Z.sub a b
  | |- context [Z.mul ?a ?b] => z_compute_at Z.mul a b
  | |- _ => progress cbn [negb andb orb]
  | |- context [if true then ?x else ?y] => change (if true then x else y) with x
  | |- context [if false then ?x else ?y] => change (if false then x else y) with y
  end.

(** ** Arithmetic modulo [2 ^ w]

    [eqm w] is congruence modulo [2 ^ w]; the ring operations respect it, so
    conversions can be removed inside sums and products by rewriting. *)

Definition eqm (w x y : Z) : Prop := uint w x = uint w y.

#[export] Instance eqm_equivalence w : Equivalence (eqm w).
Proof. unfold eqm. split; red; intros; congruence. Qed.

#[export] Instance eqm_add w : Proper (eqm w ==> eqm w ==> eqm w) Z.add.
Proof. intros a a' Ha b b' Hb. unfold eqm, uint in *. by rewrite Zplus_mod, Ha, Hb, <- Zplus_mod. Qed.

#[export] Instance eqm_mul w : Proper (eqm w ==> eqm w ==> eqm w) Z.mul.
Proof. intros a a' Ha b b' Hb. unfold eqm, uint in *. by rewrite Zmult_mod, Ha, Hb, <- Zmult_mod. Qed.

#[export] Instance eqm_sub w : Proper (eqm w ==> eqm w ==> eqm w) Z.sub.
Proof. intros a a' Ha b b' Hb. unfold eqm, uint in *. by rewrite Zminus_mod, Ha, Hb, <- Zminus_mod. Qed.

#[export] Instance eqm_opp w : Proper (eqm w ==> eqm w) Z.opp.
Proof. intros a a' Ha. rewrite <- !Z.sub_0_l. by rewrite Ha. Qed.

Lemma eqm_eq w x y : x = y -> eqm w x y.
Proof. by intros ->. Qed.

Lemma eqm_uint w x : 0 <= w -> eqm w (uint w x) x.
Proof. intros. by apply uint_uint. Qed.

Lemma eqm_intro w x y k : 0 <= w -> x = y + k * 2 ^ w -> eqm w x y.
Proof. intros ? ->. unfold eqm, uint. by rewrite Z.mod_add by (apply Z.pow_nonzero; lia). Qed.

Lemma eqm_sint w x : 0 <= w -> eqm w (sint w x) x.
Proof.
  intros Hw. unfold sint. destruct (_ <? _).
  - by apply eqm_uint.
  - rewrite <- (eqm_uint w x) at 2 by done. by apply (eqm_intro w _ _ (-1)); [|lia].
Qed.

Lemma uint_sint w x : 0 <= w -> uint w (sint w x) = uint w x.
Proof. intros. by apply eqm_sint. Qed.

Lemma sint_range w x : 0 < w -> - 2 ^ (w - 1) <= sint w x < 2 ^ (w - 1).
Proof.
  intros Hw. unfold sint. pose proof (uint_range w x ltac:(lia)) as Hr.
  pose proof (pow2_double w Hw). destruct (Z.ltb_spec (uint w x) (2 ^ (w - 1))); lia.
Qed.

Lemma sint_eqm w x y : eqm w x y -> sint w x = sint w y.
Proof. unfold eqm, sint. by intros ->. Qed.

Lemma sint_small w x : 0 < w -> - 2 ^ (w - 1) <= x < 2 ^ (w - 1) -> sint w x = x.
Proof.
  intros Hw Hx. unfold sint, uint. pose proof (pow2_double w Hw) as Hd.
  destruct (Z.leb_spec 0 x).
  - rewrite Z.mod_small by lia. destruct (Z.ltb_spec x (2 ^ (w - 1))); lia.
  - rewrite <- (Z.mod_unique x (2 ^ w) (-1) (x + 2 ^ w)) by lia.
    destruct (Z.ltb_spec (x + 2 ^ w) (2 ^ (w - 1))); lia.
Qed.

(** Bitwise operations commute with truncation. *)
Lemma uint_land w x y : 0 <= w -> uint w (Z.land x y) = Z.land (uint w x) (uint w y).
Proof. intros. zbits. Qed.
Lemma uint_lor w x y : 0 <= w -> uint w (Z.lor x y) = Z.lor (uint w x) (uint w y).
Proof. intros. zbits. Qed.
Lemma uint_lxor w x y : 0 <= w -> uint w (Z.lxor x y) = Z.lxor (uint w x) (uint w y).
Proof. intros. zbits. Qed.

Lemma uint_lnot w x : 0 <= w -> uint w (Z.lnot (uint w x)) = uint w (Z.lnot x).
Proof. intros. zbits. Qed.

Lemma uint_neg w x : w < 0 -> uint w x = x.
Proof. intros Hw. unfold uint. rewrite Z.pow_neg_r by done. apply Z.mod_0_r. Qed.

#[export] Instance eqm_land w : Proper (eqm w ==> eqm w ==> eqm w) Z.land.
Proof.
  intros a a' Ha b b' Hb. unfold eqm in *. destruct (Z.ltb_spec w 0); [by rewrite !uint_neg in * by done; subst |].
  rewrite !uint_land by done. congruence.
Qed.
#[export] Instance eqm_lor w : Proper (eqm w ==> eqm w ==> eqm w) Z.lor.
Proof.
  intros a a' Ha b b' Hb. unfold eqm in *. destruct (Z.ltb_spec w 0); [by rewrite !uint_neg in * by done; subst |].
  rewrite !uint_lor by done. congruence.
Qed.
#[export] Instance eqm_lxor w : Proper (eqm w ==> eqm w ==> eqm w) Z.lxor.
Proof.
  intros a a' Ha b b' Hb. unfold eqm in *. destruct (Z.ltb_spec w 0); [by rewrite !uint_neg in * by done; subst |].
  rewrite !uint_lxor by done. congruence.
Qed.
#[export] Instance eqm_lnot w : Proper (eqm w ==> eqm w) Z.lnot.
Proof.
  intros a a' Ha. unfold eqm in *. destruct (Z.ltb_spec w 0); [by rewrite !uint_neg in * by done; subst |].
  rewrite <- (uint_lnot w a), Ha, uint_lnot by done. done.
Qed.

(** Proves an equality of words by removing the conversions in them. *)
Ltac wmod :=
  lazymatch goal with
  | |- uint ?w ?a = uint ?w ?b => change (eqm w a b)
  end;
  rewrite ?eqm_uint, ?eqm_sint by lia;
  lazymatch goal with |- eqm ?w ?a ?b => first [reflexivity | change (uint w a = uint w b); f_equal; ring | idtac] end.

Lemma shiftl_mul x k : 0 <= k -> Z.shiftl x k = x * 2 ^ k.
Proof. apply Z.shiftl_mul_pow2. Qed.
Lemma shiftr_div x k : 0 <= k -> Z.shiftr x k = x / 2 ^ k.
Proof. apply Z.shiftr_div_pow2. Qed.

(** ** Bit permutations by reflection

    Many of the routines move the bits of one word around with shifts, masks
    and disjunctions.  [bexp] is the syntax of such expressions over one
    variable and [bsrc e i] computes the bits of the variable whose
    disjunction is bit [i] of the expression, so two expressions are compared
    by evaluation, bit by bit. *)

Inductive bexp : Type :=
| BX
| B0
| BAnd (e : bexp) (c : Z)
| BOr (e f : bexp)
| BShl (e : bexp) (k : Z)
| BShr (e : bexp) (k : Z)
| BU (w : Z) (e : bexp)
| BS (w : Z) (e : bexp).

Fixpoint beval (x : Z) (e : bexp) : Z :=
  match e with
  | BX => x
  | B0 => 0
  | BAnd e c => Z.land (beval x e) c
  | BOr e f => Z.lor (beval x e) (beval x f)
  | BShl e k => Z.shiftl (beval x e) k
  | BShr e k => Z.shiftr (beval x e) k
  | BU w e => uint w (beval x e)
  | BS w e => sint w (beval x e)
  end.

Definition zmem (i : Z) (l : list Z) : bool := existsb (Z.eqb i) l.

Fixpoint zunion (l m : list Z) : list Z :=
  match l with
  | [] => m
  | i :: l => if zmem i m then zunion l m else i :: zunion l m
  end.

Fixpoint bsrc (e : bexp) (i : Z) : list Z :=
  match e with
  | BX => [i]
  | B0 => []
  | BAnd e c => if Z.testbit c i then bsrc e i else []
  | BOr e f => zunion (bsrc e i) (bsrc f i)
  | BShl e k => if k <=? i then bsrc e (i - k) else []
  | BShr e k => bsrc e (i + k)
  | BU w e => if i <? w then bsrc e i else []
  | BS w e => bsrc e (if i <? w then i else w - 1)
  end.

Fixpoint bwf (e : bexp) : bool :=
  match e with
  | BX => true
  | B0 => true
  | BAnd e _ => bwf e
  | BOr e f => bwf e && bwf f
  | BShl e k | BShr e k => (0 <=? k) && bwf e
  | BU w e | BS w e => (0 <? w) && bwf e
  end.

Lemma existsb_zunion f l m : existsb f (zunion l m) = existsb f l || existsb f m.
Proof.
  induction l as [|i l IH]; [done|]. simpl. destruct (zmem i m) eqn:E; simpl; rewrite IH.
  - unfold zmem in E. apply existsb_exists in E as (j & Hj & ->%Z.eqb_eq).
    destruct (f j) eqn:Hf; [|done].
    assert (existsb f m = true) as -> by (apply existsb_exists; eauto).
    by rewrite orb_true_r.
  - by rewrite orb_assoc.
Qed.

Lemma bsrc_ok x e i :
  bwf e = true -> 0 <= i -> Z.testbit (beval x e) i = existsb (Z.testbit x) (bsrc e i).
Proof.
  revert i. induction e; simpl; intros i Hwf Hi;
    rewrite ?andb_true_iff, ?Z.leb_le, ?Z.ltb_lt in Hwf;
    repeat match goal with H : _ /\ _ |- _ => destruct H end.
  - by rewrite orb_false_r.
  - apply Z.bits_0.
  - rewrite Z.land_spec, IHe by done. destruct (Z.testbit c i); [apply andb_true_r | apply andb_false_r].
  - rewrite Z.lor_spec, IHe1, IHe2 by done. by rewrite existsb_zunion.
  - rewrite shiftl_testbit by lia. destruct (Z.leb_spec k i); [|done]. by rewrite IHe by (done || lia).
  - rewrite Z.shiftr_spec by done. by rewrite IHe by (done || lia).
  - rewrite uint_testbit by lia. destruct (Z.ltb_spec i w); [|done]. by rewrite IHe.
  - rewrite sint_testbit by lia. rewrite IHe; [done | done | destruct (i <? w) eqn:E; lia].
Qed.

Definition same_src (l m : list Z) : bool :=
  forallb (fun i => zmem i m) l && forallb (fun i => zmem i l) m.

Lemma zmem_In i l : zmem i l = true <-> In i l.
Proof.
  unfold zmem. rewrite existsb_exists. split.
  - by intros (j & Hj & ->%Z.eqb_eq).
  - intros Hi. exists i. by rewrite Z.eqb_refl.
Qed.

Lemma existsb_incl f l m :
  forallb (fun i => zmem i m) l = true -> existsb f l = true -> existsb f m = true.
Proof.
  rewrite forallb_forall, !existsb_exists. intros Hl (i & Hi & Hf).
  exists i. split; [|done]. by apply zmem_In, Hl.
Qed.

Lemma same_src_ok f l m : same_src l m = true -> existsb f l = existsb f m.
Proof.
  unfold same_src. rewrite andb_true_iff. intros [Hl Hm].
  apply eq_true_iff_eq. split; by apply existsb_incl.
Qed.

(** All positions below [n]. *)
Definition positions (n : nat) : list Z := Z.of_nat <$> List.seq 0 n.

Lemma positions_spec n i : 0 <= i < Z.of_nat n -> In i (positions n).
Proof.
  intros Hi. unfold positions. apply (List.in_map_iff Z.of_nat).
  exists (Z.to_nat i). split; [lia |]. apply in_seq. lia.
Qed.

Lemma bexp_eq (n : nat) x e f :
  bwf e = true -> bwf f = true ->
  forallb (fun i => same_src (bsrc e i) (bsrc f i)) (positions n) = true ->
  uint (Z.of_nat n) (beval x e) = uint (Z.of_nat n) (beval x f).
Proof.
  intros He Hf Hall. apply Z.bits_inj'; intros i Hi. rewrite !uint_testbit by lia.
  destruct (Z.ltb_spec i (Z.of_nat n)); [|done].
  rewrite !bsrc_ok by done. rewrite forallb_forall in Hall.
  by apply same_src_ok, Hall, positions_spec.
Qed.

Lemma bexp_bits (n : nat) x e (g : Z -> list Z) i :
  bwf e = true ->
  forallb (fun i => same_src (bsrc e i) (g i)) (positions n) = true ->
  0 <= i < Z.of_nat n ->
  Z.testbit (beval x e) i = existsb (Z.testbit x) (g i).
Proof.
  intros He Hall Hi. rewrite bsrc_ok by (done || lia). rewrite forallb_forall in Hall.
  by apply same_src_ok, Hall, positions_spec.
Qed.

Ltac breify x t :=
  lazymatch t with
  | x => constr:(BX)
  | 0 => constr:(B0)
  | Z.land ?a ?c => let e := breify x a in constr:(BAnd e c)
  | Z.lor ?a ?b => let e := breify x a in let f := breify x b in constr:(BOr e f)
  | Z.shiftl ?a ?k => let e := breify x a in constr:(BShl e k)
  | Z.shiftr ?a ?k => let e := breify x a in constr:(BShr e k)
  | uint ?w ?a => let e := breify x a in constr:(BU w e)
  | sint ?w ?a => let e := breify x a in constr:(BS w e)
  end.

(** Proves [uint w e = uint w f] for two bit permutations of [x]. *)
Ltac bit_permutation x :=
  lazymatch goal with
  | |- uint ?w ?a = uint ?w ?b =>
      let e := breify x a in
      let f := breify x b in
      let n := eval vm_compute in (Z.to_nat w) in
      apply (bexp_eq n x e f); vm_compute; reflexivity
  end.

(** Proves that bit [i < n] of a bit permutation of [x] is given by [g]. *)
Ltac bit_source n x g :=
  lazymatch goal with
  | |- Z.testbit ?a ?i = _ =>
      let e := breify x a in
      transitivity (existsb (Z.testbit x) (g i));
      [ apply (bexp_bits n x e g i); [vm_compute; reflexivity | vm_compute; reflexivity | lia]
      | cbv beta; cbn [existsb] ]
  end.
