(* ===== verification/Bytes.v ===== *)
(** * Little-endian words in a byte-addressed memory

    A memory is a function from addresses to bytes; [load_le m a n] and
    [store_le m a v n] are the accesses of [n] bytes that the host's memory,
    the interpreter and the shared buffer of the file system have in common. *)

From Stdlib Require Import ZArith Lia Bool.
From stdpp Require Import base numbers functions list.
From S2P Require Import Prelude.

Local Open Scope Z_scope.

Fixpoint load_le (m : Z -> Z) (a : Z) (n : nat) : Z :=
  match n with
  | O => 0
  | S n' => uint 8 (m a) + 2 ^ 8 * load_le m (a + 1) n'
  end.

Fixpoint store_le (m : Z -> Z) (a v : Z) (n : nat) : Z -> Z :=
  match n with
  | O => m
  | S n' => store_le (<[a := uint 8 v]> m) (a + 1) (Z.shiftr v 8) n'
  end.

Lemma load_le_range m a n : 0 <= load_le m a n < 2 ^ (8 * Z.of_nat n).
Proof.
  revert a. induction n as [|n IH]; intros a; [cbn; lia|].
  cbn [load_le]. specialize (IH (a + 1)). pose proof (uint_range 8 (m a)).
  replace (8 * Z.of_nat (S n)) with (8 + 8 * Z.of_nat n) by lia.
  rewrite Z.pow_add_r by lia. change (2 ^ 8) with 256 in *. nia.
Qed.

Lemma store_le_other m a v n b : b < a \/ a + Z.of_nat n <= b -> store_le m a v n b = m b.
Proof.
  revert m a v. induction n as [|n IH]; intros m a v Hb; [done|].
  cbn [store_le]. rewrite IH by lia. by rewrite fn_lookup_insert_ne by lia.
Qed.

Lemma load_le_ext m m' a n :
  (forall b, a <= b < a + Z.of_nat n -> m b = m' b) -> load_le m a n = load_le m' a n.
Proof.
  revert a. induction n as [|n IH]; intros a Hm; [done|].
  cbn [load_le]. rewrite (IH (a + 1)), Hm by (intros; apply Hm || lia; lia). done.
Qed.

Lemma load_store_other m a v n b k :
  b + Z.of_nat k <= a \/ a + Z.of_nat n <= b -> load_le (store_le m a v n) b k = load_le m b k.
Proof. intros. apply load_le_ext. intros. apply store_le_other. lia. Qed.

Lemma load_store_same m a v n : load_le (store_le m a v n) a n = uint (8 * Z.of_nat n) v.
Proof.
  revert m a v. induction n as [|n IH]; intros m a v.
  { change (8 * Z.of_nat 0) with 0. unfold uint. by rewrite Z.mod_1_r. }
  cbn [store_le load_le]. rewrite IH, store_le_other, fn_lookup_insert by lia.
  rewrite uint_uint by lia. replace (8 * Z.of_nat (S n)) with (8 + 8 * Z.of_nat n) by lia.
  unfold uint. rewrite Z.pow_add_r, Z.rem_mul_r, shiftr_div by lia. done.
Qed.
