(* ===== verification/Bitops.v ===== *)
(** Bit manipulation: [include/qemu/bitops.h], [include/qemu/bswap.h] and the
    bit-counting part of [include/qemu/host-utils.h].

    Each C function is a function on [Z]; an argument of a [w]-bit unsigned
    type is converted with [uint w] where the C call converts it.  The pairs
    of functions that differ only in their width ([rol32] and [rol64], ...)
    share one definition over the width. *)

From Stdlib Require Import ZArith Lia Bool Btauto.
From stdpp Require Import base numbers functions list.
From S2P Require Import Prelude.

Local Open Scope Z_scope.
Local Open Scope word_scope.

(** ** Definitions *)

(** *** Rotations *)

Definition rol (w word shift : Z) : Z :=
  uint w (Z.lor (Z.shiftl (uint w word) (Z.land shift (w - 1)))
                (Z.shiftr (uint w word) (Z.land (- shift) (w - 1)))).

Definition ror (w word shift : Z) : Z :=
  uint w (Z.lor (Z.shiftr (uint w word) (Z.land shift (w - 1)))
                (Z.shiftl (uint w word) (Z.land (- shift) (w - 1)))).

Definition rol8 : Z -> Z -> Z := rol 8.
Definition ror8 : Z -> Z -> Z := ror 8.
Definition rol16 : Z -> Z -> Z := rol 16.
Definition ror16 : Z -> Z -> Z := ror 16.
Definition rol32 : Z -> Z -> Z := rol 32.
Definition ror32 : Z -> Z -> Z := ror 32.
Definition rol64 : Z -> Z -> Z := rol 64.
Definition ror64 : Z -> Z -> Z := ror 64.

Definition hswap32 (h : Z) : Z := rol32 h 16.

Definition hswap64 (h : Z) : Z :=
  let m := 0x0000ffff0000ffff in
  let h := rol64 h 32 in
  Z.lor (uint 64 (Z.shiftl (Z.land h m) 16)) (Z.land (Z.shiftr h 16) m).

Definition wswap64 (h : Z) : Z := rol64 h 32.

(** *** Bit fields *)

Definition extract_w (w value start length : Z) : Z :=
  Z.land (Z.shiftr (uint w value) start) (Z.shiftr (uint w (-1)) (w - length)).

Definition sextract_w (w value start length : Z) : Z :=
  Z.shiftr (sint w (Z.shiftl (uint w value) (w - length - start))) (w - length).

Definition deposit_w (w value start length fieldval : Z) : Z :=
  let mask := uint w (Z.shiftl (Z.shiftr (uint w (-1)) (w - length)) start) in
  Z.lor (Z.land (uint w value) (uint w (Z.lnot mask)))
        (Z.land (uint w (Z.shiftl (uint w fieldval) start)) mask).

(** [assert(start >= 0 && length > 0 && length <= w - start)]: the field lies
    within the word.  The C functions abort otherwise, which is [None]. *)
Definition field_ok (w start length : Z) : bool :=
  (start >=? 0) && (length >? 0) && (length <=? w - start).

Definition checked {A} (b : bool) (a : A) : option A := if b then Some a else None.

Definition extract32 (value start length : Z) : option Z :=
  checked (field_ok 32 start length) (extract_w 32 value start length).
Definition extract8 (value start length : Z) : option Z :=
  if field_ok 8 start length then extract32 (uint 8 value) start length else None.
Definition extract16 (value start length : Z) : option Z :=
  if field_ok 16 start length then extract32 (uint 16 value) start length else None.
Definition extract64 (value start length : Z) : option Z :=
  checked (field_ok 64 start length) (extract_w 64 value start length).
Definition sextract32 (value start length : Z) : option Z :=
  checked (field_ok 32 start length) (sextract_w 32 value start length).
Definition sextract64 (value start length : Z) : option Z :=
  checked (field_ok 64 start length) (sextract_w 64 value start length).
Definition deposit32 (value start length fieldval : Z) : option Z :=
  checked (field_ok 32 start length) (deposit_w 32 value start length fieldval).
Definition deposit64 (value start length fieldval : Z) : option Z :=
  checked (field_ok 64 start length) (deposit_w 64 value start length fieldval).

(** *** Half shuffles *)

Definition half_shuffle32 (x : Z) : Z :=
  let x := uint 32 x in
  let x := Z.lor (uint 32 (Z.shiftl (Z.land x 0xFF00) 8)) (Z.land x 0x00FF) in
  let x := Z.land (Z.lor (uint 32 (Z.shiftl x 4)) x) 0x0F0F0F0F in
  let x := Z.land (Z.lor (uint 32 (Z.shiftl x 2)) x) 0x33333333 in
  let x := Z.land (Z.lor (uint 32 (Z.shiftl x 1)) x) 0x55555555 in
  x.

Definition half_shuffle64 (x : Z) : Z :=
  let x := uint 64 x in
  let x := Z.lor (uint 64 (Z.shiftl (Z.land x 0xFFFF0000) 16)) (Z.land x 0xFFFF) in
  let x := Z.land (Z.lor (uint 64 (Z.shiftl x 8)) x) 0x00FF00FF00FF00FF in
  let x := Z.land (Z.lor (uint 64 (Z.shiftl x 4)) x) 0x0F0F0F0F0F0F0F0F in
  let x := Z.land (Z.lor (uint 64 (Z.shiftl x 2)) x) 0x3333333333333333 in
  let x := Z.land (Z.lor (uint 64 (Z.shiftl x 1)) x) 0x5555555555555555 in
  x.

Definition half_unshuffle32 (x : Z) : Z :=
  let x := Z.land (uint 32 x) 0x55555555 in
  let x := Z.land (Z.lor (Z.shiftr x 1) x) 0x33333333 in
  let x := Z.land (Z.lor (Z.shiftr x 2) x) 0x0F0F0F0F in
  let x := Z.land (Z.lor (Z.shiftr x 4) x) 0x00FF00FF in
  let x := Z.land (Z.lor (Z.shiftr x 8) x) 0x0000FFFF in
  x.

Definition half_unshuffle64 (x : Z) : Z :=
  let x := Z.land (uint 64 x) 0x5555555555555555 in
  let x := Z.land (Z.lor (Z.shiftr x 1) x) 0x3333333333333333 in
  let x := Z.land (Z.lor (Z.shiftr x 2) x) 0x0F0F0F0F0F0F0F0F in
  let x := Z.land (Z.lor (Z.shiftr x 4) x) 0x00FF00FF00FF00FF in
  let x := Z.land (Z.lor (Z.shiftr x 8) x) 0x0000FFFF0000FFFF in
  let x := Z.land (Z.lor (Z.shiftr x 16) x) 0x00000000FFFFFFFF in
  x.

(** *** Byte swaps *)

(** Byte [k] of a word. *)
Definition byte_of (x k : Z) : Z := Z.land (Z.shiftr x (8 * k)) 0xff.

(** [__builtin_bswap16/32/64] of the compiler: byte [k] moves to byte
    [n - 1 - k]. *)
Fixpoint bswap_bytes (n : nat) (x : Z) : Z :=
  match n with
  | O => 0
  | S n' => Z.lor (Z.shiftl (byte_of x 0) (8 * Z.of_nat n'))
                  (bswap_bytes n' (Z.shiftr x 8))
  end.

Definition bswap16 (x : Z) : Z := bswap_bytes 2 (uint 16 x).
Definition bswap32 (x : Z) : Z := bswap_bytes 4 (uint 32 x).
Definition bswap64 (x : Z) : Z := bswap_bytes 8 (uint 64 x).

Definition bswap24 (x : Z) : Z :=
  Z.lor (Z.lor (uint 32 (Z.shiftl (Z.land (uint 32 x) 0x000000ff) 16))
               (Z.shiftl (Z.land (uint 32 x) 0x0000ff00) 0))
        (Z.shiftr (Z.land (uint 32 x) 0x00ff0000) 16).

(** *** Counting bits *)

(** [__builtin_clz]/[__builtin_clzll] for a non-zero [w]-bit argument. *)
Definition builtin_clz (w x : Z) : Z := w - 1 - Z.log2 x.

(** [__builtin_ctz]/[__builtin_ctzll] for a non-zero argument. *)
Fixpoint pos_ctz (p : positive) : Z :=
  match p with
  | xO q => 1 + pos_ctz q
  | _ => 0
  end.

Definition builtin_ctz (x : Z) : Z :=
  match x with Zpos p => pos_ctz p | _ => 0 end.

(** [__builtin_popcount]/[__builtin_popcountll]. *)
Fixpoint pos_popcount (p : positive) : Z :=
  match p with
  | xI q => 1 + pos_popcount q
  | xO q => pos_popcount q
  | xH => 1
  end.

Definition builtin_popcount (x : Z) : Z :=
  match x with Zpos p => pos_popcount p | _ => 0 end.

Definition clz8 (val : Z) : Z :=
  if uint 8 val =? 0 then 8 else builtin_clz 32 (uint 8 val) - 24.
Definition clz16 (val : Z) : Z :=
  if uint 16 val =? 0 then 16 else builtin_clz 32 (uint 16 val) - 16.
Definition clz32 (val : Z) : Z :=
  if uint 32 val =? 0 then 32 else builtin_clz 32 (uint 32 val).
Definition clo32 (val : Z) : Z := clz32 (Z.lnot val).
Definition clz64 (val : Z) : Z :=
  if uint 64 val =? 0 then 64 else builtin_clz 64 (uint 64 val).
Definition clo64 (val : Z) : Z := clz64 (Z.lnot val).
Definition ctz8 (val : Z) : Z :=
  if uint 8 val =? 0 then 8 else builtin_ctz (uint 8 val).
Definition ctz16 (val : Z) : Z :=
  if uint 16 val =? 0 then 16 else builtin_ctz (uint 16 val).
Definition ctz32 (val : Z) : Z :=
  if uint 32 val =? 0 then 32 else builtin_ctz (uint 32 val).
Definition cto32 (val : Z) : Z := ctz32 (Z.lnot val).
Definition ctz64 (val : Z) : Z :=
  if uint 64 val =? 0 then 64 else builtin_ctz (uint 64 val).
Definition cto64 (val : Z) : Z := ctz64 (Z.lnot val).

(** The branch of [clrsb32]/[clrsb64] without the compiler's builtin. *)
Definition clrsb32 (val : Z) : Z :=
  clz32 (Z.lxor (uint 32 val) (Z.shiftr (sint 32 val) 1)) - 1.
Definition clrsb64 (val : Z) : Z :=
  clz64 (Z.lxor (uint 64 val) (Z.shiftr (sint 64 val) 1)) - 1.

Definition ctpop8 (val : Z) : Z := builtin_popcount (uint 8 val).
Definition ctpop16 (val : Z) : Z := builtin_popcount (uint 16 val).
Definition ctpop32 (val : Z) : Z := builtin_popcount (uint 32 val).
Definition ctpop64 (val : Z) : Z := builtin_popcount (uint 64 val).

(** *** Bit reversal (the branches without the compiler's builtin) *)

Definition revbit8 (x : Z) : Z :=
  let x := uint 8 x in
  let x := uint 8 (Z.lor (Z.shiftr (Z.land x 0xf0) 4) (Z.shiftl (Z.land x 0x0f) 4)) in
  uint 8 (Z.lor (Z.lor (Z.lor (Z.shiftr (Z.land x 0x88) 3) (Z.shiftr (Z.land x 0x44) 1))
                       (Z.shiftl (Z.land x 0x22) 1)) (Z.shiftl (Z.land x 0x11) 3)).

Definition revbit16 (x : Z) : Z :=
  let x := bswap16 x in
  let x := uint 16 (Z.lor (Z.shiftr (Z.land x 0xf0f0) 4) (Z.shiftl (Z.land x 0x0f0f) 4)) in
  uint 16 (Z.lor (Z.lor (Z.lor (Z.shiftr (Z.land x 0x8888) 3) (Z.shiftr (Z.land x 0x4444) 1))
                        (Z.shiftl (Z.land x 0x2222) 1)) (Z.shiftl (Z.land x 0x1111) 3)).

Definition revbit32 (x : Z) : Z :=
  let x := bswap32 x in
  let x := uint 32 (Z.lor (Z.shiftr (Z.land x 0xf0f0f0f0) 4)
                          (Z.shiftl (Z.land x 0x0f0f0f0f) 4)) in
  uint 32 (Z.lor (Z.lor (Z.lor (Z.shiftr (Z.land x 0x88888888) 3)
                               (Z.shiftr (Z.land x 0x44444444) 1))
                        (Z.shiftl (Z.land x 0x22222222) 1))
                 (Z.shiftl (Z.land x 0x11111111) 3)).

Definition revbit64 (x : Z) : Z :=
  let x := bswap64 x in
  let x := uint 64 (Z.lor (Z.shiftr (Z.land x 0xf0f0f0f0f0f0f0f0) 4)
                          (Z.shiftl (Z.land x 0x0f0f0f0f0f0f0f0f) 4)) in
  uint 64 (Z.lor (Z.lor (Z.lor (Z.shiftr (Z.land x 0x8888888888888888) 3)
                               (Z.shiftr (Z.land x 0x4444444444444444) 1))
                        (Z.shiftl (Z.land x 0x2222222222222222) 1))
                 (Z.shiftl (Z.land x 0x1111111111111111) 3)).

(** *** Powers of two *)

Definition is_power_of_2 (value : Z) : bool :=
  let value := uint 64 value in
  if value =? 0 then false else Z.land value (value - 1) =? 0.

Definition pow2floor (value : Z) : Z :=
  let value := uint 64 value in
  if value =? 0 then 0 else Z.shiftr 0x8000000000000000 (clz64 value).

Definition pow2ceil (value : Z) : Z :=
  let value := uint 64 value in
  let n := clz64 (value - 1) in
  if n =? 0 then b2z (value =? 0) else Z.shiftr 0x8000000000000000 (n - 1).

Definition pow2roundup32 (x : Z) : Z :=
  let x := uint 32 x in
  let x := Z.lor x (Z.shiftr x 1) in
  let x := Z.lor x (Z.shiftr x 2) in
  let x := Z.lor x (Z.shiftr x 4) in
  let x := Z.lor x (Z.shiftr x 8) in
  let x := Z.lor x (Z.shiftr x 16) in
  uint 32 (x + 1).

(** ** Bit fields *)

Lemma ones_uint_shiftr w l i :
  0 < l <= w -> 0 <= i -> Z.testbit (Z.shiftr (uint w (-1)) (w - l)) i = (i <? l).
Proof. intros. repeat (progress autorewrite with zbits). split_cmp; close_bits. Qed.

#[export] Hint Rewrite ones_uint_shiftr using lia : zbits.

Lemma extract_w_testbit w x p l i :
  0 <= p -> 0 < l -> p + l <= w -> 0 <= i ->
  Z.testbit (extract_w w x p l) i = (i <? l) && Z.testbit x (i + p).
Proof.
  intros. unfold extract_w. repeat (progress autorewrite with zbits).
  split_cmp; close_bits.
Qed.

Lemma sextract_w_testbit w x p l i :
  0 <= p -> 0 < l -> p + l <= w -> 0 <= i ->
  Z.testbit (sextract_w w x p l) i = Z.testbit x ((if i <? l then i else l - 1) + p).
Proof.
  intros. unfold sextract_w. repeat (progress autorewrite with zbits).
  split_cmp; repeat (progress autorewrite with zbits); split_cmp; close_bits.
Qed.

Lemma deposit_w_testbit w x p l y i :
  0 <= p -> 0 < l -> p + l <= w -> 0 <= i ->
  Z.testbit (deposit_w w x p l y) i =
  if (p <=? i) && (i <? p + l) then Z.testbit y (i - p)
  else (i <? w) && Z.testbit x i.
Proof.
  intros. unfold deposit_w. repeat (progress autorewrite with zbits).
  split_cmp; repeat (progress autorewrite with zbits); split_cmp; close_bits.
Qed.

#[export] Hint Rewrite extract_w_testbit sextract_w_testbit deposit_w_testbit using lia : zbits.

(** [sextract] is sign extension of the field. *)
Lemma sextract_w_sint w x p l :
  0 <= p -> 0 < l -> p + l <= w -> sextract_w w x p l = sint l (Z.shiftr x p).
Proof. intros. zbits. Qed.

Lemma extract_w_uint w x p l :
  0 <= p -> 0 < l -> p + l <= w -> extract_w w x p l = uint l (Z.shiftr x p).
Proof. intros. zbits. Qed.

Lemma deposit_w_range w x p l y :
  0 <= p -> 0 < l -> p + l <= w -> 0 <= deposit_w w x p l y < 2 ^ w.
Proof.
  intros. assert (deposit_w w x p l y = uint w (deposit_w w x p l y)) as -> by zbits.
  apply uint_range. lia.
Qed.

Lemma field_ok_true w start length :
  field_ok w start length = true <-> 0 <= start /\ 0 < length /\ start + length <= w.
Proof. unfold field_ok. rewrite !andb_true_iff. lia. Qed.

Lemma extract_deposit w v p l f p' l' :
  0 <= p -> 0 < l -> p + l <= w -> 0 <= p' -> 0 < l' -> p' + l' <= w ->
  p' + l' <= p \/ p + l <= p' ->
  extract_w w (deposit_w w v p l f) p' l' = extract_w w v p' l'.
Proof. intros. zbits. Qed.

(** ** Rotations *)

Lemma land_pow2_mask k m : 0 <= m -> Z.land k (2 ^ m - 1) = k mod 2 ^ m.
Proof. intros. rewrite <- Z.land_ones by done. f_equal. rewrite Z.ones_equiv. lia. Qed.

(** The widths of the rotation functions. *)
Definition rot_width (w : Z) : Prop := w = 8 \/ w = 16 \/ w = 32 \/ w = 64.

Lemma land_rot_mask w k : rot_width w -> Z.land k (w - 1) = k mod w.
Proof.
  intros [-> | [-> | [-> | ->]]].
  - apply (land_pow2_mask k 3). lia.
  - apply (land_pow2_mask k 4). lia.
  - apply (land_pow2_mask k 5). lia.
  - apply (land_pow2_mask k 6). lia.
Qed.

Lemma rot_width_pos w : rot_width w -> 0 < w.
Proof. unfold rot_width. lia. Qed.

Lemma opp_mod w k : 0 < w -> (- k) mod w = if k mod w =? 0 then 0 else w - k mod w.
Proof.
  intros. destruct (Z.eqb_spec (k mod w) 0).
  - by apply Z_mod_zero_opp_full.
  - by apply Z_mod_nz_opp_full.
Qed.

Lemma rol_testbit w x k i :
  rot_width w -> 0 <= i < w ->
  Z.testbit (rol w x k) i = Z.testbit x ((i - k) mod w).
Proof.
  intros Hw Hi. pose proof (rot_width_pos w Hw) as Hp.
  unfold rol. rewrite !land_rot_mask, opp_mod by done.
  pose proof (Z.mod_pos_bound k w Hp) as Hk.
  assert (Hmod : (i - k) mod w = if k mod w <=? i then i - k mod w else i - k mod w + w).
  { rewrite <- Zminus_mod_idemp_r. destruct (Z.leb_spec (k mod w) i).
    - apply Z.mod_small; lia.
    - symmetry. apply (Z.mod_unique _ _ (-1)); lia. }
  rewrite Hmod. destruct (Z.eqb_spec (k mod w) 0) as [E | E].
  - rewrite E. repeat (progress autorewrite with zbits). split_cmp; close_bits.
    replace (i - 0) with i by lia. replace (i + 0) with i by lia. by rewrite orb_diag.
  - repeat (progress autorewrite with zbits). split_cmp; close_bits.
Qed.

Lemma rol_range w x k : 0 <= w -> 0 <= rol w x k < 2 ^ w.
Proof. intros. by apply uint_range. Qed.

(** A right rotation is a left rotation by the opposite amount. *)
Lemma ror_rol w x k : ror w x k = rol w x (- k).
Proof. unfold ror, rol. rewrite Z.opp_involutive. by rewrite Z.lor_comm. Qed.

(** Two [w]-bit words with the same [w] low bits are equal. *)
Lemma word_ext w x y :
  0 <= x < 2 ^ w -> 0 <= y < 2 ^ w ->
  (forall i, 0 <= i < w -> Z.testbit x i = Z.testbit y i) -> x = y.
Proof.
  intros Hx Hy H. apply Z.bits_inj'; intros i Hi.
  destruct (Z.ltb_spec i w); [by apply H |].
  by rewrite (testbit_above w x), (testbit_above w y).
Qed.

Lemma rol_rol w x j k : rot_width w -> rol w (rol w x j) k = rol w x (j + k).
Proof.
  intros Hw. pose proof (rot_width_pos w Hw).
  apply (word_ext w); [by apply rol_range; lia | by apply rol_range; lia |].
  intros i Hi. rewrite (rol_testbit w (rol w x j)), (rol_testbit w x (j + k)) by done.
  rewrite rol_testbit by (done || apply Z.mod_pos_bound; lia).
  f_equal. rewrite Zminus_mod_idemp_l. f_equal. lia.
Qed.

Lemma rol_0 w x : rot_width w -> rol w x 0 = uint w x.
Proof.
  intros Hw. pose proof (rot_width_pos w Hw).
  apply (word_ext w); [by apply rol_range; lia | by apply uint_range; lia |].
  intros i Hi. rewrite rol_testbit, uint_testbit by (done || lia).
  rewrite Z.sub_0_r, Z.mod_small by done. destruct (Z.ltb_spec i w); [done | lia].
Qed.

(** The open-coded rotation by a constant, as the code generator emits it. *)
Lemma rol_shifts w x k :
  rot_width w -> 0 < k < w ->
  rol w x k = Z.lor (uint w (Z.shiftl (uint w x) k)) (Z.shiftr (uint w x) (w - k)).
Proof.
  intros Hw Hk. unfold rol. rewrite !land_rot_mask, opp_mod by (done || lia).
  rewrite (Z.mod_small k w) by lia. destruct (Z.eqb_spec k 0); [lia |]. zbits.
Qed.

(** ** Byte swaps and bit reversal *)

(** The bit that a byte swap of [n] bytes moves to position [i]. *)
Definition bswap_src (n i : Z) : Z := 8 * (n - 1 - i / 8) + i mod 8.

Ltac unfold_bswap :=
  unfold bswap16, bswap32, bswap64, bswap24; cbn [bswap_bytes]; unfold byte_of.

Lemma bswap16_testbit x i :
  0 <= i < 16 -> Z.testbit (bswap16 x) i = Z.testbit x (bswap_src 2 i).
Proof. intros. unfold_bswap. bit_source 16%nat x (fun i => [bswap_src 2 i]). apply orb_false_r. Qed.

Lemma bswap32_testbit x i :
  0 <= i < 32 -> Z.testbit (bswap32 x) i = Z.testbit x (bswap_src 4 i).
Proof. intros. unfold_bswap. bit_source 32%nat x (fun i => [bswap_src 4 i]). apply orb_false_r. Qed.

Lemma bswap64_testbit x i :
  0 <= i < 64 -> Z.testbit (bswap64 x) i = Z.testbit x (bswap_src 8 i).
Proof. intros. unfold_bswap. bit_source 64%nat x (fun i => [bswap_src 8 i]). apply orb_false_r. Qed.

Lemma byte_of_range x k : 0 <= k -> 0 <= byte_of x k < 256.
Proof.
  intros. unfold byte_of. change 0xff with (Z.ones 8). rewrite Z.land_ones by lia.
  apply Z.mod_pos_bound. lia.
Qed.

Lemma lor_range w x y : 0 <= x < 2 ^ w -> 0 <= y < 2 ^ w -> 0 <= Z.lor x y < 2 ^ w.
Proof.
  intros Hx Hy. assert (0 <= w) by (destruct (Z.ltb_spec w 0); [rewrite Z.pow_neg_r in Hx; lia | done]).
  assert (Z.lor x y = uint w (Z.lor x y)) as ->.
  { rewrite uint_lor by done. by rewrite !uint_small. }
  by apply uint_range.
Qed.

Lemma bswap_bytes_range n x : 0 <= bswap_bytes n x < 2 ^ (8 * Z.of_nat n).
Proof.
  revert x. induction n as [|n IH]; intros x; [done|].
  cbn [bswap_bytes].
  replace (8 * Z.of_nat (S n)) with (8 * Z.of_nat n + 8) by lia.
  pose proof (byte_of_range x 0 ltac:(lia)) as Hb. pose proof (IH (Z.shiftr x 8)) as Hr.
  pose proof (pow2_pos (8 * Z.of_nat n) ltac:(lia)).
  rewrite shiftl_mul by lia.
  apply lor_range; rewrite Z.pow_add_r by lia; change (2 ^ 8) with 256; nia.
Qed.

Lemma bswap16_range x : 0 <= bswap16 x < 2 ^ 16.
Proof. apply (bswap_bytes_range 2). Qed.
Lemma bswap32_range x : 0 <= bswap32 x < 2 ^ 32.
Proof. apply (bswap_bytes_range 4). Qed.
Lemma bswap64_range x : 0 <= bswap64 x < 2 ^ 64.
Proof. apply (bswap_bytes_range 8). Qed.

Lemma bswap_src_range n i : 0 <= i < 8 * n -> 0 <= bswap_src n i < 8 * n.
Proof. intros. unfold bswap_src. Z.div_mod_to_equations. lia. Qed.

Lemma bswap_src_involutive n i : 0 <= i < 8 * n -> bswap_src n (bswap_src n i) = i.
Proof. intros. unfold bswap_src. Z.div_mod_to_equations. lia. Qed.

(** Bit reversal: bit [i] of the result is bit [w - 1 - i] of the argument. *)
Lemma revbit8_testbit x i : 0 <= i < 8 -> Z.testbit (revbit8 x) i = Z.testbit x (7 - i).
Proof. intros. unfold revbit8. bit_source 8%nat x (fun i => [7 - i]). apply orb_false_r. Qed.
Lemma revbit16_testbit x i : 0 <= i < 16 -> Z.testbit (revbit16 x) i = Z.testbit x (15 - i).
Proof. intros. unfold revbit16. unfold_bswap. bit_source 16%nat x (fun i => [15 - i]). apply orb_false_r. Qed.
Lemma revbit32_testbit x i : 0 <= i < 32 -> Z.testbit (revbit32 x) i = Z.testbit x (31 - i).
Proof. intros. unfold revbit32. unfold_bswap. bit_source 32%nat x (fun i => [31 - i]). apply orb_false_r. Qed.
Lemma revbit64_testbit x i : 0 <= i < 64 -> Z.testbit (revbit64 x) i = Z.testbit x (63 - i).
Proof. intros. unfold revbit64. unfold_bswap. bit_source 64%nat x (fun i => [63 - i]). apply orb_false_r. Qed.

(** Half shuffles spread the low half over the even bits and back. *)
Lemma half_shuffle32_testbit x i :
  0 <= i < 32 ->
  Z.testbit (half_shuffle32 x) i = if Z.even i then Z.testbit x (i / 2) else false.
Proof.
  intros. unfold half_shuffle32.
  bit_source 32%nat x (fun i => if Z.even i then [i / 2] else []).
  destruct (Z.even i); simpl; [apply orb_false_r | done].
Qed.

Lemma half_shuffle64_testbit x i :
  0 <= i < 64 ->
  Z.testbit (half_shuffle64 x) i = if Z.even i then Z.testbit x (i / 2) else false.
Proof.
  intros. unfold half_shuffle64.
  bit_source 64%nat x (fun i => if Z.even i then [i / 2] else []).
  destruct (Z.even i); simpl; [apply orb_false_r | done].
Qed.

Lemma half_unshuffle32_testbit x i :
  0 <= i < 32 ->
  Z.testbit (half_unshuffle32 x) i = if i <? 16 then Z.testbit x (2 * i) else false.
Proof.
  intros. unfold half_unshuffle32.
  bit_source 32%nat x (fun i => if i <? 16 then [2 * i] else []).
  destruct (i <? 16); simpl; [apply orb_false_r | done].
Qed.

Lemma half_unshuffle64_testbit x i :
  0 <= i < 64 ->
  Z.testbit (half_unshuffle64 x) i = if i <? 32 then Z.testbit x (2 * i) else false.
Proof.
  intros. unfold half_unshuffle64.
  bit_source 64%nat x (fun i => if i <? 32 then [2 * i] else []).
  destruct (i <? 32); simpl; [apply orb_false_r | done].
Qed.

Lemma hswap64_testbit x i :
  0 <= i < 64 -> Z.testbit (hswap64 x) i = Z.testbit x (16 * (3 - i / 16) + i mod 16).
Proof.
  intros. unfold hswap64, rol64, rol.
  bit_source 64%nat x (fun i => [16 * (3 - i / 16) + i mod 16]). apply orb_false_r.
Qed.
