(* ===== verification/BitCount.v ===== *)
(** * Counting bits: lemmas about clz, ctz, ctpop and clrsb

    The counting functions of include/qemu/host-utils.h (defined in Bitops.v)
    characterised by their highest or lowest set bit, and the identities that
    the TCG expansions of clz, ctz and clrsb in tcg/tcg-op.c rest on. *)

From Stdlib Require Import ZArith Lia Bool Btauto.
From stdpp Require Import base numbers list.
From S2P Require Import Prelude.
From S2P Require Import Bitops.

Local Open Scope Z_scope.

(** ** Counting bits *)

Definition clz_w (w x : Z) : Z := if uint w x =? 0 then w else builtin_clz w (uint w x).
Definition ctz_w (w x : Z) : Z := if uint w x =? 0 then w else builtin_ctz (uint w x).
Definition ctpop_w (w x : Z) : Z := builtin_popcount (uint w x).

Lemma clz32_w x : clz32 x = clz_w 32 x. Proof. done. Qed.
Lemma clz64_w x : clz64 x = clz_w 64 x. Proof. done. Qed.
Lemma ctz32_w x : ctz32 x = ctz_w 32 x. Proof. done. Qed.
Lemma ctz64_w x : ctz64 x = ctz_w 64 x. Proof. done. Qed.
Lemma ctpop32_w x : ctpop32 x = ctpop_w 32 x. Proof. done. Qed.
Lemma ctpop64_w x : ctpop64 x = ctpop_w 64 x. Proof. done. Qed.

(** The highest set bit determines the count of leading zeros. *)
Lemma clz_w_unique w x k :
  0 <= k < w -> Z.testbit x k = true ->
  (forall j, k < j < w -> Z.testbit x j = false) ->
  clz_w w x = w - 1 - k.
Proof.
  intros Hk Hset Hclear. unfold clz_w, builtin_clz.
  assert (Hk' : Z.testbit (uint w x) k = true).
  { rewrite uint_testbit by lia. destruct (Z.ltb_spec k w); [done | lia]. }
  pose proof (uint_range w x ltac:(lia)) as Hr.
  destruct (Z.eqb_spec (uint w x) 0) as [E | E]; [by rewrite E, Z.bits_0 in Hk' |].
  assert (Hlog : Z.log2 (uint w x) = k); [| lia].
  destruct (Z.lt_trichotomy (Z.log2 (uint w x)) k) as [Hlt | [-> | Hgt]]; [| done |].
  - rewrite Z.bits_above_log2 in Hk'; [done | lia | lia].
  - assert (Hbit := Z.bit_log2 (uint w x) ltac:(lia)).
    assert (Z.log2 (uint w x) < w).
    { apply Z.log2_lt_pow2; lia. }
    rewrite uint_testbit in Hbit by lia.
    rewrite Hclear in Hbit by lia. by rewrite andb_false_r in Hbit.
Qed.

Lemma clz_w_zero w x : uint w x = 0 -> clz_w w x = w.
Proof. intros E. unfold clz_w. by rewrite E. Qed.

(** Every non-zero word has a highest and a lowest set bit. *)
Lemma highest_bit w x :
  0 <= w -> uint w x <> 0 ->
  exists k, 0 <= k < w /\ Z.testbit x k = true /\ forall j, k < j < w -> Z.testbit x j = false.
Proof.
  intros Hw E. pose proof (uint_range w x Hw) as Hr.
  exists (Z.log2 (uint w x)).
  assert (0 <= Z.log2 (uint w x) < w).
  { split; [apply Z.log2_nonneg | apply Z.log2_lt_pow2; lia]. }
  split; [done |]. split.
  - pose proof (Z.bit_log2 (uint w x) ltac:(lia)) as Hb.
    rewrite uint_testbit in Hb by done. apply andb_true_iff in Hb as [_ Hb]. done.
  - intros j Hj. assert (Hb : Z.testbit (uint w x) j = false) by (apply Z.bits_above_log2; lia).
    rewrite uint_testbit in Hb by done. destruct (Z.ltb_spec j w); [done | lia].
Qed.

Lemma pos_ctz_spec p :
  0 <= pos_ctz p /\ Z.testbit (Zpos p) (pos_ctz p) = true /\
  forall j, j < pos_ctz p -> Z.testbit (Zpos p) j = false.
Proof.
  induction p as [p IH | p IH |]; cbn [pos_ctz].
  - split; [lia |]. split; [done |]. intros j Hj. apply Z.testbit_neg_r. lia.
  - destruct IH as (H0 & H1 & H2). rewrite Pos2Z.inj_xO. split; [lia |]. split.
    + rewrite Z.add_1_l, Z.testbit_even_succ by lia. done.
    + intros j Hj. destruct (Z.ltb_spec j 0); [by apply Z.testbit_neg_r |].
      destruct (Z.eqb_spec j 0) as [-> | Hne]; [apply Z.testbit_even_0 |].
      replace j with (Z.succ (j - 1)) by lia. rewrite Z.testbit_even_succ by lia.
      apply H2. lia.
  - split; [lia |]. split; [done |]. intros j Hj. apply Z.testbit_neg_r. lia.
Qed.

Lemma ctz_w_spec w x :
  0 <= w -> uint w x <> 0 ->
  0 <= ctz_w w x < w /\ Z.testbit x (ctz_w w x) = true /\
  forall j, j < ctz_w w x -> Z.testbit x j = false.
Proof.
  intros Hw E. unfold ctz_w. destruct (Z.eqb_spec (uint w x) 0); [done |].
  pose proof (uint_range w x Hw) as Hr.
  destruct (uint w x) as [| p | p] eqn:Eu; [done | | lia].
  cbn [builtin_ctz]. destruct (pos_ctz_spec p) as (H0 & H1 & H2).
  rewrite <- Eu in H1, H2. rewrite uint_testbit in H1 by done.
  apply andb_true_iff in H1 as [Hlt%Z.ltb_lt H1].
  split; [lia |]. split; [done |]. intros j Hj. specialize (H2 j Hj).
  rewrite uint_testbit in H2 by done. destruct (Z.ltb_spec j w); [done | lia].
Qed.

Lemma ctz_w_unique w x k :
  0 <= k < w -> Z.testbit x k = true -> (forall j, 0 <= j < k -> Z.testbit x j = false) ->
  ctz_w w x = k.
Proof.
  intros Hk Hset Hclear.
  assert (E : uint w x <> 0).
  { intros E. assert (Hb : Z.testbit (uint w x) k = true).
    - rewrite uint_testbit by lia. destruct (Z.ltb_spec k w); [done | lia].
    - by rewrite E, Z.bits_0 in Hb. }
  destruct (ctz_w_spec w x ltac:(lia) E) as (H0 & H1 & H2).
  destruct (Z.lt_trichotomy (ctz_w w x) k) as [Hlt | [-> | Hgt]]; [| done |].
  - by rewrite Hclear in H1 by lia.
  - by rewrite H2 in Hset by lia.
Qed.

Lemma ctz_w_zero w x : uint w x = 0 -> ctz_w w x = w.
Proof. intros E. unfold ctz_w. by rewrite E. Qed.

(** *** Population count *)

Lemma popcount_double x : 0 <= x -> builtin_popcount (2 * x) = builtin_popcount x.
Proof. intros. destruct x as [| p | p]; [done | done | lia]. Qed.

Lemma popcount_double_1 x : 0 <= x -> builtin_popcount (2 * x + 1) = 1 + builtin_popcount x.
Proof. intros. destruct x as [| p | p]; [done | done | lia]. Qed.

Lemma popcount_ones n : 0 <= n -> builtin_popcount (Z.ones n) = n.
Proof.
  intros Hn. pattern n. apply natlike_ind; [done | | done].
  intros k Hk IH. replace (Z.ones (Z.succ k)) with (2 * Z.ones k + 1).
  - rewrite popcount_double_1; [lia | rewrite Z.ones_equiv; pose proof (pow2_pos k Hk); lia].
  - rewrite !Z.ones_equiv, Z.pow_succ_r by lia. lia.
Qed.

(** A word whose lowest set bit is [k] is an odd multiple of [2 ^ k]; its
    predecessor has ones below bit [k] and the same bits above. *)
Lemma lowest_bit_form x k :
  0 <= k -> Z.testbit x k = true -> (forall j, 0 <= j < k -> Z.testbit x j = false) ->
  exists q, x = Z.shiftl (2 * q + 1) k /\ x - 1 = Z.lor (Z.shiftl (2 * q) k) (Z.ones k).
Proof.
  intros Hk Hset Hclear. exists (x / 2 ^ k / 2).
  assert (Hm : x mod 2 ^ k = 0).
  { apply Z.bits_inj'; intros j Hj. rewrite Z.bits_0. destruct (Z.ltb_spec j k).
    - rewrite Z.mod_pow2_bits_low by done. apply Hclear; lia.
    - by apply Z.mod_pow2_bits_high. }
  apply Z.testbit_true in Hset; [| done].
  pose proof (pow2_pos k Hk). pose proof (Z.div_mod x (2 ^ k) ltac:(lia)).
  pose proof (Z.div_mod (x / 2 ^ k) 2 ltac:(lia)).
  rewrite lor_add_disjoint by zbits. rewrite !shiftl_mul, Z.ones_equiv by done.
  split; nia.
Qed.

Lemma testbit_odd_even q i : 0 < i -> Z.testbit (2 * q + 1) i = Z.testbit (2 * q) i.
Proof.
  intros Hi. replace i with (Z.succ (i - 1)) by lia.
  by rewrite Z.testbit_even_succ, Z.testbit_odd_succ by lia.
Qed.

(** [(x - 1) & ~x] has a one for each trailing zero of [x]. *)
Lemma pred_andc_ones x k :
  0 <= k -> Z.testbit x k = true -> (forall j, 0 <= j < k -> Z.testbit x j = false) ->
  Z.land (x - 1) (Z.lnot x) = Z.ones k.
Proof.
  intros Hk Hset Hclear. destruct (lowest_bit_form x k Hk Hset Hclear) as (q & Hx & ->).
  rewrite Hx. zbits_at i Hi.
  destruct (Z.eq_dec (i - k) 0) as [-> | Hne].
  - by rewrite Z.testbit_even_0, Z.testbit_odd_0.
  - rewrite testbit_odd_even by lia. btauto.
Qed.

(** [x & -x] is the lowest set bit of [x]. *)
Lemma land_opp_testbit x k j :
  0 <= k -> 0 <= j -> Z.testbit x k = true -> (forall j, 0 <= j < k -> Z.testbit x j = false) ->
  Z.testbit (Z.land x (- x)) j = (j =? k).
Proof.
  intros Hk Hj Hset Hclear. destruct (lowest_bit_form x k Hk Hset Hclear) as (q & Hx & Hp).
  replace (- x) with (Z.lnot (x - 1)) by (unfold Z.lnot; lia).
  rewrite Hp, Hx. autorewrite with zbits. split_cmp; close_bits.
  - subst j. rewrite Z.sub_diag, Z.testbit_even_0, Z.testbit_odd_0. done.
  - rewrite testbit_odd_even by lia. btauto.
Qed.

Lemma lnot_zero_ones w x : 0 < w -> uint w x = 0 -> uint w (Z.lnot x) = Z.ones w.
Proof.
  intros Hw E. apply Z.bits_inj'; intros i Hi.
  rewrite uint_testbit, Z.lnot_spec, ones_testbit by lia.
  destruct (Z.ltb_spec i w); [| done].
  assert (Hb : Z.testbit (uint w x) i = false) by by rewrite E, Z.bits_0.
  rewrite uint_testbit in Hb by lia. destruct (Z.ltb_spec i w); [by simpl in Hb; rewrite Hb | lia].
Qed.

(** *** The identities behind the expansions of tcg-op.c *)

(** [tcg_gen_ctz_i32] with a population count: [ctpop((x - 1) & ~x)]. *)
Lemma ctz_ctpop w x :
  0 < w -> ctpop_w w (Z.land (x - 1) (Z.lnot x)) = ctz_w w x.
Proof.
  intros Hw. unfold ctpop_w. destruct (Z.eq_dec (uint w x) 0) as [E | E].
  - rewrite ctz_w_zero, uint_land, lnot_zero_ones by lia.
    replace (uint w (x - 1)) with (Z.ones w).
    + rewrite Z.land_diag. apply popcount_ones. lia.
    + rewrite <- (lnot_zero_ones w (- x)); [f_equal; unfold Z.lnot; lia | done |].
      unfold uint in *. by apply Z.mod_opp_l_z; [pose proof (pow2_pos w); lia |].
  - destruct (ctz_w_spec w x ltac:(lia) E) as (H0 & H1 & H2).
    rewrite (pred_andc_ones x (ctz_w w x)) by (try done; try lia; intros; apply H2; lia).
    rewrite uint_small; [apply popcount_ones; lia |].
    rewrite Z.ones_equiv. pose proof (pow2_pos (ctz_w w x) ltac:(lia)).
    pose proof (Z.pow_lt_mono_r 2 (ctz_w w x) w). lia.
Qed.

(** [tcg_gen_ctz_i32] with clz: [clz(x & -x) ^ (w - 1)], for [w] a power of two. *)
Lemma ctz_clz e x :
  0 <= e -> uint (2 ^ e) x <> 0 ->
  Z.lxor (clz_w (2 ^ e) (Z.land x (- x))) (2 ^ e - 1) = ctz_w (2 ^ e) x.
Proof.
  intros He E. pose proof (pow2_pos e He).
  destruct (ctz_w_spec (2 ^ e) x ltac:(lia) E) as (H0 & H1 & H2).
  set (k := ctz_w (2 ^ e) x) in *.
  rewrite (clz_w_unique (2 ^ e) (Z.land x (- x)) k); [| lia | |].
  - replace (2 ^ e - 1) with (Z.ones e) by (rewrite Z.ones_equiv; lia).
    replace (Z.ones e - k) with (Z.lxor (Z.ones e) k).
    + by rewrite Z.lxor_comm, <- Z.lxor_assoc, Z.lxor_nilpotent, Z.lxor_0_l.
    + rewrite Z.sub_nocarry_ldiff.
      * apply Z.bits_inj'; intros i Hi. rewrite Z.lxor_spec, Z.ldiff_spec, ones_testbit by done.
        destruct (Z.ltb_spec i e); [by rewrite andb_true_l |].
        rewrite (testbit_above e k i) by lia. done.
      * apply Z.bits_inj'; intros i Hi. rewrite Z.ldiff_spec, ones_testbit, Z.bits_0 by done.
        destruct (Z.ltb_spec i e); [by rewrite andb_false_r |].
        rewrite (testbit_above e k i) by lia. done.
  - rewrite (land_opp_testbit x k k) by (try done; try lia; intros; apply H2; lia).
    apply Z.eqb_refl.
  - intros j Hj. rewrite (land_opp_testbit x k j) by (try done; try lia; intros; apply H2; lia).
    apply Z.eqb_neq. lia.
Qed.

(** [clz] and [ctz] of a word widened to twice its size. *)
Lemma clz_widen w x :
  0 < w -> clz_w (2 * w) (uint w x) = clz_w w x + w.
Proof.
  intros Hw. destruct (Z.eq_dec (uint w x) 0) as [E | E].
  - rewrite E, !clz_w_zero; [lia | done | done].
  - destruct (highest_bit w x ltac:(lia) E) as (k & Hk & H1 & H2).
    rewrite (clz_w_unique w x k) by done.
    rewrite (clz_w_unique (2 * w) (uint w x) k); [lia | lia | |].
    + rewrite uint_testbit by lia. destruct (Z.ltb_spec k w); [done | lia].
    + intros j Hj. rewrite uint_testbit by lia.
      destruct (Z.ltb_spec j w); [apply H2; lia | done].
Qed.

Lemma ctz_widen w x :
  0 < w -> uint w x <> 0 -> ctz_w (2 * w) (uint w x) = ctz_w w x.
Proof.
  intros Hw E. destruct (ctz_w_spec w x ltac:(lia) E) as (H0 & H1 & H2).
  apply ctz_w_unique; [lia | |].
  - rewrite uint_testbit by lia. destruct (Z.ltb_spec (ctz_w w x) w); [done | lia].
  - intros j Hj. rewrite uint_testbit by lia. rewrite H2 by lia. apply andb_false_r.
Qed.

(** *** Redundant sign bits *)

Definition clrsb_w (w x : Z) : Z := clz_w w (Z.lxor (uint w x) (Z.shiftr (sint w x) 1)) - 1.

Lemma clrsb32_w x : clrsb32 x = clrsb_w 32 x. Proof. done. Qed.
Lemma clrsb64_w x : clrsb64 x = clrsb_w 64 x. Proof. done. Qed.

(** [x ^ (x >> 1)], with an arithmetic shift, marks where a bit differs from
    the next higher one; the sign bit itself never differs. *)
Lemma sign_diff_testbit w x i :
  0 < w -> 0 <= i < w ->
  Z.testbit (Z.lxor (uint w x) (Z.shiftr (sint w x) 1)) i =
  xorb (Z.testbit x i) (Z.testbit x (if i <? w - 1 then i + 1 else w - 1)).
Proof. intros. autorewrite with zbits. split_cmp; close_bits. Qed.

(** The bits that differ from the sign bit. *)
Lemma sign_xor_testbit w x i :
  0 < w -> 0 <= i < w ->
  Z.testbit (Z.lxor (uint w x) (Z.shiftr (sint w x) (w - 1))) i =
  xorb (Z.testbit x i) (Z.testbit x (w - 1)).
Proof. intros. autorewrite with zbits. split_cmp; close_bits. Qed.

(** A word is all sign bits, or has a highest bit that differs from them. *)
Lemma sign_run w x :
  0 < w ->
  (forall i, 0 <= i < w -> Z.testbit x i = Z.testbit x (w - 1)) \/
  (exists k, 0 <= k < w - 1 /\ Z.testbit x k = negb (Z.testbit x (w - 1)) /\
     forall j, k < j < w -> Z.testbit x j = Z.testbit x (w - 1)).
Proof.
  intros Hw. set (y := Z.lxor (uint w x) (Z.shiftr (sint w x) (w - 1))).
  destruct (Z.eq_dec (uint w y) 0) as [E | E].
  - left. intros i Hi. assert (Hb : Z.testbit (uint w y) i = false) by by rewrite E, Z.bits_0.
    rewrite uint_testbit in Hb by lia. destruct (Z.ltb_spec i w); [| lia].
    unfold y in Hb. rewrite andb_true_l, sign_xor_testbit in Hb by lia. by apply xorb_eq.
  - right. destruct (highest_bit w y ltac:(lia) E) as (k & Hk & H1 & H2). exists k.
    unfold y in H1, H2. rewrite sign_xor_testbit in H1 by lia.
    split.
    + destruct (Z.eq_dec k (w - 1)) as [-> | ]; [by rewrite xorb_nilpotent in H1 | lia].
    + split; [by destruct (Z.testbit x k), (Z.testbit x (w - 1)) |].
      intros j Hj. specialize (H2 j Hj). rewrite sign_xor_testbit in H2 by lia.
      by apply xorb_eq.
Qed.

Lemma clz_w_all w y :
  0 <= w -> (forall i, 0 <= i < w -> Z.testbit y i = false) -> clz_w w y = w.
Proof.
  intros Hw H. apply clz_w_zero. apply Z.bits_inj'; intros i Hi.
  rewrite uint_testbit, Z.bits_0 by done. destruct (Z.ltb_spec i w); [apply H; lia | done].
Qed.

(** [clrsb] counts the copies of the sign bit below it. *)
Lemma clrsb_w_run w x k :
  0 <= k < w - 1 -> Z.testbit x k = negb (Z.testbit x (w - 1)) ->
  (forall j, k < j < w -> Z.testbit x j = Z.testbit x (w - 1)) ->
  clrsb_w w x = w - 2 - k.
Proof.
  intros Hk H1 H2. unfold clrsb_w. rewrite (clz_w_unique w _ k); [lia | lia | |].
  - rewrite sign_diff_testbit by lia. destruct (Z.ltb_spec k (w - 1)); [| lia].
    rewrite H1, (H2 (k + 1)) by lia. by destruct (Z.testbit x (w - 1)).
  - intros j Hj. rewrite sign_diff_testbit by lia. destruct (Z.ltb_spec j (w - 1)).
    + rewrite (H2 j), (H2 (j + 1)) by lia. apply xorb_nilpotent.
    + rewrite (H2 j) by lia. apply xorb_nilpotent.
Qed.

Lemma clrsb_w_all w x :
  0 < w -> (forall i, 0 <= i < w -> Z.testbit x i = Z.testbit x (w - 1)) -> clrsb_w w x = w - 1.
Proof.
  intros Hw H. unfold clrsb_w. rewrite clz_w_all; [lia | lia |].
  intros i Hi. rewrite sign_diff_testbit by lia. rewrite (H i) by lia.
  destruct (Z.ltb_spec i (w - 1)); [rewrite (H (i + 1)) by lia |]; apply xorb_nilpotent.
Qed.

(** [tcg_gen_clrsb_i32]: [clz(x ^ (x >> (w - 1))) - 1] with an arithmetic shift. *)
Lemma clrsb_clz w x :
  0 < w ->
  clz_w w (Z.lxor (uint w x) (Z.shiftr (sint w x) (w - 1))) - 1 = clrsb_w w x.
Proof.
  intros Hw. destruct (sign_run w x Hw) as [H | (k & Hk & H1 & H2)].
  - rewrite clrsb_w_all, clz_w_all by (try done; try lia; intros; rewrite sign_xor_testbit by lia;
      rewrite H by lia; apply xorb_nilpotent). lia.
  - rewrite (clrsb_w_run w x k) by done. rewrite (clz_w_unique w _ k); [lia | lia | |].
    + rewrite sign_xor_testbit by lia. rewrite H1. by destruct (Z.testbit x (w - 1)).
    + intros j Hj. rewrite sign_xor_testbit by lia. rewrite H2 by lia. apply xorb_nilpotent.
Qed.

(** *** Population count as a sum *)

Definition bit_sum (w : nat) (x : Z) : Z :=
  foldr Z.add 0 (map (fun i => b2z (Z.testbit x (Z.of_nat i))) (seq 0 w)).

Lemma popcount_split x :
  0 <= x -> builtin_popcount x = b2z (Z.testbit x 0) + builtin_popcount (Z.shiftr x 1).
Proof.
  intros Hx. rewrite <- Z.div2_spec.
  destruct x as [| [p | p |] | p]; try done; try lia.
Qed.

Lemma bit_sum_S w x : bit_sum (S w) x = b2z (Z.testbit x 0) + bit_sum w (Z.shiftr x 1).
Proof.
  unfold bit_sum. rewrite <- cons_seq, <- seq_shift, map_cons, map_map. cbn [foldr]. f_equal. f_equal.
  apply map_ext. intros i. rewrite Z.shiftr_spec by lia.
  by replace (Z.of_nat (S i)) with (Z.of_nat i + 1) by lia.
Qed.

Lemma ctpop_w_sum w x : ctpop_w (Z.of_nat w) x = bit_sum w x.
Proof.
  revert x. induction w as [| w IH]; intros x.
  - unfold ctpop_w, uint. by rewrite Z.mod_1_r.
  - rewrite bit_sum_S, <- IH. unfold ctpop_w.
    rewrite popcount_split by (apply uint_range; lia). f_equal.
    + rewrite uint_testbit by lia. destruct (Z.ltb_spec 0 (Z.of_nat (S w))); [done | lia].
    + f_equal. zbits.
Qed.
