(* ===== verification/BitopsSpec.v ===== *)
(** * Properties of the bit-manipulation functions

    The contracts of include/qemu/bitops.h, include/qemu/bswap.h and the
    counting part of include/qemu/host-utils.h, from the lemmas of Bitops.v
    and BitCount.v. *)

From Stdlib Require Import ZArith Lia Bool Btauto.
From stdpp Require Import base numbers list.
From S2P Require Import Prelude.
From S2P Require Import Bitops.
From S2P Require Import BitCount.

Local Open Scope Z_scope.

(** ** Bit fields *)

(** What a bit-field accessor triple promises at width [w]. *)
Definition field_spec (w : Z) (extract sextract : Z -> Z -> Z -> option Z)
    (deposit : Z -> Z -> Z -> Z -> option Z) : Prop :=
  forall v start length f,
    (field_ok w start length = false ->
       extract v start length = None /\ sextract v start length = None /\
       deposit v start length f = None) /\
    (field_ok w start length = true ->
       exists d, deposit v start length f = Some d /\ 0 <= d < 2 ^ w /\
         extract d start length = Some (uint length f) /\
         sextract d start length = Some (sint length f) /\
         (forall start' length', field_ok w start' length' = true ->
            start' + length' <= start \/ start + length <= start' ->
            extract d start' length' = extract v start' length') /\
         (forall e, extract v start length = Some e ->
            deposit v start length e = Some (uint w v))).

Lemma field_spec_w w :
  field_spec w (fun v s l => checked (field_ok w s l) (extract_w w v s l))
    (fun v s l => checked (field_ok w s l) (sextract_w w v s l))
    (fun v s l f => checked (field_ok w s l) (deposit_w w v s l f)).
Proof.
  intros v p l f. unfold checked. split; [by intros -> |]. intros Hok. rewrite Hok.
  apply field_ok_true in Hok as (Hp & Hl & Hw). eexists. split; [done |].
  split; [by apply deposit_w_range |].
  split; [f_equal; rewrite extract_w_uint by done; zbits |].
  split; [f_equal; rewrite sextract_w_sint by done; zbits |]. split.
  - intros p' l' Hok' Hd. rewrite Hok'. apply field_ok_true in Hok' as (Hp' & Hl' & Hw').
    f_equal. by apply extract_deposit.
  - intros e [= <-]. f_equal. zbits.
Qed.

(** C36: on both widths the accessors of bitops.h abort exactly when the field
    leaves the word; a deposited field is read back by extract (zero-extended)
    and sextract (sign-extended), every disjoint field keeps its value, and
    depositing what was extracted changes nothing. *)
Theorem bitfield_accessors :
  field_spec 32 extract32 sextract32 deposit32 /\ field_spec 64 extract64 sextract64 deposit64.
Proof. split; apply field_spec_w. Qed.

(** ** Rotations and permutations *)

Lemma rotate_undo w x k :
  rot_width w -> ror w (rol w x k) k = uint w x /\ rol w (ror w x k) k = uint w x.
Proof.
  intros Hw. rewrite !ror_rol, !rol_rol by done.
  rewrite Z.add_opp_diag_r, Z.add_opp_diag_l. by rewrite rol_0.
Qed.

(** For every width and every shift amount (also those of the width or
    more) rotating left and right are inverse to each other, and bit [i] of a
    left rotation by [k] is bit [i - k] modulo the width. *)
Lemma rotations_inverse x k :
  (ror8 (rol8 x k) k = uint 8 x /\ rol8 (ror8 x k) k = uint 8 x) /\
  (ror16 (rol16 x k) k = uint 16 x /\ rol16 (ror16 x k) k = uint 16 x) /\
  (ror32 (rol32 x k) k = uint 32 x /\ rol32 (ror32 x k) k = uint 32 x) /\
  (ror64 (rol64 x k) k = uint 64 x /\ rol64 (ror64 x k) k = uint 64 x) /\
  (forall i, 0 <= i < 32 -> Z.testbit (rol32 x k) i = Z.testbit x ((i - k) mod 32)) /\
  (forall i, 0 <= i < 64 -> Z.testbit (rol64 x k) i = Z.testbit x ((i - k) mod 64)).
Proof.
  repeat match goal with |- _ /\ _ => split end;
    try (apply rotate_undo; unfold rot_width; tauto);
    intros; apply rol_testbit; unfold rot_width; tauto.
Qed.

(** A function that permutes bits by an involution is an involution. *)
Lemma permutation_involutive w (f : Z -> Z) (g : Z -> Z) x :
  0 <= w -> (forall x, 0 <= f x < 2 ^ w) ->
  (forall x i, 0 <= i < w -> Z.testbit (f x) i = Z.testbit x (g i)) ->
  (forall i, 0 <= i < w -> 0 <= g i < w /\ g (g i) = i) ->
  f (f x) = uint w x.
Proof.
  intros Hw Hr Hb Hg. apply (word_ext w); [apply Hr | by apply uint_range |].
  intros i Hi. destruct (Hg i Hi) as [Hgi Hgg].
  rewrite (Hb (f x)), (Hb x), Hgg, uint_testbit by (done || lia).
  destruct (Z.ltb_spec i w); [done | lia].
Qed.

Lemma hswap64_range x : 0 <= hswap64 x < 2 ^ 64.
Proof.
  unfold hswap64. apply lor_range; [by apply uint_range |].
  change 0x0000ffff0000ffff with (Z.land 0x0000ffff0000ffff (Z.ones 64)).
  rewrite Z.land_assoc, Z.land_ones by lia. apply Z.mod_pos_bound. lia.
Qed.

Lemma byte_ext x y j k :
  0 <= j -> 0 <= k ->
  (forall i, 0 <= i < 8 -> Z.testbit x (8 * j + i) = Z.testbit y (8 * k + i)) ->
  byte_of x j = byte_of y k.
Proof.
  intros Hj Hk H.
  apply (word_ext 8); [by apply byte_of_range.. |]. intros i Hi. unfold byte_of.
  rewrite !Z.land_spec, !Z.shiftr_spec by lia. f_equal.
  rewrite (Z.add_comm i (8 * j)), (Z.add_comm i (8 * k)). by apply H.
Qed.

(** Swapping bytes, halfwords or words twice is the identity, at every
    width; byte [k] of a 32-bit swap is byte [3 - k] of its argument, and of a
    64-bit swap byte [7 - k]. *)
Lemma byte_swaps_involutive x :
  bswap16 (bswap16 x) = uint 16 x /\ bswap32 (bswap32 x) = uint 32 x /\
  bswap64 (bswap64 x) = uint 64 x /\ hswap32 (hswap32 x) = uint 32 x /\
  hswap64 (hswap64 x) = uint 64 x /\ wswap64 (wswap64 x) = uint 64 x /\
  (forall k, 0 <= k < 4 -> byte_of (bswap32 x) k = byte_of x (3 - k)) /\
  (forall k, 0 <= k < 8 -> byte_of (bswap64 x) k = byte_of x (7 - k)).
Proof.
  assert (Hs : forall n i, 0 <= i < 8 * n ->
    0 <= bswap_src n i < 8 * n /\ bswap_src n (bswap_src n i) = i)
    by auto using bswap_src_range, bswap_src_involutive.
  split_and!.
  - apply (permutation_involutive 16 bswap16 (bswap_src 2));
      auto using bswap16_range, bswap16_testbit with lia.
  - apply (permutation_involutive 32 bswap32 (bswap_src 4));
      auto using bswap32_range, bswap32_testbit with lia.
  - apply (permutation_involutive 64 bswap64 (bswap_src 8));
      auto using bswap64_range, bswap64_testbit with lia.
  - unfold hswap32, rol32. rewrite rol_rol by (unfold rot_width; tauto). 
    rewrite <- rol_0 by (unfold rot_width; tauto). reflexivity.
  - apply (permutation_involutive 64 hswap64 (fun i => 16 * (3 - i / 16) + i mod 16));
      auto using hswap64_range, hswap64_testbit with lia.
    intros i Hi. Z.div_mod_to_equations. lia.
  - unfold wswap64, rol64. rewrite rol_rol by (unfold rot_width; tauto).
    rewrite <- rol_0 by (unfold rot_width; tauto). reflexivity.
  - intros k Hk. apply byte_ext; [lia.. |]. intros i Hi.
    rewrite bswap32_testbit by lia. f_equal. unfold bswap_src. Z.div_mod_to_equations. lia.
  - intros k Hk. apply byte_ext; [lia.. |]. intros i Hi.
    rewrite bswap64_testbit by lia. f_equal. unfold bswap_src. Z.div_mod_to_equations. lia.
Qed.

Lemma revbit_involutive w f x :
  0 <= w -> (forall x, 0 <= f x < 2 ^ w) ->
  (forall x i, 0 <= i < w -> Z.testbit (f x) i = Z.testbit x (w - 1 - i)) -> f (f x) = uint w x.
Proof.
  intros Hw Hr Hb. apply (permutation_involutive w f (fun i => w - 1 - i)); [done.. |].
  intros i Hi. lia.
Qed.

Lemma and_mask_range w x m : 0 <= w -> 0 <= m < 2 ^ w -> 0 <= Z.land x m < 2 ^ w.
Proof.
  intros Hw Hm. assert (Z.land x m = uint w (Z.land x m)) as ->; [| by apply uint_range].
  apply Z.bits_inj'; intros i Hi. rewrite uint_testbit, Z.land_spec by done.
  destruct (Z.ltb_spec i w); [done |]. rewrite (testbit_above w m i) by lia. apply andb_false_r.
Qed.

(** The masks [0x5555...] hold the even bits. *)
Definition even_mask_ok (w : nat) (m : Z) : bool :=
  forallb (fun i => Bool.eqb (Z.testbit m (Z.of_nat i)) (Nat.even i)) (seq 0 w).

Lemma even_mask_testbit w m i :
  even_mask_ok w m = true -> 0 <= i < Z.of_nat w -> Z.testbit m i = Z.even i.
Proof.
  intros H Hi. unfold even_mask_ok in H. rewrite forallb_forall in H.
  specialize (H (Z.to_nat i)). rewrite Z2Nat.id in H by lia.
  apply eqb_prop in H; [| apply in_seq; lia].
  rewrite H. rewrite <- (Z2Nat.id i) at 2 by lia.
  generalize (Z.to_nat i). clear. intros n. induction n as [| n IH]; [done |].
  rewrite Nat2Z.inj_succ, Z.even_succ, <- Z.negb_even, <- IH. apply Nat.even_succ.
Qed.

(** Reversing the bits of a word twice is the identity at every width;
    half_unshuffle gathers the even bits that half_shuffle spread, so the two
    are inverse to each other on the words they produce. *)
Lemma revbit_and_half_shuffle x :
  revbit8 (revbit8 x) = uint 8 x /\ revbit16 (revbit16 x) = uint 16 x /\
  revbit32 (revbit32 x) = uint 32 x /\ revbit64 (revbit64 x) = uint 64 x /\
  half_unshuffle32 (half_shuffle32 x) = uint 16 x /\
  half_unshuffle64 (half_shuffle64 x) = uint 32 x /\
  half_shuffle32 (half_unshuffle32 x) = Z.land x 0x55555555 /\
  half_shuffle64 (half_unshuffle64 x) = Z.land x 0x5555555555555555.
Proof.
  split_and!.
  - apply (revbit_involutive 8); [done | by intros; apply uint_range | apply revbit8_testbit].
  - apply (revbit_involutive 16); [done | by intros; apply uint_range | apply revbit16_testbit].
  - apply (revbit_involutive 32); [done | by intros; apply uint_range | apply revbit32_testbit].
  - apply (revbit_involutive 64); [done | by intros; apply uint_range | apply revbit64_testbit].
  - apply (word_ext 16); [by apply and_mask_range | by apply uint_range |]. intros i Hi.
    rewrite half_unshuffle32_testbit, uint_testbit by lia.
    destruct (Z.ltb_spec i 16); [| lia]. rewrite half_shuffle32_testbit by lia.
    rewrite Z.even_mul. replace (2 * i) with (i * 2) by lia. by rewrite Z.div_mul by lia.
  - apply (word_ext 32); [by apply and_mask_range | by apply uint_range |]. intros i Hi.
    rewrite half_unshuffle64_testbit, uint_testbit by lia.
    destruct (Z.ltb_spec i 32); [| lia]. rewrite half_shuffle64_testbit by lia.
    rewrite Z.even_mul. replace (2 * i) with (i * 2) by lia. by rewrite Z.div_mul by lia.
  - apply (word_ext 32); [by apply and_mask_range | by apply and_mask_range |]. intros i Hi.
    rewrite half_shuffle32_testbit, Z.land_spec by lia.
    rewrite (even_mask_testbit 32 0x55555555) by (lia || reflexivity).
    destruct (Z.even i) eqn:E; [| by rewrite andb_false_r]. rewrite andb_true_r.
    apply Z.even_spec in E as [k ->]. rewrite (Z.mul_comm 2 k), Z.div_mul by lia.
    rewrite half_unshuffle32_testbit by lia. destruct (Z.ltb_spec k 16); [f_equal; lia | lia].
  - apply (word_ext 64); [by apply and_mask_range | by apply and_mask_range |]. intros i Hi.
    rewrite half_shuffle64_testbit, Z.land_spec by lia.
    rewrite (even_mask_testbit 64 0x5555555555555555) by (lia || reflexivity).
    destruct (Z.even i) eqn:E; [| by rewrite andb_false_r]. rewrite andb_true_r.
    apply Z.even_spec in E as [k ->]. rewrite (Z.mul_comm 2 k), Z.div_mul by lia.
    rewrite half_unshuffle64_testbit by lia. destruct (Z.ltb_spec k 32); [f_equal; lia | lia].
Qed.

(** The bits of [y] are the bits of [x], bit [i] of [y] from bit [src i]. *)
Definition moved (w y x : Z) (src : Z -> Z) : Prop :=
  0 <= y < 2 ^ w /\ forall i, 0 <= i < w -> Z.testbit y i = Z.testbit x (src i).

Lemma moved_rol w x k : rot_width w -> moved w (rol w x k) x (fun i => (i - k) mod w).
Proof.
  intros Hw. split; [apply uint_range; unfold rot_width in Hw; lia|]. intros. by apply rol_testbit.
Qed.

Lemma moved_ror w x k : rot_width w -> moved w (ror w x k) x (fun i => (i + k) mod w).
Proof.
  intros Hw. rewrite ror_rol. destruct (moved_rol w x (- k) Hw) as [H0 H]. split; [done|].
  intros i Hi. rewrite (H i Hi). f_equal. f_equal. lia.
Qed.

Lemma moved_half w x h : rot_width w -> 0 < h -> w = 2 * h ->
  moved w (rol w x h) x (fun i => h * (1 - i / h) + i mod h).
Proof.
  intros Hw Hh E. destruct (moved_rol w x h Hw) as [H0 H]. split; [done|]. intros i Hi. rewrite (H i Hi). f_equal.
  destruct (Z.ltb_spec i h).
  - rewrite (Z.div_small i h), (Z.mod_small i h) by lia. symmetry. apply (Z.mod_unique _ _ (-1)); lia.
  - replace i with (i - h + 1 * h) at 2 3 by lia. rewrite Z.div_add, Z.mod_add by lia.
    rewrite (Z.div_small (i - h)), (Z.mod_small (i - h) h), (Z.mod_small (i - h) w) by lia. lia.
Qed.

Lemma shuffled_bits x :
  (forall i, 0 <= i < 16 -> Z.testbit (half_shuffle32 x) (2 * i) = Z.testbit x i /\
     Z.testbit (half_shuffle32 x) (2 * i + 1) = false) /\
  (forall i, 0 <= i < 32 -> Z.testbit (half_shuffle64 x) (2 * i) = Z.testbit x i /\
     Z.testbit (half_shuffle64 x) (2 * i + 1) = false).
Proof.
  split; intros i Hi; rewrite ?half_shuffle32_testbit, ?half_shuffle64_testbit by lia;
    rewrite Z.even_add, Z.even_mul; cbn [Z.even Bool.eqb]; (split; [|done]); cbn;
    rewrite (Z.mul_comm 2 i), Z.div_mul by lia; done.
Qed.

(** Where every bit comes from. *)
Lemma bit_positions x k :
  moved 8 (rol8 x k) x (fun i => (i - k) mod 8) /\ moved 8 (ror8 x k) x (fun i => (i + k) mod 8) /\
  moved 16 (rol16 x k) x (fun i => (i - k) mod 16) /\ moved 16 (ror16 x k) x (fun i => (i + k) mod 16) /\
  moved 32 (rol32 x k) x (fun i => (i - k) mod 32) /\ moved 32 (ror32 x k) x (fun i => (i + k) mod 32) /\
  moved 64 (rol64 x k) x (fun i => (i - k) mod 64) /\ moved 64 (ror64 x k) x (fun i => (i + k) mod 64) /\
  moved 16 (bswap16 x) x (fun i => 8 * (1 - i / 8) + i mod 8) /\
  moved 32 (bswap32 x) x (fun i => 8 * (3 - i / 8) + i mod 8) /\
  moved 64 (bswap64 x) x (fun i => 8 * (7 - i / 8) + i mod 8) /\
  moved 32 (hswap32 x) x (fun i => 16 * (1 - i / 16) + i mod 16) /\
  moved 64 (hswap64 x) x (fun i => 16 * (3 - i / 16) + i mod 16) /\
  moved 64 (wswap64 x) x (fun i => 32 * (1 - i / 32) + i mod 32) /\
  moved 8 (revbit8 x) x (fun i => 7 - i) /\
  moved 16 (revbit16 x) x (fun i => 15 - i) /\
  moved 32 (revbit32 x) x (fun i => 31 - i) /\
  moved 64 (revbit64 x) x (fun i => 63 - i) /\
  (forall i, 0 <= i < 16 -> Z.testbit (half_shuffle32 x) (2 * i) = Z.testbit x i /\
     Z.testbit (half_shuffle32 x) (2 * i + 1) = false) /\
  (forall i, 0 <= i < 32 -> Z.testbit (half_shuffle64 x) (2 * i) = Z.testbit x i /\
     Z.testbit (half_shuffle64 x) (2 * i + 1) = false).
Proof.
  pose proof (shuffled_bits x).
  refine (conj (moved_rol 8 x k _) (conj (moved_ror 8 x k _) (conj (moved_rol 16 x k _) (conj (moved_ror 16 x k _)
    (conj (moved_rol 32 x k _) (conj (moved_ror 32 x k _) (conj (moved_rol 64 x k _) (conj (moved_ror 64 x k _)
    (conj (conj (bswap16_range x) (bswap16_testbit x)) (conj (conj (bswap32_range x) (bswap32_testbit x))
    (conj (conj (bswap64_range x) (bswap64_testbit x)) (conj (moved_half 32 x 16 _ _ _)
    (conj (conj (hswap64_range x) (hswap64_testbit x)) (conj (moved_half 64 x 32 _ _ _)
    (conj (conj _ (revbit8_testbit x)) (conj (conj _ (revbit16_testbit x)) (conj (conj _ (revbit32_testbit x))
    (conj (conj _ (revbit64_testbit x)) H)))))))))))))))))); first [by unfold rot_width; tauto | lia | by apply uint_range].
Qed.

(** C37: the functions that permute the bits of a word, at every width.  Each
    moves its bits where it should: rotations by any amount (also one of the
    width or more), byte, halfword and word swaps, bit reversal and
    half_shuffle; half_unshuffle gathers the even bits.  And they undo each
    other: rotations left and right, swaps and bit reversal twice, and
    half_unshuffle after half_shuffle, on the bits they keep. *)
Theorem word_permutations x k :
  (moved 8 (rol8 x k) x (fun i => (i - k) mod 8) /\ moved 8 (ror8 x k) x (fun i => (i + k) mod 8) /\
  moved 16 (rol16 x k) x (fun i => (i - k) mod 16) /\ moved 16 (ror16 x k) x (fun i => (i + k) mod 16) /\
  moved 32 (rol32 x k) x (fun i => (i - k) mod 32) /\ moved 32 (ror32 x k) x (fun i => (i + k) mod 32) /\
  moved 64 (rol64 x k) x (fun i => (i - k) mod 64) /\ moved 64 (ror64 x k) x (fun i => (i + k) mod 64) /\
  moved 16 (bswap16 x) x (fun i => 8 * (1 - i / 8) + i mod 8) /\
  moved 32 (bswap32 x) x (fun i => 8 * (3 - i / 8) + i mod 8) /\
  moved 64 (bswap64 x) x (fun i => 8 * (7 - i / 8) + i mod 8) /\
  moved 32 (hswap32 x) x (fun i => 16 * (1 - i / 16) + i mod 16) /\
  moved 64 (hswap64 x) x (fun i => 16 * (3 - i / 16) + i mod 16) /\
  moved 64 (wswap64 x) x (fun i => 32 * (1 - i / 32) + i mod 32) /\
  moved 8 (revbit8 x) x (fun i => 7 - i) /\
  moved 16 (revbit16 x) x (fun i => 15 - i) /\
  moved 32 (revbit32 x) x (fun i => 31 - i) /\
  moved 64 (revbit64 x) x (fun i => 63 - i) /\
  (forall i, 0 <= i < 16 -> Z.testbit (half_shuffle32 x) (2 * i) = Z.testbit x i /\
     Z.testbit (half_shuffle32 x) (2 * i + 1) = false) /\
  (forall i, 0 <= i < 32 -> Z.testbit (half_shuffle64 x) (2 * i) = Z.testbit x i /\
     Z.testbit (half_shuffle64 x) (2 * i + 1) = false)) /\
  ((ror8 (rol8 x k) k = uint 8 x /\ rol8 (ror8 x k) k = uint 8 x) /\
  (ror16 (rol16 x k) k = uint 16 x /\ rol16 (ror16 x k) k = uint 16 x) /\
  (ror32 (rol32 x k) k = uint 32 x /\ rol32 (ror32 x k) k = uint 32 x) /\
  (ror64 (rol64 x k) k = uint 64 x /\ rol64 (ror64 x k) k = uint 64 x) /\
  (forall i, 0 <= i < 32 -> Z.testbit (rol32 x k) i = Z.testbit x ((i - k) mod 32)) /\
  (forall i, 0 <= i < 64 -> Z.testbit (rol64 x k) i = Z.testbit x ((i - k) mod 64))) /\
  (bswap16 (bswap16 x) = uint 16 x /\ bswap32 (bswap32 x) = uint 32 x /\
  bswap64 (bswap64 x) = uint 64 x /\ hswap32 (hswap32 x) = uint 32 x /\
  hswap64 (hswap64 x) = uint 64 x /\ wswap64 (wswap64 x) = uint 64 x /\
  (forall k, 0 <= k < 4 -> byte_of (bswap32 x) k = byte_of x (3 - k)) /\
  (forall k, 0 <= k < 8 -> byte_of (bswap64 x) k = byte_of x (7 - k))) /\
  (revbit8 (revbit8 x) = uint 8 x /\ revbit16 (revbit16 x) = uint 16 x /\
  revbit32 (revbit32 x) = uint 32 x /\ revbit64 (revbit64 x) = uint 64 x /\
  half_unshuffle32 (half_shuffle32 x) = uint 16 x /\
  half_unshuffle64 (half_shuffle64 x) = uint 32 x /\
  half_shuffle32 (half_unshuffle32 x) = Z.land x 0x55555555 /\
  half_shuffle64 (half_unshuffle64 x) = Z.land x 0x5555555555555555).
Proof.
  exact (conj (bit_positions x k) (conj (rotations_inverse x k) (conj (byte_swaps_involutive x) (revbit_and_half_shuffle x)))).
Qed.

(** ** Counting *)

(** What the counting functions promise at width [w]. *)
Definition count_spec (w : Z) (clz ctz ctpop : Z -> Z) : Prop :=
  (forall x, uint w x = 0 -> clz x = w /\ ctz x = w /\ ctpop x = 0) /\
  (forall x, uint w x <> 0 ->
     0 <= clz x < w /\ Z.testbit x (w - 1 - clz x) = true /\
     (forall j, w - 1 - clz x < j < w -> Z.testbit x j = false) /\
     0 <= ctz x < w /\ Z.testbit x (ctz x) = true /\
     (forall j, j < ctz x -> Z.testbit x j = false)) /\
  (forall x, ctpop x = bit_sum (Z.to_nat w) x).

Lemma count_spec_w w clz ctz ctpop :
  0 < w -> (forall x, clz x = clz_w w x) -> (forall x, ctz x = ctz_w w x) ->
  (forall x, ctpop x = ctpop_w w x) -> count_spec w clz ctz ctpop.
Proof.
  intros Hw H1 H2 H3. split_and!.
  - intros x E. rewrite H1, H2, H3, clz_w_zero, ctz_w_zero by done. unfold ctpop_w. by rewrite E.
  - intros x E. rewrite H1, H2. destruct (highest_bit w x ltac:(lia) E) as (k & Hk & Hs & Hc).
    rewrite (clz_w_unique w x k) by done. replace (w - 1 - (w - 1 - k)) with k by lia.
    split; [lia |]. split; [done |]. split; [done |]. apply ctz_w_spec; [lia | done].
  - intros x. rewrite H3, <- ctpop_w_sum, Z2Nat.id by lia. done.
Qed.

Lemma clz8_w x : clz8 x = clz_w 8 x.
Proof. unfold clz8, clz_w, builtin_clz. destruct (uint 8 x =? 0); lia. Qed.
Lemma clz16_w x : clz16 x = clz_w 16 x.
Proof. unfold clz16, clz_w, builtin_clz. destruct (uint 16 x =? 0); lia. Qed.

(** What [clrsb] promises: the sign bit and the [clrsb x] bits below it are
    equal, and the next one, if there is one, differs. *)
Definition clrsb_spec (w : Z) (clrsb : Z -> Z) : Prop :=
  forall x, 0 <= clrsb x <= w - 1 /\
    (forall j, w - 1 - clrsb x <= j < w -> Z.testbit x j = Z.testbit x (w - 1)) /\
    (clrsb x < w - 1 -> Z.testbit x (w - 2 - clrsb x) = negb (Z.testbit x (w - 1))).

Lemma clrsb_spec_w w : 0 < w -> clrsb_spec w (clrsb_w w).
Proof.
  intros Hw x. destruct (sign_run w x Hw) as [H | (k & Hk & H1 & H2)].
  - rewrite clrsb_w_all by done. split; [lia |]. split; [intros; apply H; lia | lia].
  - rewrite (clrsb_w_run w x k) by done. split; [lia |].
    replace (w - 2 - (w - 2 - k)) with k by lia. split; [intros; apply H2; lia | done].
Qed.

(** C38: at 8, 16, 32 and 64 bits clz and ctz find the highest and the lowest
    set bit (and give the width for zero), ctpop is the sum of the bits, and
    clrsb is the length of the run of sign-bit copies. *)
Theorem bit_counts :
  count_spec 8 clz8 ctz8 ctpop8 /\ count_spec 16 clz16 ctz16 ctpop16 /\
  count_spec 32 clz32 ctz32 ctpop32 /\ count_spec 64 clz64 ctz64 ctpop64 /\
  clrsb_spec 32 clrsb32 /\ clrsb_spec 64 clrsb64.
Proof.
  split_and!;
    try (apply count_spec_w; [lia | auto using clz8_w, clz16_w .. | done | done]; done).
  - by apply (clrsb_spec_w 32).
  - by apply (clrsb_spec_w 64).
Qed.

(** ** Powers of two *)

Lemma pow2_of_shift n : 0 <= n < 64 -> Z.shiftr 0x8000000000000000 n = 2 ^ (63 - n).
Proof.
  intros Hn. rewrite Z.shiftr_div_pow2 by lia. change 0x8000000000000000 with (2 ^ 63).
  replace (2 ^ 63) with (2 ^ (63 - n) * 2 ^ n) by (rewrite <- Z.pow_add_r by lia; f_equal; lia).
  apply Z.div_mul. pose proof (pow2_pos n). lia.
Qed.

Lemma clz64_log2 v : uint 64 v <> 0 -> clz64 v = 63 - Z.log2 (uint 64 v).
Proof. intros E. unfold clz64, builtin_clz. destruct (Z.eqb_spec (uint 64 v) 0); [done | lia]. Qed.

Lemma log2_lt_64 v : uint 64 v <> 0 -> 0 <= Z.log2 (uint 64 v) < 64.
Proof.
  intros E. pose proof (uint_range 64 v ltac:(lia)). split; [apply Z.log2_nonneg |].
  apply Z.log2_lt_pow2; lia.
Qed.

Lemma is_power_of_2_iff v :
  is_power_of_2 v = true <-> exists k, 0 <= k < 64 /\ uint 64 v = 2 ^ k.
Proof.
  unfold is_power_of_2. pose proof (uint_range 64 v ltac:(lia)) as Hr.
  destruct (Z.eqb_spec (uint 64 v) 0) as [E | E].
  - split; [done |]. intros (k & Hk & Hv). pose proof (pow2_pos k). lia.
  - rewrite Z.eqb_eq. split.
    + intros H. exists (Z.log2 (uint 64 v)). pose proof (log2_lt_64 v E). split; [done |].
      destruct (Z.log2_spec (uint 64 v)) as [Hl Hu]; [lia |].
      destruct (Z.eq_dec (uint 64 v) (2 ^ Z.log2 (uint 64 v))) as [| Hne]; [done |].
      assert (Hb : Z.testbit (Z.land (uint 64 v) (uint 64 v - 1)) (Z.log2 (uint 64 v)) = true).
      { rewrite Z.land_spec, Z.bit_log2 by lia. rewrite andb_true_l.
        replace (Z.log2 (uint 64 v)) with (Z.log2 (uint 64 v - 1)).
        - apply Z.bit_log2. pose proof (pow2_pos (Z.log2 (uint 64 v))). lia.
        - apply Z.log2_unique; lia. }
      by rewrite H, Z.bits_0 in Hb.
    + intros (k & Hk & ->). replace (2 ^ k - 1) with (Z.ones k) by (rewrite Z.ones_equiv; lia).
      apply Z.bits_inj'; intros i Hi. rewrite Z.land_spec, Z.bits_0.
      rewrite Z.pow2_bits_eqb, ones_testbit by lia. split_cmp; done.
Qed.

(** Each step of [pow2roundup32] doubles the window that is or-ed together. *)
Lemma smear_step x y n :
  0 <= n ->
  (forall i, 0 <= i -> Z.testbit y i = true <-> exists j, i <= j < i + n /\ Z.testbit x j = true) ->
  (forall i, 0 <= i -> Z.testbit (Z.lor y (Z.shiftr y n)) i = true <->
     exists j, i <= j < i + 2 * n /\ Z.testbit x j = true).
Proof.
  intros Hn H i Hi. rewrite Z.lor_spec, Z.shiftr_spec, orb_true_iff, !H by lia. split.
  - intros [(j & Hj & Hb) | (j & Hj & Hb)]; exists j; split; (lia || done).
  - intros (j & Hj & Hb). destruct (Z.ltb_spec j (i + n)); [left | right]; exists j; split; (lia || done).
Qed.

Lemma pow2roundup32_log2 v :
  pow2roundup32 v = uint 32 (if uint 32 v =? 0 then 1 else 2 ^ (Z.log2 (uint 32 v) + 1)).
Proof.
  unfold pow2roundup32. f_equal. set (x := uint 32 v).
  pose proof (uint_range 32 v ltac:(lia)) as Hr. fold x in Hr.
  assert (H0 : forall i, 0 <= i -> Z.testbit x i = true <->
            exists j, i <= j < i + 1 /\ Z.testbit x j = true).
  { intros i Hi. split; [intros; exists i; split; (lia || done) |].
    intros (j & Hj & Hb). by replace i with j by lia. }
  pose proof (smear_step x _ 1 ltac:(lia) H0) as H1.
  pose proof (smear_step x _ 2 ltac:(lia) H1) as H2.
  pose proof (smear_step x _ 4 ltac:(lia) H2) as H3.
  pose proof (smear_step x _ 8 ltac:(lia) H3) as H4.
  pose proof (smear_step x _ 16 ltac:(lia) H4) as H5. clear H0 H1 H2 H3 H4.
  match type of H5 with forall i, _ -> Z.testbit ?y i = true <-> _ => set (r := y) in * end.
  destruct (Z.eqb_spec x 0) as [E | E].
  { assert (r = 0) as ->; [| done]. subst r. by rewrite E. }
  enough (r = Z.ones (Z.log2 x + 1)) as -> by (rewrite Z.ones_equiv; lia).
  pose proof (Z.log2_nonneg x). assert (Z.log2 x < 32) by (apply Z.log2_lt_pow2; lia).
  apply Z.bits_inj'; intros i Hi. rewrite ones_testbit by lia. apply eq_true_iff_eq.
  rewrite H5, Z.ltb_lt by done. split.
  - intros (j & Hj & Hb). destruct (Z.ltb_spec (Z.log2 x) j); [| lia].
    by rewrite Z.bits_above_log2 in Hb by lia.
  - intros Hi2. exists (Z.log2 x). split; [lia | apply Z.bit_log2; lia].
Qed.

Lemma pow2ceil_spec v :
  if 2 ^ 63 <? uint 64 v then pow2ceil v = 0
  else exists k, 0 <= k /\ pow2ceil v = 2 ^ k /\ uint 64 v <= 2 ^ k /\
         forall j, 0 <= j -> uint 64 v <= 2 ^ j -> 2 ^ k <= 2 ^ j.
Proof.
  unfold pow2ceil. set (x := uint 64 v).
  pose proof (uint_range 64 v ltac:(lia)) as Hr. fold x in Hr.
  destruct (Z.eq_dec x 0) as [-> | Hx0].
  { exists 0. split; [lia |]. split; [done |]. split; [lia |]. intros j Hj _.
    pose proof (pow2_pos j Hj). simpl. lia. }
  assert (Hu : uint 64 (x - 1) = x - 1) by (apply uint_small; lia).
  destruct (Z.eq_dec x 1) as [-> | Hx1].
  { exists 0. split; [lia |]. split; [done |]. split; [lia |]. intros j Hj Hle. simpl. lia. }
  assert (Hn : clz64 (x - 1) = 63 - Z.log2 (x - 1)) by (rewrite clz64_log2; rewrite Hu; lia).
  rewrite Hn. destruct (Z.log2_spec (x - 1)) as [Hl Hh]; [lia |]. pose proof (Z.log2_nonneg (x - 1)).
  assert (Z.log2 (x - 1) < 64) by (apply Z.log2_lt_pow2; lia).
  destruct (Z.ltb_spec (2 ^ 63) x) as [Hbig | Hsmall].
  - assert (63 <= Z.log2 (x - 1)) by (apply Z.log2_le_pow2; lia).
    destruct (Z.eqb_spec (63 - Z.log2 (x - 1)) 0); [| lia].
    destruct (Z.eqb_spec x 0); [lia | done].
  - assert (Z.log2 (x - 1) < 63) by (apply Z.log2_lt_pow2; lia).
    destruct (Z.eqb_spec (63 - Z.log2 (x - 1)) 0); [lia |].
    exists (Z.log2 (x - 1) + 1). split; [lia |].
    split; [rewrite pow2_of_shift by lia; f_equal; lia |]. split; [rewrite Z.add_1_r; lia |].
    intros j Hj Hle. apply Z.pow_le_mono_r; [lia |].
    assert (Z.log2 (x - 1) < j) by (apply Z.log2_lt_pow2; lia). lia.
Qed.

(** C39: is_power_of_2 decides the powers of two below 2^64; pow2floor is the
    largest power of two not above its argument; pow2ceil is the smallest one
    not below it, or zero above 2^63; pow2roundup32 is the smallest one above
    its argument, modulo 2^32. *)
Theorem powers_of_two v :
  (is_power_of_2 v = true <-> exists k, 0 <= k < 64 /\ uint 64 v = 2 ^ k) /\
  (if uint 64 v =? 0 then pow2floor v = 0
   else exists k, pow2floor v = 2 ^ k /\ 2 ^ k <= uint 64 v < 2 * 2 ^ k) /\
  (if 2 ^ 63 <? uint 64 v then pow2ceil v = 0
   else exists k, 0 <= k /\ pow2ceil v = 2 ^ k /\ uint 64 v <= 2 ^ k /\
          forall j, 0 <= j -> uint 64 v <= 2 ^ j -> 2 ^ k <= 2 ^ j) /\
  (exists k, 0 <= k /\ pow2roundup32 v = uint 32 (2 ^ k) /\ uint 32 v < 2 ^ k /\
     forall j, 0 <= j -> uint 32 v < 2 ^ j -> 2 ^ k <= 2 ^ j).
Proof.
  pose proof (uint_range 64 v ltac:(lia)) as Hr. split; [apply is_power_of_2_iff |].
  split; [| split].
  - unfold pow2floor. destruct (Z.eqb_spec (uint 64 v) 0) as [E | E]; [done |].
    rewrite clz64_log2 by by rewrite uint_uint. rewrite uint_uint by lia.
    pose proof (log2_lt_64 v E). rewrite pow2_of_shift by lia.
    exists (Z.log2 (uint 64 v)). split; [f_equal; lia |].
    rewrite <- Z.pow_succ_r by lia. apply Z.log2_spec. lia.
  - apply pow2ceil_spec.
  - rewrite pow2roundup32_log2. pose proof (uint_range 32 v ltac:(lia)).
    destruct (Z.eqb_spec (uint 32 v) 0) as [-> | E].
    + exists 0. split; [lia |]. split; [done |]. split; [lia |]. intros j Hj Hlt. simpl. lia.
    + exists (Z.log2 (uint 32 v) + 1). pose proof (Z.log2_nonneg (uint 32 v)).
      destruct (Z.log2_spec (uint 32 v)) as [Hl Hu]; [lia |]. rewrite <- Z.add_1_r in Hu.
      split; [lia |]. split; [done |]. split; [done |].
      intros j Hj Hlt. apply Z.pow_le_mono_r; [lia |].
      assert (Z.log2 (uint 32 v) < j) by (apply Z.log2_lt_pow2; lia). lia.
Qed.
