(* ===== verification/HostUtils.v ===== *)
(** * Wide arithmetic: include/qemu/host-utils.h and util/host-utils.c

    The generic C branches (without CONFIG_INT128 and inline assembly), which
    are the ones with an algorithm in them: 64x64 multiplication by halves,
    128-by-64 division after Knuth, scaling with a 96-bit intermediate, shifts
    and carries.  A pointer parameter that is written is an extra result. *)

From Stdlib Require Import ZArith Lia Bool.
From stdpp Require Import base numbers list.
From S2P Require Import Prelude.
From S2P Require Import Bitops.
From S2P Require Import BitCount.

Local Open Scope Z_scope.

(** ** Definitions *)

(** The two halves of the union [LL] and the 64-bit member made of them. *)
Definition ll_low (x : Z) : Z := uint 32 x.
Definition ll_high (x : Z) : Z := uint 32 (Z.shiftr x 32).
Definition ll (high low : Z) : Z := uint 32 high * 2 ^ 32 + uint 32 low.

(** [mul64]: (low, high). *)
Definition mul64 (a b : Z) : Z * Z :=
  let rl := uint 64 (ll_low a * ll_low b) in
  let rm := uint 64 (ll_low a * ll_high b) in
  let rn := uint 64 (ll_high a * ll_low b) in
  let rh := uint 64 (ll_high a * ll_high b) in
  let c := uint 64 (ll_high rl + ll_low rm + ll_low rn) in
  let rl := ll c (ll_low rl) in
  let c := Z.shiftr c 32 in
  let c := uint 64 (c + ll_high rm + ll_high rn + ll_low rh) in
  let rh := ll (ll_high rh + uint 32 (Z.shiftr c 32)) c in
  (rl, rh).

Definition mulu64 (a b : Z) : Z * Z := mul64 (uint 64 a) (uint 64 b).

Definition muls64 (a b : Z) : Z * Z :=
  let a := sint 64 a in
  let b := sint 64 b in
  let '(low, rh) := mul64 (uint 64 a) (uint 64 b) in
  let rh := if b <? 0 then uint 64 (rh - a) else rh in
  let rh := if a <? 0 then uint 64 (rh - b) else rh in
  (low, rh).

(** One digit of the quotient of [udiv_qrnnd]: from the remainder so far [n1]
    and the next half word [n], the digit and the next remainder. *)
Definition qrnnd_digit (n1 n d : Z) : Z * Z :=
  let d0 := uint 32 d in
  let d1 := Z.shiftr d 32 in
  let r1 := n1 mod d1 in
  let q1 := n1 / d1 in
  let m := uint 64 (q1 * d0) in
  let r1 := Z.lor (uint 64 (Z.shiftl r1 32)) n in
  let '(q1, r1) :=
    if r1 <? m then
      let q1 := uint 64 (q1 - 1) in
      let r1 := uint 64 (r1 + d) in
      if r1 >=? d then
        if r1 <? m then (uint 64 (q1 - 1), uint 64 (r1 + d)) else (q1, r1)
      else (q1, r1)
    else (q1, r1) in
  (q1, uint 64 (r1 - m)).

(** [udiv_qrnnd]: (quotient, remainder). *)
Definition udiv_qrnnd (n1 n0 d : Z) : Z * Z :=
  let '(q1, r1) := qrnnd_digit n1 (Z.shiftr n0 32) d in
  let '(q0, r0) := qrnnd_digit r1 (uint 32 n0) d in
  (Z.lor (uint 64 (Z.shiftl q1 32)) q0, r0).

(** [divu128]: (low, high, remainder); [None] where C divides by zero. *)
Definition divu128 (low high divisor : Z) : option (Z * Z * Z) :=
  let dlo := low in
  let dhi := high in
  if (divisor =? 0) || (dhi =? 0) then
    if divisor =? 0 then None else Some (dlo / divisor, 0, dlo mod divisor)
  else
    let sh := clz64 divisor in
    if dhi <? divisor then
      let '(divisor, dhi, dlo) :=
        if negb (sh =? 0) then
          (uint 64 (Z.shiftl divisor sh),
           Z.lor (uint 64 (Z.shiftl dhi sh)) (Z.shiftr dlo (64 - sh)),
           uint 64 (Z.shiftl dlo sh))
        else (divisor, dhi, dlo) in
      let '(plow, rem) := udiv_qrnnd dhi dlo divisor in
      Some (plow, 0, Z.shiftr rem sh)
    else
      let '(phigh, dhi, dlo, divisor) :=
        if negb (sh =? 0) then
          let divisor := uint 64 (Z.shiftl divisor sh) in
          let dhighest := Z.shiftr dhi (64 - sh) in
          let dhi := Z.lor (uint 64 (Z.shiftl dhi sh)) (Z.shiftr dlo (64 - sh)) in
          let dlo := uint 64 (Z.shiftl dlo sh) in
          let '(phigh, dhi) := udiv_qrnnd dhighest dhi divisor in
          (phigh, dhi, dlo, divisor)
        else (1, uint 64 (dhi - divisor), dlo, divisor) in
      let '(plow, rem) := udiv_qrnnd dhi dlo divisor in
      Some (plow, phigh, Z.shiftr rem sh).

(** [divs128]: (low, high, remainder) with [high] signed. *)
Definition divs128 (low high divisor : Z) : option (Z * Z * Z) :=
  let neg_quotient := false in
  let neg_remainder := false in
  let unsig_hi := uint 64 high in
  let unsig_lo := low in
  let '(neg_quotient, neg_remainder, unsig_hi, unsig_lo) :=
    if high <? 0 then
      if unsig_lo =? 0 then (true, true, uint 64 (- unsig_hi), unsig_lo)
      else (true, true, uint 64 (Z.lnot unsig_hi), uint 64 (- unsig_lo))
    else (neg_quotient, neg_remainder, unsig_hi, unsig_lo) in
  let '(neg_quotient, divisor) :=
    if divisor <? 0 then (negb neg_quotient, sint 64 (- divisor))
    else (neg_quotient, divisor) in
  match divu128 unsig_lo unsig_hi (uint 64 divisor) with
  | None => None
  | Some (unsig_lo, unsig_hi, rem) =>
      let '(plow, phigh) :=
        if neg_quotient then
          if unsig_lo =? 0 then (0, sint 64 (- unsig_hi))
          else (uint 64 (- unsig_lo), sint 64 (Z.lnot unsig_hi))
        else (unsig_lo, sint 64 unsig_hi) in
      Some (plow, phigh, if neg_remainder then sint 64 (- rem) else sint 64 rem)
  end.

(** [muldiv64_rounding]; [None] where C divides by zero. *)
Definition muldiv64_rounding (a b c : Z) (round_up : bool) : option Z :=
  let a := uint 64 a in let b := uint 32 b in let c := uint 32 c in
  if c =? 0 then None else
  let rl := uint 64 (ll_low a * b) in
  let rl := if round_up then uint 64 (rl + uint 32 (c - 1)) else rl in
  let rh := uint 64 (ll_high a * b) in
  let rh := uint 64 (rh + Z.shiftr rl 32) in
  Some (ll (rh / c)
           (uint 64 (uint 64 (Z.shiftl (rh mod c) 32) + Z.land rl 0xffffffff) / c)).

Definition muldiv64 (a b c : Z) : option Z := muldiv64_rounding a b c false.
Definition muldiv64_round_up (a b c : Z) : option Z := muldiv64_rounding a b c true.

Definition uabs64 (v : Z) : Z := let v := sint 64 v in uint 64 (if v <? 0 then - v else v).

(** [__builtin_*_overflow]: the truncated result and whether it was truncated. *)
Definition s_overflow (w r : Z) : bool * Z := (negb (sint w r =? r), sint w r).
Definition u_overflow (w r : Z) : bool * Z := (negb (uint w r =? r), uint w r).

Definition sadd32_overflow (x y : Z) : bool * Z := s_overflow 32 (sint 32 x + sint 32 y).
Definition sadd64_overflow (x y : Z) : bool * Z := s_overflow 64 (sint 64 x + sint 64 y).
Definition uadd32_overflow (x y : Z) : bool * Z := u_overflow 32 (uint 32 x + uint 32 y).
Definition uadd64_overflow (x y : Z) : bool * Z := u_overflow 64 (uint 64 x + uint 64 y).
Definition ssub32_overflow (x y : Z) : bool * Z := s_overflow 32 (sint 32 x - sint 32 y).
Definition ssub64_overflow (x y : Z) : bool * Z := s_overflow 64 (sint 64 x - sint 64 y).
Definition usub32_overflow (x y : Z) : bool * Z := u_overflow 32 (uint 32 x - uint 32 y).
Definition usub64_overflow (x y : Z) : bool * Z := u_overflow 64 (uint 64 x - uint 64 y).
Definition smul32_overflow (x y : Z) : bool * Z := s_overflow 32 (sint 32 x * sint 32 y).
Definition smul64_overflow (x y : Z) : bool * Z := s_overflow 64 (sint 64 x * sint 64 y).
Definition umul32_overflow (x y : Z) : bool * Z := u_overflow 32 (uint 32 x * uint 32 y).
Definition umul64_overflow (x y : Z) : bool * Z := u_overflow 64 (uint 64 x * uint 64 y).

(** [mulu128]: (truncated, low, high). *)
Definition mulu128 (low high factor : Z) : bool * Z * Z :=
  let dhi := high in
  let dlo := low in
  if dhi =? 0 then let '(l, h) := mulu64 dlo factor in (false, l, h)
  else
    let '(plow, ahi) := mulu64 dlo factor in
    let '(blo, bhi) := mulu64 dhi factor in
    let '(o, phigh) := uadd64_overflow ahi blo in
    (o || negb (bhi =? 0), plow, phigh).

(** [uadd64_carry], [usub64_borrow]: (sum, carry out). *)
Definition uadd64_carry (x y : Z) (carry : bool) : Z * bool :=
  let '(c, x) := uadd64_overflow x (b2z carry) in
  let '(c', x) := uadd64_overflow x y in
  (x, c || c').

Definition usub64_borrow (x y : Z) (borrow : bool) : Z * bool :=
  let '(b, x) := usub64_overflow x (b2z borrow) in
  let '(b', x) := usub64_overflow x y in
  (x, b || b').

(** [urshift]: (low, high). *)
Definition urshift (low high shift : Z) : Z * Z :=
  let shift := Z.land shift 127 in
  if shift =? 0 then (low, high)
  else
    let h := Z.shiftr high (Z.land shift 63) in
    if shift >=? 64 then (h, 0)
    else (Z.lor (Z.shiftr low (Z.land shift 63))
                (uint 64 (Z.shiftl high (64 - Z.land shift 63))), h).

(** [ulshift]: (low, high, overflow). *)
Definition ulshift (low high shift : Z) (overflow : bool) : Z * Z * bool :=
  let shift := Z.land shift 127 in
  if shift =? 0 then (low, high, overflow)
  else
    let '(l, h) := urshift low high (128 - shift) in
    let overflow := if negb (Z.lor l h =? 0) then true else overflow in
    if shift >=? 64 then (0, uint 64 (Z.shiftl low (Z.land shift 63)), overflow)
    else (uint 64 (Z.shiftl low shift),
          Z.lor (Z.shiftr low (64 - Z.land shift 63)) (uint 64 (Z.shiftl high (Z.land shift 63))),
          overflow).

(** ** Multiplication *)

Lemma uint_low_high w x : 0 < w -> uint (2 * w) x = uint w (Z.shiftr x w) * 2 ^ w + uint w x.
Proof.
  intros Hw. unfold uint. rewrite Z.shiftr_div_pow2 by lia.
  replace (2 * w) with (w + w) by lia. rewrite Z.pow_add_r by lia.
  pose proof (pow2_pos w ltac:(lia)). rewrite Z.rem_mul_r by lia. lia.
Qed.

Lemma ll_split x : 0 <= x < 2 ^ 64 -> x = ll_high x * 2 ^ 32 + ll_low x /\
  0 <= ll_high x < 2 ^ 32 /\ 0 <= ll_low x < 2 ^ 32.
Proof.
  intros Hx. unfold ll_high, ll_low. split; [| split; by apply uint_range].
  rewrite <- (uint_low_high 32) by lia. symmetry. by apply uint_small.
Qed.

Lemma ll_small h l : 0 <= h < 2 ^ 32 -> 0 <= l < 2 ^ 32 -> ll h l = h * 2 ^ 32 + l.
Proof. intros. unfold ll. by rewrite !uint_small. Qed.

Lemma shiftr32_high x : 0 <= x < 2 ^ 64 -> Z.shiftr x 32 = ll_high x.
Proof.
  intros Hx. unfold ll_high. rewrite uint_small; [done |].
  rewrite Z.shiftr_div_pow2 by lia. split; [apply Z.div_pos; lia |].
  apply Z.div_lt_upper_bound; lia.
Qed.

Lemma prod_bound a b : 0 <= a < 2 ^ 32 -> 0 <= b < 2 ^ 32 -> 0 <= a * b < 2 ^ 64 - 2 ^ 33 + 2.
Proof. intros. nia. Qed.

Lemma mul64_spec a b :
  0 <= a < 2 ^ 64 -> 0 <= b < 2 ^ 64 ->
  let '(l, h) := mul64 a b in
  h * 2 ^ 64 + l = a * b /\ 0 <= l < 2 ^ 64 /\ 0 <= h < 2 ^ 64.
Proof.
  intros Ha Hb. unfold mul64.
  destruct (ll_split a Ha) as (Ea & Hah & Hal). destruct (ll_split b Hb) as (Eb & Hbh & Hbl).
  set (al := ll_low a) in *. set (ah := ll_high a) in *.
  set (bl := ll_low b) in *. set (bh := ll_high b) in *.
  assert (Hab : a * b = (ah * bh) * 2 ^ 64 + (ah * bl + al * bh) * 2 ^ 32 + al * bl)
    by (rewrite Ea, Eb; ring).
  assert (Hlt : a * b < 2 ^ 128) by nia.
  pose proof (prod_bound al bl Hal Hbl) as B1. pose proof (prod_bound al bh Hal Hbh) as B2.
  pose proof (prod_bound ah bl Hah Hbl) as B3. pose proof (prod_bound ah bh Hah Hbh) as B4.
  rewrite !(uint_small 64 (_ * _)) by lia.
  set (rl := al * bl) in *. set (rm := al * bh) in *. set (rn := ah * bl) in *. set (rh := ah * bh) in *.
  destruct (ll_split rl) as (E1 & H1 & H1'); [lia |]. destruct (ll_split rm) as (E2 & H2 & H2'); [lia |].
  destruct (ll_split rn) as (E3 & H3 & H3'); [lia |]. destruct (ll_split rh) as (E4 & H4 & H4'); [lia |].
  rewrite (uint_small 64 (ll_high rl + _ + _)) by lia.
  set (c := ll_high rl + ll_low rm + ll_low rn).
  destruct (ll_split c) as (E5 & H5 & H5'); [lia |]. rewrite (shiftr32_high c) by lia.
  rewrite (uint_small 64 (ll_high c + _ + _ + _)) by lia.
  set (c2 := ll_high c + ll_high rm + ll_high rn + ll_low rh).
  destruct (ll_split c2) as (E6 & H6 & H6'); [lia |].
  change (uint 32 (Z.shiftr c2 32)) with (ll_high c2).
  unfold ll. change (uint 32 c) with (ll_low c). change (uint 32 c2) with (ll_low c2).
  rewrite (uint_small 32 (ll_low rl)) by lia.
  rewrite (uint_small 32 (ll_high rh + ll_high c2)) by lia. lia.
Qed.

Lemma mul64_low_high a b :
  0 <= a < 2 ^ 64 -> 0 <= b < 2 ^ 64 ->
  mul64 a b = (uint 64 (a * b), Z.shiftr (a * b) 64).
Proof.
  intros Ha Hb. pose proof (mul64_spec a b Ha Hb) as H. destruct (mul64 a b) as [l h].
  destruct H as (E & Hl & Hh). unfold uint. rewrite Z.shiftr_div_pow2 by lia. f_equal.
  - apply Z.mod_unique with (q := h); lia.
  - apply Z.div_unique with (r := l); lia.
Qed.

Lemma muls64_low_high a b :
  muls64 a b = (uint 64 (sint 64 a * sint 64 b), uint 64 (Z.shiftr (sint 64 a * sint 64 b) 64)).
Proof.
  unfold muls64. rewrite mul64_low_high by (apply uint_range; lia).
  pose proof (sint_range 64 a ltac:(lia)) as Ha. pose proof (sint_range 64 b ltac:(lia)) as Hb.
  set (x := sint 64 a) in *. set (y := sint 64 b) in *.
  assert (Hx : uint 64 x = if x <? 0 then x + 2 ^ 64 else x).
  { destruct (Z.ltb_spec x 0); [| apply uint_small; lia]. unfold uint.
    symmetry. apply Z.mod_unique with (q := -1); lia. }
  assert (Hy : uint 64 y = if y <? 0 then y + 2 ^ 64 else y).
  { destruct (Z.ltb_spec y 0); [| apply uint_small; lia]. unfold uint.
    symmetry. apply Z.mod_unique with (q := -1); lia. }
  f_equal.
  - apply eqm_mul; apply eqm_uint; lia.
  - (* high word: the correction terms are multiples of 2^64 *)
    assert (Hs : forall p k, Z.shiftr (p + k * 2 ^ 64) 64 = Z.shiftr p 64 + k).
    { intros p k. rewrite !Z.shiftr_div_pow2 by lia. apply Z.div_add. lia. }
    assert (E : uint 64 x * uint 64 y =
      x * y + ((if x <? 0 then y else 0) + (if y <? 0 then x else 0) +
               (if (x <? 0) && (y <? 0) then 2 ^ 64 else 0)) * 2 ^ 64).
    { rewrite Hx, Hy. destruct (x <? 0), (y <? 0); cbn [andb]; ring. }
    assert (Hr : uint 64 (Z.shiftr (uint 64 x * uint 64 y) 64) = Z.shiftr (uint 64 x * uint 64 y) 64).
    { pose proof (mul64_spec (uint 64 x) (uint 64 y)) as H.
      rewrite mul64_low_high in H by (apply uint_range; lia).
      apply uint_small. apply H; apply uint_range; lia. }
    rewrite <- Hr, E, Hs. set (p := Z.shiftr (x * y) 64). unfold uint.
    destruct (x <? 0), (y <? 0); cbn [andb]; rewrite ?Zminus_mod_idemp_l.
    + rewrite <- Z.sub_add_distr, Zminus_mod_idemp_l, <- (Z_mod_plus_full p 1 (2 ^ 64)).
      f_equal. lia.
    + f_equal. lia.
    + f_equal. lia.
    + f_equal. lia.
Qed.
