(* ===== verification/HostDiv.v ===== *)
(** * 128-by-64 division and scaling: proofs

    The division algorithms of HostUtils.v compute quotients and remainders. *)

From Stdlib Require Import ZArith Lia Bool.
From stdpp Require Import base numbers list.
From S2P Require Import Prelude.
From S2P Require Import Bitops.
From S2P Require Import BitCount.
From S2P Require Import HostUtils.

Local Open Scope Z_scope.

(** ** Division *)

(** One digit of the schoolbook division: the estimate [n1 / d1] is at most
    two too large, and the corrections find the exact digit and remainder. *)
Lemma qrnnd_digit_spec n1 n d :
  2 ^ 63 <= d < 2 ^ 64 -> 0 <= n1 < d -> 0 <= n < 2 ^ 32 ->
  let '(q, r) := qrnnd_digit n1 n d in
  n1 * 2 ^ 32 + n = q * d + r /\ 0 <= r < d /\ 0 <= q < 2 ^ 32.
Proof.
  intros Hd Hn1 Hn. unfold qrnnd_digit. rewrite (shiftr32_high d) by lia.
  destruct (ll_split d) as (Ed & Hd1 & Hd0); [lia |].
  change (uint 32 d) with (ll_low d). set (d1 := ll_high d) in *. set (d0 := ll_low d) in *.
  pose proof (Z.div_mod n1 d1 ltac:(lia)) as En. pose proof (Z.mod_pos_bound n1 d1 ltac:(lia)) as Hr.
  set (q := n1 / d1) in *. set (r := n1 mod d1) in *.
  assert (Hq : 0 <= q <= 2 ^ 32 + 1) by nia.
  assert (Hm : 0 <= q * d0 < 2 ^ 64) by nia.
  rewrite (uint_small 64 (q * d0)) by done. set (m := q * d0) in *.
  assert (Hs : Z.lor (uint 64 (Z.shiftl r 32)) n = r * 2 ^ 32 + n).
  { rewrite uint_small by (rewrite shiftl_mul; lia). rewrite lor_add_disjoint.
    - by rewrite shiftl_mul by lia.
    - apply Z.bits_inj'; intros i Hi. rewrite Z.land_spec, shiftl_testbit, Z.bits_0 by lia.
      destruct (Z.leb_spec 32 i); [| done]. rewrite (testbit_above 32 n i) by lia.
      apply andb_false_r. }
  rewrite Hs. set (r1 := r * 2 ^ 32 + n) in *.
  assert (EX : n1 * 2 ^ 32 + n = q * d + (r1 - m)) by (unfold r1, m; rewrite Ed; nia).
  assert (Hr1 : 0 <= r1 < d1 * 2 ^ 32) by (unfold r1; nia).
  set (X := n1 * 2 ^ 32 + n) in *. assert (HX : 0 <= X < d * 2 ^ 32) by (unfold X; nia).
  assert (Hdigit : forall k t, X = k * d + t -> 0 <= t < d -> 0 <= k < 2 ^ 32) by (intros; nia).
  destruct (Z.ltb_spec r1 m) as [H1 | H1].
  - assert (Hq1 : 1 <= q) by (unfold m in H1; nia). rewrite (uint_small 64 (q - 1)) by lia.
    destruct (Z.ltb_spec (r1 + d) (2 ^ 64)) as [Hw | Hw].
    + rewrite (uint_small 64 (r1 + d)) by lia. rewrite Z.geb_leb.
      destruct (Z.leb_spec d (r1 + d)) as [_ |]; [| lia].
      destruct (Z.ltb_spec (r1 + d) m) as [H2 | H2].
      * assert (Hq2 : 2 <= q) by (unfold m in H2; nia).
        rewrite (uint_small 64 (q - 1 - 1)) by lia.
        assert (Hrem : uint 64 (uint 64 (r1 + d + d) - m) = r1 + d + d - m).
        { unfold uint. rewrite Zminus_mod_idemp_l. apply Z.mod_small. lia. }
        rewrite Hrem. assert (X = (q - 1 - 1) * d + (r1 + d + d - m)) by lia.
        split; [done |]. split; [lia |]. eapply Hdigit; [done | lia].
      * rewrite (uint_small 64 (r1 + d - m)) by lia.
        assert (X = (q - 1) * d + (r1 + d - m)) by lia.
        split; [done |]. split; [lia |]. eapply Hdigit; [done | lia].
    + assert (Hwrap : uint 64 (r1 + d) = r1 + d - 2 ^ 64).
      { unfold uint. symmetry. apply Z.mod_unique with (q := 1); lia. }
      rewrite Hwrap, Z.geb_leb. destruct (Z.leb_spec d (r1 + d - 2 ^ 64)); [lia |].
      assert (Hrem : uint 64 (r1 + d - 2 ^ 64 - m) = r1 + d - m).
      { unfold uint. symmetry. apply Z.mod_unique with (q := -1); lia. }
      rewrite Hrem. assert (X = (q - 1) * d + (r1 + d - m)) by lia.
      split; [done |]. split; [lia |]. eapply Hdigit; [done | lia].
  - rewrite (uint_small 64 (r1 - m)) by lia.
    split; [done |]. split; [lia |]. eapply Hdigit; [done | lia].
Qed.

Lemma lor_shift_add w x y : 0 <= w -> 0 <= y < 2 ^ w -> Z.lor (Z.shiftl x w) y = x * 2 ^ w + y.
Proof.
  intros Hw Hy. rewrite lor_add_disjoint, shiftl_mul; [done | done |].
  apply Z.bits_inj'; intros i Hi. rewrite Z.land_spec, shiftl_testbit, Z.bits_0 by lia.
  destruct (Z.leb_spec w i); [| done]. rewrite (testbit_above w y i) by lia. apply andb_false_r.
Qed.

(** [udiv_qrnnd] divides a double word by a normalised word. *)
Lemma udiv_qrnnd_spec n1 n0 d :
  2 ^ 63 <= d < 2 ^ 64 -> 0 <= n1 < d -> 0 <= n0 < 2 ^ 64 ->
  udiv_qrnnd n1 n0 d = ((n1 * 2 ^ 64 + n0) / d, (n1 * 2 ^ 64 + n0) mod d).
Proof.
  intros Hd Hn1 Hn0. unfold udiv_qrnnd. rewrite (shiftr32_high n0) by lia.
  destruct (ll_split n0 Hn0) as (En & Hh & Hl). change (uint 32 n0) with (ll_low n0).
  pose proof (qrnnd_digit_spec n1 (ll_high n0) d Hd Hn1 Hh) as H1.
  destruct (qrnnd_digit n1 (ll_high n0) d) as [q1 r1]. destruct H1 as (E1 & Hr1 & Hq1).
  pose proof (qrnnd_digit_spec r1 (ll_low n0) d Hd Hr1 Hl) as H0.
  destruct (qrnnd_digit r1 (ll_low n0) d) as [q0 r0]. destruct H0 as (E0 & Hr0 & Hq0).
  rewrite (uint_small 64) by (rewrite shiftl_mul; lia). rewrite lor_shift_add by lia.
  assert (E : n1 * 2 ^ 64 + n0 = d * (q1 * 2 ^ 32 + q0) + r0) by (rewrite En; nia).
  f_equal; [apply Z.div_unique with (r := r0) | apply Z.mod_unique with (q := q1 * 2 ^ 32 + q0)]; lia.
Qed.
