(* ===== verification/HostSpec.v ===== *)
(** * Properties of the wide-arithmetic functions

    The contracts of util/host-utils.c and include/qemu/host-utils.h. *)

From Stdlib Require Import ZArith Lia Bool.
From stdpp Require Import base numbers list.
From S2P Require Import Prelude.
From S2P Require Import Bitops.
From S2P Require Import BitCount.
From S2P Require Import HostUtils.
From S2P Require Import HostDiv.

Local Open Scope Z_scope.

(** ** Normalisation *)

Lemma clz64_normalise d :
  0 < d < 2 ^ 64 -> 0 <= clz64 d < 64 /\ 2 ^ 63 <= d * 2 ^ clz64 d < 2 ^ 64.
Proof.
  intros Hd. rewrite clz64_w. unfold clz_w. rewrite uint_small by lia.
  destruct (Z.eqb_spec d 0); [lia |]. unfold builtin_clz.
  destruct (Z.log2_spec d ltac:(lia)) as [Hl Hu]. pose proof (Z.log2_nonneg d).
  assert (Z.log2 d < 64) by (apply Z.log2_lt_pow2; lia). split; [lia |].
  set (k := Z.log2 d) in *. pose proof (pow2_pos (64 - 1 - k) ltac:(lia)).
  replace (2 ^ 63) with (2 ^ k * 2 ^ (64 - 1 - k)) by (rewrite <- Z.pow_add_r by lia; f_equal; lia).
  replace (2 ^ 64) with (2 ^ Z.succ k * 2 ^ (64 - 1 - k)) by (rewrite <- Z.pow_add_r by lia; f_equal; lia).
  nia.
Qed.

(** Shifting a double word left by [sh]: the bits shifted out, the high and the
    low word as divu128 computes them. *)
Lemma shift_words hi lo sh :
  0 < sh < 64 -> 0 <= hi < 2 ^ 64 -> 0 <= lo < 2 ^ 64 ->
  let T := Z.shiftr hi (64 - sh) in
  let H := Z.lor (uint 64 (Z.shiftl hi sh)) (Z.shiftr lo (64 - sh)) in
  let L := uint 64 (Z.shiftl lo sh) in
  (hi * 2 ^ 64 + lo) * 2 ^ sh = T * 2 ^ 128 + H * 2 ^ 64 + L /\
  0 <= T < 2 ^ sh /\ 0 <= H < 2 ^ 64 /\ 0 <= L < 2 ^ 64.
Proof.
  intros Hsh Hhi Hlo T H L.
  assert (P : 2 ^ 64 = 2 ^ (64 - sh) * 2 ^ sh) by (rewrite <- Z.pow_add_r by lia; f_equal; lia).
  pose proof (pow2_pos sh ltac:(lia)) as P1. pose proof (pow2_pos (64 - sh) ltac:(lia)) as P2.
  assert (Hsplit : forall x, 0 <= x < 2 ^ 64 ->
    x * 2 ^ sh = Z.shiftr x (64 - sh) * 2 ^ 64 + uint 64 (Z.shiftl x sh) /\
    0 <= Z.shiftr x (64 - sh) < 2 ^ sh).
  { intros x Hx. rewrite Z.shiftr_div_pow2, shiftl_mul by lia. split.
    - unfold uint. rewrite P at 2. rewrite Z.mul_mod_distr_r by lia.
      pose proof (Z.div_mod x (2 ^ (64 - sh)) ltac:(lia)). rewrite P. nia.
    - split; [apply Z.div_pos; lia | apply Z.div_lt_upper_bound; nia]. }
  destruct (Hsplit hi Hhi) as (E1 & B1). destruct (Hsplit lo Hlo) as (E2 & B2).
  assert (HH : H = uint 64 (Z.shiftl hi sh) + Z.shiftr lo (64 - sh)).
  { unfold H. apply lor_add_disjoint. apply Z.bits_inj'; intros i Hi.
    rewrite Z.land_spec, uint_testbit, shiftl_testbit, Z.bits_0 by lia.
    destruct (Z.leb_spec sh i); [| by rewrite andb_false_r].
    rewrite (testbit_above sh (Z.shiftr lo (64 - sh)) i) by lia. apply andb_false_r. }
  pose proof (uint_range 64 (Z.shiftl lo sh) ltac:(lia)) as BL. fold L in BL.
  assert (BH : 0 <= H < 2 ^ 64).
  { unfold H. apply lor_range; [apply uint_range; lia |]. split; [lia |].
    assert (2 ^ sh < 2 ^ 64) by (apply Z.pow_lt_mono_r; lia). lia. }
  split; [| split; [done | split; [done | done]]].
  rewrite HH. unfold T, L. rewrite Z.mul_add_distr_r.
  replace (2 ^ 128) with (2 ^ 64 * 2 ^ 64) by reflexivity. nia.
Qed.

(** Long division: a high digit and the rest. *)
Lemma long_division D q r L :
  0 < D -> 0 <= r < D -> 0 <= L < 2 ^ 64 ->
  let N := (q * D + r) * 2 ^ 64 + L in
  N / D = q * 2 ^ 64 + (r * 2 ^ 64 + L) / D /\ N mod D = (r * 2 ^ 64 + L) mod D /\
  0 <= (r * 2 ^ 64 + L) / D < 2 ^ 64.
Proof.
  intros HD Hr HL N.
  assert (E : N = (r * 2 ^ 64 + L) + (q * 2 ^ 64) * D) by (unfold N; lia).
  rewrite E, Z.div_add, Z_mod_plus_full by lia. split; [lia |]. split; [done |].
  split; [apply Z.div_pos; lia | apply Z.div_lt_upper_bound; nia].
Qed.

(** The result of divu128 from a division of the normalised operands. *)
Lemma divu128_result N d sh qh ql :
  0 <= sh -> 0 < d -> 0 <= ql < 2 ^ 64 ->
  (N * 2 ^ sh) / (d * 2 ^ sh) = qh * 2 ^ 64 + ql ->
  Some (ql, qh, Z.shiftr ((N * 2 ^ sh) mod (d * 2 ^ sh)) sh) =
  Some (uint 64 (N / d), Z.shiftr (N / d) 64, N mod d).
Proof.
  intros Hsh Hd Hql Eq. pose proof (pow2_pos sh Hsh).
  rewrite Z.div_mul_cancel_r in Eq by lia. rewrite Z.mul_mod_distr_r by lia.
  rewrite !Z.shiftr_div_pow2, Z.div_mul by lia. rewrite Eq. unfold uint.
  rewrite <- (Z.mod_unique (qh * 2 ^ 64 + ql) (2 ^ 64) qh ql) by lia.
  by rewrite <- (Z.div_unique (qh * 2 ^ 64 + ql) (2 ^ 64) qh ql) by lia.
Qed.

Lemma divu128_spec low high d :
  0 <= low < 2 ^ 64 -> 0 <= high < 2 ^ 64 -> 0 < d < 2 ^ 64 ->
  let N := high * 2 ^ 64 + low in
  divu128 low high d = Some (uint 64 (N / d), Z.shiftr (N / d) 64, N mod d).
Proof.
  intros Hlow Hhigh Hd N. unfold divu128.
  destruct (Z.eqb_spec d 0) as [| _]; [lia |]. rewrite orb_false_l.
  destruct (Z.eqb_spec high 0) as [E0 | Hh0].
  { subst high. change N with low. assert (0 <= low / d < 2 ^ 64).
    { split; [apply Z.div_pos; lia | apply Z.div_lt_upper_bound; nia]. }
    rewrite uint_small, Z.shiftr_div_pow2, (Z.div_small (low / d)) by lia. done. }
  destruct (clz64_normalise d Hd) as [Hsh Hn]. set (sh := clz64 d) in *.
  assert (ED : uint 64 (Z.shiftl d sh) = d * 2 ^ sh) by (rewrite shiftl_mul, uint_small; lia).
  destruct (Z.ltb_spec high d) as [Hlt | Hge].
  - destruct (Z.eqb_spec sh 0) as [E | E]; cbn [negb].
    + rewrite E, Z.mul_1_r in Hn. rewrite udiv_qrnnd_spec by lia. fold N. rewrite E.
      pose proof (divu128_result N d 0 0 (N / d)) as R. rewrite !Z.mul_1_r in R. apply R; try lia.
      unfold N. split; [apply Z.div_pos; lia | apply Z.div_lt_upper_bound; nia].
    + destruct (shift_words high low sh) as (EW & HT & HH & HL); [lia.. |]. fold N in EW.
      set (H := Z.lor _ _) in *. set (L := uint 64 (Z.shiftl low sh)) in *. rewrite ED.
      assert (HN : N * 2 ^ sh < d * 2 ^ sh * 2 ^ 64) by (unfold N; nia).
      assert (ET : Z.shiftr high (64 - sh) = 0) by nia. rewrite ET in EW.
      rewrite udiv_qrnnd_spec by nia. replace (H * 2 ^ 64 + L) with (N * 2 ^ sh) by lia.
      apply divu128_result; [lia | lia | | lia].
      split; [apply Z.div_pos; nia | apply Z.div_lt_upper_bound; nia].
  - destruct (Z.eqb_spec sh 0) as [E | E]; cbn [negb].
    + rewrite E, Z.mul_1_r in Hn. rewrite (uint_small 64) by lia. rewrite udiv_qrnnd_spec by lia.
      destruct (long_division d 1 (high - d) low) as (Q & R & B); [lia.. |].
      assert (EN : (1 * d + (high - d)) * 2 ^ 64 + low = N) by (unfold N; ring). rewrite EN in Q, R.
      rewrite <- R, E. pose proof (divu128_result N d 0 1 ((((high - d) * 2 ^ 64) + low) / d)) as X.
      rewrite !Z.mul_1_r in X. apply X; lia.
    + destruct (shift_words high low sh) as (EW & HT & HH & HL); [lia.. |]. fold N in EW.
      set (T := Z.shiftr high _) in *. set (H := Z.lor _ _) in *. set (L := uint 64 (Z.shiftl low sh)) in *.
      rewrite ED. assert (2 ^ sh <= 2 ^ 63) by (apply Z.pow_le_mono_r; lia).
      rewrite (udiv_qrnnd_spec T H) by lia. set (D := d * 2 ^ sh) in *.
      pose proof (Z.div_mod (T * 2 ^ 64 + H) D ltac:(lia)) as Ediv.
      pose proof (Z.mod_pos_bound (T * 2 ^ 64 + H) D ltac:(lia)) as Hr.
      set (qh := (T * 2 ^ 64 + H) / D) in *. set (r := (T * 2 ^ 64 + H) mod D) in *.
      rewrite udiv_qrnnd_spec by lia. destruct (long_division D qh r L) as (Q & R & B); [lia.. |].
      assert (EN : (qh * D + r) * 2 ^ 64 + L = N * 2 ^ sh) 
        by (rewrite (Z.mul_comm qh D), <- Ediv, EW; ring). rewrite EN in Q, R.
      rewrite <- R. apply divu128_result; [lia | lia | lia | done].
Qed.

(** ** Signed division *)

(** The two words of the opposite of a double word, as divs128 negates it. *)
Lemma negate_words hi lo :
  0 <= lo < 2 ^ 64 ->
  (if lo =? 0 then uint 64 (- hi) else uint 64 (Z.lnot hi)) = uint 64 (Z.shiftr (- (hi * 2 ^ 64 + lo)) 64) /\
  (if lo =? 0 then sint 64 (- hi) else sint 64 (Z.lnot hi)) = sint 64 (Z.shiftr (- (hi * 2 ^ 64 + lo)) 64) /\
  (if lo =? 0 then 0 else uint 64 (- lo)) = uint 64 (- (hi * 2 ^ 64 + lo)).
Proof.
  intros Hlo. rewrite Z.shiftr_div_pow2 by lia.
  assert (El : uint 64 (- (hi * 2 ^ 64 + lo)) = uint 64 (- lo)).
  { unfold uint. rewrite <- (Z_mod_plus_full (- lo) (- hi)). f_equal. ring. }
  rewrite El. destruct (Z.eqb_spec lo 0) as [-> | Hne].
  - replace (- (hi * 2 ^ 64 + 0)) with (- hi * 2 ^ 64) by ring.
    rewrite Z.div_mul by lia. done.
  - replace ((- (hi * 2 ^ 64 + lo)) / 2 ^ 64) with (Z.lnot hi); [done |].
    unfold Z.lnot. apply Z.div_unique with (r := 2 ^ 64 - lo); lia.
Qed.

Lemma uint_abs_divisor d :
  - 2 ^ 63 <= d < 2 ^ 63 -> uint 64 (if d <? 0 then sint 64 (- d) else d) = Z.abs d.
Proof.
  intros Hd. destruct (Z.ltb_spec d 0).
  - rewrite uint_sint, uint_small by lia. lia.
  - rewrite uint_small by lia. lia.
Qed.

(** The absolute value of the dividend, as divs128 computes it. *)
Lemma abs_words low high :
  0 <= low < 2 ^ 64 -> - 2 ^ 63 <= high < 2 ^ 63 ->
  exists hi lo,
    (if high <? 0 then
       if low =? 0 then (true, true, uint 64 (- uint 64 high), low)
       else (true, true, uint 64 (Z.lnot (uint 64 high)), uint 64 (- low))
     else (false, false, uint 64 high, low)) = (high <? 0, high <? 0, hi, lo) /\
    hi * 2 ^ 64 + lo = Z.abs (high * 2 ^ 64 + low) /\ 0 <= hi <= 2 ^ 63 /\ 0 <= lo < 2 ^ 64.
Proof.
  intros Hlow Hhigh. destruct (Z.ltb_spec high 0) as [Hneg | Hpos].
  - assert (Eu : uint 64 high = high + 2 ^ 64).
    { unfold uint. symmetry. apply Z.mod_unique with (q := -1); lia. }
    destruct (Z.eqb_spec low 0) as [-> | Hne].
    + exists (- high), 0. split.
      * repeat f_equal. rewrite Eu. unfold uint. symmetry. apply Z.mod_unique with (q := -1); lia.
      * lia.
    + exists (- high - 1), (2 ^ 64 - low). split; [| lia].
      repeat f_equal.
      * rewrite Eu. unfold Z.lnot, uint. symmetry. apply Z.mod_unique with (q := -1); lia.
      * unfold uint. symmetry. apply Z.mod_unique with (q := -1); lia.
  - exists high, low. rewrite (uint_small 64 high) by lia. split; [done | lia].
Qed.

Lemma divs128_spec low high d :
  0 <= low < 2 ^ 64 -> - 2 ^ 63 <= high < 2 ^ 63 -> - 2 ^ 63 <= d < 2 ^ 63 -> d <> 0 ->
  let N := high * 2 ^ 64 + low in
  divs128 low high d = Some (uint 64 (Z.quot N d), sint 64 (Z.shiftr (Z.quot N d) 64), Z.rem N d).
Proof.
  intros Hlow Hhigh Hd Hd0 N. unfold divs128.
  destruct (abs_words low high Hlow Hhigh) as (hi & lo & -> & Eabs & Bhi & Blo). fold N in Eabs.
  rewrite Z.quot_div, Z.rem_mod by done.
  destruct (if d <? 0 then (negb (high <? 0), sint 64 (- d)) else (high <? 0, d)) as [nq dv] eqn:Edv.
  assert (Hdv : uint 64 dv = Z.abs d /\ nq = xorb (high <? 0) (d <? 0)).
  { rewrite <- (uint_abs_divisor d Hd).
    destruct (d <? 0); inversion Edv; subst; split; try done; by destruct (high <? 0). }
  destruct Hdv as [-> Hnq]. rewrite divu128_spec by lia. rewrite Eabs.
  set (Q := Z.abs N / Z.abs d). set (R := Z.abs N mod Z.abs d).
  assert (HQ : 0 <= Q) by (apply Z.div_pos; lia).
  assert (HR : 0 <= R < Z.abs d) by (apply Z.mod_pos_bound; lia).
  assert (EQ : Z.shiftr Q 64 * 2 ^ 64 + uint 64 Q = Q).
  { unfold uint. rewrite Z.shiftr_div_pow2 by lia. pose proof (Z.div_mod Q (2 ^ 64)). lia. }
  destruct (negate_words (Z.shiftr Q 64) (uint 64 Q)) as (_ & N1 & N2); [apply uint_range; lia |].
  rewrite EQ in N1, N2.
  assert (Hsgn : N <> 0 -> Z.sgn N = if high <? 0 then -1 else 1).
  { intros. destruct (Z.ltb_spec high 0); unfold N in *; lia. }
  assert (HQ0 : N = 0 -> Q = 0 /\ R = 0).
  { intros E. unfold Q, R. rewrite E. cbn [Z.abs]. rewrite Z.div_0_l, Z.mod_0_l by lia. done. }
  assert (Eq : (if nq then - Q else Q) = Z.sgn N * Z.sgn d * Q).
  { destruct (Z.eq_dec N 0) as [E | E]; [destruct (HQ0 E) as [-> _]; destruct nq; lia |].
    rewrite Hsgn, Hnq by done. destruct (high <? 0), (Z.ltb_spec d 0); cbn [xorb]; lia. }
  assert (Er : (if high <? 0 then sint 64 (- R) else sint 64 R) = Z.sgn N * R).
  { destruct (Z.eq_dec N 0) as [E | E]; [destruct (HQ0 E) as [_ ->]; rewrite Z.mul_0_r; destruct (high <? 0); reflexivity |].
    rewrite Hsgn by done. destruct (high <? 0); rewrite sint_small; lia. }
  rewrite <- Eq, <- Er. destruct nq.
  - destruct (uint 64 Q =? 0); rewrite <- N1, <- N2; done.
  - done.
Qed.

(** ** Products of a double word *)

Lemma mulu64_low_high a b :
  0 <= a < 2 ^ 64 -> 0 <= b < 2 ^ 64 -> mulu64 a b = (uint 64 (a * b), Z.shiftr (a * b) 64).
Proof. intros. unfold mulu64. rewrite mul64_low_high by (apply uint_range; lia). by rewrite (uint_small 64 a), (uint_small 64 b) by lia. Qed.

Lemma sint_uint w x : 0 < w -> sint w (uint w x) = sint w x.
Proof. intros. unfold sint. by rewrite uint_uint by lia. Qed.

Lemma mulu128_spec low high f :
  0 <= low < 2 ^ 64 -> 0 <= high < 2 ^ 64 -> 0 <= f < 2 ^ 64 ->
  let P := (high * 2 ^ 64 + low) * f in
  mulu128 low high f = (negb (P <? 2 ^ 128), uint 64 P, uint 64 (Z.shiftr P 64)).
Proof.
  intros Hl Hh Hf P. unfold mulu128. destruct (Z.eqb_spec high 0) as [-> | H0].
  - change P with (low * f). rewrite mulu64_low_high by done.
    assert (0 <= low * f < 2 ^ 128) by nia. rewrite (uint_small 64 (Z.shiftr _ _)).
    + destruct (Z.ltb_spec (low * f) (2 ^ 128)); [done | lia].
    + rewrite Z.shiftr_div_pow2 by lia. split; [apply Z.div_pos; lia | apply Z.div_lt_upper_bound; lia].
  - rewrite !mulu64_low_high by done. unfold uadd64_overflow, u_overflow. rewrite uint_uint by lia.
    pose proof (Z.div_mod (low * f) (2 ^ 64) ltac:(lia)) as E1.
    pose proof (Z.mod_pos_bound (low * f) (2 ^ 64) ltac:(lia)) as B1.
    pose proof (Z.div_mod (high * f) (2 ^ 64) ltac:(lia)) as E2.
    pose proof (Z.mod_pos_bound (high * f) (2 ^ 64) ltac:(lia)) as B2.
    assert (0 <= low * f) by nia. assert (0 <= high * f) by nia.
    assert (Ha : 0 <= (low * f) / 2 ^ 64 < 2 ^ 64)
      by (split; [apply Z.div_pos; lia | apply Z.div_lt_upper_bound; nia]).
    assert (Hb : 0 <= (high * f) / 2 ^ 64) by (apply Z.div_pos; lia).
    rewrite !(Z.shiftr_div_pow2 _ 64) by lia. rewrite (uint_small 64 (low * f / 2 ^ 64)) by done.
    assert (EP : P = (high * f) * 2 ^ 64 + low * f) by (unfold P; ring).
    set (a := low * f) in *. set (b := high * f) in *.
    assert (EQ : P / 2 ^ 64 = b + a / 2 ^ 64).
    { rewrite EP, Z.add_comm, Z.div_add by lia. lia. }
    f_equal; [f_equal |].
    + unfold uint. set (s := a / 2 ^ 64 + b mod 2 ^ 64).
      assert (Es : s = P / 2 ^ 64 - (b / 2 ^ 64) * 2 ^ 64) by lia.
      pose proof (Z.div_mod P (2 ^ 64) ltac:(lia)) as EP2. pose proof (Z.mod_pos_bound P (2 ^ 64) ltac:(lia)).
      pose proof (Z.div_mod s (2 ^ 64) ltac:(lia)). pose proof (Z.mod_pos_bound s (2 ^ 64) ltac:(lia)).
      destruct (Z.ltb_spec P (2 ^ 128)), (Z.eqb_spec (s mod 2 ^ 64) s), (Z.eqb_spec (b / 2 ^ 64) 0);
        cbn; try done; lia.
    + rewrite EP. unfold uint. by rewrite Z.add_comm, Z_mod_plus_full.
    + rewrite EQ. unfold uint. rewrite Zplus_mod_idemp_r. f_equal. lia.
Qed.

(** ** The contracts *)

(** C30: the 64-by-64 multiplications by 32-bit halves are exact: the two words
    they return are the two halves of the 128-bit product, unsigned and
    signed; mulu128 multiplies a double word and reports exactly whether the
    product was truncated to 128 bits. *)
Theorem wide_multiplication a b :
  (let '(l, h) := mulu64 a b in
   h * 2 ^ 64 + l = uint 64 a * uint 64 b /\ 0 <= l < 2 ^ 64 /\ 0 <= h < 2 ^ 64) /\
  (let '(l, h) := muls64 a b in
   sint 64 h * 2 ^ 64 + l = sint 64 a * sint 64 b /\ 0 <= l < 2 ^ 64 /\ 0 <= h < 2 ^ 64) /\
  (forall low high f, 0 <= low < 2 ^ 64 -> 0 <= high < 2 ^ 64 -> 0 <= f < 2 ^ 64 ->
   let P := (high * 2 ^ 64 + low) * f in
   mulu128 low high f = (negb (P <? 2 ^ 128), uint 64 P, uint 64 (Z.shiftr P 64))).
Proof.
  split; [| split].
  - apply mul64_spec; apply uint_range; lia.
  - rewrite muls64_low_high. pose proof (sint_range 64 a ltac:(lia)). pose proof (sint_range 64 b ltac:(lia)).
    set (p := sint 64 a * sint 64 b). assert (Hp : - 2 ^ 126 <= p <= 2 ^ 126) by (unfold p; nia).
    rewrite sint_uint by lia. rewrite sint_small.
    + rewrite Z.shiftr_div_pow2 by lia. unfold uint. pose proof (Z.div_mod p (2 ^ 64)).
      pose proof (Z.mod_pos_bound p (2 ^ 64)). pose proof (Z.mod_pos_bound (p / 2 ^ 64) (2 ^ 64)). lia.
    + lia.
    + rewrite Z.shiftr_div_pow2 by lia.
      split; [apply Z.div_le_lower_bound | apply Z.div_lt_upper_bound]; lia.
  - apply mulu128_spec.
Qed.

(** C29: divu128 and divs128 divide: for every non-zero divisor they return the
    low and the high word of the quotient and the remainder, truncated towards
    zero for the signed one; a zero divisor is a division by zero. *)
Theorem wide_division low high d :
  0 <= low < 2 ^ 64 ->
  (0 <= high < 2 ^ 64 -> 0 <= d < 2 ^ 64 ->
   let N := high * 2 ^ 64 + low in
   divu128 low high d =
     if d =? 0 then None else Some (uint 64 (N / d), Z.shiftr (N / d) 64, N mod d)) /\
  (- 2 ^ 63 <= high < 2 ^ 63 -> - 2 ^ 63 <= d < 2 ^ 63 ->
   let N := high * 2 ^ 64 + low in
   divs128 low high d =
     if d =? 0 then None
     else Some (uint 64 (Z.quot N d), sint 64 (Z.shiftr (Z.quot N d) 64), Z.rem N d)).
Proof.
  intros Hlow. split; intros Hhigh Hd N; destruct (Z.eqb_spec d 0) as [-> | Hd0].
  - unfold divu128. done.
  - apply divu128_spec; lia.
  - unfold divs128. destruct (abs_words low high Hlow Hhigh) as (hi & lo & -> & _). done.
  - by apply divs128_spec.
Qed.

Lemma wide_division_witness :
  divu128 5 3 7 = Some (uint 64 ((3 * 2 ^ 64 + 5) / 7), Z.shiftr ((3 * 2 ^ 64 + 5) / 7) 64, (3 * 2 ^ 64 + 5) mod 7) /\
  divs128 5 (-3) 7 = Some (uint 64 (Z.quot (-3 * 2 ^ 64 + 5) 7),
    sint 64 (Z.shiftr (Z.quot (-3 * 2 ^ 64 + 5) 7) 64), Z.rem (-3 * 2 ^ 64 + 5) 7).
Proof.
  split.
  - apply (proj1 (wide_division 5 3 7 ltac:(lia))); lia.
  - apply (proj2 (wide_division 5 (-3) 7 ltac:(lia))); lia.
Defined.

(** ** Scaling *)

Lemma muldiv64_rounding_spec a b c up :
  uint 32 c <> 0 ->
  muldiv64_rounding a b c up =
  Some (uint 64 ((uint 64 a * uint 32 b + (if up then uint 32 c - 1 else 0)) / uint 32 c)).
Proof.
  intros Hc. unfold muldiv64_rounding. destruct (Z.eqb_spec (uint 32 c) 0); [done |]. f_equal.
  pose proof (uint_range 64 a ltac:(lia)) as Ha. pose proof (uint_range 32 b ltac:(lia)) as Hb.
  pose proof (uint_range 32 c ltac:(lia)) as Hc'. destruct (ll_split _ Ha) as (Ea & Hah & Hal).
  set (x := uint 64 a) in *. set (y := uint 32 b) in *. set (d := uint 32 c) in *.
  set (al := ll_low x) in *. set (ah := ll_high x) in *.
  pose proof (prod_bound al y Hal Hb) as B1. pose proof (prod_bound ah y Hah Hb) as B2.
  set (u := if up then d - 1 else 0). assert (Hu : 0 <= u < 2 ^ 32) by (unfold u; destruct up; lia).
  assert (Erl : (if up then uint 64 (uint 64 (al * y) + uint 32 (d - 1)) else uint 64 (al * y)) = al * y + u).
  { unfold u. destruct up; rewrite (uint_small 64 (al * y)) by lia; [| lia].
    rewrite (uint_small 32 (d - 1)) by lia. apply uint_small. lia. }
  rewrite Erl. set (rl := al * y + u). assert (Hrl : 0 <= rl < 2 ^ 64) by (unfold rl; lia).
  destruct (ll_split rl Hrl) as (El & Hlh & Hll). rewrite (shiftr32_high rl Hrl).
  rewrite (uint_small 64 (ah * y)) by lia. rewrite (uint_small 64 (ah * y + _)) by lia.
  set (rh := ah * y + ll_high rl). 
  assert (EP : x * y + u = rh * 2 ^ 32 + ll_low rl) by (unfold rh; rewrite Ea; lia).
  change 0xffffffff with (Z.ones 32). rewrite Z.land_ones by lia.
  change (rl mod 2 ^ 32) with (ll_low rl). set (lo := ll_low rl) in *.
  pose proof (Z.div_mod rh d ltac:(lia)) as E1. pose proof (Z.mod_pos_bound rh d ltac:(lia)) as R1.
  set (q1 := rh / d) in *. set (r1 := rh mod d) in *.
  rewrite (uint_small 64 (Z.shiftl r1 32)) by (rewrite shiftl_mul; lia).
  rewrite shiftl_mul by lia. rewrite (uint_small 64 (r1 * 2 ^ 32 + lo)) by lia.
  set (q0 := (r1 * 2 ^ 32 + lo) / d).
  assert (B0 : 0 <= q0 < 2 ^ 32) by (split; [apply Z.div_pos | apply Z.div_lt_upper_bound]; nia).
  assert (Eq : (x * y + u) / d = q1 * 2 ^ 32 + q0).
  { rewrite EP, E1. replace ((d * q1 + r1) * 2 ^ 32 + lo) with ((r1 * 2 ^ 32 + lo) + (q1 * 2 ^ 32) * d) by ring.
    rewrite Z.div_add by lia. unfold q0. lia. }
  rewrite Eq. unfold ll. rewrite (uint_small 32 q0) by lia. unfold uint.
  pose proof (Z.div_mod q1 (2 ^ 32) ltac:(lia)). pose proof (Z.mod_pos_bound q1 (2 ^ 32) ltac:(lia)).
  apply Z.mod_unique with (q := q1 / 2 ^ 32); lia.
Qed.

(** C31: muldiv64 computes (a * b) / c with the full 96-bit product, truncated
    to 64 bits, and muldiv64_round_up the same quotient rounded up. *)
Theorem muldiv64_exact a b c :
  uint 32 c <> 0 ->
  muldiv64 a b c = Some (uint 64 (uint 64 a * uint 32 b / uint 32 c)) /\
  muldiv64_round_up a b c = Some (uint 64 (- (- (uint 64 a * uint 32 b) / uint 32 c))).
Proof.
  intros Hc. unfold muldiv64, muldiv64_round_up. rewrite !muldiv64_rounding_spec by done.
  rewrite Z.add_0_r. split; [done |]. do 2 f_equal.
  pose proof (uint_range 32 c ltac:(lia)). set (p := uint 64 a * uint 32 b). set (d := uint 32 c) in *.
  pose proof (Z.div_mod (p + (d - 1)) d ltac:(lia)). pose proof (Z.mod_pos_bound (p + (d - 1)) d ltac:(lia)).
  pose proof (Z.div_mod (- p) d ltac:(lia)). pose proof (Z.mod_pos_bound (- p) d ltac:(lia)). nia.
Qed.

Lemma muldiv64_exact_witness :
  muldiv64 (2 ^ 63) 1000 7 = Some (uint 64 (uint 64 (2 ^ 63) * uint 32 1000 / uint 32 7)) /\
  muldiv64_round_up (2 ^ 63) 1000 7 = Some (uint 64 (- (- (uint 64 (2 ^ 63) * uint 32 1000) / uint 32 7))).
Proof. apply (muldiv64_exact (2 ^ 63) 1000 7). discriminate. Defined.

(** ** Carries and shifts *)

Lemma uint_overflow_add x y :
  0 <= x < 2 ^ 64 -> 0 <= y < 2 ^ 64 -> u_overflow 64 (x + y) = (2 ^ 64 <=? x + y, if 2 ^ 64 <=? x + y then x + y - 2 ^ 64 else x + y).
Proof.
  intros Hx Hy. unfold u_overflow, uint. destruct (Z.leb_spec (2 ^ 64) (x + y)).
  - assert (E : x + y - 2 ^ 64 = (x + y) mod 2 ^ 64) by (apply Z.mod_unique with (q := 1); lia).
    rewrite <- E. destruct (Z.eqb_spec (x + y - 2 ^ 64) (x + y)); [lia | done].
  - rewrite Z.mod_small by lia. by rewrite Z.eqb_refl.
Qed.

Lemma uint_overflow_sub x y :
  0 <= x < 2 ^ 64 -> 0 <= y < 2 ^ 64 -> u_overflow 64 (x - y) = (x <? y, if x <? y then x - y + 2 ^ 64 else x - y).
Proof.
  intros Hx Hy. unfold u_overflow, uint. destruct (Z.ltb_spec x y).
  - assert (E : x - y + 2 ^ 64 = (x - y) mod 2 ^ 64) by (apply Z.mod_unique with (q := -1); lia).
    rewrite <- E. destruct (Z.eqb_spec (x - y + 2 ^ 64) (x - y)); [lia | done].
  - rewrite Z.mod_small by lia. by rewrite Z.eqb_refl.
Qed.

Lemma b2z_range b : 0 <= b2z b < 2 ^ 64.
Proof. destruct b; cbn; lia. Qed.

(** C32: adding with carry and subtracting with borrow lose nothing: the word
    and the outgoing carry (borrow) together are the exact sum (difference). *)
Theorem carry_chain x y c :
  (let '(s, c') := uadd64_carry x y c in
   0 <= s < 2 ^ 64 /\ s + b2z c' * 2 ^ 64 = uint 64 x + uint 64 y + b2z c) /\
  (let '(d, c') := usub64_borrow x y c in
   0 <= d < 2 ^ 64 /\ d - b2z c' * 2 ^ 64 = uint 64 x - uint 64 y - b2z c).
Proof.
  unfold uadd64_carry, usub64_borrow, uadd64_overflow, usub64_overflow.
  pose proof (uint_range 64 x ltac:(lia)). pose proof (uint_range 64 y ltac:(lia)).
  pose proof (b2z_range c). rewrite !(uint_small 64 (b2z c)) by done.
  rewrite uint_overflow_add, uint_overflow_sub by done.
  set (u := uint 64 x) in *. set (v := uint 64 y) in *. set (k := b2z c) in *.
  assert (Hk : k = 0 \/ k = 1) by (unfold k; destruct c; cbn; lia). split.
  - destruct (Z.leb_spec (2 ^ 64) (u + k)); rewrite (uint_small 64) by lia;
      rewrite uint_overflow_add by lia; split_cmp; cbn; lia.
  - destruct (Z.ltb_spec u k); rewrite (uint_small 64) by lia;
      rewrite uint_overflow_sub by lia; split_cmp; cbn; lia.
Qed.

Lemma land_ones_mod x n : 0 <= n -> Z.land x (2 ^ n - 1) = x mod 2 ^ n.
Proof. intros. rewrite <- Z.land_ones by done. f_equal. rewrite Z.ones_equiv. lia. Qed.

Lemma words_low low high : 0 <= low < 2 ^ 64 -> uint 64 (high * 2 ^ 64 + low) = low.
Proof. intros. unfold uint. rewrite Z.add_comm, Z_mod_plus_full. by apply Z.mod_small. Qed.

Lemma words_high low high k :
  0 <= low < 2 ^ 64 -> 0 <= k -> Z.shiftr (high * 2 ^ 64 + low) (64 + k) = Z.shiftr high k.
Proof.
  intros. rewrite <- Z.shiftr_shiftr by lia. f_equal. rewrite Z.shiftr_div_pow2 by lia.
  symmetry. apply Z.div_unique with (r := low); lia.
Qed.

Lemma shiftr_small_range w x k : 0 <= x < 2 ^ w -> 0 <= k -> 0 <= Z.shiftr x k < 2 ^ w.
Proof.
  intros Hx Hk. rewrite Z.shiftr_div_pow2 by lia. pose proof (pow2_pos k Hk).
  split; [apply Z.div_pos; lia | apply Z.div_lt_upper_bound; nia].
Qed.

Lemma urshift_words low high k :
  0 <= low < 2 ^ 64 -> 0 <= high < 2 ^ 64 -> 0 <= k < 128 ->
  urshift low high k =
  (uint 64 (Z.shiftr (high * 2 ^ 64 + low) k), Z.shiftr high k).
Proof.
  intros Hl Hh Hk. unfold urshift. change 127 with (2 ^ 7 - 1). change 63 with (2 ^ 6 - 1).
  rewrite !land_ones_mod by lia. rewrite (Z.mod_small k) by lia.
  destruct (Z.eqb_spec k 0) as [-> | Hk0]; [by rewrite !Z.shiftr_0_r, words_low |].
  rewrite Z.geb_leb. destruct (Z.leb_spec 64 k) as [Hge | Hlt].
  - replace (k mod 2 ^ 6) with (k - 64) by (apply Z.mod_unique with (q := 1); lia).
    replace k with (64 + (k - 64)) at 2 by lia. rewrite words_high by lia.
    rewrite (uint_small 64) by (apply shiftr_small_range; lia). f_equal.
    rewrite Z.shiftr_div_pow2 by lia. symmetry. apply Z.div_small.
    assert (2 ^ 64 <= 2 ^ k) by (apply Z.pow_le_mono_r; lia). lia.
  - rewrite (Z.mod_small k) by lia. f_equal. rewrite <- (lor_shift_add 64 high low) by lia.
    apply Z.bits_inj'; intros i Hi.
    rewrite Z.lor_spec, !uint_testbit, !Z.shiftr_spec, Z.lor_spec, !shiftl_testbit by lia.
    destruct (Z.ltb_spec i 64), (Z.leb_spec 64 (i + k)), (Z.leb_spec (64 - k) i); try lia; cbn;
      rewrite ?orb_false_r; try done.
    + rewrite (testbit_above 64 low (i + k)) by lia. rewrite orb_false_r, orb_false_l. f_equal. lia.
    + rewrite (testbit_above 64 low (i + k)) by lia. done.
Qed.

(** A double word from its words. *)
Lemma words_join low high k :
  0 <= low < 2 ^ 64 -> 0 <= high < 2 ^ 64 -> 0 <= k ->
  Z.shiftr high k * 2 ^ 64 + uint 64 (Z.shiftr (high * 2 ^ 64 + low) k) =
  Z.shiftr (high * 2 ^ 64 + low) k.
Proof.
  intros Hl Hh Hk. rewrite <- (words_high low high k) by done.
  rewrite (Z.add_comm 64 k), <- Z.shiftr_shiftr by lia.
  set (M := Z.shiftr (high * 2 ^ 64 + low) k). rewrite Z.shiftr_div_pow2 by lia.
  unfold uint. pose proof (Z.div_mod M (2 ^ 64)). lia.
Qed.

(** What is left above bit [128 - k] is what a left shift by [k] loses. *)
Lemma shifted_out low high k :
  0 <= low < 2 ^ 64 -> 0 <= high < 2 ^ 64 -> 0 <= k < 128 ->
  let N := high * 2 ^ 64 + low in
  negb (Z.lor (uint 64 (Z.shiftr N (128 - k))) (Z.shiftr high (128 - k)) =? 0) =
  negb (Z.shiftl N k <? 2 ^ 128).
Proof.
  intros Hl Hh Hk N. f_equal. rewrite shiftl_mul by lia.
  pose proof (words_join low high (128 - k) Hl Hh ltac:(lia)) as J. fold N in J.
  pose proof (uint_range 64 (Z.shiftr N (128 - k)) ltac:(lia)).
  pose proof (shiftr_small_range 64 high (128 - k) Hh ltac:(lia)).
  assert (P : 2 ^ 128 = 2 ^ (128 - k) * 2 ^ k) by (rewrite <- Z.pow_add_r by lia; f_equal; lia).
  pose proof (pow2_pos k ltac:(lia)). pose proof (pow2_pos (128 - k) ltac:(lia)).
  assert (HN : 0 <= N) by (unfold N; lia).
  destruct (Z.ltb_spec (N * 2 ^ k) (2 ^ 128)) as [Hs | Hb].
  - assert (E : Z.shiftr N (128 - k) = 0) by (rewrite Z.shiftr_div_pow2 by lia; apply Z.div_small; nia).
    rewrite E in *. apply Z.eqb_eq. apply Z.lor_eq_0_iff. cbn in *. split; [reflexivity | lia].
  - apply Z.eqb_neq. rewrite Z.lor_eq_0_iff. intros [E1 E2]. rewrite E1, E2 in J.
    rewrite Z.shiftr_div_pow2 in J by lia. symmetry in J. apply Z.div_small_iff in J; nia.
Qed.

(** A left shift of a double word. *)
Lemma ulshift_words low high k o :
  0 <= low < 2 ^ 64 -> 0 <= high < 2 ^ 64 -> 0 <= k < 128 ->
  let N := high * 2 ^ 64 + low in
  ulshift low high k o =
  (uint 64 (Z.shiftl N k), uint 64 (Z.shiftr (Z.shiftl N k) 64),
   o || negb (Z.shiftl N k <? 2 ^ 128)).
Proof.
  intros Hl Hh Hk N. unfold ulshift. change 127 with (2 ^ 7 - 1). change 63 with (2 ^ 6 - 1).
  rewrite !land_ones_mod by lia. rewrite (Z.mod_small k) by lia.
  assert (HN : 0 <= N < 2 ^ 128) by (unfold N; lia).
  assert (HN64 : Z.shiftr N 64 = high) by (apply (words_high low high 0); lia).
  destruct (Z.eqb_spec k 0) as [-> | Hk0].
  { rewrite !Z.shiftl_0_r, HN64, (uint_small 64 high) by done. unfold N at 1.
    rewrite words_low by done. destruct (Z.ltb_spec N (2 ^ 128)); [| lia]. by rewrite orb_false_r. }
  rewrite urshift_words by lia. fold N.
  assert (Ho : negb (Z.lor (uint 64 (Z.shiftr N (128 - k))) (Z.shiftr high (128 - k)) =? 0) =
               negb (Z.shiftl N k <? 2 ^ 128)) by by apply shifted_out.
  rewrite Ho. replace (if negb (Z.shiftl N k <? 2 ^ 128) then true else o)
    with (o || negb (Z.shiftl N k <? 2 ^ 128)) by (destruct (Z.shiftl N k <? 2 ^ 128), o; done).
  assert (HNb : forall i, 0 <= i -> Z.testbit N i = if i <? 64 then Z.testbit low i else Z.testbit high (i - 64)).
  { intros i Hi. unfold N. rewrite <- lor_shift_add, Z.lor_spec, shiftl_testbit by lia.
    destruct (Z.ltb_spec i 64), (Z.leb_spec 64 i); try lia; [done |].
    by rewrite (testbit_above 64 low i), orb_false_r by lia. }
  rewrite Z.geb_leb. destruct (Z.leb_spec 64 k) as [Hge | Hlt]; (apply f_equal2; [apply f_equal2 | done]).
  - apply Z.bits_inj'; intros i Hi. rewrite uint_testbit, shiftl_testbit, Z.bits_0 by lia.
    split_cmp; done.
  - replace (k mod 2 ^ 6) with (k - 64) by (apply Z.mod_unique with (q := 1); lia).
    apply Z.bits_inj'; intros i Hi. rewrite !uint_testbit, Z.shiftr_spec, !shiftl_testbit by lia.
    destruct (Z.ltb_spec i 64); [| done].
    destruct (Z.leb_spec (k - 64) i), (Z.leb_spec k (i + 64)); try lia; cbn.
    rewrite HNb by lia. destruct (Z.ltb_spec (i + 64 - k) 64); [| lia]. f_equal. lia.
  - apply Z.bits_inj'; intros i Hi. rewrite !uint_testbit, !shiftl_testbit by lia.
    destruct (Z.ltb_spec i 64); [| done]. destruct (Z.leb_spec k i); [cbn | done].
    rewrite HNb by lia. destruct (Z.ltb_spec (i - k) 64); [done | lia].
  - rewrite (Z.mod_small k) by lia. apply Z.bits_inj'; intros i Hi.
    rewrite Z.lor_spec, !uint_testbit, !Z.shiftr_spec, !shiftl_testbit by lia.
    destruct (Z.leb_spec k (i + 64)); [| lia]. rewrite HNb by lia. cbn.
    destruct (Z.ltb_spec i 64), (Z.leb_spec k i), (Z.ltb_spec (i + 64 - k) 64); try lia; cbn.
    + rewrite (testbit_above 64 low) by lia. cbn. f_equal. lia.
    + rewrite orb_false_r. f_equal. lia.
    + rewrite orb_false_r. apply (testbit_above 64 low); lia.
Qed.

(** The 128-bit shifts act on the whole double word for every count modulo
    128; the left shift sets the overflow flag exactly when a set bit leaves
    the double word and otherwise leaves the flag as it was. *)
Theorem double_word_shifts low high shift o :
  0 <= low < 2 ^ 64 -> 0 <= high < 2 ^ 64 ->
  let N := high * 2 ^ 64 + low in
  let k := shift mod 128 in
  (let '(l, h) := urshift low high shift in
   h * 2 ^ 64 + l = Z.shiftr N k /\ 0 <= l < 2 ^ 64 /\ 0 <= h < 2 ^ 64) /\
  (let '(l, h, o') := ulshift low high shift o in
   h * 2 ^ 64 + l = uint 128 (Z.shiftl N k) /\ 0 <= l < 2 ^ 64 /\ 0 <= h < 2 ^ 64 /\
   o' = o || negb (Z.shiftl N k <? 2 ^ 128)).
Proof.
  intros Hl Hh N k. assert (Hk : 0 <= k < 128) by (apply Z.mod_pos_bound; lia).
  assert (Ek : Z.land shift 127 = Z.land k 127).
  { change 127 with (2 ^ 7 - 1). rewrite !land_ones_mod by lia. unfold k.
    change (2 ^ 7) with 128. by rewrite Z.mod_mod by lia. }
  assert (Er : urshift low high shift = urshift low high k) by (unfold urshift; by rewrite Ek).
  assert (El : ulshift low high shift o = ulshift low high k o) by (unfold ulshift; by rewrite Ek).
  rewrite Er, El, urshift_words, ulshift_words by done. fold N. split.
  - split; [apply words_join; unfold N; lia |]. split; [by apply uint_range | apply shiftr_small_range; lia].
  - split; [| split; [by apply uint_range | split; [by apply uint_range | done]]].
    change 128 with (2 * 64). rewrite uint_low_high by lia. done.
Qed.

Lemma double_word_shifts_witness :
  (let '(l, h) := urshift 1 3 65 in
   h * 2 ^ 64 + l = Z.shiftr (3 * 2 ^ 64 + 1) (65 mod 128) /\ 0 <= l < 2 ^ 64 /\ 0 <= h < 2 ^ 64) /\
  (let '(l, h, o') := ulshift 1 3 127 false in
   h * 2 ^ 64 + l = uint 128 (Z.shiftl (3 * 2 ^ 64 + 1) (127 mod 128)) /\
   0 <= l < 2 ^ 64 /\ 0 <= h < 2 ^ 64 /\
   o' = false || negb (Z.shiftl (3 * 2 ^ 64 + 1) (127 mod 128) <? 2 ^ 128)).
Proof.
  split.
  - apply (double_word_shifts 1 3 65 false); lia.
  - apply (double_word_shifts 1 3 127 false); lia.
Defined.
