(* ===== verification/TcgCond.v ===== *)
(** * Comparison conditions: include/tcg/tcg-cond.h

    A condition is the integer of the C enumeration, since the functions of
    the header compute on its bits.  [cond_eval] is what a condition means on
    two [w]-bit words; the theorems relate the bit tricks to that meaning. *)

From Stdlib Require Import ZArith Lia Bool.
From stdpp Require Import base numbers list.
From S2P Require Import Prelude.

Local Open Scope Z_scope.

(** ** The enumeration *)

Definition TCGCond : Set := Z.

Definition TCG_COND_NEVER : TCGCond := 0.
Definition TCG_COND_ALWAYS : TCGCond := 1.
Definition TCG_COND_EQ : TCGCond := 8.
Definition TCG_COND_NE : TCGCond := 9.
Definition TCG_COND_LT : TCGCond := 2.
Definition TCG_COND_GE : TCGCond := 3.
Definition TCG_COND_LE : TCGCond := 10.
Definition TCG_COND_GT : TCGCond := 11.
Definition TCG_COND_LTU : TCGCond := 4.
Definition TCG_COND_GEU : TCGCond := 5.
Definition TCG_COND_LEU : TCGCond := 12.
Definition TCG_COND_GTU : TCGCond := 13.

Definition all_conds : list TCGCond :=
  [TCG_COND_NEVER; TCG_COND_ALWAYS; TCG_COND_EQ; TCG_COND_NE;
   TCG_COND_LT; TCG_COND_GE; TCG_COND_LE; TCG_COND_GT;
   TCG_COND_LTU; TCG_COND_GEU; TCG_COND_LEU; TCG_COND_GTU].

Definition valid_cond (c : TCGCond) : bool := existsb (Z.eqb c) all_conds.

(** ** The functions of the header *)

Definition tcg_invert_cond (c : TCGCond) : TCGCond := Z.lxor c 1.

Definition tcg_swap_cond (c : TCGCond) : TCGCond :=
  if negb (Z.land c 6 =? 0) then Z.lxor c 9 else c.

Definition tcg_unsigned_cond (c : TCGCond) : TCGCond :=
  if negb (Z.land c 2 =? 0) then Z.lxor c 6 else c.

Definition tcg_signed_cond (c : TCGCond) : TCGCond :=
  if negb (Z.land c 4 =? 0) then Z.lxor c 6 else c.

Definition is_unsigned_cond (c : TCGCond) : bool := negb (Z.land c 4 =? 0).

Definition tcg_high_cond (c : TCGCond) : TCGCond :=
  if (c =? TCG_COND_GE) || (c =? TCG_COND_LE) || (c =? TCG_COND_GEU) || (c =? TCG_COND_LEU)
  then Z.lxor c 8 else c.

(** ** Meaning *)

(** The result of comparing two [w]-bit words; [None] for an integer that is
    no condition, where the C switches reach [g_assert_not_reached]. *)
Definition cond_eval (w : Z) (c : TCGCond) (x y : Z) : option bool :=
  let ux := uint w x in let uy := uint w y in
  let sx := sint w x in let sy := sint w y in
  if c =? TCG_COND_NEVER then Some false
  else if c =? TCG_COND_ALWAYS then Some true
  else if c =? TCG_COND_EQ then Some (ux =? uy)
  else if c =? TCG_COND_NE then Some (negb (ux =? uy))
  else if c =? TCG_COND_LT then Some (sx <? sy)
  else if c =? TCG_COND_GE then Some (sx >=? sy)
  else if c =? TCG_COND_LE then Some (sx <=? sy)
  else if c =? TCG_COND_GT then Some (sx >? sy)
  else if c =? TCG_COND_LTU then Some (ux <? uy)
  else if c =? TCG_COND_GEU then Some (ux >=? uy)
  else if c =? TCG_COND_LEU then Some (ux <=? uy)
  else if c =? TCG_COND_GTU then Some (ux >? uy)
  else None.

(** Whether a condition holds. *)
Definition cond_holds (w : Z) (c : TCGCond) (x y : Z) : bool := default false (cond_eval w c x y).

(** ** Lemmas *)

(** Case analysis over the conditions. *)
Lemma valid_cond_cases (P : TCGCond -> Prop) :
  Forall P all_conds -> forall c, valid_cond c = true -> P c.
Proof.
  intros HP c Hc. unfold valid_cond in Hc. apply existsb_exists in Hc as (x & Hx & ->%Z.eqb_eq).
  rewrite List.Forall_forall in HP. by apply HP.
Qed.

Ltac cond_split c Hc :=
  revert c Hc;
  match goal with |- forall c, _ -> @?P c => apply (valid_cond_cases P) end;
  repeat first [apply List.Forall_nil | apply List.Forall_cons].

Ltac cond_cases c Hc := cond_split c Hc; intros.

Lemma cond_eval_valid w c x y : valid_cond c = true <-> exists b, cond_eval w c x y = Some b.
Proof.
  split.
  - intros Hc. cond_cases c Hc; eexists; reflexivity.
  - intros [b Hb]. unfold cond_eval in Hb.
    repeat match type of Hb with
    | (if c =? ?k then _ else _) = _ =>
        destruct (Z.eqb_spec c k) as [-> | _]; [reflexivity |]
    end. done.
Qed.

Lemma cond_eval_uint w c x y : 0 <= w -> cond_eval w c (uint w x) (uint w y) = cond_eval w c x y.
Proof.
  intros Hw. unfold cond_eval. rewrite !uint_uint by done.
  unfold sint. by rewrite !uint_uint by done.
Qed.

Lemma cond_eval_holds w c x y :
  valid_cond c = true -> cond_eval w c x y = Some (cond_holds w c x y).
Proof.
  intros Hc. destruct (proj1 (cond_eval_valid w c x y) Hc) as [b Hb]. unfold cond_holds. by rewrite Hb.
Qed.

Lemma cond_holds_uint w c x y :
  0 <= w -> cond_holds w c (uint w x) (uint w y) = cond_holds w c x y.
Proof. intros Hw. unfold cond_holds. by rewrite cond_eval_uint. Qed.

Lemma uint_eq_sint w x y : 0 < w -> (uint w x =? uint w y) = (sint w x =? sint w y).
Proof.
  intros Hw. destruct (Z.eqb_spec (uint w x) (uint w y)) as [E | E];
    destruct (Z.eqb_spec (sint w x) (sint w y)) as [E' | E']; try done.
  - exfalso. apply E'. unfold sint. by rewrite E.
  - exfalso. apply E. transitivity (uint w (sint w x)); [by rewrite uint_sint by lia |].
    rewrite E'. by rewrite uint_sint by lia.
Qed.

(** Splitting a double word: [x = xh * 2^w + xl]. *)
Lemma uint_double w x :
  0 < w -> uint (2 * w) x = uint w (Z.shiftr x w) * 2 ^ w + uint w x.
Proof.
  intros Hw. unfold uint. rewrite Z.shiftr_div_pow2 by lia.
  replace (2 * w) with (w + w) by lia. rewrite Z.pow_add_r by lia.
  pose proof (pow2_pos w ltac:(lia)). rewrite Z.rem_mul_r by lia. lia.
Qed.

Lemma sint_double w x :
  0 < w -> sint (2 * w) x = sint w (Z.shiftr x w) * 2 ^ w + uint w x.
Proof.
  intros Hw. unfold sint. rewrite uint_double by done.
  pose proof (uint_range w x ltac:(lia)). pose proof (uint_range w (Z.shiftr x w) ltac:(lia)).
  pose proof (pow2_double w Hw). pose proof (pow2_pos (w - 1) ltac:(lia)).
  replace (2 ^ (2 * w - 1)) with (2 ^ (w - 1) * 2 ^ w) by (rewrite <- Z.pow_add_r by lia; f_equal; lia).
  replace (2 ^ (2 * w)) with (2 ^ w * 2 ^ w) by (rewrite <- Z.pow_add_r by lia; f_equal; lia).
  set (h := uint w (Z.shiftr x w)) in *. set (l := uint w x) in *. set (P := 2 ^ w) in *.
  set (Q := 2 ^ (w - 1)) in *.
  destruct (Z.ltb_spec (h * P + l) (Q * P)), (Z.ltb_spec h Q); nia.
Qed.

(** Comparing pairs lexicographically. *)
Lemma lex_lt P h k a b :
  0 <= a < P -> 0 <= b < P ->
  (h * P + a <? k * P + b) = (h <? k) || (h =? k) && (a <? b).
Proof.
  intros Ha Hb. destruct (Z.ltb_spec h k), (Z.eqb_spec h k), (Z.ltb_spec a b);
    cbn; (apply Z.ltb_lt || apply Z.ltb_ge); nia.
Qed.

Lemma lex_le P h k a b :
  0 <= a < P -> 0 <= b < P ->
  (h * P + a <=? k * P + b) = (h <? k) || (h =? k) && (a <=? b).
Proof.
  intros Ha Hb. destruct (Z.ltb_spec h k), (Z.eqb_spec h k), (Z.leb_spec a b);
    cbn; (apply Z.leb_le || apply Z.leb_gt); nia.
Qed.

(** ** Properties *)

Create HintDb tcgcond.
#[export] Hint Unfold cond_eval tcg_invert_cond tcg_swap_cond tcg_unsigned_cond tcg_signed_cond
  tcg_high_cond TCG_COND_NEVER TCG_COND_ALWAYS TCG_COND_EQ TCG_COND_NE TCG_COND_LT TCG_COND_GE
  TCG_COND_LE TCG_COND_GT TCG_COND_LTU TCG_COND_GEU TCG_COND_LEU TCG_COND_GTU : tcgcond.

Ltac cond_norm :=
  autounfold with tcgcond; z_compute; cbn [option_map]; rewrite ?Z.gtb_ltb, ?Z.geb_leb.

Ltac cond_bool :=
  repeat match goal with
  | |- context [?a =? ?b] => destruct (Z.eqb_spec a b)
  | |- context [?a <? ?b] => destruct (Z.ltb_spec a b)
  | |- context [?a <=? ?b] => destruct (Z.leb_spec a b)
  end; try reflexivity; try lia.

(** C33: inverting, swapping and re-signing a condition by flipping bits of its
    encoding do what the names say: the inverted condition has the negated
    result, the swapped one the result with the operands exchanged, both are
    involutions on the twelve conditions, and the unsigned version of a
    condition (the signed version of it) forgets (restores) the sign. *)
Theorem cond_bit_tricks c :
  valid_cond c = true ->
  (valid_cond (tcg_invert_cond c) = true /\ tcg_invert_cond (tcg_invert_cond c) = c /\
   forall w x y, cond_eval w (tcg_invert_cond c) x y = option_map negb (cond_eval w c x y)) /\
  (valid_cond (tcg_swap_cond c) = true /\ tcg_swap_cond (tcg_swap_cond c) = c /\
   forall w x y, cond_eval w (tcg_swap_cond c) x y = cond_eval w c y x) /\
  (is_unsigned_cond (tcg_signed_cond c) = false /\
   (tcg_unsigned_cond c <> c -> is_unsigned_cond (tcg_unsigned_cond c) = true /\
    tcg_signed_cond (tcg_unsigned_cond c) = c) /\
   forall w x y, 0 < w -> 0 <= x < 2 ^ (w - 1) -> 0 <= y < 2 ^ (w - 1) ->
     cond_eval w (tcg_unsigned_cond c) x y = cond_eval w c x y).
Proof.
  intros Hc. split; [| split].
  - cond_cases c Hc; (split; [done |]; split; [done |]); intros w x y; cond_norm; cond_bool.
  - cond_cases c Hc; (split; [done |]; split; [done |]); intros w x y; cond_norm; cond_bool.
  - split; [by cond_cases c Hc | split].
    + by cond_cases c Hc.
    + intros w x y Hw Hx Hy. pose proof (pow2_double w Hw).
      assert (uint w x = x /\ sint w x = x) as [Hux Hsx]
        by (split; [apply uint_small | apply sint_small]; lia).
      assert (uint w y = y /\ sint w y = y) as [Huy Hsy]
        by (split; [apply uint_small | apply sint_small]; lia).
      unfold cond_eval. rewrite Hux, Huy, Hsx, Hsy. by cond_cases c Hc.
Qed.

Lemma cond_bit_tricks_witness :
  cond_eval 32 (tcg_swap_cond TCG_COND_LEU) 3 5 = cond_eval 32 TCG_COND_LEU 5 3 /\
  cond_eval 32 (tcg_invert_cond TCG_COND_LEU) 3 5 = Some false.
Proof.
  split.
  - apply (cond_bit_tricks TCG_COND_LEU eq_refl).
  - rewrite (proj2 (proj2 (proj1 (cond_bit_tricks TCG_COND_LEU eq_refl)))). reflexivity.
Defined.

(** C34: comparing double words half by half is right: an ordering condition on
    [2 w]-bit words holds exactly when its high version holds of the high
    halves, or the high halves are equal and its unsigned version holds of the
    low halves. *)
Theorem high_cond_double_word w c x y :
  0 < w -> valid_cond c = true -> Z.land c 6 <> 0 ->
  exists b h l,
    cond_eval (2 * w) c x y = Some b /\
    cond_eval w (tcg_high_cond c) (Z.shiftr x w) (Z.shiftr y w) = Some h /\
    cond_eval w (tcg_unsigned_cond c) x y = Some l /\
    b = h || (uint w (Z.shiftr x w) =? uint w (Z.shiftr y w)) && l.
Proof.
  intros Hw Hc H6.
  assert (Hd : valid_cond (tcg_high_cond c) = true /\ valid_cond (tcg_unsigned_cond c) = true)
    by (clear H6; cond_cases c Hc; done).
  destruct (proj1 (cond_eval_valid (2 * w) c x y) Hc) as [b Hb].
  destruct (proj1 (cond_eval_valid w _ (Z.shiftr x w) (Z.shiftr y w)) (proj1 Hd)) as [h Hh].
  destruct (proj1 (cond_eval_valid w _ x y) (proj2 Hd)) as [l Hl].
  exists b, h, l. split; [done |]. split; [done |]. split; [done |]. revert b h l Hb Hh Hl. clear Hd.
  pose proof (uint_range w x ltac:(lia)) as Hx. pose proof (uint_range w y ltac:(lia)) as Hy.
  pose proof (uint_eq_sint w (Z.shiftr x w) (Z.shiftr y w) Hw) as Heq.
  revert H6. cond_split c Hc; cond_norm; rewrite ?uint_double, ?sint_double by lia;
    intros H6 b h l Hb Hh Hl; simplify_eq; try done;
    rewrite ?lex_lt, ?lex_le by done;
    rewrite ?(Z.eqb_sym (uint w (Z.shiftr y w))), ?(Z.eqb_sym (sint w (Z.shiftr y w)));
    rewrite ?Heq; reflexivity.
Qed.

Lemma high_cond_double_word_witness :
  exists b h l,
    cond_eval 64 TCG_COND_LE (5 * 2 ^ 32 + 7) (5 * 2 ^ 32 + 9) = Some b /\
    cond_eval 32 (tcg_high_cond TCG_COND_LE) 5 5 = Some h /\
    cond_eval 32 (tcg_unsigned_cond TCG_COND_LE) (5 * 2 ^ 32 + 7) (5 * 2 ^ 32 + 9) = Some l /\
    b = h || (uint 32 5 =? uint 32 5) && l.
Proof.
  apply (high_cond_double_word 32 TCG_COND_LE (5 * 2 ^ 32 + 7) (5 * 2 ^ 32 + 9));
    [lia | reflexivity | discriminate].
Defined.
