(* ===== verification/TcgOpc.v ===== *)
(** * Opcodes and the target's optional instructions

    [TCGOpcode] has one constructor per DEF line of include/tcg/tcg-opc.h and
    [tcg_op_defs] the argument counts and flags of that line.  The macros by
    which a backend says what it implements (TCG_TARGET_HAS_*, the register
    width, ...) are the fields of the class [TcgTarget]; [TcgTargetLaws] holds
    what include/tcg/tcg.h enforces of them, and [wasm32] is the instance of
    tcg/wasm32/tcg-target.h. *)

From Stdlib Require Import ZArith Lia Bool.
From stdpp Require Import base numbers list strings.
From S2P Require Import Prelude.

Local Open Scope Z_scope.

(** ** What a target provides *)

(** How a backend passes an argument of a helper call
    (TCGCallArgumentKind of include/tcg/helper-info.h). *)
Inductive TCGCallArgumentKind :=
| TCG_CALL_ARG_NORMAL
| TCG_CALL_ARG_EVEN
| TCG_CALL_ARG_EXTEND
| TCG_CALL_ARG_EXTEND_U
| TCG_CALL_ARG_EXTEND_S
| TCG_CALL_ARG_BY_REF
| TCG_CALL_ARG_BY_REF_N.

Class TcgTarget := {
  TCG_TARGET_REG_BITS : Z;
  UINTPTR_BITS : Z;
  HOST_BIG_ENDIAN : bool;
  TCG_TARGET_MAYBE_vec : bool;
  TCG_TARGET_CALL_ARG_I32 : TCGCallArgumentKind;
  TCG_TARGET_CALL_ARG_I64 : TCGCallArgumentKind;
  TCG_TARGET_deposit_i32_valid : Z -> Z -> bool;
  TCG_TARGET_deposit_i64_valid : Z -> Z -> bool;
  TCG_TARGET_extract_i32_valid : Z -> Z -> bool;
  TCG_TARGET_extract_i64_valid : Z -> Z -> bool;
  TCG_TARGET_HAS_negsetcond_i32 : bool;
  TCG_TARGET_HAS_div_i32 : bool;
  TCG_TARGET_HAS_rem_i32 : bool;
  TCG_TARGET_HAS_div2_i32 : bool;
  TCG_TARGET_HAS_rot_i32 : bool;
  TCG_TARGET_HAS_deposit_i32 : bool;
  TCG_TARGET_HAS_extract_i32 : bool;
  TCG_TARGET_HAS_sextract_i32 : bool;
  TCG_TARGET_HAS_extract2_i32 : bool;
  TCG_TARGET_HAS_add2_i32 : bool;
  TCG_TARGET_HAS_sub2_i32 : bool;
  TCG_TARGET_HAS_mulu2_i32 : bool;
  TCG_TARGET_HAS_muls2_i32 : bool;
  TCG_TARGET_HAS_muluh_i32 : bool;
  TCG_TARGET_HAS_mulsh_i32 : bool;
  TCG_TARGET_HAS_ext8s_i32 : bool;
  TCG_TARGET_HAS_ext16s_i32 : bool;
  TCG_TARGET_HAS_ext8u_i32 : bool;
  TCG_TARGET_HAS_ext16u_i32 : bool;
  TCG_TARGET_HAS_bswap16_i32 : bool;
  TCG_TARGET_HAS_bswap32_i32 : bool;
  TCG_TARGET_HAS_not_i32 : bool;
  TCG_TARGET_HAS_andc_i32 : bool;
  TCG_TARGET_HAS_orc_i32 : bool;
  TCG_TARGET_HAS_eqv_i32 : bool;
  TCG_TARGET_HAS_nand_i32 : bool;
  TCG_TARGET_HAS_nor_i32 : bool;
  TCG_TARGET_HAS_clz_i32 : bool;
  TCG_TARGET_HAS_ctz_i32 : bool;
  TCG_TARGET_HAS_ctpop_i32 : bool;
  TCG_TARGET_HAS_negsetcond_i64 : bool;
  TCG_TARGET_HAS_div_i64 : bool;
  TCG_TARGET_HAS_rem_i64 : bool;
  TCG_TARGET_HAS_div2_i64 : bool;
  TCG_TARGET_HAS_rot_i64 : bool;
  TCG_TARGET_HAS_deposit_i64 : bool;
  TCG_TARGET_HAS_extract_i64 : bool;
  TCG_TARGET_HAS_sextract_i64 : bool;
  TCG_TARGET_HAS_extract2_i64 : bool;
  TCG_TARGET_HAS_extr_i64_i32 : bool;
  TCG_TARGET_HAS_ext8s_i64 : bool;
  TCG_TARGET_HAS_ext16s_i64 : bool;
  TCG_TARGET_HAS_ext32s_i64 : bool;
  TCG_TARGET_HAS_ext8u_i64 : bool;
  TCG_TARGET_HAS_ext16u_i64 : bool;
  TCG_TARGET_HAS_ext32u_i64 : bool;
  TCG_TARGET_HAS_bswap16_i64 : bool;
  TCG_TARGET_HAS_bswap32_i64 : bool;
  TCG_TARGET_HAS_bswap64_i64 : bool;
  TCG_TARGET_HAS_not_i64 : bool;
  TCG_TARGET_HAS_andc_i64 : bool;
  TCG_TARGET_HAS_orc_i64 : bool;
  TCG_TARGET_HAS_eqv_i64 : bool;
  TCG_TARGET_HAS_nand_i64 : bool;
  TCG_TARGET_HAS_nor_i64 : bool;
  TCG_TARGET_HAS_clz_i64 : bool;
  TCG_TARGET_HAS_ctz_i64 : bool;
  TCG_TARGET_HAS_ctpop_i64 : bool;
  TCG_TARGET_HAS_add2_i64 : bool;
  TCG_TARGET_HAS_sub2_i64 : bool;
  TCG_TARGET_HAS_mulu2_i64 : bool;
  TCG_TARGET_HAS_muls2_i64 : bool;
  TCG_TARGET_HAS_muluh_i64 : bool;
  TCG_TARGET_HAS_mulsh_i64 : bool;
  TCG_TARGET_HAS_qemu_st8_i32 : bool;
  TCG_TARGET_HAS_qemu_ldst_i128 : bool;
  TCG_TARGET_HAS_mul_vec : bool;
  TCG_TARGET_HAS_neg_vec : bool;
  TCG_TARGET_HAS_abs_vec : bool;
  TCG_TARGET_HAS_sat_vec : bool;
  TCG_TARGET_HAS_minmax_vec : bool;
  TCG_TARGET_HAS_andc_vec : bool;
  TCG_TARGET_HAS_orc_vec : bool;
  TCG_TARGET_HAS_nand_vec : bool;
  TCG_TARGET_HAS_nor_vec : bool;
  TCG_TARGET_HAS_eqv_vec : bool;
  TCG_TARGET_HAS_not_vec : bool;
  TCG_TARGET_HAS_shi_vec : bool;
  TCG_TARGET_HAS_roti_vec : bool;
  TCG_TARGET_HAS_shs_vec : bool;
  TCG_TARGET_HAS_rots_vec : bool;
  TCG_TARGET_HAS_shv_vec : bool;
  TCG_TARGET_HAS_rotv_vec : bool;
  TCG_TARGET_HAS_bitsel_vec : bool;
  TCG_TARGET_HAS_cmpsel_vec : bool;
}.

(** ** Opcodes *)

Inductive TCGOpcode : Set :=
| INDEX_op_discard
| INDEX_op_set_label
| INDEX_op_call
| INDEX_op_br
| INDEX_op_mb
| INDEX_op_mov_i32
| INDEX_op_setcond_i32
| INDEX_op_negsetcond_i32
| INDEX_op_movcond_i32
| INDEX_op_ld8u_i32
| INDEX_op_ld8s_i32
| INDEX_op_ld16u_i32
| INDEX_op_ld16s_i32
| INDEX_op_ld_i32
| INDEX_op_st8_i32
| INDEX_op_st16_i32
| INDEX_op_st_i32
| INDEX_op_add_i32
| INDEX_op_sub_i32
| INDEX_op_mul_i32
| INDEX_op_div_i32
| INDEX_op_divu_i32
| INDEX_op_rem_i32
| INDEX_op_remu_i32
| INDEX_op_div2_i32
| INDEX_op_divu2_i32
| INDEX_op_and_i32
| INDEX_op_or_i32
| INDEX_op_xor_i32
| INDEX_op_shl_i32
| INDEX_op_shr_i32
| INDEX_op_sar_i32
| INDEX_op_rotl_i32
| INDEX_op_rotr_i32
| INDEX_op_deposit_i32
| INDEX_op_extract_i32
| INDEX_op_sextract_i32
| INDEX_op_extract2_i32
| INDEX_op_brcond_i32
| INDEX_op_add2_i32
| INDEX_op_sub2_i32
| INDEX_op_mulu2_i32
| INDEX_op_muls2_i32
| INDEX_op_muluh_i32
| INDEX_op_mulsh_i32
| INDEX_op_brcond2_i32
| INDEX_op_setcond2_i32
| INDEX_op_ext8s_i32
| INDEX_op_ext16s_i32
| INDEX_op_ext8u_i32
| INDEX_op_ext16u_i32
| INDEX_op_bswap16_i32
| INDEX_op_bswap32_i32
| INDEX_op_not_i32
| INDEX_op_neg_i32
| INDEX_op_andc_i32
| INDEX_op_orc_i32
| INDEX_op_eqv_i32
| INDEX_op_nand_i32
| INDEX_op_nor_i32
| INDEX_op_clz_i32
| INDEX_op_ctz_i32
| INDEX_op_ctpop_i32
| INDEX_op_mov_i64
| INDEX_op_setcond_i64
| INDEX_op_negsetcond_i64
| INDEX_op_movcond_i64
| INDEX_op_ld8u_i64
| INDEX_op_ld8s_i64
| INDEX_op_ld16u_i64
| INDEX_op_ld16s_i64
| INDEX_op_ld32u_i64
| INDEX_op_ld32s_i64
| INDEX_op_ld_i64
| INDEX_op_st8_i64
| INDEX_op_st16_i64
| INDEX_op_st32_i64
| INDEX_op_st_i64
| INDEX_op_add_i64
| INDEX_op_sub_i64
| INDEX_op_mul_i64
| INDEX_op_div_i64
| INDEX_op_divu_i64
| INDEX_op_rem_i64
| INDEX_op_remu_i64
| INDEX_op_div2_i64
| INDEX_op_divu2_i64
| INDEX_op_and_i64
| INDEX_op_or_i64
| INDEX_op_xor_i64
| INDEX_op_shl_i64
| INDEX_op_shr_i64
| INDEX_op_sar_i64
| INDEX_op_rotl_i64
| INDEX_op_rotr_i64
| INDEX_op_deposit_i64
| INDEX_op_extract_i64
| INDEX_op_sextract_i64
| INDEX_op_extract2_i64
| INDEX_op_ext_i32_i64
| INDEX_op_extu_i32_i64
| INDEX_op_extrl_i64_i32
| INDEX_op_extrh_i64_i32
| INDEX_op_brcond_i64
| INDEX_op_ext8s_i64
| INDEX_op_ext16s_i64
| INDEX_op_ext32s_i64
| INDEX_op_ext8u_i64
| INDEX_op_ext16u_i64
| INDEX_op_ext32u_i64
| INDEX_op_bswap16_i64
| INDEX_op_bswap32_i64
| INDEX_op_bswap64_i64
| INDEX_op_not_i64
| INDEX_op_neg_i64
| INDEX_op_andc_i64
| INDEX_op_orc_i64
| INDEX_op_eqv_i64
| INDEX_op_nand_i64
| INDEX_op_nor_i64
| INDEX_op_clz_i64
| INDEX_op_ctz_i64
| INDEX_op_ctpop_i64
| INDEX_op_add2_i64
| INDEX_op_sub2_i64
| INDEX_op_mulu2_i64
| INDEX_op_muls2_i64
| INDEX_op_muluh_i64
| INDEX_op_mulsh_i64
| INDEX_op_insn_start
| INDEX_op_exit_tb
| INDEX_op_goto_tb
| INDEX_op_goto_ptr
| INDEX_op_plugin_cb_start
| INDEX_op_plugin_cb_end
| INDEX_op_qemu_ld_a32_i32
| INDEX_op_qemu_st_a32_i32
| INDEX_op_qemu_ld_a32_i64
| INDEX_op_qemu_st_a32_i64
| INDEX_op_qemu_ld_a64_i32
| INDEX_op_qemu_st_a64_i32
| INDEX_op_qemu_ld_a64_i64
| INDEX_op_qemu_st_a64_i64
| INDEX_op_qemu_st8_a32_i32
| INDEX_op_qemu_st8_a64_i32
| INDEX_op_qemu_ld_a32_i128
| INDEX_op_qemu_ld_a64_i128
| INDEX_op_qemu_st_a32_i128
| INDEX_op_qemu_st_a64_i128
| INDEX_op_mov_vec
| INDEX_op_dup_vec
| INDEX_op_dup2_vec
| INDEX_op_ld_vec
| INDEX_op_st_vec
| INDEX_op_dupm_vec
| INDEX_op_add_vec
| INDEX_op_sub_vec
| INDEX_op_mul_vec
| INDEX_op_neg_vec
| INDEX_op_abs_vec
| INDEX_op_ssadd_vec
| INDEX_op_usadd_vec
| INDEX_op_sssub_vec
| INDEX_op_ussub_vec
| INDEX_op_smin_vec
| INDEX_op_umin_vec
| INDEX_op_smax_vec
| INDEX_op_umax_vec
| INDEX_op_and_vec
| INDEX_op_or_vec
| INDEX_op_xor_vec
| INDEX_op_andc_vec
| INDEX_op_orc_vec
| INDEX_op_nand_vec
| INDEX_op_nor_vec
| INDEX_op_eqv_vec
| INDEX_op_not_vec
| INDEX_op_shli_vec
| INDEX_op_shri_vec
| INDEX_op_sari_vec
| INDEX_op_rotli_vec
| INDEX_op_shls_vec
| INDEX_op_shrs_vec
| INDEX_op_sars_vec
| INDEX_op_rotls_vec
| INDEX_op_shlv_vec
| INDEX_op_shrv_vec
| INDEX_op_sarv_vec
| INDEX_op_rotlv_vec
| INDEX_op_rotrv_vec
| INDEX_op_cmp_vec
| INDEX_op_bitsel_vec
| INDEX_op_cmpsel_vec
| INDEX_op_last_generic
| INDEX_op_tci_movi
| INDEX_op_tci_movl
.

(** Flags of an opcode. *)
Definition TCG_OPF_BB_EXIT : Z := 0x01.
Definition TCG_OPF_BB_END : Z := 0x02.
Definition TCG_OPF_CALL_CLOBBER : Z := 0x04.
Definition TCG_OPF_SIDE_EFFECTS : Z := 0x08.
Definition TCG_OPF_64BIT : Z := 0x10.
Definition TCG_OPF_NOT_PRESENT : Z := 0x20.
Definition TCG_OPF_VECTOR : Z := 0x40.
Definition TCG_OPF_COND_BRANCH : Z := 0x80.

Record TCGOpDef := {
  nb_oargs : nat;
  nb_iargs : nat;
  nb_cargs : nat;
  opf : Z;
}.

Definition opdef (o i c : nat) (f : Z) : TCGOpDef :=
  {| nb_oargs := o; nb_iargs := i; nb_cargs := c; opf := f |}.
Arguments opdef (o i c)%_nat_scope f%_Z_scope.

Definition nb_args (d : TCGOpDef) : nat := nb_oargs d + nb_iargs d + nb_cargs d.

Section OpDefs.
Context `{T : TcgTarget}.

Definition impl (has : bool) : Z := if has then 0 else TCG_OPF_NOT_PRESENT.
Definition impl64 : Z :=
  if TCG_TARGET_REG_BITS =? 32 then Z.lor TCG_OPF_64BIT TCG_OPF_NOT_PRESENT else TCG_OPF_64BIT.
Definition implvec : Z := Z.lor TCG_OPF_VECTOR (impl TCG_TARGET_MAYBE_vec).
Definition data64_args : nat := if TCG_TARGET_REG_BITS =? 64 then 1 else 2.

Definition tcg_op_defs (opc : TCGOpcode) : TCGOpDef :=
  match opc with
  | INDEX_op_discard => opdef 1 0 0 TCG_OPF_NOT_PRESENT
  | INDEX_op_set_label => opdef 0 0 1 (Z.lor TCG_OPF_BB_END TCG_OPF_NOT_PRESENT)
  | INDEX_op_call => opdef 0 0 3 (Z.lor TCG_OPF_CALL_CLOBBER TCG_OPF_NOT_PRESENT)
  | INDEX_op_br => opdef 0 0 1 TCG_OPF_BB_END
  | INDEX_op_mb => opdef 0 0 1 0
  | INDEX_op_mov_i32 => opdef 1 1 0 TCG_OPF_NOT_PRESENT
  | INDEX_op_setcond_i32 => opdef 1 2 1 0
  | INDEX_op_negsetcond_i32 => opdef 1 2 1 (impl TCG_TARGET_HAS_negsetcond_i32)
  | INDEX_op_movcond_i32 => opdef 1 4 1 0
  | INDEX_op_ld8u_i32 => opdef 1 1 1 0
  | INDEX_op_ld8s_i32 => opdef 1 1 1 0
  | INDEX_op_ld16u_i32 => opdef 1 1 1 0
  | INDEX_op_ld16s_i32 => opdef 1 1 1 0
  | INDEX_op_ld_i32 => opdef 1 1 1 0
  | INDEX_op_st8_i32 => opdef 0 2 1 0
  | INDEX_op_st16_i32 => opdef 0 2 1 0
  | INDEX_op_st_i32 => opdef 0 2 1 0
  | INDEX_op_add_i32 => opdef 1 2 0 0
  | INDEX_op_sub_i32 => opdef 1 2 0 0
  | INDEX_op_mul_i32 => opdef 1 2 0 0
  | INDEX_op_div_i32 => opdef 1 2 0 (impl TCG_TARGET_HAS_div_i32)
  | INDEX_op_divu_i32 => opdef 1 2 0 (impl TCG_TARGET_HAS_div_i32)
  | INDEX_op_rem_i32 => opdef 1 2 0 (impl TCG_TARGET_HAS_rem_i32)
  | INDEX_op_remu_i32 => opdef 1 2 0 (impl TCG_TARGET_HAS_rem_i32)
  | INDEX_op_div2_i32 => opdef 2 3 0 (impl TCG_TARGET_HAS_div2_i32)
  | INDEX_op_divu2_i32 => opdef 2 3 0 (impl TCG_TARGET_HAS_div2_i32)
  | INDEX_op_and_i32 => opdef 1 2 0 0
  | INDEX_op_or_i32 => opdef 1 2 0 0
  | INDEX_op_xor_i32 => opdef 1 2 0 0
  | INDEX_op_shl_i32 => opdef 1 2 0 0
  | INDEX_op_shr_i32 => opdef 1 2 0 0
  | INDEX_op_sar_i32 => opdef 1 2 0 0
  | INDEX_op_rotl_i32 => opdef 1 2 0 (impl TCG_TARGET_HAS_rot_i32)
  | INDEX_op_rotr_i32 => opdef 1 2 0 (impl TCG_TARGET_HAS_rot_i32)
  | INDEX_op_deposit_i32 => opdef 1 2 2 (impl TCG_TARGET_HAS_deposit_i32)
  | INDEX_op_extract_i32 => opdef 1 1 2 (impl TCG_TARGET_HAS_extract_i32)
  | INDEX_op_sextract_i32 => opdef 1 1 2 (impl TCG_TARGET_HAS_sextract_i32)
  | INDEX_op_extract2_i32 => opdef 1 2 1 (impl TCG_TARGET_HAS_extract2_i32)
  | INDEX_op_brcond_i32 => opdef 0 2 2 (Z.lor TCG_OPF_BB_END TCG_OPF_COND_BRANCH)
  | INDEX_op_add2_i32 => opdef 2 4 0 (impl TCG_TARGET_HAS_add2_i32)
  | INDEX_op_sub2_i32 => opdef 2 4 0 (impl TCG_TARGET_HAS_sub2_i32)
  | INDEX_op_mulu2_i32 => opdef 2 2 0 (impl TCG_TARGET_HAS_mulu2_i32)
  | INDEX_op_muls2_i32 => opdef 2 2 0 (impl TCG_TARGET_HAS_muls2_i32)
  | INDEX_op_muluh_i32 => opdef 1 2 0 (impl TCG_TARGET_HAS_muluh_i32)
  | INDEX_op_mulsh_i32 => opdef 1 2 0 (impl TCG_TARGET_HAS_mulsh_i32)
  | INDEX_op_brcond2_i32 => opdef 0 4 2 (Z.lor (Z.lor TCG_OPF_BB_END TCG_OPF_COND_BRANCH) (impl (TCG_TARGET_REG_BITS =? 32)))
  | INDEX_op_setcond2_i32 => opdef 1 4 1 (impl (TCG_TARGET_REG_BITS =? 32))
  | INDEX_op_ext8s_i32 => opdef 1 1 0 (impl TCG_TARGET_HAS_ext8s_i32)
  | INDEX_op_ext16s_i32 => opdef 1 1 0 (impl TCG_TARGET_HAS_ext16s_i32)
  | INDEX_op_ext8u_i32 => opdef 1 1 0 (impl TCG_TARGET_HAS_ext8u_i32)
  | INDEX_op_ext16u_i32 => opdef 1 1 0 (impl TCG_TARGET_HAS_ext16u_i32)
  | INDEX_op_bswap16_i32 => opdef 1 1 1 (impl TCG_TARGET_HAS_bswap16_i32)
  | INDEX_op_bswap32_i32 => opdef 1 1 1 (impl TCG_TARGET_HAS_bswap32_i32)
  | INDEX_op_not_i32 => opdef 1 1 0 (impl TCG_TARGET_HAS_not_i32)
  | INDEX_op_neg_i32 => opdef 1 1 0 0
  | INDEX_op_andc_i32 => opdef 1 2 0 (impl TCG_TARGET_HAS_andc_i32)
  | INDEX_op_orc_i32 => opdef 1 2 0 (impl TCG_TARGET_HAS_orc_i32)
  | INDEX_op_eqv_i32 => opdef 1 2 0 (impl TCG_TARGET_HAS_eqv_i32)
  | INDEX_op_nand_i32 => opdef 1 2 0 (impl TCG_TARGET_HAS_nand_i32)
  | INDEX_op_nor_i32 => opdef 1 2 0 (impl TCG_TARGET_HAS_nor_i32)
  | INDEX_op_clz_i32 => opdef 1 2 0 (impl TCG_TARGET_HAS_clz_i32)
  | INDEX_op_ctz_i32 => opdef 1 2 0 (impl TCG_TARGET_HAS_ctz_i32)
  | INDEX_op_ctpop_i32 => opdef 1 1 0 (impl TCG_TARGET_HAS_ctpop_i32)
  | INDEX_op_mov_i64 => opdef 1 1 0 (Z.lor TCG_OPF_64BIT TCG_OPF_NOT_PRESENT)
  | INDEX_op_setcond_i64 => opdef 1 2 1 impl64
  | INDEX_op_negsetcond_i64 => opdef 1 2 1 (Z.lor impl64 (impl TCG_TARGET_HAS_negsetcond_i64))
  | INDEX_op_movcond_i64 => opdef 1 4 1 impl64
  | INDEX_op_ld8u_i64 => opdef 1 1 1 impl64
  | INDEX_op_ld8s_i64 => opdef 1 1 1 impl64
  | INDEX_op_ld16u_i64 => opdef 1 1 1 impl64
  | INDEX_op_ld16s_i64 => opdef 1 1 1 impl64
  | INDEX_op_ld32u_i64 => opdef 1 1 1 impl64
  | INDEX_op_ld32s_i64 => opdef 1 1 1 impl64
  | INDEX_op_ld_i64 => opdef 1 1 1 impl64
  | INDEX_op_st8_i64 => opdef 0 2 1 impl64
  | INDEX_op_st16_i64 => opdef 0 2 1 impl64
  | INDEX_op_st32_i64 => opdef 0 2 1 impl64
  | INDEX_op_st_i64 => opdef 0 2 1 impl64
  | INDEX_op_add_i64 => opdef 1 2 0 impl64
  | INDEX_op_sub_i64 => opdef 1 2 0 impl64
  | INDEX_op_mul_i64 => opdef 1 2 0 impl64
  | INDEX_op_div_i64 => opdef 1 2 0 (Z.lor impl64 (impl TCG_TARGET_HAS_div_i64))
  | INDEX_op_divu_i64 => opdef 1 2 0 (Z.lor impl64 (impl TCG_TARGET_HAS_div_i64))
  | INDEX_op_rem_i64 => opdef 1 2 0 (Z.lor impl64 (impl TCG_TARGET_HAS_rem_i64))
  | INDEX_op_remu_i64 => opdef 1 2 0 (Z.lor impl64 (impl TCG_TARGET_HAS_rem_i64))
  | INDEX_op_div2_i64 => opdef 2 3 0 (Z.lor impl64 (impl TCG_TARGET_HAS_div2_i64))
  | INDEX_op_divu2_i64 => opdef 2 3 0 (Z.lor impl64 (impl TCG_TARGET_HAS_div2_i64))
  | INDEX_op_and_i64 => opdef 1 2 0 impl64
  | INDEX_op_or_i64 => opdef 1 2 0 impl64
  | INDEX_op_xor_i64 => opdef 1 2 0 impl64
  | INDEX_op_shl_i64 => opdef 1 2 0 impl64
  | INDEX_op_shr_i64 => opdef 1 2 0 impl64
  | INDEX_op_sar_i64 => opdef 1 2 0 impl64
  | INDEX_op_rotl_i64 => opdef 1 2 0 (Z.lor impl64 (impl TCG_TARGET_HAS_rot_i64))
  | INDEX_op_rotr_i64 => opdef 1 2 0 (Z.lor impl64 (impl TCG_TARGET_HAS_rot_i64))
  | INDEX_op_deposit_i64 => opdef 1 2 2 (Z.lor impl64 (impl TCG_TARGET_HAS_deposit_i64))
  | INDEX_op_extract_i64 => opdef 1 1 2 (Z.lor impl64 (impl TCG_TARGET_HAS_extract_i64))
  | INDEX_op_sextract_i64 => opdef 1 1 2 (Z.lor impl64 (impl TCG_TARGET_HAS_sextract_i64))
  | INDEX_op_extract2_i64 => opdef 1 2 1 (Z.lor impl64 (impl TCG_TARGET_HAS_extract2_i64))
  | INDEX_op_ext_i32_i64 => opdef 1 1 0 impl64
  | INDEX_op_extu_i32_i64 => opdef 1 1 0 impl64
  | INDEX_op_extrl_i64_i32 => opdef 1 1 0 (Z.lor (impl TCG_TARGET_HAS_extr_i64_i32) (if TCG_TARGET_REG_BITS =? 32 then TCG_OPF_NOT_PRESENT else 0))
  | INDEX_op_extrh_i64_i32 => opdef 1 1 0 (Z.lor (impl TCG_TARGET_HAS_extr_i64_i32) (if TCG_TARGET_REG_BITS =? 32 then TCG_OPF_NOT_PRESENT else 0))
  | INDEX_op_brcond_i64 => opdef 0 2 2 (Z.lor (Z.lor TCG_OPF_BB_END TCG_OPF_COND_BRANCH) impl64)
  | INDEX_op_ext8s_i64 => opdef 1 1 0 (Z.lor impl64 (impl TCG_TARGET_HAS_ext8s_i64))
  | INDEX_op_ext16s_i64 => opdef 1 1 0 (Z.lor impl64 (impl TCG_TARGET_HAS_ext16s_i64))
  | INDEX_op_ext32s_i64 => opdef 1 1 0 (Z.lor impl64 (impl TCG_TARGET_HAS_ext32s_i64))
  | INDEX_op_ext8u_i64 => opdef 1 1 0 (Z.lor impl64 (impl TCG_TARGET_HAS_ext8u_i64))
  | INDEX_op_ext16u_i64 => opdef 1 1 0 (Z.lor impl64 (impl TCG_TARGET_HAS_ext16u_i64))
  | INDEX_op_ext32u_i64 => opdef 1 1 0 (Z.lor impl64 (impl TCG_TARGET_HAS_ext32u_i64))
  | INDEX_op_bswap16_i64 => opdef 1 1 1 (Z.lor impl64 (impl TCG_TARGET_HAS_bswap16_i64))
  | INDEX_op_bswap32_i64 => opdef 1 1 1 (Z.lor impl64 (impl TCG_TARGET_HAS_bswap32_i64))
  | INDEX_op_bswap64_i64 => opdef 1 1 1 (Z.lor impl64 (impl TCG_TARGET_HAS_bswap64_i64))
  | INDEX_op_not_i64 => opdef 1 1 0 (Z.lor impl64 (impl TCG_TARGET_HAS_not_i64))
  | INDEX_op_neg_i64 => opdef 1 1 0 impl64
  | INDEX_op_andc_i64 => opdef 1 2 0 (Z.lor impl64 (impl TCG_TARGET_HAS_andc_i64))
  | INDEX_op_orc_i64 => opdef 1 2 0 (Z.lor impl64 (impl TCG_TARGET_HAS_orc_i64))
  | INDEX_op_eqv_i64 => opdef 1 2 0 (Z.lor impl64 (impl TCG_TARGET_HAS_eqv_i64))
  | INDEX_op_nand_i64 => opdef 1 2 0 (Z.lor impl64 (impl TCG_TARGET_HAS_nand_i64))
  | INDEX_op_nor_i64 => opdef 1 2 0 (Z.lor impl64 (impl TCG_TARGET_HAS_nor_i64))
  | INDEX_op_clz_i64 => opdef 1 2 0 (Z.lor impl64 (impl TCG_TARGET_HAS_clz_i64))
  | INDEX_op_ctz_i64 => opdef 1 2 0 (Z.lor impl64 (impl TCG_TARGET_HAS_ctz_i64))
  | INDEX_op_ctpop_i64 => opdef 1 1 0 (Z.lor impl64 (impl TCG_TARGET_HAS_ctpop_i64))
  | INDEX_op_add2_i64 => opdef 2 4 0 (Z.lor impl64 (impl TCG_TARGET_HAS_add2_i64))
  | INDEX_op_sub2_i64 => opdef 2 4 0 (Z.lor impl64 (impl TCG_TARGET_HAS_sub2_i64))
  | INDEX_op_mulu2_i64 => opdef 2 2 0 (Z.lor impl64 (impl TCG_TARGET_HAS_mulu2_i64))
  | INDEX_op_muls2_i64 => opdef 2 2 0 (Z.lor impl64 (impl TCG_TARGET_HAS_muls2_i64))
  | INDEX_op_muluh_i64 => opdef 1 2 0 (Z.lor impl64 (impl TCG_TARGET_HAS_muluh_i64))
  | INDEX_op_mulsh_i64 => opdef 1 2 0 (Z.lor impl64 (impl TCG_TARGET_HAS_mulsh_i64))
  | INDEX_op_insn_start => opdef 0 0 data64_args TCG_OPF_NOT_PRESENT
  | INDEX_op_exit_tb => opdef 0 0 1 (Z.lor TCG_OPF_BB_EXIT TCG_OPF_BB_END)
  | INDEX_op_goto_tb => opdef 0 0 1 (Z.lor TCG_OPF_BB_EXIT TCG_OPF_BB_END)
  | INDEX_op_goto_ptr => opdef 0 1 0 (Z.lor TCG_OPF_BB_EXIT TCG_OPF_BB_END)
  | INDEX_op_plugin_cb_start => opdef 0 0 3 TCG_OPF_NOT_PRESENT
  | INDEX_op_plugin_cb_end => opdef 0 0 0 TCG_OPF_NOT_PRESENT
  | INDEX_op_qemu_ld_a32_i32 => opdef 1 1 1 (Z.lor TCG_OPF_CALL_CLOBBER TCG_OPF_SIDE_EFFECTS)
  | INDEX_op_qemu_st_a32_i32 => opdef 0 (1 + 1) 1 (Z.lor TCG_OPF_CALL_CLOBBER TCG_OPF_SIDE_EFFECTS)
  | INDEX_op_qemu_ld_a32_i64 => opdef data64_args 1 1 (Z.lor (Z.lor TCG_OPF_CALL_CLOBBER TCG_OPF_SIDE_EFFECTS) TCG_OPF_64BIT)
  | INDEX_op_qemu_st_a32_i64 => opdef 0 (data64_args + 1) 1 (Z.lor (Z.lor TCG_OPF_CALL_CLOBBER TCG_OPF_SIDE_EFFECTS) TCG_OPF_64BIT)
  | INDEX_op_qemu_ld_a64_i32 => opdef 1 data64_args 1 (Z.lor TCG_OPF_CALL_CLOBBER TCG_OPF_SIDE_EFFECTS)
  | INDEX_op_qemu_st_a64_i32 => opdef 0 (1 + data64_args) 1 (Z.lor TCG_OPF_CALL_CLOBBER TCG_OPF_SIDE_EFFECTS)
  | INDEX_op_qemu_ld_a64_i64 => opdef data64_args data64_args 1 (Z.lor (Z.lor TCG_OPF_CALL_CLOBBER TCG_OPF_SIDE_EFFECTS) TCG_OPF_64BIT)
  | INDEX_op_qemu_st_a64_i64 => opdef 0 (data64_args + data64_args) 1 (Z.lor (Z.lor TCG_OPF_CALL_CLOBBER TCG_OPF_SIDE_EFFECTS) TCG_OPF_64BIT)
  | INDEX_op_qemu_st8_a32_i32 => opdef 0 (1 + 1) 1 (Z.lor (Z.lor TCG_OPF_CALL_CLOBBER TCG_OPF_SIDE_EFFECTS) (impl TCG_TARGET_HAS_qemu_st8_i32))
  | INDEX_op_qemu_st8_a64_i32 => opdef 0 (1 + data64_args) 1 (Z.lor (Z.lor TCG_OPF_CALL_CLOBBER TCG_OPF_SIDE_EFFECTS) (impl TCG_TARGET_HAS_qemu_st8_i32))
  | INDEX_op_qemu_ld_a32_i128 => opdef 2 1 1 (Z.lor (Z.lor (Z.lor TCG_OPF_CALL_CLOBBER TCG_OPF_SIDE_EFFECTS) TCG_OPF_64BIT) (impl TCG_TARGET_HAS_qemu_ldst_i128))
  | INDEX_op_qemu_ld_a64_i128 => opdef 2 1 1 (Z.lor (Z.lor (Z.lor TCG_OPF_CALL_CLOBBER TCG_OPF_SIDE_EFFECTS) TCG_OPF_64BIT) (impl TCG_TARGET_HAS_qemu_ldst_i128))
  | INDEX_op_qemu_st_a32_i128 => opdef 0 3 1 (Z.lor (Z.lor (Z.lor TCG_OPF_CALL_CLOBBER TCG_OPF_SIDE_EFFECTS) TCG_OPF_64BIT) (impl TCG_TARGET_HAS_qemu_ldst_i128))
  | INDEX_op_qemu_st_a64_i128 => opdef 0 3 1 (Z.lor (Z.lor (Z.lor TCG_OPF_CALL_CLOBBER TCG_OPF_SIDE_EFFECTS) TCG_OPF_64BIT) (impl TCG_TARGET_HAS_qemu_ldst_i128))
  | INDEX_op_mov_vec => opdef 1 1 0 (Z.lor TCG_OPF_VECTOR TCG_OPF_NOT_PRESENT)
  | INDEX_op_dup_vec => opdef 1 1 0 implvec
  | INDEX_op_dup2_vec => opdef 1 2 0 (Z.lor implvec (impl (TCG_TARGET_REG_BITS =? 32)))
  | INDEX_op_ld_vec => opdef 1 1 1 implvec
  | INDEX_op_st_vec => opdef 0 2 1 implvec
  | INDEX_op_dupm_vec => opdef 1 1 1 implvec
  | INDEX_op_add_vec => opdef 1 2 0 implvec
  | INDEX_op_sub_vec => opdef 1 2 0 implvec
  | INDEX_op_mul_vec => opdef 1 2 0 (Z.lor implvec (impl TCG_TARGET_HAS_mul_vec))
  | INDEX_op_neg_vec => opdef 1 1 0 (Z.lor implvec (impl TCG_TARGET_HAS_neg_vec))
  | INDEX_op_abs_vec => opdef 1 1 0 (Z.lor implvec (impl TCG_TARGET_HAS_abs_vec))
  | INDEX_op_ssadd_vec => opdef 1 2 0 (Z.lor implvec (impl TCG_TARGET_HAS_sat_vec))
  | INDEX_op_usadd_vec => opdef 1 2 0 (Z.lor implvec (impl TCG_TARGET_HAS_sat_vec))
  | INDEX_op_sssub_vec => opdef 1 2 0 (Z.lor implvec (impl TCG_TARGET_HAS_sat_vec))
  | INDEX_op_ussub_vec => opdef 1 2 0 (Z.lor implvec (impl TCG_TARGET_HAS_sat_vec))
  | INDEX_op_smin_vec => opdef 1 2 0 (Z.lor implvec (impl TCG_TARGET_HAS_minmax_vec))
  | INDEX_op_umin_vec => opdef 1 2 0 (Z.lor implvec (impl TCG_TARGET_HAS_minmax_vec))
  | INDEX_op_smax_vec => opdef 1 2 0 (Z.lor implvec (impl TCG_TARGET_HAS_minmax_vec))
  | INDEX_op_umax_vec => opdef 1 2 0 (Z.lor implvec (impl TCG_TARGET_HAS_minmax_vec))
  | INDEX_op_and_vec => opdef 1 2 0 implvec
  | INDEX_op_or_vec => opdef 1 2 0 implvec
  | INDEX_op_xor_vec => opdef 1 2 0 implvec
  | INDEX_op_andc_vec => opdef 1 2 0 (Z.lor implvec (impl TCG_TARGET_HAS_andc_vec))
  | INDEX_op_orc_vec => opdef 1 2 0 (Z.lor implvec (impl TCG_TARGET_HAS_orc_vec))
  | INDEX_op_nand_vec => opdef 1 2 0 (Z.lor implvec (impl TCG_TARGET_HAS_nand_vec))
  | INDEX_op_nor_vec => opdef 1 2 0 (Z.lor implvec (impl TCG_TARGET_HAS_nor_vec))
  | INDEX_op_eqv_vec => opdef 1 2 0 (Z.lor implvec (impl TCG_TARGET_HAS_eqv_vec))
  | INDEX_op_not_vec => opdef 1 1 0 (Z.lor implvec (impl TCG_TARGET_HAS_not_vec))
  | INDEX_op_shli_vec => opdef 1 1 1 (Z.lor implvec (impl TCG_TARGET_HAS_shi_vec))
  | INDEX_op_shri_vec => opdef 1 1 1 (Z.lor implvec (impl TCG_TARGET_HAS_shi_vec))
  | INDEX_op_sari_vec => opdef 1 1 1 (Z.lor implvec (impl TCG_TARGET_HAS_shi_vec))
  | INDEX_op_rotli_vec => opdef 1 1 1 (Z.lor implvec (impl TCG_TARGET_HAS_roti_vec))
  | INDEX_op_shls_vec => opdef 1 2 0 (Z.lor implvec (impl TCG_TARGET_HAS_shs_vec))
  | INDEX_op_shrs_vec => opdef 1 2 0 (Z.lor implvec (impl TCG_TARGET_HAS_shs_vec))
  | INDEX_op_sars_vec => opdef 1 2 0 (Z.lor implvec (impl TCG_TARGET_HAS_shs_vec))
  | INDEX_op_rotls_vec => opdef 1 2 0 (Z.lor implvec (impl TCG_TARGET_HAS_rots_vec))
  | INDEX_op_shlv_vec => opdef 1 2 0 (Z.lor implvec (impl TCG_TARGET_HAS_shv_vec))
  | INDEX_op_shrv_vec => opdef 1 2 0 (Z.lor implvec (impl TCG_TARGET_HAS_shv_vec))
  | INDEX_op_sarv_vec => opdef 1 2 0 (Z.lor implvec (impl TCG_TARGET_HAS_shv_vec))
  | INDEX_op_rotlv_vec => opdef 1 2 0 (Z.lor implvec (impl TCG_TARGET_HAS_rotv_vec))
  | INDEX_op_rotrv_vec => opdef 1 2 0 (Z.lor implvec (impl TCG_TARGET_HAS_rotv_vec))
  | INDEX_op_cmp_vec => opdef 1 2 1 implvec
  | INDEX_op_bitsel_vec => opdef 1 3 0 (Z.lor implvec (impl TCG_TARGET_HAS_bitsel_vec))
  | INDEX_op_cmpsel_vec => opdef 1 4 1 (Z.lor implvec (impl TCG_TARGET_HAS_cmpsel_vec))
  | INDEX_op_last_generic => opdef 0 0 0 TCG_OPF_NOT_PRESENT
  | INDEX_op_tci_movi => opdef 1 0 1 TCG_OPF_NOT_PRESENT
  | INDEX_op_tci_movl => opdef 1 0 1 TCG_OPF_NOT_PRESENT
  end.

End OpDefs.

(** [tcg_op_supported] of tcg/tcg.c: whether an op may appear in the opcode
    stream.  [None] is the failed assertion of the default case, which only
    the target-specific opcodes pass. *)
Definition tcg_op_supported `{T : TcgTarget} (op : TCGOpcode) : option bool :=
  match op with
  | INDEX_op_discard | INDEX_op_set_label | INDEX_op_call | INDEX_op_br | INDEX_op_mb
  | INDEX_op_insn_start | INDEX_op_exit_tb | INDEX_op_goto_tb | INDEX_op_goto_ptr
  | INDEX_op_qemu_ld_a32_i32 | INDEX_op_qemu_ld_a64_i32 | INDEX_op_qemu_st_a32_i32
  | INDEX_op_qemu_st_a64_i32 | INDEX_op_qemu_ld_a32_i64 | INDEX_op_qemu_ld_a64_i64
  | INDEX_op_qemu_st_a32_i64 | INDEX_op_qemu_st_a64_i64 => Some true
  | INDEX_op_qemu_st8_a32_i32 | INDEX_op_qemu_st8_a64_i32 => Some (TCG_TARGET_HAS_qemu_st8_i32)
  | INDEX_op_qemu_ld_a32_i128 | INDEX_op_qemu_ld_a64_i128 | INDEX_op_qemu_st_a32_i128
  | INDEX_op_qemu_st_a64_i128 => Some (TCG_TARGET_HAS_qemu_ldst_i128)
  | INDEX_op_mov_i32 | INDEX_op_setcond_i32 | INDEX_op_brcond_i32 | INDEX_op_movcond_i32
  | INDEX_op_ld8u_i32 | INDEX_op_ld8s_i32 | INDEX_op_ld16u_i32 | INDEX_op_ld16s_i32
  | INDEX_op_ld_i32 | INDEX_op_st8_i32 | INDEX_op_st16_i32 | INDEX_op_st_i32 | INDEX_op_add_i32
  | INDEX_op_sub_i32 | INDEX_op_neg_i32 | INDEX_op_mul_i32 | INDEX_op_and_i32 | INDEX_op_or_i32
  | INDEX_op_xor_i32 | INDEX_op_shl_i32 | INDEX_op_shr_i32 | INDEX_op_sar_i32 => Some true
  | INDEX_op_negsetcond_i32 => Some (TCG_TARGET_HAS_negsetcond_i32)
  | INDEX_op_div_i32 | INDEX_op_divu_i32 => Some (TCG_TARGET_HAS_div_i32)
  | INDEX_op_rem_i32 | INDEX_op_remu_i32 => Some (TCG_TARGET_HAS_rem_i32)
  | INDEX_op_div2_i32 | INDEX_op_divu2_i32 => Some (TCG_TARGET_HAS_div2_i32)
  | INDEX_op_rotl_i32 | INDEX_op_rotr_i32 => Some (TCG_TARGET_HAS_rot_i32)
  | INDEX_op_deposit_i32 => Some (TCG_TARGET_HAS_deposit_i32)
  | INDEX_op_extract_i32 => Some (TCG_TARGET_HAS_extract_i32)
  | INDEX_op_sextract_i32 => Some (TCG_TARGET_HAS_sextract_i32)
  | INDEX_op_extract2_i32 => Some (TCG_TARGET_HAS_extract2_i32)
  | INDEX_op_add2_i32 => Some (TCG_TARGET_HAS_add2_i32)
  | INDEX_op_sub2_i32 => Some (TCG_TARGET_HAS_sub2_i32)
  | INDEX_op_mulu2_i32 => Some (TCG_TARGET_HAS_mulu2_i32)
  | INDEX_op_muls2_i32 => Some (TCG_TARGET_HAS_muls2_i32)
  | INDEX_op_muluh_i32 => Some (TCG_TARGET_HAS_muluh_i32)
  | INDEX_op_mulsh_i32 => Some (TCG_TARGET_HAS_mulsh_i32)
  | INDEX_op_ext8s_i32 => Some (TCG_TARGET_HAS_ext8s_i32)
  | INDEX_op_ext16s_i32 => Some (TCG_TARGET_HAS_ext16s_i32)
  | INDEX_op_ext8u_i32 => Some (TCG_TARGET_HAS_ext8u_i32)
  | INDEX_op_ext16u_i32 => Some (TCG_TARGET_HAS_ext16u_i32)
  | INDEX_op_bswap16_i32 => Some (TCG_TARGET_HAS_bswap16_i32)
  | INDEX_op_bswap32_i32 => Some (TCG_TARGET_HAS_bswap32_i32)
  | INDEX_op_not_i32 => Some (TCG_TARGET_HAS_not_i32)
  | INDEX_op_andc_i32 => Some (TCG_TARGET_HAS_andc_i32)
  | INDEX_op_orc_i32 => Some (TCG_TARGET_HAS_orc_i32)
  | INDEX_op_eqv_i32 => Some (TCG_TARGET_HAS_eqv_i32)
  | INDEX_op_nand_i32 => Some (TCG_TARGET_HAS_nand_i32)
  | INDEX_op_nor_i32 => Some (TCG_TARGET_HAS_nor_i32)
  | INDEX_op_clz_i32 => Some (TCG_TARGET_HAS_clz_i32)
  | INDEX_op_ctz_i32 => Some (TCG_TARGET_HAS_ctz_i32)
  | INDEX_op_ctpop_i32 => Some (TCG_TARGET_HAS_ctpop_i32)
  | INDEX_op_brcond2_i32 | INDEX_op_setcond2_i32 => Some ((TCG_TARGET_REG_BITS =? 32))
  | INDEX_op_mov_i64 | INDEX_op_setcond_i64 | INDEX_op_brcond_i64 | INDEX_op_movcond_i64
  | INDEX_op_ld8u_i64 | INDEX_op_ld8s_i64 | INDEX_op_ld16u_i64 | INDEX_op_ld16s_i64
  | INDEX_op_ld32u_i64 | INDEX_op_ld32s_i64 | INDEX_op_ld_i64 | INDEX_op_st8_i64
  | INDEX_op_st16_i64 | INDEX_op_st32_i64 | INDEX_op_st_i64 | INDEX_op_add_i64
  | INDEX_op_sub_i64 | INDEX_op_neg_i64 | INDEX_op_mul_i64 | INDEX_op_and_i64 | INDEX_op_or_i64
  | INDEX_op_xor_i64 | INDEX_op_shl_i64 | INDEX_op_shr_i64 | INDEX_op_sar_i64
  | INDEX_op_ext_i32_i64 | INDEX_op_extu_i32_i64 => Some ((TCG_TARGET_REG_BITS =? 64))
  | INDEX_op_negsetcond_i64 => Some (TCG_TARGET_HAS_negsetcond_i64)
  | INDEX_op_div_i64 | INDEX_op_divu_i64 => Some (TCG_TARGET_HAS_div_i64)
  | INDEX_op_rem_i64 | INDEX_op_remu_i64 => Some (TCG_TARGET_HAS_rem_i64)
  | INDEX_op_div2_i64 | INDEX_op_divu2_i64 => Some (TCG_TARGET_HAS_div2_i64)
  | INDEX_op_rotl_i64 | INDEX_op_rotr_i64 => Some (TCG_TARGET_HAS_rot_i64)
  | INDEX_op_deposit_i64 => Some (TCG_TARGET_HAS_deposit_i64)
  | INDEX_op_extract_i64 => Some (TCG_TARGET_HAS_extract_i64)
  | INDEX_op_sextract_i64 => Some (TCG_TARGET_HAS_sextract_i64)
  | INDEX_op_extract2_i64 => Some (TCG_TARGET_HAS_extract2_i64)
  | INDEX_op_extrl_i64_i32 | INDEX_op_extrh_i64_i32 => Some (TCG_TARGET_HAS_extr_i64_i32)
  | INDEX_op_ext8s_i64 => Some (TCG_TARGET_HAS_ext8s_i64)
  | INDEX_op_ext16s_i64 => Some (TCG_TARGET_HAS_ext16s_i64)
  | INDEX_op_ext32s_i64 => Some (TCG_TARGET_HAS_ext32s_i64)
  | INDEX_op_ext8u_i64 => Some (TCG_TARGET_HAS_ext8u_i64)
  | INDEX_op_ext16u_i64 => Some (TCG_TARGET_HAS_ext16u_i64)
  | INDEX_op_ext32u_i64 => Some (TCG_TARGET_HAS_ext32u_i64)
  | INDEX_op_bswap16_i64 => Some (TCG_TARGET_HAS_bswap16_i64)
  | INDEX_op_bswap32_i64 => Some (TCG_TARGET_HAS_bswap32_i64)
  | INDEX_op_bswap64_i64 => Some (TCG_TARGET_HAS_bswap64_i64)
  | INDEX_op_not_i64 => Some (TCG_TARGET_HAS_not_i64)
  | INDEX_op_andc_i64 => Some (TCG_TARGET_HAS_andc_i64)
  | INDEX_op_orc_i64 => Some (TCG_TARGET_HAS_orc_i64)
  | INDEX_op_eqv_i64 => Some (TCG_TARGET_HAS_eqv_i64)
  | INDEX_op_nand_i64 => Some (TCG_TARGET_HAS_nand_i64)
  | INDEX_op_nor_i64 => Some (TCG_TARGET_HAS_nor_i64)
  | INDEX_op_clz_i64 => Some (TCG_TARGET_HAS_clz_i64)
  | INDEX_op_ctz_i64 => Some (TCG_TARGET_HAS_ctz_i64)
  | INDEX_op_ctpop_i64 => Some (TCG_TARGET_HAS_ctpop_i64)
  | INDEX_op_add2_i64 => Some (TCG_TARGET_HAS_add2_i64)
  | INDEX_op_sub2_i64 => Some (TCG_TARGET_HAS_sub2_i64)
  | INDEX_op_mulu2_i64 => Some (TCG_TARGET_HAS_mulu2_i64)
  | INDEX_op_muls2_i64 => Some (TCG_TARGET_HAS_muls2_i64)
  | INDEX_op_muluh_i64 => Some (TCG_TARGET_HAS_muluh_i64)
  | INDEX_op_mulsh_i64 => Some (TCG_TARGET_HAS_mulsh_i64)
  | INDEX_op_mov_vec | INDEX_op_dup_vec | INDEX_op_dupm_vec | INDEX_op_ld_vec | INDEX_op_st_vec
  | INDEX_op_add_vec | INDEX_op_sub_vec | INDEX_op_and_vec | INDEX_op_or_vec | INDEX_op_xor_vec
  | INDEX_op_cmp_vec => Some (TCG_TARGET_MAYBE_vec)
  | INDEX_op_dup2_vec => Some (TCG_TARGET_MAYBE_vec && (TCG_TARGET_REG_BITS =? 32))
  | INDEX_op_not_vec => Some (TCG_TARGET_MAYBE_vec && TCG_TARGET_HAS_not_vec)
  | INDEX_op_neg_vec => Some (TCG_TARGET_MAYBE_vec && TCG_TARGET_HAS_neg_vec)
  | INDEX_op_abs_vec => Some (TCG_TARGET_MAYBE_vec && TCG_TARGET_HAS_abs_vec)
  | INDEX_op_andc_vec => Some (TCG_TARGET_MAYBE_vec && TCG_TARGET_HAS_andc_vec)
  | INDEX_op_orc_vec => Some (TCG_TARGET_MAYBE_vec && TCG_TARGET_HAS_orc_vec)
  | INDEX_op_nand_vec => Some (TCG_TARGET_MAYBE_vec && TCG_TARGET_HAS_nand_vec)
  | INDEX_op_nor_vec => Some (TCG_TARGET_MAYBE_vec && TCG_TARGET_HAS_nor_vec)
  | INDEX_op_eqv_vec => Some (TCG_TARGET_MAYBE_vec && TCG_TARGET_HAS_eqv_vec)
  | INDEX_op_mul_vec => Some (TCG_TARGET_MAYBE_vec && TCG_TARGET_HAS_mul_vec)
  | INDEX_op_shli_vec | INDEX_op_shri_vec | INDEX_op_sari_vec => Some (TCG_TARGET_MAYBE_vec && TCG_TARGET_HAS_shi_vec)
  | INDEX_op_shls_vec | INDEX_op_shrs_vec | INDEX_op_sars_vec => Some (TCG_TARGET_MAYBE_vec && TCG_TARGET_HAS_shs_vec)
  | INDEX_op_shlv_vec | INDEX_op_shrv_vec | INDEX_op_sarv_vec => Some (TCG_TARGET_MAYBE_vec && TCG_TARGET_HAS_shv_vec)
  | INDEX_op_rotli_vec => Some (TCG_TARGET_MAYBE_vec && TCG_TARGET_HAS_roti_vec)
  | INDEX_op_rotls_vec => Some (TCG_TARGET_MAYBE_vec && TCG_TARGET_HAS_rots_vec)
  | INDEX_op_rotlv_vec | INDEX_op_rotrv_vec => Some (TCG_TARGET_MAYBE_vec && TCG_TARGET_HAS_rotv_vec)
  | INDEX_op_ssadd_vec | INDEX_op_usadd_vec | INDEX_op_sssub_vec | INDEX_op_ussub_vec => Some (TCG_TARGET_MAYBE_vec && TCG_TARGET_HAS_sat_vec)
  | INDEX_op_smin_vec | INDEX_op_umin_vec | INDEX_op_smax_vec | INDEX_op_umax_vec => Some (TCG_TARGET_MAYBE_vec && TCG_TARGET_HAS_minmax_vec)
  | INDEX_op_bitsel_vec => Some (TCG_TARGET_MAYBE_vec && TCG_TARGET_HAS_bitsel_vec)
  | INDEX_op_cmpsel_vec => Some (TCG_TARGET_MAYBE_vec && TCG_TARGET_HAS_cmpsel_vec)
  | INDEX_op_tci_movi | INDEX_op_tci_movl => Some true
  | INDEX_op_plugin_cb_start | INDEX_op_plugin_cb_end | INDEX_op_last_generic => None
  end.

(** ** What the headers and the build-time checks enforce of a target

    The relations between the macros in tcg.h, and the kinds of call arguments
    that [init_call_layout] accepts ([qemu_build_not_reached] for the others;
    an extended argument is a 64-bit register). *)

Class TcgTargetLaws (T : TcgTarget) : Prop := {
  reg_bits_32_64 : TCG_TARGET_REG_BITS = 32 \/ TCG_TARGET_REG_BITS = 64;
  uintptr_32_64 : UINTPTR_BITS = 32 \/ UINTPTR_BITS = 64;
  uintptr_fits : UINTPTR_BITS <= TCG_TARGET_REG_BITS;
  only_one_div_i32 : TCG_TARGET_HAS_div_i32 && TCG_TARGET_HAS_div2_i32 = false;
  only_one_div_i64 : TCG_TARGET_HAS_div_i64 && TCG_TARGET_HAS_div2_i64 = false;
  reg32_no_i64 : TCG_TARGET_REG_BITS = 32 ->
    forallb negb
      [TCG_TARGET_HAS_extr_i64_i32;
       TCG_TARGET_HAS_div_i64;
       TCG_TARGET_HAS_rem_i64;
       TCG_TARGET_HAS_div2_i64;
       TCG_TARGET_HAS_rot_i64;
       TCG_TARGET_HAS_ext8s_i64;
       TCG_TARGET_HAS_ext16s_i64;
       TCG_TARGET_HAS_ext32s_i64;
       TCG_TARGET_HAS_ext8u_i64;
       TCG_TARGET_HAS_ext16u_i64;
       TCG_TARGET_HAS_ext32u_i64;
       TCG_TARGET_HAS_bswap16_i64;
       TCG_TARGET_HAS_bswap32_i64;
       TCG_TARGET_HAS_bswap64_i64;
       TCG_TARGET_HAS_not_i64;
       TCG_TARGET_HAS_andc_i64;
       TCG_TARGET_HAS_orc_i64;
       TCG_TARGET_HAS_eqv_i64;
       TCG_TARGET_HAS_nand_i64;
       TCG_TARGET_HAS_nor_i64;
       TCG_TARGET_HAS_clz_i64;
       TCG_TARGET_HAS_ctz_i64;
       TCG_TARGET_HAS_ctpop_i64;
       TCG_TARGET_HAS_deposit_i64;
       TCG_TARGET_HAS_extract_i64;
       TCG_TARGET_HAS_sextract_i64;
       TCG_TARGET_HAS_extract2_i64;
       TCG_TARGET_HAS_negsetcond_i64;
       TCG_TARGET_HAS_add2_i64;
       TCG_TARGET_HAS_sub2_i64;
       TCG_TARGET_HAS_mulu2_i64;
       TCG_TARGET_HAS_muls2_i64;
       TCG_TARGET_HAS_muluh_i64;
       TCG_TARGET_HAS_mulsh_i64] = true;
  reg32_add2_sub2 : TCG_TARGET_REG_BITS = 32 ->
    TCG_TARGET_HAS_add2_i32 && TCG_TARGET_HAS_sub2_i32 = true;
  call_arg_i32_kinds : TCG_TARGET_CALL_ARG_I32 = TCG_CALL_ARG_NORMAL \/
    TCG_TARGET_CALL_ARG_I32 = TCG_CALL_ARG_EVEN \/
    TCG_TARGET_CALL_ARG_I32 = TCG_CALL_ARG_EXTEND /\ TCG_TARGET_REG_BITS = 64;
  call_arg_i64_kinds : TCG_TARGET_CALL_ARG_I64 = TCG_CALL_ARG_NORMAL \/
    TCG_TARGET_CALL_ARG_I64 = TCG_CALL_ARG_EVEN;
}.

(** ** The wasm32 backend: tcg/wasm32/tcg-target.h

    TCG registers are 64 bits wide although pointers have 32; the macros the
    file leaves undefined get the defaults of tcg.h. *)
Definition wasm32 : TcgTarget := {|
  TCG_TARGET_REG_BITS := 64;
  UINTPTR_BITS := 32;
  HOST_BIG_ENDIAN := false;
  TCG_TARGET_MAYBE_vec := false;
  TCG_TARGET_CALL_ARG_I32 := TCG_CALL_ARG_NORMAL;
  TCG_TARGET_CALL_ARG_I64 := TCG_CALL_ARG_NORMAL;
  TCG_TARGET_deposit_i32_valid := fun _ _ => true;
  TCG_TARGET_deposit_i64_valid := fun _ _ => true;
  TCG_TARGET_extract_i32_valid := fun _ _ => true;
  TCG_TARGET_extract_i64_valid := fun _ _ => true;
  TCG_TARGET_HAS_negsetcond_i32 := false;
  TCG_TARGET_HAS_div_i32 := true;
  TCG_TARGET_HAS_rem_i32 := true;
  TCG_TARGET_HAS_div2_i32 := false;
  TCG_TARGET_HAS_rot_i32 := true;
  TCG_TARGET_HAS_deposit_i32 := true;
  TCG_TARGET_HAS_extract_i32 := true;
  TCG_TARGET_HAS_sextract_i32 := true;
  TCG_TARGET_HAS_extract2_i32 := false;
  TCG_TARGET_HAS_add2_i32 := true;
  TCG_TARGET_HAS_sub2_i32 := true;
  TCG_TARGET_HAS_mulu2_i32 := true;
  TCG_TARGET_HAS_muls2_i32 := true;
  TCG_TARGET_HAS_muluh_i32 := false;
  TCG_TARGET_HAS_mulsh_i32 := false;
  TCG_TARGET_HAS_ext8s_i32 := true;
  TCG_TARGET_HAS_ext16s_i32 := true;
  TCG_TARGET_HAS_ext8u_i32 := true;
  TCG_TARGET_HAS_ext16u_i32 := true;
  TCG_TARGET_HAS_bswap16_i32 := true;
  TCG_TARGET_HAS_bswap32_i32 := true;
  TCG_TARGET_HAS_not_i32 := true;
  TCG_TARGET_HAS_andc_i32 := true;
  TCG_TARGET_HAS_orc_i32 := true;
  TCG_TARGET_HAS_eqv_i32 := true;
  TCG_TARGET_HAS_nand_i32 := true;
  TCG_TARGET_HAS_nor_i32 := true;
  TCG_TARGET_HAS_clz_i32 := true;
  TCG_TARGET_HAS_ctz_i32 := true;
  TCG_TARGET_HAS_ctpop_i32 := true;
  TCG_TARGET_HAS_negsetcond_i64 := false;
  TCG_TARGET_HAS_div_i64 := true;
  TCG_TARGET_HAS_rem_i64 := true;
  TCG_TARGET_HAS_div2_i64 := false;
  TCG_TARGET_HAS_rot_i64 := true;
  TCG_TARGET_HAS_deposit_i64 := true;
  TCG_TARGET_HAS_extract_i64 := true;
  TCG_TARGET_HAS_sextract_i64 := true;
  TCG_TARGET_HAS_extract2_i64 := false;
  TCG_TARGET_HAS_extr_i64_i32 := false;
  TCG_TARGET_HAS_ext8s_i64 := true;
  TCG_TARGET_HAS_ext16s_i64 := true;
  TCG_TARGET_HAS_ext32s_i64 := true;
  TCG_TARGET_HAS_ext8u_i64 := true;
  TCG_TARGET_HAS_ext16u_i64 := true;
  TCG_TARGET_HAS_ext32u_i64 := true;
  TCG_TARGET_HAS_bswap16_i64 := true;
  TCG_TARGET_HAS_bswap32_i64 := true;
  TCG_TARGET_HAS_bswap64_i64 := true;
  TCG_TARGET_HAS_not_i64 := true;
  TCG_TARGET_HAS_andc_i64 := true;
  TCG_TARGET_HAS_orc_i64 := true;
  TCG_TARGET_HAS_eqv_i64 := true;
  TCG_TARGET_HAS_nand_i64 := true;
  TCG_TARGET_HAS_nor_i64 := true;
  TCG_TARGET_HAS_clz_i64 := true;
  TCG_TARGET_HAS_ctz_i64 := true;
  TCG_TARGET_HAS_ctpop_i64 := true;
  TCG_TARGET_HAS_add2_i64 := true;
  TCG_TARGET_HAS_sub2_i64 := true;
  TCG_TARGET_HAS_mulu2_i64 := false;
  TCG_TARGET_HAS_muls2_i64 := false;
  TCG_TARGET_HAS_muluh_i64 := false;
  TCG_TARGET_HAS_mulsh_i64 := false;
  TCG_TARGET_HAS_qemu_st8_i32 := false;
  TCG_TARGET_HAS_qemu_ldst_i128 := false;
  TCG_TARGET_HAS_mul_vec := false;
  TCG_TARGET_HAS_neg_vec := false;
  TCG_TARGET_HAS_abs_vec := false;
  TCG_TARGET_HAS_sat_vec := false;
  TCG_TARGET_HAS_minmax_vec := false;
  TCG_TARGET_HAS_andc_vec := false;
  TCG_TARGET_HAS_orc_vec := false;
  TCG_TARGET_HAS_nand_vec := false;
  TCG_TARGET_HAS_nor_vec := false;
  TCG_TARGET_HAS_eqv_vec := false;
  TCG_TARGET_HAS_not_vec := false;
  TCG_TARGET_HAS_shi_vec := false;
  TCG_TARGET_HAS_roti_vec := false;
  TCG_TARGET_HAS_shs_vec := false;
  TCG_TARGET_HAS_rots_vec := false;
  TCG_TARGET_HAS_shv_vec := false;
  TCG_TARGET_HAS_rotv_vec := false;
  TCG_TARGET_HAS_bitsel_vec := false;
  TCG_TARGET_HAS_cmpsel_vec := false;
|}.

#[export] Instance wasm32_laws : TcgTargetLaws wasm32.
Proof. split; cbn; try done; auto. Qed.
