(* ===== verification/TcgCtx.v ===== *)
(** * The translation context: temporaries, constants, labels and ops

    The part of tcg/tcg.c and include/tcg/tcg.h on which code generation runs.
    [TempState] holds the fields of TCGContext that describe temporaries,
    [TCGContext] adds the list of ops and the labels.  Generation functions are
    computations of the monad [Gen]: they update the context, or leave it by
    tcg_raise_tb_overflow ([TbOverflow]), by a failed assertion ([AssertFail])
    or by recursing for ever ([Diverges]). *)

From Stdlib Require Import ZArith Lia Bool.
From stdpp Require Import base numbers functions list gmap.
From S2P Require Import Prelude.
From S2P Require Import Bitops.
From S2P Require Import BitCount.
From S2P Require Import TcgOpc.

Local Open Scope Z_scope.

(** ** Data *)

Inductive TCGType : Set :=
| TCG_TYPE_I32 | TCG_TYPE_I64 | TCG_TYPE_I128
| TCG_TYPE_V64 | TCG_TYPE_V128 | TCG_TYPE_V256.

#[export] Instance TCGType_eq_dec : EqDecision TCGType.
Proof. solve_decision. Defined.

Inductive TCGTempKind : Set :=
| TEMP_EBB | TEMP_TB | TEMP_GLOBAL | TEMP_FIXED | TEMP_CONST.

#[export] Instance TCGTempKind_eq_dec : EqDecision TCGTempKind.
Proof. solve_decision. Defined.

Definition TCG_MAX_TEMPS : Z := 512.

(** A temporary; [mem_base] is the index of the base temporary. *)
Record TCGTemp := {
  reg : Z;
  base_type : TCGType;
  type : TCGType;
  kind : TCGTempKind;
  indirect_reg : bool;
  indirect_base : bool;
  mem_allocated : bool;
  temp_allocated : bool;
  temp_subindex : Z;
  val : Z;
  mem_base : option Z;
  mem_offset : Z;
}.

(** [memset(ts, 0, sizeof(TCGTemp))]. *)
Definition zero_temp : TCGTemp :=
  {| reg := 0; base_type := TCG_TYPE_I32; type := TCG_TYPE_I32; kind := TEMP_EBB;
     indirect_reg := false; indirect_base := false; mem_allocated := false;
     temp_allocated := false; temp_subindex := 0; val := 0; mem_base := None; mem_offset := 0 |}.

(** A temporary with the fields that allocation sets; [temp_subindex] is a
    bit-field of one bit. *)
Definition new_temp (bt ty : TCGType) (k : TCGTempKind) (subindex v : Z) : TCGTemp :=
  {| reg := 0; base_type := bt; type := ty; kind := k;
     indirect_reg := false; indirect_base := false; mem_allocated := false;
     temp_allocated := true; temp_subindex := uint 1 subindex; val := v;
     mem_base := None; mem_offset := 0 |}.

Definition set_temp_allocated (b : bool) (ts : TCGTemp) : TCGTemp :=
  {| reg := reg ts; base_type := base_type ts; type := type ts; kind := kind ts;
     indirect_reg := indirect_reg ts; indirect_base := indirect_base ts;
     mem_allocated := mem_allocated ts; temp_allocated := b;
     temp_subindex := temp_subindex ts; val := val ts;
     mem_base := mem_base ts; mem_offset := mem_offset ts |}.

Definition set_indirect_base (ts : TCGTemp) : TCGTemp :=
  {| reg := reg ts; base_type := base_type ts; type := type ts; kind := kind ts;
     indirect_reg := indirect_reg ts; indirect_base := true;
     mem_allocated := mem_allocated ts; temp_allocated := temp_allocated ts;
     temp_subindex := temp_subindex ts; val := val ts;
     mem_base := mem_base ts; mem_offset := mem_offset ts |}.

(** The fields of TCGContext about temporaries.  [free_temps] is the bitmap of
    each type, [const_table] the hash table from values to temporaries. *)
Record TempState := {
  nb_globals : Z;
  nb_temps : Z;
  nb_indirects : Z;
  temps : Z -> TCGTemp;
  free_temps : TCGType -> Z;
  const_table : TCGType -> gmap Z Z;
}.

Definition set_temps (c : TempState) (n : Z) (f : Z -> TCGTemp) : TempState :=
  {| nb_globals := nb_globals c; nb_temps := n; nb_indirects := nb_indirects c;
     temps := f; free_temps := free_temps c; const_table := const_table c |}.

Definition set_free_temps (c : TempState) (f : TCGType -> Z) : TempState :=
  {| nb_globals := nb_globals c; nb_temps := nb_temps c; nb_indirects := nb_indirects c;
     temps := temps c; free_temps := f; const_table := const_table c |}.

Definition set_const_table (c : TempState) (f : TCGType -> gmap Z Z) : TempState :=
  {| nb_globals := nb_globals c; nb_temps := nb_temps c; nb_indirects := nb_indirects c;
     temps := temps c; free_temps := free_temps c; const_table := f |}.

Definition set_globals (c : TempState) (g i : Z) : TempState :=
  {| nb_globals := g; nb_temps := nb_temps c; nb_indirects := i;
     temps := temps c; free_temps := free_temps c; const_table := const_table c |}.

(** An op.  [ptr] is its identity (the pointer), [nargs] the capacity of its
    argument array; an argument is the index of a temporary, a label or a
    constant, as the opcode says. *)
Record TCGOp := {
  ptr : Z;
  opc : TCGOpcode;
  nargs : Z;
  param1 : Z;
  param2 : Z;
  args : list Z;
}.

Definition TCGOP_CALLI (op : TCGOp) : Z := param1 op.
Definition TCGOP_CALLO (op : TCGOp) : Z := param2 op.

(** A label; [branches] lists the identities of the ops that jump to it. *)
Record TCGLabel := {
  present : bool;
  branches : list Z;
}.

Record TCGContext := {
  tmp : TempState;
  nb_ops : Z;
  next_ptr : Z;
  ops : list TCGOp;
  free_ops : list TCGOp;
  nb_labels : Z;
  labels : Z -> TCGLabel;
  reserved_regs : Z;
  frame_start : Z;
  frame_end : Z;
  current_frame_offset : Z;
  frame_temp : option Z;
  addr_type : TCGType;
  insn_start_words : Z;
  goto_tb_issue_mask : Z;
  tb_cflags : Z;
}.

Definition set_tmp (s : TCGContext) (c : TempState) : TCGContext :=
  {| tmp := c; nb_ops := nb_ops s; next_ptr := next_ptr s; ops := ops s; free_ops := free_ops s;
     nb_labels := nb_labels s; labels := labels s; reserved_regs := reserved_regs s;
     frame_start := frame_start s; frame_end := frame_end s;
     current_frame_offset := current_frame_offset s; frame_temp := frame_temp s;
     addr_type := addr_type s; insn_start_words := insn_start_words s;
     goto_tb_issue_mask := goto_tb_issue_mask s; tb_cflags := tb_cflags s |}.

Definition set_ops (s : TCGContext) (n p : Z) (l f : list TCGOp) : TCGContext :=
  {| tmp := tmp s; nb_ops := n; next_ptr := p; ops := l; free_ops := f;
     nb_labels := nb_labels s; labels := labels s; reserved_regs := reserved_regs s;
     frame_start := frame_start s; frame_end := frame_end s;
     current_frame_offset := current_frame_offset s; frame_temp := frame_temp s;
     addr_type := addr_type s; insn_start_words := insn_start_words s;
     goto_tb_issue_mask := goto_tb_issue_mask s; tb_cflags := tb_cflags s |}.

Definition set_labels (s : TCGContext) (n : Z) (f : Z -> TCGLabel) : TCGContext :=
  {| tmp := tmp s; nb_ops := nb_ops s; next_ptr := next_ptr s; ops := ops s; free_ops := free_ops s;
     nb_labels := n; labels := f; reserved_regs := reserved_regs s;
     frame_start := frame_start s; frame_end := frame_end s;
     current_frame_offset := current_frame_offset s; frame_temp := frame_temp s;
     addr_type := addr_type s; insn_start_words := insn_start_words s;
     goto_tb_issue_mask := goto_tb_issue_mask s; tb_cflags := tb_cflags s |}.

Definition set_frame (s : TCGContext) (st en off : Z) (ft : option Z) (res : Z) : TCGContext :=
  {| tmp := tmp s; nb_ops := nb_ops s; next_ptr := next_ptr s; ops := ops s; free_ops := free_ops s;
     nb_labels := nb_labels s; labels := labels s; reserved_regs := res;
     frame_start := st; frame_end := en; current_frame_offset := off; frame_temp := ft;
     addr_type := addr_type s; insn_start_words := insn_start_words s;
     goto_tb_issue_mask := goto_tb_issue_mask s; tb_cflags := tb_cflags s |}.

Definition set_goto_tb_issue_mask (s : TCGContext) (m : Z) : TCGContext :=
  {| tmp := tmp s; nb_ops := nb_ops s; next_ptr := next_ptr s; ops := ops s; free_ops := free_ops s;
     nb_labels := nb_labels s; labels := labels s; reserved_regs := reserved_regs s;
     frame_start := frame_start s; frame_end := frame_end s;
     current_frame_offset := current_frame_offset s; frame_temp := frame_temp s;
     addr_type := addr_type s; insn_start_words := insn_start_words s;
     goto_tb_issue_mask := m; tb_cflags := tb_cflags s |}.

(** ** The monad of code generation *)

Inductive outcome (A : Type) :=
| Done (a : A) (s : TCGContext)
| TbOverflow
| AssertFail
| Diverges.
Arguments Done {A} a s.
Arguments TbOverflow {A}.
Arguments AssertFail {A}.
Arguments Diverges {A}.

Definition Gen (A : Type) : Type := TCGContext -> outcome A.

Definition ret_ {A} (a : A) : Gen A := fun s => Done a s.
Definition bind {A B} (m : Gen A) (f : A -> Gen B) : Gen B := fun s =>
  match m s with
  | Done a s' => f a s'
  | TbOverflow => TbOverflow
  | AssertFail => AssertFail
  | Diverges => Diverges
  end.

Declare Scope gen_scope.
Delimit Scope gen_scope with gen.
Notation "x <- m ;; k" := (bind m (fun x => k)) (at level 100, m at next level, right associativity) : gen_scope.
Notation "m ;; k" := (bind m (fun _ => k)) (at level 100, right associativity) : gen_scope.
Local Open Scope gen_scope.

Definition get_tmp : Gen TempState := fun s => Done (tmp s) s.
Definition put_tmp (c : TempState) : Gen unit := fun s => Done tt (set_tmp s c).
Definition gets {A} (f : TCGContext -> A) : Gen A := fun s => Done (f s) s.

(** [tcg_debug_assert], [g_assert_not_reached], [qemu_build_not_reached]. *)
Definition tcg_debug_assert (b : bool) : Gen unit := fun s => if b then Done tt s else AssertFail.
Definition g_assert_not_reached {A} : Gen A := fun _ => AssertFail.
Definition tcg_raise_tb_overflow {A} : Gen A := fun _ => TbOverflow.

(** ** Operations *)

Section Ops.
Context `{T : TcgTarget}.

Definition TCG_TYPE_REG : TCGType :=
  if TCG_TARGET_REG_BITS =? 32 then TCG_TYPE_I32 else TCG_TYPE_I64.

Definition TCG_TYPE_PTR : TCGType :=
  if UINTPTR_BITS =? 32 then TCG_TYPE_I32 else TCG_TYPE_I64.

(** *** Temporaries *)

(** The index of the new, zeroed, temporary. *)
Definition tcg_temp_alloc : Gen Z :=
  c <- get_tmp;;
  let n := nb_temps c in
  if n >=? TCG_MAX_TEMPS then tcg_raise_tb_overflow
  else put_tmp (set_temps c (n + 1) (<[n := zero_temp]> (temps c)));; ret_ n.

Definition set_temp (n : Z) (ts : TCGTemp) : Gen unit :=
  c <- get_tmp;; put_tmp (set_temps c (nb_temps c) (<[n := ts]> (temps c))).

Definition tcg_global_alloc : Gen Z :=
  c <- get_tmp;;
  tcg_debug_assert (nb_globals c =? nb_temps c);;
  tcg_debug_assert (nb_globals c <? TCG_MAX_TEMPS);;
  put_tmp (set_globals c (nb_globals c + 1) (nb_indirects c));;
  n <- tcg_temp_alloc;;
  set_temp n
    {| reg := 0; base_type := TCG_TYPE_I32; type := TCG_TYPE_I32; kind := TEMP_GLOBAL;
       indirect_reg := false; indirect_base := false; mem_allocated := false;
       temp_allocated := false; temp_subindex := 0; val := 0; mem_base := None; mem_offset := 0 |};;
  ret_ n.

Definition tcg_global_reg_new_internal (ty : TCGType) (r : Z) : Gen Z :=
  tcg_debug_assert ((TCG_TARGET_REG_BITS =? 64) || bool_decide (ty = TCG_TYPE_I32));;
  n <- tcg_global_alloc;;
  set_temp n
    {| reg := r; base_type := ty; type := ty; kind := TEMP_FIXED;
       indirect_reg := false; indirect_base := false; mem_allocated := false;
       temp_allocated := false; temp_subindex := 0; val := 0; mem_base := None; mem_offset := 0 |};;
  (fun s => Done tt (set_frame s (frame_start s) (frame_end s) (current_frame_offset s)
                       (frame_temp s) (Z.lor (reserved_regs s) (Z.shiftl 1 r))));;
  ret_ n.

Definition tcg_set_frame (r start size : Z) : Gen unit :=
  (fun s => Done tt (set_frame s start (start + size) (current_frame_offset s)
                       (frame_temp s) (reserved_regs s)));;
  n <- tcg_global_reg_new_internal TCG_TYPE_PTR r;;
  (fun s => Done tt (set_frame s (frame_start s) (frame_end s) (current_frame_offset s)
                       (Some n) (reserved_regs s))).

(** A global that lives in memory at [base + offset]. *)
Definition mem_global (bt ty : TCGType) (indirect : bool) (base offset subindex : Z) : TCGTemp :=
  {| reg := 0; base_type := bt; type := ty; kind := TEMP_GLOBAL;
     indirect_reg := indirect; indirect_base := false; mem_allocated := true;
     temp_allocated := false; temp_subindex := uint 1 subindex; val := 0;
     mem_base := Some base; mem_offset := offset |}.

Definition tcg_global_mem_new_internal (base offset : Z) (ty : TCGType) : Gen Z :=
  n <- tcg_global_alloc;;
  c <- get_tmp;;
  let base_ts := temps c base in
  let two := (TCG_TARGET_REG_BITS =? 32) && bool_decide (ty = TCG_TYPE_I64) in
  indirect <-
    match kind base_ts with
    | TEMP_FIXED => ret_ false
    | TEMP_GLOBAL =>
        tcg_debug_assert (negb (indirect_reg base_ts));;
        set_temp base (set_indirect_base base_ts);;
        c <- get_tmp;;
        put_tmp (set_globals c (nb_globals c) (nb_indirects c + (if two then 2 else 1)));;
        ret_ true
    | _ => g_assert_not_reached
    end;;
  if two then
    n2 <- tcg_global_alloc;;
    set_temp n (mem_global TCG_TYPE_I64 TCG_TYPE_I32 indirect base offset 0);;
    tcg_debug_assert (n2 =? n + 1);;
    set_temp n2 (mem_global TCG_TYPE_I64 TCG_TYPE_I32 indirect base (offset + 4) 1);;
    ret_ n
  else
    set_temp n (mem_global ty ty indirect base offset 0);;
    ret_ n.

Definition tcg_global_mem_new_i32 (r off : Z) : Gen Z := tcg_global_mem_new_internal r off TCG_TYPE_I32.
Definition tcg_global_mem_new_i64 (r off : Z) : Gen Z := tcg_global_mem_new_internal r off TCG_TYPE_I64.
Definition tcg_global_mem_new_ptr (r off : Z) : Gen Z := tcg_global_mem_new_internal r off TCG_TYPE_PTR.

(** [find_first_bit] over [size] bits. *)
Definition find_first_bit (bm size : Z) : Z := ctz_w size bm.

(** How many machine temporaries a temporary of a type takes. *)
Definition type_temps (ty : TCGType) : Z :=
  match ty with
  | TCG_TYPE_I32 | TCG_TYPE_V64 | TCG_TYPE_V128 | TCG_TYPE_V256 => 1
  | TCG_TYPE_I64 => 64 / TCG_TARGET_REG_BITS
  | TCG_TYPE_I128 => 128 / TCG_TARGET_REG_BITS
  end.

(** The loop [for (i = 1; i < n; ++i)] over the parts of a temporary. *)
Fixpoint alloc_parts (ty : TCGType) (k : TCGTempKind) (ts i : Z) (count : nat) : Gen unit :=
  match count with
  | O => ret_ tt
  | S count' =>
      ts2 <- tcg_temp_alloc;;
      tcg_debug_assert (ts2 =? ts + i);;
      set_temp ts2 (new_temp ty TCG_TYPE_REG k i 0);;
      alloc_parts ty k ts (i + 1) count'
  end.

Definition alloc_fresh (ty : TCGType) (k : TCGTempKind) : Gen Z :=
  let n := type_temps ty in
  ts <- tcg_temp_alloc;;
  set_temp ts (new_temp ty (if n =? 1 then ty else TCG_TYPE_REG) k 0 0);;
  alloc_parts ty k ts 1 (Z.to_nat (n - 1));;
  ret_ ts.

Definition tcg_temp_new_internal (ty : TCGType) (k : TCGTempKind) : Gen Z :=
  if bool_decide (k = TEMP_EBB) then
    c <- get_tmp;;
    let idx := find_first_bit (free_temps c ty) TCG_MAX_TEMPS in
    if idx <? TCG_MAX_TEMPS then
      put_tmp (set_free_temps c (<[ty := Z.clearbit (free_temps c ty) idx]> (free_temps c)));;
      set_temp idx (set_temp_allocated true (temps c idx));;
      tcg_debug_assert (bool_decide (base_type (temps c idx) = ty));;
      tcg_debug_assert (bool_decide (kind (temps c idx) = k));;
      ret_ idx
    else alloc_fresh ty k
  else
    tcg_debug_assert (bool_decide (k = TEMP_TB));;
    alloc_fresh ty k.

Definition tcg_temp_new_i32 : Gen Z := tcg_temp_new_internal TCG_TYPE_I32 TEMP_TB.
Definition tcg_temp_ebb_new_i32 : Gen Z := tcg_temp_new_internal TCG_TYPE_I32 TEMP_EBB.
Definition tcg_temp_new_i64 : Gen Z := tcg_temp_new_internal TCG_TYPE_I64 TEMP_TB.
Definition tcg_temp_ebb_new_i64 : Gen Z := tcg_temp_new_internal TCG_TYPE_I64 TEMP_EBB.
Definition tcg_temp_new_ptr : Gen Z := tcg_temp_new_internal TCG_TYPE_PTR TEMP_TB.
Definition tcg_temp_ebb_new_ptr : Gen Z := tcg_temp_new_internal TCG_TYPE_PTR TEMP_EBB.
Definition tcg_temp_new_i128 : Gen Z := tcg_temp_new_internal TCG_TYPE_I128 TEMP_TB.
Definition tcg_temp_ebb_new_i128 : Gen Z := tcg_temp_new_internal TCG_TYPE_I128 TEMP_EBB.

Definition tcg_temp_free_internal (ts : Z) : Gen unit :=
  c <- get_tmp;;
  match kind (temps c ts) with
  | TEMP_CONST | TEMP_TB => ret_ tt
  | TEMP_EBB =>
      tcg_debug_assert (temp_allocated (temps c ts));;
      let bt := base_type (temps c ts) in
      set_temp ts (set_temp_allocated false (temps c ts));;
      c <- get_tmp;;
      put_tmp (set_free_temps c (<[bt := Z.setbit (free_temps c bt) ts]> (free_temps c)))
  | _ => g_assert_not_reached
  end.

Definition tcg_temp_free_i32 : Z -> Gen unit := tcg_temp_free_internal.
Definition tcg_temp_free_i64 : Z -> Gen unit := tcg_temp_free_internal.
Definition tcg_temp_free_i128 : Z -> Gen unit := tcg_temp_free_internal.
Definition tcg_temp_free_ptr : Z -> Gen unit := tcg_temp_free_internal.

(** *** Constants *)

Definition add_const (ty : TCGType) (v ts : Z) : Gen unit :=
  c <- get_tmp;;
  put_tmp (set_const_table c (<[ty := <[v := ts]> (const_table c ty)]> (const_table c))).

Definition tcg_constant_internal (ty : TCGType) (v : Z) : Gen Z :=
  c <- get_tmp;;
  match const_table c ty !! v with
  | Some ts => ret_ ts
  | None =>
      ts <- tcg_temp_alloc;;
      (if (TCG_TARGET_REG_BITS =? 32) && bool_decide (ty = TCG_TYPE_I64) then
         ts2 <- tcg_temp_alloc;;
         tcg_debug_assert (ts2 =? ts + 1);;
         let lo := v in
         let hi := Z.shiftr v 32 in
         set_temp ts (new_temp TCG_TYPE_I64 TCG_TYPE_I32 TEMP_CONST 0
                        (if HOST_BIG_ENDIAN then hi else lo));;
         set_temp ts2 (new_temp TCG_TYPE_I64 TCG_TYPE_I32 TEMP_CONST 1
                         (if HOST_BIG_ENDIAN then lo else hi))
       else
         set_temp ts (new_temp ty ty TEMP_CONST 0 v));;
      add_const ty v ts;;
      ret_ ts
  end.

Definition tcg_constant_i32 (v : Z) : Gen Z := tcg_constant_internal TCG_TYPE_I32 (sint 32 v).
Definition tcg_constant_i64 (v : Z) : Gen Z := tcg_constant_internal TCG_TYPE_I64 (sint 64 v).

(** *** Parts of a temporary *)

Definition TCGV_LOW (t : Z) : Z := t + b2z HOST_BIG_ENDIAN.
Definition TCGV_HIGH (t : Z) : Z := t + b2z (negb HOST_BIG_ENDIAN).
Definition TCGV128_LOW (t : Z) : Z :=
  t + (if HOST_BIG_ENDIAN then 64 / TCG_TARGET_REG_BITS else 0).
Definition TCGV128_HIGH (t : Z) : Z :=
  t + (if HOST_BIG_ENDIAN then 0 else 64 / TCG_TARGET_REG_BITS).

(** *** Ops *)

(** The first free op that is large enough, and the others. *)
Fixpoint take_free_op (n : Z) (l : list TCGOp) : option (TCGOp * list TCGOp) :=
  match l with
  | [] => None
  | op :: l' =>
      if n <=? nargs op then Some (op, l')
      else match take_free_op n l' with
           | Some (o, r) => Some (o, op :: r)
           | None => None
           end
  end.

(** The op is not yet in the list; its arguments are filled in by the caller. *)
Definition tcg_op_alloc (o : TCGOpcode) (n : Z) : Gen TCGOp := fun s =>
  match take_free_op n (free_ops s) with
  | Some (old, r) =>
      Done {| ptr := ptr old; opc := o; nargs := nargs old; param1 := 0; param2 := 0; args := [] |}
        (set_ops s (nb_ops s + 1) (next_ptr s) (ops s) r)
  | None =>
      Done {| ptr := next_ptr s; opc := o; nargs := Z.max 4 n; param1 := 0; param2 := 0; args := [] |}
        (set_ops s (nb_ops s + 1) (next_ptr s + 1) (ops s) (free_ops s))
  end.

Definition with_args (op : TCGOp) (p1 p2 : Z) (l : list Z) : TCGOp :=
  {| ptr := ptr op; opc := opc op; nargs := nargs op; param1 := p1; param2 := p2; args := l |}.

(** [QTAILQ_INSERT_TAIL(&tcg_ctx->ops, op, link)]. *)
Definition insert_tail (op : TCGOp) : Gen unit := fun s =>
  Done tt (set_ops s (nb_ops s) (next_ptr s) (ops s ++ [op]) (free_ops s)).

(** [tcg_emit_op] followed by the assignments to [op->args]. *)
Definition tcg_emit_op (o : TCGOpcode) (l : list Z) : Gen unit :=
  op <- tcg_op_alloc o (Z.of_nat (length l));;
  insert_tail (with_args op 0 0 l).

(** *** Labels *)

Definition gen_new_label : Gen Z := fun s =>
  Done (nb_labels s)
    (set_labels s (nb_labels s + 1)
       (<[nb_labels s := {| present := false; branches := [] |}]> (labels s))).

(** *** The start of a translation block *)

Definition tcg_func_start : Gen unit := fun s =>
  let c := tmp s in
  let c' := {| nb_globals := nb_globals c; nb_temps := nb_globals c;
               nb_indirects := nb_indirects c; temps := temps c;
               free_temps := fun _ => 0; const_table := fun _ => ∅ |} in
  let s' :=
    {| tmp := c'; nb_ops := 0; next_ptr := next_ptr s; ops := []; free_ops := [];
       nb_labels := 0; labels := labels s; reserved_regs := reserved_regs s;
       frame_start := frame_start s; frame_end := frame_end s;
       current_frame_offset := frame_start s; frame_temp := frame_temp s;
       addr_type := addr_type s; insn_start_words := insn_start_words s;
       goto_tb_issue_mask := 0; tb_cflags := tb_cflags s |} in
  (tcg_debug_assert (bool_decide (addr_type s = TCG_TYPE_I32) || bool_decide (addr_type s = TCG_TYPE_I64));;
   tcg_debug_assert (insn_start_words s >? 0)) s'.

End Ops.
