(* ===== verification/TcgHelpers.v ===== *)
(** * Runtime helpers: accel/tcg/tcg-runtime.c and their call layout

    The helper functions that the expansions of tcg/tcg-op.c call, with the
    type masks of accel/tcg/tcg-runtime.h, and [init_call_layout] of
    tcg/tcg.c, which lays out the arguments of a helper call. *)

From Stdlib Require Import ZArith Lia Bool.
From stdpp Require Import base numbers list.
From S2P Require Import Prelude.
From S2P Require Import Bitops.
From S2P Require Import HostUtils.
From S2P Require Import TcgOpc.
From S2P Require Import TcgCtx.

Local Open Scope Z_scope.

(** ** The functions

    [None] is a division by zero, an overflowing signed division or a shift by
    the width or more, which are undefined in C. *)

Definition signed_div_ok (w x y : Z) : bool :=
  negb (y =? 0) && negb ((x =? - 2 ^ (w - 1)) && (y =? -1)).

Definition helper_div_i32 (arg1 arg2 : Z) : option Z :=
  let a := sint 32 arg1 in let b := sint 32 arg2 in
  checked (signed_div_ok 32 a b) (Z.quot a b).
Definition helper_rem_i32 (arg1 arg2 : Z) : option Z :=
  let a := sint 32 arg1 in let b := sint 32 arg2 in
  checked (signed_div_ok 32 a b) (Z.rem a b).
Definition helper_divu_i32 (arg1 arg2 : Z) : option Z :=
  let a := uint 32 arg1 in let b := uint 32 arg2 in checked (negb (b =? 0)) (a / b).
Definition helper_remu_i32 (arg1 arg2 : Z) : option Z :=
  let a := uint 32 arg1 in let b := uint 32 arg2 in checked (negb (b =? 0)) (a mod b).
Definition helper_shl_i64 (arg1 arg2 : Z) : option Z :=
  let a := uint 64 arg1 in let b := uint 64 arg2 in
  checked (b <? 64) (uint 64 (Z.shiftl a b)).
Definition helper_shr_i64 (arg1 arg2 : Z) : option Z :=
  let a := uint 64 arg1 in let b := uint 64 arg2 in checked (b <? 64) (Z.shiftr a b).
Definition helper_sar_i64 (arg1 arg2 : Z) : option Z :=
  let a := sint 64 arg1 in let b := sint 64 arg2 in
  checked ((0 <=? b) && (b <? 64)) (Z.shiftr a b).
Definition helper_div_i64 (arg1 arg2 : Z) : option Z :=
  let a := sint 64 arg1 in let b := sint 64 arg2 in
  checked (signed_div_ok 64 a b) (Z.quot a b).
Definition helper_rem_i64 (arg1 arg2 : Z) : option Z :=
  let a := sint 64 arg1 in let b := sint 64 arg2 in
  checked (signed_div_ok 64 a b) (Z.rem a b).
Definition helper_divu_i64 (arg1 arg2 : Z) : option Z :=
  let a := uint 64 arg1 in let b := uint 64 arg2 in checked (negb (b =? 0)) (a / b).
Definition helper_remu_i64 (arg1 arg2 : Z) : option Z :=
  let a := uint 64 arg1 in let b := uint 64 arg2 in checked (negb (b =? 0)) (a mod b).
Definition helper_muluh_i64 (arg1 arg2 : Z) : option Z := Some (snd (mulu64 arg1 arg2)).
Definition helper_mulsh_i64 (arg1 arg2 : Z) : option Z := Some (sint 64 (snd (muls64 arg1 arg2))).
Definition helper_clz_i32 (arg zero_val : Z) : option Z :=
  Some (if uint 32 arg =? 0 then uint 32 zero_val else clz32 arg).
Definition helper_ctz_i32 (arg zero_val : Z) : option Z :=
  Some (if uint 32 arg =? 0 then uint 32 zero_val else ctz32 arg).
Definition helper_clz_i64 (arg zero_val : Z) : option Z :=
  Some (if uint 64 arg =? 0 then uint 64 zero_val else clz64 arg).
Definition helper_ctz_i64 (arg zero_val : Z) : option Z :=
  Some (if uint 64 arg =? 0 then uint 64 zero_val else ctz64 arg).
Definition helper_clrsb_i32 (arg : Z) : option Z := Some (uint 32 (clrsb32 arg)).
Definition helper_clrsb_i64 (arg : Z) : option Z := Some (uint 64 (clrsb64 arg)).
Definition helper_ctpop_i32 (arg : Z) : option Z := Some (ctpop32 arg).
Definition helper_ctpop_i64 (arg : Z) : option Z := Some (ctpop64 arg).

(** ** Names and types *)

Inductive Helper : Set :=
| HELPER_div_i32 | HELPER_rem_i32 | HELPER_divu_i32 | HELPER_remu_i32
| HELPER_div_i64 | HELPER_rem_i64 | HELPER_divu_i64 | HELPER_remu_i64
| HELPER_shl_i64 | HELPER_shr_i64 | HELPER_sar_i64
| HELPER_mulsh_i64 | HELPER_muluh_i64
| HELPER_clz_i32 | HELPER_ctz_i32 | HELPER_clz_i64 | HELPER_ctz_i64
| HELPER_clrsb_i32 | HELPER_clrsb_i64 | HELPER_ctpop_i32 | HELPER_ctpop_i64
| HELPER_lookup_tb_ptr.

(** The codes of include/exec/helper-head.h. *)
Definition dh_typecode_void : Z := 0.
Definition dh_typecode_i32 : Z := 2.
Definition dh_typecode_s32 : Z := 3.
Definition dh_typecode_i64 : Z := 4.
Definition dh_typecode_s64 : Z := 5.
Definition dh_typecode_ptr : Z := 6.
Definition dh_typecode_i128 : Z := 7.

Definition dh_typemask (t n : Z) : Z := Z.shiftl t (n * 3).

Definition typemask1 (r a : Z) : Z := Z.lor (dh_typemask r 0) (dh_typemask a 1).
Definition typemask2 (r a b : Z) : Z := Z.lor (typemask1 r a) (dh_typemask b 2).

(** The DEF_HELPER_FLAGS lines of accel/tcg/tcg-runtime.h. *)
Definition typemask (h : Helper) : Z :=
  match h with
  | HELPER_div_i32 | HELPER_rem_i32 =>
      typemask2 dh_typecode_s32 dh_typecode_s32 dh_typecode_s32
  | HELPER_divu_i32 | HELPER_remu_i32 | HELPER_clz_i32 | HELPER_ctz_i32 =>
      typemask2 dh_typecode_i32 dh_typecode_i32 dh_typecode_i32
  | HELPER_div_i64 | HELPER_rem_i64 | HELPER_sar_i64 | HELPER_mulsh_i64 =>
      typemask2 dh_typecode_s64 dh_typecode_s64 dh_typecode_s64
  | HELPER_divu_i64 | HELPER_remu_i64 | HELPER_shl_i64 | HELPER_shr_i64
  | HELPER_muluh_i64 | HELPER_clz_i64 | HELPER_ctz_i64 =>
      typemask2 dh_typecode_i64 dh_typecode_i64 dh_typecode_i64
  | HELPER_clrsb_i32 | HELPER_ctpop_i32 => typemask1 dh_typecode_i32 dh_typecode_i32
  | HELPER_clrsb_i64 | HELPER_ctpop_i64 => typemask1 dh_typecode_i64 dh_typecode_i64
  | HELPER_lookup_tb_ptr => typemask1 dh_typecode_ptr dh_typecode_ptr
  end.

(** The integer that stands for [info->func] in an op. *)
Definition all_helpers : list Helper :=
  [HELPER_div_i32; HELPER_rem_i32; HELPER_divu_i32; HELPER_remu_i32;
   HELPER_div_i64; HELPER_rem_i64; HELPER_divu_i64; HELPER_remu_i64;
   HELPER_shl_i64; HELPER_shr_i64; HELPER_sar_i64; HELPER_mulsh_i64; HELPER_muluh_i64;
   HELPER_clz_i32; HELPER_ctz_i32; HELPER_clz_i64; HELPER_ctz_i64;
   HELPER_clrsb_i32; HELPER_clrsb_i64; HELPER_ctpop_i32; HELPER_ctpop_i64;
   HELPER_lookup_tb_ptr].

Definition helper_code (h : Helper) : Z :=
  match h with
  | HELPER_div_i32 => 0 | HELPER_rem_i32 => 1 | HELPER_divu_i32 => 2 | HELPER_remu_i32 => 3
  | HELPER_div_i64 => 4 | HELPER_rem_i64 => 5 | HELPER_divu_i64 => 6 | HELPER_remu_i64 => 7
  | HELPER_shl_i64 => 8 | HELPER_shr_i64 => 9 | HELPER_sar_i64 => 10
  | HELPER_mulsh_i64 => 11 | HELPER_muluh_i64 => 12
  | HELPER_clz_i32 => 13 | HELPER_ctz_i32 => 14 | HELPER_clz_i64 => 15 | HELPER_ctz_i64 => 16
  | HELPER_clrsb_i32 => 17 | HELPER_clrsb_i64 => 18 | HELPER_ctpop_i32 => 19
  | HELPER_ctpop_i64 => 20 | HELPER_lookup_tb_ptr => 21
  end.

Definition helper_of_code (k : Z) : option Helper :=
  if k <? 0 then None else all_helpers !! Z.to_nat k.

Lemma helper_of_helper_code h : helper_of_code (helper_code h) = Some h.
Proof. by destruct h. Qed.

(** The value a helper returns, from the values of its parameters.  The result
    of [lookup_tb_ptr] depends on the translation-block cache, which is the
    parameter [lookup]. *)
Definition helper_eval (lookup : Z -> Z) (h : Helper) (vs : list Z) : option Z :=
  match h, vs with
  | HELPER_div_i32, [a; b] => helper_div_i32 a b
  | HELPER_rem_i32, [a; b] => helper_rem_i32 a b
  | HELPER_divu_i32, [a; b] => helper_divu_i32 a b
  | HELPER_remu_i32, [a; b] => helper_remu_i32 a b
  | HELPER_div_i64, [a; b] => helper_div_i64 a b
  | HELPER_rem_i64, [a; b] => helper_rem_i64 a b
  | HELPER_divu_i64, [a; b] => helper_divu_i64 a b
  | HELPER_remu_i64, [a; b] => helper_remu_i64 a b
  | HELPER_shl_i64, [a; b] => helper_shl_i64 a b
  | HELPER_shr_i64, [a; b] => helper_shr_i64 a b
  | HELPER_sar_i64, [a; b] => helper_sar_i64 a b
  | HELPER_mulsh_i64, [a; b] => helper_mulsh_i64 a b
  | HELPER_muluh_i64, [a; b] => helper_muluh_i64 a b
  | HELPER_clz_i32, [a; b] => helper_clz_i32 a b
  | HELPER_ctz_i32, [a; b] => helper_ctz_i32 a b
  | HELPER_clz_i64, [a; b] => helper_clz_i64 a b
  | HELPER_ctz_i64, [a; b] => helper_ctz_i64 a b
  | HELPER_clrsb_i32, [a] => helper_clrsb_i32 a
  | HELPER_clrsb_i64, [a] => helper_clrsb_i64 a
  | HELPER_ctpop_i32, [a] => helper_ctpop_i32 a
  | HELPER_ctpop_i64, [a] => helper_ctpop_i64 a
  | HELPER_lookup_tb_ptr, [a] => Some (lookup a)
  | _, _ => None
  end.

(** ** Call layout: [init_call_layout] *)

Record TCGCallArgumentLoc := {
  loc_kind : TCGCallArgumentKind;
  arg_slot : Z;
  ref_slot : Z;
  arg_idx : Z;
  tmp_subindex : Z;
}.

Record TCGHelperInfo := {
  func : Helper;
  nr_out : Z;
  info_in : list TCGCallArgumentLoc;
}.

Definition nr_in (info : TCGHelperInfo) : Z := Z.of_nat (length (info_in info)).

(** TCGCumulativeArgs, with the [in] array so far. *)
Record TCGCumulativeArgs := {
  cum_arg_idx : Z;
  cum_in : list TCGCallArgumentLoc;
  cum_arg_slot : Z;
}.

Section Layout.
Context `{T : TcgTarget}.

Definition layout_arg_even (cum : TCGCumulativeArgs) : TCGCumulativeArgs :=
  {| cum_arg_idx := cum_arg_idx cum; cum_in := cum_in cum;
     cum_arg_slot := cum_arg_slot cum + Z.land (cum_arg_slot cum) 1 |}.

Definition layout_arg_1 (cum : TCGCumulativeArgs) (k : TCGCallArgumentKind) : TCGCumulativeArgs :=
  {| cum_arg_idx := cum_arg_idx cum;
     cum_in := cum_in cum ++
       [{| loc_kind := k; arg_slot := cum_arg_slot cum; ref_slot := 0;
           arg_idx := cum_arg_idx cum; tmp_subindex := 0 |}];
     cum_arg_slot := cum_arg_slot cum + 1 |}.

Definition layout_arg_normal_n (cum : TCGCumulativeArgs) (n : nat) : TCGCumulativeArgs :=
  {| cum_arg_idx := cum_arg_idx cum;
     cum_in := cum_in cum ++
       map (fun i =>
         {| loc_kind := TCG_CALL_ARG_NORMAL; arg_slot := cum_arg_slot cum + Z.of_nat i; ref_slot := 0;
            arg_idx := cum_arg_idx cum; tmp_subindex := Z.of_nat i |}) (seq 0 n);
     cum_arg_slot := cum_arg_slot cum + Z.of_nat n |}.

(** The type of a parameter; [None] for [g_assert_not_reached]. *)
Definition typecode_type (typecode : Z) : option TCGType :=
  if (typecode =? dh_typecode_i32) || (typecode =? dh_typecode_s32) then Some TCG_TYPE_I32
  else if (typecode =? dh_typecode_i64) || (typecode =? dh_typecode_s64) then Some TCG_TYPE_I64
  else if typecode =? dh_typecode_ptr then Some TCG_TYPE_PTR
  else None.

(** One parameter; [None] for [g_assert_not_reached] and
    [qemu_build_not_reached].  128-bit parameters are not needed here. *)
Definition layout_param (typecode : Z) (cum : TCGCumulativeArgs) : option TCGCumulativeArgs :=
  match typecode_type typecode with
  | Some TCG_TYPE_I32 =>
      match TCG_TARGET_CALL_ARG_I32 with
      | TCG_CALL_ARG_EVEN => Some (layout_arg_1 (layout_arg_even cum) TCG_CALL_ARG_NORMAL)
      | TCG_CALL_ARG_NORMAL => Some (layout_arg_1 cum TCG_CALL_ARG_NORMAL)
      | TCG_CALL_ARG_EXTEND =>
          Some (layout_arg_1 cum (if Z.land typecode 1 =? 0 then TCG_CALL_ARG_EXTEND_U
                                  else TCG_CALL_ARG_EXTEND_S))
      | _ => None
      end
  | Some TCG_TYPE_I64 =>
      let place cum :=
        if TCG_TARGET_REG_BITS =? 32 then layout_arg_normal_n cum 2
        else layout_arg_1 cum TCG_CALL_ARG_NORMAL in
      match TCG_TARGET_CALL_ARG_I64 with
      | TCG_CALL_ARG_EVEN => Some (place (layout_arg_even cum))
      | TCG_CALL_ARG_NORMAL => Some (place cum)
      | _ => None
      end
  | _ => None
  end.

Definition next_arg (cum : TCGCumulativeArgs) : TCGCumulativeArgs :=
  {| cum_arg_idx := cum_arg_idx cum + 1; cum_in := cum_in cum; cum_arg_slot := cum_arg_slot cum |}.

(** The loop [for (typemask >>= 3; typemask; typemask >>= 3, cum.arg_idx++)]:
    a mask of 32 bits has at most ten parameters. *)
Fixpoint layout_params (fuel : nat) (mask : Z) (cum : TCGCumulativeArgs) : option TCGCumulativeArgs :=
  if mask =? 0 then Some cum
  else match fuel with
       | O => None
       | S fuel' =>
           match layout_param (Z.land mask 7) cum with
           | Some cum' => layout_params fuel' (Z.shiftr mask 3) (next_arg cum')
           | None => None
           end
       end.

Definition layout_ret (typecode : Z) : option Z :=
  if typecode =? dh_typecode_void then Some 0
  else if (typecode =? dh_typecode_i32) || (typecode =? dh_typecode_s32)
          || (typecode =? dh_typecode_ptr) then Some 1
  else if (typecode =? dh_typecode_i64) || (typecode =? dh_typecode_s64)
  then Some (64 / TCG_TARGET_REG_BITS)
  else None.

Definition init_call_layout (h : Helper) : option TCGHelperInfo :=
  let mask := typemask h in
  match layout_ret (Z.land mask 7),
        layout_params 10 (Z.shiftr mask 3) {| cum_arg_idx := 0; cum_in := []; cum_arg_slot := 0 |} with
  | Some out, Some cum => Some {| func := h; nr_out := out; info_in := cum_in cum |}
  | _, _ => None
  end.

End Layout.
