(* ===== verification/TcgGen.v ===== *)
(** * Emitting ops: the first part of tcg/tcg-op.c

    [tcg_gen_op1] to [tcg_gen_op6] and their typed variants, labels and
    barriers, the moves, shifts and extensions that a helper call needs, and
    [tcg_gen_callN] of tcg/tcg.c.  A [TCGv_i32], [TCGv_i64] or [TCGv_ptr] is
    the index of its temporary, so [tcgv_i32_arg] and the like are the
    identity.  A parameter of a C integer type is converted to it on entry. *)

From Stdlib Require Import ZArith Lia Bool.
From stdpp Require Import base numbers functions list gmap.
From S2P Require Import Prelude.
From S2P Require Import Bitops.
From S2P Require Import TcgCond.
From S2P Require Import TcgOpc.
From S2P Require Import TcgCtx.
From S2P Require Import TcgHelpers.

Local Open Scope Z_scope.
Local Open Scope gen_scope.

(** ** Ops by number of arguments *)

Definition tcg_gen_op1 (o : TCGOpcode) (a1 : Z) : Gen unit := tcg_emit_op o [a1].
Definition tcg_gen_op2 (o : TCGOpcode) (a1 a2 : Z) : Gen unit := tcg_emit_op o [a1; a2].
Definition tcg_gen_op3 (o : TCGOpcode) (a1 a2 a3 : Z) : Gen unit := tcg_emit_op o [a1; a2; a3].
Definition tcg_gen_op4 (o : TCGOpcode) (a1 a2 a3 a4 : Z) : Gen unit :=
  tcg_emit_op o [a1; a2; a3; a4].
Definition tcg_gen_op5 (o : TCGOpcode) (a1 a2 a3 a4 a5 : Z) : Gen unit :=
  tcg_emit_op o [a1; a2; a3; a4; a5].
Definition tcg_gen_op6 (o : TCGOpcode) (a1 a2 a3 a4 a5 a6 : Z) : Gen unit :=
  tcg_emit_op o [a1; a2; a3; a4; a5; a6].

Definition tcg_gen_op1_i32 (o : TCGOpcode) (a1 : Z) : Gen unit := tcg_gen_op1 o a1.
Definition tcg_gen_op1_i64 (o : TCGOpcode) (a1 : Z) : Gen unit := tcg_gen_op1 o a1.
Definition tcg_gen_op1i (o : TCGOpcode) (a1 : Z) : Gen unit := tcg_gen_op1 o a1.
Definition tcg_gen_op2_i32 (o : TCGOpcode) (a1 a2 : Z) : Gen unit := tcg_gen_op2 o a1 a2.
Definition tcg_gen_op2_i64 (o : TCGOpcode) (a1 a2 : Z) : Gen unit := tcg_gen_op2 o a1 a2.
Definition tcg_gen_op3_i32 (o : TCGOpcode) (a1 a2 a3 : Z) : Gen unit := tcg_gen_op3 o a1 a2 a3.
Definition tcg_gen_op3_i64 (o : TCGOpcode) (a1 a2 a3 : Z) : Gen unit := tcg_gen_op3 o a1 a2 a3.
Definition tcg_gen_op3i_i32 (o : TCGOpcode) (a1 a2 a3 : Z) : Gen unit := tcg_gen_op3 o a1 a2 a3.
Definition tcg_gen_op3i_i64 (o : TCGOpcode) (a1 a2 a3 : Z) : Gen unit := tcg_gen_op3 o a1 a2 a3.
Definition tcg_gen_ldst_op_i32 (o : TCGOpcode) (v base offset : Z) : Gen unit :=
  tcg_gen_op3 o v base offset.
Definition tcg_gen_ldst_op_i64 (o : TCGOpcode) (v base offset : Z) : Gen unit :=
  tcg_gen_op3 o v base offset.
Definition tcg_gen_op4_i32 (o : TCGOpcode) (a1 a2 a3 a4 : Z) : Gen unit := tcg_gen_op4 o a1 a2 a3 a4.
Definition tcg_gen_op4_i64 (o : TCGOpcode) (a1 a2 a3 a4 : Z) : Gen unit := tcg_gen_op4 o a1 a2 a3 a4.
Definition tcg_gen_op4i_i32 (o : TCGOpcode) (a1 a2 a3 a4 : Z) : Gen unit := tcg_gen_op4 o a1 a2 a3 a4.
Definition tcg_gen_op4i_i64 (o : TCGOpcode) (a1 a2 a3 a4 : Z) : Gen unit := tcg_gen_op4 o a1 a2 a3 a4.
Definition tcg_gen_op4ii_i32 (o : TCGOpcode) (a1 a2 a3 a4 : Z) : Gen unit := tcg_gen_op4 o a1 a2 a3 a4.
Definition tcg_gen_op4ii_i64 (o : TCGOpcode) (a1 a2 a3 a4 : Z) : Gen unit := tcg_gen_op4 o a1 a2 a3 a4.
Definition tcg_gen_op5_i32 (o : TCGOpcode) (a1 a2 a3 a4 a5 : Z) : Gen unit :=
  tcg_gen_op5 o a1 a2 a3 a4 a5.
Definition tcg_gen_op5_i64 (o : TCGOpcode) (a1 a2 a3 a4 a5 : Z) : Gen unit :=
  tcg_gen_op5 o a1 a2 a3 a4 a5.
Definition tcg_gen_op5ii_i32 (o : TCGOpcode) (a1 a2 a3 a4 a5 : Z) : Gen unit :=
  tcg_gen_op5 o a1 a2 a3 a4 a5.
Definition tcg_gen_op5ii_i64 (o : TCGOpcode) (a1 a2 a3 a4 a5 : Z) : Gen unit :=
  tcg_gen_op5 o a1 a2 a3 a4 a5.
Definition tcg_gen_op6_i32 (o : TCGOpcode) (a1 a2 a3 a4 a5 a6 : Z) : Gen unit :=
  tcg_gen_op6 o a1 a2 a3 a4 a5 a6.
Definition tcg_gen_op6_i64 (o : TCGOpcode) (a1 a2 a3 a4 a5 a6 : Z) : Gen unit :=
  tcg_gen_op6 o a1 a2 a3 a4 a5 a6.
Definition tcg_gen_op6i_i32 (o : TCGOpcode) (a1 a2 a3 a4 a5 a6 : Z) : Gen unit :=
  tcg_gen_op6 o a1 a2 a3 a4 a5 a6.
Definition tcg_gen_op6i_i64 (o : TCGOpcode) (a1 a2 a3 a4 a5 a6 : Z) : Gen unit :=
  tcg_gen_op6 o a1 a2 a3 a4 a5 a6.
Definition tcg_gen_op6ii_i32 (o : TCGOpcode) (a1 a2 a3 a4 a5 a6 : Z) : Gen unit :=
  tcg_gen_op6 o a1 a2 a3 a4 a5 a6.

(** ** Labels, branches and barriers *)

Definition gen_set_label (l : Z) : Gen unit :=
  (fun s => Done tt (set_labels s (nb_labels s)
              (<[l := {| present := true; branches := branches (labels s l) |}]> (labels s))));;
  tcg_gen_op1 INDEX_op_set_label l.

(** [tcg_last_op], as the identity of the op; 0 is NULL. *)
Definition tcg_last_op (s : TCGContext) : Z := from_option ptr 0 (last (ops s)).

Definition add_last_as_label_use (l : Z) : Gen unit := fun s =>
  Done tt (set_labels s (nb_labels s)
    (<[l := {| present := present (labels s l);
               branches := branches (labels s l) ++ [tcg_last_op s] |}]> (labels s))).

Definition tcg_gen_br (l : Z) : Gen unit :=
  tcg_gen_op1 INDEX_op_br l;;
  add_last_as_label_use l.

(** System emulation: the barrier is always emitted. *)
Definition tcg_gen_mb (mb_type : Z) : Gen unit := tcg_gen_op1 INDEX_op_mb mb_type.

Definition tcg_gen_plugin_cb_start (from ty wr : Z) : Gen unit :=
  tcg_gen_op3 INDEX_op_plugin_cb_start from ty wr.
Definition tcg_gen_plugin_cb_end : Gen unit := tcg_emit_op INDEX_op_plugin_cb_end [].

(** ** Moves, shifts and extensions *)

Section Gen.
Context `{T : TcgTarget}.

Definition tcg_gen_discard_i32 (arg : Z) : Gen unit := tcg_gen_op1_i32 INDEX_op_discard arg.

Definition tcg_gen_mov_i32 (ret arg : Z) : Gen unit :=
  if negb (ret =? arg) then tcg_gen_op2_i32 INDEX_op_mov_i32 ret arg else ret_ tt.

Definition tcg_gen_movi_i32 (ret arg : Z) : Gen unit :=
  k <- tcg_constant_i32 arg;;
  tcg_gen_mov_i32 ret k.

Definition tcg_gen_shl_i32 (ret arg1 arg2 : Z) : Gen unit :=
  tcg_gen_op3_i32 INDEX_op_shl_i32 ret arg1 arg2.

Definition tcg_gen_shli_i32 (ret arg1 arg2 : Z) : Gen unit :=
  let arg2 := sint 32 arg2 in
  tcg_debug_assert ((0 <=? arg2) && (arg2 <? 32));;
  if arg2 =? 0 then tcg_gen_mov_i32 ret arg1
  else k <- tcg_constant_i32 arg2;; tcg_gen_shl_i32 ret arg1 k.

Definition tcg_gen_shr_i32 (ret arg1 arg2 : Z) : Gen unit :=
  tcg_gen_op3_i32 INDEX_op_shr_i32 ret arg1 arg2.

Definition tcg_gen_shri_i32 (ret arg1 arg2 : Z) : Gen unit :=
  let arg2 := sint 32 arg2 in
  tcg_debug_assert ((0 <=? arg2) && (arg2 <? 32));;
  if arg2 =? 0 then tcg_gen_mov_i32 ret arg1
  else k <- tcg_constant_i32 arg2;; tcg_gen_shr_i32 ret arg1 k.

Definition tcg_gen_sar_i32 (ret arg1 arg2 : Z) : Gen unit :=
  tcg_gen_op3_i32 INDEX_op_sar_i32 ret arg1 arg2.

Definition tcg_gen_sari_i32 (ret arg1 arg2 : Z) : Gen unit :=
  let arg2 := sint 32 arg2 in
  tcg_debug_assert ((0 <=? arg2) && (arg2 <? 32));;
  if arg2 =? 0 then tcg_gen_mov_i32 ret arg1
  else k <- tcg_constant_i32 arg2;; tcg_gen_sar_i32 ret arg1 k.

Definition tcg_gen_extu_i32_i64 (ret arg : Z) : Gen unit :=
  if TCG_TARGET_REG_BITS =? 32 then
    tcg_gen_mov_i32 (TCGV_LOW ret) arg;;
    tcg_gen_movi_i32 (TCGV_HIGH ret) 0
  else tcg_gen_op2 INDEX_op_extu_i32_i64 ret arg.

Definition tcg_gen_ext_i32_i64 (ret arg : Z) : Gen unit :=
  if TCG_TARGET_REG_BITS =? 32 then
    tcg_gen_mov_i32 (TCGV_LOW ret) arg;;
    tcg_gen_sari_i32 (TCGV_HIGH ret) (TCGV_LOW ret) 31
  else tcg_gen_op2 INDEX_op_ext_i32_i64 ret arg.

(** ** Helper calls *)

Definition MAX_CALL_IARGS : Z := 7.

(** The value of a type in the enumeration, for [ret->type + ctz32(n)]. *)
Definition type_code (ty : TCGType) : Z :=
  match ty with
  | TCG_TYPE_I32 => 0 | TCG_TYPE_I64 => 1 | TCG_TYPE_I128 => 2
  | TCG_TYPE_V64 => 3 | TCG_TYPE_V128 => 4 | TCG_TYPE_V256 => 5
  end.

(** The output arguments; [ret] is [None] for NULL. *)
Definition call_outs (n : Z) (ret : option Z) : Gen (list Z) :=
  if n =? 0 then
    tcg_debug_assert (bool_decide (ret = None));; ret_ []
  else match ret with
       | None => g_assert_not_reached
       | Some r =>
           if n =? 1 then ret_ [r]
           else if (n =? 2) || (n =? 4) then
             c <- get_tmp;;
             tcg_debug_assert (type_code (base_type (temps c r)) =? type_code (type (temps c r)) + ctz32 n);;
             tcg_debug_assert (temp_subindex (temps c r) =? 0);;
             ret_ (map (fun i => r + Z.of_nat i) (seq 0 (Z.to_nat n)))
           else g_assert_not_reached
       end.

(** The loop over [info->in]: the arguments of the op and [extend_free]. *)
Fixpoint call_ins (locs : list TCGCallArgumentLoc) (args : list Z) : Gen (list Z * list Z) :=
  match locs with
  | [] => ret_ ([], [])
  | loc :: locs' =>
      let ts := nth (Z.to_nat (arg_idx loc)) args 0 + tmp_subindex loc in
      match loc_kind loc with
      | TCG_CALL_ARG_NORMAL | TCG_CALL_ARG_BY_REF | TCG_CALL_ARG_BY_REF_N =>
          r <- call_ins locs' args;;
          ret_ (ts :: fst r, snd r)
      | TCG_CALL_ARG_EXTEND_U =>
          temp <- tcg_temp_ebb_new_i64;;
          tcg_gen_extu_i32_i64 temp ts;;
          r <- call_ins locs' args;;
          ret_ (temp :: fst r, temp :: snd r)
      | TCG_CALL_ARG_EXTEND_S =>
          temp <- tcg_temp_ebb_new_i64;;
          tcg_gen_ext_i32_i64 temp ts;;
          r <- call_ins locs' args;;
          ret_ (temp :: fst r, temp :: snd r)
      | _ => g_assert_not_reached
      end
  end.

Fixpoint free_all_i64 (l : list Z) : Gen unit :=
  match l with
  | [] => ret_ tt
  | t :: l' => tcg_temp_free_i64 t;; free_all_i64 l'
  end.

(** [info->func] is the code of the helper, [info] itself is not used by the
    meaning of the op. *)
Definition tcg_gen_callN (h : Helper) (ret : option Z) (args : list Z) : Gen unit :=
  match init_call_layout h with
  | None => g_assert_not_reached
  | Some info =>
      let total_args := nr_out info + nr_in info + 2 in
      op <- tcg_op_alloc INDEX_op_call total_args;;
      outs <- call_outs (nr_out info) ret;;
      r <- call_ins (info_in info) args;;
      let all := outs ++ fst r ++ [helper_code (func info); 0] in
      tcg_debug_assert (Z.of_nat (length all) =? total_args);;
      insert_tail (with_args op (nr_in info) (nr_out info) all);;
      tcg_debug_assert (Z.of_nat (length (snd r)) <? MAX_CALL_IARGS);;
      free_all_i64 (snd r)
  end.

Definition tcg_gen_call0 (h : Helper) (ret : option Z) : Gen unit := tcg_gen_callN h ret [].
Definition tcg_gen_call1 (h : Helper) (ret : option Z) (t1 : Z) : Gen unit :=
  tcg_gen_callN h ret [t1].
Definition tcg_gen_call2 (h : Helper) (ret : option Z) (t1 t2 : Z) : Gen unit :=
  tcg_gen_callN h ret [t1; t2].
Definition tcg_gen_call3 (h : Helper) (ret : option Z) (t1 t2 t3 : Z) : Gen unit :=
  tcg_gen_callN h ret [t1; t2; t3].
Definition tcg_gen_call4 (h : Helper) (ret : option Z) (t1 t2 t3 t4 : Z) : Gen unit :=
  tcg_gen_callN h ret [t1; t2; t3; t4].
Definition tcg_gen_call5 (h : Helper) (ret : option Z) (t1 t2 t3 t4 t5 : Z) : Gen unit :=
  tcg_gen_callN h ret [t1; t2; t3; t4; t5].
Definition tcg_gen_call6 (h : Helper) (ret : option Z) (t1 t2 t3 t4 t5 t6 : Z) : Gen unit :=
  tcg_gen_callN h ret [t1; t2; t3; t4; t5; t6].
Definition tcg_gen_call7 (h : Helper) (ret : option Z) (t1 t2 t3 t4 t5 t6 t7 : Z) : Gen unit :=
  tcg_gen_callN h ret [t1; t2; t3; t4; t5; t6; t7].

(** The wrappers that DEF_HELPER_FLAGS_1 and DEF_HELPER_FLAGS_2 define. *)
Definition gen_helper_1 (h : Helper) (ret a : Z) : Gen unit := tcg_gen_call1 h (Some ret) a.
Definition gen_helper_2 (h : Helper) (ret a b : Z) : Gen unit := tcg_gen_call2 h (Some ret) a b.

End Gen.

(** Calls are found by name. *)
#[global] Typeclasses Opaque
  tcg_gen_op1 tcg_gen_op2 tcg_gen_op3 tcg_gen_op4 tcg_gen_op5 tcg_gen_op6 tcg_gen_op1_i32
  tcg_gen_op1_i64 tcg_gen_op1i tcg_gen_op2_i32 tcg_gen_op2_i64 tcg_gen_op3_i32
  tcg_gen_op3_i64 tcg_gen_op3i_i32 tcg_gen_op3i_i64 tcg_gen_ldst_op_i32 tcg_gen_ldst_op_i64
  tcg_gen_op4_i32 tcg_gen_op4_i64 tcg_gen_op4i_i32 tcg_gen_op4i_i64 tcg_gen_op4ii_i32
  tcg_gen_op4ii_i64 tcg_gen_op5_i32 tcg_gen_op5_i64 tcg_gen_op5ii_i32 tcg_gen_op5ii_i64
  tcg_gen_op6_i32 tcg_gen_op6_i64 tcg_gen_op6i_i32 tcg_gen_op6i_i64 tcg_gen_op6ii_i32
  tcg_gen_br tcg_gen_mb tcg_gen_plugin_cb_start tcg_gen_plugin_cb_end tcg_gen_discard_i32
  tcg_gen_mov_i32 tcg_gen_movi_i32 tcg_gen_shl_i32 tcg_gen_shli_i32 tcg_gen_shr_i32
  tcg_gen_shri_i32 tcg_gen_sar_i32 tcg_gen_sari_i32 tcg_gen_extu_i32_i64 tcg_gen_ext_i32_i64
  tcg_gen_callN tcg_gen_call0 tcg_gen_call1 tcg_gen_call2 tcg_gen_call3 tcg_gen_call4
  tcg_gen_call5 tcg_gen_call6 tcg_gen_call7 gen_helper_1 gen_helper_2.
