(* ===== verification/TcgSem.v ===== *)
(** * The meaning of TCG ops

    The abstract machine that the generated ops run on: a value per temporary
    and the host memory.  [eval_op] is the value-level meaning of the opcodes,
    [exec_op] one op, [run] a straight list of ops up to a jump or an exit.

    - A temporary of kind TEMP_CONST always reads as its constant.
    - An op that writes a 32-bit value leaves the upper half of the temporary
      unspecified; likewise bswap leaves bits unspecified without an output
      flag.  The unspecified bits are an oracle, [junk]: the theorems hold
      for every oracle.
    - Division by zero and the overflowing signed division are undefined
      ([Undef]), as they are in C.
    - A shift or rotation by the width or more gives an unspecified result,
      [over], another oracle (docs/devel/tcg-ops.rst).
    - Guest memory accesses and vector ops are outside this machine. *)

From Stdlib Require Import ZArith Lia Bool.
From stdpp Require Import base numbers functions list gmap.
From S2P Require Import Prelude.
From S2P Require Import Bytes.
From S2P Require Import Bitops.
From S2P Require Import TcgCond.
From S2P Require Import TcgOpc.
From S2P Require Import TcgCtx.
From S2P Require Import TcgHelpers.

Local Open Scope Z_scope.

(** ** Values of pure ops *)

(** The unspecified bits, and the result of looking up a translation block. *)
Class Oracle := {
  junk : TCGOpcode -> list Z -> Z;
  lookup_tb_ptr : Z -> Z;
}.

(** The unspecified result of shifting [x] by a count [y] out of range. *)
Class Overshift := over : TCGOpcode -> Z -> Z -> Z.

Definition TCG_BSWAP_IZ : Z := 1.
Definition TCG_BSWAP_OZ : Z := 2.
Definition TCG_BSWAP_OS : Z := 4.

Definition flag (x f : Z) : bool := negb (Z.land x f =? 0).

(** *** Meanings at width [w] *)

Section Width.
Context `{Orc : Oracle} `{Ov : Overshift}.
Variable w : Z.

Definition ev1 (f : Z -> Z) (ins : list Z) : option (list Z) :=
  match ins with [a] => Some [f (uint w a)] | _ => None end.

Definition ev2 (f : Z -> Z -> Z) (ins : list Z) : option (list Z) :=
  match ins with [a; b] => Some [f (uint w a) (uint w b)] | _ => None end.

(** Division: [q] and [r] on the divisor and dividend, where defined. *)
Definition sdiv_ok (x y : Z) : bool := negb (y =? 0) && negb ((x =? - 2 ^ (w - 1)) && (y =? -1)).

Definition ev_sdiv (f : Z -> Z -> Z) (ins : list Z) : option (list Z) :=
  match ins with
  | [a; b] => if sdiv_ok (sint w a) (sint w b) then Some [f (sint w a) (sint w b)] else None
  | _ => None
  end.

Definition ev_udiv (f : Z -> Z -> Z) (ins : list Z) : option (list Z) :=
  match ins with
  | [a; b] => if uint w b =? 0 then None else Some [f (uint w a) (uint w b)]
  | _ => None
  end.

Definition ev_div2 (ins : list Z) : option (list Z) :=
  match ins with
  | [l; h; d] =>
      let n := sint w h * 2 ^ w + uint w l in
      let q := Z.quot n (sint w d) in
      if (sint w d =? 0) || negb ((- 2 ^ (w - 1) <=? q) && (q <? 2 ^ (w - 1))) then None
      else Some [q; Z.rem n (sint w d)]
  | _ => None
  end.

Definition ev_divu2 (ins : list Z) : option (list Z) :=
  match ins with
  | [l; h; d] =>
      let n := uint w h * 2 ^ w + uint w l in
      let q := n / uint w d in
      if (uint w d =? 0) || negb (q <? 2 ^ w) then None
      else Some [q; n mod uint w d]
  | _ => None
  end.

Definition ev_cond (f : bool -> Z) (ins cargs : list Z) : option (list Z) :=
  match ins, cargs with
  | [a; b], [c] => option_map (fun r : bool => [f r]) (cond_eval w c a b)
  | _, _ => None
  end.

Definition ev_movcond (ins cargs : list Z) : option (list Z) :=
  match ins, cargs with
  | [a; b; x; y], [c] => option_map (fun r : bool => [if r then x else y]) (cond_eval w c a b)
  | _, _ => None
  end.

Definition ev_deposit (ins cargs : list Z) : option (list Z) :=
  match ins, cargs with
  | [a; b], [p; l] => if field_ok w p l then Some [deposit_w w a p l b] else None
  | _, _ => None
  end.

Definition ev_extract (ins cargs : list Z) : option (list Z) :=
  match ins, cargs with
  | [a], [p; l] => if field_ok w p l then Some [extract_w w a p l] else None
  | _, _ => None
  end.

Definition ev_sextract (ins cargs : list Z) : option (list Z) :=
  match ins, cargs with
  | [a], [p; l] => if field_ok w p l then Some [sextract_w w a p l] else None
  | _, _ => None
  end.

(** The [w] bits from bit [p] of the double word [b:a]. *)
Definition extract2_w (a b p : Z) : Z :=
  Z.shiftr (uint w b * 2 ^ w + uint w a) p.

Definition ev_extract2 (ins cargs : list Z) : option (list Z) :=
  match ins, cargs with
  | [a; b], [p] => if (0 <=? p) && (p <? w) then Some [extract2_w a b p] else None
  | _, _ => None
  end.

(** Double-word arithmetic: low and high word of the result. *)
Definition split2 (x : Z) : list Z := [x; Z.shiftr x w].

Definition ev_add2 (f : Z -> Z -> Z) (ins : list Z) : option (list Z) :=
  match ins with
  | [al; ah; bl; bh] =>
      Some (split2 (f (uint w ah * 2 ^ w + uint w al) (uint w bh * 2 ^ w + uint w bl)))
  | _ => None
  end.

Definition ev_setcond2 (ins cargs : list Z) : option (list Z) :=
  match ins, cargs with
  | [al; ah; bl; bh], [c] =>
      option_map (fun r => [b2z r])
        (cond_eval (2 * w) c (uint w ah * 2 ^ w + uint w al) (uint w bh * 2 ^ w + uint w bl))
  | _, _ => None
  end.

(** bswap of the low [n] bits: the flags say what is known of the input and
    what becomes of the bits above [n]. *)
Definition bswap_flags (n : Z) (swap : Z -> Z) (x flags j : Z) : option Z :=
  if flag flags TCG_BSWAP_IZ && negb (uint w x =? uint n x) then None
  else if flag flags TCG_BSWAP_OS then Some (sint n (swap x))
  else if flag flags TCG_BSWAP_OZ then Some (swap x)
  else Some (swap x + j * 2 ^ n).

Definition ev_bswap (o : TCGOpcode) (n : Z) (swap : Z -> Z) (ins cargs : list Z) : option (list Z) :=
  match ins, cargs with
  | [a], [f] => option_map (fun v => [v]) (bswap_flags n swap a f (junk o ins))
  | _, _ => None
  end.

(** A shift or rotation [f] of op [o]; the count is unsigned. *)
Definition shift_w (o : TCGOpcode) (f : Z -> Z -> Z) (x y : Z) : Z :=
  if y <? w then f x y else over o x y.
Definition sar_w (x y : Z) : Z := Z.shiftr (sint w x) y.
Definition clz_z (clz : Z -> Z) (x y : Z) : Z := if x =? 0 then y else clz x.

End Width.

(** *** The opcodes *)

Section Eval.
Context `{Orc : Oracle} `{Ov : Overshift}.

Definition eval_i32 (o : TCGOpcode) (ins cargs : list Z) : option (list Z) :=
  match o with
  | INDEX_op_mov_i32 => ev1 32 (fun a => a) ins
  | INDEX_op_setcond_i32 => ev_cond 32 b2z ins cargs
  | INDEX_op_negsetcond_i32 => ev_cond 32 (fun b => - b2z b) ins cargs
  | INDEX_op_movcond_i32 => ev_movcond 32 ins cargs
  | INDEX_op_add_i32 => ev2 32 Z.add ins
  | INDEX_op_sub_i32 => ev2 32 Z.sub ins
  | INDEX_op_mul_i32 => ev2 32 Z.mul ins
  | INDEX_op_div_i32 => ev_sdiv 32 Z.quot ins
  | INDEX_op_divu_i32 => ev_udiv 32 Z.div ins
  | INDEX_op_rem_i32 => ev_sdiv 32 Z.rem ins
  | INDEX_op_remu_i32 => ev_udiv 32 Z.modulo ins
  | INDEX_op_div2_i32 => ev_div2 32 ins
  | INDEX_op_divu2_i32 => ev_divu2 32 ins
  | INDEX_op_and_i32 => ev2 32 Z.land ins
  | INDEX_op_or_i32 => ev2 32 Z.lor ins
  | INDEX_op_xor_i32 => ev2 32 Z.lxor ins
  | INDEX_op_shl_i32 => ev2 32 (shift_w 32 o Z.shiftl) ins
  | INDEX_op_shr_i32 => ev2 32 (shift_w 32 o Z.shiftr) ins
  | INDEX_op_sar_i32 => ev2 32 (shift_w 32 o (sar_w 32)) ins
  | INDEX_op_rotl_i32 => ev2 32 (shift_w 32 o rol32) ins
  | INDEX_op_rotr_i32 => ev2 32 (shift_w 32 o ror32) ins
  | INDEX_op_deposit_i32 => ev_deposit 32 ins cargs
  | INDEX_op_extract_i32 => ev_extract 32 ins cargs
  | INDEX_op_sextract_i32 => ev_sextract 32 ins cargs
  | INDEX_op_extract2_i32 => ev_extract2 32 ins cargs
  | INDEX_op_add2_i32 => ev_add2 32 Z.add ins
  | INDEX_op_sub2_i32 => ev_add2 32 Z.sub ins
  | INDEX_op_mulu2_i32 =>
      match ins with [a; b] => Some (split2 32 (uint 32 a * uint 32 b)) | _ => None end
  | INDEX_op_muls2_i32 =>
      match ins with [a; b] => Some (split2 32 (sint 32 a * sint 32 b)) | _ => None end
  | INDEX_op_muluh_i32 => ev2 32 (fun a b => Z.shiftr (a * b) 32) ins
  | INDEX_op_mulsh_i32 => ev2 32 (fun a b => Z.shiftr (sint 32 a * sint 32 b) 32) ins
  | INDEX_op_setcond2_i32 => ev_setcond2 32 ins cargs
  | INDEX_op_ext8s_i32 => ev1 32 (sint 8) ins
  | INDEX_op_ext16s_i32 => ev1 32 (sint 16) ins
  | INDEX_op_ext8u_i32 => ev1 32 (uint 8) ins
  | INDEX_op_ext16u_i32 => ev1 32 (uint 16) ins
  | INDEX_op_bswap16_i32 => ev_bswap 32 o 16 bswap16 ins cargs
  | INDEX_op_bswap32_i32 => ev_bswap 32 o 32 bswap32 ins cargs
  | INDEX_op_not_i32 => ev1 32 Z.lnot ins
  | INDEX_op_neg_i32 => ev1 32 Z.opp ins
  | INDEX_op_andc_i32 => ev2 32 (fun a b => Z.land a (Z.lnot b)) ins
  | INDEX_op_orc_i32 => ev2 32 (fun a b => Z.lor a (Z.lnot b)) ins
  | INDEX_op_eqv_i32 => ev2 32 (fun a b => Z.lnot (Z.lxor a b)) ins
  | INDEX_op_nand_i32 => ev2 32 (fun a b => Z.lnot (Z.land a b)) ins
  | INDEX_op_nor_i32 => ev2 32 (fun a b => Z.lnot (Z.lor a b)) ins
  | INDEX_op_clz_i32 => ev2 32 (clz_z clz32) ins
  | INDEX_op_ctz_i32 => ev2 32 (clz_z ctz32) ins
  | INDEX_op_ctpop_i32 => ev1 32 ctpop32 ins
  | INDEX_op_extrl_i64_i32 => ev1 64 (fun a => a) ins
  | INDEX_op_extrh_i64_i32 => ev1 64 (fun a => Z.shiftr a 32) ins
  | _ => None
  end.

Definition eval_i64 (o : TCGOpcode) (ins cargs : list Z) : option (list Z) :=
  match o with
  | INDEX_op_mov_i64 => ev1 64 (fun a => a) ins
  | INDEX_op_setcond_i64 => ev_cond 64 b2z ins cargs
  | INDEX_op_negsetcond_i64 => ev_cond 64 (fun b => - b2z b) ins cargs
  | INDEX_op_movcond_i64 => ev_movcond 64 ins cargs
  | INDEX_op_add_i64 => ev2 64 Z.add ins
  | INDEX_op_sub_i64 => ev2 64 Z.sub ins
  | INDEX_op_mul_i64 => ev2 64 Z.mul ins
  | INDEX_op_div_i64 => ev_sdiv 64 Z.quot ins
  | INDEX_op_divu_i64 => ev_udiv 64 Z.div ins
  | INDEX_op_rem_i64 => ev_sdiv 64 Z.rem ins
  | INDEX_op_remu_i64 => ev_udiv 64 Z.modulo ins
  | INDEX_op_div2_i64 => ev_div2 64 ins
  | INDEX_op_divu2_i64 => ev_divu2 64 ins
  | INDEX_op_and_i64 => ev2 64 Z.land ins
  | INDEX_op_or_i64 => ev2 64 Z.lor ins
  | INDEX_op_xor_i64 => ev2 64 Z.lxor ins
  | INDEX_op_shl_i64 => ev2 64 (shift_w 64 o Z.shiftl) ins
  | INDEX_op_shr_i64 => ev2 64 (shift_w 64 o Z.shiftr) ins
  | INDEX_op_sar_i64 => ev2 64 (shift_w 64 o (sar_w 64)) ins
  | INDEX_op_rotl_i64 => ev2 64 (shift_w 64 o rol64) ins
  | INDEX_op_rotr_i64 => ev2 64 (shift_w 64 o ror64) ins
  | INDEX_op_deposit_i64 => ev_deposit 64 ins cargs
  | INDEX_op_extract_i64 => ev_extract 64 ins cargs
  | INDEX_op_sextract_i64 => ev_sextract 64 ins cargs
  | INDEX_op_extract2_i64 => ev_extract2 64 ins cargs
  | INDEX_op_ext_i32_i64 => ev1 32 (sint 32) ins
  | INDEX_op_extu_i32_i64 => ev1 32 (fun a => a) ins
  | INDEX_op_ext8s_i64 => ev1 64 (sint 8) ins
  | INDEX_op_ext16s_i64 => ev1 64 (sint 16) ins
  | INDEX_op_ext32s_i64 => ev1 64 (sint 32) ins
  | INDEX_op_ext8u_i64 => ev1 64 (uint 8) ins
  | INDEX_op_ext16u_i64 => ev1 64 (uint 16) ins
  | INDEX_op_ext32u_i64 => ev1 64 (uint 32) ins
  | INDEX_op_bswap16_i64 => ev_bswap 64 o 16 bswap16 ins cargs
  | INDEX_op_bswap32_i64 => ev_bswap 64 o 32 bswap32 ins cargs
  | INDEX_op_bswap64_i64 => ev_bswap 64 o 64 bswap64 ins cargs
  | INDEX_op_not_i64 => ev1 64 Z.lnot ins
  | INDEX_op_neg_i64 => ev1 64 Z.opp ins
  | INDEX_op_andc_i64 => ev2 64 (fun a b => Z.land a (Z.lnot b)) ins
  | INDEX_op_orc_i64 => ev2 64 (fun a b => Z.lor a (Z.lnot b)) ins
  | INDEX_op_eqv_i64 => ev2 64 (fun a b => Z.lnot (Z.lxor a b)) ins
  | INDEX_op_nand_i64 => ev2 64 (fun a b => Z.lnot (Z.land a b)) ins
  | INDEX_op_nor_i64 => ev2 64 (fun a b => Z.lnot (Z.lor a b)) ins
  | INDEX_op_clz_i64 => ev2 64 (clz_z clz64) ins
  | INDEX_op_ctz_i64 => ev2 64 (clz_z ctz64) ins
  | INDEX_op_ctpop_i64 => ev1 64 ctpop64 ins
  | INDEX_op_add2_i64 => ev_add2 64 Z.add ins
  | INDEX_op_sub2_i64 => ev_add2 64 Z.sub ins
  | INDEX_op_mulu2_i64 =>
      match ins with [a; b] => Some (split2 64 (uint 64 a * uint 64 b)) | _ => None end
  | INDEX_op_muls2_i64 =>
      match ins with [a; b] => Some (split2 64 (sint 64 a * sint 64 b)) | _ => None end
  | INDEX_op_muluh_i64 => ev2 64 (fun a b => Z.shiftr (a * b) 64) ins
  | INDEX_op_mulsh_i64 => ev2 64 (fun a b => Z.shiftr (sint 64 a * sint 64 b) 64) ins
  | _ => None
  end.

End Eval.

(** ** The machine *)

(** A value per temporary and the bytes of the host memory. *)
Record mstate := {
  regs : Z -> Z;
  mem : Z -> Z;
}.

Definition set_reg (st : mstate) (t v : Z) : mstate :=
  {| regs := <[t := v]> (regs st); mem := mem st |}.

(** How control leaves an op. *)
Inductive result :=
| Fall (st : mstate)
| Jump (label : Z) (st : mstate)
| ExitTb (v : Z) (st : mstate)
| GotoTb (idx : Z) (st : mstate)
| GotoPtr (p : Z) (st : mstate)
| Undef.

Definition is_const (ts : TCGTemp) : bool :=
  match kind ts with TEMP_CONST => true | _ => false end.

(** The value of a temporary. *)
Definition rd (c : TempState) (st : mstate) (t : Z) : Z :=
  if is_const (temps c t) then val (temps c t) else regs st t.

Section Machine.
Context `{T : TcgTarget} `{Orc : Oracle} `{Ov : Overshift}.

(** Writing a [w]-bit result, with the unspecified upper bits [j]. *)
Definition word_of (w v j : Z) : Z := if w =? 32 then uint 32 v + j * 2 ^ 32 else uint 64 v.

Fixpoint write_outs (c : TempState) (st : mstate) (w j : Z) (outs vs : list Z) : option mstate :=
  match outs, vs with
  | [], [] => Some st
  | t :: outs', v :: vs' =>
      if is_const (temps c t) then None
      else write_outs c (set_reg st t (word_of w v j)) w j outs' vs'
  | _, _ => None
  end.

Definition fall (r : option mstate) : result :=
  match r with Some st => Fall st | None => Undef end.

(** The operands of an op, by the counts of its definition. *)
Definition op_outs (op : TCGOp) : list Z :=
  take (nb_oargs (tcg_op_defs (opc op))) (args op).
Definition op_ins (op : TCGOp) : list Z :=
  take (nb_iargs (tcg_op_defs (opc op))) (drop (nb_oargs (tcg_op_defs (opc op))) (args op)).
Definition op_cargs (op : TCGOp) : list Z :=
  drop (nb_oargs (tcg_op_defs (opc op)) + nb_iargs (tcg_op_defs (opc op))) (args op).

Definition exec_pure (c : TempState) (op : TCGOp) (st : mstate) : result :=
  let ins := map (rd c st) (op_ins op) in
  match eval_i32 (opc op) ins (op_cargs op) with
  | Some vs => fall (write_outs c st 32 (junk (opc op) ins) (op_outs op) vs)
  | None =>
      match eval_i64 (opc op) ins (op_cargs op) with
      | Some vs => fall (write_outs c st 64 0 (op_outs op) vs)
      | None => Undef
      end
  end.

(** *** Host memory *)

Fixpoint load_be (m : Z -> Z) (a : Z) (n : nat) : Z :=
  match n with
  | O => 0
  | S n' => uint 8 (m a) * 2 ^ (8 * Z.of_nat n') + load_be m (a + 1) n'
  end.

Fixpoint store_be (m : Z -> Z) (a v : Z) (n : nat) : Z -> Z :=
  match n with
  | O => m
  | S n' => store_be (<[a := uint 8 (Z.shiftr v (8 * Z.of_nat n'))]> m) (a + 1) v n'
  end.

Definition load (m : Z -> Z) (a : Z) (n : nat) : Z :=
  if HOST_BIG_ENDIAN then load_be m a n else load_le m a n.
Definition store (m : Z -> Z) (a v : Z) (n : nat) : Z -> Z :=
  if HOST_BIG_ENDIAN then store_be m a v n else store_le m a v n.

(** The address [base + offset]. *)
Definition host_addr (c : TempState) (st : mstate) (base offset : Z) : Z :=
  uint UINTPTR_BITS (rd c st base + sint TCG_TARGET_REG_BITS offset).

Definition exec_ld (c : TempState) (op : TCGOp) (st : mstate) (w : Z) (n : nat) (ext : Z -> Z) : result :=
  match args op with
  | [t; base; off] =>
      fall (write_outs c st w (junk (opc op) [rd c st base])
              [t] [ext (load (mem st) (host_addr c st base off) n)])
  | _ => Undef
  end.

Definition exec_st (c : TempState) (op : TCGOp) (st : mstate) (n : nat) : result :=
  match args op with
  | [t; base; off] =>
      Fall {| regs := regs st; mem := store (mem st) (host_addr c st base off) (rd c st t) n |}
  | _ => Undef
  end.

(** *** Calls *)

(** The parameter values of a helper from the words of the op; a 64-bit
    parameter takes two words of a 32-bit host, in host order. *)
Fixpoint param_values (fuel : nat) (mask : Z) (ws : list Z) : option (list Z) :=
  if mask =? 0 then match ws with [] => Some [] | _ => None end
  else match fuel with
       | O => None
       | S fuel' =>
           match typecode_type (Z.land mask 7), ws with
           | Some TCG_TYPE_I64, w0 :: ws' =>
               if TCG_TARGET_REG_BITS =? 32 then
                 match ws' with
                 | w1 :: ws'' =>
                     let v := if HOST_BIG_ENDIAN then uint 32 w0 * 2 ^ 32 + uint 32 w1
                              else uint 32 w1 * 2 ^ 32 + uint 32 w0 in
                     option_map (cons v) (param_values fuel' (Z.shiftr mask 3) ws'')
                 | [] => None
                 end
               else option_map (cons w0) (param_values fuel' (Z.shiftr mask 3) ws')
           | Some TCG_TYPE_I32, w0 :: ws' =>
               option_map (cons w0) (param_values fuel' (Z.shiftr mask 3) ws')
           | _, _ => None
           end
       end.

(** The words a result is returned in, and their width. *)
Definition ret_words (typecode v : Z) : Z * list Z :=
  match typecode_type typecode with
  | Some TCG_TYPE_I64 =>
      if TCG_TARGET_REG_BITS =? 32 then
        (32, if HOST_BIG_ENDIAN then [Z.shiftr v 32; v] else [v; Z.shiftr v 32])
      else (64, [v])
  | _ => (32, [v])
  end.

Definition exec_call (c : TempState) (op : TCGOp) (st : mstate) : result :=
  let no := Z.to_nat (TCGOP_CALLO op) in
  let ni := Z.to_nat (TCGOP_CALLI op) in
  let outs := take no (args op) in
  let ws := map (rd c st) (take ni (drop no (args op))) in
  match drop (no + ni) (args op) with
  | [code; _] =>
      match helper_of_code code with
      | Some h =>
          match param_values 10 (Z.shiftr (typemask h) 3) ws with
          | Some vs =>
              match helper_eval lookup_tb_ptr h vs with
              | Some v =>
                  let '(w, rs) := ret_words (Z.land (typemask h) 7) v in
                  fall (write_outs c st w (junk (opc op) ws) outs rs)
              | None => Undef
              end
          | None => Undef
          end
      | None => Undef
      end
  | _ => Undef
  end.

(** *** Ops and lists of ops *)

Definition exec_brcond (c : TempState) (op : TCGOp) (st : mstate) (w : Z) : result :=
  match args op with
  | [a; b; cond; l] =>
      match cond_eval w cond (rd c st a) (rd c st b) with
      | Some true => Jump l st
      | Some false => Fall st
      | None => Undef
      end
  | _ => Undef
  end.

Definition exec_brcond2 (c : TempState) (op : TCGOp) (st : mstate) : result :=
  match args op with
  | [al; ah; bl; bh; cond; l] =>
      match cond_eval 64 cond (uint 32 (rd c st ah) * 2 ^ 32 + uint 32 (rd c st al))
                              (uint 32 (rd c st bh) * 2 ^ 32 + uint 32 (rd c st bl)) with
      | Some true => Jump l st
      | Some false => Fall st
      | None => Undef
      end
  | _ => Undef
  end.

Definition exec_op (c : TempState) (op : TCGOp) (st : mstate) : result :=
  match opc op with
  | INDEX_op_discard =>
      match args op with
      | [t] => fall (write_outs c st 64 0 [t] [junk INDEX_op_discard [t]])
      | _ => Undef
      end
  | INDEX_op_set_label | INDEX_op_mb | INDEX_op_insn_start
  | INDEX_op_plugin_cb_start | INDEX_op_plugin_cb_end => Fall st
  | INDEX_op_call => exec_call c op st
  | INDEX_op_br => match args op with [l] => Jump l st | _ => Undef end
  | INDEX_op_brcond_i32 => exec_brcond c op st 32
  | INDEX_op_brcond_i64 => exec_brcond c op st 64
  | INDEX_op_brcond2_i32 => exec_brcond2 c op st
  | INDEX_op_exit_tb => match args op with [v] => ExitTb v st | _ => Undef end
  | INDEX_op_goto_tb => match args op with [i] => GotoTb i st | _ => Undef end
  | INDEX_op_goto_ptr => match args op with [t] => GotoPtr (rd c st t) st | _ => Undef end
  | INDEX_op_ld8u_i32 => exec_ld c op st 32 1 (uint 8)
  | INDEX_op_ld8s_i32 => exec_ld c op st 32 1 (sint 8)
  | INDEX_op_ld16u_i32 => exec_ld c op st 32 2 (uint 16)
  | INDEX_op_ld16s_i32 => exec_ld c op st 32 2 (sint 16)
  | INDEX_op_ld_i32 => exec_ld c op st 32 4 (uint 32)
  | INDEX_op_st8_i32 => exec_st c op st 1
  | INDEX_op_st16_i32 => exec_st c op st 2
  | INDEX_op_st_i32 => exec_st c op st 4
  | INDEX_op_ld8u_i64 => exec_ld c op st 64 1 (uint 8)
  | INDEX_op_ld8s_i64 => exec_ld c op st 64 1 (sint 8)
  | INDEX_op_ld16u_i64 => exec_ld c op st 64 2 (uint 16)
  | INDEX_op_ld16s_i64 => exec_ld c op st 64 2 (sint 16)
  | INDEX_op_ld32u_i64 => exec_ld c op st 64 4 (uint 32)
  | INDEX_op_ld32s_i64 => exec_ld c op st 64 4 (sint 32)
  | INDEX_op_ld_i64 => exec_ld c op st 64 8 (uint 64)
  | INDEX_op_st8_i64 => exec_st c op st 1
  | INDEX_op_st16_i64 => exec_st c op st 2
  | INDEX_op_st32_i64 => exec_st c op st 4
  | INDEX_op_st_i64 => exec_st c op st 8
  | _ => exec_pure c op st
  end.

Fixpoint run (c : TempState) (l : list TCGOp) (st : mstate) : result :=
  match l with
  | [] => Fall st
  | op :: l' =>
      match exec_op c op st with
      | Fall st' => run c l' st'
      | r => r
      end
  end.

End Machine.
