(* ===== verification/TcgOp32.v ===== *)
(** * 32-bit operations of tcg/tcg-op.c

    The [tcg_gen_*_i32] functions that do not go through 64-bit code.  Where
    the C file calls a function defined later and the calls form a cycle, the
    call goes through [Forward]; [TcgOpAll] ties the knot. *)

From Stdlib Require Import ZArith Lia Bool.
From stdpp Require Import base numbers functions list gmap.
From S2P Require Import Prelude.
From S2P Require Import Bytes.
From S2P Require Import Bitops.
From S2P Require Import TcgCond.
From S2P Require Import TcgOpc.
From S2P Require Import TcgCtx.
From S2P Require Import TcgHelpers.
From S2P Require Import TcgGen.
From S2P Require Import TcgSem.

Local Open Scope Z_scope.
Local Open Scope gen_scope.

(** Functions that tcg/tcg-op.c calls before it defines them, and that call
    back.  No call goes round a cycle twice: which function is reached depends
    on what the target supports. *)
Class Forward := {
  fwd_deposit_i32 : Z -> Z -> Z -> Z -> Z -> Gen unit;
  fwd_deposit_i64 : Z -> Z -> Z -> Z -> Z -> Gen unit;
  fwd_movi_i64 : Z -> Z -> Gen unit;
  fwd_add2_i32 : Z -> Z -> Z -> Z -> Z -> Z -> Gen unit;
  fwd_sub2_i32 : Z -> Z -> Z -> Z -> Z -> Z -> Gen unit;
  fwd_mulu2_i32 : Z -> Z -> Z -> Z -> Gen unit;
  fwd_ctpop_i32 : Z -> Z -> Gen unit;
}.

Section I32.
Context `{T : TcgTarget} `{F : Forward}.

(** ** Arithmetic *)

Definition tcg_gen_add_i32 (ret arg1 arg2 : Z) : Gen unit :=
  tcg_gen_op3_i32 INDEX_op_add_i32 ret arg1 arg2.

Definition tcg_gen_addi_i32 (ret arg1 arg2 : Z) : Gen unit :=
  let arg2 := sint 32 arg2 in
  if arg2 =? 0 then tcg_gen_mov_i32 ret arg1
  else k <- tcg_constant_i32 arg2;; tcg_gen_add_i32 ret arg1 k.

Definition tcg_gen_sub_i32 (ret arg1 arg2 : Z) : Gen unit :=
  tcg_gen_op3_i32 INDEX_op_sub_i32 ret arg1 arg2.

Definition tcg_gen_neg_i32 (ret arg : Z) : Gen unit :=
  tcg_gen_op2_i32 INDEX_op_neg_i32 ret arg.

Definition tcg_gen_subfi_i32 (ret arg1 arg2 : Z) : Gen unit :=
  let arg1 := sint 32 arg1 in
  if arg1 =? 0 then tcg_gen_neg_i32 ret arg2
  else k <- tcg_constant_i32 arg1;; tcg_gen_sub_i32 ret k arg2.

Definition tcg_gen_subi_i32 (ret arg1 arg2 : Z) : Gen unit :=
  let arg2 := sint 32 arg2 in
  tcg_gen_addi_i32 ret arg1 (- arg2).

(** ** Bitwise operations *)

Definition tcg_gen_and_i32 (ret arg1 arg2 : Z) : Gen unit :=
  tcg_gen_op3_i32 INDEX_op_and_i32 ret arg1 arg2.

Definition tcg_gen_andi_i32 (ret arg1 arg2 : Z) : Gen unit :=
  let arg2 := sint 32 arg2 in
  if arg2 =? 0 then tcg_gen_movi_i32 ret 0
  else if arg2 =? -1 then tcg_gen_mov_i32 ret arg1
  else if (arg2 =? 0xff) && TCG_TARGET_HAS_ext8u_i32 then
    tcg_gen_op2_i32 INDEX_op_ext8u_i32 ret arg1
  else if (arg2 =? 0xffff) && TCG_TARGET_HAS_ext16u_i32 then
    tcg_gen_op2_i32 INDEX_op_ext16u_i32 ret arg1
  else k <- tcg_constant_i32 arg2;; tcg_gen_and_i32 ret arg1 k.

Definition tcg_gen_or_i32 (ret arg1 arg2 : Z) : Gen unit :=
  tcg_gen_op3_i32 INDEX_op_or_i32 ret arg1 arg2.

Definition tcg_gen_ori_i32 (ret arg1 arg2 : Z) : Gen unit :=
  let arg2 := sint 32 arg2 in
  if arg2 =? -1 then tcg_gen_movi_i32 ret (-1)
  else if arg2 =? 0 then tcg_gen_mov_i32 ret arg1
  else k <- tcg_constant_i32 arg2;; tcg_gen_or_i32 ret arg1 k.

Definition tcg_gen_xor_i32 (ret arg1 arg2 : Z) : Gen unit :=
  tcg_gen_op3_i32 INDEX_op_xor_i32 ret arg1 arg2.

Definition tcg_gen_xori_i32 (ret arg1 arg2 : Z) : Gen unit :=
  let arg2 := sint 32 arg2 in
  if arg2 =? 0 then tcg_gen_mov_i32 ret arg1
  else if (arg2 =? -1) && TCG_TARGET_HAS_not_i32 then
    tcg_gen_op2_i32 INDEX_op_not_i32 ret arg1
  else k <- tcg_constant_i32 arg2;; tcg_gen_xor_i32 ret arg1 k.

Definition tcg_gen_not_i32 (ret arg : Z) : Gen unit :=
  if TCG_TARGET_HAS_not_i32 then tcg_gen_op2_i32 INDEX_op_not_i32 ret arg
  else tcg_gen_xori_i32 ret arg (-1).

Definition tcg_gen_andc_i32 (ret arg1 arg2 : Z) : Gen unit :=
  if TCG_TARGET_HAS_andc_i32 then tcg_gen_op3_i32 INDEX_op_andc_i32 ret arg1 arg2
  else
    t0 <- tcg_temp_ebb_new_i32;;
    tcg_gen_not_i32 t0 arg2;;
    tcg_gen_and_i32 ret arg1 t0;;
    tcg_temp_free_i32 t0.

Definition tcg_gen_eqv_i32 (ret arg1 arg2 : Z) : Gen unit :=
  if TCG_TARGET_HAS_eqv_i32 then tcg_gen_op3_i32 INDEX_op_eqv_i32 ret arg1 arg2
  else
    tcg_gen_xor_i32 ret arg1 arg2;;
    tcg_gen_not_i32 ret ret.

Definition tcg_gen_nand_i32 (ret arg1 arg2 : Z) : Gen unit :=
  if TCG_TARGET_HAS_nand_i32 then tcg_gen_op3_i32 INDEX_op_nand_i32 ret arg1 arg2
  else
    tcg_gen_and_i32 ret arg1 arg2;;
    tcg_gen_not_i32 ret ret.

Definition tcg_gen_nor_i32 (ret arg1 arg2 : Z) : Gen unit :=
  if TCG_TARGET_HAS_nor_i32 then tcg_gen_op3_i32 INDEX_op_nor_i32 ret arg1 arg2
  else
    tcg_gen_or_i32 ret arg1 arg2;;
    tcg_gen_not_i32 ret ret.

Definition tcg_gen_orc_i32 (ret arg1 arg2 : Z) : Gen unit :=
  if TCG_TARGET_HAS_orc_i32 then tcg_gen_op3_i32 INDEX_op_orc_i32 ret arg1 arg2
  else
    t0 <- tcg_temp_ebb_new_i32;;
    tcg_gen_not_i32 t0 arg2;;
    tcg_gen_or_i32 ret arg1 t0;;
    tcg_temp_free_i32 t0.

(** ** Conditions *)

Definition tcg_gen_brcond_i32 (cond arg1 arg2 l : Z) : Gen unit :=
  if cond =? TCG_COND_ALWAYS then tcg_gen_br l
  else if negb (cond =? TCG_COND_NEVER) then
    tcg_gen_op4ii_i32 INDEX_op_brcond_i32 arg1 arg2 cond l;;
    add_last_as_label_use l
  else ret_ tt.

Definition tcg_gen_brcondi_i32 (cond arg1 arg2 l : Z) : Gen unit :=
  let arg2 := sint 32 arg2 in
  if cond =? TCG_COND_ALWAYS then tcg_gen_br l
  else if negb (cond =? TCG_COND_NEVER) then
    k <- tcg_constant_i32 arg2;; tcg_gen_brcond_i32 cond arg1 k l
  else ret_ tt.

Definition tcg_gen_setcond_i32 (cond ret arg1 arg2 : Z) : Gen unit :=
  if cond =? TCG_COND_ALWAYS then tcg_gen_movi_i32 ret 1
  else if cond =? TCG_COND_NEVER then tcg_gen_movi_i32 ret 0
  else tcg_gen_op4i_i32 INDEX_op_setcond_i32 ret arg1 arg2 cond.

Definition tcg_gen_setcondi_i32 (cond ret arg1 arg2 : Z) : Gen unit :=
  let arg2 := sint 32 arg2 in
  k <- tcg_constant_i32 arg2;; tcg_gen_setcond_i32 cond ret arg1 k.

Definition tcg_gen_negsetcond_i32 (cond ret arg1 arg2 : Z) : Gen unit :=
  if cond =? TCG_COND_ALWAYS then tcg_gen_movi_i32 ret (-1)
  else if cond =? TCG_COND_NEVER then tcg_gen_movi_i32 ret 0
  else if TCG_TARGET_HAS_negsetcond_i32 then
    tcg_gen_op4i_i32 INDEX_op_negsetcond_i32 ret arg1 arg2 cond
  else
    tcg_gen_setcond_i32 cond ret arg1 arg2;;
    tcg_gen_neg_i32 ret ret.

Definition tcg_gen_negsetcondi_i32 (cond ret arg1 arg2 : Z) : Gen unit :=
  let arg2 := sint 32 arg2 in
  k <- tcg_constant_i32 arg2;; tcg_gen_negsetcond_i32 cond ret arg1 k.

Definition tcg_gen_movcond_i32 (cond ret c1 c2 v1 v2 : Z) : Gen unit :=
  if cond =? TCG_COND_ALWAYS then tcg_gen_mov_i32 ret v1
  else if cond =? TCG_COND_NEVER then tcg_gen_mov_i32 ret v2
  else tcg_gen_op6i_i32 INDEX_op_movcond_i32 ret c1 c2 v1 v2 cond.

Definition tcg_gen_smin_i32 (ret a b : Z) : Gen unit := tcg_gen_movcond_i32 TCG_COND_LT ret a b a b.
Definition tcg_gen_umin_i32 (ret a b : Z) : Gen unit := tcg_gen_movcond_i32 TCG_COND_LTU ret a b a b.
Definition tcg_gen_smax_i32 (ret a b : Z) : Gen unit := tcg_gen_movcond_i32 TCG_COND_LT ret a b b a.
Definition tcg_gen_umax_i32 (ret a b : Z) : Gen unit := tcg_gen_movcond_i32 TCG_COND_LTU ret a b b a.

Definition tcg_gen_abs_i32 (ret a : Z) : Gen unit :=
  t <- tcg_temp_ebb_new_i32;;
  tcg_gen_sari_i32 t a 31;;
  tcg_gen_xor_i32 ret a t;;
  tcg_gen_sub_i32 ret ret t;;
  tcg_temp_free_i32 t.

(** ** Multiplication and division *)

Definition tcg_gen_mul_i32 (ret arg1 arg2 : Z) : Gen unit :=
  tcg_gen_op3_i32 INDEX_op_mul_i32 ret arg1 arg2.

(** [is_power_of_2] takes its argument as 64 bits. *)
Definition tcg_gen_muli_i32 (ret arg1 arg2 : Z) : Gen unit :=
  let arg2 := sint 32 arg2 in
  if arg2 =? 0 then tcg_gen_movi_i32 ret 0
  else if is_power_of_2 arg2 then tcg_gen_shli_i32 ret arg1 (ctz32 arg2)
  else k <- tcg_constant_i32 arg2;; tcg_gen_mul_i32 ret arg1 k.

Definition tcg_gen_div_i32 (ret arg1 arg2 : Z) : Gen unit :=
  if TCG_TARGET_HAS_div_i32 then tcg_gen_op3_i32 INDEX_op_div_i32 ret arg1 arg2
  else if TCG_TARGET_HAS_div2_i32 then
    t0 <- tcg_temp_ebb_new_i32;;
    tcg_gen_sari_i32 t0 arg1 31;;
    tcg_gen_op5_i32 INDEX_op_div2_i32 ret t0 arg1 t0 arg2;;
    tcg_temp_free_i32 t0
  else gen_helper_2 HELPER_div_i32 ret arg1 arg2.

Definition tcg_gen_rem_i32 (ret arg1 arg2 : Z) : Gen unit :=
  if TCG_TARGET_HAS_rem_i32 then tcg_gen_op3_i32 INDEX_op_rem_i32 ret arg1 arg2
  else if TCG_TARGET_HAS_div_i32 then
    t0 <- tcg_temp_ebb_new_i32;;
    tcg_gen_op3_i32 INDEX_op_div_i32 t0 arg1 arg2;;
    tcg_gen_mul_i32 t0 t0 arg2;;
    tcg_gen_sub_i32 ret arg1 t0;;
    tcg_temp_free_i32 t0
  else if TCG_TARGET_HAS_div2_i32 then
    t0 <- tcg_temp_ebb_new_i32;;
    tcg_gen_sari_i32 t0 arg1 31;;
    tcg_gen_op5_i32 INDEX_op_div2_i32 t0 ret arg1 t0 arg2;;
    tcg_temp_free_i32 t0
  else gen_helper_2 HELPER_rem_i32 ret arg1 arg2.

Definition tcg_gen_divu_i32 (ret arg1 arg2 : Z) : Gen unit :=
  if TCG_TARGET_HAS_div_i32 then tcg_gen_op3_i32 INDEX_op_divu_i32 ret arg1 arg2
  else if TCG_TARGET_HAS_div2_i32 then
    t0 <- tcg_temp_ebb_new_i32;;
    zero <- tcg_constant_i32 0;;
    tcg_gen_op5_i32 INDEX_op_divu2_i32 ret t0 arg1 zero arg2;;
    tcg_temp_free_i32 t0
  else gen_helper_2 HELPER_divu_i32 ret arg1 arg2.

Definition tcg_gen_remu_i32 (ret arg1 arg2 : Z) : Gen unit :=
  if TCG_TARGET_HAS_rem_i32 then tcg_gen_op3_i32 INDEX_op_remu_i32 ret arg1 arg2
  else if TCG_TARGET_HAS_div_i32 then
    t0 <- tcg_temp_ebb_new_i32;;
    tcg_gen_op3_i32 INDEX_op_divu_i32 t0 arg1 arg2;;
    tcg_gen_mul_i32 t0 t0 arg2;;
    tcg_gen_sub_i32 ret arg1 t0;;
    tcg_temp_free_i32 t0
  else if TCG_TARGET_HAS_div2_i32 then
    t0 <- tcg_temp_ebb_new_i32;;
    zero <- tcg_constant_i32 0;;
    tcg_gen_op5_i32 INDEX_op_divu2_i32 t0 ret arg1 zero arg2;;
    tcg_temp_free_i32 t0
  else gen_helper_2 HELPER_remu_i32 ret arg1 arg2.

(** ** Rotations *)

Definition tcg_gen_rotl_i32 (ret arg1 arg2 : Z) : Gen unit :=
  if TCG_TARGET_HAS_rot_i32 then tcg_gen_op3_i32 INDEX_op_rotl_i32 ret arg1 arg2
  else
    t0 <- tcg_temp_ebb_new_i32;;
    t1 <- tcg_temp_ebb_new_i32;;
    tcg_gen_shl_i32 t0 arg1 arg2;;
    tcg_gen_subfi_i32 t1 32 arg2;;
    tcg_gen_shr_i32 t1 arg1 t1;;
    tcg_gen_or_i32 ret t0 t1;;
    tcg_temp_free_i32 t0;;
    tcg_temp_free_i32 t1.

Definition tcg_gen_rotli_i32 (ret arg1 arg2 : Z) : Gen unit :=
  let arg2 := sint 32 arg2 in
  tcg_debug_assert ((0 <=? arg2) && (arg2 <? 32));;
  if arg2 =? 0 then tcg_gen_mov_i32 ret arg1
  else if TCG_TARGET_HAS_rot_i32 then
    k <- tcg_constant_i32 arg2;; tcg_gen_rotl_i32 ret arg1 k
  else
    t0 <- tcg_temp_ebb_new_i32;;
    t1 <- tcg_temp_ebb_new_i32;;
    tcg_gen_shli_i32 t0 arg1 arg2;;
    tcg_gen_shri_i32 t1 arg1 (32 - arg2);;
    tcg_gen_or_i32 ret t0 t1;;
    tcg_temp_free_i32 t0;;
    tcg_temp_free_i32 t1.

Definition tcg_gen_rotr_i32 (ret arg1 arg2 : Z) : Gen unit :=
  if TCG_TARGET_HAS_rot_i32 then tcg_gen_op3_i32 INDEX_op_rotr_i32 ret arg1 arg2
  else
    t0 <- tcg_temp_ebb_new_i32;;
    t1 <- tcg_temp_ebb_new_i32;;
    tcg_gen_shr_i32 t0 arg1 arg2;;
    tcg_gen_subfi_i32 t1 32 arg2;;
    tcg_gen_shl_i32 t1 arg1 t1;;
    tcg_gen_or_i32 ret t0 t1;;
    tcg_temp_free_i32 t0;;
    tcg_temp_free_i32 t1.

Definition tcg_gen_rotri_i32 (ret arg1 arg2 : Z) : Gen unit :=
  let arg2 := sint 32 arg2 in
  tcg_debug_assert ((0 <=? arg2) && (arg2 <? 32));;
  if arg2 =? 0 then tcg_gen_mov_i32 ret arg1
  else tcg_gen_rotli_i32 ret arg1 (32 - arg2).

Definition tcg_gen_hswap_i32 (ret arg : Z) : Gen unit := tcg_gen_rotli_i32 ret arg 16.

(** ** Extensions *)

Definition tcg_gen_ext8s_i32 (ret arg : Z) : Gen unit :=
  if TCG_TARGET_HAS_ext8s_i32 then tcg_gen_op2_i32 INDEX_op_ext8s_i32 ret arg
  else
    tcg_gen_shli_i32 ret arg 24;;
    tcg_gen_sari_i32 ret ret 24.

Definition tcg_gen_ext16s_i32 (ret arg : Z) : Gen unit :=
  if TCG_TARGET_HAS_ext16s_i32 then tcg_gen_op2_i32 INDEX_op_ext16s_i32 ret arg
  else
    tcg_gen_shli_i32 ret arg 16;;
    tcg_gen_sari_i32 ret ret 16.

Definition tcg_gen_ext8u_i32 (ret arg : Z) : Gen unit :=
  if TCG_TARGET_HAS_ext8u_i32 then tcg_gen_op2_i32 INDEX_op_ext8u_i32 ret arg
  else tcg_gen_andi_i32 ret arg 0xff.

Definition tcg_gen_ext16u_i32 (ret arg : Z) : Gen unit :=
  if TCG_TARGET_HAS_ext16u_i32 then tcg_gen_op2_i32 INDEX_op_ext16u_i32 ret arg
  else tcg_gen_andi_i32 ret arg 0xffff.

(** ** Bit fields

    The assertions on a field come first; after them no sum of [ofs] and [len]
    wraps around. *)

Definition assert_field (w ofs len : Z) : Gen unit :=
  tcg_debug_assert (ofs <? w);;
  tcg_debug_assert (0 <? len);;
  tcg_debug_assert (len <=? w);;
  tcg_debug_assert (ofs + len <=? w).

Definition field_mask (len : Z) : Z := Z.shiftl 1 len - 1.

Definition tcg_gen_extract2_i32 (ret al ah ofs : Z) : Gen unit :=
  let ofs := uint 32 ofs in
  tcg_debug_assert (ofs <=? 32);;
  if ofs =? 0 then tcg_gen_mov_i32 ret al
  else if ofs =? 32 then tcg_gen_mov_i32 ret ah
  else if al =? ah then tcg_gen_rotri_i32 ret al ofs
  else if TCG_TARGET_HAS_extract2_i32 then
    tcg_gen_op4i_i32 INDEX_op_extract2_i32 ret al ah ofs
  else
    t0 <- tcg_temp_ebb_new_i32;;
    tcg_gen_shri_i32 t0 al ofs;;
    fwd_deposit_i32 ret t0 ah (32 - ofs) ofs;;
    tcg_temp_free_i32 t0.

(** The part of [tcg_gen_deposit_i32] between the allocation of [t1] and the
    label [done]. *)
Definition deposit_i32_tail (ret arg1 arg2 ofs len t1 : Z) : Gen unit :=
  if TCG_TARGET_HAS_extract2_i32 && (ofs + len =? 32) then
    tcg_gen_shli_i32 t1 arg1 len;;
    tcg_gen_extract2_i32 ret t1 arg2 len
  else if TCG_TARGET_HAS_extract2_i32 && (ofs =? 0) then
    tcg_gen_extract2_i32 ret arg1 arg2 len;;
    tcg_gen_rotli_i32 ret ret len
  else
    let mask := field_mask len in
    (if ofs + len <? 32 then
       tcg_gen_andi_i32 t1 arg2 mask;;
       tcg_gen_shli_i32 t1 t1 ofs
     else tcg_gen_shli_i32 t1 arg2 ofs);;
    tcg_gen_andi_i32 ret arg1 (Z.lnot (uint 32 (Z.shiftl mask ofs)));;
    tcg_gen_or_i32 ret ret t1.

Definition tcg_gen_deposit_i32 (ret arg1 arg2 ofs len : Z) : Gen unit :=
  let ofs := uint 32 ofs in
  let len := uint 32 len in
  assert_field 32 ofs len;;
  if len =? 32 then tcg_gen_mov_i32 ret arg2
  else if TCG_TARGET_HAS_deposit_i32 && TCG_TARGET_deposit_i32_valid ofs len then
    tcg_gen_op5ii_i32 INDEX_op_deposit_i32 ret arg1 arg2 ofs len
  else
    t1 <- tcg_temp_ebb_new_i32;;
    deposit_i32_tail ret arg1 arg2 ofs len t1;;
    tcg_temp_free_i32 t1.

Definition tcg_gen_deposit_z_i32 (ret arg ofs len : Z) : Gen unit :=
  let ofs := uint 32 ofs in
  let len := uint 32 len in
  assert_field 32 ofs len;;
  if ofs + len =? 32 then tcg_gen_shli_i32 ret arg ofs
  else if ofs =? 0 then tcg_gen_andi_i32 ret arg (field_mask len)
  else if TCG_TARGET_HAS_deposit_i32 && TCG_TARGET_deposit_i32_valid ofs len then
    zero <- tcg_constant_i32 0;;
    tcg_gen_op5ii_i32 INDEX_op_deposit_i32 ret zero arg ofs len
  else if (len =? 16) && TCG_TARGET_HAS_ext16u_i32 then
    tcg_gen_ext16u_i32 ret arg;; tcg_gen_shli_i32 ret ret ofs
  else if (len =? 8) && TCG_TARGET_HAS_ext8u_i32 then
    tcg_gen_ext8u_i32 ret arg;; tcg_gen_shli_i32 ret ret ofs
  else if (ofs + len =? 16) && TCG_TARGET_HAS_ext16u_i32 then
    tcg_gen_shli_i32 ret arg ofs;; tcg_gen_ext16u_i32 ret ret
  else if (ofs + len =? 8) && TCG_TARGET_HAS_ext8u_i32 then
    tcg_gen_shli_i32 ret arg ofs;; tcg_gen_ext8u_i32 ret ret
  else
    tcg_gen_andi_i32 ret arg (field_mask len);;
    tcg_gen_shli_i32 ret ret ofs.

Definition tcg_gen_extract_i32 (ret arg ofs len : Z) : Gen unit :=
  let ofs := uint 32 ofs in
  let len := uint 32 len in
  assert_field 32 ofs len;;
  if ofs + len =? 32 then tcg_gen_shri_i32 ret arg (32 - len)
  else if ofs =? 0 then tcg_gen_andi_i32 ret arg (field_mask len)
  else if TCG_TARGET_HAS_extract_i32 && TCG_TARGET_extract_i32_valid ofs len then
    tcg_gen_op4ii_i32 INDEX_op_extract_i32 ret arg ofs len
  else if (ofs + len =? 16) && TCG_TARGET_HAS_ext16u_i32 then
    tcg_gen_ext16u_i32 ret arg;; tcg_gen_shri_i32 ret ret ofs
  else if (ofs + len =? 8) && TCG_TARGET_HAS_ext8u_i32 then
    tcg_gen_ext8u_i32 ret arg;; tcg_gen_shri_i32 ret ret ofs
  else if (1 <=? len) && (len <=? 8) || (len =? 16) then
    tcg_gen_shri_i32 ret arg ofs;;
    tcg_gen_andi_i32 ret ret (field_mask len)
  else
    tcg_gen_shli_i32 ret arg (32 - len - ofs);;
    tcg_gen_shri_i32 ret ret (32 - len).

Definition tcg_gen_sextract_i32 (ret arg ofs len : Z) : Gen unit :=
  let ofs := uint 32 ofs in
  let len := uint 32 len in
  assert_field 32 ofs len;;
  if ofs + len =? 32 then tcg_gen_sari_i32 ret arg (32 - len)
  else if (ofs =? 0) && (len =? 16) then tcg_gen_ext16s_i32 ret arg
  else if (ofs =? 0) && (len =? 8) then tcg_gen_ext8s_i32 ret arg
  else if TCG_TARGET_HAS_sextract_i32 && TCG_TARGET_extract_i32_valid ofs len then
    tcg_gen_op4ii_i32 INDEX_op_sextract_i32 ret arg ofs len
  else if (ofs + len =? 16) && TCG_TARGET_HAS_ext16s_i32 then
    tcg_gen_ext16s_i32 ret arg;; tcg_gen_sari_i32 ret ret ofs
  else if (ofs + len =? 8) && TCG_TARGET_HAS_ext8s_i32 then
    tcg_gen_ext8s_i32 ret arg;; tcg_gen_sari_i32 ret ret ofs
  else if (len =? 16) && TCG_TARGET_HAS_ext16s_i32 then
    tcg_gen_shri_i32 ret arg ofs;; tcg_gen_ext16s_i32 ret ret
  else if (len =? 8) && TCG_TARGET_HAS_ext8s_i32 then
    tcg_gen_shri_i32 ret arg ofs;; tcg_gen_ext8s_i32 ret ret
  else
    tcg_gen_shli_i32 ret arg (32 - len - ofs);;
    tcg_gen_sari_i32 ret ret (32 - len).

(** ** Byte swaps *)

Definition tcg_gen_bswap16_i32 (ret arg flags : Z) : Gen unit :=
  tcg_debug_assert (negb (flag flags TCG_BSWAP_OS) || negb (flag flags TCG_BSWAP_OZ));;
  if TCG_TARGET_HAS_bswap16_i32 then tcg_gen_op3i_i32 INDEX_op_bswap16_i32 ret arg flags
  else
    t0 <- tcg_temp_ebb_new_i32;;
    t1 <- tcg_temp_ebb_new_i32;;
    tcg_gen_shri_i32 t0 arg 8;;
    (if negb (flag flags TCG_BSWAP_IZ) then tcg_gen_ext8u_i32 t0 t0 else ret_ tt);;
    (if flag flags TCG_BSWAP_OS then
       tcg_gen_shli_i32 t1 arg 24;;
       tcg_gen_sari_i32 t1 t1 16
     else if flag flags TCG_BSWAP_OZ then
       tcg_gen_ext8u_i32 t1 arg;;
       tcg_gen_shli_i32 t1 t1 8
     else tcg_gen_shli_i32 t1 arg 8);;
    tcg_gen_or_i32 ret t0 t1;;
    tcg_temp_free_i32 t0;;
    tcg_temp_free_i32 t1.

Definition tcg_gen_bswap32_i32 (ret arg : Z) : Gen unit :=
  if TCG_TARGET_HAS_bswap32_i32 then tcg_gen_op3i_i32 INDEX_op_bswap32_i32 ret arg 0
  else
    t0 <- tcg_temp_ebb_new_i32;;
    t1 <- tcg_temp_ebb_new_i32;;
    t2 <- tcg_constant_i32 0x00ff00ff;;
    tcg_gen_shri_i32 t0 arg 8;;
    tcg_gen_and_i32 t1 arg t2;;
    tcg_gen_and_i32 t0 t0 t2;;
    tcg_gen_shli_i32 t1 t1 8;;
    tcg_gen_or_i32 ret t0 t1;;
    tcg_gen_shri_i32 t0 ret 16;;
    tcg_gen_shli_i32 t1 ret 16;;
    tcg_gen_or_i32 ret t0 t1;;
    tcg_temp_free_i32 t0;;
    tcg_temp_free_i32 t1.

(** ** Loads and stores *)

Definition tcg_gen_ld8u_i32 (ret arg2 offset : Z) : Gen unit :=
  tcg_gen_ldst_op_i32 INDEX_op_ld8u_i32 ret arg2 offset.
Definition tcg_gen_ld8s_i32 (ret arg2 offset : Z) : Gen unit :=
  tcg_gen_ldst_op_i32 INDEX_op_ld8s_i32 ret arg2 offset.
Definition tcg_gen_ld16u_i32 (ret arg2 offset : Z) : Gen unit :=
  tcg_gen_ldst_op_i32 INDEX_op_ld16u_i32 ret arg2 offset.
Definition tcg_gen_ld16s_i32 (ret arg2 offset : Z) : Gen unit :=
  tcg_gen_ldst_op_i32 INDEX_op_ld16s_i32 ret arg2 offset.
Definition tcg_gen_ld_i32 (ret arg2 offset : Z) : Gen unit :=
  tcg_gen_ldst_op_i32 INDEX_op_ld_i32 ret arg2 offset.
Definition tcg_gen_st8_i32 (arg1 arg2 offset : Z) : Gen unit :=
  tcg_gen_ldst_op_i32 INDEX_op_st8_i32 arg1 arg2 offset.
Definition tcg_gen_st16_i32 (arg1 arg2 offset : Z) : Gen unit :=
  tcg_gen_ldst_op_i32 INDEX_op_st16_i32 arg1 arg2 offset.
Definition tcg_gen_st_i32 (arg1 arg2 offset : Z) : Gen unit :=
  tcg_gen_ldst_op_i32 INDEX_op_st_i32 arg1 arg2 offset.

End I32.

(** Calls are found by name. *)
#[global] Typeclasses Opaque
  tcg_gen_add_i32 tcg_gen_addi_i32 tcg_gen_sub_i32 tcg_gen_neg_i32 tcg_gen_subfi_i32
  tcg_gen_subi_i32 tcg_gen_and_i32 tcg_gen_andi_i32 tcg_gen_or_i32 tcg_gen_ori_i32
  tcg_gen_xor_i32 tcg_gen_xori_i32 tcg_gen_not_i32 tcg_gen_andc_i32 tcg_gen_eqv_i32
  tcg_gen_nand_i32 tcg_gen_nor_i32 tcg_gen_orc_i32 tcg_gen_brcond_i32 tcg_gen_brcondi_i32
  tcg_gen_setcond_i32 tcg_gen_setcondi_i32 tcg_gen_negsetcond_i32 tcg_gen_negsetcondi_i32
  tcg_gen_movcond_i32 tcg_gen_smin_i32 tcg_gen_umin_i32 tcg_gen_smax_i32 tcg_gen_umax_i32
  tcg_gen_abs_i32 tcg_gen_mul_i32 tcg_gen_muli_i32 tcg_gen_div_i32 tcg_gen_rem_i32
  tcg_gen_divu_i32 tcg_gen_remu_i32 tcg_gen_rotl_i32 tcg_gen_rotli_i32 tcg_gen_rotr_i32
  tcg_gen_rotri_i32 tcg_gen_hswap_i32 tcg_gen_ext8s_i32 tcg_gen_ext16s_i32 tcg_gen_ext8u_i32
  tcg_gen_ext16u_i32 tcg_gen_extract2_i32 deposit_i32_tail tcg_gen_deposit_i32
  tcg_gen_deposit_z_i32 tcg_gen_extract_i32 tcg_gen_sextract_i32 tcg_gen_bswap16_i32
  tcg_gen_bswap32_i32 tcg_gen_ld8u_i32 tcg_gen_ld8s_i32 tcg_gen_ld16u_i32 tcg_gen_ld16s_i32
  tcg_gen_ld_i32 tcg_gen_st8_i32 tcg_gen_st16_i32 tcg_gen_st_i32.
