(* ===== verification/TcgOp64.v ===== *)
(** * 64-bit operations of tcg/tcg-op.c

    The [tcg_gen_*_i64] functions.  On a host with 32-bit registers a 64-bit
    temporary is a pair, and the functions work on [TCGV_LOW] and
    [TCGV_HIGH]. *)

From Stdlib Require Import ZArith Lia Bool.
From stdpp Require Import base numbers functions list gmap.
From S2P Require Import Prelude.
From S2P Require Import Bytes.
From S2P Require Import Bitops.
From S2P Require Import TcgCond.
From S2P Require Import TcgOpc.
From S2P Require Import TcgCtx.
From S2P Require Import TcgHelpers.
From S2P Require Import TcgGen.
From S2P Require Import TcgSem.
From S2P Require Import TcgOp32.

Local Open Scope Z_scope.
Local Open Scope gen_scope.

Section I64.
Context `{T : TcgTarget} `{F : Forward}.

(** ** Moves *)

Definition tcg_gen_discard_i64 (arg : Z) : Gen unit :=
  if TCG_TARGET_REG_BITS =? 64 then tcg_gen_op1_i64 INDEX_op_discard arg
  else
    tcg_gen_discard_i32 (TCGV_LOW arg);;
    tcg_gen_discard_i32 (TCGV_HIGH arg).

Definition tcg_gen_mov_i64 (ret arg : Z) : Gen unit :=
  if ret =? arg then ret_ tt
  else if TCG_TARGET_REG_BITS =? 64 then tcg_gen_op2_i64 INDEX_op_mov_i64 ret arg
  else
    c <- get_tmp;;
    match kind (temps c arg) with
    | TEMP_CONST => fwd_movi_i64 ret (val (temps c arg))
    | _ =>
        tcg_gen_mov_i32 (TCGV_LOW ret) (TCGV_LOW arg);;
        tcg_gen_mov_i32 (TCGV_HIGH ret) (TCGV_HIGH arg)
    end.

Definition tcg_gen_movi_i64 (ret arg : Z) : Gen unit :=
  let arg := sint 64 arg in
  if TCG_TARGET_REG_BITS =? 64 then k <- tcg_constant_i64 arg;; tcg_gen_mov_i64 ret k
  else
    tcg_gen_movi_i32 (TCGV_LOW ret) arg;;
    tcg_gen_movi_i32 (TCGV_HIGH ret) (Z.shiftr arg 32).

(** ** Loads and stores *)

Definition tcg_gen_ld8u_i64 (ret arg2 offset : Z) : Gen unit :=
  if TCG_TARGET_REG_BITS =? 64 then tcg_gen_ldst_op_i64 INDEX_op_ld8u_i64 ret arg2 offset
  else
    tcg_gen_ld8u_i32 (TCGV_LOW ret) arg2 offset;;
    tcg_gen_movi_i32 (TCGV_HIGH ret) 0.

Definition tcg_gen_ld8s_i64 (ret arg2 offset : Z) : Gen unit :=
  if TCG_TARGET_REG_BITS =? 64 then tcg_gen_ldst_op_i64 INDEX_op_ld8s_i64 ret arg2 offset
  else
    tcg_gen_ld8s_i32 (TCGV_LOW ret) arg2 offset;;
    tcg_gen_sari_i32 (TCGV_HIGH ret) (TCGV_LOW ret) 31.

Definition tcg_gen_ld16u_i64 (ret arg2 offset : Z) : Gen unit :=
  if TCG_TARGET_REG_BITS =? 64 then tcg_gen_ldst_op_i64 INDEX_op_ld16u_i64 ret arg2 offset
  else
    tcg_gen_ld16u_i32 (TCGV_LOW ret) arg2 offset;;
    tcg_gen_movi_i32 (TCGV_HIGH ret) 0.

Definition tcg_gen_ld16s_i64 (ret arg2 offset : Z) : Gen unit :=
  if TCG_TARGET_REG_BITS =? 64 then tcg_gen_ldst_op_i64 INDEX_op_ld16s_i64 ret arg2 offset
  else
    tcg_gen_ld16s_i32 (TCGV_LOW ret) arg2 offset;;
    tcg_gen_sari_i32 (TCGV_HIGH ret) (TCGV_LOW ret) 31.

Definition tcg_gen_ld32u_i64 (ret arg2 offset : Z) : Gen unit :=
  if TCG_TARGET_REG_BITS =? 64 then tcg_gen_ldst_op_i64 INDEX_op_ld32u_i64 ret arg2 offset
  else
    tcg_gen_ld_i32 (TCGV_LOW ret) arg2 offset;;
    tcg_gen_movi_i32 (TCGV_HIGH ret) 0.

Definition tcg_gen_ld32s_i64 (ret arg2 offset : Z) : Gen unit :=
  if TCG_TARGET_REG_BITS =? 64 then tcg_gen_ldst_op_i64 INDEX_op_ld32s_i64 ret arg2 offset
  else
    tcg_gen_ld_i32 (TCGV_LOW ret) arg2 offset;;
    tcg_gen_sari_i32 (TCGV_HIGH ret) (TCGV_LOW ret) 31.

Definition tcg_gen_ld_i64 (ret arg2 offset : Z) : Gen unit :=
  if TCG_TARGET_REG_BITS =? 64 then tcg_gen_ldst_op_i64 INDEX_op_ld_i64 ret arg2 offset
  else if HOST_BIG_ENDIAN then
    tcg_gen_ld_i32 (TCGV_HIGH ret) arg2 offset;;
    tcg_gen_ld_i32 (TCGV_LOW ret) arg2 (offset + 4)
  else
    tcg_gen_ld_i32 (TCGV_LOW ret) arg2 offset;;
    tcg_gen_ld_i32 (TCGV_HIGH ret) arg2 (offset + 4).

Definition tcg_gen_st8_i64 (arg1 arg2 offset : Z) : Gen unit :=
  if TCG_TARGET_REG_BITS =? 64 then tcg_gen_ldst_op_i64 INDEX_op_st8_i64 arg1 arg2 offset
  else tcg_gen_st8_i32 (TCGV_LOW arg1) arg2 offset.

Definition tcg_gen_st16_i64 (arg1 arg2 offset : Z) : Gen unit :=
  if TCG_TARGET_REG_BITS =? 64 then tcg_gen_ldst_op_i64 INDEX_op_st16_i64 arg1 arg2 offset
  else tcg_gen_st16_i32 (TCGV_LOW arg1) arg2 offset.

Definition tcg_gen_st32_i64 (arg1 arg2 offset : Z) : Gen unit :=
  if TCG_TARGET_REG_BITS =? 64 then tcg_gen_ldst_op_i64 INDEX_op_st32_i64 arg1 arg2 offset
  else tcg_gen_st_i32 (TCGV_LOW arg1) arg2 offset.

Definition tcg_gen_st_i64 (arg1 arg2 offset : Z) : Gen unit :=
  if TCG_TARGET_REG_BITS =? 64 then tcg_gen_ldst_op_i64 INDEX_op_st_i64 arg1 arg2 offset
  else if HOST_BIG_ENDIAN then
    tcg_gen_st_i32 (TCGV_HIGH arg1) arg2 offset;;
    tcg_gen_st_i32 (TCGV_LOW arg1) arg2 (offset + 4)
  else
    tcg_gen_st_i32 (TCGV_LOW arg1) arg2 offset;;
    tcg_gen_st_i32 (TCGV_HIGH arg1) arg2 (offset + 4).

(** ** Arithmetic *)

Definition tcg_gen_add_i64 (ret arg1 arg2 : Z) : Gen unit :=
  if TCG_TARGET_REG_BITS =? 64 then tcg_gen_op3_i64 INDEX_op_add_i64 ret arg1 arg2
  else fwd_add2_i32 (TCGV_LOW ret) (TCGV_HIGH ret) (TCGV_LOW arg1) (TCGV_HIGH arg1)
         (TCGV_LOW arg2) (TCGV_HIGH arg2).

Definition tcg_gen_sub_i64 (ret arg1 arg2 : Z) : Gen unit :=
  if TCG_TARGET_REG_BITS =? 64 then tcg_gen_op3_i64 INDEX_op_sub_i64 ret arg1 arg2
  else fwd_sub2_i32 (TCGV_LOW ret) (TCGV_HIGH ret) (TCGV_LOW arg1) (TCGV_HIGH arg1)
         (TCGV_LOW arg2) (TCGV_HIGH arg2).

Definition tcg_gen_and_i64 (ret arg1 arg2 : Z) : Gen unit :=
  if TCG_TARGET_REG_BITS =? 64 then tcg_gen_op3_i64 INDEX_op_and_i64 ret arg1 arg2
  else
    tcg_gen_and_i32 (TCGV_LOW ret) (TCGV_LOW arg1) (TCGV_LOW arg2);;
    tcg_gen_and_i32 (TCGV_HIGH ret) (TCGV_HIGH arg1) (TCGV_HIGH arg2).

Definition tcg_gen_or_i64 (ret arg1 arg2 : Z) : Gen unit :=
  if TCG_TARGET_REG_BITS =? 64 then tcg_gen_op3_i64 INDEX_op_or_i64 ret arg1 arg2
  else
    tcg_gen_or_i32 (TCGV_LOW ret) (TCGV_LOW arg1) (TCGV_LOW arg2);;
    tcg_gen_or_i32 (TCGV_HIGH ret) (TCGV_HIGH arg1) (TCGV_HIGH arg2).

Definition tcg_gen_xor_i64 (ret arg1 arg2 : Z) : Gen unit :=
  if TCG_TARGET_REG_BITS =? 64 then tcg_gen_op3_i64 INDEX_op_xor_i64 ret arg1 arg2
  else
    tcg_gen_xor_i32 (TCGV_LOW ret) (TCGV_LOW arg1) (TCGV_LOW arg2);;
    tcg_gen_xor_i32 (TCGV_HIGH ret) (TCGV_HIGH arg1) (TCGV_HIGH arg2).

Definition tcg_gen_shl_i64 (ret arg1 arg2 : Z) : Gen unit :=
  if TCG_TARGET_REG_BITS =? 64 then tcg_gen_op3_i64 INDEX_op_shl_i64 ret arg1 arg2
  else gen_helper_2 HELPER_shl_i64 ret arg1 arg2.

Definition tcg_gen_shr_i64 (ret arg1 arg2 : Z) : Gen unit :=
  if TCG_TARGET_REG_BITS =? 64 then tcg_gen_op3_i64 INDEX_op_shr_i64 ret arg1 arg2
  else gen_helper_2 HELPER_shr_i64 ret arg1 arg2.

Definition tcg_gen_sar_i64 (ret arg1 arg2 : Z) : Gen unit :=
  if TCG_TARGET_REG_BITS =? 64 then tcg_gen_op3_i64 INDEX_op_sar_i64 ret arg1 arg2
  else gen_helper_2 HELPER_sar_i64 ret arg1 arg2.

Definition tcg_gen_mul_i64 (ret arg1 arg2 : Z) : Gen unit :=
  if TCG_TARGET_REG_BITS =? 64 then tcg_gen_op3_i64 INDEX_op_mul_i64 ret arg1 arg2
  else
    t0 <- tcg_temp_ebb_new_i64;;
    t1 <- tcg_temp_ebb_new_i32;;
    fwd_mulu2_i32 (TCGV_LOW t0) (TCGV_HIGH t0) (TCGV_LOW arg1) (TCGV_LOW arg2);;
    tcg_gen_mul_i32 t1 (TCGV_LOW arg1) (TCGV_HIGH arg2);;
    tcg_gen_add_i32 (TCGV_HIGH t0) (TCGV_HIGH t0) t1;;
    tcg_gen_mul_i32 t1 (TCGV_HIGH arg1) (TCGV_LOW arg2);;
    tcg_gen_add_i32 (TCGV_HIGH t0) (TCGV_HIGH t0) t1;;
    tcg_gen_mov_i64 ret t0;;
    tcg_temp_free_i64 t0;;
    tcg_temp_free_i32 t1.

Definition tcg_gen_addi_i64 (ret arg1 arg2 : Z) : Gen unit :=
  let arg2 := sint 64 arg2 in
  if arg2 =? 0 then tcg_gen_mov_i64 ret arg1
  else if TCG_TARGET_REG_BITS =? 64 then
    k <- tcg_constant_i64 arg2;; tcg_gen_add_i64 ret arg1 k
  else
    kl <- tcg_constant_i32 arg2;;
    kh <- tcg_constant_i32 (Z.shiftr arg2 32);;
    fwd_add2_i32 (TCGV_LOW ret) (TCGV_HIGH ret) (TCGV_LOW arg1) (TCGV_HIGH arg1) kl kh.

Definition tcg_gen_neg_i64 (ret arg : Z) : Gen unit :=
  if TCG_TARGET_REG_BITS =? 64 then tcg_gen_op2_i64 INDEX_op_neg_i64 ret arg
  else
    zero <- tcg_constant_i32 0;;
    fwd_sub2_i32 (TCGV_LOW ret) (TCGV_HIGH ret) zero zero (TCGV_LOW arg) (TCGV_HIGH arg).

Definition tcg_gen_subfi_i64 (ret arg1 arg2 : Z) : Gen unit :=
  let arg1 := sint 64 arg1 in
  if arg1 =? 0 then tcg_gen_neg_i64 ret arg2
  else if TCG_TARGET_REG_BITS =? 64 then
    k <- tcg_constant_i64 arg1;; tcg_gen_sub_i64 ret k arg2
  else
    kl <- tcg_constant_i32 arg1;;
    kh <- tcg_constant_i32 (Z.shiftr arg1 32);;
    fwd_sub2_i32 (TCGV_LOW ret) (TCGV_HIGH ret) kl kh (TCGV_LOW arg2) (TCGV_HIGH arg2).

Definition tcg_gen_subi_i64 (ret arg1 arg2 : Z) : Gen unit :=
  let arg2 := sint 64 arg2 in
  tcg_gen_addi_i64 ret arg1 (- arg2).

(** ** Bitwise operations with an immediate *)

Definition tcg_gen_andi_i64 (ret arg1 arg2 : Z) : Gen unit :=
  let arg2 := sint 64 arg2 in
  if TCG_TARGET_REG_BITS =? 32 then
    tcg_gen_andi_i32 (TCGV_LOW ret) (TCGV_LOW arg1) arg2;;
    tcg_gen_andi_i32 (TCGV_HIGH ret) (TCGV_HIGH arg1) (Z.shiftr arg2 32)
  else if arg2 =? 0 then tcg_gen_movi_i64 ret 0
  else if arg2 =? -1 then tcg_gen_mov_i64 ret arg1
  else if (arg2 =? 0xff) && TCG_TARGET_HAS_ext8u_i64 then
    tcg_gen_op2_i64 INDEX_op_ext8u_i64 ret arg1
  else if (arg2 =? 0xffff) && TCG_TARGET_HAS_ext16u_i64 then
    tcg_gen_op2_i64 INDEX_op_ext16u_i64 ret arg1
  else if (arg2 =? 0xffffffff) && TCG_TARGET_HAS_ext32u_i64 then
    tcg_gen_op2_i64 INDEX_op_ext32u_i64 ret arg1
  else k <- tcg_constant_i64 arg2;; tcg_gen_and_i64 ret arg1 k.

Definition tcg_gen_ori_i64 (ret arg1 arg2 : Z) : Gen unit :=
  let arg2 := sint 64 arg2 in
  if TCG_TARGET_REG_BITS =? 32 then
    tcg_gen_ori_i32 (TCGV_LOW ret) (TCGV_LOW arg1) arg2;;
    tcg_gen_ori_i32 (TCGV_HIGH ret) (TCGV_HIGH arg1) (Z.shiftr arg2 32)
  else if arg2 =? -1 then tcg_gen_movi_i64 ret (-1)
  else if arg2 =? 0 then tcg_gen_mov_i64 ret arg1
  else k <- tcg_constant_i64 arg2;; tcg_gen_or_i64 ret arg1 k.

Definition tcg_gen_xori_i64 (ret arg1 arg2 : Z) : Gen unit :=
  let arg2 := sint 64 arg2 in
  if TCG_TARGET_REG_BITS =? 32 then
    tcg_gen_xori_i32 (TCGV_LOW ret) (TCGV_LOW arg1) arg2;;
    tcg_gen_xori_i32 (TCGV_HIGH ret) (TCGV_HIGH arg1) (Z.shiftr arg2 32)
  else if arg2 =? 0 then tcg_gen_mov_i64 ret arg1
  else if (arg2 =? -1) && TCG_TARGET_HAS_not_i64 then
    tcg_gen_op2_i64 INDEX_op_not_i64 ret arg1
  else k <- tcg_constant_i64 arg2;; tcg_gen_xor_i64 ret arg1 k.

(** ** Shifts by a constant *)

(** The code for 32-bit hosts; [c] is unsigned. *)
Definition tcg_gen_shifti_i64 (ret arg1 c : Z) (right arith : bool) : Gen unit :=
  let c := uint 32 c in
  tcg_debug_assert (c <? 64);;
  if c =? 0 then
    tcg_gen_mov_i32 (TCGV_LOW ret) (TCGV_LOW arg1);;
    tcg_gen_mov_i32 (TCGV_HIGH ret) (TCGV_HIGH arg1)
  else if 32 <=? c then
    let c := c - 32 in
    if right then
      if arith then
        tcg_gen_sari_i32 (TCGV_LOW ret) (TCGV_HIGH arg1) c;;
        tcg_gen_sari_i32 (TCGV_HIGH ret) (TCGV_HIGH arg1) 31
      else
        tcg_gen_shri_i32 (TCGV_LOW ret) (TCGV_HIGH arg1) c;;
        tcg_gen_movi_i32 (TCGV_HIGH ret) 0
    else
      tcg_gen_shli_i32 (TCGV_HIGH ret) (TCGV_LOW arg1) c;;
      tcg_gen_movi_i32 (TCGV_LOW ret) 0
  else if right then
    (if TCG_TARGET_HAS_extract2_i32 then
       tcg_gen_extract2_i32 (TCGV_LOW ret) (TCGV_LOW arg1) (TCGV_HIGH arg1) c
     else
       tcg_gen_shri_i32 (TCGV_LOW ret) (TCGV_LOW arg1) c;;
       tcg_gen_deposit_i32 (TCGV_LOW ret) (TCGV_LOW ret) (TCGV_HIGH arg1) (32 - c) c);;
    (if arith then tcg_gen_sari_i32 (TCGV_HIGH ret) (TCGV_HIGH arg1) c
     else tcg_gen_shri_i32 (TCGV_HIGH ret) (TCGV_HIGH arg1) c)
  else
    (if TCG_TARGET_HAS_extract2_i32 then
       tcg_gen_extract2_i32 (TCGV_HIGH ret) (TCGV_LOW arg1) (TCGV_HIGH arg1) (32 - c)
     else
       t0 <- tcg_temp_ebb_new_i32;;
       tcg_gen_shri_i32 t0 (TCGV_LOW arg1) (32 - c);;
       tcg_gen_deposit_i32 (TCGV_HIGH ret) t0 (TCGV_HIGH arg1) c (32 - c);;
       tcg_temp_free_i32 t0);;
    tcg_gen_shli_i32 (TCGV_LOW ret) (TCGV_LOW arg1) c.

Definition tcg_gen_shli_i64 (ret arg1 arg2 : Z) : Gen unit :=
  let arg2 := sint 64 arg2 in
  tcg_debug_assert ((0 <=? arg2) && (arg2 <? 64));;
  if TCG_TARGET_REG_BITS =? 32 then tcg_gen_shifti_i64 ret arg1 arg2 false false
  else if arg2 =? 0 then tcg_gen_mov_i64 ret arg1
  else k <- tcg_constant_i64 arg2;; tcg_gen_shl_i64 ret arg1 k.

Definition tcg_gen_shri_i64 (ret arg1 arg2 : Z) : Gen unit :=
  let arg2 := sint 64 arg2 in
  tcg_debug_assert ((0 <=? arg2) && (arg2 <? 64));;
  if TCG_TARGET_REG_BITS =? 32 then tcg_gen_shifti_i64 ret arg1 arg2 true false
  else if arg2 =? 0 then tcg_gen_mov_i64 ret arg1
  else k <- tcg_constant_i64 arg2;; tcg_gen_shr_i64 ret arg1 k.

Definition tcg_gen_sari_i64 (ret arg1 arg2 : Z) : Gen unit :=
  let arg2 := sint 64 arg2 in
  tcg_debug_assert ((0 <=? arg2) && (arg2 <? 64));;
  if TCG_TARGET_REG_BITS =? 32 then tcg_gen_shifti_i64 ret arg1 arg2 true true
  else if arg2 =? 0 then tcg_gen_mov_i64 ret arg1
  else k <- tcg_constant_i64 arg2;; tcg_gen_sar_i64 ret arg1 k.

(** ** Conditions *)

Definition tcg_gen_brcond_i64 (cond arg1 arg2 l : Z) : Gen unit :=
  if cond =? TCG_COND_ALWAYS then tcg_gen_br l
  else if negb (cond =? TCG_COND_NEVER) then
    (if TCG_TARGET_REG_BITS =? 32 then
       tcg_gen_op6ii_i32 INDEX_op_brcond2_i32 (TCGV_LOW arg1) (TCGV_HIGH arg1)
         (TCGV_LOW arg2) (TCGV_HIGH arg2) cond l
     else tcg_gen_op4ii_i64 INDEX_op_brcond_i64 arg1 arg2 cond l);;
    add_last_as_label_use l
  else ret_ tt.

Definition tcg_gen_brcondi_i64 (cond arg1 arg2 l : Z) : Gen unit :=
  let arg2 := sint 64 arg2 in
  if TCG_TARGET_REG_BITS =? 64 then
    k <- tcg_constant_i64 arg2;; tcg_gen_brcond_i64 cond arg1 k l
  else if cond =? TCG_COND_ALWAYS then tcg_gen_br l
  else if negb (cond =? TCG_COND_NEVER) then
    kl <- tcg_constant_i32 arg2;;
    kh <- tcg_constant_i32 (Z.shiftr arg2 32);;
    tcg_gen_op6ii_i32 INDEX_op_brcond2_i32 (TCGV_LOW arg1) (TCGV_HIGH arg1) kl kh cond l;;
    add_last_as_label_use l
  else ret_ tt.

Definition tcg_gen_setcond_i64 (cond ret arg1 arg2 : Z) : Gen unit :=
  if cond =? TCG_COND_ALWAYS then tcg_gen_movi_i64 ret 1
  else if cond =? TCG_COND_NEVER then tcg_gen_movi_i64 ret 0
  else if TCG_TARGET_REG_BITS =? 32 then
    tcg_gen_op6i_i32 INDEX_op_setcond2_i32 (TCGV_LOW ret) (TCGV_LOW arg1) (TCGV_HIGH arg1)
      (TCGV_LOW arg2) (TCGV_HIGH arg2) cond;;
    tcg_gen_movi_i32 (TCGV_HIGH ret) 0
  else tcg_gen_op4i_i64 INDEX_op_setcond_i64 ret arg1 arg2 cond.

Definition tcg_gen_setcondi_i64 (cond ret arg1 arg2 : Z) : Gen unit :=
  let arg2 := sint 64 arg2 in
  if TCG_TARGET_REG_BITS =? 64 then
    k <- tcg_constant_i64 arg2;; tcg_gen_setcond_i64 cond ret arg1 k
  else if cond =? TCG_COND_ALWAYS then tcg_gen_movi_i64 ret 1
  else if cond =? TCG_COND_NEVER then tcg_gen_movi_i64 ret 0
  else
    kl <- tcg_constant_i32 arg2;;
    kh <- tcg_constant_i32 (Z.shiftr arg2 32);;
    tcg_gen_op6i_i32 INDEX_op_setcond2_i32 (TCGV_LOW ret) (TCGV_LOW arg1) (TCGV_HIGH arg1) kl kh cond;;
    tcg_gen_movi_i32 (TCGV_HIGH ret) 0.

Definition tcg_gen_negsetcond_i64 (cond ret arg1 arg2 : Z) : Gen unit :=
  if cond =? TCG_COND_ALWAYS then tcg_gen_movi_i64 ret (-1)
  else if cond =? TCG_COND_NEVER then tcg_gen_movi_i64 ret 0
  else if TCG_TARGET_HAS_negsetcond_i64 then
    tcg_gen_op4i_i64 INDEX_op_negsetcond_i64 ret arg1 arg2 cond
  else if TCG_TARGET_REG_BITS =? 32 then
    tcg_gen_op6i_i32 INDEX_op_setcond2_i32 (TCGV_LOW ret) (TCGV_LOW arg1) (TCGV_HIGH arg1)
      (TCGV_LOW arg2) (TCGV_HIGH arg2) cond;;
    tcg_gen_neg_i32 (TCGV_LOW ret) (TCGV_LOW ret);;
    tcg_gen_mov_i32 (TCGV_HIGH ret) (TCGV_LOW ret)
  else
    tcg_gen_setcond_i64 cond ret arg1 arg2;;
    tcg_gen_neg_i64 ret ret.

Definition tcg_gen_negsetcondi_i64 (cond ret arg1 arg2 : Z) : Gen unit :=
  let arg2 := sint 64 arg2 in
  k <- tcg_constant_i64 arg2;; tcg_gen_negsetcond_i64 cond ret arg1 k.

Definition tcg_gen_movcond_i64 (cond ret c1 c2 v1 v2 : Z) : Gen unit :=
  if cond =? TCG_COND_ALWAYS then tcg_gen_mov_i64 ret v1
  else if cond =? TCG_COND_NEVER then tcg_gen_mov_i64 ret v2
  else if TCG_TARGET_REG_BITS =? 64 then
    tcg_gen_op6i_i64 INDEX_op_movcond_i64 ret c1 c2 v1 v2 cond
  else
    t0 <- tcg_temp_ebb_new_i32;;
    zero <- tcg_constant_i32 0;;
    tcg_gen_op6i_i32 INDEX_op_setcond2_i32 t0 (TCGV_LOW c1) (TCGV_HIGH c1)
      (TCGV_LOW c2) (TCGV_HIGH c2) cond;;
    tcg_gen_movcond_i32 TCG_COND_NE (TCGV_LOW ret) t0 zero (TCGV_LOW v1) (TCGV_LOW v2);;
    tcg_gen_movcond_i32 TCG_COND_NE (TCGV_HIGH ret) t0 zero (TCGV_HIGH v1) (TCGV_HIGH v2);;
    tcg_temp_free_i32 t0.

Definition tcg_gen_smin_i64 (ret a b : Z) : Gen unit := tcg_gen_movcond_i64 TCG_COND_LT ret a b a b.
Definition tcg_gen_umin_i64 (ret a b : Z) : Gen unit := tcg_gen_movcond_i64 TCG_COND_LTU ret a b a b.
Definition tcg_gen_smax_i64 (ret a b : Z) : Gen unit := tcg_gen_movcond_i64 TCG_COND_LT ret a b b a.
Definition tcg_gen_umax_i64 (ret a b : Z) : Gen unit := tcg_gen_movcond_i64 TCG_COND_LTU ret a b b a.

Definition tcg_gen_abs_i64 (ret a : Z) : Gen unit :=
  t <- tcg_temp_ebb_new_i64;;
  tcg_gen_sari_i64 t a 63;;
  tcg_gen_xor_i64 ret a t;;
  tcg_gen_sub_i64 ret ret t;;
  tcg_temp_free_i64 t.

(** ** Multiplication and division *)

Definition tcg_gen_muli_i64 (ret arg1 arg2 : Z) : Gen unit :=
  let arg2 := sint 64 arg2 in
  if arg2 =? 0 then tcg_gen_movi_i64 ret 0
  else if is_power_of_2 arg2 then tcg_gen_shli_i64 ret arg1 (ctz64 arg2)
  else k <- tcg_constant_i64 arg2;; tcg_gen_mul_i64 ret arg1 k.

Definition tcg_gen_div_i64 (ret arg1 arg2 : Z) : Gen unit :=
  if TCG_TARGET_HAS_div_i64 then tcg_gen_op3_i64 INDEX_op_div_i64 ret arg1 arg2
  else if TCG_TARGET_HAS_div2_i64 then
    t0 <- tcg_temp_ebb_new_i64;;
    tcg_gen_sari_i64 t0 arg1 63;;
    tcg_gen_op5_i64 INDEX_op_div2_i64 ret t0 arg1 t0 arg2;;
    tcg_temp_free_i64 t0
  else gen_helper_2 HELPER_div_i64 ret arg1 arg2.

Definition tcg_gen_rem_i64 (ret arg1 arg2 : Z) : Gen unit :=
  if TCG_TARGET_HAS_rem_i64 then tcg_gen_op3_i64 INDEX_op_rem_i64 ret arg1 arg2
  else if TCG_TARGET_HAS_div_i64 then
    t0 <- tcg_temp_ebb_new_i64;;
    tcg_gen_op3_i64 INDEX_op_div_i64 t0 arg1 arg2;;
    tcg_gen_mul_i64 t0 t0 arg2;;
    tcg_gen_sub_i64 ret arg1 t0;;
    tcg_temp_free_i64 t0
  else if TCG_TARGET_HAS_div2_i64 then
    t0 <- tcg_temp_ebb_new_i64;;
    tcg_gen_sari_i64 t0 arg1 63;;
    tcg_gen_op5_i64 INDEX_op_div2_i64 t0 ret arg1 t0 arg2;;
    tcg_temp_free_i64 t0
  else gen_helper_2 HELPER_rem_i64 ret arg1 arg2.

Definition tcg_gen_divu_i64 (ret arg1 arg2 : Z) : Gen unit :=
  if TCG_TARGET_HAS_div_i64 then tcg_gen_op3_i64 INDEX_op_divu_i64 ret arg1 arg2
  else if TCG_TARGET_HAS_div2_i64 then
    t0 <- tcg_temp_ebb_new_i64;;
    zero <- tcg_constant_i64 0;;
    tcg_gen_op5_i64 INDEX_op_divu2_i64 ret t0 arg1 zero arg2;;
    tcg_temp_free_i64 t0
  else gen_helper_2 HELPER_divu_i64 ret arg1 arg2.

Definition tcg_gen_remu_i64 (ret arg1 arg2 : Z) : Gen unit :=
  if TCG_TARGET_HAS_rem_i64 then tcg_gen_op3_i64 INDEX_op_remu_i64 ret arg1 arg2
  else if TCG_TARGET_HAS_div_i64 then
    t0 <- tcg_temp_ebb_new_i64;;
    tcg_gen_op3_i64 INDEX_op_divu_i64 t0 arg1 arg2;;
    tcg_gen_mul_i64 t0 t0 arg2;;
    tcg_gen_sub_i64 ret arg1 t0;;
    tcg_temp_free_i64 t0
  else if TCG_TARGET_HAS_div2_i64 then
    t0 <- tcg_temp_ebb_new_i64;;
    zero <- tcg_constant_i64 0;;
    tcg_gen_op5_i64 INDEX_op_divu2_i64 t0 ret arg1 zero arg2;;
    tcg_temp_free_i64 t0
  else gen_helper_2 HELPER_remu_i64 ret arg1 arg2.

(** ** Extensions *)

Definition tcg_gen_ext8s_i64 (ret arg : Z) : Gen unit :=
  if TCG_TARGET_REG_BITS =? 32 then
    tcg_gen_ext8s_i32 (TCGV_LOW ret) (TCGV_LOW arg);;
    tcg_gen_sari_i32 (TCGV_HIGH ret) (TCGV_LOW ret) 31
  else if TCG_TARGET_HAS_ext8s_i64 then tcg_gen_op2_i64 INDEX_op_ext8s_i64 ret arg
  else
    tcg_gen_shli_i64 ret arg 56;;
    tcg_gen_sari_i64 ret ret 56.

Definition tcg_gen_ext16s_i64 (ret arg : Z) : Gen unit :=
  if TCG_TARGET_REG_BITS =? 32 then
    tcg_gen_ext16s_i32 (TCGV_LOW ret) (TCGV_LOW arg);;
    tcg_gen_sari_i32 (TCGV_HIGH ret) (TCGV_LOW ret) 31
  else if TCG_TARGET_HAS_ext16s_i64 then tcg_gen_op2_i64 INDEX_op_ext16s_i64 ret arg
  else
    tcg_gen_shli_i64 ret arg 48;;
    tcg_gen_sari_i64 ret ret 48.

Definition tcg_gen_ext32s_i64 (ret arg : Z) : Gen unit :=
  if TCG_TARGET_REG_BITS =? 32 then
    tcg_gen_mov_i32 (TCGV_LOW ret) (TCGV_LOW arg);;
    tcg_gen_sari_i32 (TCGV_HIGH ret) (TCGV_LOW ret) 31
  else if TCG_TARGET_HAS_ext32s_i64 then tcg_gen_op2_i64 INDEX_op_ext32s_i64 ret arg
  else
    tcg_gen_shli_i64 ret arg 32;;
    tcg_gen_sari_i64 ret ret 32.

Definition tcg_gen_ext8u_i64 (ret arg : Z) : Gen unit :=
  if TCG_TARGET_REG_BITS =? 32 then
    tcg_gen_ext8u_i32 (TCGV_LOW ret) (TCGV_LOW arg);;
    tcg_gen_movi_i32 (TCGV_HIGH ret) 0
  else if TCG_TARGET_HAS_ext8u_i64 then tcg_gen_op2_i64 INDEX_op_ext8u_i64 ret arg
  else tcg_gen_andi_i64 ret arg 0xff.

Definition tcg_gen_ext16u_i64 (ret arg : Z) : Gen unit :=
  if TCG_TARGET_REG_BITS =? 32 then
    tcg_gen_ext16u_i32 (TCGV_LOW ret) (TCGV_LOW arg);;
    tcg_gen_movi_i32 (TCGV_HIGH ret) 0
  else if TCG_TARGET_HAS_ext16u_i64 then tcg_gen_op2_i64 INDEX_op_ext16u_i64 ret arg
  else tcg_gen_andi_i64 ret arg 0xffff.

Definition tcg_gen_ext32u_i64 (ret arg : Z) : Gen unit :=
  if TCG_TARGET_REG_BITS =? 32 then
    tcg_gen_mov_i32 (TCGV_LOW ret) (TCGV_LOW arg);;
    tcg_gen_movi_i32 (TCGV_HIGH ret) 0
  else if TCG_TARGET_HAS_ext32u_i64 then tcg_gen_op2_i64 INDEX_op_ext32u_i64 ret arg
  else tcg_gen_andi_i64 ret arg 0xffffffff.

(** ** Bitwise operations *)

Definition tcg_gen_not_i64 (ret arg : Z) : Gen unit :=
  if TCG_TARGET_REG_BITS =? 32 then
    tcg_gen_not_i32 (TCGV_LOW ret) (TCGV_LOW arg);;
    tcg_gen_not_i32 (TCGV_HIGH ret) (TCGV_HIGH arg)
  else if TCG_TARGET_HAS_not_i64 then tcg_gen_op2_i64 INDEX_op_not_i64 ret arg
  else tcg_gen_xori_i64 ret arg (-1).

Definition tcg_gen_andc_i64 (ret arg1 arg2 : Z) : Gen unit :=
  if TCG_TARGET_REG_BITS =? 32 then
    tcg_gen_andc_i32 (TCGV_LOW ret) (TCGV_LOW arg1) (TCGV_LOW arg2);;
    tcg_gen_andc_i32 (TCGV_HIGH ret) (TCGV_HIGH arg1) (TCGV_HIGH arg2)
  else if TCG_TARGET_HAS_andc_i64 then tcg_gen_op3_i64 INDEX_op_andc_i64 ret arg1 arg2
  else
    t0 <- tcg_temp_ebb_new_i64;;
    tcg_gen_not_i64 t0 arg2;;
    tcg_gen_and_i64 ret arg1 t0;;
    tcg_temp_free_i64 t0.

Definition tcg_gen_eqv_i64 (ret arg1 arg2 : Z) : Gen unit :=
  if TCG_TARGET_REG_BITS =? 32 then
    tcg_gen_eqv_i32 (TCGV_LOW ret) (TCGV_LOW arg1) (TCGV_LOW arg2);;
    tcg_gen_eqv_i32 (TCGV_HIGH ret) (TCGV_HIGH arg1) (TCGV_HIGH arg2)
  else if TCG_TARGET_HAS_eqv_i64 then tcg_gen_op3_i64 INDEX_op_eqv_i64 ret arg1 arg2
  else
    tcg_gen_xor_i64 ret arg1 arg2;;
    tcg_gen_not_i64 ret ret.

Definition tcg_gen_nand_i64 (ret arg1 arg2 : Z) : Gen unit :=
  if TCG_TARGET_REG_BITS =? 32 then
    tcg_gen_nand_i32 (TCGV_LOW ret) (TCGV_LOW arg1) (TCGV_LOW arg2);;
    tcg_gen_nand_i32 (TCGV_HIGH ret) (TCGV_HIGH arg1) (TCGV_HIGH arg2)
  else if TCG_TARGET_HAS_nand_i64 then tcg_gen_op3_i64 INDEX_op_nand_i64 ret arg1 arg2
  else
    tcg_gen_and_i64 ret arg1 arg2;;
    tcg_gen_not_i64 ret ret.

Definition tcg_gen_nor_i64 (ret arg1 arg2 : Z) : Gen unit :=
  if TCG_TARGET_REG_BITS =? 32 then
    tcg_gen_nor_i32 (TCGV_LOW ret) (TCGV_LOW arg1) (TCGV_LOW arg2);;
    tcg_gen_nor_i32 (TCGV_HIGH ret) (TCGV_HIGH arg1) (TCGV_HIGH arg2)
  else if TCG_TARGET_HAS_nor_i64 then tcg_gen_op3_i64 INDEX_op_nor_i64 ret arg1 arg2
  else
    tcg_gen_or_i64 ret arg1 arg2;;
    tcg_gen_not_i64 ret ret.

Definition tcg_gen_orc_i64 (ret arg1 arg2 : Z) : Gen unit :=
  if TCG_TARGET_REG_BITS =? 32 then
    tcg_gen_orc_i32 (TCGV_LOW ret) (TCGV_LOW arg1) (TCGV_LOW arg2);;
    tcg_gen_orc_i32 (TCGV_HIGH ret) (TCGV_HIGH arg1) (TCGV_HIGH arg2)
  else if TCG_TARGET_HAS_orc_i64 then tcg_gen_op3_i64 INDEX_op_orc_i64 ret arg1 arg2
  else
    t0 <- tcg_temp_ebb_new_i64;;
    tcg_gen_not_i64 t0 arg2;;
    tcg_gen_or_i64 ret arg1 t0;;
    tcg_temp_free_i64 t0.

(** ** Rotations *)

Definition tcg_gen_rotl_i64 (ret arg1 arg2 : Z) : Gen unit :=
  if TCG_TARGET_HAS_rot_i64 then tcg_gen_op3_i64 INDEX_op_rotl_i64 ret arg1 arg2
  else
    t0 <- tcg_temp_ebb_new_i64;;
    t1 <- tcg_temp_ebb_new_i64;;
    tcg_gen_shl_i64 t0 arg1 arg2;;
    tcg_gen_subfi_i64 t1 64 arg2;;
    tcg_gen_shr_i64 t1 arg1 t1;;
    tcg_gen_or_i64 ret t0 t1;;
    tcg_temp_free_i64 t0;;
    tcg_temp_free_i64 t1.

Definition tcg_gen_rotli_i64 (ret arg1 arg2 : Z) : Gen unit :=
  let arg2 := sint 64 arg2 in
  tcg_debug_assert ((0 <=? arg2) && (arg2 <? 64));;
  if arg2 =? 0 then tcg_gen_mov_i64 ret arg1
  else if TCG_TARGET_HAS_rot_i64 then
    k <- tcg_constant_i64 arg2;; tcg_gen_rotl_i64 ret arg1 k
  else
    t0 <- tcg_temp_ebb_new_i64;;
    t1 <- tcg_temp_ebb_new_i64;;
    tcg_gen_shli_i64 t0 arg1 arg2;;
    tcg_gen_shri_i64 t1 arg1 (64 - arg2);;
    tcg_gen_or_i64 ret t0 t1;;
    tcg_temp_free_i64 t0;;
    tcg_temp_free_i64 t1.

Definition tcg_gen_rotr_i64 (ret arg1 arg2 : Z) : Gen unit :=
  if TCG_TARGET_HAS_rot_i64 then tcg_gen_op3_i64 INDEX_op_rotr_i64 ret arg1 arg2
  else
    t0 <- tcg_temp_ebb_new_i64;;
    t1 <- tcg_temp_ebb_new_i64;;
    tcg_gen_shr_i64 t0 arg1 arg2;;
    tcg_gen_subfi_i64 t1 64 arg2;;
    tcg_gen_shl_i64 t1 arg1 t1;;
    tcg_gen_or_i64 ret t0 t1;;
    tcg_temp_free_i64 t0;;
    tcg_temp_free_i64 t1.

Definition tcg_gen_rotri_i64 (ret arg1 arg2 : Z) : Gen unit :=
  let arg2 := sint 64 arg2 in
  tcg_debug_assert ((0 <=? arg2) && (arg2 <? 64));;
  if arg2 =? 0 then tcg_gen_mov_i64 ret arg1
  else tcg_gen_rotli_i64 ret arg1 (64 - arg2).

(** ** Byte swaps *)

Definition tcg_gen_bswap16_i64 (ret arg flags : Z) : Gen unit :=
  tcg_debug_assert (negb (flag flags TCG_BSWAP_OS) || negb (flag flags TCG_BSWAP_OZ));;
  if TCG_TARGET_REG_BITS =? 32 then
    tcg_gen_bswap16_i32 (TCGV_LOW ret) (TCGV_LOW arg) flags;;
    if flag flags TCG_BSWAP_OS then tcg_gen_sari_i32 (TCGV_HIGH ret) (TCGV_LOW ret) 31
    else tcg_gen_movi_i32 (TCGV_HIGH ret) 0
  else if TCG_TARGET_HAS_bswap16_i64 then tcg_gen_op3i_i64 INDEX_op_bswap16_i64 ret arg flags
  else
    t0 <- tcg_temp_ebb_new_i64;;
    t1 <- tcg_temp_ebb_new_i64;;
    tcg_gen_shri_i64 t0 arg 8;;
    (if negb (flag flags TCG_BSWAP_IZ) then tcg_gen_ext8u_i64 t0 t0 else ret_ tt);;
    (if flag flags TCG_BSWAP_OS then
       tcg_gen_shli_i64 t1 arg 56;;
       tcg_gen_sari_i64 t1 t1 48
     else if flag flags TCG_BSWAP_OZ then
       tcg_gen_ext8u_i64 t1 arg;;
       tcg_gen_shli_i64 t1 t1 8
     else tcg_gen_shli_i64 t1 arg 8);;
    tcg_gen_or_i64 ret t0 t1;;
    tcg_temp_free_i64 t0;;
    tcg_temp_free_i64 t1.

Definition tcg_gen_bswap32_i64 (ret arg flags : Z) : Gen unit :=
  tcg_debug_assert (negb (flag flags TCG_BSWAP_OS) || negb (flag flags TCG_BSWAP_OZ));;
  if TCG_TARGET_REG_BITS =? 32 then
    tcg_gen_bswap32_i32 (TCGV_LOW ret) (TCGV_LOW arg);;
    if flag flags TCG_BSWAP_OS then tcg_gen_sari_i32 (TCGV_HIGH ret) (TCGV_LOW ret) 31
    else tcg_gen_movi_i32 (TCGV_HIGH ret) 0
  else if TCG_TARGET_HAS_bswap32_i64 then tcg_gen_op3i_i64 INDEX_op_bswap32_i64 ret arg flags
  else
    t0 <- tcg_temp_ebb_new_i64;;
    t1 <- tcg_temp_ebb_new_i64;;
    t2 <- tcg_constant_i64 0x00ff00ff;;
    tcg_gen_shri_i64 t0 arg 8;;
    tcg_gen_and_i64 t1 arg t2;;
    tcg_gen_and_i64 t0 t0 t2;;
    tcg_gen_shli_i64 t1 t1 8;;
    tcg_gen_or_i64 ret t0 t1;;
    tcg_gen_shli_i64 t1 ret 48;;
    tcg_gen_shri_i64 t0 ret 16;;
    (if flag flags TCG_BSWAP_OS then tcg_gen_sari_i64 t1 t1 32
     else tcg_gen_shri_i64 t1 t1 32);;
    tcg_gen_or_i64 ret t0 t1;;
    tcg_temp_free_i64 t0;;
    tcg_temp_free_i64 t1.

Definition tcg_gen_bswap64_i64 (ret arg : Z) : Gen unit :=
  if TCG_TARGET_REG_BITS =? 32 then
    t0 <- tcg_temp_ebb_new_i32;;
    t1 <- tcg_temp_ebb_new_i32;;
    tcg_gen_bswap32_i32 t0 (TCGV_LOW arg);;
    tcg_gen_bswap32_i32 t1 (TCGV_HIGH arg);;
    tcg_gen_mov_i32 (TCGV_LOW ret) t1;;
    tcg_gen_mov_i32 (TCGV_HIGH ret) t0;;
    tcg_temp_free_i32 t0;;
    tcg_temp_free_i32 t1
  else if TCG_TARGET_HAS_bswap64_i64 then tcg_gen_op3i_i64 INDEX_op_bswap64_i64 ret arg 0
  else
    t0 <- tcg_temp_ebb_new_i64;;
    t1 <- tcg_temp_ebb_new_i64;;
    t2 <- tcg_temp_ebb_new_i64;;
    tcg_gen_movi_i64 t2 0x00ff00ff00ff00ff;;
    tcg_gen_shri_i64 t0 arg 8;;
    tcg_gen_and_i64 t1 arg t2;;
    tcg_gen_and_i64 t0 t0 t2;;
    tcg_gen_shli_i64 t1 t1 8;;
    tcg_gen_or_i64 ret t0 t1;;
    tcg_gen_movi_i64 t2 0x0000ffff0000ffff;;
    tcg_gen_shri_i64 t0 ret 16;;
    tcg_gen_and_i64 t1 ret t2;;
    tcg_gen_and_i64 t0 t0 t2;;
    tcg_gen_shli_i64 t1 t1 16;;
    tcg_gen_or_i64 ret t0 t1;;
    tcg_gen_shri_i64 t0 ret 32;;
    tcg_gen_shli_i64 t1 ret 32;;
    tcg_gen_or_i64 ret t0 t1;;
    tcg_temp_free_i64 t0;;
    tcg_temp_free_i64 t1;;
    tcg_temp_free_i64 t2.

Definition tcg_gen_hswap_i64 (ret arg : Z) : Gen unit :=
  let m := 0x0000ffff0000ffff in
  t0 <- tcg_temp_ebb_new_i64;;
  t1 <- tcg_temp_ebb_new_i64;;
  tcg_gen_rotli_i64 t1 arg 32;;
  tcg_gen_andi_i64 t0 t1 m;;
  tcg_gen_shli_i64 t0 t0 16;;
  tcg_gen_shri_i64 t1 t1 16;;
  tcg_gen_andi_i64 t1 t1 m;;
  tcg_gen_or_i64 ret t0 t1;;
  tcg_temp_free_i64 t0;;
  tcg_temp_free_i64 t1.

Definition tcg_gen_wswap_i64 (ret arg : Z) : Gen unit := tcg_gen_rotli_i64 ret arg 32.

(** ** Bit fields *)

Definition tcg_gen_extract2_i64 (ret al ah ofs : Z) : Gen unit :=
  let ofs := uint 32 ofs in
  tcg_debug_assert (ofs <=? 64);;
  if ofs =? 0 then tcg_gen_mov_i64 ret al
  else if ofs =? 64 then tcg_gen_mov_i64 ret ah
  else if al =? ah then tcg_gen_rotri_i64 ret al ofs
  else if TCG_TARGET_HAS_extract2_i64 then
    tcg_gen_op4i_i64 INDEX_op_extract2_i64 ret al ah ofs
  else
    t0 <- tcg_temp_ebb_new_i64;;
    tcg_gen_shri_i64 t0 al ofs;;
    fwd_deposit_i64 ret t0 ah (64 - ofs) ofs;;
    tcg_temp_free_i64 t0.

(** The part of [tcg_gen_deposit_i64] between the allocation of [t1] and the
    label [done]. *)
Definition deposit_i64_tail (ret arg1 arg2 ofs len t1 : Z) : Gen unit :=
  if TCG_TARGET_HAS_extract2_i64 && (ofs + len =? 64) then
    tcg_gen_shli_i64 t1 arg1 len;;
    tcg_gen_extract2_i64 ret t1 arg2 len
  else if TCG_TARGET_HAS_extract2_i64 && (ofs =? 0) then
    tcg_gen_extract2_i64 ret arg1 arg2 len;;
    tcg_gen_rotli_i64 ret ret len
  else
    let mask := field_mask len in
    (if ofs + len <? 64 then
       tcg_gen_andi_i64 t1 arg2 mask;;
       tcg_gen_shli_i64 t1 t1 ofs
     else tcg_gen_shli_i64 t1 arg2 ofs);;
    tcg_gen_andi_i64 ret arg1 (Z.lnot (uint 64 (Z.shiftl mask ofs)));;
    tcg_gen_or_i64 ret ret t1.

Definition tcg_gen_deposit_i64 (ret arg1 arg2 ofs len : Z) : Gen unit :=
  let ofs := uint 32 ofs in
  let len := uint 32 len in
  assert_field 64 ofs len;;
  if len =? 64 then tcg_gen_mov_i64 ret arg2
  else if TCG_TARGET_HAS_deposit_i64 && TCG_TARGET_deposit_i64_valid ofs len then
    tcg_gen_op5ii_i64 INDEX_op_deposit_i64 ret arg1 arg2 ofs len
  else if (TCG_TARGET_REG_BITS =? 32) && (32 <=? ofs) then
    tcg_gen_deposit_i32 (TCGV_HIGH ret) (TCGV_HIGH arg1) (TCGV_LOW arg2) (ofs - 32) len;;
    tcg_gen_mov_i32 (TCGV_LOW ret) (TCGV_LOW arg1)
  else if (TCG_TARGET_REG_BITS =? 32) && (ofs + len <=? 32) then
    tcg_gen_deposit_i32 (TCGV_LOW ret) (TCGV_LOW arg1) (TCGV_LOW arg2) ofs len;;
    tcg_gen_mov_i32 (TCGV_HIGH ret) (TCGV_HIGH arg1)
  else
    t1 <- tcg_temp_ebb_new_i64;;
    deposit_i64_tail ret arg1 arg2 ofs len t1;;
    tcg_temp_free_i64 t1.

Definition tcg_gen_deposit_z_i64 (ret arg ofs len : Z) : Gen unit :=
  let ofs := uint 32 ofs in
  let len := uint 32 len in
  assert_field 64 ofs len;;
  if ofs + len =? 64 then tcg_gen_shli_i64 ret arg ofs
  else if ofs =? 0 then tcg_gen_andi_i64 ret arg (field_mask len)
  else if TCG_TARGET_HAS_deposit_i64 && TCG_TARGET_deposit_i64_valid ofs len then
    zero <- tcg_constant_i64 0;;
    tcg_gen_op5ii_i64 INDEX_op_deposit_i64 ret zero arg ofs len
  else if (TCG_TARGET_REG_BITS =? 32) && (32 <=? ofs) then
    tcg_gen_deposit_z_i32 (TCGV_HIGH ret) (TCGV_LOW arg) (ofs - 32) len;;
    tcg_gen_movi_i32 (TCGV_LOW ret) 0
  else if (TCG_TARGET_REG_BITS =? 32) && (ofs + len <=? 32) then
    tcg_gen_deposit_z_i32 (TCGV_LOW ret) (TCGV_LOW arg) ofs len;;
    tcg_gen_movi_i32 (TCGV_HIGH ret) 0
  else if (len =? 32) && TCG_TARGET_HAS_ext32u_i64 then
    tcg_gen_ext32u_i64 ret arg;; tcg_gen_shli_i64 ret ret ofs
  else if (len =? 16) && TCG_TARGET_HAS_ext16u_i64 then
    tcg_gen_ext16u_i64 ret arg;; tcg_gen_shli_i64 ret ret ofs
  else if (len =? 8) && TCG_TARGET_HAS_ext8u_i64 then
    tcg_gen_ext8u_i64 ret arg;; tcg_gen_shli_i64 ret ret ofs
  else if (ofs + len =? 32) && TCG_TARGET_HAS_ext32u_i64 then
    tcg_gen_shli_i64 ret arg ofs;; tcg_gen_ext32u_i64 ret ret
  else if (ofs + len =? 16) && TCG_TARGET_HAS_ext16u_i64 then
    tcg_gen_shli_i64 ret arg ofs;; tcg_gen_ext16u_i64 ret ret
  else if (ofs + len =? 8) && TCG_TARGET_HAS_ext8u_i64 then
    tcg_gen_shli_i64 ret arg ofs;; tcg_gen_ext8u_i64 ret ret
  else
    tcg_gen_andi_i64 ret arg (field_mask len);;
    tcg_gen_shli_i64 ret ret ofs.

(** The target of the label [do_shift_and]. *)
Definition extract_shift_and (ret arg ofs len : Z) : Gen unit :=
  tcg_gen_shri_i64 ret arg ofs;;
  tcg_gen_andi_i64 ret ret (field_mask len).

Definition tcg_gen_extract_i64 (ret arg ofs len : Z) : Gen unit :=
  let ofs := uint 32 ofs in
  let len := uint 32 len in
  assert_field 64 ofs len;;
  if ofs + len =? 64 then tcg_gen_shri_i64 ret arg (64 - len)
  else if ofs =? 0 then tcg_gen_andi_i64 ret arg (field_mask len)
  else if TCG_TARGET_REG_BITS =? 32 then
    if 32 <=? ofs then
      tcg_gen_extract_i32 (TCGV_LOW ret) (TCGV_HIGH arg) (ofs - 32) len;;
      tcg_gen_movi_i32 (TCGV_HIGH ret) 0
    else if ofs + len <=? 32 then
      tcg_gen_extract_i32 (TCGV_LOW ret) (TCGV_LOW arg) ofs len;;
      tcg_gen_movi_i32 (TCGV_HIGH ret) 0
    else extract_shift_and ret arg ofs len
  else if TCG_TARGET_HAS_extract_i64 && TCG_TARGET_extract_i64_valid ofs len then
    tcg_gen_op4ii_i64 INDEX_op_extract_i64 ret arg ofs len
  else if (ofs + len =? 32) && TCG_TARGET_HAS_ext32u_i64 then
    tcg_gen_ext32u_i64 ret arg;; tcg_gen_shri_i64 ret ret ofs
  else if (ofs + len =? 16) && TCG_TARGET_HAS_ext16u_i64 then
    tcg_gen_ext16u_i64 ret arg;; tcg_gen_shri_i64 ret ret ofs
  else if (ofs + len =? 8) && TCG_TARGET_HAS_ext8u_i64 then
    tcg_gen_ext8u_i64 ret arg;; tcg_gen_shri_i64 ret ret ofs
  else if (1 <=? len) && (len <=? 8) || (len =? 16) || (len =? 32) then
    extract_shift_and ret arg ofs len
  else
    tcg_gen_shli_i64 ret arg (64 - len - ofs);;
    tcg_gen_shri_i64 ret ret (64 - len).

(** The code for 32-bit hosts. *)
Definition sextract_i64_reg32 (ret arg ofs len : Z) : Gen unit :=
  if 32 <=? ofs then
    tcg_gen_sextract_i32 (TCGV_LOW ret) (TCGV_HIGH arg) (ofs - 32) len;;
    tcg_gen_sari_i32 (TCGV_HIGH ret) (TCGV_LOW ret) 31
  else if ofs + len <=? 32 then
    tcg_gen_sextract_i32 (TCGV_LOW ret) (TCGV_LOW arg) ofs len;;
    tcg_gen_sari_i32 (TCGV_HIGH ret) (TCGV_LOW ret) 31
  else if ofs =? 0 then
    tcg_gen_mov_i32 (TCGV_LOW ret) (TCGV_LOW arg);;
    tcg_gen_sextract_i32 (TCGV_HIGH ret) (TCGV_HIGH arg) 0 (len - 32)
  else if 32 <? len then
    t <- tcg_temp_ebb_new_i32;;
    tcg_gen_sextract_i32 t (TCGV_HIGH arg) (ofs + 32) (len - 32);;
    tcg_gen_shri_i64 ret arg ofs;;
    tcg_gen_mov_i32 (TCGV_HIGH ret) t;;
    tcg_temp_free_i32 t
  else
    tcg_gen_shri_i64 ret arg (ofs + len - 32);;
    tcg_gen_sari_i32 (TCGV_LOW ret) (TCGV_LOW ret) (32 - len);;
    tcg_gen_sari_i32 (TCGV_HIGH ret) (TCGV_LOW ret) 31.

Definition tcg_gen_sextract_i64 (ret arg ofs len : Z) : Gen unit :=
  let ofs := uint 32 ofs in
  let len := uint 32 len in
  assert_field 64 ofs len;;
  if ofs + len =? 64 then tcg_gen_sari_i64 ret arg (64 - len)
  else if (ofs =? 0) && (len =? 32) then tcg_gen_ext32s_i64 ret arg
  else if (ofs =? 0) && (len =? 16) then tcg_gen_ext16s_i64 ret arg
  else if (ofs =? 0) && (len =? 8) then tcg_gen_ext8s_i64 ret arg
  else if TCG_TARGET_REG_BITS =? 32 then sextract_i64_reg32 ret arg ofs len
  else if TCG_TARGET_HAS_sextract_i64 && TCG_TARGET_extract_i64_valid ofs len then
    tcg_gen_op4ii_i64 INDEX_op_sextract_i64 ret arg ofs len
  else if (ofs + len =? 32) && TCG_TARGET_HAS_ext32s_i64 then
    tcg_gen_ext32s_i64 ret arg;; tcg_gen_sari_i64 ret ret ofs
  else if (ofs + len =? 16) && TCG_TARGET_HAS_ext16s_i64 then
    tcg_gen_ext16s_i64 ret arg;; tcg_gen_sari_i64 ret ret ofs
  else if (ofs + len =? 8) && TCG_TARGET_HAS_ext8s_i64 then
    tcg_gen_ext8s_i64 ret arg;; tcg_gen_sari_i64 ret ret ofs
  else if (len =? 32) && TCG_TARGET_HAS_ext32s_i64 then
    tcg_gen_shri_i64 ret arg ofs;; tcg_gen_ext32s_i64 ret ret
  else if (len =? 16) && TCG_TARGET_HAS_ext16s_i64 then
    tcg_gen_shri_i64 ret arg ofs;; tcg_gen_ext16s_i64 ret ret
  else if (len =? 8) && TCG_TARGET_HAS_ext8s_i64 then
    tcg_gen_shri_i64 ret arg ofs;; tcg_gen_ext8s_i64 ret ret
  else
    tcg_gen_shli_i64 ret arg (64 - len - ofs);;
    tcg_gen_sari_i64 ret ret (64 - len).

(** ** Double-word arithmetic *)

Definition tcg_gen_add2_i64 (rl rh al ah bl bh : Z) : Gen unit :=
  if TCG_TARGET_HAS_add2_i64 then tcg_gen_op6_i64 INDEX_op_add2_i64 rl rh al ah bl bh
  else
    t0 <- tcg_temp_ebb_new_i64;;
    t1 <- tcg_temp_ebb_new_i64;;
    tcg_gen_add_i64 t0 al bl;;
    tcg_gen_setcond_i64 TCG_COND_LTU t1 t0 al;;
    tcg_gen_add_i64 rh ah bh;;
    tcg_gen_add_i64 rh rh t1;;
    tcg_gen_mov_i64 rl t0;;
    tcg_temp_free_i64 t0;;
    tcg_temp_free_i64 t1.

Definition tcg_gen_sub2_i64 (rl rh al ah bl bh : Z) : Gen unit :=
  if TCG_TARGET_HAS_sub2_i64 then tcg_gen_op6_i64 INDEX_op_sub2_i64 rl rh al ah bl bh
  else
    t0 <- tcg_temp_ebb_new_i64;;
    t1 <- tcg_temp_ebb_new_i64;;
    tcg_gen_sub_i64 t0 al bl;;
    tcg_gen_setcond_i64 TCG_COND_LTU t1 al bl;;
    tcg_gen_sub_i64 rh ah bh;;
    tcg_gen_sub_i64 rh rh t1;;
    tcg_gen_mov_i64 rl t0;;
    tcg_temp_free_i64 t0;;
    tcg_temp_free_i64 t1.

Definition tcg_gen_mulu2_i64 (rl rh arg1 arg2 : Z) : Gen unit :=
  if TCG_TARGET_HAS_mulu2_i64 then tcg_gen_op4_i64 INDEX_op_mulu2_i64 rl rh arg1 arg2
  else if TCG_TARGET_HAS_muluh_i64 then
    t <- tcg_temp_ebb_new_i64;;
    tcg_gen_op3_i64 INDEX_op_mul_i64 t arg1 arg2;;
    tcg_gen_op3_i64 INDEX_op_muluh_i64 rh arg1 arg2;;
    tcg_gen_mov_i64 rl t;;
    tcg_temp_free_i64 t
  else
    t0 <- tcg_temp_ebb_new_i64;;
    tcg_gen_mul_i64 t0 arg1 arg2;;
    gen_helper_2 HELPER_muluh_i64 rh arg1 arg2;;
    tcg_gen_mov_i64 rl t0;;
    tcg_temp_free_i64 t0.

Definition tcg_gen_muls2_i64 (rl rh arg1 arg2 : Z) : Gen unit :=
  if TCG_TARGET_HAS_muls2_i64 then tcg_gen_op4_i64 INDEX_op_muls2_i64 rl rh arg1 arg2
  else if TCG_TARGET_HAS_mulsh_i64 then
    t <- tcg_temp_ebb_new_i64;;
    tcg_gen_op3_i64 INDEX_op_mul_i64 t arg1 arg2;;
    tcg_gen_op3_i64 INDEX_op_mulsh_i64 rh arg1 arg2;;
    tcg_gen_mov_i64 rl t;;
    tcg_temp_free_i64 t
  else if TCG_TARGET_HAS_mulu2_i64 || TCG_TARGET_HAS_muluh_i64 then
    t0 <- tcg_temp_ebb_new_i64;;
    t1 <- tcg_temp_ebb_new_i64;;
    t2 <- tcg_temp_ebb_new_i64;;
    t3 <- tcg_temp_ebb_new_i64;;
    tcg_gen_mulu2_i64 t0 t1 arg1 arg2;;
    tcg_gen_sari_i64 t2 arg1 63;;
    tcg_gen_sari_i64 t3 arg2 63;;
    tcg_gen_and_i64 t2 t2 arg2;;
    tcg_gen_and_i64 t3 t3 arg1;;
    tcg_gen_sub_i64 rh t1 t2;;
    tcg_gen_sub_i64 rh rh t3;;
    tcg_gen_mov_i64 rl t0;;
    tcg_temp_free_i64 t0;;
    tcg_temp_free_i64 t1;;
    tcg_temp_free_i64 t2;;
    tcg_temp_free_i64 t3
  else
    t0 <- tcg_temp_ebb_new_i64;;
    tcg_gen_mul_i64 t0 arg1 arg2;;
    gen_helper_2 HELPER_mulsh_i64 rh arg1 arg2;;
    tcg_gen_mov_i64 rl t0;;
    tcg_temp_free_i64 t0.

Definition tcg_gen_mulsu2_i64 (rl rh arg1 arg2 : Z) : Gen unit :=
  t0 <- tcg_temp_ebb_new_i64;;
  t1 <- tcg_temp_ebb_new_i64;;
  t2 <- tcg_temp_ebb_new_i64;;
  tcg_gen_mulu2_i64 t0 t1 arg1 arg2;;
  tcg_gen_sari_i64 t2 arg1 63;;
  tcg_gen_and_i64 t2 t2 arg2;;
  tcg_gen_sub_i64 rh t1 t2;;
  tcg_gen_mov_i64 rl t0;;
  tcg_temp_free_i64 t0;;
  tcg_temp_free_i64 t1;;
  tcg_temp_free_i64 t2.

End I64.

(** Calls are found by name. *)
#[global] Typeclasses Opaque
  tcg_gen_discard_i64 tcg_gen_mov_i64 tcg_gen_movi_i64 tcg_gen_ld8u_i64 tcg_gen_ld8s_i64
  tcg_gen_ld16u_i64 tcg_gen_ld16s_i64 tcg_gen_ld32u_i64 tcg_gen_ld32s_i64 tcg_gen_ld_i64
  tcg_gen_st8_i64 tcg_gen_st16_i64 tcg_gen_st32_i64 tcg_gen_st_i64 tcg_gen_add_i64
  tcg_gen_sub_i64 tcg_gen_and_i64 tcg_gen_or_i64 tcg_gen_xor_i64 tcg_gen_shl_i64
  tcg_gen_shr_i64 tcg_gen_sar_i64 tcg_gen_mul_i64 tcg_gen_addi_i64 tcg_gen_neg_i64
  tcg_gen_subfi_i64 tcg_gen_subi_i64 tcg_gen_andi_i64 tcg_gen_ori_i64 tcg_gen_xori_i64
  tcg_gen_shifti_i64 tcg_gen_shli_i64 tcg_gen_shri_i64 tcg_gen_sari_i64 tcg_gen_brcond_i64
  tcg_gen_brcondi_i64 tcg_gen_setcond_i64 tcg_gen_setcondi_i64 tcg_gen_negsetcond_i64
  tcg_gen_negsetcondi_i64 tcg_gen_movcond_i64 tcg_gen_smin_i64 tcg_gen_umin_i64
  tcg_gen_smax_i64 tcg_gen_umax_i64 tcg_gen_abs_i64 tcg_gen_muli_i64 tcg_gen_div_i64
  tcg_gen_rem_i64 tcg_gen_divu_i64 tcg_gen_remu_i64 tcg_gen_ext8s_i64 tcg_gen_ext16s_i64
  tcg_gen_ext32s_i64 tcg_gen_ext8u_i64 tcg_gen_ext16u_i64 tcg_gen_ext32u_i64 tcg_gen_not_i64
  tcg_gen_andc_i64 tcg_gen_eqv_i64 tcg_gen_nand_i64 tcg_gen_nor_i64 tcg_gen_orc_i64
  tcg_gen_rotl_i64 tcg_gen_rotli_i64 tcg_gen_rotr_i64 tcg_gen_rotri_i64 tcg_gen_bswap16_i64
  tcg_gen_bswap32_i64 tcg_gen_bswap64_i64 tcg_gen_hswap_i64 tcg_gen_wswap_i64
  tcg_gen_extract2_i64 deposit_i64_tail tcg_gen_deposit_i64 tcg_gen_deposit_z_i64
  extract_shift_and tcg_gen_extract_i64 sextract_i64_reg32 tcg_gen_sextract_i64
  tcg_gen_add2_i64 tcg_gen_sub2_i64 tcg_gen_mulu2_i64 tcg_gen_muls2_i64 tcg_gen_mulsu2_i64.
