(* ===== verification/TcgOpMix.v ===== *)
(** * Operations of tcg/tcg-op.c that mix widths

    Bit counts, the 32-bit operations that may be done in 64-bit temporaries,
    the size changing operations, the 128-bit moves, and the exits of a
    translation block. *)

From Stdlib Require Import ZArith Lia Bool.
From stdpp Require Import base numbers functions list gmap.
From S2P Require Import Prelude.
From S2P Require Import Bytes.
From S2P Require Import Bitops.
From S2P Require Import TcgCond.
From S2P Require Import TcgOpc.
From S2P Require Import TcgCtx.
From S2P Require Import TcgHelpers.
From S2P Require Import TcgGen.
From S2P Require Import TcgSem.
From S2P Require Import TcgOp32.
From S2P Require Import TcgOp64.

Local Open Scope Z_scope.
Local Open Scope gen_scope.

Section Mix.
Context `{T : TcgTarget} `{F : Forward}.

(** ** Size changing operations *)

Definition tcg_gen_extrl_i64_i32 (ret arg : Z) : Gen unit :=
  if TCG_TARGET_REG_BITS =? 32 then tcg_gen_mov_i32 ret (TCGV_LOW arg)
  else if TCG_TARGET_HAS_extr_i64_i32 then tcg_gen_op2 INDEX_op_extrl_i64_i32 ret arg
  else tcg_gen_mov_i32 ret arg.

Definition tcg_gen_extrh_i64_i32 (ret arg : Z) : Gen unit :=
  if TCG_TARGET_REG_BITS =? 32 then tcg_gen_mov_i32 ret (TCGV_HIGH arg)
  else if TCG_TARGET_HAS_extr_i64_i32 then tcg_gen_op2 INDEX_op_extrh_i64_i32 ret arg
  else
    t <- tcg_temp_ebb_new_i64;;
    tcg_gen_shri_i64 t arg 32;;
    tcg_gen_mov_i32 ret t;;
    tcg_temp_free_i64 t.

Definition tcg_gen_concat_i32_i64 (dest low high : Z) : Gen unit :=
  if TCG_TARGET_REG_BITS =? 32 then
    tcg_gen_mov_i32 (TCGV_LOW dest) low;;
    tcg_gen_mov_i32 (TCGV_HIGH dest) high
  else
    tmp <- tcg_temp_ebb_new_i64;;
    tcg_gen_extu_i32_i64 tmp high;;
    tcg_gen_extu_i32_i64 dest low;;
    (if TCG_TARGET_HAS_deposit_i64 && TCG_TARGET_deposit_i64_valid 32 32 then
       tcg_gen_deposit_i64 dest dest tmp 32 32
     else
       tcg_gen_shli_i64 tmp tmp 32;;
       tcg_gen_or_i64 dest dest tmp);;
    tcg_temp_free_i64 tmp.

Definition tcg_gen_extr_i64_i32 (lo hi arg : Z) : Gen unit :=
  if TCG_TARGET_REG_BITS =? 32 then
    tcg_gen_mov_i32 lo (TCGV_LOW arg);;
    tcg_gen_mov_i32 hi (TCGV_HIGH arg)
  else
    tcg_gen_extrl_i64_i32 lo arg;;
    tcg_gen_extrh_i64_i32 hi arg.

Definition tcg_gen_extr32_i64 (lo hi arg : Z) : Gen unit :=
  tcg_gen_ext32u_i64 lo arg;;
  tcg_gen_shri_i64 hi arg 32.

Definition tcg_gen_concat32_i64 (ret lo hi : Z) : Gen unit := tcg_gen_deposit_i64 ret lo hi 32 32.

(** ** Bit counts *)

Definition tcg_gen_clz_i64 (ret arg1 arg2 : Z) : Gen unit :=
  if TCG_TARGET_HAS_clz_i64 then tcg_gen_op3_i64 INDEX_op_clz_i64 ret arg1 arg2
  else gen_helper_2 HELPER_clz_i64 ret arg1 arg2.

Definition tcg_gen_clz_i32 (ret arg1 arg2 : Z) : Gen unit :=
  if TCG_TARGET_HAS_clz_i32 then tcg_gen_op3_i32 INDEX_op_clz_i32 ret arg1 arg2
  else if TCG_TARGET_HAS_clz_i64 then
    t1 <- tcg_temp_ebb_new_i64;;
    t2 <- tcg_temp_ebb_new_i64;;
    tcg_gen_extu_i32_i64 t1 arg1;;
    tcg_gen_extu_i32_i64 t2 arg2;;
    tcg_gen_addi_i64 t2 t2 32;;
    tcg_gen_clz_i64 t1 t1 t2;;
    tcg_gen_extrl_i64_i32 ret t1;;
    tcg_temp_free_i64 t1;;
    tcg_temp_free_i64 t2;;
    tcg_gen_subi_i32 ret ret 32
  else gen_helper_2 HELPER_clz_i32 ret arg1 arg2.

Definition tcg_gen_clzi_i32 (ret arg1 arg2 : Z) : Gen unit :=
  k <- tcg_constant_i32 arg2;; tcg_gen_clz_i32 ret arg1 k.

Definition tcg_gen_clzi_i64 (ret arg1 arg2 : Z) : Gen unit :=
  let arg2 := uint 64 arg2 in
  if (TCG_TARGET_REG_BITS =? 32) && TCG_TARGET_HAS_clz_i32 && (arg2 <=? 0xffffffff) then
    t <- tcg_temp_ebb_new_i32;;
    tcg_gen_clzi_i32 t (TCGV_LOW arg1) (arg2 - 32);;
    tcg_gen_addi_i32 t t 32;;
    tcg_gen_clz_i32 (TCGV_LOW ret) (TCGV_HIGH arg1) t;;
    tcg_gen_movi_i32 (TCGV_HIGH ret) 0;;
    tcg_temp_free_i32 t
  else k <- tcg_constant_i64 arg2;; tcg_gen_clz_i64 ret arg1 k.

Definition tcg_gen_ctpop_i64 (ret arg1 : Z) : Gen unit :=
  if TCG_TARGET_HAS_ctpop_i64 then tcg_gen_op2_i64 INDEX_op_ctpop_i64 ret arg1
  else if (TCG_TARGET_REG_BITS =? 32) && TCG_TARGET_HAS_ctpop_i32 then
    fwd_ctpop_i32 (TCGV_HIGH ret) (TCGV_HIGH arg1);;
    fwd_ctpop_i32 (TCGV_LOW ret) (TCGV_LOW arg1);;
    tcg_gen_add_i32 (TCGV_LOW ret) (TCGV_LOW ret) (TCGV_HIGH ret);;
    tcg_gen_movi_i32 (TCGV_HIGH ret) 0
  else gen_helper_1 HELPER_ctpop_i64 ret arg1.

Definition tcg_gen_ctpop_i32 (ret arg1 : Z) : Gen unit :=
  if TCG_TARGET_HAS_ctpop_i32 then tcg_gen_op2_i32 INDEX_op_ctpop_i32 ret arg1
  else if TCG_TARGET_HAS_ctpop_i64 then
    t <- tcg_temp_ebb_new_i64;;
    tcg_gen_extu_i32_i64 t arg1;;
    tcg_gen_ctpop_i64 t t;;
    tcg_gen_extrl_i64_i32 ret t;;
    tcg_temp_free_i64 t
  else gen_helper_1 HELPER_ctpop_i32 ret arg1.

Definition tcg_gen_ctz_i64 (ret arg1 arg2 : Z) : Gen unit :=
  if TCG_TARGET_HAS_ctz_i64 then tcg_gen_op3_i64 INDEX_op_ctz_i64 ret arg1 arg2
  else if TCG_TARGET_HAS_ctpop_i64 || TCG_TARGET_HAS_clz_i64 then
    t <- tcg_temp_ebb_new_i64;;
    (if TCG_TARGET_HAS_ctpop_i64 then
       tcg_gen_subi_i64 t arg1 1;;
       tcg_gen_andc_i64 t t arg1;;
       tcg_gen_ctpop_i64 t t
     else
       tcg_gen_neg_i64 t arg1;;
       tcg_gen_and_i64 t t arg1;;
       tcg_gen_clzi_i64 t t 64;;
       tcg_gen_xori_i64 t t 63);;
    z <- tcg_constant_i64 0;;
    tcg_gen_movcond_i64 TCG_COND_EQ ret arg1 z arg2 t;;
    tcg_temp_free_i64 t;;
    tcg_temp_free_i64 z
  else gen_helper_2 HELPER_ctz_i64 ret arg1 arg2.

Definition tcg_gen_ctz_i32 (ret arg1 arg2 : Z) : Gen unit :=
  if TCG_TARGET_HAS_ctz_i32 then tcg_gen_op3_i32 INDEX_op_ctz_i32 ret arg1 arg2
  else if TCG_TARGET_HAS_ctz_i64 then
    t1 <- tcg_temp_ebb_new_i64;;
    t2 <- tcg_temp_ebb_new_i64;;
    tcg_gen_extu_i32_i64 t1 arg1;;
    tcg_gen_extu_i32_i64 t2 arg2;;
    tcg_gen_ctz_i64 t1 t1 t2;;
    tcg_gen_extrl_i64_i32 ret t1;;
    tcg_temp_free_i64 t1;;
    tcg_temp_free_i64 t2
  else if TCG_TARGET_HAS_ctpop_i32 || TCG_TARGET_HAS_ctpop_i64 || TCG_TARGET_HAS_clz_i32
          || TCG_TARGET_HAS_clz_i64 then
    t <- tcg_temp_ebb_new_i32;;
    (if TCG_TARGET_HAS_ctpop_i32 || TCG_TARGET_HAS_ctpop_i64 then
       tcg_gen_subi_i32 t arg1 1;;
       tcg_gen_andc_i32 t t arg1;;
       tcg_gen_ctpop_i32 t t
     else
       tcg_gen_neg_i32 t arg1;;
       tcg_gen_and_i32 t t arg1;;
       tcg_gen_clzi_i32 t t 32;;
       tcg_gen_xori_i32 t t 31);;
    z <- tcg_constant_i32 0;;
    tcg_gen_movcond_i32 TCG_COND_EQ ret arg1 z arg2 t;;
    tcg_temp_free_i32 t
  else gen_helper_2 HELPER_ctz_i32 ret arg1 arg2.

Definition tcg_gen_ctzi_i32 (ret arg1 arg2 : Z) : Gen unit :=
  let arg2 := uint 32 arg2 in
  if negb TCG_TARGET_HAS_ctz_i32 && TCG_TARGET_HAS_ctpop_i32 && (arg2 =? 32) then
    t <- tcg_temp_ebb_new_i32;;
    tcg_gen_subi_i32 t arg1 1;;
    tcg_gen_andc_i32 t t arg1;;
    tcg_gen_ctpop_i32 ret t;;
    tcg_temp_free_i32 t
  else k <- tcg_constant_i32 arg2;; tcg_gen_ctz_i32 ret arg1 k.

Definition tcg_gen_ctzi_i64 (ret arg1 arg2 : Z) : Gen unit :=
  let arg2 := uint 64 arg2 in
  if (TCG_TARGET_REG_BITS =? 32) && TCG_TARGET_HAS_ctz_i32 && (arg2 <=? 0xffffffff) then
    t32 <- tcg_temp_ebb_new_i32;;
    tcg_gen_ctzi_i32 t32 (TCGV_HIGH arg1) (arg2 - 32);;
    tcg_gen_addi_i32 t32 t32 32;;
    tcg_gen_ctz_i32 (TCGV_LOW ret) (TCGV_LOW arg1) t32;;
    tcg_gen_movi_i32 (TCGV_HIGH ret) 0;;
    tcg_temp_free_i32 t32
  else if negb TCG_TARGET_HAS_ctz_i64 && TCG_TARGET_HAS_ctpop_i64 && (arg2 =? 64) then
    t <- tcg_temp_ebb_new_i64;;
    tcg_gen_subi_i64 t arg1 1;;
    tcg_gen_andc_i64 t t arg1;;
    tcg_gen_ctpop_i64 ret t;;
    tcg_temp_free_i64 t
  else k <- tcg_constant_i64 arg2;; tcg_gen_ctz_i64 ret arg1 k.

Definition tcg_gen_clrsb_i32 (ret arg : Z) : Gen unit :=
  if TCG_TARGET_HAS_clz_i32 then
    t <- tcg_temp_ebb_new_i32;;
    tcg_gen_sari_i32 t arg 31;;
    tcg_gen_xor_i32 t t arg;;
    tcg_gen_clzi_i32 t t 32;;
    tcg_gen_subi_i32 ret t 1;;
    tcg_temp_free_i32 t
  else gen_helper_1 HELPER_clrsb_i32 ret arg.

Definition tcg_gen_clrsb_i64 (ret arg : Z) : Gen unit :=
  if TCG_TARGET_HAS_clz_i64 || TCG_TARGET_HAS_clz_i32 then
    t <- tcg_temp_ebb_new_i64;;
    tcg_gen_sari_i64 t arg 63;;
    tcg_gen_xor_i64 t t arg;;
    tcg_gen_clzi_i64 t t 64;;
    tcg_gen_subi_i64 ret t 1;;
    tcg_temp_free_i64 t
  else gen_helper_1 HELPER_clrsb_i64 ret arg.

(** ** 32-bit double-word arithmetic *)

Definition tcg_gen_add2_i32 (rl rh al ah bl bh : Z) : Gen unit :=
  if TCG_TARGET_HAS_add2_i32 then tcg_gen_op6_i32 INDEX_op_add2_i32 rl rh al ah bl bh
  else
    t0 <- tcg_temp_ebb_new_i64;;
    t1 <- tcg_temp_ebb_new_i64;;
    tcg_gen_concat_i32_i64 t0 al ah;;
    tcg_gen_concat_i32_i64 t1 bl bh;;
    tcg_gen_add_i64 t0 t0 t1;;
    tcg_gen_extr_i64_i32 rl rh t0;;
    tcg_temp_free_i64 t0;;
    tcg_temp_free_i64 t1.

Definition tcg_gen_sub2_i32 (rl rh al ah bl bh : Z) : Gen unit :=
  if TCG_TARGET_HAS_sub2_i32 then tcg_gen_op6_i32 INDEX_op_sub2_i32 rl rh al ah bl bh
  else
    t0 <- tcg_temp_ebb_new_i64;;
    t1 <- tcg_temp_ebb_new_i64;;
    tcg_gen_concat_i32_i64 t0 al ah;;
    tcg_gen_concat_i32_i64 t1 bl bh;;
    tcg_gen_sub_i64 t0 t0 t1;;
    tcg_gen_extr_i64_i32 rl rh t0;;
    tcg_temp_free_i64 t0;;
    tcg_temp_free_i64 t1.

Definition tcg_gen_mulu2_i32 (rl rh arg1 arg2 : Z) : Gen unit :=
  if TCG_TARGET_HAS_mulu2_i32 then tcg_gen_op4_i32 INDEX_op_mulu2_i32 rl rh arg1 arg2
  else if TCG_TARGET_HAS_muluh_i32 then
    t <- tcg_temp_ebb_new_i32;;
    tcg_gen_op3_i32 INDEX_op_mul_i32 t arg1 arg2;;
    tcg_gen_op3_i32 INDEX_op_muluh_i32 rh arg1 arg2;;
    tcg_gen_mov_i32 rl t;;
    tcg_temp_free_i32 t
  else if TCG_TARGET_REG_BITS =? 64 then
    t0 <- tcg_temp_ebb_new_i64;;
    t1 <- tcg_temp_ebb_new_i64;;
    tcg_gen_extu_i32_i64 t0 arg1;;
    tcg_gen_extu_i32_i64 t1 arg2;;
    tcg_gen_mul_i64 t0 t0 t1;;
    tcg_gen_extr_i64_i32 rl rh t0;;
    tcg_temp_free_i64 t0;;
    tcg_temp_free_i64 t1
  else g_assert_not_reached.

Definition tcg_gen_muls2_i32 (rl rh arg1 arg2 : Z) : Gen unit :=
  if TCG_TARGET_HAS_muls2_i32 then tcg_gen_op4_i32 INDEX_op_muls2_i32 rl rh arg1 arg2
  else if TCG_TARGET_HAS_mulsh_i32 then
    t <- tcg_temp_ebb_new_i32;;
    tcg_gen_op3_i32 INDEX_op_mul_i32 t arg1 arg2;;
    tcg_gen_op3_i32 INDEX_op_mulsh_i32 rh arg1 arg2;;
    tcg_gen_mov_i32 rl t;;
    tcg_temp_free_i32 t
  else if TCG_TARGET_REG_BITS =? 32 then
    t0 <- tcg_temp_ebb_new_i32;;
    t1 <- tcg_temp_ebb_new_i32;;
    t2 <- tcg_temp_ebb_new_i32;;
    t3 <- tcg_temp_ebb_new_i32;;
    tcg_gen_mulu2_i32 t0 t1 arg1 arg2;;
    tcg_gen_sari_i32 t2 arg1 31;;
    tcg_gen_sari_i32 t3 arg2 31;;
    tcg_gen_and_i32 t2 t2 arg2;;
    tcg_gen_and_i32 t3 t3 arg1;;
    tcg_gen_sub_i32 rh t1 t2;;
    tcg_gen_sub_i32 rh rh t3;;
    tcg_gen_mov_i32 rl t0;;
    tcg_temp_free_i32 t0;;
    tcg_temp_free_i32 t1;;
    tcg_temp_free_i32 t2;;
    tcg_temp_free_i32 t3
  else
    t0 <- tcg_temp_ebb_new_i64;;
    t1 <- tcg_temp_ebb_new_i64;;
    tcg_gen_ext_i32_i64 t0 arg1;;
    tcg_gen_ext_i32_i64 t1 arg2;;
    tcg_gen_mul_i64 t0 t0 t1;;
    tcg_gen_extr_i64_i32 rl rh t0;;
    tcg_temp_free_i64 t0;;
    tcg_temp_free_i64 t1.

Definition tcg_gen_mulsu2_i32 (rl rh arg1 arg2 : Z) : Gen unit :=
  if TCG_TARGET_REG_BITS =? 32 then
    t0 <- tcg_temp_ebb_new_i32;;
    t1 <- tcg_temp_ebb_new_i32;;
    t2 <- tcg_temp_ebb_new_i32;;
    tcg_gen_mulu2_i32 t0 t1 arg1 arg2;;
    tcg_gen_sari_i32 t2 arg1 31;;
    tcg_gen_and_i32 t2 t2 arg2;;
    tcg_gen_sub_i32 rh t1 t2;;
    tcg_gen_mov_i32 rl t0;;
    tcg_temp_free_i32 t0;;
    tcg_temp_free_i32 t1;;
    tcg_temp_free_i32 t2
  else
    t0 <- tcg_temp_ebb_new_i64;;
    t1 <- tcg_temp_ebb_new_i64;;
    tcg_gen_ext_i32_i64 t0 arg1;;
    tcg_gen_extu_i32_i64 t1 arg2;;
    tcg_gen_mul_i64 t0 t0 t1;;
    tcg_gen_extr_i64_i32 rl rh t0;;
    tcg_temp_free_i64 t0;;
    tcg_temp_free_i64 t1.

(** ** 128-bit values *)

Definition tcg_gen_extr_i128_i64 (lo hi arg : Z) : Gen unit :=
  tcg_gen_mov_i64 lo (TCGV128_LOW arg);;
  tcg_gen_mov_i64 hi (TCGV128_HIGH arg).

Definition tcg_gen_concat_i64_i128 (ret lo hi : Z) : Gen unit :=
  tcg_gen_mov_i64 (TCGV128_LOW ret) lo;;
  tcg_gen_mov_i64 (TCGV128_HIGH ret) hi.

Definition tcg_gen_mov_i128 (dst src : Z) : Gen unit :=
  if negb (dst =? src) then
    tcg_gen_mov_i64 (TCGV128_LOW dst) (TCGV128_LOW src);;
    tcg_gen_mov_i64 (TCGV128_HIGH dst) (TCGV128_HIGH src)
  else ret_ tt.

Definition tcg_gen_ld_i128 (ret base offset : Z) : Gen unit :=
  if HOST_BIG_ENDIAN then
    tcg_gen_ld_i64 (TCGV128_HIGH ret) base offset;;
    tcg_gen_ld_i64 (TCGV128_LOW ret) base (offset + 8)
  else
    tcg_gen_ld_i64 (TCGV128_LOW ret) base offset;;
    tcg_gen_ld_i64 (TCGV128_HIGH ret) base (offset + 8).

Definition tcg_gen_st_i128 (val base offset : Z) : Gen unit :=
  if HOST_BIG_ENDIAN then
    tcg_gen_st_i64 (TCGV128_HIGH val) base offset;;
    tcg_gen_st_i64 (TCGV128_LOW val) base (offset + 8)
  else
    tcg_gen_st_i64 (TCGV128_LOW val) base offset;;
    tcg_gen_st_i64 (TCGV128_HIGH val) base (offset + 8).

(** ** Exits of a translation block *)

Definition TB_EXIT_IDXMAX : Z := 1.
Definition TB_EXIT_REQUESTED : Z := 3.
Definition CF_NO_GOTO_TB : Z := 0x200.
Definition CF_NO_GOTO_PTR : Z := 0x400.

(** [rx] is [tcg_splitwx_to_rx]; a translation block is its address, 0 for
    [NULL].  The checks of a [CONFIG_DEBUG_TCG] build are included; the plugin
    hooks are those of a build without plugins. *)
Definition tcg_gen_exit_tb (rx : Z -> Z) (tb idx : Z) : Gen unit :=
  let val := rx tb + idx in
  m <- gets goto_tb_issue_mask;;
  (if tb =? 0 then tcg_debug_assert (idx =? 0)
   else if idx <=? TB_EXIT_IDXMAX then tcg_debug_assert (flag m (Z.shiftl 1 idx))
   else tcg_debug_assert (idx =? TB_EXIT_REQUESTED));;
  tcg_gen_op1i INDEX_op_exit_tb val.

Definition tcg_gen_goto_tb (idx : Z) : Gen unit :=
  f <- gets tb_cflags;;
  tcg_debug_assert (negb (flag f CF_NO_GOTO_TB));;
  tcg_debug_assert (idx <=? TB_EXIT_IDXMAX);;
  m <- gets goto_tb_issue_mask;;
  tcg_debug_assert (Z.land m (Z.shiftl 1 idx) =? 0);;
  (fun s => Done tt (set_goto_tb_issue_mask s (Z.lor m (Z.shiftl 1 idx))));;
  tcg_gen_op1i INDEX_op_goto_tb idx.

Definition tcg_gen_lookup_and_goto_ptr (rx : Z -> Z) (tcg_env : Z) : Gen unit :=
  f <- gets tb_cflags;;
  if flag f CF_NO_GOTO_PTR then tcg_gen_exit_tb rx 0 0
  else
    ptr <- tcg_temp_ebb_new_ptr;;
    gen_helper_1 HELPER_lookup_tb_ptr ptr tcg_env;;
    tcg_gen_op1i INDEX_op_goto_ptr ptr;;
    tcg_temp_free_ptr ptr.
End Mix.

(** Calls are found by name. *)
#[global] Typeclasses Opaque
  tcg_gen_extrl_i64_i32 tcg_gen_extrh_i64_i32 tcg_gen_concat_i32_i64 tcg_gen_extr_i64_i32
  tcg_gen_extr32_i64 tcg_gen_concat32_i64 tcg_gen_clz_i64 tcg_gen_clz_i32 tcg_gen_clzi_i32
  tcg_gen_clzi_i64 tcg_gen_ctpop_i64 tcg_gen_ctpop_i32 tcg_gen_ctz_i64 tcg_gen_ctz_i32
  tcg_gen_ctzi_i32 tcg_gen_ctzi_i64 tcg_gen_clrsb_i32 tcg_gen_clrsb_i64 tcg_gen_add2_i32
  tcg_gen_sub2_i32 tcg_gen_mulu2_i32 tcg_gen_muls2_i32 tcg_gen_mulsu2_i32
  tcg_gen_extr_i128_i64 tcg_gen_concat_i64_i128 tcg_gen_mov_i128 tcg_gen_ld_i128
  tcg_gen_st_i128 tcg_gen_exit_tb tcg_gen_goto_tb tcg_gen_lookup_and_goto_ptr.
