(* ===== verification/TcgTemps.v ===== *)
(** * Invariants of the temporaries

    Well-formedness of [TempState], which temporaries are in use, and what
    allocating, freeing and interning a constant do to them.  [grows n L c c']
    is the relation every generation function establishes: at most [n] new
    temporaries, exactly the temporaries [L] (and constants) newly in use,
    nothing that was in use given up or changed. *)

From Stdlib Require Import ZArith Lia Bool.
From stdpp Require Import base numbers functions list gmap.
From S2P Require Import Prelude.
From S2P Require Import Bytes.
From S2P Require Import Bitops.
From S2P Require Import BitCount.
From S2P Require Import TcgOpc.
From S2P Require Import TcgCtx.
From S2P Require Import TcgHelpers.
From S2P Require Import TcgSem.

Local Open Scope Z_scope.

(** ** Definitions *)

(** The temporary that a part belongs to. *)
Definition owner (c : TempState) (t : Z) : Z := t - temp_subindex (temps c t).

Definition in_use (c : TempState) (t : Z) : bool :=
  match kind (temps c t) with
  | TEMP_EBB => temp_allocated (temps c (owner c t))
  | _ => true
  end.

Definition live (c : TempState) (t : Z) : Prop := 0 <= t < nb_temps c /\ in_use c t = true.

(** A temporary that an op may write. *)
Definition writable (c : TempState) (t : Z) : Prop := live c t /\ is_const (temps c t) = false.

(** All fields but [temp_allocated]. *)
Definition static (ts : TCGTemp) : TCGTemp := set_temp_allocated true ts.

Record ext (c c' : TempState) : Prop := {
  ext_globals : nb_globals c' = nb_globals c;
  ext_nb : nb_temps c <= nb_temps c';
  ext_static : forall t, 0 <= t < nb_temps c -> static (temps c' t) = static (temps c t);
}.

Section Wf.
Context `{T : TcgTarget}.

(** A temporary of kind TEMP_EBB with all its parts. *)
Definition ebb_temp (c : TempState) (t : Z) : Prop :=
  kind (temps c t) = TEMP_EBB /\
  forall k, 0 <= k < type_temps (base_type (temps c t)) ->
    t + k < nb_temps c /\ kind (temps c (t + k)) = TEMP_EBB /\ temp_subindex (temps c (t + k)) = k.

(** What the constant table promises of an entry. *)
Definition const_entry_ok (c : TempState) (ty : TCGType) (v t : Z) : Prop :=
  0 <= t < nb_temps c /\
  if (TCG_TARGET_REG_BITS =? 32) && bool_decide (ty = TCG_TYPE_I64) then
    t + 1 < nb_temps c /\
    kind (temps c t) = TEMP_CONST /\ kind (temps c (t + 1)) = TEMP_CONST /\
    val (temps c (TCGV_LOW t)) = v /\ val (temps c (TCGV_HIGH t)) = Z.shiftr v 32
  else kind (temps c t) = TEMP_CONST /\ val (temps c t) = v.

Definition owner_ok (c : TempState) (t : Z) : Prop :=
  0 <= owner c t <= t /\ kind (temps c (owner c t)) = kind (temps c t).

Record wf (c : TempState) : Prop := {
  wf_nb : 0 <= nb_globals c <= nb_temps c /\ nb_temps c <= TCG_MAX_TEMPS;
  wf_free : forall ty i, 0 <= i < TCG_MAX_TEMPS -> Z.testbit (free_temps c ty) i = true ->
    i < nb_temps c /\ ebb_temp c i /\ base_type (temps c i) = ty /\
    temp_allocated (temps c i) = false;
  wf_const : forall ty v t, const_table c ty !! v = Some t -> const_entry_ok c ty v t;
  wf_sub : forall t, 0 <= t < nb_temps c -> owner_ok c t;
}.

Record grows (n : Z) (L : list Z) (c c' : TempState) : Prop := {
  gr_wf : wf c';
  gr_ext : ext c c';
  gr_nb : nb_temps c' <= nb_temps c + n;
  gr_live : forall t, live c t -> live c' t;
  gr_new : forall t, t ∈ L -> writable c' t /\ ~ live c t /\ ebb_temp c' t;
  gr_parts : forall x, owner c' x ∈ L -> ~ live c x;
  gr_only : forall t, live c' t -> live c t \/ owner c' t ∈ L \/ is_const (temps c' t) = true;
  gr_nodup : NoDup L;
}.

End Wf.

(** ** Static fields *)

Lemma static_kind a b : static a = static b -> kind a = kind b.
Proof. intros H. exact (f_equal kind H). Qed.
Lemma static_val a b : static a = static b -> val a = val b.
Proof. intros H. exact (f_equal val H). Qed.
Lemma static_sub a b : static a = static b -> temp_subindex a = temp_subindex b.
Proof. intros H. exact (f_equal temp_subindex H). Qed.
Lemma static_base a b : static a = static b -> base_type a = base_type b.
Proof. intros H. exact (f_equal base_type H). Qed.
Lemma static_const a b : static a = static b -> is_const a = is_const b.
Proof. intros H. unfold is_const. by rewrite (static_kind _ _ H). Qed.

Lemma ext_refl c : ext c c.
Proof. split; [done | lia | done]. Qed.

Lemma ext_trans c1 c2 c3 : ext c1 c2 -> ext c2 c3 -> ext c1 c3.
Proof.
  intros [H1 H2 H3] [K1 K2 K3]. split; [congruence | lia |].
  intros t Ht. rewrite K3, H3 by lia. done.
Qed.

Lemma ext_owner c c' t : ext c c' -> 0 <= t < nb_temps c -> owner c' t = owner c t.
Proof. intros H Ht. unfold owner. by rewrite (static_sub _ _ (ext_static _ _ H t Ht)). Qed.

Lemma ext_const c c' t : ext c c' -> 0 <= t < nb_temps c -> is_const (temps c' t) = is_const (temps c t).
Proof. intros H Ht. apply static_const. by apply H. Qed.

Lemma ext_rd c c' st t : ext c c' -> 0 <= t < nb_temps c -> rd c' st t = rd c st t.
Proof.
  intros H Ht. unfold rd. rewrite (ext_const c c' t H Ht).
  by rewrite (static_val _ _ (ext_static _ _ H t Ht)).
Qed.

Lemma const_in_use c t : is_const (temps c t) = true -> in_use c t = true.
Proof. unfold is_const, in_use. by destruct (kind (temps c t)). Qed.

(** ** Composing growth *)

Section Compose.
Context `{T : TcgTarget}.

Lemma ebb_temp_ext c c' t : ext c c' -> 0 <= t < nb_temps c -> ebb_temp c t -> ebb_temp c' t.
Proof.
  intros He Ht [K P]. pose proof (ext_static _ _ He t Ht) as Hs. split.
  - by rewrite (static_kind _ _ Hs).
  - intros k Hk. rewrite (static_base _ _ Hs) in Hk. destruct (P k Hk) as (Hn & Hk' & Hsub).
    pose proof (ext_nb _ _ He).
    pose proof (ext_static _ _ He (t + k) ltac:(lia)) as Hs'.
    rewrite (static_kind _ _ Hs'), (static_sub _ _ Hs'). split; [lia | done].
Qed.

Lemma grows_refl c : wf c -> grows 0 [] c c.
Proof.
  intros H. split; [done | apply ext_refl | lia | done | | | by left | constructor].
  - intros t Ht. by apply not_elem_of_nil in Ht.
  - intros x Hx. by apply not_elem_of_nil in Hx.
Qed.

Lemma grows_live n L c c' t : grows n L c c' -> live c t -> live c' t.
Proof. intros H. apply H. Qed.

Lemma grows_writable n L c c' t : grows n L c c' -> writable c t -> writable c' t.
Proof.
  intros H [Hl Hc]. split; [by apply H |].
  rewrite (ext_const c c'); [done | apply H | apply Hl].
Qed.

Lemma grows_trans n1 L1 n2 L2 c1 c2 c3 :
  grows n1 L1 c1 c2 -> grows n2 L2 c2 c3 -> grows (n1 + n2) (L2 ++ L1) c1 c3.
Proof.
  intros H1 H2. pose proof (ext_trans _ _ _ (gr_ext _ _ _ _ H1) (gr_ext _ _ _ _ H2)) as He.
  split; [apply H2 | done | | | | | |].
  - pose proof (gr_nb _ _ _ _ H1). pose proof (gr_nb _ _ _ _ H2). lia.
  - intros t Ht. by apply H2, H1.
  - intros t [Ht | Ht]%elem_of_app.
    + destruct (gr_new _ _ _ _ H2 t Ht) as (W & N & E). split; [done |].
      split; [intros Hl; by apply N, H1 | done].
    + destruct (gr_new _ _ _ _ H1 t Ht) as (W & N & E).
      split; [by apply (grows_writable _ _ _ _ t H2 W) |]. split; [done |].
      apply (ebb_temp_ext c2); [apply H2 | apply W | done].
  - intros x [Hx | Hx]%elem_of_app.
    + intros Hl. apply (gr_parts _ _ _ _ H2 x Hx). by apply H1.
    + intros Hl. assert (Hb : 0 <= x < nb_temps c2) by (apply (grows_live _ _ _ _ _ H1 Hl)).
      rewrite (ext_owner c2 c3) in Hx; [| apply H2 | done]. by apply (gr_parts _ _ _ _ H1 x Hx).
  - intros t Ht. destruct (gr_only _ _ _ _ H2 t Ht) as [Hl | [Ho | Hc]].
    + assert (Hb : 0 <= t < nb_temps c2) by apply Hl.
      destruct (gr_only _ _ _ _ H1 t Hl) as [Hl1 | [Ho1 | Hc1]].
      * by left.
      * right. left. rewrite (ext_owner c2 c3); [| apply H2 | done].
        apply elem_of_app. by right.
      * right. right. rewrite (ext_const c2 c3); [done | apply H2 | done].
    + right. left. apply elem_of_app. by left.
    + by right; right.
  - apply NoDup_app. split; [apply H2 |]. split; [| apply H1].
    intros t Ht2 Ht1. destruct (gr_new _ _ _ _ H2 t Ht2) as (_ & N & _).
    destruct (gr_new _ _ _ _ H1 t Ht1) as (W & _). apply N, W.
Qed.

Lemma grows_weaken n m L c c' : grows n L c c' -> n <= m -> grows m L c c'.
Proof. intros [] Hle. split; try done. lia. Qed.

End Compose.

(** ** Allocation *)

Section Alloc.
Context `{T : TcgTarget}.

Lemma const_entry_ext c c' ty v t :
  ext c c' -> const_entry_ok c ty v t -> const_entry_ok c' ty v t.
Proof.
  intros He [Ht H]. pose proof (ext_nb _ _ He). split; [lia |].
  destruct (_ && _).
  - destruct H as (Hn & K0 & K1 & V0 & V1). split; [lia |].
    pose proof (ext_static _ _ He t Ht) as S0.
    pose proof (ext_static _ _ He (t + 1) ltac:(lia)) as S1.
    rewrite (static_kind _ _ S0), (static_kind _ _ S1). split; [done |]. split; [done |].
    unfold TCGV_LOW, TCGV_HIGH in *. destruct HOST_BIG_ENDIAN; cbn [b2z negb] in *;
      rewrite ?Z.add_0_r in *; by rewrite (static_val _ _ S0), (static_val _ _ S1).
  - pose proof (ext_static _ _ He t Ht) as S0.
    by rewrite (static_kind _ _ S0), (static_val _ _ S0).
Qed.

(** Preserving well-formedness when the constants stay. *)
Lemma wf_preserved c c' :
  wf c -> ext c c' -> nb_temps c' <= TCG_MAX_TEMPS -> const_table c' = const_table c ->
  (forall t, nb_temps c <= t < nb_temps c' -> owner_ok c' t) ->
  (forall ty i, 0 <= i < TCG_MAX_TEMPS -> Z.testbit (free_temps c' ty) i = true ->
    i < nb_temps c' /\ ebb_temp c' i /\ base_type (temps c' i) = ty /\
    temp_allocated (temps c' i) = false) ->
  wf c'.
Proof.
  intros H He Hmax Hct Hown Hfree. pose proof (ext_nb _ _ He). pose proof (ext_globals _ _ He).
  pose proof (wf_nb _ H). split; [lia | done | |].
  - intros ty v t Hl. rewrite Hct in Hl. eapply const_entry_ext; [done |]. by apply H.
  - intros t Ht. destruct (Z.ltb_spec t (nb_temps c)).
    + destruct (wf_sub _ H t) as [Ho Hk]; [lia |].
      unfold owner_ok. rewrite (ext_owner c c') by (done || lia). split; [done |].
      rewrite (static_kind _ _ (ext_static _ _ He (owner c t) ltac:(lia))).
      rewrite (static_kind _ _ (ext_static _ _ He t ltac:(lia))). done.
    + apply Hown. lia.
Qed.

Lemma find_first_bit_free c ty :
  find_first_bit (free_temps c ty) TCG_MAX_TEMPS < TCG_MAX_TEMPS ->
  0 <= find_first_bit (free_temps c ty) TCG_MAX_TEMPS /\
  Z.testbit (free_temps c ty) (find_first_bit (free_temps c ty) TCG_MAX_TEMPS) = true.
Proof.
  unfold find_first_bit. intros Hlt. destruct (Z.eq_dec (uint TCG_MAX_TEMPS (free_temps c ty)) 0) as [E | E].
  - rewrite ctz_w_zero in Hlt by done. lia.
  - destruct (ctz_w_spec TCG_MAX_TEMPS (free_temps c ty)) as (H0 & H1 & _); [done | done |]. split; [lia | done].
Qed.

(** The state after reusing the free temporary [idx]. *)
Definition reuse (c : TempState) (ty : TCGType) (idx : Z) : TempState :=
  set_temps (set_free_temps c (<[ty := Z.clearbit (free_temps c ty) idx]> (free_temps c)))
    (nb_temps c) (<[idx := set_temp_allocated true (temps c idx)]> (temps c)).

Lemma reuse_static c ty idx t : static (temps (reuse c ty idx) t) = static (temps c t).
Proof.
  unfold reuse. cbn [temps set_temps]. destruct (decide (t = idx)) as [-> | Hne].
  - by rewrite fn_lookup_insert.
  - by rewrite fn_lookup_insert_ne.
Qed.

Lemma reuse_ext c ty idx : ext c (reuse c ty idx).
Proof. split; [done | cbn; lia |]. intros t _. apply reuse_static. Qed.

Lemma reuse_owner c ty idx t : owner (reuse c ty idx) t = owner c t.
Proof. unfold owner. by rewrite (static_sub _ _ (reuse_static c ty idx t)). Qed.

Lemma reuse_in_use c ty idx t :
  in_use (reuse c ty idx) t = true <->
  in_use c t = true \/ (kind (temps c t) = TEMP_EBB /\ owner c t = idx).
Proof.
  unfold in_use. rewrite (static_kind _ _ (reuse_static c ty idx t)), reuse_owner.
  unfold reuse. cbn [temps set_temps]. destruct (decide (owner c t = idx)) as [<- | Hne].
  - rewrite fn_lookup_insert. destruct (kind (temps c t)); cbn; tauto.
  - rewrite fn_lookup_insert_ne by done. destruct (kind (temps c t)); tauto.
Qed.

Lemma reuse_wf c ty idx :
  wf c -> 0 <= idx < TCG_MAX_TEMPS -> Z.testbit (free_temps c ty) idx = true -> wf (reuse c ty idx).
Proof.
  intros H Hi Hb. pose proof (wf_nb _ H). apply (wf_preserved c); [done | apply reuse_ext | cbn; lia | done | |].
  - cbn. lia.
  - intros ty' i Hi' Hf. destruct (wf_free _ H ty idx Hi Hb) as (Hn & He & Hbt & Ha).
    assert (Hf' : Z.testbit (free_temps c ty') i = true /\ i <> idx).
    { unfold reuse in Hf. cbn [free_temps set_temps set_free_temps] in Hf.
      destruct (decide (ty' = ty)) as [-> | Hne].
      - rewrite fn_lookup_insert in Hf. destruct (decide (i = idx)) as [-> | Hni].
        + by rewrite Z.clearbit_eq in Hf.
        + by rewrite Z.clearbit_neq in Hf by done.
      - rewrite fn_lookup_insert_ne in Hf by done. split; [done |]. intros ->.
        destruct (wf_free _ H ty' idx Hi Hf) as (_ & _ & Hbt' & _). congruence. }
    destruct Hf' as [Hf' Hne]. destruct (wf_free _ H ty' i Hi' Hf') as (Hn' & He' & Hbt' & Ha').
    split; [done |]. split; [apply (ebb_temp_ext c); [apply reuse_ext | lia | done] |].
    unfold reuse. cbn [temps set_temps]. rewrite fn_lookup_insert_ne by done. done.
Qed.

Lemma reuse_grows c ty idx :
  wf c -> 0 <= idx < TCG_MAX_TEMPS -> Z.testbit (free_temps c ty) idx = true -> 0 < type_temps ty ->
  grows 0 [idx] c (reuse c ty idx).
Proof.
  intros H Hi Hb Hty. destruct (wf_free _ H ty idx Hi Hb) as (Hn & He & Hbt & Ha).
  assert (Hsub : temp_subindex (temps c idx) = 0).
  { destruct He as [_ P]. destruct (P 0) as (_ & _ & S); [rewrite Hbt; lia |]. by rewrite Z.add_0_r in S. }
  assert (Hown : owner c idx = idx) by (unfold owner; lia).
  assert (Hnl : forall x, kind (temps c x) = TEMP_EBB -> owner c x = idx -> ~ live c x).
  { intros x Hk Ho [_ Hu]. unfold in_use in Hu. rewrite Hk, Ho in Hu. congruence. }
  split; [by apply reuse_wf | apply reuse_ext | cbn; lia | | | | |].
  - intros t [Ht Hu]. split; [done |]. apply reuse_in_use. by left.
  - intros t ->%list_elem_of_singleton. split; [split; [split |] | split].
    + cbn. lia.
    + apply reuse_in_use. right. split; [apply He | done].
    + rewrite (static_const _ _ (reuse_static c ty idx idx)). unfold is_const.
      destruct He as [-> _]. done.
    + apply Hnl; [apply He | done].
    + apply (ebb_temp_ext c); [apply reuse_ext | lia | done].
  - intros x Hx%list_elem_of_singleton. rewrite reuse_owner in Hx. intros Hl.
    destruct (wf_sub _ H x) as [_ Hk]; [apply Hl |]. rewrite Hx in Hk.
    apply (Hnl x); [rewrite <- Hk; apply He | done | done].
  - intros t [Ht [Hu | [Hk Ho]]%reuse_in_use].
    + left. by split.
    + right. left. rewrite reuse_owner, Ho. by apply list_elem_of_singleton.
  - apply NoDup_singleton.
Qed.

(** Appending temporaries. *)
Record appended (m : Z) (c c' : TempState) : Prop := {
  ap_pos : 0 <= m;
  ap_nb : nb_temps c' = nb_temps c + m;
  ap_globals : nb_globals c' = nb_globals c;
  ap_old : forall t, 0 <= t < nb_temps c -> temps c' t = temps c t;
  ap_free : free_temps c' = free_temps c;
}.

Lemma appended_ext m c c' : appended m c c' -> ext c c'.
Proof.
  intros [Hm Hn Hg Ho Hf]. split; [done | lia |]. intros t Ht. by rewrite Ho.
Qed.

Lemma appended_wf m c c' :
  wf c -> appended m c c' -> nb_temps c + m <= TCG_MAX_TEMPS ->
  (forall ty v t, const_table c' ty !! v = Some t ->
     const_table c ty !! v = Some t \/ const_entry_ok c' ty v t) ->
  (forall t, nb_temps c <= t < nb_temps c + m -> owner_ok c' t) ->
  wf c'.
Proof.
  intros H Ha Hmax Hct Hown. pose proof (appended_ext _ _ _ Ha) as He.
  pose proof (wf_nb _ H). destruct Ha as [Hm Hn Hg Ho Hf]. split; [lia | | |].
  - intros ty i Hi Hb. rewrite Hf in Hb. destruct (wf_free _ H ty i Hi Hb) as (B & E & Bt & A).
    split; [lia |]. split; [by apply (ebb_temp_ext c); [| lia |] |]. by rewrite Ho by lia.
  - intros ty v t Hl. destruct (Hct ty v t Hl) as [Hl' | ?]; [| done].
    eapply const_entry_ext; [done |]. by apply H.
  - intros t Ht. destruct (Z.ltb_spec t (nb_temps c)); [| apply Hown; lia].
    destruct (wf_sub _ H t) as [Hot Hk]; [lia |]. unfold owner_ok.
    rewrite (ext_owner c c') by (done || lia). split; [done |]. by rewrite !Ho by lia.
Qed.

Lemma appended_live m c c' t :
  wf c -> appended m c c' -> 0 <= t < nb_temps c -> (live c' t <-> live c t).
Proof.
  intros H Ha Ht. pose proof (appended_ext _ _ _ Ha) as He. destruct Ha as [Hm Hn Hg Ho Hf].
  unfold live, in_use. rewrite (ext_owner c c') by done.
  destruct (wf_sub _ H t) as [Hot _]; [lia |]. rewrite !Ho by lia. rewrite Hn. intuition lia.
Qed.

Lemma appended_temp_grows m c c' :
  wf c -> appended m c c' -> 0 < m -> nb_temps c + m <= TCG_MAX_TEMPS ->
  const_table c' = const_table c ->
  type_temps (base_type (temps c' (nb_temps c))) = m ->
  (forall j, 0 <= j < m -> kind (temps c' (nb_temps c + j)) = TEMP_EBB /\
     temp_subindex (temps c' (nb_temps c + j)) = j) ->
  temp_allocated (temps c' (nb_temps c)) = true ->
  grows m [nb_temps c] c c'.
Proof.
  intros H Ha Hm Hmax Hct Hty Hnew Hal. set (n := nb_temps c) in *.
  pose proof (wf_nb _ H) as Hnb. fold n in Hnb. pose proof (ap_nb _ _ _ Ha) as Hn. fold n in Hn.
  assert (Hown : forall t, n <= t < n + m -> owner c' t = n /\ kind (temps c' t) = TEMP_EBB).
  { intros t Ht. destruct (Hnew (t - n)) as [K S]; [lia |].
    replace (n + (t - n)) with t in K, S by lia. unfold owner. rewrite S. split; [lia | done]. }
  assert (Kn : kind (temps c' n) = TEMP_EBB) by (apply Hown; lia).
  assert (Hlive : live c' n).
  { split; [lia |]. unfold in_use. rewrite Kn. destruct (Hown n) as [-> _]; [lia | done]. }
  split.
  - apply (appended_wf m c); [done | done | lia | rewrite Hct; by left |]. fold n.
    intros t Ht. destruct (Hown t Ht) as [E K]. unfold owner_ok. rewrite E, K, Kn. split; [lia | done].
  - by apply (appended_ext m).
  - lia.
  - intros t Hl. apply (appended_live m c c' t); [done | done | apply Hl | done].
  - intros t ->%list_elem_of_singleton. split; [split; [done |] | split].
    + unfold is_const. by rewrite Kn.
    + intros [Hb _]. lia.
    + split; [done |]. intros k Hk. rewrite Hty in Hk. split; [lia |]. by apply Hnew.
  - intros x Hx%list_elem_of_singleton Hl.
    destruct (wf_sub _ H x) as [Hox _]; [apply Hl |].
    rewrite (ext_owner c c') in Hx; [| by apply (appended_ext m) | apply Hl]. destruct Hl as [Hb _]. lia.
  - intros t Ht. destruct (Z.ltb_spec t n).
    + left. apply (appended_live m c c' t); [done | done | destruct Ht; lia | done].
    + right. left. destruct (Hown t) as [-> _]; [destruct Ht; lia |]. by apply list_elem_of_singleton.
  - apply NoDup_singleton.
Qed.

Lemma appended_const_grows m c c' :
  wf c -> appended m c c' -> nb_temps c + m <= TCG_MAX_TEMPS ->
  (forall ty v t, const_table c' ty !! v = Some t ->
     const_table c ty !! v = Some t \/ const_entry_ok c' ty v t) ->
  (forall t, nb_temps c <= t < nb_temps c + m -> owner_ok c' t /\ is_const (temps c' t) = true) ->
  grows m [] c c'.
Proof.
  intros H Ha Hmax Hct Hnew. pose proof (ap_nb _ _ _ Ha) as Hn. split.
  - apply (appended_wf m c); [done | done | lia | done |]. intros t Ht. by apply Hnew.
  - by apply (appended_ext m).
  - lia.
  - intros t Hl. apply (appended_live m c c' t); [done | done | apply Hl | done].
  - intros t Ht. by apply not_elem_of_nil in Ht.
  - intros x Hx. by apply not_elem_of_nil in Hx.
  - intros t Ht. destruct (Z.ltb_spec t (nb_temps c)).
    + left. apply (appended_live m c c' t); [done | done | destruct Ht; lia | done].
    + right. right. apply Hnew. destruct Ht. lia.
  - constructor.
Qed.

End Alloc.

(** ** The operations *)

Section Operations.
Context `{T : TcgTarget} `{L : !TcgTargetLaws T}.

Lemma set_tmp_tmp s : set_tmp s (tmp s) = s.
Proof. by destruct s. Qed.

Lemma set_tmp_twice s c c' : set_tmp (set_tmp s c) c' = set_tmp s c'.
Proof. done. Qed.

Lemma tcg_temp_alloc_eq s :
  nb_temps (tmp s) < TCG_MAX_TEMPS ->
  tcg_temp_alloc s =
  Done (nb_temps (tmp s))
    (set_tmp s (set_temps (tmp s) (nb_temps (tmp s) + 1)
                  (<[nb_temps (tmp s) := zero_temp]> (temps (tmp s))))).
Proof.
  intros H. unfold tcg_temp_alloc, bind, get_tmp. rewrite Z.geb_leb.
  destruct (Z.leb_spec TCG_MAX_TEMPS (nb_temps (tmp s))); [lia | done].
Qed.

Lemma set_temp_eq s n ts :
  set_temp n ts s = Done tt (set_tmp s (set_temps (tmp s) (nb_temps (tmp s)) (<[n := ts]> (temps (tmp s))))).
Proof. done. Qed.

Lemma type_temps_scalar ty :
  ty = TCG_TYPE_I32 \/ ty = TCG_TYPE_I64 -> 1 <= type_temps ty <= 2.
Proof.
  intros [-> | ->]; cbn; [lia |]. destruct reg_bits_32_64 as [-> | ->]; done.
Qed.

Lemma alloc_fresh_spec ty s :
  ty = TCG_TYPE_I32 \/ ty = TCG_TYPE_I64 ->
  wf (tmp s) -> nb_temps (tmp s) + type_temps ty <= TCG_MAX_TEMPS ->
  exists c', alloc_fresh ty TEMP_EBB s = Done (nb_temps (tmp s)) (set_tmp s c') /\
    grows (type_temps ty) [nb_temps (tmp s)] (tmp s) c' /\
    base_type (temps c' (nb_temps (tmp s))) = ty.
Proof.
  intros Hty H Hroom. pose proof (type_temps_scalar ty Hty) as Hn. pose proof (wf_nb _ H) as Hnb.
  unfold alloc_fresh, bind. rewrite tcg_temp_alloc_eq by lia. rewrite set_temp_eq.
  cbn [tmp set_tmp nb_temps set_temps temps].
  set (n := nb_temps (tmp s)) in *. set (f := temps (tmp s)) in *.
  assert (type_temps ty = 1 \/ type_temps ty = 2) as [E | E] by lia; rewrite E.
  - change (Z.to_nat (1 - 1)) with 0%nat. change (1 =? 1) with true. cbn [alloc_parts ret_]. eexists. split; [done |].
    split.
    + apply appended_temp_grows; fold n; [done | | lia | lia | done | | |].
      * split; [lia | done | done | | done]. fold n. intros t Ht. cbn [temps set_temps].
        by rewrite !fn_lookup_insert_ne by lia.
      * cbn [temps set_temps]. by rewrite fn_lookup_insert.
      * intros j Hj. assert (j = 0) as -> by lia. rewrite Z.add_0_r. cbn [temps set_temps].
        by rewrite fn_lookup_insert.
      * cbn [temps set_temps]. by rewrite fn_lookup_insert.
    + cbn [temps set_temps]. by rewrite fn_lookup_insert.
  - change (Z.to_nat (2 - 1)) with 1%nat. change (2 =? 1) with false.
    cbn [alloc_parts]. unfold bind. rewrite tcg_temp_alloc_eq by (cbn; lia).
    cbn [tmp set_tmp nb_temps set_temps temps]. unfold tcg_debug_assert. rewrite Z.eqb_refl.
    rewrite set_temp_eq. cbn [tmp set_tmp nb_temps set_temps temps ret_]. eexists. split; [done |].
    split.
    + apply appended_temp_grows; fold n; [done | | lia | lia | done | | |].
      * split; [lia | cbn; fold n; lia | done | | done]. fold n. intros t Ht. cbn [temps set_temps].
        by rewrite !fn_lookup_insert_ne by lia.
      * cbn [temps set_temps]. rewrite !fn_lookup_insert_ne, fn_lookup_insert by lia. done.
      * intros j Hj. assert (j = 0 \/ j = 1) as [-> | ->] by lia; cbn [temps set_temps].
        -- rewrite Z.add_0_r, !fn_lookup_insert_ne, fn_lookup_insert by lia. done.
        -- by rewrite fn_lookup_insert.
      * cbn [temps set_temps]. by rewrite !fn_lookup_insert_ne, fn_lookup_insert by lia.
    + cbn [temps set_temps]. by rewrite !fn_lookup_insert_ne, fn_lookup_insert by lia.
Qed.

Lemma tcg_temp_new_ebb_spec ty s :
  ty = TCG_TYPE_I32 \/ ty = TCG_TYPE_I64 ->
  wf (tmp s) -> nb_temps (tmp s) + type_temps ty <= TCG_MAX_TEMPS ->
  exists t c', tcg_temp_new_internal ty TEMP_EBB s = Done t (set_tmp s c') /\
    grows (type_temps ty) [t] (tmp s) c' /\ base_type (temps c' t) = ty.
Proof.
  intros Hty H Hroom. unfold tcg_temp_new_internal. rewrite bool_decide_eq_true_2 by done.
  unfold bind at 1, get_tmp.
  set (idx := find_first_bit (free_temps (tmp s) ty) TCG_MAX_TEMPS).
  destruct (Z.ltb_spec idx TCG_MAX_TEMPS) as [Hlt | Hge].
  - destruct (find_first_bit_free (tmp s) ty Hlt) as [H0 Hb]. fold idx in H0, Hb.
    destruct (wf_free _ H ty idx ltac:(lia) Hb) as (Hn & [Hk _] & Hbt & _).
    unfold bind, put_tmp. rewrite set_temp_eq. unfold tcg_debug_assert.
    rewrite !bool_decide_eq_true_2 by done. exists idx, (reuse (tmp s) ty idx).
    split; [done |]. pose proof (type_temps_scalar ty Hty). split.
    + apply (grows_weaken 0); [| lia]. apply reuse_grows; [done | lia | done | lia].
    + by rewrite (static_base _ _ (reuse_static (tmp s) ty idx idx)).
  - destruct (alloc_fresh_spec ty s Hty H Hroom) as (c' & E & G & B). eauto.
Qed.

(** *** Freeing *)

Definition freed (c : TempState) (t : Z) : TempState :=
  let bt := base_type (temps c t) in
  set_free_temps (set_temps c (nb_temps c) (<[t := set_temp_allocated false (temps c t)]> (temps c)))
    (<[bt := Z.setbit (free_temps c bt) t]> (free_temps c)).

Lemma freed_static c t x : static (temps (freed c t) x) = static (temps c x).
Proof.
  unfold freed. cbn [temps set_temps set_free_temps]. destruct (decide (x = t)) as [-> | Hne].
  - by rewrite fn_lookup_insert.
  - by rewrite fn_lookup_insert_ne.
Qed.

Lemma freed_ext c t : ext c (freed c t).
Proof. split; [done | cbn; lia |]. intros x _. apply freed_static. Qed.

Lemma freed_owner c t x : owner (freed c t) x = owner c x.
Proof. unfold owner. by rewrite (static_sub _ _ (freed_static c t x)). Qed.

Lemma freed_in_use c t x :
  in_use (freed c t) x = true <->
  in_use c x = true /\ ~ (kind (temps c x) = TEMP_EBB /\ owner c x = t).
Proof.
  unfold in_use. rewrite (static_kind _ _ (freed_static c t x)), freed_owner.
  unfold freed. cbn [temps set_temps set_free_temps]. destruct (decide (owner c x = t)) as [<- | Hne].
  - rewrite fn_lookup_insert. destruct (kind (temps c x)); cbn; intuition done.
  - rewrite fn_lookup_insert_ne by done. destruct (kind (temps c x)); intuition done.
Qed.

Lemma freed_wf c t : wf c -> 0 <= t < nb_temps c -> ebb_temp c t -> wf (freed c t).
Proof.
  intros H Ht He. pose proof (wf_nb _ H).
  apply (wf_preserved c); [done | apply freed_ext | cbn; lia | done | cbn; lia |].
  intros ty i Hi Hb. unfold freed in Hb. cbn [free_temps set_free_temps set_temps] in Hb.
  assert (Hcase : (i = t /\ ty = base_type (temps c t)) \/
                  (i <> t /\ Z.testbit (free_temps c ty) i = true)).
  { destruct (decide (ty = base_type (temps c t))) as [-> | Hne].
    - rewrite fn_lookup_insert, Z.setbit_eqb in Hb by lia.
      destruct (Z.eqb_spec t i) as [-> | Hti]; [by left | right]. split; [done |]. done.
    - rewrite fn_lookup_insert_ne in Hb by done. destruct (decide (i = t)) as [-> |]; [| by right].
      destruct (wf_free _ H ty t Hi Hb) as (_ & _ & Hbt & _). congruence. }
  destruct Hcase as [[-> ->] | [Hne Hf]].
  - split; [cbn; lia |]. split; [apply (ebb_temp_ext c); [apply freed_ext | done | done] |].
    split; [by rewrite (static_base _ _ (freed_static c t t)) |].
    unfold freed. cbn [temps set_temps set_free_temps]. by rewrite fn_lookup_insert.
  - destruct (wf_free _ H ty i Hi Hf) as (Hn & He' & Hbt & Ha).
    split; [done |]. split; [apply (ebb_temp_ext c); [apply freed_ext | lia | done] |].
    split; [by rewrite (static_base _ _ (freed_static c t i)) |].
    unfold freed. cbn [temps set_temps set_free_temps]. by rewrite fn_lookup_insert_ne.
Qed.

Lemma elem_of_middle (x t : Z) L1 L2 : x ∈ L1 ++ t :: L2 <-> x = t \/ x ∈ L1 ++ L2.
Proof. rewrite !elem_of_app, elem_of_cons. tauto. Qed.

Lemma NoDup_middle (t : Z) L1 L2 : NoDup (L1 ++ t :: L2) <-> ~ t ∈ L1 ++ L2 /\ NoDup (L1 ++ L2).
Proof. by rewrite <- Permutation_middle, NoDup_cons. Qed.

Lemma type_temps_pos ty : 0 < type_temps ty.
Proof.
  destruct ty; cbn; try lia; destruct reg_bits_32_64 as [E | E]; rewrite E; done.
Qed.

Lemma freed_grows n L1 t L2 c0 c :
  wf c0 -> grows n (L1 ++ t :: L2) c0 c -> grows n (L1 ++ L2) c0 (freed c t).
Proof.
  intros H0 G. assert (Htin : t ∈ L1 ++ t :: L2) by (apply elem_of_middle; by left).
  destruct (gr_new _ _ _ _ G t Htin) as ([[Ht Hu] Hc] & Hnl & He).
  destruct (proj1 (NoDup_middle t L1 L2) (gr_nodup _ _ _ _ G)) as [Hnt Hnd].
  assert (HinL : forall x, x ∈ L1 ++ L2 -> x ∈ L1 ++ t :: L2 /\ x <> t).
  { intros x Hx. split; [apply elem_of_middle; by right |]. by intros ->. }
  assert (Hlive0 : forall x, live c0 x -> owner c x <> t).
  { intros x Hx Ho. apply (gr_parts _ _ _ _ G x); [| done]. by rewrite Ho. }
  assert (Hself : forall x, x ∈ L1 ++ t :: L2 -> owner c x = x).
  { intros x Hx. destruct (gr_new _ _ _ _ G x Hx) as ([[Hx0 Hxu] _] & _ & [Hk P]).
    unfold owner. destruct (P 0) as (_ & _ & S); [pose proof (type_temps_pos (base_type (temps c x))); lia |].
    rewrite Z.add_0_r in S. lia. }
  split.
  - apply freed_wf; [apply G | done | done].
  - apply (ext_trans _ c); [apply G | apply freed_ext].
  - apply G.
  - intros x Hx. destruct (gr_live _ _ _ _ G x Hx) as [Hb Hux]. split; [done |].
    apply freed_in_use. split; [done |]. intros [_ Ho]. by apply (Hlive0 x).
  - intros x Hx. destruct (HinL x Hx) as [Hx' Hne].
    destruct (gr_new _ _ _ _ G x Hx') as ([[Hxb Hxu] Hxc] & Hxn & Hxe). split; [| split; [done |]].
    + split; [split; [done |] |].
      * apply freed_in_use. split; [done |]. intros [_ Ho]. rewrite (Hself x Hx') in Ho. done.
      * by rewrite (static_const _ _ (freed_static c t x)).
    + apply (ebb_temp_ext c); [apply freed_ext | done | done].
  - intros x Hx. rewrite freed_owner in Hx. apply (gr_parts _ _ _ _ G). by apply HinL.
  - intros x [Hb Hux]. apply freed_in_use in Hux as [Hux Hno].
    destruct (gr_only _ _ _ _ G x (conj Hb Hux)) as [Hl | [Ho | Hk]].
    + by left.
    + right. left. rewrite freed_owner. 
      apply elem_of_middle in Ho as [Eo | Ho]; [| done]. exfalso. apply Hno. split; [| done].
      destruct (wf_sub _ (gr_wf _ _ _ _ G) x Hb) as [_ Hk]. rewrite <- Hk, Eo. apply He.
    + right. right. by rewrite (static_const _ _ (freed_static c t x)).
  - done.
Qed.

Lemma tcg_temp_free_spec t s :
  ebb_temp (tmp s) t -> temp_allocated (temps (tmp s) t) = true ->
  tcg_temp_free_internal t s = Done tt (set_tmp s (freed (tmp s) t)).
Proof.
  intros [Hk _] Ha. unfold tcg_temp_free_internal, bind, get_tmp. rewrite Hk.
  unfold tcg_debug_assert. rewrite Ha. done.
Qed.

Lemma tcg_temp_free_const t s :
  is_const (temps (tmp s) t) = true -> tcg_temp_free_internal t s = Done tt s.
Proof.
  intros Hc. unfold tcg_temp_free_internal, bind, get_tmp. unfold is_const in Hc.
  by destruct (kind (temps (tmp s) t)).
Qed.

(** *** Constants *)

(** The table after interning: the new entry or an old one. *)
Lemma const_table_insert (tbl : TCGType -> gmap Z Z) ty v t ty' v' t' :
  (<[ty := <[v := t]> (tbl ty)]> tbl) ty' !! v' = Some t' ->
  tbl ty' !! v' = Some t' \/ (ty' = ty /\ v' = v /\ t' = t).
Proof.
  destruct (decide (ty' = ty)) as [-> | Hne].
  - rewrite fn_lookup_insert. destruct (decide (v' = v)) as [-> | Hv].
    + rewrite lookup_insert_eq. intros [= ->]. by right.
    + rewrite lookup_insert_ne by done. by left.
  - rewrite fn_lookup_insert_ne by done. by left.
Qed.

Definition split_const (ty : TCGType) : bool :=
  (TCG_TARGET_REG_BITS =? 32) && bool_decide (ty = TCG_TYPE_I64).

Lemma split_const_temps ty :
  ty = TCG_TYPE_I32 \/ ty = TCG_TYPE_I64 -> type_temps ty = if split_const ty then 2 else 1.
Proof.
  unfold split_const. intros [-> | ->]; destruct reg_bits_32_64 as [E | E]; cbn; by rewrite E.
Qed.

Lemma tcg_constant_internal_spec ty v s :
  ty = TCG_TYPE_I32 \/ ty = TCG_TYPE_I64 ->
  wf (tmp s) -> nb_temps (tmp s) + type_temps ty <= TCG_MAX_TEMPS ->
  exists t c', tcg_constant_internal ty v s = Done t (set_tmp s c') /\
    grows (type_temps ty) [] (tmp s) c' /\ const_entry_ok c' ty v t.
Proof.
  intros Hty H Hroom. pose proof (type_temps_pos ty). pose proof (wf_nb _ H) as Hnb.
  unfold tcg_constant_internal. unfold bind at 1, get_tmp.
  destruct (const_table (tmp s) ty !! v) as [t |] eqn:Hl.
  { exists t, (tmp s). rewrite set_tmp_tmp. split; [done |]. split; [| by apply H].
    apply (grows_weaken 0); [by apply grows_refl | lia]. }
  rewrite (split_const_temps ty Hty) in *. fold (split_const ty). unfold bind at 1.
  rewrite tcg_temp_alloc_eq by (destruct (split_const ty); lia).
  set (n := nb_temps (tmp s)) in *. exists n. destruct (split_const ty) eqn:Hs.
  - unfold bind. rewrite tcg_temp_alloc_eq by (cbn; fold n; lia). unfold tcg_debug_assert.
    cbn [tmp set_tmp nb_temps set_temps temps]. rewrite Z.eqb_refl, !set_temp_eq.
    unfold add_const, bind, get_tmp, put_tmp, ret_.
    cbn [tmp set_tmp nb_temps set_temps temps]. rewrite !set_tmp_twice. eexists. split; [reflexivity |].
    match goal with |- grows _ _ _ ?c' /\ _ => set (c1 := c') end.
    assert (V0 : temps c1 n = new_temp TCG_TYPE_I64 TCG_TYPE_I32 TEMP_CONST 0
                   (if HOST_BIG_ENDIAN then Z.shiftr v 32 else v)).
    { unfold c1. cbn [temps set_temps set_const_table]. by rewrite fn_lookup_insert_ne, fn_lookup_insert by lia. }
    assert (V1 : temps c1 (n + 1) = new_temp TCG_TYPE_I64 TCG_TYPE_I32 TEMP_CONST 1
                   (if HOST_BIG_ENDIAN then v else Z.shiftr v 32)).
    { unfold c1. cbn [temps set_temps set_const_table]. by rewrite fn_lookup_insert. }
    assert (Hok : const_entry_ok c1 ty v n).
    { split; [unfold c1; cbn; fold n; lia |]. fold (split_const ty). rewrite Hs.
      split; [unfold c1; cbn; fold n; lia |].
      rewrite V0, V1. split; [done |]. split; [done |].
      unfold TCGV_LOW, TCGV_HIGH. destruct HOST_BIG_ENDIAN eqn:Hbe; cbn [b2z negb];
        rewrite ?Z.add_0_r, V0, V1; done. }
    split; [| done]. apply appended_const_grows; [done | | fold n; lia | |].
    + split; [lia | unfold c1; cbn; fold n; lia | done | | done]. fold n. intros t Ht.
      unfold c1. cbn [temps set_temps set_const_table]. by rewrite !fn_lookup_insert_ne by lia.
    + intros ty' v' t' Hl'. unfold c1 in Hl'. cbn [const_table set_const_table] in Hl'.
      destruct (const_table_insert _ _ _ _ _ _ _ Hl') as [? | (-> & -> & ->)]; [by left | by right].
    + fold n. intros t Ht. assert (t = n \/ t = n + 1) as [-> | ->] by lia; unfold owner_ok, owner.
      * rewrite V0. cbn [temp_subindex new_temp]. change (uint 1 0) with 0. rewrite Z.sub_0_r, V0.
        split; [split; [lia | done] | done].
      * rewrite V1. cbn [temp_subindex new_temp]. change (uint 1 1) with 1.
        replace (n + 1 - 1) with n by lia. rewrite V0. split; [split; [lia | done] | done].
  - unfold bind. rewrite set_temp_eq. unfold add_const, bind, get_tmp, put_tmp, ret_.
    cbn [tmp set_tmp nb_temps set_temps temps]. rewrite !set_tmp_twice. eexists. split; [reflexivity |].
    match goal with |- grows _ _ _ ?c' /\ _ => set (c1 := c') end.
    assert (V0 : temps c1 n = new_temp ty ty TEMP_CONST 0 v).
    { unfold c1. cbn [temps set_temps set_const_table]. by rewrite fn_lookup_insert. }
    assert (Hok : const_entry_ok c1 ty v n).
    { split; [unfold c1; cbn; fold n; lia |]. fold (split_const ty). by rewrite Hs, V0. }
    split; [| done]. apply appended_const_grows; [done | | fold n; lia | |].
    + split; [lia | unfold c1; cbn; fold n; lia | done | | done]. fold n. intros t Ht.
      unfold c1. cbn [temps set_temps set_const_table]. by rewrite !fn_lookup_insert_ne by lia.
    + intros ty' v' t' Hl'. unfold c1 in Hl'. cbn [const_table set_const_table] in Hl'.
      destruct (const_table_insert _ _ _ _ _ _ _ Hl') as [? | (-> & -> & ->)]; [by left | by right].
    + fold n. intros t Ht. assert (t = n) as -> by lia. unfold owner_ok, owner.
      rewrite V0. cbn [temp_subindex new_temp]. change (uint 1 0) with 0. rewrite Z.sub_0_r, V0.
      split; [split; [lia | done] | done].
Qed.

End Operations.
