(* ===== verification/TcgWp.v ===== *)
(** * Reasoning about code generation

    [wp m c st Q]: started with the temporaries [c], the generation function
    [m] succeeds, appends ops that the target supports and that, run from the
    machine state [st], fall through to a state satisfying [Q].  The rules
    below and the tactics at the end are the ones the proofs about tcg-op.c
    use. *)

From Stdlib Require Import ZArith Lia Bool.
From stdpp Require Import base numbers functions list gmap.
From S2P Require Import Prelude.
From S2P Require Import Bytes.
From S2P Require Import Bitops.
From S2P Require Import TcgCond.
From S2P Require Import TcgOpc.
From S2P Require Import TcgCtx.
From S2P Require Import TcgHelpers.
From S2P Require Import TcgSem.
From S2P Require Import TcgTemps.

Local Open Scope Z_scope.

(** ** Ops and the context they run in *)

Section Ops.
Context `{T : TcgTarget} `{Orc : Oracle} `{Ov : Overshift}.

(** The arguments of an op that are temporaries. *)
Definition op_temps (op : TCGOp) : list Z :=
  match opc op with
  | INDEX_op_call => take (Z.to_nat (TCGOP_CALLO op) + Z.to_nat (TCGOP_CALLI op)) (args op)
  | _ => op_outs op ++ op_ins op
  end.

Record op_ok (c : TempState) (op : TCGOp) : Prop := {
  ok_supported : tcg_op_supported (opc op) = Some true;
  ok_temps : Forall (fun t => 0 <= t < nb_temps c) (op_temps op);
}.

Lemma op_ok_ext c c' op : ext c c' -> op_ok c op -> op_ok c' op.
Proof.
  intros He [Hs Ht]. split; [done |]. eapply Forall_impl; [done |].
  intros t Hb. pose proof (ext_nb _ _ He). cbn in *. lia.
Qed.

(** Two contexts that agree on some temporaries. *)
Definition agree (c c' : TempState) (l : list Z) : Prop :=
  Forall (fun t => is_const (temps c' t) = is_const (temps c t) /\ val (temps c' t) = val (temps c t)) l.

Lemma agree_ext c c' l : ext c c' -> Forall (fun t => 0 <= t < nb_temps c) l -> agree c c' l.
Proof.
  intros He Hl. eapply Forall_impl; [done |]. intros t Ht. cbn in *.
  pose proof (ext_static _ _ He t Ht) as Hs.
  split; [by apply static_const | by apply static_val].
Qed.

Lemma agree_rd c c' l st : agree c c' l -> map (rd c' st) l = map (rd c st) l.
Proof.
  induction 1 as [| t l [Hc Hv] _ IH]; [done |]. cbn. f_equal; [| done]. unfold rd.
  rewrite Hc, Hv. reflexivity.
Qed.

Lemma agree_write c c' l st w j vs :
  agree c c' l -> write_outs c' st w j l vs = write_outs c st w j l vs.
Proof.
  intros H. revert st vs. induction H as [| t l [Hc Hv] _ IH]; intros st vs; [done |].
  destruct vs as [| v vs]; [done |]. cbn [write_outs]. rewrite Hc. destruct (is_const (temps c t)); [reflexivity | apply IH].
Qed.

Lemma agree_app c c' l1 l2 : agree c c' (l1 ++ l2) -> agree c c' l1 /\ agree c c' l2.
Proof. apply Forall_app. Qed.

Lemma exec_pure_agree c c' op st :
  agree c c' (op_outs op ++ op_ins op) -> exec_pure c' op st = exec_pure c op st.
Proof.
  intros [Ho Hi]%agree_app. unfold exec_pure. rewrite (agree_rd c c') by done.
  destruct (eval_i32 _ _ _); [by rewrite (agree_write c c') by done |].
  destruct (eval_i64 _ _ _); [by rewrite (agree_write c c') by done | done].
Qed.

Lemma exec_call_agree c c' op st :
  agree c c' (take (Z.to_nat (TCGOP_CALLO op) + Z.to_nat (TCGOP_CALLI op)) (args op)) ->
  exec_call c' op st = exec_call c op st.
Proof.
  intros H. unfold exec_call. set (no := Z.to_nat (TCGOP_CALLO op)) in *.
  set (ni := Z.to_nat (TCGOP_CALLI op)) in *.
  assert (Hs : take (no + ni) (args op) = take no (args op) ++ take ni (drop no (args op)))
    by (symmetry; apply take_take_drop).
  rewrite Hs in H. apply agree_app in H as [Ho Hi]. rewrite (agree_rd c c') by done.
  destruct (drop (no + ni) (args op)) as [| code [| x [|]]]; try done.
  destruct (helper_of_code code) as [h |]; [| done]. destruct (param_values _ _ _); [| done].
  destruct (helper_eval _ _ _); [| done]. destruct (ret_words _ _).
  by rewrite (agree_write c c') by done.
Qed.

Lemma agree_rd1 c c' l st t : agree c c' l -> t ∈ l -> rd c' st t = rd c st t.
Proof.
  intros H Ht. unfold agree in H. rewrite Forall_forall in H. destruct (H t Ht) as [Hc Hv].
  unfold rd. by rewrite Hc, Hv.
Qed.

Lemma agree_head c c' t l : agree c c' (t :: l) -> agree c c' [t].
Proof. intros H. inversion H; subst. by constructor. Qed.

Ltac agree_args :=
  match goal with
  | Ha : agree _ _ (op_outs ?op ++ op_ins ?op), E : opc ?op = _ |- _ =>
      unfold op_outs, op_ins in Ha; rewrite E in Ha;
      let l := fresh "l" in
      remember (args op) as l eqn:El;
      repeat (destruct l as [| ? l]; try reflexivity); cbn in Ha
  end.

(** The meaning of an op depends only on the temporaries it names. *)
Lemma exec_op_ext c c' op st : ext c c' -> op_ok c op -> exec_op c' op st = exec_op c op st.
Proof.
  intros He [_ Ht]. pose proof (agree_ext c c' _ He Ht) as Ha. clear He Ht.
  unfold exec_op, op_temps in *. destruct (opc op) eqn:E;
    try (by apply exec_pure_agree); try (by apply exec_call_agree); try reflexivity;
    unfold exec_ld, exec_st, exec_brcond, exec_brcond2, host_addr; agree_args;
    rewrite ?(agree_rd1 c c' _ st _ Ha) by (rewrite ?elem_of_cons; tauto);
    rewrite ?(agree_write c c') by (by eapply agree_head); reflexivity.
Qed.

End Ops.

(** ** Weakest preconditions *)

Section Wp.
Context `{T : TcgTarget} `{L : !TcgTargetLaws T} `{Orc : Oracle} `{Ov : Overshift}.

Definition wp {A} (m : Gen A) (c : TempState) (st : mstate)
    (Q : A -> TempState -> mstate -> Prop) : Prop :=
  forall s, tmp s = c ->
  exists a s' l st',
    m s = Done a s' /\ ops s' = ops s ++ l /\ nb_ops s' = nb_ops s + Z.of_nat (length l) /\
    ext c (tmp s') /\ Forall (op_ok (tmp s')) l /\
    run (tmp s') l st = Fall st' /\ Q a (tmp s') st'.

Lemma run_app c l1 l2 st :
  run c (l1 ++ l2) st = match run c l1 st with Fall st' => run c l2 st' | r => r end.
Proof.
  revert st. induction l1 as [| op l1 IH]; intros st; [done |]. cbn.
  destruct (exec_op c op st); [apply IH | done ..].
Qed.

Lemma run_ext c c' l st : ext c c' -> Forall (op_ok c) l -> run c' l st = run c l st.
Proof.
  intros He Hl. revert st. induction Hl as [| op l Hop _ IH]; intros st; [done |]. cbn.
  rewrite (exec_op_ext c c') by done. destruct (exec_op c op st); [apply IH | done ..].
Qed.

Lemma wp_ret {A} (a : A) c st Q : Q a c st -> wp (ret_ a) c st Q.
Proof.
  intros HQ s <-. exists a, s, [], st. rewrite app_nil_r. split_and!;
    first [done | cbn; lia | apply ext_refl | by constructor].
Qed.

Lemma wp_bind {A B} (m : Gen A) (f : A -> Gen B) c st Q :
  wp m c st (fun a c' st' => wp (f a) c' st' Q) -> wp (bind m f) c st Q.
Proof.
  intros H s Hs. destruct (H s Hs) as (a & s1 & l1 & st1 & E1 & O1 & N1 & X1 & F1 & R1 & H2).
  destruct (H2 s1 eq_refl) as (b & s2 & l2 & st2 & E2 & O2 & N2 & X2 & F2 & R2 & HQ).
  exists b, s2, (l1 ++ l2), st2. unfold bind. rewrite E1. split_and!; try done.
  - by rewrite O2, O1, app_assoc.
  - rewrite N2, N1, length_app. lia.
  - by apply (ext_trans _ (tmp s1)).
  - apply Forall_app. split; [| done]. eapply Forall_impl; [done |]. intros op. by apply op_ok_ext.
  - rewrite run_app, (run_ext (tmp s1)), R1 by done. done.
Qed.

Lemma wp_mono {A} (m : Gen A) c st (Q Q' : A -> TempState -> mstate -> Prop) :
  wp m c st Q -> (forall a c' st', Q a c' st' -> Q' a c' st') -> wp m c st Q'.
Proof.
  intros H HQ s Hs. destruct (H s Hs) as (a & s' & l & st' & E & O & N & X & F & R & HP).
  exists a, s', l, st'. split_and!; try done. by apply HQ.
Qed.

Lemma wp_assert b c st Q : b = true -> Q tt c st -> wp (tcg_debug_assert b) c st Q.
Proof.
  intros -> HQ s <-. exists tt, s, [], st. rewrite app_nil_r. split_and!;
    first [done | cbn; lia | apply ext_refl | by constructor].
Qed.

(** A step that only changes the temporaries. *)
Lemma wp_tmp {A} (m : Gen A) c st (P : A -> TempState -> Prop) Q :
  (forall s, tmp s = c -> exists a c', m s = Done a (set_tmp s c') /\ ext c c' /\ P a c') ->
  (forall a c', P a c' -> Q a c' st) -> wp m c st Q.
Proof.
  intros H HQ s Hs. destruct (H s Hs) as (a & c' & E & X & HP).
  exists a, (set_tmp s c'), [], st. rewrite app_nil_r. split_and!;
    first [done | cbn; lia | by constructor | by apply HQ].
Qed.

(** An op with its identity and parameters forgotten. *)
Definition mk_op (o : TCGOpcode) (l : list Z) : TCGOp :=
  {| ptr := 0; opc := o; nargs := 0; param1 := 0; param2 := 0; args := l |}.

Lemma exec_op_mk c op st :
  param1 op = 0 -> param2 op = 0 -> exec_op c op st = exec_op c (mk_op (opc op) (args op)) st.
Proof. destruct op as [p o n p1 p2 l]. cbn [param1 param2]. intros -> ->. destruct o; reflexivity. Qed.

Lemma tcg_op_alloc_eq o n s :
  exists op s', tcg_op_alloc o n s = Done op s' /\ opc op = o /\
    tmp s' = tmp s /\ ops s' = ops s /\ nb_ops s' = nb_ops s + 1.
Proof.
  unfold tcg_op_alloc. destruct (take_free_op n (free_ops s)) as [[old r] |]; do 2 eexists; done.
Qed.

Lemma op_temps_mk op : param1 op = 0 -> param2 op = 0 -> op_temps op = op_temps (mk_op (opc op) (args op)).
Proof. destruct op as [p o n p1 p2 l]. cbn [param1 param2]. intros -> ->. reflexivity. Qed.

Lemma wp_emit o l c st st' Q :
  tcg_op_supported o = Some true ->
  Forall (fun t => 0 <= t < nb_temps c) (op_temps (mk_op o l)) ->
  exec_op c (mk_op o l) st = Fall st' -> Q tt c st' ->
  wp (tcg_emit_op o l) c st Q.
Proof.
  intros Hsup Ht Hex HQ s <-. unfold tcg_emit_op, bind.
  destruct (tcg_op_alloc_eq o (Z.of_nat (length l)) s) as (op & s1 & -> & Eo & Et & Eops & En).
  unfold insert_tail. do 2 eexists. exists [with_args op 0 0 l], st'.
  split; [reflexivity |]. cbn [ops set_ops nb_ops tmp length]. rewrite Eops, En, Et.
  split; [done |]. split; [lia |]. split; [apply ext_refl |]. split; [| split; [| done]].
  - constructor; [| constructor]. split; [by cbn; rewrite Eo |].
    rewrite op_temps_mk by done. cbn [opc args with_args]. by rewrite Eo.
  - cbn [run]. rewrite exec_op_mk by done. cbn [opc args with_args]. by rewrite Eo, Hex.
Qed.

End Wp.

(** ** Values, updates and traces *)

(** The [w]-bit value of a temporary. *)
Definition V (w : Z) (c : TempState) (st : mstate) (t : Z) : Z := uint w (rd c st t).

(** [st'] is [st] with [v] in [r]; the other temporaries in use and the memory
    are as they were. *)
Record upd (w : Z) (c : TempState) (st : mstate) (r v : Z) (c' : TempState) (st' : mstate) : Prop := {
  up_val : V w c' st' r = uint w v;
  up_frame : forall t, live c t -> t <> r -> rd c' st' t = rd c st t;
  up_mem : mem st' = mem st;
}.

(** The same with two results. *)
Record upd2 (w : Z) (c : TempState) (st : mstate) (r1 v1 r2 v2 : Z)
    (c' : TempState) (st' : mstate) : Prop := {
  up2_val1 : V w c' st' r1 = uint w v1;
  up2_val2 : V w c' st' r2 = uint w v2;
  up2_frame : forall t, live c t -> t <> r1 -> t <> r2 -> rd c' st' t = rd c st t;
  up2_mem : mem st' = mem st;
}.

Section Trace.
Context `{T : TcgTarget} `{L : !TcgTargetLaws T} `{Orc : Oracle} `{Ov : Overshift}.

(** What has happened since [c0], [st0]: the temporaries [l] are local, the
    temporaries [outs] have been written. *)
Record trace (n : Z) (l outs : list Z) (c0 : TempState) (st0 : mstate)
    (c : TempState) (st : mstate) : Prop := {
  tr_grows : grows n l c0 c;
  tr_frame : forall t, live c0 t -> t ∉ outs -> rd c st t = rd c0 st0 t;
  tr_mem : mem st = mem st0;
}.

Lemma trace_refl c st : wf c -> trace 0 [] [] c st c st.
Proof. intros H. split; [by apply grows_refl | done | done]. Qed.

Lemma trace_upd n m l outs w c0 st0 c st r v c' st' :
  trace n l outs c0 st0 c st -> grows m [] c c' -> upd w c st r v c' st' ->
  trace (n + m) l (r :: outs) c0 st0 c' st'.
Proof.
  intros [G F M] G' [_ F' M']. split; [| | congruence].
  - by apply (grows_trans n l m [] c0 c c').
  - intros t Ht [Hr Ho]%not_elem_of_cons. rewrite F' by (done || by apply G). by apply F.
Qed.

Lemma trace_upd_again n m l outs w c0 st0 c st r v c' st' :
  trace n l outs c0 st0 c st -> grows m [] c c' -> upd w c st r v c' st' -> r ∈ outs ->
  trace (n + m) l outs c0 st0 c' st'.
Proof.
  intros H G' U Hr. pose proof (trace_upd _ _ _ _ _ _ _ _ _ _ _ _ _ H G' U) as [G F M].
  split; [done | | done]. intros t Ht Ho. apply F; [done |]. intros [-> | ?]%elem_of_cons; done.
Qed.

Lemma trace_upd_local n m l outs w c0 st0 c st r v c' st' :
  trace n l outs c0 st0 c st -> grows m [] c c' -> upd w c st r v c' st' -> r ∈ l ->
  trace (n + m) l outs c0 st0 c' st'.
Proof.
  intros H G' U Hr. pose proof (trace_upd _ _ _ _ _ _ _ _ _ _ _ _ _ H G' U) as [G F M].
  split; [done | | done]. intros t Ht Ho. apply F; [done |]. intros [-> | ?]%elem_of_cons; [| done].
  by destruct (gr_new _ _ _ _ (tr_grows _ _ _ _ _ _ _ H) r Hr) as (_ & Hn & _).
Qed.

(** A step that only changes the temporaries. *)
Lemma trace_tmp n m l l' outs c0 st0 c st c' :
  trace n l outs c0 st0 c st -> grows m l' c c' -> trace (n + m) (l' ++ l) outs c0 st0 c' st.
Proof.
  intros [G F M] G'. split; [by apply (grows_trans n l m l' c0 c c') | | done].
  intros t Ht Ho. rewrite <- (F t Ht Ho). apply ext_rd; [apply G' |]. by apply (gr_live _ _ _ _ G).
Qed.

Lemma trace_free n l1 t l2 outs c0 st0 c st :
  wf c0 -> trace n (l1 ++ t :: l2) outs c0 st0 c st ->
  trace n (l1 ++ l2) outs c0 st0 (freed c t) st.
Proof.
  intros H0 [G F M]. split; [by apply freed_grows | | done].
  intros x Hx Ho. rewrite <- (F x Hx Ho). apply ext_rd; [apply freed_ext |]. by apply (gr_live _ _ _ _ G).
Qed.

(** The effect of a whole function. *)
Lemma trace_done n c0 st0 c st w r v :
  trace n [] [r] c0 st0 c st -> V w c st r = uint w v ->
  grows n [] c0 c /\ upd w c0 st0 r v c st.
Proof.
  intros [G F M] HV. split; [done |]. split; [done | | done].
  intros t Ht Hne. apply F; [done |]. by apply not_elem_of_cons; split; [| apply not_elem_of_nil].
Qed.

Lemma trace_done2 n c0 st0 c st w r1 v1 r2 v2 outs :
  trace n [] outs c0 st0 c st -> (forall t, t ∈ outs -> t = r1 \/ t = r2) ->
  V w c st r1 = uint w v1 -> V w c st r2 = uint w v2 ->
  grows n [] c0 c /\ upd2 w c0 st0 r1 v1 r2 v2 c st.
Proof.
  intros [G F M] Ho HV1 HV2. split; [done |]. split; [done | done | | done].
  intros t Ht Hne1 Hne2. apply F; [done |]. intros Hin. by destruct (Ho t Hin).
Qed.

(** *** Transporting facts over a step *)

Lemma upd_V w' w c st r v c' st' x e :
  upd w c st r v c' st' -> live c x -> x <> r -> V w' c st x = e -> V w' c' st' x = e.
Proof. intros U Hl Hne <-. unfold V. by rewrite (up_frame _ _ _ _ _ _ _ U). Qed.

Lemma upd2_V w' w c st r1 v1 r2 v2 c' st' x e :
  upd2 w c st r1 v1 r2 v2 c' st' -> live c x -> x <> r1 -> x <> r2 ->
  V w' c st x = e -> V w' c' st' x = e.
Proof. intros U Hl Hne1 Hne2 <-. unfold V. by rewrite (up2_frame _ _ _ _ _ _ _ _ _ U). Qed.

Lemma ext_V w c c' st x e : ext c c' -> live c x -> V w c st x = e -> V w c' st x = e.
Proof. intros He [Hb _] <-. unfold V. by rewrite (ext_rd c c'). Qed.

Lemma live_new_ne n t c c' x : grows n [t] c c' -> live c x -> x <> t.
Proof.
  intros G Hx ->. destruct (gr_new _ _ _ _ G t) as (_ & Hn & _); [by apply list_elem_of_singleton | done].
Qed.

Lemma new_writable n t c c' : grows n [t] c c' -> writable c' t.
Proof. intros G. apply (gr_new _ _ _ _ G t). by apply list_elem_of_singleton. Qed.

Lemma const_ne c k r : is_const (temps c k) = true -> writable c r -> k <> r.
Proof. intros Hk [_ Hr] ->. congruence. Qed.

Lemma freed_writable c t x :
  writable c x -> x <> t -> temp_subindex (temps c x) = 0 -> writable (freed c t) x.
Proof.
  intros [[Hb Hu] Hc] Hne Hs. split; [split; [done |] |].
  - apply freed_in_use. split; [done |]. unfold owner. intros [_ E]. lia.
  - by rewrite (static_const _ _ (freed_static c t x)).
Qed.

End Trace.

(** ** Rules for the primitives *)

Section Rules.
Context `{T : TcgTarget} `{L : !TcgTargetLaws T} `{Orc : Oracle} `{Ov : Overshift}.

(** A temporary that holds a constant. *)
Definition isc (c : TempState) (k : Z) : Prop := 0 <= k < nb_temps c /\ is_const (temps c k) = true.

Lemma isc_live c k : isc c k -> live c k.
Proof. intros [Hb Hc]. split; [done | by apply const_in_use]. Qed.

Lemma isc_ext c c' k : ext c c' -> isc c k -> isc c' k.
Proof.
  intros He [Hb Hc]. split; [pose proof (ext_nb _ _ He); lia |]. by rewrite (ext_const c c').
Qed.

Lemma isc_ne c k r : isc c k -> writable c r -> k <> r.
Proof. intros [_ Hk] [_ Hr] ->. congruence. Qed.

Lemma trace_live n l outs c0 st0 c st x : trace n l outs c0 st0 c st -> live c0 x -> live c x.
Proof. intros H. apply (tr_grows _ _ _ _ _ _ _ H). Qed.

Lemma trace_writable n l outs c0 st0 c st x :
  trace n l outs c0 st0 c st -> writable c0 x -> writable c x.
Proof. intros H. apply (grows_writable _ _ _ _ _ (tr_grows _ _ _ _ _ _ _ H)). Qed.

Lemma trace_local n l outs c0 st0 c st x : trace n l outs c0 st0 c st -> x ∈ l -> writable c x.
Proof. intros H Hx. by apply (gr_new _ _ _ _ (tr_grows _ _ _ _ _ _ _ H)). Qed.

Lemma local_ne_live n l outs c0 st0 c st x t :
  trace n l outs c0 st0 c st -> t ∈ l -> live c0 x -> x <> t.
Proof.
  intros H Ht Hx ->. by destruct (gr_new _ _ _ _ (tr_grows _ _ _ _ _ _ _ H) t Ht) as (_ & Hn & _).
Qed.

Lemma wp_temp_new ty c st Q :
  ty = TCG_TYPE_I32 \/ ty = TCG_TYPE_I64 ->
  wf c -> nb_temps c + type_temps ty <= TCG_MAX_TEMPS ->
  (forall t c', grows (type_temps ty) [t] c c' -> base_type (temps c' t) = ty -> Q t c' st) ->
  wp (tcg_temp_new_internal ty TEMP_EBB) c st Q.
Proof.
  intros Hty H Hroom HQ.
  apply (wp_tmp _ _ _ (fun t c' => grows (type_temps ty) [t] c c' /\ base_type (temps c' t) = ty)).
  - intros s <-. destruct (tcg_temp_new_ebb_spec ty s Hty H Hroom) as (t & c' & E & G & B).
    exists t, c'. split; [done |]. split; [apply G | done].
  - intros t c' [G B]. by apply HQ.
Qed.

Lemma type_temps_i64 : type_temps TCG_TYPE_I64 <= 2.
Proof. cbn. destruct reg_bits_32_64 as [-> | ->]; done. Qed.

Lemma wp_ebb_new_i32 c st Q :
  wf c -> nb_temps c + 1 <= TCG_MAX_TEMPS ->
  (forall t c', grows 1 [t] c c' -> Q t c' st) -> wp tcg_temp_ebb_new_i32 c st Q.
Proof. intros H Hroom HQ. apply wp_temp_new; [by left | done | done |]. intros t c' G _. by apply HQ. Qed.

Lemma wp_ebb_new_i64 c st Q :
  wf c -> nb_temps c + 2 <= TCG_MAX_TEMPS ->
  (forall t c', grows 2 [t] c c' -> base_type (temps c' t) = TCG_TYPE_I64 -> Q t c' st) ->
  wp tcg_temp_ebb_new_i64 c st Q.
Proof.
  intros H Hroom HQ. pose proof type_temps_i64. apply wp_temp_new; [by right | done | lia |].
  intros t c' G B. apply HQ; [| done]. by apply (grows_weaken (type_temps TCG_TYPE_I64)).
Qed.

Lemma wp_ebb_new_i64_reg64 c st Q :
  TCG_TARGET_REG_BITS = 64 -> wf c -> nb_temps c + 1 <= TCG_MAX_TEMPS ->
  (forall t c', grows 1 [t] c c' -> Q t c' st) -> wp tcg_temp_ebb_new_i64 c st Q.
Proof.
  intros R H Hroom HQ. assert (E : type_temps TCG_TYPE_I64 = 1) by (cbn; by rewrite R).
  apply wp_temp_new; [by right | done | lia |]. rewrite E. intros t c' G _. by apply HQ.
Qed.

Lemma wp_temp_free n l1 t l2 outs c0 st0 c st Q :
  wf c0 -> trace n (l1 ++ t :: l2) outs c0 st0 c st ->
  (forall c', trace n (l1 ++ l2) outs c0 st0 c' st -> ext c c' -> Q tt c' st) ->
  wp (tcg_temp_free_internal t) c st Q.
Proof.
  intros H0 TR HQ. pose proof (tr_grows _ _ _ _ _ _ _ TR) as G.
  assert (Htin : t ∈ l1 ++ t :: l2) by (apply elem_of_middle; by left).
  destruct (gr_new _ _ _ _ G t Htin) as ([[Ht Hu] Hc] & _ & He).
  apply (wp_tmp _ _ _ (fun _ c' => c' = freed c t)).
  - intros s <-. exists tt, (freed (tmp s) t). split; [| split; [apply freed_ext | done]].
    apply tcg_temp_free_spec; [done |]. destruct He as [Hk P].
    unfold in_use in Hu. rewrite Hk in Hu. unfold owner in Hu.
    destruct (P 0) as (_ & _ & S); [pose proof (type_temps_pos (base_type (temps (tmp s) t))); lia |].
    rewrite Z.add_0_r in S. by rewrite S, Z.sub_0_r in Hu.
  - intros [] c' ->. apply HQ; [by apply trace_free | apply freed_ext].
Qed.

Lemma wp_temp_free_const k c st Q : isc c k -> Q tt c st -> wp (tcg_temp_free_internal k) c st Q.
Proof.
  intros [Hb Hc] HQ. apply (wp_tmp _ _ _ (fun _ c' => c' = c)).
  - intros s <-. exists tt, (tmp s). rewrite set_tmp_tmp.
    split; [by apply tcg_temp_free_const | split; [apply ext_refl | done]].
  - by intros [] c' ->.
Qed.

(** A constant that fits one temporary. *)
Lemma wp_constant ty v c st Q :
  ty = TCG_TYPE_I32 \/ ty = TCG_TYPE_I64 -> split_const ty = false ->
  wf c -> nb_temps c + 1 <= TCG_MAX_TEMPS ->
  (forall k c', grows 1 [] c c' -> isc c' k -> val (temps c' k) = v -> Q k c' st) ->
  wp (tcg_constant_internal ty v) c st Q.
Proof.
  intros Hty Hs H Hroom HQ.
  pose proof (split_const_temps ty Hty) as Hn. rewrite Hs in Hn.
  apply (wp_tmp _ _ _ (fun k c' => grows 1 [] c c' /\ const_entry_ok c' ty v k)).
  - intros s <-. destruct (tcg_constant_internal_spec ty v s Hty H) as (t & c' & E & G & K); [lia |].
    rewrite Hn in G. exists t, c'. split; [done |]. split; [apply G | done].
  - intros k c' [G [Hb K]]. fold (split_const ty) in K. rewrite Hs in K. destruct K as [Kk Kv].
    apply HQ; [done | | done]. split; [done |]. unfold is_const. by rewrite Kk.
Qed.

Lemma isc_V w c st k v : isc c k -> val (temps c k) = v -> V w c st k = uint w v.
Proof. intros [_ Hc] Hv. unfold V, rd. by rewrite Hc, Hv. Qed.

Lemma wp_constant_i32 v c st Q :
  wf c -> nb_temps c + 1 <= TCG_MAX_TEMPS ->
  (forall k c', grows 1 [] c c' -> isc c' k -> V 32 c' st k = uint 32 v -> Q k c' st) ->
  wp (tcg_constant_i32 v) c st Q.
Proof.
  intros H Hroom HQ. apply wp_constant; [by left | | done | done |].
  - unfold split_const. by rewrite bool_decide_eq_false_2, andb_false_r.
  - intros k c' G Hk Hv. apply HQ; [done | done |]. rewrite (isc_V 32 c' st k _ Hk Hv). by apply uint_sint.
Qed.

Lemma wp_constant_i64 v c st Q :
  TCG_TARGET_REG_BITS = 64 -> wf c -> nb_temps c + 1 <= TCG_MAX_TEMPS ->
  (forall k c', grows 1 [] c c' -> isc c' k -> V 64 c' st k = uint 64 v -> Q k c' st) ->
  wp (tcg_constant_i64 v) c st Q.
Proof.
  intros R64 H Hroom HQ. apply wp_constant; [by right | | done | done |].
  - unfold split_const. by rewrite R64.
  - intros k c' G Hk Hv. apply HQ; [done | done |]. rewrite (isc_V 64 c' st k _ Hk Hv). by apply uint_sint.
Qed.

(** *** Ops with one result *)

Lemma live_bounds c l : Forall (live c) l -> Forall (fun t => 0 <= t < nb_temps c) l.
Proof. intros H. eapply Forall_impl; [done |]. by intros t [Hb _]. Qed.

Lemma word_of_V w v j : w = 32 \/ w = 64 -> uint w (word_of w v j) = uint w v.
Proof.
  intros [-> | ->]; unfold word_of; cbn.
  - change (32 =? 32) with true. cbn. unfold uint at 1. rewrite Z_mod_plus_full. by apply uint_uint.
  - change (64 =? 32) with false. cbn. by apply uint_uint.
Qed.

Lemma set_reg_upd w c st r v j :
  w = 32 \/ w = 64 -> writable c r -> upd w c st r v c (set_reg st r (word_of w v j)).
Proof.
  intros Hw [_ Hc]. split; [| | done].
  - unfold V, rd. rewrite Hc. cbn. rewrite fn_lookup_insert. by apply word_of_V.
  - intros t _ Hne. unfold rd. cbn. by rewrite fn_lookup_insert_ne.
Qed.

(** An op whose meaning is [exec_pure]. *)
Definition pure_op (o : TCGOpcode) : Prop :=
  forall c op st, opc op = o -> exec_op c op st = exec_pure c op st.

(** The values [vs] of an op, up to the bits above the width. *)
Definition evals (w : Z) (o : TCGOpcode) (ins cargs vs : list Z) : Prop :=
  exists vs', map (uint w) vs' = map (uint w) vs /\
    (w = 32 /\ eval_i32 o ins cargs = Some vs' \/
     w = 64 /\ eval_i32 o ins cargs = None /\ eval_i64 o ins cargs = Some vs').

Lemma upd_eqm w c st r v v' c' st' :
  uint w v = uint w v' -> upd w c st r v c' st' -> upd w c st r v' c' st'.
Proof. intros E [H1 H2 H3]. split; [congruence | done | done]. Qed.

Lemma wp_pure o l outs ins cargs c st (P : mstate -> Prop) Q :
  tcg_op_supported o = Some true -> o <> INDEX_op_call -> pure_op o ->
  op_outs (mk_op o l) = outs -> op_ins (mk_op o l) = ins -> op_cargs (mk_op o l) = cargs ->
  Forall (live c) outs -> Forall (live c) ins ->
  (exists w j vs st', (w = 32 /\ eval_i32 o (map (rd c st) ins) cargs = Some vs \/
     w = 64 /\ j = 0 /\ eval_i32 o (map (rd c st) ins) cargs = None /\
     eval_i64 o (map (rd c st) ins) cargs = Some vs) /\
     (w = 32 -> j = junk o (map (rd c st) ins)) /\
     write_outs c st w j outs vs = Some st' /\ P st') ->
  (forall st', P st' -> Q tt c st') ->
  wp (tcg_emit_op o l) c st Q.
Proof.
  intros Hsup Hcall Hpure Ho Hi Hc Hlo Hli (w & j & vs & st' & Hev & Hj & Hw & HP) HQ.
  apply (wp_emit _ _ _ _ st'); [done | | | by apply HQ].
  - assert (Ht : op_temps (mk_op o l) = outs ++ ins).
    { unfold op_temps. cbn [opc mk_op]. rewrite <- Ho, <- Hi. destruct o; done. }
    rewrite Ht. apply Forall_app. split; by apply live_bounds.
  - rewrite (Hpure c (mk_op o l) st eq_refl). unfold exec_pure. rewrite Ho, Hi, Hc. cbn [opc mk_op].
    destruct Hev as [[-> ->] | (-> & -> & -> & ->)]; [rewrite <- Hj by done |]; by rewrite Hw.
Qed.

Lemma wp_pure1 w o r l ins cargs v c st Q :
  tcg_op_supported o = Some true -> o <> INDEX_op_call -> pure_op o ->
  op_outs (mk_op o (r :: l)) = [r] -> op_ins (mk_op o (r :: l)) = ins ->
  op_cargs (mk_op o (r :: l)) = cargs ->
  evals w o (map (rd c st) ins) cargs [v] ->
  wf c -> writable c r -> Forall (live c) ins ->
  (forall st', grows 0 [] c c -> upd w c st r v c st' -> Q tt c st') ->
  wp (tcg_emit_op o (r :: l)) c st Q.
Proof.
  intros Hsup Hcall Hpure Ho Hi Hc (vs & Evs & Hev) Hwf Hr Hins HQ.
  destruct vs as [| v' [|]]; try done. injection Evs as Ev.
  apply (wp_pure o (r :: l) [r] ins cargs c st (fun st' => upd w c st r v c st')); try done.
  - constructor; [apply Hr | constructor].
  - exists w, (if w =? 32 then junk o (map (rd c st) ins) else 0), [v'].
    exists (set_reg st r (word_of w v' (if w =? 32 then junk o (map (rd c st) ins) else 0))).
    assert (Hw : w = 32 \/ w = 64) by tauto. split; [| split; [| split]].
    + by destruct Hev as [[-> ?] | (-> & ? & ?)]; [left | right].
    + by intros ->.
    + cbn [write_outs]. by rewrite (proj2 Hr).
    + apply (upd_eqm w c st r v'); [done |]. by apply set_reg_upd.
  - intros st' U. apply HQ; [by apply grows_refl | done].
Qed.

Lemma set_reg2_upd w c st r1 r2 v1 v2 j :
  w = 32 \/ w = 64 -> writable c r1 -> writable c r2 -> r1 <> r2 ->
  upd2 w c st r1 v1 r2 v2 c (set_reg (set_reg st r1 (word_of w v1 j)) r2 (word_of w v2 j)).
Proof.
  intros Hw H1 H2 Hne.
  pose proof (set_reg_upd w c st r1 v1 j Hw H1) as U1.
  pose proof (set_reg_upd w c (set_reg st r1 (word_of w v1 j)) r2 v2 j Hw H2) as U2.
  split; [| apply U2 | | done].
  - rewrite <- (up_val _ _ _ _ _ _ _ U1). unfold V. f_equal. apply U2; [apply H1 | done].
  - intros t Ht Hne1 Hne2. rewrite (up_frame _ _ _ _ _ _ _ U2) by done. by apply U1.
Qed.

Lemma wp_pure2 w o r1 r2 l ins cargs v1 v2 c st Q :
  tcg_op_supported o = Some true -> o <> INDEX_op_call -> pure_op o ->
  op_outs (mk_op o (r1 :: r2 :: l)) = [r1; r2] -> op_ins (mk_op o (r1 :: r2 :: l)) = ins ->
  op_cargs (mk_op o (r1 :: r2 :: l)) = cargs ->
  evals w o (map (rd c st) ins) cargs [v1; v2] ->
  wf c -> writable c r1 -> writable c r2 -> r1 <> r2 -> Forall (live c) ins ->
  (forall st', grows 0 [] c c -> upd2 w c st r1 v1 r2 v2 c st' -> Q tt c st') ->
  wp (tcg_emit_op o (r1 :: r2 :: l)) c st Q.
Proof.
  intros Hsup Hcall Hpure Ho Hi Hc (vs & Evs & Hev) Hwf Hr1 Hr2 Hne Hins HQ.
  destruct vs as [| v1' [| v2' [|]]]; try done. injection Evs as Ev1 Ev2.
  apply (wp_pure o _ [r1; r2] ins cargs c st (fun st' => upd2 w c st r1 v1 r2 v2 c st')); try done.
  - constructor; [apply Hr1 |]. constructor; [apply Hr2 | constructor].
  - set (j := if w =? 32 then junk o (map (rd c st) ins) else 0). exists w, j, [v1'; v2'].
    exists (set_reg (set_reg st r1 (word_of w v1' j)) r2 (word_of w v2' j)).
    assert (Hw : w = 32 \/ w = 64) by tauto. split; [| split; [| split]].
    + by destruct Hev as [[-> ?] | (-> & ? & ?)]; [left | right].
    + by intros ->.
    + cbn [write_outs]. by rewrite (proj2 Hr1), (proj2 Hr2).
    + pose proof (set_reg2_upd w c st r1 r2 v1' v2' j Hw Hr1 Hr2 Hne) as [A1 A2 A3 A4].
      split; [congruence | congruence | done | done].
  - intros st' U. apply HQ; [by apply grows_refl | done].
Qed.

End Rules.
