(* ===== verification/TcgVal.v ===== *)
(** * Values computed by the expansions

    Identities on [w]-bit words, for the widths of TCG, that say that an
    expansion of tcg-op.c computes the value of the op it stands for. *)

From Stdlib Require Import ZArith Lia Bool.
From stdpp Require Import base numbers list.
From S2P Require Import Prelude.
From S2P Require Import Bytes.
From S2P Require Import Bitops.
From S2P Require Import BitCount.
From S2P Require Import BitopsSpec.
From S2P Require Import TcgCond.
From S2P Require Import TcgOpc.
From S2P Require Import TcgSem.
From S2P Require Import TcgHelpers.

Local Open Scope Z_scope.

Section Val.
Variable w : Z.
Hypothesis Hw : w = 32 \/ w = 64.

Lemma w_rot : rot_width w.
Proof. unfold rot_width. destruct Hw; lia. Qed.

Lemma shift_count k : Z.land k (w - 1) = k mod w.
Proof. apply land_rot_mask, w_rot. Qed.

Lemma shift_count_small k : 0 <= k < w -> Z.land k (w - 1) = k.
Proof. intros Hk. rewrite shift_count. by apply Z.mod_small. Qed.

Lemma w_pow : w <= 2 ^ (w - 1).
Proof. destruct Hw as [-> | ->]; by compute. Qed.

Lemma uint_count k : 0 <= k <= w -> uint w k = k.
Proof. intros Hk. pose proof w_pow. apply uint_small. pose proof (pow2_double w ltac:(lia)). lia. Qed.

Lemma sint_count k : 0 <= k < w -> sint w k = k.
Proof. intros Hk. pose proof w_pow. apply sint_small; lia. Qed.

Lemma shift_w_small `{Ov : Overshift} o f x k : 0 <= k < w -> shift_w w o f x (uint w k) = f x k.
Proof. intros Hk. unfold shift_w. rewrite uint_count by lia. by destruct (Z.ltb_spec k w); [| lia]. Qed.

Lemma sint_0 k : sint w k = 0 -> uint w k = 0.
Proof. intros E. rewrite <- uint_sint, E by lia. done. Qed.

Lemma sint_m1 k : sint w k = -1 -> eqm w k (-1).
Proof. intros E. unfold eqm. by rewrite <- uint_sint, E by lia. Qed.

Lemma sint_eq k v : sint w k = v -> eqm w k v.
Proof. intros <-. symmetry. apply eqm_sint. lia. Qed.

Lemma min_max_cond x y :
  0 <= x < 2 ^ w -> 0 <= y < 2 ^ w ->
  uint w (if cond_holds w TCG_COND_LT x y then x else y) = uint w (Z.min (sint w x) (sint w y)) /\
  uint w (if cond_holds w TCG_COND_LTU x y then x else y) = uint w (Z.min x y) /\
  uint w (if cond_holds w TCG_COND_LT x y then y else x) = uint w (Z.max (sint w x) (sint w y)) /\
  uint w (if cond_holds w TCG_COND_LTU x y then y else x) = uint w (Z.max x y).
Proof.
  intros Hx Hy. unfold cond_holds. cond_norm. cbn [default from_option]. unfold id. rewrite !(uint_small w x), !(uint_small w y) by done.
  split_and!; match goal with |- context [?a <? ?b] => destruct (Z.ltb_spec a b) end;
    first [rewrite Z.min_l by lia | rewrite Z.min_r by lia | rewrite Z.max_l by lia | rewrite Z.max_r by lia];
    by rewrite ?uint_sint by lia.
Qed.

(** [x ^ s - s] with [s] the sign of [x] spread over the word. *)
Lemma abs_val x :
  uint w (uint w (Z.lxor x (uint w (Z.shiftr (sint w x) (w - 1)))) - uint w (Z.shiftr (sint w x) (w - 1)))
  = uint w (Z.abs (sint w x)).
Proof.
  assert (Hw0 : 0 < w) by lia. wmod. pose proof (sint_range w x Hw0) as Hr.
  rewrite (Z.shiftr_div_pow2 _ (w - 1)) by lia. rewrite <- (eqm_sint w x) at 1 by lia.
  destruct (Z.ltb_spec (sint w x) 0).
  - replace (sint w x / 2 ^ (w - 1)) with (-1).
    + rewrite Z.lxor_m1_r, Z.abs_neq by lia. unfold Z.lnot. apply eqm_eq. lia.
    + apply (Z.div_unique _ _ (-1) (sint w x + 2 ^ (w - 1))); lia.
  - rewrite (Z.div_small (sint w x)), Z.lxor_0_r, Z.abs_eq by lia. by rewrite Z.sub_0_r.
Qed.

(** Multiplication by a power of two. *)
Lemma muli_pow2 k :
  sint w k <> 0 -> is_power_of_2 (sint w k) = true ->
  0 <= ctz_w w (sint w k) < w /\ eqm w (2 ^ ctz_w w (sint w k)) k.
Proof.
  intros Hk (j & Hj & E)%is_power_of_2_iff.
  assert (Ew : uint w (2 ^ j) = uint w k).
  { rewrite <- E, uint_uint_le, uint_sint by lia. done. }
  assert (Hjw : j < w).
  { destruct (Z.ltb_spec j w); [done |]. exfalso. apply Hk. rewrite <- (sint_eqm w (2 ^ j) k Ew).
    replace j with ((j - w) + w) by lia. rewrite Z.pow_add_r by lia. unfold sint, uint.
    rewrite Z_mod_mult. pose proof (pow2_pos (w - 1) ltac:(lia)). by destruct (Z.ltb_spec 0 (2 ^ (w - 1))); [| lia]. }
  assert (Hb : forall i, 0 <= i < w -> Z.testbit (sint w k) i = Z.testbit (2 ^ j) i).
  { intros i Hi. rewrite sint_bit, <- (uint_bit w k), <- Ew, uint_bit by lia. done. }
  assert (Ec : ctz_w w (sint w k) = j).
  { apply ctz_w_unique; [lia | |].
    - rewrite Hb by lia. apply Z.pow2_bits_true. lia.
    - intros i Hi. rewrite Hb by lia. apply Z.pow2_bits_false. lia. }
  rewrite Ec. split; [lia | exact Ew].
Qed.

(** Rotations by two shifts. *)
Lemma rotli_val x k :
  0 <= x < 2 ^ w -> 0 < k < w ->
  uint w (Z.lor (uint w (Z.shiftl x k)) (uint w (Z.shiftr x (w - k)))) = uint w (rol w x k).
Proof.
  intros Hx Hk. rewrite rol_shifts by (apply w_rot || lia). rewrite (uint_small w x) by done. wmod.
Qed.

(** The counts a rotation is specified for; without the host op the code emits a
    shift by the width for count zero. *)
Definition rot_pre (host : bool) (k : Z) : Prop := (if host then 0 else 1) <= k < w.

Lemma rot_pre_count host k : 0 < k < w -> rot_pre host (uint w k).
Proof. intros Hk. unfold rot_pre. rewrite uint_count by lia. destruct host; lia. Qed.

Lemma shift_w_in `{Ov : Overshift} o f x k : k < w -> shift_w w o f x k = f x k.
Proof. intros Hk. unfold shift_w. by destruct (Z.ltb_spec k w); [| lia]. Qed.

Lemma rotl_val `{Ov : Overshift} o o' x k :
  0 <= x < 2 ^ w -> rot_pre false k ->
  uint w (Z.lor (uint w (shift_w w o Z.shiftl x k)) (uint w (shift_w w o' Z.shiftr x (uint w (w - k)))))
  = uint w (rol w x k).
Proof.
  intros Hx Hk. unfold rot_pre in Hk. rewrite shift_w_small, shift_w_in by lia. by apply rotli_val; [| lia].
Qed.

Lemma rol_sub x k : rol w x (w - k) = rol w x (- k).
Proof.
  unfold rol. rewrite !shift_count.
  replace (w - k) with (- k + 1 * w) by lia. rewrite Z.mod_add by lia.
  replace (- (- k + 1 * w)) with (- - k + (-1) * w) by lia. by rewrite Z.mod_add by lia.
Qed.

Lemma rotr_val `{Ov : Overshift} o o' x k :
  0 <= x < 2 ^ w -> rot_pre false k ->
  uint w (Z.lor (uint w (shift_w w o Z.shiftr x k)) (uint w (shift_w w o' Z.shiftl x (uint w (w - k)))))
  = uint w (ror w x k).
Proof.
  intros Hx Hk. unfold rot_pre in Hk. rewrite shift_w_small, shift_w_in by lia.
  rewrite ror_rol, <- rol_sub, <- rotli_val by (done || lia). rewrite Z.lor_comm. by replace (w - (w - k)) with k by lia.
Qed.

Lemma extract2_testbit a b p i :
  0 <= p -> 0 <= i ->
  Z.testbit (extract2_w w a b p) i =
  if i + p <? w then Z.testbit a (i + p) else (i + p <? 2 * w) && Z.testbit b (i + p - w).
Proof.
  intros Hp Hi. unfold extract2_w.
  assert (Hd : Z.land (Z.shiftl (uint w b) w) (uint w a) = 0) by zbits.
  rewrite <- Z.shiftl_mul_pow2, <- lor_add_disjoint by (done || lia).
  autorewrite with zbits. split_cmp; close_bits.
Qed.

#[local] Hint Rewrite extract2_testbit using lia : zbits.

Lemma rotr_extract2 x p : 0 < p < w -> uint w (ror w x p) = uint w (extract2_w w x x p).
Proof.
  intros Hp. rewrite ror_rol, <- rol_sub, rol_shifts by (apply w_rot || lia). zbits.
Qed.

(** The three expansions of deposit. *)
Lemma deposit_top x y p l :
  field_ok w p l = true -> p + l = w -> l < w ->
  uint w (extract2_w w (uint w (Z.shiftl x l)) y l) = uint w (deposit_w w x p l y).
Proof.
  intros (Hp & Hl & Hs)%field_ok_true E Hlw. zbits.
Qed.

Lemma deposit_bottom x y l :
  0 < l < w ->
  uint w (rol w (uint w (extract2_w w x y l)) l) = uint w (deposit_w w x 0 l y).
Proof.
  intros Hl. rewrite rol_shifts by (apply w_rot || lia). zbits.
Qed.

(** Division. *)
Lemma sint_uint' x : sint w (uint w x) = sint w x.
Proof. apply sint_eqm. apply eqm_uint. lia. Qed.

(** The double word with a sign-extended high half. *)
Lemma sign_pair x : sint w (uint w (Z.shiftr (sint w x) (w - 1))) * 2 ^ w + uint w x = sint w x.
Proof.
  rewrite sint_uint'. pose proof (sint_range w x ltac:(lia)) as Hr. rewrite Z.shiftr_div_pow2 by lia.
  pose proof (pow2_double w ltac:(lia)). pose proof (uint_range w x ltac:(lia)). pose proof w_pow.
  destruct (Z.ltb_spec (uint w x) (2 ^ (w - 1))).
  - assert (Es : sint w x = uint w x) by (unfold sint; destruct (Z.ltb_spec (uint w x) (2 ^ (w - 1))); lia).
    rewrite Es, Z.div_small, sint_small by lia. lia.
  - assert (Es : sint w x = uint w x - 2 ^ w) by (unfold sint; destruct (Z.ltb_spec (uint w x) (2 ^ (w - 1))); lia).
    rewrite Es. replace ((uint w x - 2 ^ w) / 2 ^ (w - 1)) with (-1)
      by (apply (Z.div_unique _ _ (-1) (uint w x - 2 ^ w + 2 ^ (w - 1))); lia).
    rewrite sint_small by lia. lia.
Qed.

Lemma sign_pair_small x :
  0 <= x < 2 ^ w -> sint w (uint w (Z.shiftr (sint w x) (w - 1))) * 2 ^ w + x = sint w x.
Proof. intros Hx. rewrite <- (sign_pair x) at 2. by rewrite (uint_small w x). Qed.

Lemma quot_in_range x y :
  sdiv_ok w (sint w x) (sint w y) = true ->
  (sint w y =? 0) = false /\
  (- 2 ^ (w - 1) <=? Z.quot (sint w x) (sint w y)) && (Z.quot (sint w x) (sint w y) <? 2 ^ (w - 1)) = true.
Proof.
  unfold sdiv_ok. rewrite andb_true_iff, !negb_true_iff. intros [Hy Ho]. split; [done |].
  apply Z.eqb_neq in Hy. pose proof (sint_range w x ltac:(lia)). pose proof (sint_range w y ltac:(lia)).
  set (X := sint w x) in *. set (Y := sint w y) in *. set (P := 2 ^ (w - 1)) in *.
  pose proof (Z.quot_rem X Y Hy). pose proof (Z.rem_bound_abs X Y Hy).
  apply andb_false_iff in Ho as [Ho | Ho]; apply Z.eqb_neq in Ho.
  - assert (Z.abs (Z.quot X Y) <= Z.abs X) by (rewrite <- Z.quot_abs by done; apply Z.quot_le_upper_bound; nia). lia.
  - destruct (Z.eq_dec Y 1) as [-> | Hy1]; [rewrite Z.quot_1_r; lia |].
    assert (2 * Z.abs (Z.quot X Y) <= Z.abs X); [| lia].
    rewrite <- Z.quot_abs by done.
    assert (Z.abs X ÷ Z.abs Y <= Z.abs X ÷ 2) by (apply Z.quot_le_compat_l; lia).
    pose proof (Z.mul_quot_le (Z.abs X) 2). lia.
Qed.

Lemma rem_by_quot x y :
  sdiv_ok w (sint w x) (sint w y) = true ->
  eqm w (x - Z.quot (sint w x) (sint w y) * y) (Z.rem (sint w x) (sint w y)).
Proof.
  intros Hd. destruct (quot_in_range x y Hd) as [Hy%Z.eqb_neq _]. rewrite Z.rem_eq by done.
  generalize (Z.quot (sint w x) (sint w y)) as q. intros q. rewrite !eqm_sint by lia.
  apply eqm_eq. ring.
Qed.

Lemma div2_pre x y :
  0 <= x < 2 ^ w -> sdiv_ok w (sint w x) (sint w y) = true ->
  exists n d, sint w (uint w (Z.shiftr (sint w x) (w - 1))) * 2 ^ w + x = n /\ sint w y = d /\
    (d =? 0) || negb ((- 2 ^ (w - 1) <=? Z.quot n d) && (Z.quot n d <? 2 ^ (w - 1))) = false.
Proof.
  intros Hx Hd. rewrite sign_pair_small by done. do 2 eexists. split; [reflexivity |]. split; [reflexivity |].
  destruct (quot_in_range x y Hd) as [-> ->]. done.
Qed.

Lemma divu2_pre x y :
  0 <= x < 2 ^ w -> (y =? 0) = false -> 0 <= y ->
  (y =? 0) || negb ((0 * 2 ^ w + x) / y <? 2 ^ w) = false.
Proof.
  intros Hx Hy Hy0. rewrite Hy. apply Z.eqb_neq in Hy. rewrite Z.mul_0_l, Z.add_0_l. cbn [orb].
  assert (x / y <= x / 1) by (apply Z.div_le_compat_l; lia). rewrite Z.div_1_r in *.
  by replace (x / y <? 2 ^ w) with true by lia.
Qed.

End Val.

#[export] Hint Rewrite extract2_testbit using lia : zbits.

Lemma field_mask_ones n : Z.shiftl 1 n - 1 = Z.ones n.
Proof. unfold Z.ones. lia. Qed.

Lemma land_ones_uint n x : 0 <= n -> Z.land x (Z.ones n) = uint n x.
Proof. apply Z.land_ones. Qed.

Lemma land_ff x : Z.land x 0xff = uint 8 x. Proof. by apply (land_ones_uint 8). Qed.
Lemma land_ffff x : Z.land x 0xffff = uint 16 x. Proof. by apply (land_ones_uint 16). Qed.
Lemma land_ffffffff x : Z.land x 0xffffffff = uint 32 x. Proof. by apply (land_ones_uint 32). Qed.

(** A constant that selects one of the special cases of an [i] function. *)
Ltac by_const :=
  match goal with
  | E : sint ?w ?k = ?v |- _ => let H := fresh in pose proof (sint_eq w ltac:(lia) k v E) as H;
      lazymatch goal with |- uint w ?a = uint w ?b => change (eqm w a b) end;
      rewrite H;
      lazymatch goal with
      | |- eqm ?w ?a ?b => first [reflexivity | change (uint w a = uint w b); f_equal; ring | idtac]
      end
  end.

(** Bit by bit, with the bits above the words known to be zero. *)
Ltac high_bits :=
  repeat match goal with
  | R : 0 <= ?v < 2 ^ ?w |- context [Z.testbit ?v ?i] =>
      rewrite (testbit_above w v i R) by lia
  end; rewrite ?andb_false_r, ?andb_true_r, ?orb_false_r, ?orb_true_r, ?orb_false_l, ?andb_false_l.

Ltac vbits := zbits; try (high_bits; first [reflexivity | done | f_equal; lia]).

(** Byte swaps of truncated words. *)
Lemma bswap16_uint w x : 16 <= w -> bswap16 (uint w x) = bswap16 x.
Proof.
  intros Hw. apply (word_ext 16); [apply bswap16_range | apply bswap16_range |]. intros i Hi.
  rewrite !bswap16_testbit by done. pose proof (bswap_src_range 2 i). apply uint_bit. lia.
Qed.

Lemma bswap32_uint w x : 32 <= w -> bswap32 (uint w x) = bswap32 x.
Proof.
  intros Hw. apply (word_ext 32); [apply bswap32_range | apply bswap32_range |]. intros i Hi.
  rewrite !bswap32_testbit by done. pose proof (bswap_src_range 4 i). apply uint_bit. lia.
Qed.

Lemma bswap64_uint w x : 64 <= w -> bswap64 (uint w x) = bswap64 x.
Proof.
  intros Hw. apply (word_ext 64); [apply bswap64_range | apply bswap64_range |]. intros i Hi.
  rewrite !bswap64_testbit by done. pose proof (bswap_src_range 8 i). apply uint_bit. lia.
Qed.

(** Removes the conversion of a variable that is in range. *)
Ltac uint_vars :=
  repeat match goal with R : 0 <= ?x < 2 ^ ?w |- context [uint ?w ?x] => rewrite (uint_small w x R) end.
