(* ===== verification/TcgValDw.v ===== *)
(** * Values of the double-word expansions and of the bit counts *)

From Stdlib Require Import ZArith Lia Bool.
From stdpp Require Import base numbers list.
From S2P Require Import Prelude.
From S2P Require Import Bytes.
From S2P Require Import Bitops.
From S2P Require Import BitCount.
From S2P Require Import TcgCond.
From S2P Require Import TcgSem.
From S2P Require Import TcgVal.

Local Open Scope Z_scope.

(** A double word. *)
Definition pair (w l h : Z) : Z := h * 2 ^ w + l.

Section Dw.
Variable w : Z.
Hypothesis Hw : w = 32 \/ w = 64.

Lemma ltu_holds x y :
  0 <= x < 2 ^ w -> 0 <= y < 2 ^ w -> cond_holds w TCG_COND_LTU x y = (x <? y).
Proof.
  intros Hx Hy. unfold cond_holds. cond_norm. cbn [default from_option]. unfold id.
  by rewrite !uint_small.
Qed.

Lemma pair_low l h : uint w (pair w l h) = uint w l.
Proof. unfold pair, uint. rewrite Z.add_comm. apply Z_mod_plus_full. Qed.

Lemma shiftr_pair x h : Z.shiftr (h * 2 ^ w + x) w = h + Z.shiftr x w.
Proof. pose proof (pow2_pos w ltac:(lia)). rewrite !Z.shiftr_div_pow2, Z.div_add_l by lia. done. Qed.

Lemma pair_high l h : 0 <= l < 2 ^ w -> Z.shiftr (pair w l h) w = h.
Proof. intros Hl. unfold pair. rewrite shiftr_pair, Z.shiftr_div_pow2, Z.div_small by lia. lia. Qed.

Lemma pair_lor l h : 0 <= l < 2 ^ w -> 0 <= h -> pair w l h = Z.lor l (Z.shiftl h w).
Proof.
  intros Hl Hh. unfold pair. rewrite <- Z.shiftl_mul_pow2 by lia. symmetry. rewrite Z.lor_comm.
  apply lor_add_disjoint. apply Z.bits_inj'. intros i Hi. rewrite Z.land_spec, Z.shiftl_spec, Z.bits_0 by lia.
  destruct (Z.ltb_spec i w); [by rewrite (Z.testbit_neg_r h) by lia |].
  by rewrite (testbit_above w l i) by lia; rewrite andb_false_r.
Qed.

Lemma add2_low al ah bl bh :
  uint w (uint w (al + bl)) = uint w (pair w al ah + pair w bl bh).
Proof.
  rewrite uint_uint by lia. replace (pair w al ah + pair w bl bh) with (pair w (al + bl) (ah + bh))
    by (unfold pair; ring). by rewrite pair_low.
Qed.

Lemma add2_high al ah bl bh :
  0 <= al < 2 ^ w -> 0 <= bl < 2 ^ w ->
  uint w (uint w (ah + bh) + uint w (b2z (cond_holds w TCG_COND_LTU (uint w (al + bl)) al))) =
  uint w (Z.shiftr (pair w al ah + pair w bl bh) w).
Proof.
  intros Ha Hb. rewrite ltu_holds by (done || apply uint_range; lia).
  replace (pair w al ah + pair w bl bh) with ((ah + bh) * 2 ^ w + (al + bl)) by (unfold pair; ring).
  rewrite shiftr_pair, Z.shiftr_div_pow2 by lia. wmod. apply eqm_eq. f_equal.
  unfold uint. destruct (Z.ltb_spec (al + bl) (2 ^ w)) as [Hc | Hc].
  - rewrite Z.mod_small, Z.div_small by lia. by destruct (Z.ltb_spec (al + bl) al); [lia |].
  - rewrite <- (Z.mod_unique (al + bl) (2 ^ w) 1 (al + bl - 2 ^ w)) by lia.
    rewrite <- (Z.div_unique (al + bl) (2 ^ w) 1 (al + bl - 2 ^ w)) by lia.
    by destruct (Z.ltb_spec (al + bl - 2 ^ w) al); [| lia].
Qed.

Lemma sub2_low al ah bl bh :
  uint w (uint w (al - bl)) = uint w (pair w al ah - pair w bl bh).
Proof.
  rewrite uint_uint by lia. replace (pair w al ah - pair w bl bh) with (pair w (al - bl) (ah - bh))
    by (unfold pair; ring). by rewrite pair_low.
Qed.

Lemma sub2_high al ah bl bh :
  0 <= al < 2 ^ w -> 0 <= bl < 2 ^ w ->
  uint w (uint w (ah - bh) - uint w (b2z (cond_holds w TCG_COND_LTU al bl))) =
  uint w (Z.shiftr (pair w al ah - pair w bl bh) w).
Proof.
  intros Ha Hb. rewrite ltu_holds by done.
  replace (pair w al ah - pair w bl bh) with ((ah - bh) * 2 ^ w + (al - bl)) by (unfold pair; ring).
  rewrite shiftr_pair, Z.shiftr_div_pow2 by lia. wmod. apply eqm_eq.
  destruct (Z.ltb_spec al bl) as [Hc | Hc].
  - rewrite <- (Z.div_unique (al - bl) (2 ^ w) (-1) (al - bl + 2 ^ w)) by lia. cbn. lia.
  - rewrite Z.div_small by lia. cbn. lia.
Qed.

(** [-1] or [0], the sign of a word, as a mask. *)
Lemma sign_mask x : Z.shiftr (sint w x) (w - 1) = if sint w x <? 0 then -1 else 0.
Proof.
  pose proof (sint_range w x ltac:(lia)). rewrite Z.shiftr_div_pow2 by lia.
  destruct (Z.ltb_spec (sint w x) 0).
  - symmetry. apply (Z.div_unique _ _ (-1) (sint w x + 2 ^ (w - 1))); lia.
  - rewrite Z.div_small by lia. done.
Qed.

Lemma sint_unsigned x :
  0 <= x < 2 ^ w -> sint w x = x - (if sint w x <? 0 then 2 ^ w else 0).
Proof.
  intros Hx. pose proof (pow2_double w ltac:(lia)). unfold sint. rewrite uint_small by done.
  destruct (Z.ltb_spec x (2 ^ (w - 1))); [destruct (Z.ltb_spec x 0); lia |].
  destruct (Z.ltb_spec (x - 2 ^ w) 0); lia.
Qed.

Lemma mask_and x y :
  eqm w (Z.land (Z.shiftr (sint w x) (w - 1)) y) (if sint w x <? 0 then y else 0).
Proof.
  rewrite sign_mask. destruct (sint w x <? 0); by rewrite ?Z.land_m1_l, ?Z.land_0_l.
Qed.

(** The high word of a signed product from that of the unsigned one. *)
Lemma mulsu2_high x y :
  0 <= x < 2 ^ w ->
  eqm w (Z.shiftr (x * y) w - (if sint w x <? 0 then y else 0)) (Z.shiftr (sint w x * y) w).
Proof.
  intros Hx. rewrite (sint_unsigned x Hx) at 2. apply eqm_eq.
  replace ((x - (if sint w x <? 0 then 2 ^ w else 0)) * y)
    with ((if sint w x <? 0 then - y else 0) * 2 ^ w + x * y) by (destruct (sint w x <? 0); ring).
  rewrite shiftr_pair. destruct (sint w x <? 0); lia.
Qed.

Lemma muls2_high x y :
  0 <= x < 2 ^ w -> 0 <= y < 2 ^ w ->
  eqm w (Z.shiftr (x * y) w - (if sint w x <? 0 then y else 0) - (if sint w y <? 0 then x else 0))
    (Z.shiftr (sint w x * sint w y) w).
Proof.
  intros Hx Hy. rewrite (mulsu2_high x y Hx), Z.mul_comm.
  rewrite <- (Z.mul_comm (sint w y) (sint w x)), <- (mulsu2_high y (sint w x) Hy).
  destruct (sint w y <? 0); [| reflexivity]. generalize (Z.shiftr (y * sint w x) w). intros z.
  by rewrite (eqm_sint w x) by lia.
Qed.

(** As the expansions compute it. *)
Lemma muls2_val x y k :
  k = w - 1 -> 0 <= x < 2 ^ w -> 0 <= y < 2 ^ w ->
  uint w (uint w (uint w (Z.shiftr (x * y) w) - uint w (Z.land (uint w (Z.shiftr (sint w x) k)) y)) -
          uint w (Z.land (uint w (Z.shiftr (sint w y) k)) x)) =
  uint w (Z.shiftr (sint w x * sint w y) w).
Proof. intros -> Hx Hy. wmod. rewrite !mask_and. by apply muls2_high. Qed.

Lemma mulsu2_val x y k :
  k = w - 1 -> 0 <= x < 2 ^ w ->
  uint w (uint w (Z.shiftr (x * y) w) - uint w (Z.land (uint w (Z.shiftr (sint w x) k)) y)) =
  uint w (Z.shiftr (sint w x * y) w).
Proof. intros -> Hx. wmod. rewrite mask_and. by apply mulsu2_high. Qed.

Lemma mul_low_sint x y : eqm w (x * y) (sint w x * sint w y).
Proof. by rewrite !eqm_sint by lia. Qed.

Lemma mul_low_sint1 x y : eqm w (x * y) (sint w x * y).
Proof. by rewrite !eqm_sint by lia. Qed.

(** Counts. *)
Lemma uint_pred_andc x :
  uint w (Z.land (uint w (x - 1)) (Z.lnot x)) = uint w (Z.land (x - 1) (Z.lnot x)).
Proof. wmod. Qed.

Lemma ctpop_w_uint x : ctpop_w w (uint w x) = ctpop_w w x.
Proof. unfold ctpop_w. by rewrite uint_uint by lia. Qed.

Lemma clz_w_uint x : clz_w w (uint w x) = clz_w w x.
Proof. unfold clz_w. by rewrite uint_uint by lia. Qed.

Lemma clz_w_eqm x y : eqm w x y -> clz_w w x = clz_w w y.
Proof. intros E. rewrite <- clz_w_uint, E. apply clz_w_uint. Qed.

Lemma ctpop_w_eqm x y : eqm w x y -> ctpop_w w x = ctpop_w w y.
Proof. intros E. rewrite <- ctpop_w_uint, E. apply ctpop_w_uint. Qed.

Lemma eq_holds x y :
  0 <= x < 2 ^ w -> 0 <= y < 2 ^ w -> cond_holds w TCG_COND_EQ x y = (x =? y).
Proof.
  intros Hx Hy. unfold cond_holds. cond_norm. cbn [default from_option]. unfold id.
  by rewrite !uint_small.
Qed.

Lemma ctz_by_ctpop x y :
  0 <= x < 2 ^ w ->
  uint w (if cond_holds w TCG_COND_EQ x (uint w 0) then y
          else uint w (ctpop_w w (uint w (Z.land (uint w (x - 1)) (Z.lnot x))))) =
  uint w (clz_z (ctz_w w) x y).
Proof.
  intros Hx. pose proof (pow2_pos w ltac:(lia)). rewrite (uint_small w 0) by lia.
  rewrite eq_holds by lia. unfold clz_z. destruct (Z.eqb_spec x 0); [done |].
  rewrite uint_pred_andc, ctpop_w_uint, ctz_ctpop, uint_uint by lia. done.
Qed.

Lemma ctzi_by_ctpop x k :
  0 <= x < 2 ^ w -> uint w k = w ->
  uint w (ctpop_w w (uint w (Z.land (uint w (x - 1)) (Z.lnot x)))) = uint w (clz_z (ctz_w w) x (uint w k)).
Proof.
  intros Hx Hk. rewrite Hk, uint_pred_andc, ctpop_w_uint, ctz_ctpop by lia. unfold clz_z.
  destruct (Z.eqb_spec x 0) as [-> |]; [| done].
  by rewrite ctz_w_zero by (apply uint_small; pose proof (pow2_pos w); lia).
Qed.

Lemma clz_z_w z : 0 <= z < 2 ^ w -> clz_z (clz_w w) z w = clz_w w z.
Proof.
  intros Hz. unfold clz_z. destruct (Z.eqb_spec z 0) as [-> |]; [| done].
  by rewrite clz_w_zero by (by apply uint_small).
Qed.

Lemma ctz_by_clz x y :
  0 <= x < 2 ^ w ->
  uint w (if cond_holds w TCG_COND_EQ x (uint w 0) then y
          else uint w (Z.lxor (uint w (clz_z (clz_w w) (uint w (Z.land (uint w (- x)) x)) w)) (w - 1))) =
  uint w (clz_z (ctz_w w) x y).
Proof.
  intros Hx. pose proof (pow2_pos w ltac:(lia)). rewrite (uint_small w 0) by lia.
  rewrite eq_holds by lia. unfold clz_z at 2. destruct (Z.eqb_spec x 0); [done |].
  rewrite clz_z_w by (apply uint_range; lia).
  rewrite (clz_w_eqm _ (Z.land x (- x))) by (rewrite Z.land_comm; change (eqm w) with (fun a b => uint w a = uint w b); cbv beta; wmod).
  assert (exists e, 0 <= e /\ w = 2 ^ e) as (e & He & Ew)
    by (destruct Hw as [-> | ->]; [by exists 5 | by exists 6]).
  wmod. rewrite Ew, ctz_clz, <- Ew; [done | done |]. by rewrite <- Ew, uint_small.
Qed.

Lemma clrsb_val x k :
  0 <= x < 2 ^ w -> k = w - 1 ->
  uint w (uint w (clz_z (clz_w w) (uint w (Z.lxor (uint w (Z.shiftr (sint w x) k)) x)) w) - 1) =
  uint w (clrsb_w w x).
Proof.
  intros Hx ->. rewrite clz_z_w by (apply uint_range; lia). rewrite <- clrsb_clz by lia. rewrite (uint_small w x Hx).
  rewrite (clz_w_eqm _ (Z.lxor x (Z.shiftr (sint w x) (w - 1)))); [wmod |].
  rewrite Z.lxor_comm. change (uint w (uint w (Z.lxor x (uint w (Z.shiftr (sint w x) (w - 1)))))
    = uint w (Z.lxor x (Z.shiftr (sint w x) (w - 1)))). wmod.
Qed.

End Dw.

(** The halves of a 64-bit result. *)
Lemma low_half a b : uint 64 a = uint 64 b -> uint 32 (uint 64 a) = uint 32 b.
Proof. intros ->. by rewrite uint_uint_le by lia. Qed.

Lemma high_half a b : uint 64 a = uint 64 b -> uint 32 (Z.shiftr (uint 64 a) 32) = uint 32 (Z.shiftr b 32).
Proof. intros ->. zbits. Qed.

(** 32-bit counts by 64-bit ones. *)
Lemma clz32_by_64 x y :
  0 <= x < 2 ^ 32 -> 0 <= y < 2 ^ 32 ->
  uint 32 (uint 32 (uint 64 (clz_z clz64 (uint 64 x) (uint 64 (uint 64 y + 32)))) - 32) =
  uint 32 (clz_z clz32 x y).
Proof.
  intros Hx Hy. rewrite (uint_small 64 x), (uint_small 64 y) by lia. rewrite (uint_uint_le 32 64) by lia.
  unfold clz_z. destruct (Z.eqb_spec x 0) as [_ | Hx0].
  - rewrite (uint_small 64 (y + 32)) by lia. wmod; apply eqm_eq; lia.
  - rewrite clz64_w, clz32_w. rewrite <- (uint_small 32 x) at 1 by lia.
    change 64 with (2 * 32). rewrite clz_widen by lia. wmod; apply eqm_eq; lia.
Qed.

Lemma ctz32_by_64 x y :
  0 <= x < 2 ^ 32 -> 0 <= y < 2 ^ 32 ->
  uint 32 (uint 64 (clz_z ctz64 (uint 64 x) (uint 64 y))) = uint 32 (clz_z ctz32 x y).
Proof.
  intros Hx Hy. rewrite (uint_small 64 x), (uint_small 64 y) by lia. rewrite (uint_uint_le 32 64) by lia.
  unfold clz_z. destruct (Z.eqb_spec x 0) as [_ | Hx0]; [done |].
  rewrite ctz64_w, ctz32_w. rewrite <- (uint_small 32 x) at 1 by lia.
  change 64 with (2 * 32). rewrite ctz_widen; [done | lia | by rewrite uint_small].
Qed.

Lemma ctpop32_by_64 x :
  0 <= x < 2 ^ 32 -> uint 32 (uint 64 (ctpop64 (uint 64 x))) = uint 32 (ctpop32 x).
Proof.
  intros Hx. rewrite (uint_uint_le 32 64) by lia. rewrite ctpop64_w, ctpop32_w. unfold ctpop_w.
  by rewrite uint_uint, (uint_small 64 x), (uint_small 32 x) by lia.
Qed.
