(* ===== verification/TcgAssign.v ===== *)
(** * What a generation function promises

    [Assigns m w win n ret ins pre f]: generation function [m] emits code that
    sets the [w]-bit temporary [ret] to [f], a function of the [win]-bit values
    of the temporaries [ins] before the code runs, and changes nothing else
    that is in use.  It needs room for [n] temporaries and [pre] of the values.
    [Assigns2] is the same with two results.  The functions of tcg-op.c are
    instances; the tactics find the instance of a call by its head. *)

From Stdlib Require Import ZArith Lia Bool.
From stdpp Require Import base numbers functions list gmap.
From S2P Require Import Prelude.
From S2P Require Import Bytes.
From S2P Require Import Bitops.
From S2P Require Import TcgCond.
From S2P Require Import TcgOpc.
From S2P Require Import TcgCtx.
From S2P Require Import TcgHelpers.
From S2P Require Import TcgGen.
From S2P Require Import TcgSem.
From S2P Require Import TcgTemps.
From S2P Require Import TcgWp.
From S2P Require Import TcgVal.

Local Open Scope Z_scope.

Section Assigns.
Context `{T : TcgTarget} `{Orc : Oracle} `{Ov : Overshift}.

Class Assigns (m : Gen unit) (w win n ret : Z) (ins : list Z)
    (pre : (Z -> Z) -> Prop) (f : (Z -> Z) -> Z) : Prop :=
  assigns : forall c st,
    wf c -> writable c ret -> Forall (live c) ins -> nb_temps c + n <= TCG_MAX_TEMPS ->
    pre (V win c st) ->
    wp m c st (fun _ c' st' => grows n [] c c' /\ upd w c st ret (f (V win c st)) c' st').

Class Assigns2 (m : Gen unit) (w win n r1 r2 : Z) (ins : list Z)
    (pre : (Z -> Z) -> Prop) (f1 f2 : (Z -> Z) -> Z) : Prop :=
  assigns2 : forall c st,
    wf c -> writable c r1 -> writable c r2 -> r1 <> r2 -> Forall (live c) ins ->
    nb_temps c + n <= TCG_MAX_TEMPS -> pre (V win c st) ->
    wp m c st (fun _ c' st' =>
      grows n [] c c' /\ upd2 w c st r1 (f1 (V win c st)) r2 (f2 (V win c st)) c' st').

Lemma wp_assigns m w win n ret ins pre f `{A : !Assigns m w win n ret ins pre f} c st Q :
  wf c -> writable c ret -> Forall (live c) ins -> nb_temps c + n <= TCG_MAX_TEMPS ->
  pre (V win c st) ->
  (forall c' st', grows n [] c c' -> upd w c st ret (f (V win c st)) c' st' -> Q tt c' st') ->
  wp m c st Q.
Proof.
  intros H1 H2 H3 H4 H5 HQ. eapply wp_mono; [by apply A |]. intros [] c' st' [G U]. by apply HQ.
Qed.

Lemma wp_assigns2 m w win n r1 r2 ins pre f1 f2 `{A : !Assigns2 m w win n r1 r2 ins pre f1 f2} c st Q :
  wf c -> writable c r1 -> writable c r2 -> r1 <> r2 -> Forall (live c) ins ->
  nb_temps c + n <= TCG_MAX_TEMPS -> pre (V win c st) ->
  (forall c' st', grows n [] c c' ->
     upd2 w c st r1 (f1 (V win c st)) r2 (f2 (V win c st)) c' st' -> Q tt c' st') ->
  wp m c st Q.
Proof.
  intros H1 H2 H2' H2'' H3 H4 H5 HQ. eapply wp_mono; [by apply A |]. intros [] c' st' [G U]. by apply HQ.
Qed.

Lemma assigns_weaken m w win n n' ret ins pre f :
  Assigns m w win n ret ins pre f -> n <= n' -> Assigns m w win n' ret ins pre f.
Proof.
  intros A Hn c st H1 H2 H3 H4 H5. eapply wp_mono; [apply A; (done || lia) |].
  intros [] c' st' [G U]. split; [by apply (grows_weaken n) | done].
Qed.

End Assigns.

#[export] Hint Mode Assigns - - - ! - - - - - - - : typeclass_instances.
#[export] Hint Mode Assigns2 - - - ! - - - - - - - - - : typeclass_instances.

Definition any (_ : Z -> Z) : Prop := True.

(** ** Steps of a trace *)

Section Steps.
Context `{T : TcgTarget} `{L : !TcgTargetLaws T} `{Orc : Oracle} `{Ov : Overshift}.

Lemma trace_finish n' n outs w c0 st0 c st r v :
  trace n' [] outs c0 st0 c st -> n' <= n -> (forall t, t ∈ outs -> t = r) ->
  V w c st r = uint w v -> grows n [] c0 c /\ upd w c0 st0 r v c st.
Proof.
  intros [G F M] Hn Ho HV. split; [by apply (grows_weaken n') |]. split; [done | | done].
  intros t Ht Hne. apply F; [done |]. intros Hin. by apply Hne, Ho.
Qed.

Lemma trace_finish2 n' n outs w c0 st0 c st r1 v1 r2 v2 :
  trace n' [] outs c0 st0 c st -> n' <= n -> (forall t, t ∈ outs -> t = r1 \/ t = r2) ->
  V w c st r1 = uint w v1 -> V w c st r2 = uint w v2 ->
  grows n [] c0 c /\ upd2 w c0 st0 r1 v1 r2 v2 c st.
Proof.
  intros TR Hn Ho HV1 HV2. destruct (trace_done2 _ _ _ _ _ _ _ _ _ _ _ TR Ho HV1 HV2) as [G U].
  split; [by apply (grows_weaken n') | done].
Qed.

Lemma trace_upd2 n m l outs w c0 st0 c st r1 v1 r2 v2 c' st' :
  trace n l outs c0 st0 c st -> grows m [] c c' -> upd2 w c st r1 v1 r2 v2 c' st' ->
  trace (n + m) l (r1 :: r2 :: outs) c0 st0 c' st'.
Proof.
  intros [G F M] G' [_ _ F' M']. split; [| | congruence].
  - by apply (grows_trans n l m [] c0 c c').
  - intros t Ht [Hr1 [Hr2 Ho]%not_elem_of_cons]%not_elem_of_cons.
    rewrite F' by (done || by apply G). by apply F.
Qed.

(** A local temporary that has been written is not visible outside. *)
Lemma trace_hide n l o1 r o2 c0 st0 c st :
  trace n l (o1 ++ r :: o2) c0 st0 c st -> r ∈ l -> trace n l (o1 ++ o2) c0 st0 c st.
Proof.
  intros [G F M] Hr. split; [done | | done]. intros t Ht Ho. apply F; [done |].
  intros [H1 | [-> | H2]%elem_of_cons]%elem_of_app.
  - apply Ho, elem_of_app. by left.
  - by destruct (gr_new _ _ _ _ G r Hr) as (_ & Hn & _).
  - apply Ho, elem_of_app. by right.
Qed.

Lemma trace_wf n l outs c0 st0 c st : trace n l outs c0 st0 c st -> wf c.
Proof. intros TR. exact (gr_wf _ _ _ _ (tr_grows _ _ _ _ _ _ _ TR)). Qed.

Lemma trace_nb n l outs c0 st0 c st :
  trace n l outs c0 st0 c st -> nb_temps c <= nb_temps c0 + n.
Proof. intros TR. exact (gr_nb _ _ _ _ (tr_grows _ _ _ _ _ _ _ TR)). Qed.

Lemma trace_nodup n l outs c0 st0 c st : trace n l outs c0 st0 c st -> NoDup l.
Proof. intros TR. exact (gr_nodup _ _ _ _ (tr_grows _ _ _ _ _ _ _ TR)). Qed.

Lemma nodup2_ne (a b : Z) l1 l2 l3 : NoDup (l1 ++ a :: l2 ++ b :: l3) -> a <> b.
Proof.
  intros [_ [_ [Hn _]%NoDup_cons]]%NoDup_app ->. apply Hn, elem_of_app. right. constructor.
Qed.

Lemma V_uint w c st t : 0 <= w -> uint w (V w c st t) = V w c st t.
Proof. intros Hw. by apply uint_uint. Qed.

Lemma V_range w c st t v : V w c st t = v -> 0 <= w -> 0 <= v < 2 ^ w.
Proof. intros <- Hw. by apply uint_range. Qed.

Lemma V_low n w c st t : 0 <= n <= w -> V n c st t = uint n (V w c st t).
Proof. intros Hn. unfold V. by rewrite uint_uint_le. Qed.

End Steps.

(** ** Tactics

    In the course of a proof the context holds one [trace] that ends in the
    current state, facts [V w c st x = e] about the current values and facts
    [isc c k] about constants.  A step transports all of them. *)

Ltac in_list := first [apply list_elem_of_here | apply list_elem_of_further; in_list].

Ltac base_live :=
  match goal with
  | H : live ?c ?x |- live ?c ?x => exact H
  | H : writable ?c ?x |- live ?c ?x => exact (proj1 H)
  end.

Ltac lv :=
  match goal with
  | TR : trace _ _ _ ?c0 _ ?c _ |- writable ?c ?x =>
      first [ eapply trace_writable; [exact TR | assumption]
            | eapply trace_local; [exact TR | in_list] ]
  | TR : trace _ _ _ ?c0 _ ?c _ |- live ?c ?x =>
      first [ eapply trace_live; [exact TR | base_live]
            | apply isc_live; assumption
            | eapply proj1, trace_local; [exact TR | in_list] ]
  end.

Ltac tr_wf := match goal with TR : trace _ _ _ _ _ ?c _ |- wf ?c => exact (trace_wf _ _ _ _ _ _ _ TR) end.

Ltac room :=
  match goal with
  | TR : trace _ _ _ _ _ ?c _ |- nb_temps ?c + _ <= _ =>
      pose proof (trace_nb _ _ _ _ _ _ _ TR); lia
  end.

Ltac nodup_ne :=
  match goal with
  | TR : trace _ ?l _ _ _ _ _ |- ?x <> ?y =>
      let H := fresh in
      pose proof (trace_nodup _ _ _ _ _ _ _ TR) as H;
      repeat (apply NoDup_cons in H as [? H]); intros ->;
      match goal with Hn : ?z ∉ _ |- _ => apply Hn; in_list end
  end.

Ltac ne :=
  match goal with
  | |- ?x <> ?y =>
      first [ assumption
            | apply not_eq_sym; assumption
            | eapply isc_ne; [eassumption | lv]
            | apply not_eq_sym; eapply isc_ne; [eassumption | lv]
            | match goal with TR : trace _ _ _ _ _ _ _ |- _ =>
                first [ eapply local_ne_live; [exact TR | in_list | base_live]
                      | apply not_eq_sym; eapply local_ne_live; [exact TR | in_list | base_live] ]
              end
            | nodup_ne ]
  end.

Ltac lives := repeat first [apply Forall_nil_2 | apply Forall_cons_2]; lv.

(** The facts after a step from [c], [st] that updates one temporary. *)
Ltac use_facts c st U :=
  cbv beta in U;
  repeat match goal with HV : V _ c st ?x = _ |- _ => rewrite HV in U end.

Ltac move_consts c G :=
  repeat match goal with HK : isc c ?k |- _ => apply (isc_ext _ _ _ (gr_ext _ _ _ _ G)) in HK end.

Ltac advance G U :=
  lazymatch type of U with
  | upd ?w ?c ?st ?r ?v ?c' ?st' =>
      use_facts c st U;
      repeat match goal with
        | HV : V ?w1 c st ?x = ?e |- _ =>
            first [ let H := fresh "HV" in
                    assert (H : V w1 c' st' x = e) by (apply (upd_V w1 w c st r _ c' st' x e U); [lv | ne | exact HV]);
                    clear HV
                  | clear HV ]
        end;
      let HVr := fresh "HV" in
      pose proof (up_val _ _ _ _ _ _ _ U) as HVr;
      move_consts c G;
      match goal with
      | TR : trace _ _ _ _ _ c st |- _ =>
          first [ apply (fun H => trace_upd_local _ _ _ _ _ _ _ _ _ _ _ _ _ H G U) in TR; [| in_list]
                | apply (fun H => trace_upd_again _ _ _ _ _ _ _ _ _ _ _ _ _ H G U) in TR; [| in_list]
                | apply (fun H => trace_upd _ _ _ _ _ _ _ _ _ _ _ _ _ H G U) in TR ]
      end;
      clear G U
  | upd2 ?w ?c ?st ?r1 ?v1 ?r2 ?v2 ?c' ?st' =>
      use_facts c st U;
      repeat match goal with
        | HV : V ?w1 c st ?x = ?e |- _ =>
            first [ let H := fresh "HV" in
                    assert (H : V w1 c' st' x = e)
                      by (apply (upd2_V w1 w c st r1 _ r2 _ c' st' x e U); [lv | ne | ne | exact HV]);
                    clear HV
                  | clear HV ]
        end;
      let HV1 := fresh "HV" in
      pose proof (up2_val1 _ _ _ _ _ _ _ _ _ U) as HV1;
      let HV2 := fresh "HV" in
      pose proof (up2_val2 _ _ _ _ _ _ _ _ _ U) as HV2;
      move_consts c G;
      match goal with
      | TR : trace _ _ _ _ _ c st |- _ =>
          apply (fun H => trace_upd2 _ _ _ _ _ _ _ _ _ _ _ _ _ _ _ H G U) in TR;
          try (apply (trace_hide _ _ [r1] r2) in TR; [cbn [app] in TR | in_list]);
          try (apply (trace_hide _ _ [] r1) in TR; [cbn [app] in TR | in_list])
      end;
      clear G U
  end.

(** A step that only changes the temporaries. *)
Ltac advance_tmp G :=
  lazymatch type of G with
  | grows _ _ ?c ?c' =>
      match goal with
      | TR : trace _ _ _ _ _ c ?st |- _ =>
          repeat match goal with
            | HV : V _ c st ?x = _ |- _ =>
                first [ apply (ext_V _ _ _ _ _ _ (gr_ext _ _ _ _ G)) in HV; [| lv] | clear HV ]
            end;
          move_consts c G;
          apply (fun H => trace_tmp _ _ _ _ _ _ _ _ _ _ H G) in TR; cbn [app] in TR;
          clear G
      end
  end.

Ltac split_at t l k :=
  lazymatch l with
  | t :: ?l2 => k (@nil Z) l2
  | ?a :: ?l' => split_at t l' ltac:(fun l1 l2 => k (a :: l1) l2)
  end.

Ltac wp_free t :=
  first
  [ apply wp_temp_free_const; [assumption |]
  | match goal with
    | TR : trace ?n ?l ?outs ?c0 ?st0 ?c ?st, H0 : wf ?c0 |- _ =>
        split_at t l ltac:(fun l1 l2 =>
          refine (wp_temp_free n l1 t l2 outs c0 st0 c st _ H0 TR _));
        let c' := fresh "c" in
        let TR' := fresh "TR" in
        let E := fresh "E" in
        intros c' TR' E; cbn [app] in TR';
        repeat match goal with
          | HV : V _ c st ?x = _ |- _ => first [ apply (ext_V _ _ _ _ _ _ E) in HV; [| lv] | clear HV ]
          end;
        repeat match goal with HK : isc c _ |- _ => apply (isc_ext _ _ _ E) in HK end;
        clear TR E
    end ].

Ltac pre_tac :=
  cbv beta; unfold any;
  repeat match goal with HV : V _ ?c ?st ?x = _ |- context [V _ ?c ?st ?x] => rewrite HV end;
  try first [exact I | done | lia].

Ltac wp_using tac :=
  first
  [ eapply wp_assigns;
    [ tac | tr_wf | lv | lives | room | pre_tac
    | let c' := fresh "c" in let st' := fresh "st" in
      let G := fresh "G" in let U := fresh "U" in
      intros c' st' G U; advance G U ]
  | eapply wp_assigns2;
    [ tac | tr_wf | lv | lv | ne | lives | room | pre_tac
    | let c' := fresh "c" in let st' := fresh "st" in
      let G := fresh "G" in let U := fresh "U" in
      intros c' st' G U; advance G U ] ].

Ltac wp_const rule :=
  eapply rule; [first [tr_wf | assumption] .. |].

Ltac wp_prim :=
  lazymatch goal with
  | |- wp tcg_temp_ebb_new_i32 _ _ _ =>
      apply wp_ebb_new_i32;
      [tr_wf | room | let t := fresh "t" in let c' := fresh "c" in let G := fresh "G" in
                      intros t c' G; advance_tmp G]
  | |- wp tcg_temp_ebb_new_i64 _ _ _ =>
      apply wp_ebb_new_i64_reg64;
      [assumption | tr_wf | room | let t := fresh "t" in let c' := fresh "c" in let G := fresh "G" in
                                   intros t c' G; advance_tmp G]
  | |- wp (tcg_constant_i32 _) _ _ _ =>
      apply wp_constant_i32;
      [tr_wf | room | let k := fresh "k" in let c' := fresh "c" in let G := fresh "G" in
                      let HK := fresh "HK" in let HV := fresh "HV" in
                      intros k c' G HK HV; advance_tmp G]
  | |- wp (tcg_constant_i64 _) _ _ _ =>
      apply wp_constant_i64;
      [assumption | tr_wf | room |
       let k := fresh "k" in let c' := fresh "c" in let G := fresh "G" in
       let HK := fresh "HK" in let HV := fresh "HV" in
       intros k c' G HK HV; advance_tmp G]
  | |- wp (tcg_temp_free_i32 ?t) _ _ _ => wp_free t
  | |- wp (tcg_temp_free_i64 ?t) _ _ _ => wp_free t
  | |- wp (tcg_debug_assert _) _ _ _ => apply wp_assert; [try first [lia | assumption] |]
  | |- wp (ret_ _) _ _ _ => apply wp_ret
  | |- wp (if true then _ else _) _ _ _ => cbn iota
  | |- wp (if false then _ else _) _ _ _ => cbn iota
  | |- wp _ _ _ _ => wp_using ltac:(tc_solve)
  end.

Ltac wp_step :=
  cbn [negb andb orb];
  lazymatch goal with
  | |- wp (if ?b then _ else _) _ _ _ =>
      first [ lazymatch b with true => idtac | false => idtac end
            | match goal with H : b = _ |- _ => rewrite H end ]
  | _ => idtac
  end;
  lazymatch goal with
  | |- wp (bind _ _) _ _ _ => apply wp_bind
  | |- wp _ _ _ _ => wp_prim
  end; cbv beta.

Ltac outs_tac :=
  let t := fresh in let H := fresh in
  intros t H; repeat (apply elem_of_cons in H as [-> | H]; [tauto |]); by apply elem_of_nil in H.

Ltac wp_done :=
  match goal with
  | TR : trace _ [] _ ?c0 ?st0 ?c ?st |- grows _ _ ?c0 ?c /\ upd ?w ?c0 ?st0 ?r ?v ?c ?st =>
      eapply trace_finish; [exact TR | lia | outs_tac |]
  | TR : trace _ [] _ ?c0 ?st0 ?c ?st |- grows _ _ ?c0 ?c /\ upd2 ?w ?c0 ?st0 ?r1 ?v1 ?r2 ?v2 ?c ?st =>
      eapply trace_finish2; [exact TR | lia | outs_tac | |]
  end;
  match goal with
  | HV : V ?w ?c ?st ?r = _ |- V ?w ?c ?st ?r = _ => rewrite HV
  | HV : V ?w' ?c ?st ?r = _ |- V ?w ?c ?st ?r = _ => rewrite (V_low w w'), HV by lia
  | _ => idtac
  end.

Ltac wp_go := repeat wp_step; try wp_done.

Ltac name_values :=
  repeat match goal with
    | H : live ?c ?x, HR : wf ?c |- _ =>
        lazymatch goal with
        | |- context [V ?w c ?st x] =>
            let v := fresh "v" in let HV := fresh "HV" in
            let R := fresh "R" in
            remember (V w c st x) as v eqn:HV in *; symmetry in HV;
            pose proof (V_range w c st x v HV ltac:(lia)) as R
        end
    end.

Ltac begin :=
  lazymatch goal with
  | |- Assigns _ _ _ _ _ _ _ _ => intros ?c ?st ?Hwf ?Hret ?Hins ?Hroom ?Hpre
  | |- Assigns2 _ _ _ _ _ _ _ _ _ _ => intros ?c ?st ?Hwf ?Hr1 ?Hr2 ?Hne ?Hins ?Hroom ?Hpre
  end;
  cbv beta zeta in *;
  repeat match goal with H : Forall (live _) (_ :: _) |- _ => apply Forall_cons in H as [? H] end;
  match goal with H : Forall (live _) [] |- _ => clear H end;
  match goal with
  | HR : wf ?c |- wp _ ?c ?st _ => pose proof (trace_refl c st HR) as ?TR
  end;
  name_values.

(** Case analysis on the condition of the code. *)
Ltac bool_case b :=
  lazymatch b with
  | true => idtac
  | false => idtac
  | negb ?p => bool_case p
  | ?p && ?q => bool_case p
  | ?p || ?q => bool_case p
  | ?x =? ?y => let E := fresh "E" in destruct (Z.eqb_spec x y) as [E | E]
  | ?x <? ?y => let E := fresh "E" in destruct (Z.ltb_spec x y) as [E | E]
  | ?x <=? ?y => let E := fresh "E" in destruct (Z.leb_spec x y) as [E | E]
  | _ => let E := fresh "E" in destruct (sumbool_of_bool b) as [E | E]; rewrite ?E
  end.

Ltac wp_case :=
  lazymatch goal with
  | |- wp (if ?b then _ else _) _ _ _ => bool_case b
  | |- wp (bind (if ?b then _ else _) _) _ _ _ => bool_case b
  end; cbn [negb andb orb].

(** Steps and case analysis to the end. *)
Ltac wp_all := repeat first [wp_step | wp_case; try lia]; try wp_done.

(** A feature of the target. *)
Class Has (b : bool) : Prop := has_true : b = true.
#[export] Hint Extern 0 (Has _) => (unfold Has; assumption) : typeclass_instances.

(** The instance of an op that the target supports. *)
Ltac supported :=
  unfold Has in *;
  first [ reflexivity | cbn [tcg_op_supported]; repeat match goal with
          | H : _ = true |- _ => rewrite H
          | H : TCG_TARGET_REG_BITS = 64 |- _ => rewrite H
          end; reflexivity ].

Ltac evals_tac :=
  eexists; split; [| first [ left; split; [reflexivity | reflexivity]
                           | right; split; [reflexivity | split; reflexivity] ]];
  try reflexivity.

Ltac pure_tac := let E := fresh in intros ? ? ? E; unfold exec_op; rewrite E; reflexivity.

Ltac op_unfold :=
  unfold tcg_gen_op2_i32, tcg_gen_op2_i64, tcg_gen_op3_i32, tcg_gen_op3_i64,
    tcg_gen_op3i_i32, tcg_gen_op3i_i64, tcg_gen_op4_i32, tcg_gen_op4_i64,
    tcg_gen_op4i_i32, tcg_gen_op4i_i64, tcg_gen_op4ii_i32, tcg_gen_op4ii_i64,
    tcg_gen_op5_i32, tcg_gen_op5_i64, tcg_gen_op5ii_i32, tcg_gen_op5ii_i64,
    tcg_gen_op6_i32, tcg_gen_op6_i64, tcg_gen_op6i_i32, tcg_gen_op6i_i64,
    tcg_gen_op2, tcg_gen_op3, tcg_gen_op4, tcg_gen_op5, tcg_gen_op6.

Ltac op_instance_using evals_tac :=
  lazymatch goal with
  | |- Assigns _ ?w _ _ _ _ _ _ =>
      intros ?c ?st ?Hwf ?Hret ?Hins ?Hroom ?Hpre; cbv beta in *; op_unfold;
      lazymatch goal with
      | |- wp _ ?c ?st (fun _ c' st' => _ /\ upd _ _ _ _ ?f c' st') =>
          eapply (wp_pure1 w _ _ _ _ _ f)
      end;
      [ supported | discriminate | pure_tac | reflexivity | reflexivity | reflexivity
      | evals_tac | assumption | assumption | assumption | intros ?st' ?G ?U; split; [apply (grows_weaken 0); [exact G | lia] | exact U] ]
  | |- Assigns2 _ ?w _ _ _ _ _ _ _ _ =>
      intros ?c ?st ?Hwf ?Hr1 ?Hr2 ?Hne ?Hins ?Hroom ?Hpre; cbv beta in *; op_unfold;
      lazymatch goal with
      | |- wp _ ?c ?st (fun _ c' st' => _ /\ upd2 _ _ _ _ ?f1 _ ?f2 c' st') =>
          eapply (wp_pure2 w _ _ _ _ _ _ f1 f2)
      end;
      [ supported | discriminate | pure_tac | reflexivity | reflexivity | reflexivity
      | evals_tac | assumption | assumption | assumption | assumption | assumption
      | intros ?st' ?G ?U; split; [apply (grows_weaken 0); [exact G | lia] | exact U] ]
  end.

Ltac op_instance := op_instance_using evals_tac.

Ltac op_args :=
  unfold op_ins, op_cargs;
  cbn [mk_op opc args tcg_op_defs opdef nb_oargs nb_iargs take drop Nat.add map].

(** Ops with a bit field. *)
Ltac evals_field :=
  eexists; split;
  [| first [ left; split; [reflexivity |] | right; split; [reflexivity |]; split; [reflexivity |] ];
     op_args; unfold eval_i32, eval_i64, ev_deposit, ev_extract, ev_sextract;
     match goal with H : field_ok _ _ _ = true |- _ => rewrite H end; reflexivity ];
  match goal with H : field_ok _ _ _ = true |- _ => apply field_ok_true in H end;
  cbn [map]; f_equal; unfold V; zbits.

(** Rotations. *)
Ltac evals_rot :=
  match goal with H : rot_pre _ _ _ |- _ => unfold rot_pre in H end;
  eexists; split; [| first [ left; split; [reflexivity | reflexivity]
                           | right; split; [reflexivity | split; reflexivity] ]];
  cbn [map]; rewrite shift_w_in by (unfold V in *; tauto); reflexivity.

(** Byte swaps. *)
Definition bswap_pre (n flags x : Z) : Prop :=
  (flag flags TCG_BSWAP_OS = false \/ flag flags TCG_BSWAP_OZ = false) /\
  (flag flags TCG_BSWAP_IZ = true -> x = uint n x).

Lemma bswap_flags_eq `{Orc : Oracle} w n swap x flags j :
  0 <= n <= w -> bswap_pre n flags (uint w x) ->
  bswap_flags w n swap x flags j =
  Some (if flag flags TCG_BSWAP_OS then sint n (swap x)
        else if flag flags TCG_BSWAP_OZ then swap x else swap x + j * 2 ^ n).
Proof.
  intros Hn [_ Hz]. unfold bswap_flags. rewrite uint_uint_le in Hz by done.
  destruct (flag flags TCG_BSWAP_IZ); cbn [andb].
  - rewrite (proj2 (Z.eqb_eq _ _) (Hz eq_refl)). cbn [negb]. by destruct (flag _ _); [| destruct (flag _ _)].
  - by destruct (flag _ _); [| destruct (flag _ _)].
Qed.

Lemma upd_low w n c st r v u c' st' :
  0 <= n <= w -> uint n v = uint n u -> upd w c st r v c' st' -> upd n c st r u c' st'.
Proof.
  intros Hn E [U1 U2 U3]. split; [| done | done]. unfold V in *.
  by rewrite <- (uint_uint_le n w), U1, uint_uint_le.
Qed.

(** Ops with a condition. *)
Ltac evals_cond :=
  eexists; split; [reflexivity |];
  first [ left; split; [reflexivity |] | right; split; [reflexivity |]; split; [reflexivity |] ];
  op_args; unfold eval_i32, eval_i64, ev_cond, ev_movcond, V;
  rewrite cond_eval_holds by assumption; cbn [option_map]; by rewrite cond_holds_uint by lia.

Ltac evals_movcond :=
  eexists; split;
  [| first [ left; split; [reflexivity |] | right; split; [reflexivity |]; split; [reflexivity |] ];
     op_args; unfold eval_i32, eval_i64, ev_movcond;
     rewrite cond_eval_holds by assumption; cbn [option_map]; reflexivity ];
  unfold V; rewrite cond_holds_uint by lia; cbn [map]; f_equal;
  destruct (cond_holds _ _ _ _); by rewrite uint_uint by lia.

(** Division ops. *)
Ltac evals_div :=
  eexists; split; [reflexivity |];
  first [ left; split; [reflexivity |] | right; split; [reflexivity |]; split; [reflexivity |] ];
  op_args; unfold eval_i32, eval_i64, ev_sdiv, ev_udiv, V in *; rewrite ?sint_uint' in * by tauto;
  match goal with H : ?b = _ |- context [if ?b then _ else _] => rewrite H end; reflexivity.
