(* ===== verification/TcgGenOk.v ===== *)
(** * Correctness of moves, shifts, extensions and helper calls *)

From Stdlib Require Import ZArith Lia Bool.
From stdpp Require Import base numbers functions list gmap.
From S2P Require Import Prelude.
From S2P Require Import Bytes.
From S2P Require Import Bitops.
From S2P Require Import BitCount.
From S2P Require Import HostUtils.
From S2P Require Import TcgCond.
From S2P Require Import TcgOpc.
From S2P Require Import TcgCtx.
From S2P Require Import TcgHelpers.
From S2P Require Import TcgGen.
From S2P Require Import TcgSem.
From S2P Require Import TcgTemps.
From S2P Require Import TcgWp.
From S2P Require Import TcgVal.
From S2P Require Import TcgAssign.

Local Open Scope Z_scope.

(** A host with 64-bit registers. *)
#[export] Hint Extern 0 (TCG_TARGET_REG_BITS = 64) => assumption : typeclass_instances.

(** The parameters of the helpers are all 32-bit or all 64-bit. *)
Definition helper_arity (h : Helper) : nat :=
  match h with
  | HELPER_clrsb_i32 | HELPER_clrsb_i64 | HELPER_ctpop_i32 | HELPER_ctpop_i64
  | HELPER_lookup_tb_ptr => 1
  | _ => 2
  end.

Definition helper_i32 (h : Helper) : bool :=
  match h with
  | HELPER_div_i32 | HELPER_rem_i32 | HELPER_divu_i32 | HELPER_remu_i32
  | HELPER_clz_i32 | HELPER_ctz_i32 | HELPER_clrsb_i32 | HELPER_ctpop_i32 => true
  | _ => false
  end.

Definition helper_i64 (h : Helper) : bool :=
  match h with
  | HELPER_lookup_tb_ptr => false
  | _ => negb (helper_i32 h)
  end.

#[export] Hint Extern 0 (helper_i32 _ = true) => reflexivity : typeclass_instances.
#[export] Hint Extern 0 (helper_i64 _ = true) => reflexivity : typeclass_instances.
#[export] Hint Extern 0 (helper_arity _ = _) => reflexivity : typeclass_instances.

Section GenOk.
Context `{T : TcgTarget} `{L : !TcgTargetLaws T} `{Orc : Oracle} `{Ov : Overshift}.

(** ** Moves and shifts *)

Lemma op_mov_i32_ok ret a :
  Assigns (tcg_gen_op2_i32 INDEX_op_mov_i32 ret a) 32 32 0 ret [a] any (fun x => x a).
Proof. op_instance. Qed.

#[export] Instance tcg_gen_mov_i32_ok ret a :
  Assigns (tcg_gen_mov_i32 ret a) 32 32 0 ret [a] any (fun x => x a).
Proof.
  unfold tcg_gen_mov_i32. destruct (Z.eqb_spec ret a) as [-> |]; [| apply op_mov_i32_ok].
  begin. wp_go. by rewrite uint_small.
Qed.

#[export] Instance tcg_gen_movi_i32_ok ret k :
  Assigns (tcg_gen_movi_i32 ret k) 32 32 1 ret [] any (fun x => k).
Proof. unfold tcg_gen_movi_i32. begin. wp_go. by rewrite uint_uint. Qed.

#[export] Instance tcg_gen_shl_i32_ok ret a b :
  Assigns (tcg_gen_shl_i32 ret a b) 32 32 0 ret [a; b] any (fun x => shift_w 32 INDEX_op_shl_i32 Z.shiftl (x a) (x b)).
Proof. unfold tcg_gen_shl_i32. op_instance. Qed.

#[export] Instance tcg_gen_shr_i32_ok ret a b :
  Assigns (tcg_gen_shr_i32 ret a b) 32 32 0 ret [a; b] any (fun x => shift_w 32 INDEX_op_shr_i32 Z.shiftr (x a) (x b)).
Proof. unfold tcg_gen_shr_i32. op_instance. Qed.

#[export] Instance tcg_gen_sar_i32_ok ret a b :
  Assigns (tcg_gen_sar_i32 ret a b) 32 32 0 ret [a; b] any (fun x => shift_w 32 INDEX_op_sar_i32 (sar_w 32) (x a) (x b)).
Proof. unfold tcg_gen_sar_i32. op_instance. Qed.

#[export] Instance tcg_gen_shli_i32_ok ret a k :
  Assigns (tcg_gen_shli_i32 ret a k) 32 32 1 ret [a] (fun _ => 0 <= k < 32)
    (fun x => Z.shiftl (x a) k).
Proof.
  unfold tcg_gen_shli_i32. begin. rewrite (sint_count 32) by lia.
  do 2 wp_step. wp_case; wp_go.
  - by subst.
  - by rewrite shift_w_small by lia.
Qed.

#[export] Instance tcg_gen_shri_i32_ok ret a k :
  Assigns (tcg_gen_shri_i32 ret a k) 32 32 1 ret [a] (fun _ => 0 <= k < 32)
    (fun x => Z.shiftr (x a) k).
Proof.
  unfold tcg_gen_shri_i32. begin. rewrite (sint_count 32) by lia.
  do 2 wp_step. wp_case; wp_go.
  - by subst.
  - by rewrite shift_w_small by lia.
Qed.

#[export] Instance tcg_gen_sari_i32_ok ret a k :
  Assigns (tcg_gen_sari_i32 ret a k) 32 32 1 ret [a] (fun _ => 0 <= k < 32)
    (fun x => Z.shiftr (sint 32 (x a)) k).
Proof.
  unfold tcg_gen_sari_i32. begin. rewrite (sint_count 32) by lia.
  do 2 wp_step. wp_case; wp_go.
  - subst. rewrite Z.shiftr_0_r. wmod.
  - by rewrite shift_w_small by lia.
Qed.

(** ** Extensions on a 64-bit host *)

#[export] Instance tcg_gen_extu_i32_i64_ok (R64 : TCG_TARGET_REG_BITS = 64) ret a :
  Assigns (tcg_gen_extu_i32_i64 ret a) 64 32 0 ret [a] any (fun x => x a).
Proof. unfold tcg_gen_extu_i32_i64. rewrite R64. op_instance. Qed.

#[export] Instance tcg_gen_ext_i32_i64_ok (R64 : TCG_TARGET_REG_BITS = 64) ret a :
  Assigns (tcg_gen_ext_i32_i64 ret a) 64 32 0 ret [a] any (fun x => sint 32 (x a)).
Proof. unfold tcg_gen_ext_i32_i64. rewrite R64. op_instance. Qed.

(** ** Helper calls *)

Lemma call_outs_1 ret s : call_outs 1 (Some ret) s = Done [ret] s.
Proof. reflexivity. Qed.

Lemma layout_func h info : init_call_layout h = Some info -> func info = h.
Proof.
  unfold init_call_layout. destruct (layout_ret _); [| discriminate].
  destruct (layout_params _ _ _); [| discriminate]. by intros [= <-].
Qed.

(** The op of a call with one result word. *)
Definition call_args (h : Helper) (ret : Z) (ins : list Z) : list Z :=
  ret :: ins ++ [helper_code h; 0].

Lemma take_call_args h ret ins : take (1 + length ins) (call_args h ret ins) = ret :: ins.
Proof. cbn. f_equal. apply take_app_length. Qed.

Lemma call_op_ok c op h ret ins :
  opc op = INDEX_op_call -> writable c ret -> Forall (live c) ins ->
  op_ok c (with_args op (Z.of_nat (length ins)) 1 (call_args h ret ins)).
Proof.
  intros Eo Hr Hi. split; [by cbn [opc with_args]; rewrite Eo |].
  unfold op_temps, TCGOP_CALLO, TCGOP_CALLI. cbn [opc with_args param1 param2 args]. rewrite Eo.
  rewrite Nat2Z.id. change (Z.to_nat 1) with 1%nat. rewrite take_call_args.
  constructor; [apply Hr | by apply live_bounds].
Qed.

Lemma call_exec c op h ret ins st w vs v :
  opc op = INDEX_op_call -> writable c ret ->
  param_values 10 (Z.shiftr (typemask h) 3) (map (rd c st) ins) = Some vs ->
  helper_eval lookup_tb_ptr h vs = Some v -> ret_words (Z.land (typemask h) 7) v = (w, [v]) ->
  exec_op c (with_args op (Z.of_nat (length ins)) 1 (call_args h ret ins)) st =
  Fall (set_reg st ret (word_of w v (junk INDEX_op_call (map (rd c st) ins)))).
Proof.
  intros Eo Hr Hp Hv Hrw. unfold exec_op. cbn [opc with_args]. rewrite Eo.
  unfold exec_call, TCGOP_CALLO, TCGOP_CALLI. cbn [opc with_args param1 param2 args].
  rewrite Nat2Z.id. change (Z.to_nat 1) with 1%nat.
  change (drop (1 + length ins) (call_args h ret ins)) with (drop (length ins) (ins ++ [helper_code h; 0])).
  change (drop 1 (call_args h ret ins)) with (ins ++ [helper_code h; 0]).
  rewrite drop_app_length, take_app_length, helper_of_helper_code, Hp, Hv, Hrw, Eo.
  change (take 1 (call_args h ret ins)) with [ret]. cbn [write_outs fall].
  by rewrite (proj2 Hr).
Qed.

(** A call with one result word: the arguments are prepared, the call assigns
    the value of the helper, and the temporaries of the arguments are freed. *)
Lemma wp_callN h info ret args c st Q :
  init_call_layout h = Some info -> nr_out info = 1 ->
  wp (call_ins (info_in info) args) c st (fun r c' st' =>
    Z.of_nat (length (fst r)) = nr_in info /\ Z.of_nat (length (snd r)) < MAX_CALL_IARGS /\
    Forall (live c') (fst r) /\ writable c' ret /\
    exists w vs v,
      (w = 32 \/ w = 64) /\
      param_values 10 (Z.shiftr (typemask h) 3) (map (rd c' st') (fst r)) = Some vs /\
      helper_eval lookup_tb_ptr h vs = Some v /\ ret_words (Z.land (typemask h) 7) v = (w, [v]) /\
      forall st'', upd w c' st' ret v c' st'' -> wp (free_all_i64 (snd r)) c' st'' Q) ->
  wp (tcg_gen_callN h (Some ret) args) c st Q.
Proof.
  intros Hi Ho H s Hs. unfold tcg_gen_callN. rewrite Hi, Ho.
  set (n := 1 + nr_in info + 2). unfold bind at 1.
  destruct (tcg_op_alloc_eq INDEX_op_call n s) as (op & s1 & -> & Eo & Et & Eops & En).
  unfold bind at 1. rewrite call_outs_1.
  destruct (H s1) as ([ins fr] & s2 & l & st' & E & O & N & X & F & R & Hr); [congruence |].
  unfold bind at 1. rewrite E, (layout_func h info Hi). cbn [fst snd] in *.
  destruct Hr as (Hlen & Hfree & Hins & Hret & w & vs & v & Hw & Hp & Hv & Hrw & HQ).
  change ([ret] ++ ins ++ [helper_code h; 0]) with (call_args h ret ins).
  set (op' := with_args op (nr_in info) 1 (call_args h ret ins)).
  set (s3 := set_ops s2 (nb_ops s2) (next_ptr s2) (ops s2 ++ [op']) (free_ops s2)).
  pose proof (call_exec (tmp s2) op h ret ins st' w vs v Eo Hret Hp Hv Hrw) as Hex.
  pose proof (call_op_ok (tmp s2) op h ret ins Eo Hret Hins) as Hok. rewrite Hlen in Hex, Hok.
  fold op' in Hex, Hok. set (st'' := set_reg st' ret _) in Hex.
  destruct (HQ st'') with (s := s3) as (u & s4 & l4 & st4 & E4 & O4 & N4 & X4 & F4 & R4 & HQ4);
    [by apply set_reg_upd | reflexivity |].
  exists u, s4, (l ++ op' :: l4), st4. split_and!.
  - unfold bind, tcg_debug_assert, insert_tail.
    assert (Hl : Z.of_nat (length (call_args h ret ins)) = n).
    { unfold call_args, n. cbn [length]. rewrite length_app. cbn [length]. lia. }
    rewrite Hl, Z.eqb_refl.
    replace (Z.of_nat (length fr) <? MAX_CALL_IARGS) with true by lia. exact E4.
  - rewrite O4. cbn [ops s3 set_ops]. rewrite O, Eops, <- !app_assoc. reflexivity.
  - rewrite N4. cbn [nb_ops s3 set_ops]. rewrite N, En, length_app. cbn [length]. lia.
  - by apply (ext_trans _ (tmp s2)).
  - apply Forall_app. split; [| constructor].
    + eapply Forall_impl; [exact F |]. intros o. by apply op_ok_ext.
    + by apply (op_ok_ext (tmp s2)).
    + exact F4.
  - rewrite run_app, (run_ext (tmp s2)), R by done. cbn [run].
    rewrite (exec_op_ext (tmp s2)), Hex by done. exact R4.
  - exact HQ4.
Qed.

Definition arg_loc (k : TCGCallArgumentKind) (slot idx : Z) : TCGCallArgumentLoc :=
  {| loc_kind := k; arg_slot := slot; ref_slot := 0; arg_idx := idx; tmp_subindex := 0 |}.

(** The layout of arguments that are passed in one slot each. *)
Definition arg_locs (k : TCGCallArgumentKind) (step : Z) (n : nat) : list TCGCallArgumentLoc :=
  map (fun i => arg_loc k (step * Z.of_nat i) (Z.of_nat i)) (seq 0 n).

Definition helper_extend (h : Helper) : TCGCallArgumentKind :=
  match h with
  | HELPER_div_i32 | HELPER_rem_i32 => TCG_CALL_ARG_EXTEND_S
  | _ => TCG_CALL_ARG_EXTEND_U
  end.

Lemma helper_extend_cases h :
  helper_extend h = TCG_CALL_ARG_EXTEND_S \/ helper_extend h = TCG_CALL_ARG_EXTEND_U.
Proof. destruct h; auto. Qed.

Local Ltac layout_tac :=
  cbv -[TCG_TARGET_CALL_ARG_I32 TCG_TARGET_CALL_ARG_I64 TCG_TARGET_REG_BITS];
  repeat match goal with
  | E : TCG_TARGET_CALL_ARG_I32 = _ |- _ => rewrite E
  | E : TCG_TARGET_CALL_ARG_I64 = _ |- _ => rewrite E
  | E : TCG_TARGET_REG_BITS = _ |- _ => rewrite E
  end; reflexivity.

Lemma layout_i32 h :
  helper_i32 h = true ->
  exists k step, init_call_layout h =
    Some {| func := h; nr_out := 1; info_in := arg_locs k step (helper_arity h) |} /\
    (k = TCG_CALL_ARG_NORMAL \/ k = helper_extend h /\ TCG_TARGET_REG_BITS = 64).
Proof.
  intros Hh. destruct call_arg_i32_kinds as [E | [E | [E R]]].
  - exists TCG_CALL_ARG_NORMAL, 1. split; [| by left].
    destruct h; try discriminate Hh; layout_tac.
  - exists TCG_CALL_ARG_NORMAL, 2. split; [| by left].
    destruct h; try discriminate Hh; layout_tac.
  - exists (helper_extend h), 1. split; [| by right].
    destruct h; try discriminate Hh; layout_tac.
Qed.

Lemma layout_i64 h :
  TCG_TARGET_REG_BITS = 64 -> helper_i64 h = true ->
  exists step, init_call_layout h =
    Some {| func := h; nr_out := 1; info_in := arg_locs TCG_CALL_ARG_NORMAL step (helper_arity h) |}.
Proof.
  intros R Hh. destruct call_arg_i64_kinds as [E | E]; [exists 1 | exists 2];
    destruct h; try discriminate Hh; layout_tac.
Qed.

Lemma param_values_i32 h ws :
  helper_i32 h = true -> length ws = helper_arity h ->
  param_values 10 (Z.shiftr (typemask h) 3) ws = Some ws.
Proof.
  intros Hh Hl. destruct h; try discriminate Hh; destruct ws as [| x [| y [| z ws]]]; try discriminate Hl;
    reflexivity.
Qed.

Lemma param_values_i64 h ws :
  TCG_TARGET_REG_BITS = 64 -> helper_i64 h = true -> length ws = helper_arity h ->
  param_values 10 (Z.shiftr (typemask h) 3) ws = Some ws.
Proof.
  intros R Hh Hl. destruct h; try discriminate Hh; destruct ws as [| x [| y [| z ws]]]; try discriminate Hl;
    cbv -[TCG_TARGET_REG_BITS]; rewrite ?R; reflexivity.
Qed.

Lemma ret_words_i32 h v : helper_i32 h = true -> ret_words (Z.land (typemask h) 7) v = (32, [v]).
Proof. by destruct h. Qed.

Lemma ret_words_i64 h v :
  TCG_TARGET_REG_BITS = 64 -> helper_i64 h = true -> ret_words (Z.land (typemask h) 7) v = (64, [v]).
Proof.
  intros R Hh. destruct h; try discriminate Hh; cbv -[TCG_TARGET_REG_BITS Z.shiftr]; by rewrite R.
Qed.

(** A helper sees only the words of its parameters. *)
Lemma helper_eval_words w f h vs vs' :
  (if w =? 32 then helper_i32 h else helper_i64 h) = true -> w = 32 \/ w = 64 ->
  map (uint w) vs = map (uint w) vs' -> helper_eval f h vs = helper_eval f h vs'.
Proof.
  intros Hh Hw E. assert (Hl : length vs = length vs')
    by (rewrite <- (length_map (uint w) vs), E; apply length_map).
  destruct vs as [| x [| y [| z vs]]], vs' as [| x' [| y' [| z' vs']]]; try discriminate Hl;
    try (destruct h; done); injection E as E1 E2 || injection E as E1;
    destruct Hw as [-> | ->]; destruct h; try discriminate Hh; try reflexivity;
    cbn [helper_eval];
    unfold helper_div_i32, helper_rem_i32, helper_divu_i32, helper_remu_i32, helper_clz_i32, helper_ctz_i32,
      helper_clrsb_i32, helper_ctpop_i32, helper_shl_i64, helper_shr_i64, helper_sar_i64,
      helper_div_i64, helper_rem_i64, helper_divu_i64, helper_remu_i64, helper_muluh_i64, helper_mulsh_i64,
      helper_clz_i64, helper_ctz_i64, helper_clrsb_i64, helper_ctpop_i64,
      clz32, ctz32, clrsb32, ctpop32, clz64, ctz64, clrsb64, ctpop64, mulu64, muls64, sint;
    rewrite ?E1, ?E2; reflexivity.
Qed.

(** *** The calls as assignments *)

Definition helper_pre (h : Helper) (vs : list Z) : Prop := is_Some (helper_eval lookup_tb_ptr h vs).
Definition helper_val (h : Helper) (vs : list Z) : Z := default 0 (helper_eval lookup_tb_ptr h vs).

Lemma helper_pre_val h vs : helper_pre h vs -> helper_eval lookup_tb_ptr h vs = Some (helper_val h vs).
Proof. intros [v E]. unfold helper_val. by rewrite E. Qed.

Definition helper_w (w : Z) (h : Helper) : Prop :=
  w = 32 /\ helper_i32 h = true \/
  w = 64 /\ TCG_TARGET_REG_BITS = 64 /\ helper_i64 h = true.

Lemma helper_call_done w h ret ins fr vs c st N Q :
  N = Z.of_nat (length ins) ->
  helper_w w h -> length ins = helper_arity h -> Z.of_nat (length fr) < MAX_CALL_IARGS ->
  Forall (live c) ins -> writable c ret -> map (V w c st) ins = map (uint w) vs -> helper_pre h vs ->
  (forall st'', upd w c st ret (helper_val h vs) c st'' -> wp (free_all_i64 fr) c st'' Q) ->
  Z.of_nat (length ins) = N /\ Z.of_nat (length fr) < MAX_CALL_IARGS /\
  Forall (live c) ins /\ writable c ret /\
  exists w vs v,
    (w = 32 \/ w = 64) /\
    param_values 10 (Z.shiftr (typemask h) 3) (map (rd c st) ins) = Some vs /\
    helper_eval lookup_tb_ptr h vs = Some v /\ ret_words (Z.land (typemask h) 7) v = (w, [v]) /\
    forall st'', upd w c st ret v c st'' -> wp (free_all_i64 fr) c st'' Q.
Proof.
  intros HN Hh Hl Hf Hli Hr HV Hp HQ. split; [lia |]. split; [done |]. split; [done |]. split; [done |].
  exists w, (map (rd c st) ins), (helper_val h vs).
  assert (E : helper_eval lookup_tb_ptr h (map (rd c st) ins) = Some (helper_val h vs)).
  { rewrite <- (helper_pre_val h vs Hp). apply (helper_eval_words w).
    - by destruct Hh as [[-> ?] | (-> & ? & ?)].
    - by destruct Hh as [[-> ?] | (-> & ? & ?)]; [left | right].
    - by rewrite <- HV, map_map. }
  assert (Hl' : length (map (rd c st) ins) = helper_arity h) by (by rewrite length_map).
  destruct Hh as [[-> Hh] | (-> & R & Hh)]; (split; [tauto |]).
  - split; [by apply param_values_i32 |]. split; [done |]. split; [by apply ret_words_i32 | done].
  - split; [by apply param_values_i64 |]. split; [done |]. split; [by apply ret_words_i64 | done].
Qed.

Local Ltac call_norm :=
  cbn [call_ins arg_loc loc_kind arg_idx tmp_subindex];
  change (Z.to_nat (Z.of_nat 0)) with 0%nat; change (Z.to_nat (Z.of_nat 1)) with 1%nat;
  cbn [nth]; rewrite ?Z.add_0_r.

Local Ltac call_values :=
  cbn [map]; repeat match goal with HV : V _ ?c ?st ?x = _ |- context [V _ ?c ?st ?x] => rewrite HV end;
  rewrite ?(V_low 32 64) by lia;
  repeat match goal with HV : V _ ?c ?st ?x = _ |- context [V _ ?c ?st ?x] => rewrite HV end;
  rewrite ?uint_uint_le, ?uint_sint by lia; rewrite ?uint_small by done; reflexivity.

Local Ltac after_call :=
  let st'' := fresh "st" in let U := fresh "U" in
  intros st'' U;
  match type of U with upd _ ?c _ _ _ _ _ =>
    let G := fresh "G" in pose proof (grows_refl c ltac:(tr_wf)) as G; advance G U
  end; cbn [free_all_i64].

Local Ltac call_start Hi :=
  eapply wp_callN; [exact Hi | reflexivity |]; cbn [info_in]; unfold arg_locs; cbn [seq map];
  call_norm; repeat wp_step; cbn [fst snd].

#[export] Instance gen_helper_2_i32_ok h ret a b :
  helper_i32 h = true -> helper_arity h = 2%nat ->
  Assigns (gen_helper_2 h ret a b) 32 32 4 ret [a; b]
    (fun x => helper_pre h [x a; x b]) (fun x => helper_val h [x a; x b]).
Proof.
  intros Hh Ha. unfold gen_helper_2, tcg_gen_call2. begin.
  destruct (layout_i32 h Hh) as (k & step & Hi & Hk). rewrite Ha in Hi.
  destruct Hk as [-> | [-> R64]].
  - call_start Hi.
    apply (helper_call_done 32 h ret [a; b] [] [v0; v]);
      [done | by left | done | done | lives | lv | call_values | done |].
    after_call. by wp_go.
  - destruct (helper_extend_cases h) as [Ek | Ek]; rewrite Ek in Hi; call_start Hi;
      (apply (helper_call_done 32 h ret [t; t0] [t; t0] [v0; v]);
       [done | by left | done | done | lives | lv | call_values | done |]);
      after_call; by wp_go.
Qed.

#[export] Instance gen_helper_1_i32_ok h ret a :
  helper_i32 h = true -> helper_arity h = 1%nat ->
  Assigns (gen_helper_1 h ret a) 32 32 2 ret [a]
    (fun x => helper_pre h [x a]) (fun x => helper_val h [x a]).
Proof.
  intros Hh Ha. unfold gen_helper_1, tcg_gen_call1. begin.
  destruct (layout_i32 h Hh) as (k & step & Hi & Hk). rewrite Ha in Hi.
  destruct Hk as [-> | [-> R64]].
  - call_start Hi.
    apply (helper_call_done 32 h ret [a] [] [v]);
      [done | by left | done | done | lives | lv | call_values | done |].
    after_call. by wp_go.
  - destruct (helper_extend_cases h) as [Ek | Ek]; rewrite Ek in Hi; call_start Hi;
      (apply (helper_call_done 32 h ret [t] [t] [v]);
       [done | by left | done | done | lives | lv | call_values | done |]);
      after_call; by wp_go.
Qed.

#[export] Instance gen_helper_2_i64_ok (R64 : TCG_TARGET_REG_BITS = 64) h ret a b :
  helper_i64 h = true -> helper_arity h = 2%nat ->
  Assigns (gen_helper_2 h ret a b) 64 64 0 ret [a; b]
    (fun x => helper_pre h [x a; x b]) (fun x => helper_val h [x a; x b]).
Proof.
  intros Hh Ha. unfold gen_helper_2, tcg_gen_call2. begin.
  destruct (layout_i64 h R64 Hh) as (step & Hi). rewrite Ha in Hi. call_start Hi.
  apply (helper_call_done 64 h ret [a; b] [] [v0; v]);
    [done | by right | done | done | lives | lv | call_values | done |].
  after_call. by wp_go.
Qed.

#[export] Instance gen_helper_1_i64_ok (R64 : TCG_TARGET_REG_BITS = 64) h ret a :
  helper_i64 h = true -> helper_arity h = 1%nat ->
  Assigns (gen_helper_1 h ret a) 64 64 0 ret [a]
    (fun x => helper_pre h [x a]) (fun x => helper_val h [x a]).
Proof.
  intros Hh Ha. unfold gen_helper_1, tcg_gen_call1. begin.
  destruct (layout_i64 h R64 Hh) as (step & Hi). rewrite Ha in Hi. call_start Hi.
  apply (helper_call_done 64 h ret [a] [] [v]);
    [done | by right | done | done | lives | lv | call_values | done |].
  after_call. by wp_go.
Qed.

End GenOk.
