(* ===== verification/TcgOp32Ok.v ===== *)
(** * Correctness of the 32-bit operations *)

From Stdlib Require Import ZArith Lia Bool.
From stdpp Require Import base numbers functions list gmap.
From S2P Require Import Prelude.
From S2P Require Import Bytes.
From S2P Require Import Bitops.
From S2P Require Import BitCount.
From S2P Require Import TcgCond.
From S2P Require Import TcgOpc.
From S2P Require Import TcgCtx.
From S2P Require Import TcgHelpers.
From S2P Require Import TcgGen.
From S2P Require Import TcgSem.
From S2P Require Import TcgOp32.
From S2P Require Import TcgTemps.
From S2P Require Import TcgWp.
From S2P Require Import TcgVal.
From S2P Require Import TcgAssign.
From S2P Require Import TcgGenOk.

Local Open Scope Z_scope.

(** What the forward calls promise, where they are reached. *)
Class ForwardOk `{T : TcgTarget} `{Orc : Oracle} `{Ov : Overshift} (F : Forward) : Prop := {
  fwd_deposit_i32_ok :: TCG_TARGET_HAS_extract2_i32 = false -> forall ret a b ofs len,
    Assigns (fwd_deposit_i32 ret a b ofs len) 32 32 5 ret [a; b] (fun _ => field_ok 32 ofs len = true)
      (fun x => deposit_w 32 (x a) ofs len (x b));
  fwd_deposit_i64_ok :: TCG_TARGET_HAS_extract2_i64 = false -> TCG_TARGET_REG_BITS = 64 ->
    forall ret a b ofs len,
    Assigns (fwd_deposit_i64 ret a b ofs len) 64 64 5 ret [a; b] (fun _ => field_ok 64 ofs len = true)
      (fun x => deposit_w 64 (x a) ofs len (x b));
}.

Section I32Ok.
Context `{T : TcgTarget} `{L : !TcgTargetLaws T} `{F : Forward} `{Orc : Oracle} `{Ov : Overshift}.

(** ** Ops *)

#[export] Instance tcg_gen_add_i32_ok ret a b :
  Assigns (tcg_gen_add_i32 ret a b) 32 32 0 ret [a; b] any (fun x => x a + x b).
Proof. unfold tcg_gen_add_i32. op_instance. Qed.

#[export] Instance tcg_gen_sub_i32_ok ret a b :
  Assigns (tcg_gen_sub_i32 ret a b) 32 32 0 ret [a; b] any (fun x => x a - x b).
Proof. unfold tcg_gen_sub_i32. op_instance. Qed.

#[export] Instance tcg_gen_neg_i32_ok ret a :
  Assigns (tcg_gen_neg_i32 ret a) 32 32 0 ret [a] any (fun x => - x a).
Proof. unfold tcg_gen_neg_i32. op_instance. Qed.

#[export] Instance tcg_gen_and_i32_ok ret a b :
  Assigns (tcg_gen_and_i32 ret a b) 32 32 0 ret [a; b] any (fun x => Z.land (x a) (x b)).
Proof. unfold tcg_gen_and_i32. op_instance. Qed.

#[export] Instance tcg_gen_or_i32_ok ret a b :
  Assigns (tcg_gen_or_i32 ret a b) 32 32 0 ret [a; b] any (fun x => Z.lor (x a) (x b)).
Proof. unfold tcg_gen_or_i32. op_instance. Qed.

#[export] Instance tcg_gen_xor_i32_ok ret a b :
  Assigns (tcg_gen_xor_i32 ret a b) 32 32 0 ret [a; b] any (fun x => Z.lxor (x a) (x b)).
Proof. unfold tcg_gen_xor_i32. op_instance. Qed.

#[export] Instance tcg_gen_mul_i32_ok ret a b :
  Assigns (tcg_gen_mul_i32 ret a b) 32 32 0 ret [a; b] any (fun x => x a * x b).
Proof. unfold tcg_gen_mul_i32. op_instance. Qed.

#[export] Instance op_ext8u_i32_ok `{!Has TCG_TARGET_HAS_ext8u_i32} ret a :
  Assigns (tcg_gen_op2_i32 INDEX_op_ext8u_i32 ret a) 32 32 0 ret [a] any (fun x => uint 8 (x a)).
Proof. op_instance. Qed.

#[export] Instance op_ext16u_i32_ok `{!Has TCG_TARGET_HAS_ext16u_i32} ret a :
  Assigns (tcg_gen_op2_i32 INDEX_op_ext16u_i32 ret a) 32 32 0 ret [a] any (fun x => uint 16 (x a)).
Proof. op_instance. Qed.

#[export] Instance op_ext8s_i32_ok `{!Has TCG_TARGET_HAS_ext8s_i32} ret a :
  Assigns (tcg_gen_op2_i32 INDEX_op_ext8s_i32 ret a) 32 32 0 ret [a] any (fun x => sint 8 (x a)).
Proof. op_instance. Qed.

#[export] Instance op_ext16s_i32_ok `{!Has TCG_TARGET_HAS_ext16s_i32} ret a :
  Assigns (tcg_gen_op2_i32 INDEX_op_ext16s_i32 ret a) 32 32 0 ret [a] any (fun x => sint 16 (x a)).
Proof. op_instance. Qed.

#[export] Instance op_not_i32_ok `{!Has TCG_TARGET_HAS_not_i32} ret a :
  Assigns (tcg_gen_op2_i32 INDEX_op_not_i32 ret a) 32 32 0 ret [a] any (fun x => Z.lnot (x a)).
Proof. op_instance. Qed.

#[export] Instance op_ctpop_i32_ok `{!Has TCG_TARGET_HAS_ctpop_i32} ret a :
  Assigns (tcg_gen_op2_i32 INDEX_op_ctpop_i32 ret a) 32 32 0 ret [a] any (fun x => ctpop32 (x a)).
Proof. op_instance. Qed.

(** ** Arithmetic and logic with an immediate *)

#[export] Instance tcg_gen_addi_i32_ok ret a k :
  Assigns (tcg_gen_addi_i32 ret a k) 32 32 1 ret [a] any (fun x => x a + k).
Proof.
  unfold tcg_gen_addi_i32. begin. destruct (Z.eqb_spec (sint 32 k) 0) as [E |]; wp_go.
  - by_const.
  - wmod.
Qed.

#[export] Instance tcg_gen_subfi_i32_ok ret k a :
  Assigns (tcg_gen_subfi_i32 ret k a) 32 32 1 ret [a] any (fun x => k - x a).
Proof.
  unfold tcg_gen_subfi_i32. begin. destruct (Z.eqb_spec (sint 32 k) 0) as [E |]; wp_go.
  - by_const.
  - wmod.
Qed.

#[export] Instance tcg_gen_subi_i32_ok ret a k :
  Assigns (tcg_gen_subi_i32 ret a k) 32 32 1 ret [a] any (fun x => x a - k).
Proof. unfold tcg_gen_subi_i32. begin. wp_go. wmod. Qed.

#[export] Instance tcg_gen_andi_i32_ok ret a k :
  Assigns (tcg_gen_andi_i32 ret a k) 32 32 1 ret [a] any (fun x => Z.land (x a) k).
Proof.
  unfold tcg_gen_andi_i32. begin. repeat wp_case; wp_go; try by_const; try wmod.
  - by rewrite Z.land_0_r.
  - by rewrite Z.land_m1_r.
  - by rewrite land_ff.
  - by rewrite land_ffff.
  - by rewrite land_ffff.
Qed.

#[export] Instance tcg_gen_ori_i32_ok ret a k :
  Assigns (tcg_gen_ori_i32 ret a k) 32 32 1 ret [a] any (fun x => Z.lor (x a) k).
Proof.
  unfold tcg_gen_ori_i32. begin. repeat wp_case; wp_go; try by_const; try wmod.
  - by rewrite Z.lor_m1_r.
  - by rewrite Z.lor_0_r.
Qed.

#[export] Instance tcg_gen_xori_i32_ok ret a k :
  Assigns (tcg_gen_xori_i32 ret a k) 32 32 1 ret [a] any (fun x => Z.lxor (x a) k).
Proof.
  unfold tcg_gen_xori_i32. begin. repeat wp_case; wp_go; try by_const; try wmod.
  - by rewrite Z.lxor_0_r.
  - by rewrite Z.lxor_m1_r.
Qed.

#[export] Instance tcg_gen_not_i32_ok ret a :
  Assigns (tcg_gen_not_i32 ret a) 32 32 1 ret [a] any (fun x => Z.lnot (x a)).
Proof.
  unfold tcg_gen_not_i32. begin. wp_case; wp_go; [done |]. by rewrite Z.lxor_m1_r.
Qed.

(** ** Derived logic *)

#[export] Instance tcg_gen_andc_i32_ok ret a b :
  Assigns (tcg_gen_andc_i32 ret a b) 32 32 2 ret [a; b] any (fun x => Z.land (x a) (Z.lnot (x b))).
Proof.
  unfold tcg_gen_andc_i32. destruct (TCG_TARGET_HAS_andc_i32) eqn:E; [op_instance |].
  begin. wp_go. wmod.
Qed.

#[export] Instance tcg_gen_orc_i32_ok ret a b :
  Assigns (tcg_gen_orc_i32 ret a b) 32 32 2 ret [a; b] any (fun x => Z.lor (x a) (Z.lnot (x b))).
Proof.
  unfold tcg_gen_orc_i32. destruct (TCG_TARGET_HAS_orc_i32) eqn:E; [op_instance |].
  begin. wp_go. wmod.
Qed.

#[export] Instance tcg_gen_eqv_i32_ok ret a b :
  Assigns (tcg_gen_eqv_i32 ret a b) 32 32 1 ret [a; b] any (fun x => Z.lnot (Z.lxor (x a) (x b))).
Proof.
  unfold tcg_gen_eqv_i32. destruct (TCG_TARGET_HAS_eqv_i32) eqn:E; [op_instance |].
  begin. wp_go. wmod.
Qed.

#[export] Instance tcg_gen_nand_i32_ok ret a b :
  Assigns (tcg_gen_nand_i32 ret a b) 32 32 1 ret [a; b] any (fun x => Z.lnot (Z.land (x a) (x b))).
Proof.
  unfold tcg_gen_nand_i32. destruct (TCG_TARGET_HAS_nand_i32) eqn:E; [op_instance |].
  begin. wp_go. wmod.
Qed.

#[export] Instance tcg_gen_nor_i32_ok ret a b :
  Assigns (tcg_gen_nor_i32 ret a b) 32 32 1 ret [a; b] any (fun x => Z.lnot (Z.lor (x a) (x b))).
Proof.
  unfold tcg_gen_nor_i32. destruct (TCG_TARGET_HAS_nor_i32) eqn:E; [op_instance |].
  begin. wp_go. wmod.
Qed.

(** ** Conditions *)

#[export] Instance tcg_gen_setcond_i32_ok cond ret a b :
  Assigns (tcg_gen_setcond_i32 cond ret a b) 32 32 1 ret [a; b] (fun _ => valid_cond cond = true)
    (fun x => b2z (cond_holds 32 cond (x a) (x b))).
Proof.
  unfold tcg_gen_setcond_i32. destruct (Z.eqb_spec cond TCG_COND_ALWAYS) as [-> |].
  { begin. by wp_go. }
  destruct (Z.eqb_spec cond TCG_COND_NEVER) as [-> |]; [begin; by wp_go |].
  op_instance_using evals_cond.
Qed.

#[export] Instance tcg_gen_setcondi_i32_ok cond ret a k :
  Assigns (tcg_gen_setcondi_i32 cond ret a k) 32 32 2 ret [a] (fun _ => valid_cond cond = true)
    (fun x => b2z (cond_holds 32 cond (x a) k)).
Proof.
  unfold tcg_gen_setcondi_i32. begin. wp_go. rewrite <- (cond_holds_uint _ _ _ k) by lia.
  rewrite uint_sint, (uint_small 32 v) by lia. done.
Qed.

#[export] Instance tcg_gen_negsetcond_i32_ok cond ret a b :
  Assigns (tcg_gen_negsetcond_i32 cond ret a b) 32 32 1 ret [a; b] (fun _ => valid_cond cond = true)
    (fun x => - b2z (cond_holds 32 cond (x a) (x b))).
Proof.
  unfold tcg_gen_negsetcond_i32. destruct (Z.eqb_spec cond TCG_COND_ALWAYS) as [-> |].
  { begin. by wp_go. }
  destruct (Z.eqb_spec cond TCG_COND_NEVER) as [-> |]; [begin; by wp_go |].
  destruct TCG_TARGET_HAS_negsetcond_i32 eqn:E; [op_instance_using evals_cond |].
  begin. wp_go. wmod.
Qed.

#[export] Instance tcg_gen_negsetcondi_i32_ok cond ret a k :
  Assigns (tcg_gen_negsetcondi_i32 cond ret a k) 32 32 2 ret [a] (fun _ => valid_cond cond = true)
    (fun x => - b2z (cond_holds 32 cond (x a) k)).
Proof.
  unfold tcg_gen_negsetcondi_i32. begin. wp_go. rewrite <- (cond_holds_uint _ _ _ k) by lia.
  rewrite uint_sint, (uint_small 32 v) by lia. done.
Qed.

#[export] Instance tcg_gen_movcond_i32_ok cond ret a b y z :
  Assigns (tcg_gen_movcond_i32 cond ret a b y z) 32 32 0 ret [a; b; y; z]
    (fun _ => valid_cond cond = true)
    (fun x => if cond_holds 32 cond (x a) (x b) then x y else x z).
Proof.
  unfold tcg_gen_movcond_i32. destruct (Z.eqb_spec cond TCG_COND_ALWAYS) as [-> |].
  { begin. by wp_go. }
  destruct (Z.eqb_spec cond TCG_COND_NEVER) as [-> |]; [begin; by wp_go |].
  op_instance_using evals_movcond.
Qed.

#[export] Instance tcg_gen_smin_i32_ok ret a b :
  Assigns (tcg_gen_smin_i32 ret a b) 32 32 0 ret [a; b] any
    (fun x => Z.min (sint 32 (x a)) (sint 32 (x b))).
Proof. unfold tcg_gen_smin_i32. begin. wp_go. apply min_max_cond; lia. Qed.

#[export] Instance tcg_gen_umin_i32_ok ret a b :
  Assigns (tcg_gen_umin_i32 ret a b) 32 32 0 ret [a; b] any (fun x => Z.min (x a) (x b)).
Proof. unfold tcg_gen_umin_i32. begin. wp_go. apply min_max_cond; lia. Qed.

#[export] Instance tcg_gen_smax_i32_ok ret a b :
  Assigns (tcg_gen_smax_i32 ret a b) 32 32 0 ret [a; b] any
    (fun x => Z.max (sint 32 (x a)) (sint 32 (x b))).
Proof. unfold tcg_gen_smax_i32. begin. wp_go. apply min_max_cond; lia. Qed.

#[export] Instance tcg_gen_umax_i32_ok ret a b :
  Assigns (tcg_gen_umax_i32 ret a b) 32 32 0 ret [a; b] any (fun x => Z.max (x a) (x b)).
Proof. unfold tcg_gen_umax_i32. begin. wp_go. apply min_max_cond; lia. Qed.

#[export] Instance tcg_gen_abs_i32_ok ret a :
  Assigns (tcg_gen_abs_i32 ret a) 32 32 2 ret [a] any (fun x => Z.abs (sint 32 (x a))).
Proof. unfold tcg_gen_abs_i32. begin. wp_go. apply abs_val; lia. Qed.

(** ** Multiplication by a constant *)

#[export] Instance tcg_gen_muli_i32_ok ret a k :
  Assigns (tcg_gen_muli_i32 ret a k) 32 32 1 ret [a] any (fun x => x a * k).
Proof.
  unfold tcg_gen_muli_i32. begin. repeat wp_case.
  - wp_go. by_const.
  - destruct (muli_pow2 32 ltac:(lia) k) as [Hc Hk]; [done | done |]. rewrite <- ctz32_w in Hc, Hk. wp_go.
    rewrite Z.shiftl_mul_pow2 by lia. change (eqm 32 (v * 2 ^ ctz32 (sint 32 k)) (v * k)). by rewrite Hk.
  - wp_go. wmod.
Qed.

(** ** Division *)

#[export] Instance op_div_i32_ok `{!Has TCG_TARGET_HAS_div_i32} ret a b :
  Assigns (tcg_gen_op3_i32 INDEX_op_div_i32 ret a b) 32 32 0 ret [a; b]
    (fun x => sdiv_ok 32 (sint 32 (x a)) (sint 32 (x b)) = true)
    (fun x => Z.quot (sint 32 (x a)) (sint 32 (x b))).
Proof. op_instance_using evals_div. Qed.

#[export] Instance op_rem_i32_ok `{!Has TCG_TARGET_HAS_rem_i32} ret a b :
  Assigns (tcg_gen_op3_i32 INDEX_op_rem_i32 ret a b) 32 32 0 ret [a; b]
    (fun x => sdiv_ok 32 (sint 32 (x a)) (sint 32 (x b)) = true)
    (fun x => Z.rem (sint 32 (x a)) (sint 32 (x b))).
Proof. op_instance_using evals_div. Qed.

#[export] Instance op_divu_i32_ok `{!Has TCG_TARGET_HAS_div_i32} ret a b :
  Assigns (tcg_gen_op3_i32 INDEX_op_divu_i32 ret a b) 32 32 0 ret [a; b]
    (fun x => (x b =? 0) = false) (fun x => x a / x b).
Proof. op_instance_using evals_div. Qed.

#[export] Instance op_remu_i32_ok `{!Has TCG_TARGET_HAS_rem_i32} ret a b :
  Assigns (tcg_gen_op3_i32 INDEX_op_remu_i32 ret a b) 32 32 0 ret [a; b]
    (fun x => (x b =? 0) = false) (fun x => x a mod x b).
Proof. op_instance_using evals_div. Qed.

#[export] Instance op_div2_i32_ok `{!Has TCG_TARGET_HAS_div2_i32} q r al ah b :
  Assigns2 (tcg_gen_op5_i32 INDEX_op_div2_i32 q r al ah b) 32 32 0 q r [al; ah; b]
    (fun x => exists n d, sint 32 (x ah) * 2 ^ 32 + x al = n /\ sint 32 (x b) = d /\
       (d =? 0) || negb ((- 2 ^ 31 <=? Z.quot n d) && (Z.quot n d <? 2 ^ 31)) = false)
    (fun x => Z.quot (sint 32 (x ah) * 2 ^ 32 + x al) (sint 32 (x b)))
    (fun x => Z.rem (sint 32 (x ah) * 2 ^ 32 + x al) (sint 32 (x b))).
Proof.
  op_instance_using ltac:(
    destruct Hpre as (n & d & <- & <- & Hd);
    eexists; split; [reflexivity |]; left; split; [reflexivity |]; op_args; unfold eval_i32, ev_div2, V in *;
    rewrite !sint_uint' in * by tauto; change (32 - 1) with 31; cbv zeta; rewrite Hd; reflexivity).
Qed.

#[export] Instance op_divu2_i32_ok `{!Has TCG_TARGET_HAS_div2_i32} q r al ah b :
  Assigns2 (tcg_gen_op5_i32 INDEX_op_divu2_i32 q r al ah b) 32 32 0 q r [al; ah; b]
    (fun x => (x b =? 0) || negb ((x ah * 2 ^ 32 + x al) / x b <? 2 ^ 32) = false)
    (fun x => (x ah * 2 ^ 32 + x al) / x b)
    (fun x => (x ah * 2 ^ 32 + x al) mod x b).
Proof.
  op_instance_using ltac:(
    eexists; split; [reflexivity |]; left; split; [reflexivity |]; op_args; unfold eval_i32, ev_divu2, V in *;
    cbv zeta; rewrite Hpre; reflexivity).
Qed.

(** The value of a division helper. *)
Local Ltac helper_value :=
  unfold helper_pre, helper_val; cbn [helper_eval];
  unfold helper_div_i32, helper_rem_i32, helper_divu_i32, helper_remu_i32, checked;
  cbv zeta; uint_vars;
  match goal with
  | H : sdiv_ok _ _ _ = true |- _ => unfold sdiv_ok in H; unfold signed_div_ok; rewrite H
  | H : (_ =? 0) = false |- _ => rewrite H
  end; first [done | by eexists].

#[export] Instance tcg_gen_div_i32_ok ret a b :
  Assigns (tcg_gen_div_i32 ret a b) 32 32 4 ret [a; b]
    (fun x => sdiv_ok 32 (sint 32 (x a)) (sint 32 (x b)) = true)
    (fun x => Z.quot (sint 32 (x a)) (sint 32 (x b))).
Proof.
  unfold tcg_gen_div_i32. begin. wp_all; try helper_value.
  - done.
  - by apply (div2_pre 32); [lia | ..].
  - by rewrite (sign_pair_small 32 ltac:(lia)).
Qed.

#[export] Instance tcg_gen_rem_i32_ok ret a b :
  Assigns (tcg_gen_rem_i32 ret a b) 32 32 4 ret [a; b]
    (fun x => sdiv_ok 32 (sint 32 (x a)) (sint 32 (x b)) = true)
    (fun x => Z.rem (sint 32 (x a)) (sint 32 (x b))).
Proof.
  unfold tcg_gen_rem_i32. begin. wp_all; try helper_value.
  - done.
  - wmod. by apply (rem_by_quot 32); [lia |].
  - by apply (div2_pre 32); [lia | ..].
  - by rewrite (sign_pair_small 32 ltac:(lia)).
Qed.

#[export] Instance tcg_gen_divu_i32_ok ret a b :
  Assigns (tcg_gen_divu_i32 ret a b) 32 32 4 ret [a; b]
    (fun x => (x b =? 0) = false) (fun x => x a / x b).
Proof.
  unfold tcg_gen_divu_i32. begin. wp_all; try helper_value.
  - done.
  - apply (divu2_pre 32); lia.
  - done.
Qed.

#[export] Instance tcg_gen_remu_i32_ok ret a b :
  Assigns (tcg_gen_remu_i32 ret a b) 32 32 4 ret [a; b]
    (fun x => (x b =? 0) = false) (fun x => x a mod x b).
Proof.
  unfold tcg_gen_remu_i32. begin. wp_all; try helper_value.
  - done.
  - wmod. apply eqm_eq. rewrite Z.mod_eq; lia.
  - apply (divu2_pre 32); lia.
  - done.
Qed.

(** ** Rotations *)

#[export] Instance tcg_gen_rotl_i32_ok ret a b :
  Assigns (tcg_gen_rotl_i32 ret a b) 32 32 3 ret [a; b]
    (fun x => rot_pre 32 TCG_TARGET_HAS_rot_i32 (x b)) (fun x => rol32 (x a) (x b)).
Proof.
  unfold tcg_gen_rotl_i32. destruct TCG_TARGET_HAS_rot_i32 eqn:E; [op_instance_using evals_rot |].
  begin. wp_go. apply (rotl_val 32); (lia || done).
Qed.

#[export] Instance tcg_gen_rotr_i32_ok ret a b :
  Assigns (tcg_gen_rotr_i32 ret a b) 32 32 3 ret [a; b]
    (fun x => rot_pre 32 TCG_TARGET_HAS_rot_i32 (x b)) (fun x => ror32 (x a) (x b)).
Proof.
  unfold tcg_gen_rotr_i32. destruct TCG_TARGET_HAS_rot_i32 eqn:E; [op_instance_using evals_rot |].
  begin. wp_go. apply (rotr_val 32); (lia || done).
Qed.

#[export] Instance tcg_gen_rotli_i32_ok ret a k :
  Assigns (tcg_gen_rotli_i32 ret a k) 32 32 4 ret [a] (fun _ => 0 <= k < 32) (fun x => rol32 (x a) k).
Proof.
  unfold tcg_gen_rotli_i32. begin. rewrite (sint_count 32) by lia.
  do 2 wp_step. repeat wp_case; wp_go.
  - subst. unfold rol32. by rewrite rol_0, uint_uint by (apply (w_rot 32) || lia; lia).
  - apply (rot_pre_count 32); lia.
  - by rewrite (uint_count 32 ltac:(lia) k) by lia.
  - apply (rotli_val 32); lia.
Qed.

#[export] Instance tcg_gen_rotri_i32_ok ret a k :
  Assigns (tcg_gen_rotri_i32 ret a k) 32 32 4 ret [a] (fun _ => 0 <= k < 32) (fun x => ror32 (x a) k).
Proof.
  unfold tcg_gen_rotri_i32. begin. rewrite (sint_count 32) by lia.
  do 2 wp_step. unfold ror32. rewrite ror_rol. repeat wp_case; wp_go.
  - subst. by rewrite rol_0, uint_uint by (apply (w_rot 32) || lia; lia).
  - unfold rol32. by rewrite (rol_sub 32) by lia.
Qed.

#[export] Instance tcg_gen_hswap_i32_ok ret a :
  Assigns (tcg_gen_hswap_i32 ret a) 32 32 4 ret [a] any (fun x => hswap32 (x a)).
Proof. unfold tcg_gen_hswap_i32. begin. by wp_go. Qed.

(** ** Extensions *)

#[export] Instance tcg_gen_ext8s_i32_ok ret a :
  Assigns (tcg_gen_ext8s_i32 ret a) 32 32 2 ret [a] any (fun x => sint 8 (x a)).
Proof. unfold tcg_gen_ext8s_i32. begin. wp_case; wp_go; [done |]. zbits. Qed.

#[export] Instance tcg_gen_ext16s_i32_ok ret a :
  Assigns (tcg_gen_ext16s_i32 ret a) 32 32 2 ret [a] any (fun x => sint 16 (x a)).
Proof. unfold tcg_gen_ext16s_i32. begin. wp_case; wp_go; [done |]. zbits. Qed.

#[export] Instance tcg_gen_ext8u_i32_ok ret a :
  Assigns (tcg_gen_ext8u_i32 ret a) 32 32 1 ret [a] any (fun x => uint 8 (x a)).
Proof. unfold tcg_gen_ext8u_i32. begin. wp_case; wp_go; [done |]. by rewrite land_ff. Qed.

#[export] Instance tcg_gen_ext16u_i32_ok ret a :
  Assigns (tcg_gen_ext16u_i32 ret a) 32 32 1 ret [a] any (fun x => uint 16 (x a)).
Proof. unfold tcg_gen_ext16u_i32. begin. wp_case; wp_go; [done |]. by rewrite land_ffff. Qed.

(** ** Bit fields *)

#[export] Instance op_extract_i32_ok `{!Has TCG_TARGET_HAS_extract_i32} ret a ofs len :
  Assigns (tcg_gen_op4ii_i32 INDEX_op_extract_i32 ret a ofs len) 32 32 0 ret [a]
    (fun _ => field_ok 32 ofs len = true) (fun x => extract_w 32 (x a) ofs len).
Proof. op_instance_using evals_field. Qed.

#[export] Instance op_sextract_i32_ok `{!Has TCG_TARGET_HAS_sextract_i32} ret a ofs len :
  Assigns (tcg_gen_op4ii_i32 INDEX_op_sextract_i32 ret a ofs len) 32 32 0 ret [a]
    (fun _ => field_ok 32 ofs len = true) (fun x => sextract_w 32 (x a) ofs len).
Proof. op_instance_using evals_field. Qed.

#[export] Instance op_deposit_i32_ok `{!Has TCG_TARGET_HAS_deposit_i32} ret a b ofs len :
  Assigns (tcg_gen_op5ii_i32 INDEX_op_deposit_i32 ret a b ofs len) 32 32 0 ret [a; b]
    (fun _ => field_ok 32 ofs len = true) (fun x => deposit_w 32 (x a) ofs len (x b)).
Proof. op_instance_using evals_field. Qed.

(** The assertions on a field, and then the cases. *)
Local Ltac field_cases :=
  match goal with Hpre : field_ok _ _ _ = true |- _ =>
    pose proof (proj1 (field_ok_true _ _ _) Hpre) as (Ho & Hl & Hs)
  end;
  rewrite ?(uint_count 32) by lia; rewrite ?field_mask_ones; repeat wp_step;
  repeat (wp_case; try lia).

#[export] Instance tcg_gen_extract_i32_ok ret a ofs len :
  Assigns (tcg_gen_extract_i32 ret a ofs len) 32 32 2 ret [a] (fun _ => field_ok 32 ofs len = true)
    (fun x => extract_w 32 (x a) ofs len).
Proof.
  unfold tcg_gen_extract_i32, assert_field, field_mask. begin. field_cases; wp_go; vbits.
Qed.

#[export] Instance tcg_gen_sextract_i32_ok ret a ofs len :
  Assigns (tcg_gen_sextract_i32 ret a ofs len) 32 32 3 ret [a] (fun _ => field_ok 32 ofs len = true)
    (fun x => sextract_w 32 (x a) ofs len).
Proof.
  unfold tcg_gen_sextract_i32, assert_field. begin. field_cases; wp_go; vbits.
Qed.

#[export] Instance tcg_gen_deposit_z_i32_ok ret a ofs len :
  Assigns (tcg_gen_deposit_z_i32 ret a ofs len) 32 32 3 ret [a] (fun _ => field_ok 32 ofs len = true)
    (fun x => deposit_w 32 0 ofs len (x a)).
Proof.
  unfold tcg_gen_deposit_z_i32, assert_field, field_mask. begin. field_cases; wp_go; vbits.
Qed.

(** [deposit] and [extract2] call each other, one on the targets that have an
    extract2 op and the other on those that do not. *)
#[export] Instance op_extract2_i32_ok `{!Has TCG_TARGET_HAS_extract2_i32} ret a b ofs :
  Assigns (tcg_gen_op4i_i32 INDEX_op_extract2_i32 ret a b ofs) 32 32 0 ret [a; b]
    (fun _ => 0 <= ofs < 32) (fun x => extract2_w 32 (x a) (x b) ofs).
Proof.
  op_instance_using ltac:(
    eexists; split; [| left; split; [reflexivity |]; op_args; unfold eval_i32, ev_extract2;
      replace (_ && _) with true by lia; reflexivity]; cbn [map]; f_equal; unfold V; zbits).
Qed.

(** Used only where the target lacks the op. *)
#[local] Hint Extern 0 (_ = false) => assumption : typeclass_instances.

Lemma extract2_i32_gen
    (FD : TCG_TARGET_HAS_extract2_i32 = false -> forall ret a b ofs len,
       Assigns (fwd_deposit_i32 ret a b ofs len) 32 32 5 ret [a; b] (fun _ => field_ok 32 ofs len = true)
         (fun x => deposit_w 32 (x a) ofs len (x b))) ret a b ofs :
  Assigns (tcg_gen_extract2_i32 ret a b ofs) 32 32 7 ret [a; b]
    (fun _ => 0 <= ofs <= 32) (fun x => extract2_w 32 (x a) (x b) ofs).
Proof.
  unfold tcg_gen_extract2_i32. begin. rewrite (uint_count 32) by lia. do 2 wp_step.
  wp_case; [subst; wp_go; vbits |]. wp_case; [subst; wp_go; vbits |].
  wp_case; [assert (v0 = v) by congruence; subst; wp_go; apply (rotr_extract2 32); lia |].
  wp_case; [by wp_go |]. wp_go; [apply field_ok_true; lia | vbits].
Qed.

#[export] Instance tcg_gen_extract2_i32_ok `{FO : !ForwardOk F} ret a b ofs :
  Assigns (tcg_gen_extract2_i32 ret a b ofs) 32 32 7 ret [a; b]
    (fun _ => 0 <= ofs <= 32) (fun x => extract2_w 32 (x a) (x b) ofs).
Proof. apply extract2_i32_gen, FO. Qed.

(** Without the extract2 op: mask and shift. *)
Lemma deposit_i32_mask ret a b ofs len :
  TCG_TARGET_HAS_extract2_i32 = false ->
  Assigns (tcg_gen_deposit_i32 ret a b ofs len) 32 32 5 ret [a; b] (fun _ => field_ok 32 ofs len = true)
    (fun x => deposit_w 32 (x a) ofs len (x b)).
Proof.
  intros E2. unfold tcg_gen_deposit_i32, deposit_i32_tail, assert_field, field_mask.
  destruct (TCG_TARGET_HAS_deposit_i32 && TCG_TARGET_deposit_i32_valid (uint 32 ofs) (uint 32 len)) eqn:Ed.
  { apply andb_true_iff in Ed as [Ed _]. begin. field_cases; wp_go; vbits. }
  begin. rewrite E2. cbn [andb]. field_cases; wp_all; vbits.
Qed.

Lemma deposit_i32_extract2 ret a b ofs len :
  TCG_TARGET_HAS_extract2_i32 = true ->
  Assigns (tcg_gen_deposit_i32 ret a b ofs len) 32 32 13 ret [a; b] (fun _ => field_ok 32 ofs len = true)
    (fun x => deposit_w 32 (x a) ofs len (x b)).
Proof.
  intros E2. unfold tcg_gen_deposit_i32, deposit_i32_tail, assert_field, field_mask.
  pose proof (extract2_i32_gen ltac:(congruence)) as HE.
  destruct (TCG_TARGET_HAS_deposit_i32 && TCG_TARGET_deposit_i32_valid (uint 32 ofs) (uint 32 len)) eqn:Ed.
  { apply andb_true_iff in Ed as [Ed _]. begin. field_cases; wp_go; vbits. }
  begin. rewrite E2. cbn [andb]. field_cases; wp_all;
    first [subst; apply (deposit_bottom 32); lia | vbits].
Qed.

#[export] Instance tcg_gen_deposit_i32_ok ret a b ofs len :
  Assigns (tcg_gen_deposit_i32 ret a b ofs len) 32 32 13 ret [a; b] (fun _ => field_ok 32 ofs len = true)
    (fun x => deposit_w 32 (x a) ofs len (x b)).
Proof.
  destruct (sumbool_of_bool TCG_TARGET_HAS_extract2_i32) as [E | E]; [by apply deposit_i32_extract2 |].
  eapply assigns_weaken; [by apply deposit_i32_mask | lia].
Qed.

(** ** Byte swaps

    The value is specified where an output flag asks for it; in any case the
    low half is swapped. *)

Definition bswap_low (w n flags : Z) : Z :=
  if flag flags TCG_BSWAP_OS || flag flags TCG_BSWAP_OZ then w else n.

Definition bswap_val (n flags : Z) (swap : Z -> Z) (x : Z) : Z :=
  if flag flags TCG_BSWAP_OS then sint n (swap x) else swap x.

(** From the value with its unspecified bits to the specified part. *)
Lemma bswap_upd w n flags swap x j c st r c' st' :
  0 <= n <= w -> swap (uint w x) = swap x ->
  upd w c st r (if flag flags TCG_BSWAP_OS then sint n (swap x)
                else if flag flags TCG_BSWAP_OZ then swap x else swap x + j * 2 ^ n) c' st' ->
  upd (bswap_low w n flags) c st r (bswap_val n flags swap (uint w x)) c' st'.
Proof.
  intros Hn Hs. unfold bswap_low, bswap_val. rewrite Hs.
  destruct (flag flags TCG_BSWAP_OS), (flag flags TCG_BSWAP_OZ); cbn [orb]; try done.
  apply upd_low; [done |]. unfold uint. apply Z_mod_plus_full.
Qed.

Lemma bswap_assert flags :
  flag flags TCG_BSWAP_OS = false \/ flag flags TCG_BSWAP_OZ = false ->
  negb (flag flags TCG_BSWAP_OS) || negb (flag flags TCG_BSWAP_OZ) = true.
Proof. intros [-> | ->]; [done | by rewrite orb_comm]. Qed.

End I32Ok.

Ltac evals_bswap :=
  eexists; split; [reflexivity |];
  first [ left; split; [reflexivity |] | right; split; [reflexivity |]; split; [reflexivity |] ];
  op_args; unfold eval_i32, eval_i64, ev_bswap; rewrite bswap_flags_eq by (lia || assumption); reflexivity.

(** A byte swap op of [w] bits; [lem] says that the swap looks at its low part. *)
Ltac bswap_op w lem :=
  intros c st Hwf Hret Hins Hroom Hpre; op_unfold; eapply (wp_pure1 w);
    [ supported | discriminate | pure_tac | reflexivity | reflexivity | reflexivity
    | evals_bswap | assumption | assumption | assumption |];
  intros st' G U; split; [done |]; eapply bswap_upd; [lia | by apply lem | exact U].

Section I32Bswap.
Context `{T : TcgTarget} `{L : !TcgTargetLaws T} `{F : Forward} `{Orc : Oracle} `{Ov : Overshift}.

#[export] Instance op_bswap16_i32_ok `{!Has TCG_TARGET_HAS_bswap16_i32} ret a flags :
  Assigns (tcg_gen_op3i_i32 INDEX_op_bswap16_i32 ret a flags) (bswap_low 32 16 flags) 32 0 ret [a]
    (fun x => bswap_pre 16 flags (x a)) (fun x => bswap_val 16 flags bswap16 (x a)).
Proof. bswap_op 32 bswap16_uint. Qed.

#[export] Instance tcg_gen_bswap16_i32_ok ret a flags :
  Assigns (tcg_gen_bswap16_i32 ret a flags) (bswap_low 32 16 flags) 32 6 ret [a]
    (fun x => bswap_pre 16 flags (x a)) (fun x => bswap_val 16 flags bswap16 (x a)).
Proof.
  unfold tcg_gen_bswap16_i32. begin. pose proof Hpre as [Hf Hz].
  pose proof (bswap_assert flags Hf) as Ha.
  do 2 wp_step. wp_case; [by wp_go |]. unfold bswap_low, bswap_val.
  destruct (flag flags TCG_BSWAP_OS), (flag flags TCG_BSWAP_OZ), (flag flags TCG_BSWAP_IZ);
    cbn [orb]; wp_all; try rewrite (Hz eq_refl); unfold_bswap; bit_permutation v.
Qed.

#[export] Instance op_bswap32_i32_ok `{!Has TCG_TARGET_HAS_bswap32_i32} ret a :
  Assigns (tcg_gen_op3i_i32 INDEX_op_bswap32_i32 ret a 0) 32 32 0 ret [a] any (fun x => bswap32 (x a)).
Proof.
  op_instance_using ltac:(
    eexists; split; [| left; split; [reflexivity | reflexivity]]; cbn [map]; f_equal; unfold V;
    rewrite bswap32_uint by lia; unfold uint; apply Z_mod_plus_full).
Qed.

#[export] Instance tcg_gen_bswap32_i32_ok ret a :
  Assigns (tcg_gen_bswap32_i32 ret a) 32 32 8 ret [a] any (fun x => bswap32 (x a)).
Proof.
  unfold tcg_gen_bswap32_i32. begin. wp_all; [done |]. unfold_bswap. bit_permutation v.
Qed.

End I32Bswap.
