(* ===== verification/TcgOp64Ok.v ===== *)
(** * Correctness of the 64-bit operations *)

From Stdlib Require Import ZArith Lia Bool.
From stdpp Require Import base numbers functions list gmap.
From S2P Require Import Prelude.
From S2P Require Import Bytes.
From S2P Require Import Bitops.
From S2P Require Import BitCount.
From S2P Require Import TcgCond.
From S2P Require Import TcgOpc.
From S2P Require Import TcgCtx.
From S2P Require Import TcgHelpers.
From S2P Require Import TcgGen.
From S2P Require Import TcgSem.
From S2P Require Import TcgOp32.
From S2P Require Import TcgOp64.
From S2P Require Import TcgTemps.
From S2P Require Import TcgWp.
From S2P Require Import TcgVal.
From S2P Require Import TcgAssign.
From S2P Require Import TcgGenOk.
From S2P Require Import TcgOp32Ok.

Local Open Scope Z_scope.

Section I64Ok.
Context `{T : TcgTarget} `{L : !TcgTargetLaws T} `{F : Forward} `{Orc : Oracle} `{Ov : Overshift}.
Context (R64 : TCG_TARGET_REG_BITS = 64).

(** The branch for 64-bit registers. *)
Local Ltac reg64 :=
  rewrite ?R64; change (64 =? 64) with true; change (64 =? 32) with false; cbn [andb].

(** ** Moves and shifts *)

Lemma op_mov_i64_ok ret a :
  Assigns (tcg_gen_op2_i64 INDEX_op_mov_i64 ret a) 64 64 0 ret [a] any (fun x => x a).
Proof. op_instance. Qed.

#[export] Instance tcg_gen_mov_i64_ok ret a :
  Assigns (tcg_gen_mov_i64 ret a) 64 64 0 ret [a] any (fun x => x a).
Proof.
  unfold tcg_gen_mov_i64. reg64. destruct (Z.eqb_spec ret a) as [-> |]; [| apply op_mov_i64_ok].
  begin. wp_go. by rewrite uint_small.
Qed.

#[export] Instance tcg_gen_movi_i64_ok ret k :
  Assigns (tcg_gen_movi_i64 ret k) 64 64 1 ret [] any (fun x => k).
Proof. unfold tcg_gen_movi_i64. reg64. begin. wp_go. wmod. Qed.

#[export] Instance tcg_gen_shl_i64_ok ret a b :
  Assigns (tcg_gen_shl_i64 ret a b) 64 64 0 ret [a; b] any (fun x => shift_w 64 INDEX_op_shl_i64 Z.shiftl (x a) (x b)).
Proof. unfold tcg_gen_shl_i64. reg64. op_instance. Qed.

#[export] Instance tcg_gen_shr_i64_ok ret a b :
  Assigns (tcg_gen_shr_i64 ret a b) 64 64 0 ret [a; b] any (fun x => shift_w 64 INDEX_op_shr_i64 Z.shiftr (x a) (x b)).
Proof. unfold tcg_gen_shr_i64. reg64. op_instance. Qed.

#[export] Instance tcg_gen_sar_i64_ok ret a b :
  Assigns (tcg_gen_sar_i64 ret a b) 64 64 0 ret [a; b] any (fun x => shift_w 64 INDEX_op_sar_i64 (sar_w 64) (x a) (x b)).
Proof. unfold tcg_gen_sar_i64. reg64. op_instance. Qed.

#[export] Instance tcg_gen_shli_i64_ok ret a k :
  Assigns (tcg_gen_shli_i64 ret a k) 64 64 1 ret [a] (fun _ => 0 <= k < 64)
    (fun x => Z.shiftl (x a) k).
Proof.
  unfold tcg_gen_shli_i64. reg64. begin. rewrite (sint_count 64) by lia.
  do 2 wp_step. wp_case; wp_go.
  - by subst.
  - by rewrite shift_w_small by lia.
Qed.

#[export] Instance tcg_gen_shri_i64_ok ret a k :
  Assigns (tcg_gen_shri_i64 ret a k) 64 64 1 ret [a] (fun _ => 0 <= k < 64)
    (fun x => Z.shiftr (x a) k).
Proof.
  unfold tcg_gen_shri_i64. reg64. begin. rewrite (sint_count 64) by lia.
  do 2 wp_step. wp_case; wp_go.
  - by subst.
  - by rewrite shift_w_small by lia.
Qed.

#[export] Instance tcg_gen_sari_i64_ok ret a k :
  Assigns (tcg_gen_sari_i64 ret a k) 64 64 1 ret [a] (fun _ => 0 <= k < 64)
    (fun x => Z.shiftr (sint 64 (x a)) k).
Proof.
  unfold tcg_gen_sari_i64. reg64. begin. rewrite (sint_count 64) by lia.
  do 2 wp_step. wp_case; wp_go.
  - subst. rewrite Z.shiftr_0_r. wmod.
  - by rewrite shift_w_small by lia.
Qed.

(** ** Ops *)

#[export] Instance tcg_gen_add_i64_ok ret a b :
  Assigns (tcg_gen_add_i64 ret a b) 64 64 0 ret [a; b] any (fun x => x a + x b).
Proof. unfold tcg_gen_add_i64. reg64. op_instance. Qed.

#[export] Instance tcg_gen_sub_i64_ok ret a b :
  Assigns (tcg_gen_sub_i64 ret a b) 64 64 0 ret [a; b] any (fun x => x a - x b).
Proof. unfold tcg_gen_sub_i64. reg64. op_instance. Qed.

#[export] Instance tcg_gen_neg_i64_ok ret a :
  Assigns (tcg_gen_neg_i64 ret a) 64 64 0 ret [a] any (fun x => - x a).
Proof. unfold tcg_gen_neg_i64. reg64. op_instance. Qed.

#[export] Instance tcg_gen_and_i64_ok ret a b :
  Assigns (tcg_gen_and_i64 ret a b) 64 64 0 ret [a; b] any (fun x => Z.land (x a) (x b)).
Proof. unfold tcg_gen_and_i64. reg64. op_instance. Qed.

#[export] Instance tcg_gen_or_i64_ok ret a b :
  Assigns (tcg_gen_or_i64 ret a b) 64 64 0 ret [a; b] any (fun x => Z.lor (x a) (x b)).
Proof. unfold tcg_gen_or_i64. reg64. op_instance. Qed.

#[export] Instance tcg_gen_xor_i64_ok ret a b :
  Assigns (tcg_gen_xor_i64 ret a b) 64 64 0 ret [a; b] any (fun x => Z.lxor (x a) (x b)).
Proof. unfold tcg_gen_xor_i64. reg64. op_instance. Qed.

#[export] Instance tcg_gen_mul_i64_ok ret a b :
  Assigns (tcg_gen_mul_i64 ret a b) 64 64 0 ret [a; b] any (fun x => x a * x b).
Proof. unfold tcg_gen_mul_i64. reg64. op_instance. Qed.

#[export] Instance op_ext8u_i64_ok `{!Has TCG_TARGET_HAS_ext8u_i64} ret a :
  Assigns (tcg_gen_op2_i64 INDEX_op_ext8u_i64 ret a) 64 64 0 ret [a] any (fun x => uint 8 (x a)).
Proof. op_instance. Qed.

#[export] Instance op_ext16u_i64_ok `{!Has TCG_TARGET_HAS_ext16u_i64} ret a :
  Assigns (tcg_gen_op2_i64 INDEX_op_ext16u_i64 ret a) 64 64 0 ret [a] any (fun x => uint 16 (x a)).
Proof. op_instance. Qed.

#[export] Instance op_ext8s_i64_ok `{!Has TCG_TARGET_HAS_ext8s_i64} ret a :
  Assigns (tcg_gen_op2_i64 INDEX_op_ext8s_i64 ret a) 64 64 0 ret [a] any (fun x => sint 8 (x a)).
Proof. op_instance. Qed.

#[export] Instance op_ext16s_i64_ok `{!Has TCG_TARGET_HAS_ext16s_i64} ret a :
  Assigns (tcg_gen_op2_i64 INDEX_op_ext16s_i64 ret a) 64 64 0 ret [a] any (fun x => sint 16 (x a)).
Proof. op_instance. Qed.

#[export] Instance op_ext32u_i64_ok `{!Has TCG_TARGET_HAS_ext32u_i64} ret a :
  Assigns (tcg_gen_op2_i64 INDEX_op_ext32u_i64 ret a) 64 64 0 ret [a] any (fun x => uint 32 (x a)).
Proof. op_instance. Qed.

#[export] Instance op_ext32s_i64_ok `{!Has TCG_TARGET_HAS_ext32s_i64} ret a :
  Assigns (tcg_gen_op2_i64 INDEX_op_ext32s_i64 ret a) 64 64 0 ret [a] any (fun x => sint 32 (x a)).
Proof. op_instance. Qed.

#[export] Instance op_not_i64_ok `{!Has TCG_TARGET_HAS_not_i64} ret a :
  Assigns (tcg_gen_op2_i64 INDEX_op_not_i64 ret a) 64 64 0 ret [a] any (fun x => Z.lnot (x a)).
Proof. op_instance. Qed.

#[export] Instance op_ctpop_i64_ok `{!Has TCG_TARGET_HAS_ctpop_i64} ret a :
  Assigns (tcg_gen_op2_i64 INDEX_op_ctpop_i64 ret a) 64 64 0 ret [a] any (fun x => ctpop64 (x a)).
Proof. op_instance. Qed.

(** ** Arithmetic and logic with an immediate *)

#[export] Instance tcg_gen_addi_i64_ok ret a k :
  Assigns (tcg_gen_addi_i64 ret a k) 64 64 1 ret [a] any (fun x => x a + k).
Proof.
  unfold tcg_gen_addi_i64. reg64. begin. destruct (Z.eqb_spec (sint 64 k) 0) as [E |]; wp_go.
  - by_const.
  - wmod.
Qed.

#[export] Instance tcg_gen_subfi_i64_ok ret k a :
  Assigns (tcg_gen_subfi_i64 ret k a) 64 64 1 ret [a] any (fun x => k - x a).
Proof.
  unfold tcg_gen_subfi_i64. reg64. begin. destruct (Z.eqb_spec (sint 64 k) 0) as [E |]; wp_go.
  - by_const.
  - wmod.
Qed.

#[export] Instance tcg_gen_subi_i64_ok ret a k :
  Assigns (tcg_gen_subi_i64 ret a k) 64 64 1 ret [a] any (fun x => x a - k).
Proof. unfold tcg_gen_subi_i64. reg64. begin. wp_go. wmod. Qed.

#[export] Instance tcg_gen_andi_i64_ok ret a k :
  Assigns (tcg_gen_andi_i64 ret a k) 64 64 1 ret [a] any (fun x => Z.land (x a) k).
Proof.
  unfold tcg_gen_andi_i64. reg64. begin. repeat wp_case; wp_go; try by_const; try wmod;
    by rewrite ?Z.land_0_r, ?Z.land_m1_r, ?land_ff, ?land_ffff, ?land_ffffffff.
Qed.

#[export] Instance tcg_gen_ori_i64_ok ret a k :
  Assigns (tcg_gen_ori_i64 ret a k) 64 64 1 ret [a] any (fun x => Z.lor (x a) k).
Proof.
  unfold tcg_gen_ori_i64. reg64. begin. repeat wp_case; wp_go; try by_const; try wmod.
  - by rewrite Z.lor_m1_r.
  - by rewrite Z.lor_0_r.
Qed.

#[export] Instance tcg_gen_xori_i64_ok ret a k :
  Assigns (tcg_gen_xori_i64 ret a k) 64 64 1 ret [a] any (fun x => Z.lxor (x a) k).
Proof.
  unfold tcg_gen_xori_i64. reg64. begin. repeat wp_case; wp_go; try by_const; try wmod.
  - by rewrite Z.lxor_0_r.
  - by rewrite Z.lxor_m1_r.
Qed.

#[export] Instance tcg_gen_not_i64_ok ret a :
  Assigns (tcg_gen_not_i64 ret a) 64 64 1 ret [a] any (fun x => Z.lnot (x a)).
Proof.
  unfold tcg_gen_not_i64. reg64. begin. wp_case; wp_go; [done |]. by rewrite Z.lxor_m1_r.
Qed.

(** ** Derived logic *)

#[export] Instance tcg_gen_andc_i64_ok ret a b :
  Assigns (tcg_gen_andc_i64 ret a b) 64 64 2 ret [a; b] any (fun x => Z.land (x a) (Z.lnot (x b))).
Proof.
  unfold tcg_gen_andc_i64. reg64. destruct (TCG_TARGET_HAS_andc_i64) eqn:E; [op_instance |].
  begin. wp_go. wmod.
Qed.

#[export] Instance tcg_gen_orc_i64_ok ret a b :
  Assigns (tcg_gen_orc_i64 ret a b) 64 64 2 ret [a; b] any (fun x => Z.lor (x a) (Z.lnot (x b))).
Proof.
  unfold tcg_gen_orc_i64. reg64. destruct (TCG_TARGET_HAS_orc_i64) eqn:E; [op_instance |].
  begin. wp_go. wmod.
Qed.

#[export] Instance tcg_gen_eqv_i64_ok ret a b :
  Assigns (tcg_gen_eqv_i64 ret a b) 64 64 1 ret [a; b] any (fun x => Z.lnot (Z.lxor (x a) (x b))).
Proof.
  unfold tcg_gen_eqv_i64. reg64. destruct (TCG_TARGET_HAS_eqv_i64) eqn:E; [op_instance |].
  begin. wp_go. wmod.
Qed.

#[export] Instance tcg_gen_nand_i64_ok ret a b :
  Assigns (tcg_gen_nand_i64 ret a b) 64 64 1 ret [a; b] any (fun x => Z.lnot (Z.land (x a) (x b))).
Proof.
  unfold tcg_gen_nand_i64. reg64. destruct (TCG_TARGET_HAS_nand_i64) eqn:E; [op_instance |].
  begin. wp_go. wmod.
Qed.

#[export] Instance tcg_gen_nor_i64_ok ret a b :
  Assigns (tcg_gen_nor_i64 ret a b) 64 64 1 ret [a; b] any (fun x => Z.lnot (Z.lor (x a) (x b))).
Proof.
  unfold tcg_gen_nor_i64. reg64. destruct (TCG_TARGET_HAS_nor_i64) eqn:E; [op_instance |].
  begin. wp_go. wmod.
Qed.

(** ** Conditions *)

#[export] Instance tcg_gen_setcond_i64_ok cond ret a b :
  Assigns (tcg_gen_setcond_i64 cond ret a b) 64 64 1 ret [a; b] (fun _ => valid_cond cond = true)
    (fun x => b2z (cond_holds 64 cond (x a) (x b))).
Proof.
  unfold tcg_gen_setcond_i64. reg64. destruct (Z.eqb_spec cond TCG_COND_ALWAYS) as [-> |].
  { begin. by wp_go. }
  destruct (Z.eqb_spec cond TCG_COND_NEVER) as [-> |]; [begin; by wp_go |].
  op_instance_using evals_cond.
Qed.

#[export] Instance tcg_gen_setcondi_i64_ok cond ret a k :
  Assigns (tcg_gen_setcondi_i64 cond ret a k) 64 64 2 ret [a] (fun _ => valid_cond cond = true)
    (fun x => b2z (cond_holds 64 cond (x a) k)).
Proof.
  unfold tcg_gen_setcondi_i64. reg64. begin. wp_go. rewrite <- (cond_holds_uint _ _ _ k) by lia.
  rewrite uint_sint, (uint_small 64 v) by lia. done.
Qed.

#[export] Instance tcg_gen_negsetcond_i64_ok cond ret a b :
  Assigns (tcg_gen_negsetcond_i64 cond ret a b) 64 64 1 ret [a; b] (fun _ => valid_cond cond = true)
    (fun x => - b2z (cond_holds 64 cond (x a) (x b))).
Proof.
  unfold tcg_gen_negsetcond_i64. reg64. destruct (Z.eqb_spec cond TCG_COND_ALWAYS) as [-> |].
  { begin. by wp_go. }
  destruct (Z.eqb_spec cond TCG_COND_NEVER) as [-> |]; [begin; by wp_go |].
  destruct TCG_TARGET_HAS_negsetcond_i64 eqn:E; [op_instance_using evals_cond |].
  begin. wp_go. wmod.
Qed.

#[export] Instance tcg_gen_negsetcondi_i64_ok cond ret a k :
  Assigns (tcg_gen_negsetcondi_i64 cond ret a k) 64 64 2 ret [a] (fun _ => valid_cond cond = true)
    (fun x => - b2z (cond_holds 64 cond (x a) k)).
Proof.
  unfold tcg_gen_negsetcondi_i64. reg64. begin. wp_go. rewrite <- (cond_holds_uint _ _ _ k) by lia.
  rewrite uint_sint, (uint_small 64 v) by lia. done.
Qed.

#[export] Instance tcg_gen_movcond_i64_ok cond ret a b y z :
  Assigns (tcg_gen_movcond_i64 cond ret a b y z) 64 64 0 ret [a; b; y; z]
    (fun _ => valid_cond cond = true)
    (fun x => if cond_holds 64 cond (x a) (x b) then x y else x z).
Proof.
  unfold tcg_gen_movcond_i64. reg64. destruct (Z.eqb_spec cond TCG_COND_ALWAYS) as [-> |].
  { begin. by wp_go. }
  destruct (Z.eqb_spec cond TCG_COND_NEVER) as [-> |]; [begin; by wp_go |].
  op_instance_using evals_movcond.
Qed.

#[export] Instance tcg_gen_smin_i64_ok ret a b :
  Assigns (tcg_gen_smin_i64 ret a b) 64 64 0 ret [a; b] any
    (fun x => Z.min (sint 64 (x a)) (sint 64 (x b))).
Proof. unfold tcg_gen_smin_i64. reg64. begin. wp_go. apply min_max_cond; lia. Qed.

#[export] Instance tcg_gen_umin_i64_ok ret a b :
  Assigns (tcg_gen_umin_i64 ret a b) 64 64 0 ret [a; b] any (fun x => Z.min (x a) (x b)).
Proof. unfold tcg_gen_umin_i64. reg64. begin. wp_go. apply min_max_cond; lia. Qed.

#[export] Instance tcg_gen_smax_i64_ok ret a b :
  Assigns (tcg_gen_smax_i64 ret a b) 64 64 0 ret [a; b] any
    (fun x => Z.max (sint 64 (x a)) (sint 64 (x b))).
Proof. unfold tcg_gen_smax_i64. reg64. begin. wp_go. apply min_max_cond; lia. Qed.

#[export] Instance tcg_gen_umax_i64_ok ret a b :
  Assigns (tcg_gen_umax_i64 ret a b) 64 64 0 ret [a; b] any (fun x => Z.max (x a) (x b)).
Proof. unfold tcg_gen_umax_i64. reg64. begin. wp_go. apply min_max_cond; lia. Qed.

#[export] Instance tcg_gen_abs_i64_ok ret a :
  Assigns (tcg_gen_abs_i64 ret a) 64 64 2 ret [a] any (fun x => Z.abs (sint 64 (x a))).
Proof. unfold tcg_gen_abs_i64. reg64. begin. wp_go. apply abs_val; lia. Qed.

(** ** Multiplication by a constant *)

#[export] Instance tcg_gen_muli_i64_ok ret a k :
  Assigns (tcg_gen_muli_i64 ret a k) 64 64 1 ret [a] any (fun x => x a * k).
Proof.
  unfold tcg_gen_muli_i64. reg64. begin. repeat wp_case.
  - wp_go. by_const.
  - destruct (muli_pow2 64 ltac:(lia) k) as [Hc Hk]; [done | done |]. rewrite <- ctz64_w in Hc, Hk. wp_go.
    rewrite Z.shiftl_mul_pow2 by lia. change (eqm 64 (v * 2 ^ ctz64 (sint 64 k)) (v * k)). by rewrite Hk.
  - wp_go. wmod.
Qed.

(** ** Division *)

#[export] Instance op_div_i64_ok `{!Has TCG_TARGET_HAS_div_i64} ret a b :
  Assigns (tcg_gen_op3_i64 INDEX_op_div_i64 ret a b) 64 64 0 ret [a; b]
    (fun x => sdiv_ok 64 (sint 64 (x a)) (sint 64 (x b)) = true)
    (fun x => Z.quot (sint 64 (x a)) (sint 64 (x b))).
Proof. op_instance_using evals_div. Qed.

#[export] Instance op_rem_i64_ok `{!Has TCG_TARGET_HAS_rem_i64} ret a b :
  Assigns (tcg_gen_op3_i64 INDEX_op_rem_i64 ret a b) 64 64 0 ret [a; b]
    (fun x => sdiv_ok 64 (sint 64 (x a)) (sint 64 (x b)) = true)
    (fun x => Z.rem (sint 64 (x a)) (sint 64 (x b))).
Proof. op_instance_using evals_div. Qed.

#[export] Instance op_divu_i64_ok `{!Has TCG_TARGET_HAS_div_i64} ret a b :
  Assigns (tcg_gen_op3_i64 INDEX_op_divu_i64 ret a b) 64 64 0 ret [a; b]
    (fun x => (x b =? 0) = false) (fun x => x a / x b).
Proof. op_instance_using evals_div. Qed.

#[export] Instance op_remu_i64_ok `{!Has TCG_TARGET_HAS_rem_i64} ret a b :
  Assigns (tcg_gen_op3_i64 INDEX_op_remu_i64 ret a b) 64 64 0 ret [a; b]
    (fun x => (x b =? 0) = false) (fun x => x a mod x b).
Proof. op_instance_using evals_div. Qed.

#[export] Instance op_div2_i64_ok `{!Has TCG_TARGET_HAS_div2_i64} q r al ah b :
  Assigns2 (tcg_gen_op5_i64 INDEX_op_div2_i64 q r al ah b) 64 64 0 q r [al; ah; b]
    (fun x => exists n d, sint 64 (x ah) * 2 ^ 64 + x al = n /\ sint 64 (x b) = d /\
       (d =? 0) || negb ((- 2 ^ 63 <=? Z.quot n d) && (Z.quot n d <? 2 ^ 63)) = false)
    (fun x => Z.quot (sint 64 (x ah) * 2 ^ 64 + x al) (sint 64 (x b)))
    (fun x => Z.rem (sint 64 (x ah) * 2 ^ 64 + x al) (sint 64 (x b))).
Proof.
  op_instance_using ltac:(
    destruct Hpre as (n & d & <- & <- & Hd);
    eexists; split; [reflexivity |]; right; split; [reflexivity |]; split; [reflexivity |]; op_args; unfold eval_i64, ev_div2, V in *;
    rewrite !sint_uint' in * by tauto; change (64 - 1) with 63; cbv zeta; rewrite Hd; reflexivity).
Qed.

#[export] Instance op_divu2_i64_ok `{!Has TCG_TARGET_HAS_div2_i64} q r al ah b :
  Assigns2 (tcg_gen_op5_i64 INDEX_op_divu2_i64 q r al ah b) 64 64 0 q r [al; ah; b]
    (fun x => (x b =? 0) || negb ((x ah * 2 ^ 64 + x al) / x b <? 2 ^ 64) = false)
    (fun x => (x ah * 2 ^ 64 + x al) / x b)
    (fun x => (x ah * 2 ^ 64 + x al) mod x b).
Proof.
  op_instance_using ltac:(
    eexists; split; [reflexivity |]; right; split; [reflexivity |]; split; [reflexivity |]; op_args; unfold eval_i64, ev_divu2, V in *;
    cbv zeta; rewrite Hpre; reflexivity).
Qed.

(** The value of a division helper. *)
Local Ltac helper_value :=
  unfold helper_pre, helper_val; cbn [helper_eval];
  unfold helper_div_i64, helper_rem_i64, helper_divu_i64, helper_remu_i64, checked;
  cbv zeta; uint_vars;
  match goal with
  | H : sdiv_ok _ _ _ = true |- _ => unfold sdiv_ok in H; unfold signed_div_ok; rewrite H
  | H : (_ =? 0) = false |- _ => rewrite H
  end; first [done | by eexists].

#[export] Instance tcg_gen_div_i64_ok ret a b :
  Assigns (tcg_gen_div_i64 ret a b) 64 64 4 ret [a; b]
    (fun x => sdiv_ok 64 (sint 64 (x a)) (sint 64 (x b)) = true)
    (fun x => Z.quot (sint 64 (x a)) (sint 64 (x b))).
Proof.
  unfold tcg_gen_div_i64. reg64. begin. wp_all; try helper_value.
  - done.
  - by apply (div2_pre 64); [lia | ..].
  - by rewrite (sign_pair_small 64 ltac:(lia)).
Qed.

#[export] Instance tcg_gen_rem_i64_ok ret a b :
  Assigns (tcg_gen_rem_i64 ret a b) 64 64 4 ret [a; b]
    (fun x => sdiv_ok 64 (sint 64 (x a)) (sint 64 (x b)) = true)
    (fun x => Z.rem (sint 64 (x a)) (sint 64 (x b))).
Proof.
  unfold tcg_gen_rem_i64. reg64. begin. wp_all; try helper_value.
  - done.
  - wmod. by apply (rem_by_quot 64); [lia |].
  - by apply (div2_pre 64); [lia | ..].
  - by rewrite (sign_pair_small 64 ltac:(lia)).
Qed.

#[export] Instance tcg_gen_divu_i64_ok ret a b :
  Assigns (tcg_gen_divu_i64 ret a b) 64 64 4 ret [a; b]
    (fun x => (x b =? 0) = false) (fun x => x a / x b).
Proof.
  unfold tcg_gen_divu_i64. reg64. begin. wp_all; try helper_value.
  - done.
  - apply (divu2_pre 64); lia.
  - done.
Qed.

#[export] Instance tcg_gen_remu_i64_ok ret a b :
  Assigns (tcg_gen_remu_i64 ret a b) 64 64 4 ret [a; b]
    (fun x => (x b =? 0) = false) (fun x => x a mod x b).
Proof.
  unfold tcg_gen_remu_i64. reg64. begin. wp_all; try helper_value.
  - done.
  - wmod. apply eqm_eq. rewrite Z.mod_eq; lia.
  - apply (divu2_pre 64); lia.
  - done.
Qed.

(** ** Rotations *)

#[export] Instance tcg_gen_rotl_i64_ok ret a b :
  Assigns (tcg_gen_rotl_i64 ret a b) 64 64 3 ret [a; b]
    (fun x => rot_pre 64 TCG_TARGET_HAS_rot_i64 (x b)) (fun x => rol64 (x a) (x b)).
Proof.
  unfold tcg_gen_rotl_i64. reg64. destruct TCG_TARGET_HAS_rot_i64 eqn:E; [op_instance_using evals_rot |].
  begin. wp_go. apply (rotl_val 64); (lia || done).
Qed.

#[export] Instance tcg_gen_rotr_i64_ok ret a b :
  Assigns (tcg_gen_rotr_i64 ret a b) 64 64 3 ret [a; b]
    (fun x => rot_pre 64 TCG_TARGET_HAS_rot_i64 (x b)) (fun x => ror64 (x a) (x b)).
Proof.
  unfold tcg_gen_rotr_i64. reg64. destruct TCG_TARGET_HAS_rot_i64 eqn:E; [op_instance_using evals_rot |].
  begin. wp_go. apply (rotr_val 64); (lia || done).
Qed.

#[export] Instance tcg_gen_rotli_i64_ok ret a k :
  Assigns (tcg_gen_rotli_i64 ret a k) 64 64 4 ret [a] (fun _ => 0 <= k < 64) (fun x => rol64 (x a) k).
Proof.
  unfold tcg_gen_rotli_i64. reg64. begin. rewrite (sint_count 64) by lia.
  do 2 wp_step. repeat wp_case; wp_go.
  - subst. unfold rol64. by rewrite rol_0, uint_uint by (apply (w_rot 64) || lia; lia).
  - apply (rot_pre_count 64); lia.
  - by rewrite (uint_count 64 ltac:(lia) k) by lia.
  - apply (rotli_val 64); lia.
Qed.

#[export] Instance tcg_gen_rotri_i64_ok ret a k :
  Assigns (tcg_gen_rotri_i64 ret a k) 64 64 4 ret [a] (fun _ => 0 <= k < 64) (fun x => ror64 (x a) k).
Proof.
  unfold tcg_gen_rotri_i64. reg64. begin. rewrite (sint_count 64) by lia.
  do 2 wp_step. unfold ror64. rewrite ror_rol. repeat wp_case; wp_go.
  - subst. by rewrite rol_0, uint_uint by (apply (w_rot 64) || lia; lia).
  - unfold rol64. by rewrite (rol_sub 64) by lia.
Qed.

#[export] Instance tcg_gen_hswap_i64_ok ret a :
  Assigns (tcg_gen_hswap_i64 ret a) 64 64 10 ret [a] any (fun x => hswap64 (x a)).
Proof.
  unfold tcg_gen_hswap_i64. reg64. begin. wp_go. unfold hswap64. cbv zeta.
  generalize (rol64 v 32) as r. intros r. bit_permutation r.
Qed.

#[export] Instance tcg_gen_wswap_i64_ok ret a :
  Assigns (tcg_gen_wswap_i64 ret a) 64 64 4 ret [a] any (fun x => wswap64 (x a)).
Proof. unfold tcg_gen_wswap_i64. begin. by wp_go. Qed.

(** ** Extensions *)

#[export] Instance tcg_gen_ext8s_i64_ok ret a :
  Assigns (tcg_gen_ext8s_i64 ret a) 64 64 2 ret [a] any (fun x => sint 8 (x a)).
Proof. unfold tcg_gen_ext8s_i64. reg64. begin. wp_case; wp_go; [done |]. zbits. Qed.

#[export] Instance tcg_gen_ext16s_i64_ok ret a :
  Assigns (tcg_gen_ext16s_i64 ret a) 64 64 2 ret [a] any (fun x => sint 16 (x a)).
Proof. unfold tcg_gen_ext16s_i64. reg64. begin. wp_case; wp_go; [done |]. zbits. Qed.

#[export] Instance tcg_gen_ext32s_i64_ok ret a :
  Assigns (tcg_gen_ext32s_i64 ret a) 64 64 2 ret [a] any (fun x => sint 32 (x a)).
Proof. unfold tcg_gen_ext32s_i64. reg64. begin. wp_case; wp_go; [done |]. zbits. Qed.

#[export] Instance tcg_gen_ext32u_i64_ok ret a :
  Assigns (tcg_gen_ext32u_i64 ret a) 64 64 1 ret [a] any (fun x => uint 32 (x a)).
Proof. unfold tcg_gen_ext32u_i64. reg64. begin. wp_case; wp_go; [done |]. by rewrite land_ffffffff. Qed.

#[export] Instance tcg_gen_ext8u_i64_ok ret a :
  Assigns (tcg_gen_ext8u_i64 ret a) 64 64 1 ret [a] any (fun x => uint 8 (x a)).
Proof. unfold tcg_gen_ext8u_i64. reg64. begin. wp_case; wp_go; [done |]. by rewrite land_ff. Qed.

#[export] Instance tcg_gen_ext16u_i64_ok ret a :
  Assigns (tcg_gen_ext16u_i64 ret a) 64 64 1 ret [a] any (fun x => uint 16 (x a)).
Proof. unfold tcg_gen_ext16u_i64. reg64. begin. wp_case; wp_go; [done |]. by rewrite land_ffff. Qed.

(** ** Bit fields *)

#[export] Instance op_extract_i64_ok `{!Has TCG_TARGET_HAS_extract_i64} ret a ofs len :
  Assigns (tcg_gen_op4ii_i64 INDEX_op_extract_i64 ret a ofs len) 64 64 0 ret [a]
    (fun _ => field_ok 64 ofs len = true) (fun x => extract_w 64 (x a) ofs len).
Proof. op_instance_using evals_field. Qed.

#[export] Instance op_sextract_i64_ok `{!Has TCG_TARGET_HAS_sextract_i64} ret a ofs len :
  Assigns (tcg_gen_op4ii_i64 INDEX_op_sextract_i64 ret a ofs len) 64 64 0 ret [a]
    (fun _ => field_ok 64 ofs len = true) (fun x => sextract_w 64 (x a) ofs len).
Proof. op_instance_using evals_field. Qed.

#[export] Instance op_deposit_i64_ok `{!Has TCG_TARGET_HAS_deposit_i64} ret a b ofs len :
  Assigns (tcg_gen_op5ii_i64 INDEX_op_deposit_i64 ret a b ofs len) 64 64 0 ret [a; b]
    (fun _ => field_ok 64 ofs len = true) (fun x => deposit_w 64 (x a) ofs len (x b)).
Proof. op_instance_using evals_field. Qed.

(** The assertions on a field, and then the cases. *)
Local Ltac field_cases :=
  match goal with Hpre : field_ok _ ?ofs ?len = true |- _ =>
    pose proof (proj1 (field_ok_true _ _ _) Hpre) as (Ho & Hl & Hs);
    rewrite ?(uint_small 32 ofs), ?(uint_small 32 len) by lia
  end; rewrite ?field_mask_ones; repeat wp_step;
  repeat (wp_case; try lia).

#[export] Instance tcg_gen_extract_i64_ok ret a ofs len :
  Assigns (tcg_gen_extract_i64 ret a ofs len) 64 64 2 ret [a] (fun _ => field_ok 64 ofs len = true)
    (fun x => extract_w 64 (x a) ofs len).
Proof.
  unfold tcg_gen_extract_i64, extract_shift_and, assert_field, field_mask. reg64. begin. field_cases; wp_go; vbits.
Qed.

#[export] Instance tcg_gen_sextract_i64_ok ret a ofs len :
  Assigns (tcg_gen_sextract_i64 ret a ofs len) 64 64 3 ret [a] (fun _ => field_ok 64 ofs len = true)
    (fun x => sextract_w 64 (x a) ofs len).
Proof.
  unfold tcg_gen_sextract_i64, assert_field. reg64. begin. field_cases; wp_go; vbits.
Qed.

#[export] Instance tcg_gen_deposit_z_i64_ok ret a ofs len :
  Assigns (tcg_gen_deposit_z_i64 ret a ofs len) 64 64 3 ret [a] (fun _ => field_ok 64 ofs len = true)
    (fun x => deposit_w 64 0 ofs len (x a)).
Proof.
  unfold tcg_gen_deposit_z_i64, assert_field, field_mask. reg64. begin. field_cases; wp_go; vbits.
Qed.

(** [deposit] and [extract2] call each other, one on the targets that have an
    extract2 op and the other on those that do not. *)
#[export] Instance op_extract2_i64_ok `{!Has TCG_TARGET_HAS_extract2_i64} ret a b ofs :
  Assigns (tcg_gen_op4i_i64 INDEX_op_extract2_i64 ret a b ofs) 64 64 0 ret [a; b]
    (fun _ => 0 <= ofs < 64) (fun x => extract2_w 64 (x a) (x b) ofs).
Proof.
  op_instance_using ltac:(
    eexists; split; [| right; split; [reflexivity |]; split; [reflexivity |]; op_args; unfold eval_i64, ev_extract2;
      replace (_ && _) with true by lia; reflexivity]; cbn [map]; f_equal; unfold V; zbits).
Qed.

(** Used only where the target lacks the op. *)
#[local] Hint Extern 0 (_ = false) => assumption : typeclass_instances.

Lemma extract2_i64_gen
    (FD : TCG_TARGET_HAS_extract2_i64 = false -> forall ret a b ofs len,
       Assigns (fwd_deposit_i64 ret a b ofs len) 64 64 5 ret [a; b] (fun _ => field_ok 64 ofs len = true)
         (fun x => deposit_w 64 (x a) ofs len (x b))) ret a b ofs :
  Assigns (tcg_gen_extract2_i64 ret a b ofs) 64 64 7 ret [a; b]
    (fun _ => 0 <= ofs <= 64) (fun x => extract2_w 64 (x a) (x b) ofs).
Proof.
  unfold tcg_gen_extract2_i64. reg64. begin. rewrite (uint_small 32 ofs) by lia. do 2 wp_step.
  wp_case; [subst; wp_go; vbits |]. wp_case; [subst; wp_go; vbits |].
  wp_case; [assert (v0 = v) by congruence; subst; wp_go; apply (rotr_extract2 64); lia |].
  wp_case; [by wp_go |]. wp_go; [apply field_ok_true; lia | vbits].
Qed.

#[export] Instance tcg_gen_extract2_i64_ok `{FO : !ForwardOk F} ret a b ofs :
  Assigns (tcg_gen_extract2_i64 ret a b ofs) 64 64 7 ret [a; b]
    (fun _ => 0 <= ofs <= 64) (fun x => extract2_w 64 (x a) (x b) ofs).
Proof. apply extract2_i64_gen. intros E. by apply FO. Qed.

(** Without the extract2 op: mask and shift. *)
Lemma deposit_i64_mask ret a b ofs len :
  TCG_TARGET_HAS_extract2_i64 = false ->
  Assigns (tcg_gen_deposit_i64 ret a b ofs len) 64 64 5 ret [a; b] (fun _ => field_ok 64 ofs len = true)
    (fun x => deposit_w 64 (x a) ofs len (x b)).
Proof.
  intros E2. unfold tcg_gen_deposit_i64, deposit_i64_tail, assert_field, field_mask.
  destruct (TCG_TARGET_HAS_deposit_i64 && TCG_TARGET_deposit_i64_valid (uint 32 ofs) (uint 32 len)) eqn:Ed.
  { apply andb_true_iff in Ed as [Ed _]. begin. field_cases; wp_go; vbits. }
  begin. rewrite E2. cbn [andb]. field_cases; wp_all; vbits.
Qed.

Lemma deposit_i64_extract2 ret a b ofs len :
  TCG_TARGET_HAS_extract2_i64 = true ->
  Assigns (tcg_gen_deposit_i64 ret a b ofs len) 64 64 13 ret [a; b] (fun _ => field_ok 64 ofs len = true)
    (fun x => deposit_w 64 (x a) ofs len (x b)).
Proof.
  intros E2. unfold tcg_gen_deposit_i64, deposit_i64_tail, assert_field, field_mask.
  pose proof (extract2_i64_gen ltac:(congruence)) as HE.
  destruct (TCG_TARGET_HAS_deposit_i64 && TCG_TARGET_deposit_i64_valid (uint 32 ofs) (uint 32 len)) eqn:Ed.
  { apply andb_true_iff in Ed as [Ed _]. begin. field_cases; wp_go; vbits. }
  begin. rewrite E2. cbn [andb]. field_cases; wp_all;
    first [subst; apply (deposit_bottom 64); lia | vbits].
Qed.

#[export] Instance tcg_gen_deposit_i64_ok ret a b ofs len :
  Assigns (tcg_gen_deposit_i64 ret a b ofs len) 64 64 13 ret [a; b] (fun _ => field_ok 64 ofs len = true)
    (fun x => deposit_w 64 (x a) ofs len (x b)).
Proof.
  destruct (sumbool_of_bool TCG_TARGET_HAS_extract2_i64) as [E | E]; [by apply deposit_i64_extract2 |].
  eapply assigns_weaken; [by apply deposit_i64_mask | lia].
Qed.

(** ** Byte swaps *)

#[export] Instance op_bswap16_i64_ok `{!Has TCG_TARGET_HAS_bswap16_i64} ret a flags :
  Assigns (tcg_gen_op3i_i64 INDEX_op_bswap16_i64 ret a flags) (bswap_low 64 16 flags) 64 0 ret [a]
    (fun x => bswap_pre 16 flags (x a)) (fun x => bswap_val 16 flags bswap16 (x a)).
Proof. bswap_op 64 bswap16_uint. Qed.

#[export] Instance op_bswap32_i64_ok `{!Has TCG_TARGET_HAS_bswap32_i64} ret a flags :
  Assigns (tcg_gen_op3i_i64 INDEX_op_bswap32_i64 ret a flags) (bswap_low 64 32 flags) 64 0 ret [a]
    (fun x => bswap_pre 32 flags (x a)) (fun x => bswap_val 32 flags bswap32 (x a)).
Proof. bswap_op 64 bswap32_uint. Qed.

#[export] Instance op_bswap64_i64_ok `{!Has TCG_TARGET_HAS_bswap64_i64} ret a :
  Assigns (tcg_gen_op3i_i64 INDEX_op_bswap64_i64 ret a 0) 64 64 0 ret [a] any (fun x => bswap64 (x a)).
Proof.
  op_instance_using ltac:(
    eexists; split; [| right; split; [reflexivity |]; split; [reflexivity | reflexivity]];
    cbn [map]; f_equal; unfold V; rewrite bswap64_uint by lia; unfold uint; apply Z_mod_plus_full).
Qed.

#[export] Instance tcg_gen_bswap16_i64_ok ret a flags :
  Assigns (tcg_gen_bswap16_i64 ret a flags) (bswap_low 64 16 flags) 64 6 ret [a]
    (fun x => bswap_pre 16 flags (x a)) (fun x => bswap_val 16 flags bswap16 (x a)).
Proof.
  unfold tcg_gen_bswap16_i64. reg64. begin. pose proof Hpre as [Hf Hz].
  pose proof (bswap_assert flags Hf) as Ha.
  do 2 wp_step. wp_case; [by wp_go |]. unfold bswap_low, bswap_val.
  destruct (flag flags TCG_BSWAP_OS), (flag flags TCG_BSWAP_OZ), (flag flags TCG_BSWAP_IZ);
    cbn [orb]; wp_all; try rewrite (Hz eq_refl); unfold_bswap; bit_permutation v.
Qed.

#[export] Instance tcg_gen_bswap32_i64_ok ret a flags :
  Assigns (tcg_gen_bswap32_i64 ret a flags) (bswap_low 64 32 flags) 64 8 ret [a]
    (fun x => bswap_pre 32 flags (x a)) (fun x => bswap_val 32 flags bswap32 (x a)).
Proof.
  unfold tcg_gen_bswap32_i64. reg64. begin. pose proof Hpre as [Hf Hz].
  pose proof (bswap_assert flags Hf) as Ha.
  do 2 wp_step. wp_case; [by wp_go |]. unfold bswap_low, bswap_val.
  destruct (flag flags TCG_BSWAP_OS), (flag flags TCG_BSWAP_OZ); cbn [orb]; wp_all;
    unfold_bswap; bit_permutation v.
Qed.

#[export] Instance tcg_gen_bswap64_i64_ok ret a :
  Assigns (tcg_gen_bswap64_i64 ret a) 64 64 13 ret [a] any (fun x => bswap64 (x a)).
Proof.
  unfold tcg_gen_bswap64_i64. reg64. begin. wp_all; [done |]. unfold_bswap. bit_permutation v.
Qed.

End I64Ok.
