(* ===== verification/TcgOpMixOk.v ===== *)
(** * Correctness of the operations that mix widths

    Double-word arithmetic, bit counts and size changes, on a host with 64-bit
    registers. *)

From Stdlib Require Import ZArith Lia Bool.
From stdpp Require Import base numbers functions list gmap.
From S2P Require Import Prelude.
From S2P Require Import Bytes.
From S2P Require Import Bitops.
From S2P Require Import BitCount.
From S2P Require Import HostUtils.
From S2P Require Import HostSpec.
From S2P Require Import TcgCond.
From S2P Require Import TcgOpc.
From S2P Require Import TcgCtx.
From S2P Require Import TcgHelpers.
From S2P Require Import TcgGen.
From S2P Require Import TcgSem.
From S2P Require Import TcgOp32.
From S2P Require Import TcgOp64.
From S2P Require Import TcgOpMix.
From S2P Require Import TcgTemps.
From S2P Require Import TcgWp.
From S2P Require Import TcgVal.
From S2P Require Import TcgValDw.
From S2P Require Import TcgAssign.
From S2P Require Import TcgGenOk.
From S2P Require Import TcgOp32Ok.
From S2P Require Import TcgOp64Ok.

Local Open Scope Z_scope.

Section MixOk.
Context `{T : TcgTarget} `{L : !TcgTargetLaws T} `{F : Forward} `{Orc : Oracle} `{Ov : Overshift}.
Context (R64 : TCG_TARGET_REG_BITS = 64).

Local Ltac reg64 :=
  rewrite ?R64; change (64 =? 64) with true; change (64 =? 32) with false; cbn [andb].

(** ** Double-word arithmetic *)

#[export] Instance tcg_gen_add2_i64_ok rl rh al ah bl bh :
  Assigns2 (tcg_gen_add2_i64 rl rh al ah bl bh) 64 64 3 rl rh [al; ah; bl; bh] any
    (fun x => pair 64 (x al) (x ah) + pair 64 (x bl) (x bh))
    (fun x => Z.shiftr (pair 64 (x al) (x ah) + pair 64 (x bl) (x bh)) 64).
Proof.
  unfold tcg_gen_add2_i64. destruct TCG_TARGET_HAS_add2_i64 eqn:E; [op_instance |].
  begin. wp_all.
  - by apply (add2_low 64); lia.
  - by apply (add2_high 64); lia.
Qed.

#[export] Instance tcg_gen_sub2_i64_ok rl rh al ah bl bh :
  Assigns2 (tcg_gen_sub2_i64 rl rh al ah bl bh) 64 64 3 rl rh [al; ah; bl; bh] any
    (fun x => pair 64 (x al) (x ah) - pair 64 (x bl) (x bh))
    (fun x => Z.shiftr (pair 64 (x al) (x ah) - pair 64 (x bl) (x bh)) 64).
Proof.
  unfold tcg_gen_sub2_i64. destruct TCG_TARGET_HAS_sub2_i64 eqn:E; [op_instance |].
  begin. wp_all.
  - by apply (sub2_low 64); lia.
  - by apply (sub2_high 64); lia.
Qed.

#[export] Instance op_mul_i64_ok ret a b :
  Assigns (tcg_gen_op3_i64 INDEX_op_mul_i64 ret a b) 64 64 0 ret [a; b] any (fun x => x a * x b).
Proof. op_instance. Qed.

#[export] Instance op_muluh_i64_ok `{!Has TCG_TARGET_HAS_muluh_i64} ret a b :
  Assigns (tcg_gen_op3_i64 INDEX_op_muluh_i64 ret a b) 64 64 0 ret [a; b] any
    (fun x => Z.shiftr (x a * x b) 64).
Proof. op_instance. Qed.

#[export] Instance op_mulsh_i64_ok `{!Has TCG_TARGET_HAS_mulsh_i64} ret a b :
  Assigns (tcg_gen_op3_i64 INDEX_op_mulsh_i64 ret a b) 64 64 0 ret [a; b] any
    (fun x => Z.shiftr (sint 64 (x a) * sint 64 (x b)) 64).
Proof. op_instance. Qed.

(** The helpers that return a value for all arguments. *)
Lemma muluh_val a b :
  0 <= a < 2 ^ 64 -> 0 <= b < 2 ^ 64 -> helper_val HELPER_muluh_i64 [a; b] = Z.shiftr (a * b) 64.
Proof.
  intros Ha Hb. unfold helper_val. cbn [helper_eval default from_option].
  unfold id, helper_muluh_i64. uint_vars. by rewrite mulu64_low_high.
Qed.

Lemma mulsh_val a b :
  uint 64 (helper_val HELPER_mulsh_i64 [a; b]) = uint 64 (Z.shiftr (sint 64 a * sint 64 b) 64).
Proof.
  unfold helper_val. cbn [helper_eval default from_option]. unfold id, helper_mulsh_i64.
  rewrite muls64_low_high. cbv [snd from_option]. by rewrite sint_uint, uint_sint by lia.
Qed.

#[export] Instance tcg_gen_mulu2_i64_ok rl rh a b :
  Assigns2 (tcg_gen_mulu2_i64 rl rh a b) 64 64 1 rl rh [a; b] any
    (fun x => x a * x b) (fun x => Z.shiftr (x a * x b) 64).
Proof.
  unfold tcg_gen_mulu2_i64. destruct TCG_TARGET_HAS_mulu2_i64 eqn:E; [op_instance |].
  begin. wp_all; try by rewrite ?uint_uint by lia.
  - by eexists.
  - by rewrite muluh_val.
Qed.

#[export] Instance tcg_gen_muls2_i64_ok rl rh a b :
  Assigns2 (tcg_gen_muls2_i64 rl rh a b) 64 64 7 rl rh [a; b] any
    (fun x => sint 64 (x a) * sint 64 (x b)) (fun x => Z.shiftr (sint 64 (x a) * sint 64 (x b)) 64).
Proof.
  unfold tcg_gen_muls2_i64. destruct TCG_TARGET_HAS_muls2_i64 eqn:E.
  { op_instance. unfold split2, V. by rewrite !sint_uint by lia. }
  begin. wp_all; try (wmod; by apply (mul_low_sint 64); lia);
    first [by eexists | apply (muls2_val 64); lia | by rewrite mulsh_val].
Qed.

#[export] Instance tcg_gen_mulsu2_i64_ok rl rh a b :
  Assigns2 (tcg_gen_mulsu2_i64 rl rh a b) 64 64 5 rl rh [a; b] any
    (fun x => sint 64 (x a) * x b) (fun x => Z.shiftr (sint 64 (x a) * x b) 64).
Proof.
  unfold tcg_gen_mulsu2_i64. begin. wp_all.
  - wmod.
  - by apply (mulsu2_val 64); lia.
Qed.

(** ** Size changes *)

(** The low word of a 64-bit temporary. *)
Local Ltac low_value a :=
  match goal with
  | HV : V 64 ?c ?st a = ?v |- _ =>
      let H := fresh "HV" in
      assert (H : V 32 c st a = uint 32 v) by (rewrite (V_low 32 64) by lia; by rewrite HV)
  end.

#[export] Instance op_extrl_i64_i32_ok `{!Has TCG_TARGET_HAS_extr_i64_i32} ret a :
  Assigns (tcg_gen_op2 INDEX_op_extrl_i64_i32 ret a) 32 64 0 ret [a] any (fun x => x a).
Proof. op_instance. Qed.

#[export] Instance op_extrh_i64_i32_ok `{!Has TCG_TARGET_HAS_extr_i64_i32} ret a :
  Assigns (tcg_gen_op2 INDEX_op_extrh_i64_i32 ret a) 32 64 0 ret [a] any (fun x => Z.shiftr (x a) 32).
Proof. op_instance. Qed.

#[export] Instance tcg_gen_extrl_i64_i32_ok ret a :
  Assigns (tcg_gen_extrl_i64_i32 ret a) 32 64 0 ret [a] any (fun x => x a).
Proof.
  unfold tcg_gen_extrl_i64_i32. reg64. begin. wp_case; [by wp_go |].
  low_value a. wp_go. by rewrite uint_uint by lia.
Qed.

#[export] Instance tcg_gen_extrh_i64_i32_ok ret a :
  Assigns (tcg_gen_extrh_i64_i32 ret a) 32 64 2 ret [a] any (fun x => Z.shiftr (x a) 32).
Proof.
  unfold tcg_gen_extrh_i64_i32. reg64. begin. wp_case; [by wp_go |].
  do 4 wp_step. low_value t. wp_go. zbits.
Qed.

#[export] Instance tcg_gen_concat_i32_i64_ok ret l h :
  Assigns (tcg_gen_concat_i32_i64 ret l h) 64 32 15 ret [l; h] any (fun x => pair 32 (x l) (x h)).
Proof.
  unfold tcg_gen_concat_i32_i64. reg64. begin. rewrite pair_lor by lia. wp_all; vbits.
Qed.

(** The words are written one after the other: the first must not be the
    source. *)
#[local] Hint Extern 0 (_ <> _) => ne : typeclass_instances.

#[export] Instance tcg_gen_extr_i64_i32_ok lo hi a :
  lo <> a ->
  Assigns2 (tcg_gen_extr_i64_i32 lo hi a) 32 64 2 lo hi [a] any (fun x => x a) (fun x => Z.shiftr (x a) 32).
Proof. intros Hne'. unfold tcg_gen_extr_i64_i32. reg64. begin. by wp_go. Qed.

#[export] Instance tcg_gen_extr32_i64_ok lo hi a :
  lo <> a ->
  Assigns2 (tcg_gen_extr32_i64 lo hi a) 64 64 2 lo hi [a] any
    (fun x => uint 32 (x a)) (fun x => Z.shiftr (x a) 32).
Proof. intros Hne'. unfold tcg_gen_extr32_i64. begin. by wp_go. Qed.

#[export] Instance tcg_gen_concat32_i64_ok ret lo hi :
  Assigns (tcg_gen_concat32_i64 ret lo hi) 64 64 13 ret [lo; hi] any
    (fun x => pair 32 (uint 32 (x lo)) (uint 32 (x hi))).
Proof.
  unfold tcg_gen_concat32_i64. begin. wp_go.
  rewrite pair_lor by first [lia | apply uint_range; lia]. vbits.
Qed.

(** ** 32-bit double-word arithmetic *)

#[export] Instance tcg_gen_add2_i32_ok rl rh al ah bl bh :
  Assigns2 (tcg_gen_add2_i32 rl rh al ah bl bh) 32 32 34 rl rh [al; ah; bl; bh] any
    (fun x => pair 32 (x al) (x ah) + pair 32 (x bl) (x bh))
    (fun x => Z.shiftr (pair 32 (x al) (x ah) + pair 32 (x bl) (x bh)) 32).
Proof.
  unfold tcg_gen_add2_i32. destruct TCG_TARGET_HAS_add2_i32 eqn:E; [op_instance |].
  begin. wp_all; [apply low_half | apply high_half]; wmod.
Qed.

#[export] Instance tcg_gen_sub2_i32_ok rl rh al ah bl bh :
  Assigns2 (tcg_gen_sub2_i32 rl rh al ah bl bh) 32 32 34 rl rh [al; ah; bl; bh] any
    (fun x => pair 32 (x al) (x ah) - pair 32 (x bl) (x bh))
    (fun x => Z.shiftr (pair 32 (x al) (x ah) - pair 32 (x bl) (x bh)) 32).
Proof.
  unfold tcg_gen_sub2_i32. destruct TCG_TARGET_HAS_sub2_i32 eqn:E; [op_instance |].
  begin. wp_all; [apply low_half | apply high_half]; wmod.
Qed.

#[export] Instance op_mul_i32_ok ret a b :
  Assigns (tcg_gen_op3_i32 INDEX_op_mul_i32 ret a b) 32 32 0 ret [a; b] any (fun x => x a * x b).
Proof. op_instance. Qed.

#[export] Instance op_muluh_i32_ok `{!Has TCG_TARGET_HAS_muluh_i32} ret a b :
  Assigns (tcg_gen_op3_i32 INDEX_op_muluh_i32 ret a b) 32 32 0 ret [a; b] any
    (fun x => Z.shiftr (x a * x b) 32).
Proof. op_instance. Qed.

#[export] Instance op_mulsh_i32_ok `{!Has TCG_TARGET_HAS_mulsh_i32} ret a b :
  Assigns (tcg_gen_op3_i32 INDEX_op_mulsh_i32 ret a b) 32 32 0 ret [a; b] any
    (fun x => Z.shiftr (sint 32 (x a) * sint 32 (x b)) 32).
Proof. op_instance. Qed.

#[export] Instance tcg_gen_mulu2_i32_ok rl rh a b :
  Assigns2 (tcg_gen_mulu2_i32 rl rh a b) 32 32 4 rl rh [a; b] any
    (fun x => x a * x b) (fun x => Z.shiftr (x a * x b) 32).
Proof.
  unfold tcg_gen_mulu2_i32. reg64. destruct TCG_TARGET_HAS_mulu2_i32 eqn:E; [op_instance |].
  begin. wp_all; first [by rewrite ?uint_uint by lia | apply low_half; wmod | apply high_half; wmod].
Qed.

#[export] Instance tcg_gen_muls2_i32_ok rl rh a b :
  Assigns2 (tcg_gen_muls2_i32 rl rh a b) 32 32 4 rl rh [a; b] any
    (fun x => sint 32 (x a) * sint 32 (x b)) (fun x => Z.shiftr (sint 32 (x a) * sint 32 (x b)) 32).
Proof.
  unfold tcg_gen_muls2_i32. reg64. destruct TCG_TARGET_HAS_muls2_i32 eqn:E.
  { op_instance. unfold split2, V. by rewrite !sint_uint by lia. }
  begin. wp_all; first [by rewrite ?uint_uint by lia | apply low_half; wmod | apply high_half; wmod | wmod].
Qed.

#[export] Instance tcg_gen_mulsu2_i32_ok rl rh a b :
  Assigns2 (tcg_gen_mulsu2_i32 rl rh a b) 32 32 4 rl rh [a; b] any
    (fun x => sint 32 (x a) * x b) (fun x => Z.shiftr (sint 32 (x a) * x b) 32).
Proof.
  unfold tcg_gen_mulsu2_i32. reg64. begin. wp_all; [apply low_half | apply high_half]; wmod.
Qed.

(** ** Bit counts *)

(** A helper that returns a value for all arguments. *)
Local Ltac count_helper :=
  first [ by eexists
        | unfold helper_val; cbn [helper_eval]; cbv [from_option];
          unfold id, helper_clz_i32, helper_ctz_i32, helper_clz_i64, helper_ctz_i64, helper_clrsb_i32,
            helper_clrsb_i64, helper_ctpop_i32, helper_ctpop_i64;
          uint_vars; unfold clz_z; try (by rewrite ?uint_uint by lia);
          repeat case_match; rewrite ?uint_uint by lia; done ].

#[export] Instance tcg_gen_clz_i64_ok ret a b :
  Assigns (tcg_gen_clz_i64 ret a b) 64 64 0 ret [a; b] any (fun x => clz_z clz64 (x a) (x b)).
Proof.
  unfold tcg_gen_clz_i64. destruct TCG_TARGET_HAS_clz_i64 eqn:E; [op_instance |].
  begin. wp_all; count_helper.
Qed.

#[export] Instance op_clz_i32_ok `{!Has TCG_TARGET_HAS_clz_i32} ret a b :
  Assigns (tcg_gen_op3_i32 INDEX_op_clz_i32 ret a b) 32 32 0 ret [a; b] any
    (fun x => clz_z clz32 (x a) (x b)).
Proof. op_instance. Qed.

#[export] Instance tcg_gen_clz_i32_ok ret a b :
  Assigns (tcg_gen_clz_i32 ret a b) 32 32 4 ret [a; b] any (fun x => clz_z clz32 (x a) (x b)).
Proof.
  unfold tcg_gen_clz_i32. begin. wp_all; [done | by apply clz32_by_64 | count_helper ..].
Qed.

#[export] Instance tcg_gen_clzi_i32_ok ret a k :
  Assigns (tcg_gen_clzi_i32 ret a k) 32 32 5 ret [a] any (fun x => clz_z clz32 (x a) k).
Proof. unfold tcg_gen_clzi_i32. begin. wp_all. unfold clz_z. case_match; wmod. Qed.

#[export] Instance tcg_gen_clzi_i64_ok ret a k :
  Assigns (tcg_gen_clzi_i64 ret a k) 64 64 1 ret [a] any (fun x => clz_z clz64 (x a) k).
Proof.
  unfold tcg_gen_clzi_i64. reg64. begin. wp_all. unfold clz_z. case_match; wmod.
Qed.

#[export] Instance tcg_gen_ctpop_i64_ok ret a :
  Assigns (tcg_gen_ctpop_i64 ret a) 64 64 0 ret [a] any (fun x => ctpop64 (x a)).
Proof.
  unfold tcg_gen_ctpop_i64. reg64. destruct TCG_TARGET_HAS_ctpop_i64 eqn:E; [op_instance |].
  begin. wp_all; count_helper.
Qed.

#[export] Instance tcg_gen_ctpop_i32_ok ret a :
  Assigns (tcg_gen_ctpop_i32 ret a) 32 32 2 ret [a] any (fun x => ctpop32 (x a)).
Proof.
  unfold tcg_gen_ctpop_i32. begin. wp_all; [done | by apply ctpop32_by_64 | count_helper ..].
Qed.

#[export] Instance tcg_gen_ctz_i64_ok ret a b :
  Assigns (tcg_gen_ctz_i64 ret a b) 64 64 6 ret [a; b] any (fun x => clz_z ctz64 (x a) (x b)).
Proof.
  unfold tcg_gen_ctz_i64. destruct TCG_TARGET_HAS_ctz_i64 eqn:E; [op_instance |].
  begin. wp_all; first [count_helper | by apply (ctz_by_ctpop 64); lia | by apply (ctz_by_clz 64); lia].
Qed.

#[export] Instance op_ctz_i32_ok `{!Has TCG_TARGET_HAS_ctz_i32} ret a b :
  Assigns (tcg_gen_op3_i32 INDEX_op_ctz_i32 ret a b) 32 32 0 ret [a; b] any
    (fun x => clz_z ctz32 (x a) (x b)).
Proof. op_instance. Qed.

#[export] Instance tcg_gen_ctz_i32_ok ret a b :
  Assigns (tcg_gen_ctz_i32 ret a b) 32 32 8 ret [a; b] any (fun x => clz_z ctz32 (x a) (x b)).
Proof.
  unfold tcg_gen_ctz_i32. begin. wp_all;
    first [done | by apply ctz32_by_64 | count_helper
          | by apply (ctz_by_ctpop 32); lia | by apply (ctz_by_clz 32); lia].
Qed.

(** [ctpop ((x - 1) & ~x)] is the width for 0, and needs no fixup. *)
#[export] Instance tcg_gen_ctzi_i32_ok ret a k :
  Assigns (tcg_gen_ctzi_i32 ret a k) 32 32 9 ret [a] any (fun x => clz_z ctz32 (x a) (uint 32 k)).
Proof.
  unfold tcg_gen_ctzi_i32. begin. wp_all;
    first [by rewrite ?uint_uint by lia | by apply (ctzi_by_ctpop 32); lia].
Qed.

#[export] Instance tcg_gen_ctzi_i64_ok ret a k :
  Assigns (tcg_gen_ctzi_i64 ret a k) 64 64 7 ret [a] any (fun x => clz_z ctz64 (x a) (uint 64 k)).
Proof.
  unfold tcg_gen_ctzi_i64. reg64. begin. wp_all;
    first [by rewrite ?uint_uint by lia | by apply (ctzi_by_ctpop 64); lia].
Qed.

#[export] Instance tcg_gen_clrsb_i32_ok ret a :
  Assigns (tcg_gen_clrsb_i32 ret a) 32 32 8 ret [a] any (fun x => clrsb32 (x a)).
Proof.
  unfold tcg_gen_clrsb_i32. begin. wp_all; first [by apply (clrsb_val 32); lia | count_helper].
Qed.

#[export] Instance tcg_gen_clrsb_i64_ok ret a :
  Assigns (tcg_gen_clrsb_i64 ret a) 64 64 6 ret [a] any (fun x => clrsb64 (x a)).
Proof.
  unfold tcg_gen_clrsb_i64. begin. wp_all; first [by apply (clrsb_val 64); lia | count_helper].
Qed.

End MixOk.
