(* ===== verification/TcgOpAll.v ===== *)
(** * The operations of tcg/tcg-op.c, put together

    Ties the calls of tcg-op.c that go backwards, and states for each group of
    [tcg_gen_*] functions that the code they emit computes what they promise,
    whatever the host supports.  On a host with 32-bit registers the theorems
    speak of the 32-bit functions, on a host with 64-bit registers of all. *)

From Stdlib Require Import ZArith Lia Bool.
From stdpp Require Import base numbers functions list gmap.
From S2P Require Import Prelude.
From S2P Require Import Bytes.
From S2P Require Import Bitops.
From S2P Require Import HostUtils.
From S2P Require Import TcgCond.
From S2P Require Import TcgOpc.
From S2P Require Import TcgCtx.
From S2P Require Import TcgHelpers.
From S2P Require Import TcgGen.
From S2P Require Import TcgSem.
From S2P Require Import TcgOp32.
From S2P Require Import TcgOp64.
From S2P Require Import TcgOpMix.
From S2P Require Import TcgTemps.
From S2P Require Import TcgWp.
From S2P Require Import TcgValDw.
From S2P Require Import TcgVal.
From S2P Require Import TcgAssign.
From S2P Require Import TcgGenOk.
From S2P Require Import TcgOp32Ok.
From S2P Require Import TcgOp64Ok.
From S2P Require Import TcgOpMixOk.

Local Open Scope Z_scope.

(** ** The knot *)

Section Knot.
Context `{T : TcgTarget}.

Definition bottom : Forward := {|
  fwd_deposit_i32 := fun _ _ _ _ _ _ => Diverges;
  fwd_deposit_i64 := fun _ _ _ _ _ _ => Diverges;
  fwd_movi_i64 := fun _ _ _ => Diverges;
  fwd_add2_i32 := fun _ _ _ _ _ _ _ => Diverges;
  fwd_sub2_i32 := fun _ _ _ _ _ _ _ => Diverges;
  fwd_mulu2_i32 := fun _ _ _ _ _ => Diverges;
  fwd_ctpop_i32 := fun _ _ _ => Diverges;
|}.

(** At most [n] backward calls within each other. *)
Fixpoint forward (n : nat) : Forward :=
  match n with
  | O => bottom
  | S n => {|
      fwd_deposit_i32 := tcg_gen_deposit_i32 (F := forward n);
      fwd_deposit_i64 := tcg_gen_deposit_i64 (F := forward n);
      fwd_movi_i64 := tcg_gen_movi_i64 (F := forward n);
      fwd_add2_i32 := tcg_gen_add2_i32 (F := forward n);
      fwd_sub2_i32 := tcg_gen_sub2_i32 (F := forward n);
      fwd_mulu2_i32 := tcg_gen_mulu2_i32 (F := forward n);
      fwd_ctpop_i32 := tcg_gen_ctpop_i32 (F := forward n);
    |}
  end.

Context `{L : !TcgTargetLaws T} `{Orc : Oracle} `{Ov : Overshift}.

(** One is enough on a host with 64-bit registers. *)
#[export] Instance forward_ok n : ForwardOk (forward (S n)).
Proof.
  split.
  - intros E ret a b ofs len. by apply deposit_i32_mask.
  - intros E R64 ret a b ofs len. by apply deposit_i64_mask.
Qed.

End Knot.

(** ** What the functions compute *)

Section Claims.
Context `{T : TcgTarget} `{L : !TcgTargetLaws T} `{Orc : Oracle} `{Ov : Overshift}.

(** [m] emits ops that set the [w]-bit temporary [ret] to [f] of the values of
    the [win]-bit temporaries [ins], and touch no other temporary in use and no
    memory, given room for 40 temporaries and [pre] of the values. *)
Definition computes (m : Gen unit) (w win ret : Z) (ins : list Z) (pre : (Z -> Z) -> Prop)
    (f : (Z -> Z) -> Z) : Prop := Assigns m w win 40 ret ins pre f.

Definition computes2 (m : Gen unit) (w win r1 r2 : Z) (ins : list Z) (pre : (Z -> Z) -> Prop)
    (f1 f2 : (Z -> Z) -> Z) : Prop := Assigns2 m w win 40 r1 r2 ins pre f1 f2.

Lemma computes_ok m w win n ret ins pre f :
  Assigns m w win n ret ins pre f -> n <= 40 -> computes m w win ret ins pre f.
Proof. apply assigns_weaken. Qed.

Lemma computes2_ok m w win n r1 r2 ins pre f1 f2 :
  Assigns2 m w win n r1 r2 ins pre f1 f2 -> n <= 40 -> computes2 m w win r1 r2 ins pre f1 f2.
Proof.
  intros A Hn c st H1 H2 H3 H4 H5 H6 H7. eapply wp_mono; [apply A; (done || lia) |].
  intros [] c' st' [G U]. split; [by apply (grows_weaken n) | done].
Qed.

End Claims.

(** By the instances. *)
Ltac expansions :=
  repeat lazymatch goal with
  | |- _ /\ _ => split
  | |- _ = 64 -> _ => intros ?R64
  | |- _ <> _ -> _ => intros ?
  end;
  first [eapply computes_ok; [tc_solve | lia] | eapply computes2_ok; [tc_solve | lia]].

Section Expansions.
Context `{T : TcgTarget} `{L : !TcgTargetLaws T} `{Orc : Oracle} `{Ov : Overshift}.
Variable n : nat.
Local Instance tied : Forward := forward (S n).
#[local] Hint Extern 0 (_ <> _) => assumption : typeclass_instances.

(** In-range shifts, from the instances with an unspecified out-of-range case. *)
Lemma computes_shift m w ret a b o f :
  Assigns m w w 0 ret [a; b] any (fun x => shift_w w o f (x a) (x b)) ->
  computes m w w ret [a; b] (fun x => x b < w) (fun x => f (x a) (x b)).
Proof.
  intros A c st H1 H2 H3 H4 Hb. rewrite <- (shift_w_in w o f) by done.
  eapply wp_mono; [apply A; (done || lia) |]. intros [] c' st' [G U].
  split; [by apply (grows_weaken 0); [| lia] | done].
Qed.

(** C19: the 32-bit moves, additions, subtractions, multiplications, negation,
    minimum, maximum and absolute value emit code that computes them, on every
    host; so do the 64-bit ones on a host with 64-bit registers, their branches
    for 32-bit registers are not covered. *)
Theorem arithmetic_expansions ret a b k :
  computes (tcg_gen_mov_i32 ret a) 32 32 ret [a] any (fun x => x a) /\
  computes (tcg_gen_movi_i32 ret k) 32 32 ret [] any (fun _ => k) /\
  computes (tcg_gen_add_i32 ret a b) 32 32 ret [a; b] any (fun x => x a + x b) /\
  computes (tcg_gen_addi_i32 ret a k) 32 32 ret [a] any (fun x => x a + k) /\
  computes (tcg_gen_sub_i32 ret a b) 32 32 ret [a; b] any (fun x => x a - x b) /\
  computes (tcg_gen_subi_i32 ret a k) 32 32 ret [a] any (fun x => x a - k) /\
  computes (tcg_gen_subfi_i32 ret k a) 32 32 ret [a] any (fun x => k - x a) /\
  computes (tcg_gen_neg_i32 ret a) 32 32 ret [a] any (fun x => - x a) /\
  computes (tcg_gen_mul_i32 ret a b) 32 32 ret [a; b] any (fun x => x a * x b) /\
  computes (tcg_gen_muli_i32 ret a k) 32 32 ret [a] any (fun x => x a * k) /\
  computes (tcg_gen_smin_i32 ret a b) 32 32 ret [a; b] any (fun x => Z.min (sint 32 (x a)) (sint 32 (x b))) /\
  computes (tcg_gen_umin_i32 ret a b) 32 32 ret [a; b] any (fun x => Z.min (x a) (x b)) /\
  computes (tcg_gen_smax_i32 ret a b) 32 32 ret [a; b] any (fun x => Z.max (sint 32 (x a)) (sint 32 (x b))) /\
  computes (tcg_gen_umax_i32 ret a b) 32 32 ret [a; b] any (fun x => Z.max (x a) (x b)) /\
  computes (tcg_gen_abs_i32 ret a) 32 32 ret [a] any (fun x => Z.abs (sint 32 (x a))) /\
  (TCG_TARGET_REG_BITS = 64 ->
   computes (tcg_gen_mov_i64 ret a) 64 64 ret [a] any (fun x => x a) /\
   computes (tcg_gen_movi_i64 ret k) 64 64 ret [] any (fun _ => k) /\
   computes (tcg_gen_add_i64 ret a b) 64 64 ret [a; b] any (fun x => x a + x b) /\
   computes (tcg_gen_addi_i64 ret a k) 64 64 ret [a] any (fun x => x a + k) /\
   computes (tcg_gen_sub_i64 ret a b) 64 64 ret [a; b] any (fun x => x a - x b) /\
   computes (tcg_gen_subi_i64 ret a k) 64 64 ret [a] any (fun x => x a - k) /\
   computes (tcg_gen_subfi_i64 ret k a) 64 64 ret [a] any (fun x => k - x a) /\
   computes (tcg_gen_neg_i64 ret a) 64 64 ret [a] any (fun x => - x a) /\
   computes (tcg_gen_mul_i64 ret a b) 64 64 ret [a; b] any (fun x => x a * x b) /\
   computes (tcg_gen_muli_i64 ret a k) 64 64 ret [a] any (fun x => x a * k) /\
   computes (tcg_gen_smin_i64 ret a b) 64 64 ret [a; b] any (fun x => Z.min (sint 64 (x a)) (sint 64 (x b))) /\
   computes (tcg_gen_umin_i64 ret a b) 64 64 ret [a; b] any (fun x => Z.min (x a) (x b)) /\
   computes (tcg_gen_smax_i64 ret a b) 64 64 ret [a; b] any (fun x => Z.max (sint 64 (x a)) (sint 64 (x b))) /\
   computes (tcg_gen_umax_i64 ret a b) 64 64 ret [a; b] any (fun x => Z.max (x a) (x b)) /\
   computes (tcg_gen_abs_i64 ret a) 64 64 ret [a] any (fun x => Z.abs (sint 64 (x a)))).
Proof. expansions. Qed.

(** C20: the bitwise functions emit code that computes them, with or without the
    ops andc, orc, eqv, nand, nor and not of the host; the 64-bit ones with
    64-bit registers. *)
Theorem logic_expansions ret a b k :
  computes (tcg_gen_and_i32 ret a b) 32 32 ret [a; b] any (fun x => Z.land (x a) (x b)) /\
  computes (tcg_gen_andi_i32 ret a k) 32 32 ret [a] any (fun x => Z.land (x a) k) /\
  computes (tcg_gen_or_i32 ret a b) 32 32 ret [a; b] any (fun x => Z.lor (x a) (x b)) /\
  computes (tcg_gen_ori_i32 ret a k) 32 32 ret [a] any (fun x => Z.lor (x a) k) /\
  computes (tcg_gen_xor_i32 ret a b) 32 32 ret [a; b] any (fun x => Z.lxor (x a) (x b)) /\
  computes (tcg_gen_xori_i32 ret a k) 32 32 ret [a] any (fun x => Z.lxor (x a) k) /\
  computes (tcg_gen_not_i32 ret a) 32 32 ret [a] any (fun x => Z.lnot (x a)) /\
  computes (tcg_gen_andc_i32 ret a b) 32 32 ret [a; b] any (fun x => Z.land (x a) (Z.lnot (x b))) /\
  computes (tcg_gen_orc_i32 ret a b) 32 32 ret [a; b] any (fun x => Z.lor (x a) (Z.lnot (x b))) /\
  computes (tcg_gen_eqv_i32 ret a b) 32 32 ret [a; b] any (fun x => Z.lnot (Z.lxor (x a) (x b))) /\
  computes (tcg_gen_nand_i32 ret a b) 32 32 ret [a; b] any (fun x => Z.lnot (Z.land (x a) (x b))) /\
  computes (tcg_gen_nor_i32 ret a b) 32 32 ret [a; b] any (fun x => Z.lnot (Z.lor (x a) (x b))) /\
  (TCG_TARGET_REG_BITS = 64 ->
   computes (tcg_gen_and_i64 ret a b) 64 64 ret [a; b] any (fun x => Z.land (x a) (x b)) /\
   computes (tcg_gen_andi_i64 ret a k) 64 64 ret [a] any (fun x => Z.land (x a) k) /\
   computes (tcg_gen_or_i64 ret a b) 64 64 ret [a; b] any (fun x => Z.lor (x a) (x b)) /\
   computes (tcg_gen_ori_i64 ret a k) 64 64 ret [a] any (fun x => Z.lor (x a) k) /\
   computes (tcg_gen_xor_i64 ret a b) 64 64 ret [a; b] any (fun x => Z.lxor (x a) (x b)) /\
   computes (tcg_gen_xori_i64 ret a k) 64 64 ret [a] any (fun x => Z.lxor (x a) k) /\
   computes (tcg_gen_not_i64 ret a) 64 64 ret [a] any (fun x => Z.lnot (x a)) /\
   computes (tcg_gen_andc_i64 ret a b) 64 64 ret [a; b] any (fun x => Z.land (x a) (Z.lnot (x b))) /\
   computes (tcg_gen_orc_i64 ret a b) 64 64 ret [a; b] any (fun x => Z.lor (x a) (Z.lnot (x b))) /\
   computes (tcg_gen_eqv_i64 ret a b) 64 64 ret [a; b] any (fun x => Z.lnot (Z.lxor (x a) (x b))) /\
   computes (tcg_gen_nand_i64 ret a b) 64 64 ret [a; b] any (fun x => Z.lnot (Z.land (x a) (x b))) /\
   computes (tcg_gen_nor_i64 ret a b) 64 64 ret [a; b] any (fun x => Z.lnot (Z.lor (x a) (x b)))).
Proof. expansions. Qed.

(** C21: setcond, negsetcond and movcond, with a register or an immediate, store
    1, -1 or the selected value exactly when the condition holds; ALWAYS and
    NEVER included.  The 64-bit ones are for 64-bit registers. *)
Theorem condition_expansions cond ret a b y z k :
  computes (tcg_gen_setcond_i32 cond ret a b) 32 32 ret [a; b] (fun _ => valid_cond cond = true) (fun x => b2z (cond_holds 32 cond (x a) (x b))) /\
  computes (tcg_gen_setcondi_i32 cond ret a k) 32 32 ret [a] (fun _ => valid_cond cond = true) (fun x => b2z (cond_holds 32 cond (x a) k)) /\
  computes (tcg_gen_negsetcond_i32 cond ret a b) 32 32 ret [a; b] (fun _ => valid_cond cond = true) (fun x => - b2z (cond_holds 32 cond (x a) (x b))) /\
  computes (tcg_gen_negsetcondi_i32 cond ret a k) 32 32 ret [a] (fun _ => valid_cond cond = true) (fun x => - b2z (cond_holds 32 cond (x a) k)) /\
  computes (tcg_gen_movcond_i32 cond ret a b y z) 32 32 ret [a; b; y; z] (fun _ => valid_cond cond = true) (fun x => if cond_holds 32 cond (x a) (x b) then x y else x z) /\
  (TCG_TARGET_REG_BITS = 64 ->
   computes (tcg_gen_setcond_i64 cond ret a b) 64 64 ret [a; b] (fun _ => valid_cond cond = true) (fun x => b2z (cond_holds 64 cond (x a) (x b))) /\
   computes (tcg_gen_setcondi_i64 cond ret a k) 64 64 ret [a] (fun _ => valid_cond cond = true) (fun x => b2z (cond_holds 64 cond (x a) k)) /\
   computes (tcg_gen_negsetcond_i64 cond ret a b) 64 64 ret [a; b] (fun _ => valid_cond cond = true) (fun x => - b2z (cond_holds 64 cond (x a) (x b))) /\
   computes (tcg_gen_negsetcondi_i64 cond ret a k) 64 64 ret [a] (fun _ => valid_cond cond = true) (fun x => - b2z (cond_holds 64 cond (x a) k)) /\
   computes (tcg_gen_movcond_i64 cond ret a b y z) 64 64 ret [a; b; y; z] (fun _ => valid_cond cond = true) (fun x => if cond_holds 64 cond (x a) (x b) then x y else x z)).
Proof. expansions. Qed.

(** C22: the divisions compute quotient and remainder, truncated towards zero when
    signed, on hosts with a division, with a double-word division, and with
    neither, where a helper is called; for a non-zero divisor and without
    overflow.  The 64-bit ones are for 64-bit registers. *)
Theorem division_expansions ret a b :
  computes (tcg_gen_div_i32 ret a b) 32 32 ret [a; b] (fun x => sdiv_ok 32 (sint 32 (x a)) (sint 32 (x b)) = true) (fun x => Z.quot (sint 32 (x a)) (sint 32 (x b))) /\
  computes (tcg_gen_rem_i32 ret a b) 32 32 ret [a; b] (fun x => sdiv_ok 32 (sint 32 (x a)) (sint 32 (x b)) = true) (fun x => Z.rem (sint 32 (x a)) (sint 32 (x b))) /\
  computes (tcg_gen_divu_i32 ret a b) 32 32 ret [a; b] (fun x => (x b =? 0) = false) (fun x => x a / x b) /\
  computes (tcg_gen_remu_i32 ret a b) 32 32 ret [a; b] (fun x => (x b =? 0) = false) (fun x => x a mod x b) /\
  (TCG_TARGET_REG_BITS = 64 ->
   computes (tcg_gen_div_i64 ret a b) 64 64 ret [a; b] (fun x => sdiv_ok 64 (sint 64 (x a)) (sint 64 (x b)) = true) (fun x => Z.quot (sint 64 (x a)) (sint 64 (x b))) /\
   computes (tcg_gen_rem_i64 ret a b) 64 64 ret [a; b] (fun x => sdiv_ok 64 (sint 64 (x a)) (sint 64 (x b)) = true) (fun x => Z.rem (sint 64 (x a)) (sint 64 (x b))) /\
   computes (tcg_gen_divu_i64 ret a b) 64 64 ret [a; b] (fun x => (x b =? 0) = false) (fun x => x a / x b) /\
   computes (tcg_gen_remu_i64 ret a b) 64 64 ret [a; b] (fun x => (x b =? 0) = false) (fun x => x a mod x b)).
Proof. expansions. Qed.

(** C23: on a host with any set of optional ops, the 32-bit shifts and rotations
    compute their value for every count below the width, whatever the host
    makes of a count out of range; with 64-bit registers so do the 64-bit ones.
    Excepted is a rotation by a variable count of zero where the host has no
    rotation op: the code then shifts by the width, which is unspecified. *)
Theorem shift_expansions ret a b k :
  computes (tcg_gen_shl_i32 ret a b) 32 32 ret [a; b] (fun x => x b < 32) (fun x => Z.shiftl (x a) (x b)) /\
  computes (tcg_gen_shr_i32 ret a b) 32 32 ret [a; b] (fun x => x b < 32) (fun x => Z.shiftr (x a) (x b)) /\
  computes (tcg_gen_sar_i32 ret a b) 32 32 ret [a; b] (fun x => x b < 32) (fun x => Z.shiftr (sint 32 (x a)) (x b)) /\
  computes (tcg_gen_shli_i32 ret a k) 32 32 ret [a] (fun _ => 0 <= k < 32) (fun x => Z.shiftl (x a) k) /\
  computes (tcg_gen_shri_i32 ret a k) 32 32 ret [a] (fun _ => 0 <= k < 32) (fun x => Z.shiftr (x a) k) /\
  computes (tcg_gen_sari_i32 ret a k) 32 32 ret [a] (fun _ => 0 <= k < 32) (fun x => Z.shiftr (sint 32 (x a)) k) /\
  computes (tcg_gen_rotl_i32 ret a b) 32 32 ret [a; b] (fun x => rot_pre 32 TCG_TARGET_HAS_rot_i32 (x b)) (fun x => rol32 (x a) (x b)) /\
  computes (tcg_gen_rotr_i32 ret a b) 32 32 ret [a; b] (fun x => rot_pre 32 TCG_TARGET_HAS_rot_i32 (x b)) (fun x => ror32 (x a) (x b)) /\
  computes (tcg_gen_rotli_i32 ret a k) 32 32 ret [a] (fun _ => 0 <= k < 32) (fun x => rol32 (x a) k) /\
  computes (tcg_gen_rotri_i32 ret a k) 32 32 ret [a] (fun _ => 0 <= k < 32) (fun x => ror32 (x a) k) /\
  (TCG_TARGET_REG_BITS = 64 ->
   computes (tcg_gen_shl_i64 ret a b) 64 64 ret [a; b] (fun x => x b < 64) (fun x => Z.shiftl (x a) (x b)) /\
   computes (tcg_gen_shr_i64 ret a b) 64 64 ret [a; b] (fun x => x b < 64) (fun x => Z.shiftr (x a) (x b)) /\
   computes (tcg_gen_sar_i64 ret a b) 64 64 ret [a; b] (fun x => x b < 64) (fun x => Z.shiftr (sint 64 (x a)) (x b)) /\
   computes (tcg_gen_shli_i64 ret a k) 64 64 ret [a] (fun _ => 0 <= k < 64) (fun x => Z.shiftl (x a) k) /\
   computes (tcg_gen_shri_i64 ret a k) 64 64 ret [a] (fun _ => 0 <= k < 64) (fun x => Z.shiftr (x a) k) /\
   computes (tcg_gen_sari_i64 ret a k) 64 64 ret [a] (fun _ => 0 <= k < 64) (fun x => Z.shiftr (sint 64 (x a)) k) /\
   computes (tcg_gen_rotl_i64 ret a b) 64 64 ret [a; b] (fun x => rot_pre 64 TCG_TARGET_HAS_rot_i64 (x b)) (fun x => rol64 (x a) (x b)) /\
   computes (tcg_gen_rotr_i64 ret a b) 64 64 ret [a; b] (fun x => rot_pre 64 TCG_TARGET_HAS_rot_i64 (x b)) (fun x => ror64 (x a) (x b)) /\
   computes (tcg_gen_rotli_i64 ret a k) 64 64 ret [a] (fun _ => 0 <= k < 64) (fun x => rol64 (x a) k) /\
   computes (tcg_gen_rotri_i64 ret a k) 64 64 ret [a] (fun _ => 0 <= k < 64) (fun x => ror64 (x a) k)).
Proof.
  repeat lazymatch goal with |- _ /\ _ => split | |- _ = 64 -> _ => intros ?R64 end;
    first [ eapply computes_ok; [tc_solve | lia] | eapply computes_shift; tc_solve
          | eapply (computes_shift _ _ _ _ _ _ (sar_w _)); tc_solve ].
Qed.

(** C24: extract, sextract, deposit, deposit_z and extract2 compute their bit field
    for every field inside the word, on every combination of optional host ops;
    the 64-bit ones with 64-bit registers only, their branches for 32-bit
    registers are not covered. *)
Theorem field_expansions ret a b ofs len :
  computes (tcg_gen_extract_i32 ret a ofs len) 32 32 ret [a] (fun _ => field_ok 32 ofs len = true) (fun x => extract_w 32 (x a) ofs len) /\
  computes (tcg_gen_sextract_i32 ret a ofs len) 32 32 ret [a] (fun _ => field_ok 32 ofs len = true) (fun x => sextract_w 32 (x a) ofs len) /\
  computes (tcg_gen_deposit_i32 ret a b ofs len) 32 32 ret [a; b] (fun _ => field_ok 32 ofs len = true) (fun x => deposit_w 32 (x a) ofs len (x b)) /\
  computes (tcg_gen_deposit_z_i32 ret a ofs len) 32 32 ret [a] (fun _ => field_ok 32 ofs len = true) (fun x => deposit_w 32 0 ofs len (x a)) /\
  computes (tcg_gen_extract2_i32 ret a b ofs) 32 32 ret [a; b] (fun _ => 0 <= ofs <= 32) (fun x => extract2_w 32 (x a) (x b) ofs) /\
  (TCG_TARGET_REG_BITS = 64 ->
   computes (tcg_gen_extract_i64 ret a ofs len) 64 64 ret [a] (fun _ => field_ok 64 ofs len = true) (fun x => extract_w 64 (x a) ofs len) /\
   computes (tcg_gen_sextract_i64 ret a ofs len) 64 64 ret [a] (fun _ => field_ok 64 ofs len = true) (fun x => sextract_w 64 (x a) ofs len) /\
   computes (tcg_gen_deposit_i64 ret a b ofs len) 64 64 ret [a; b] (fun _ => field_ok 64 ofs len = true) (fun x => deposit_w 64 (x a) ofs len (x b)) /\
   computes (tcg_gen_deposit_z_i64 ret a ofs len) 64 64 ret [a] (fun _ => field_ok 64 ofs len = true) (fun x => deposit_w 64 0 ofs len (x a)) /\
   computes (tcg_gen_extract2_i64 ret a b ofs) 64 64 ret [a; b] (fun _ => 0 <= ofs <= 64) (fun x => extract2_w 64 (x a) (x b) ofs)).
Proof. expansions. Qed.

(** C25: the byte swaps of tcg-op.c swap, with the extension that the flags ask for,
    and the half-word and word swaps are those of bitops.h; the 64-bit ones with
    64-bit registers. *)
Theorem bswap_expansions ret a flags :
  computes (tcg_gen_bswap16_i32 ret a flags) (bswap_low 32 16 flags) 32 ret [a] (fun x => bswap_pre 16 flags (x a)) (fun x => bswap_val 16 flags bswap16 (x a)) /\
  computes (tcg_gen_bswap32_i32 ret a) 32 32 ret [a] any (fun x => bswap32 (x a)) /\
  computes (tcg_gen_hswap_i32 ret a) 32 32 ret [a] any (fun x => hswap32 (x a)) /\
  (TCG_TARGET_REG_BITS = 64 ->
   computes (tcg_gen_bswap16_i64 ret a flags) (bswap_low 64 16 flags) 64 ret [a] (fun x => bswap_pre 16 flags (x a)) (fun x => bswap_val 16 flags bswap16 (x a)) /\
   computes (tcg_gen_bswap32_i64 ret a flags) (bswap_low 64 32 flags) 64 ret [a] (fun x => bswap_pre 32 flags (x a)) (fun x => bswap_val 32 flags bswap32 (x a)) /\
   computes (tcg_gen_bswap64_i64 ret a) 64 64 ret [a] any (fun x => bswap64 (x a)) /\
   computes (tcg_gen_hswap_i64 ret a) 64 64 ret [a] any (fun x => hswap64 (x a)) /\
   computes (tcg_gen_wswap_i64 ret a) 64 64 ret [a] any (fun x => wswap64 (x a))).
Proof. expansions. Qed.

(** C26: clz, ctz, clrsb and ctpop compute the counts of host-utils.h, the value for a
    zero argument included, by the op, by a wider op, by one of the other
    counts, or by a helper, on a host with 64-bit registers. *)
Theorem count_expansions ret a b k :
  TCG_TARGET_REG_BITS = 64 ->
  computes (tcg_gen_clz_i32 ret a b) 32 32 ret [a; b] any (fun x => clz_z clz32 (x a) (x b)) /\
  computes (tcg_gen_clzi_i32 ret a k) 32 32 ret [a] any (fun x => clz_z clz32 (x a) k) /\
  computes (tcg_gen_ctz_i32 ret a b) 32 32 ret [a; b] any (fun x => clz_z ctz32 (x a) (x b)) /\
  computes (tcg_gen_ctzi_i32 ret a k) 32 32 ret [a] any (fun x => clz_z ctz32 (x a) (uint 32 k)) /\
  computes (tcg_gen_clrsb_i32 ret a) 32 32 ret [a] any (fun x => clrsb32 (x a)) /\
  computes (tcg_gen_ctpop_i32 ret a) 32 32 ret [a] any (fun x => ctpop32 (x a)) /\
  computes (tcg_gen_clz_i64 ret a b) 64 64 ret [a; b] any (fun x => clz_z clz64 (x a) (x b)) /\
  computes (tcg_gen_clzi_i64 ret a k) 64 64 ret [a] any (fun x => clz_z clz64 (x a) k) /\
  computes (tcg_gen_ctz_i64 ret a b) 64 64 ret [a; b] any (fun x => clz_z ctz64 (x a) (x b)) /\
  computes (tcg_gen_ctzi_i64 ret a k) 64 64 ret [a] any (fun x => clz_z ctz64 (x a) (uint 64 k)) /\
  computes (tcg_gen_clrsb_i64 ret a) 64 64 ret [a] any (fun x => clrsb64 (x a)) /\
  computes (tcg_gen_ctpop_i64 ret a) 64 64 ret [a] any (fun x => ctpop64 (x a)).
Proof. expansions. Qed.

(** C27: add2, sub2, mulu2, muls2 and mulsu2 return the two words of the sum, the
    difference or the product of the double words or words, signed as they
    say, on a host with 64-bit registers. *)
Theorem double_word_expansions rl rh a b y z :
  TCG_TARGET_REG_BITS = 64 ->
  computes2 (tcg_gen_add2_i32 rl rh a b y z) 32 32 rl rh [a; b; y; z] any (fun x => pair 32 (x a) (x b) + pair 32 (x y) (x z))
    (fun x => Z.shiftr (pair 32 (x a) (x b) + pair 32 (x y) (x z)) 32) /\
  computes2 (tcg_gen_sub2_i32 rl rh a b y z) 32 32 rl rh [a; b; y; z] any (fun x => pair 32 (x a) (x b) - pair 32 (x y) (x z))
    (fun x => Z.shiftr (pair 32 (x a) (x b) - pair 32 (x y) (x z)) 32) /\
  computes2 (tcg_gen_mulu2_i32 rl rh a y) 32 32 rl rh [a; y] any (fun x => x a * x y)
    (fun x => Z.shiftr (x a * x y) 32) /\
  computes2 (tcg_gen_muls2_i32 rl rh a y) 32 32 rl rh [a; y] any (fun x => sint 32 (x a) * sint 32 (x y))
    (fun x => Z.shiftr (sint 32 (x a) * sint 32 (x y)) 32) /\
  computes2 (tcg_gen_mulsu2_i32 rl rh a y) 32 32 rl rh [a; y] any (fun x => sint 32 (x a) * x y)
    (fun x => Z.shiftr (sint 32 (x a) * x y) 32) /\
  computes2 (tcg_gen_add2_i64 rl rh a b y z) 64 64 rl rh [a; b; y; z] any (fun x => pair 64 (x a) (x b) + pair 64 (x y) (x z))
    (fun x => Z.shiftr (pair 64 (x a) (x b) + pair 64 (x y) (x z)) 64) /\
  computes2 (tcg_gen_sub2_i64 rl rh a b y z) 64 64 rl rh [a; b; y; z] any (fun x => pair 64 (x a) (x b) - pair 64 (x y) (x z))
    (fun x => Z.shiftr (pair 64 (x a) (x b) - pair 64 (x y) (x z)) 64) /\
  computes2 (tcg_gen_mulu2_i64 rl rh a y) 64 64 rl rh [a; y] any (fun x => x a * x y)
    (fun x => Z.shiftr (x a * x y) 64) /\
  computes2 (tcg_gen_muls2_i64 rl rh a y) 64 64 rl rh [a; y] any (fun x => sint 64 (x a) * sint 64 (x y))
    (fun x => Z.shiftr (sint 64 (x a) * sint 64 (x y)) 64) /\
  computes2 (tcg_gen_mulsu2_i64 rl rh a y) 64 64 rl rh [a; y] any (fun x => sint 64 (x a) * x y)
    (fun x => Z.shiftr (sint 64 (x a) * x y) 64).
Proof. expansions. Qed.

(** C28: the extensions and the conversions between 32 and 64 bits compute them;
    the two that write two results may not write over their source first.  The
    64-bit ones and the conversions are for 64-bit registers. *)
Theorem size_expansions ret a lo hi :
  computes (tcg_gen_ext8s_i32 ret a) 32 32 ret [a] any (fun x => sint 8 (x a)) /\
  computes (tcg_gen_ext8u_i32 ret a) 32 32 ret [a] any (fun x => uint 8 (x a)) /\
  computes (tcg_gen_ext16s_i32 ret a) 32 32 ret [a] any (fun x => sint 16 (x a)) /\
  computes (tcg_gen_ext16u_i32 ret a) 32 32 ret [a] any (fun x => uint 16 (x a)) /\
  (TCG_TARGET_REG_BITS = 64 ->
   computes (tcg_gen_ext8s_i64 ret a) 64 64 ret [a] any (fun x => sint 8 (x a)) /\
   computes (tcg_gen_ext8u_i64 ret a) 64 64 ret [a] any (fun x => uint 8 (x a)) /\
   computes (tcg_gen_ext16s_i64 ret a) 64 64 ret [a] any (fun x => sint 16 (x a)) /\
   computes (tcg_gen_ext16u_i64 ret a) 64 64 ret [a] any (fun x => uint 16 (x a)) /\
   computes (tcg_gen_ext32s_i64 ret a) 64 64 ret [a] any (fun x => sint 32 (x a)) /\
   computes (tcg_gen_ext32u_i64 ret a) 64 64 ret [a] any (fun x => uint 32 (x a)) /\
   computes (tcg_gen_extu_i32_i64 ret a) 64 32 ret [a] any (fun x => x a) /\
   computes (tcg_gen_ext_i32_i64 ret a) 64 32 ret [a] any (fun x => sint 32 (x a)) /\
   computes (tcg_gen_extrl_i64_i32 ret a) 32 64 ret [a] any (fun x => x a) /\
   computes (tcg_gen_extrh_i64_i32 ret a) 32 64 ret [a] any (fun x => Z.shiftr (x a) 32) /\
   computes (tcg_gen_concat_i32_i64 ret lo hi) 64 32 ret [lo; hi] any (fun x => pair 32 (x lo) (x hi)) /\
   computes (tcg_gen_concat32_i64 ret lo hi) 64 64 ret [lo; hi] any (fun x => pair 32 (uint 32 (x lo)) (uint 32 (x hi))) /\
   (lo <> a -> computes2 (tcg_gen_extr_i64_i32 lo hi a) 32 64 lo hi [a] any (fun x => x a)
     (fun x => Z.shiftr (x a) 32)) /\
   (lo <> a -> computes2 (tcg_gen_extr32_i64 lo hi a) 64 64 lo hi [a] any (fun x => uint 32 (x a))
     (fun x => Z.shiftr (x a) 32))).
Proof. expansions. Qed.

End Expansions.

(** ** At the wasm32 backend *)

Definition no_junk : Oracle := {| junk := fun _ _ => 0; lookup_tb_ptr := fun _ => 0 |}.

Section Wasm32.
Local Instance wasm32_target : TcgTarget := wasm32.
Local Instance wasm32_forward : Forward := forward 1.
Local Instance wasm32_oracle : Oracle := no_junk.
Local Instance ones : Overshift := fun _ _ _ => -1.

Lemma arithmetic_expansions_witness :
  computes (tcg_gen_muli_i32 4 5 12) 32 32 4 [5] any (fun x => x 5 * 12).
Proof. apply (arithmetic_expansions (T := wasm32_target) 0 4 5 6 12). Defined.

Lemma logic_expansions_witness :
  computes (tcg_gen_nand_i32 4 5 6) 32 32 4 [5; 6] any (fun x => Z.lnot (Z.land (x 5) (x 6))).
Proof. apply (logic_expansions (T := wasm32_target) 0 4 5 6 0). Defined.

Lemma condition_expansions_witness :
  computes (tcg_gen_setcondi_i32 TCG_COND_LTU 4 5 7) 32 32 4 [5]
    (fun _ => valid_cond TCG_COND_LTU = true) (fun x => b2z (cond_holds 32 TCG_COND_LTU (x 5) 7)).
Proof. apply (condition_expansions (T := wasm32_target) 0 TCG_COND_LTU 4 5 6 7 8 7). Defined.

Lemma division_expansions_witness :
  computes (tcg_gen_divu_i32 4 5 6) 32 32 4 [5; 6] (fun x => (x 6 =? 0) = false) (fun x => x 5 / x 6).
Proof. apply (division_expansions (T := wasm32_target) 0 4 5 6). Defined.

Lemma shift_expansions_witness :
  computes (tcg_gen_rotri_i32 4 5 9) 32 32 4 [5] (fun _ => 0 <= 9 < 32) (fun x => ror32 (x 5) 9).
Proof. apply (shift_expansions (T := wasm32_target) 0 4 5 6 9). Defined.

Lemma field_expansions_witness :
  computes (tcg_gen_deposit_i32 4 5 6 8 5) 32 32 4 [5; 6] (fun _ => field_ok 32 8 5 = true)
    (fun x => deposit_w 32 (x 5) 8 5 (x 6)).
Proof. apply (field_expansions (T := wasm32_target) 0 4 5 6 8 5). Defined.

Lemma bswap_expansions_witness :
  computes (tcg_gen_bswap32_i32 4 5) 32 32 4 [5] any (fun x => bswap32 (x 5)).
Proof. apply (bswap_expansions (T := wasm32_target) 0 4 5 0). Defined.

Lemma count_expansions_witness :
  computes (tcg_gen_clrsb_i64 4 5) 64 64 4 [5] any (fun x => clrsb64 (x 5)).
Proof. apply (count_expansions (T := wasm32_target) 0 4 5 6 0 eq_refl). Defined.

Lemma double_word_expansions_witness :
  computes2 (tcg_gen_mulsu2_i32 4 5 6 7) 32 32 4 5 [6; 7] any
    (fun x => sint 32 (x 6) * x 7) (fun x => Z.shiftr (sint 32 (x 6) * x 7) 32).
Proof. apply (double_word_expansions (T := wasm32_target) 0 4 5 6 6 7 7 eq_refl). Defined.

Lemma size_expansions_witness :
  computes (tcg_gen_ext16s_i32 4 5) 32 32 4 [5] any (fun x => sint 16 (x 5)).
Proof. apply (size_expansions (T := wasm32_target) 0 4 5 6 7). Defined.

End Wasm32.
