(* ===== verification/RegSpec.v ===== *)
(** * What the backend owes an op

    After register allocation the operands of an op are host registers and
    constants.  [implements] says that a change of the register file is a
    correct execution of a pure op: the outputs hold what the opcode means on
    the inputs, up to the bits the opcode leaves open, and no other register
    changes.  A shift count out of range is taken modulo the width, which
    tcg-ops.rst leaves open and both engines do.  Both ways in which the wasm32 backend executes an op, the
    interpreter and the generated WebAssembly, are proved against it. *)

From Stdlib Require Import ZArith Lia Bool.
From stdpp Require Import base numbers functions list option.
From S2P Require Import Prelude.
From S2P Require Import Bytes.
From S2P Require Import Bitops.
From S2P Require Import BitCount.
From S2P Require Import TcgCond.
From S2P Require Import TcgOpc.
From S2P Require Import TcgCtx.
From S2P Require Import TcgSem.

Local Open Scope Z_scope.

(** ** Register files *)

Definition regfile : Type := Z -> Z.

(** A register is a tcg_target_ulong. *)
Definition wr (g : regfile) (r v : Z) : regfile := <[r := uint 64 v]> g.

Definition regs_ok (g : regfile) : Prop := forall r, 0 <= g r < 2 ^ 64.

Lemma wr_same g r v : wr g r v r = uint 64 v.
Proof. unfold wr. apply fn_lookup_insert. Qed.

Lemma wr_other g r r' v : r <> r' -> wr g r v r' = g r'.
Proof. intros. unfold wr. by apply fn_lookup_insert_ne. Qed.

Lemma wr_ok g r v : regs_ok g -> regs_ok (wr g r v).
Proof.
  intros Hg r'. destruct (decide (r = r')) as [->|].
  - rewrite wr_same. apply uint_range. lia.
  - by rewrite wr_other.
Qed.

(** ** Meaning of an op on registers *)

(** The backend takes the count of a shift modulo the width. *)
#[export] Instance masked_count : Overshift := fun o x y =>
  match o with
  | INDEX_op_shl_i32 => Z.shiftl x (Z.land y 31)
  | INDEX_op_shl_i64 => Z.shiftl x (Z.land y 63)
  | INDEX_op_shr_i32 => Z.shiftr x (Z.land y 31)
  | INDEX_op_shr_i64 => Z.shiftr x (Z.land y 63)
  | INDEX_op_sar_i32 => Z.shiftr (sint 32 x) (Z.land y 31)
  | INDEX_op_sar_i64 => Z.shiftr (sint 64 x) (Z.land y 63)
  | INDEX_op_rotl_i32 => rol32 x y
  | INDEX_op_rotl_i64 => rol64 x y
  | INDEX_op_rotr_i32 => ror32 x y
  | INDEX_op_rotr_i64 => ror64 x y
  | _ => 0
  end.

Lemma count_in w y :
  w = 32 \/ w = 64 -> 0 <= y -> (y <? w) = true -> Z.land y (w - 1) = y.
Proof.
  intros Hw Hy E%Z.ltb_lt. assert (Hr : rot_width w) by (unfold rot_width; lia).
  rewrite (land_rot_mask _ _ Hr). by apply Z.mod_small.
Qed.

Ltac count := intros Hy; unfold shift_w, sar_w, over, masked_count;
  match goal with |- context [?y <? ?w] => destruct (y <? w) eqn:E;
    [by rewrite <- (count_in w y) at 1 by tauto | done] end.

Lemma shl32_masked x y : 0 <= y -> shift_w 32 INDEX_op_shl_i32 Z.shiftl x y = Z.shiftl x (Z.land y 31).
Proof. count. Qed.
Lemma shl64_masked x y : 0 <= y -> shift_w 64 INDEX_op_shl_i64 Z.shiftl x y = Z.shiftl x (Z.land y 63).
Proof. count. Qed.
Lemma shr32_masked x y : 0 <= y -> shift_w 32 INDEX_op_shr_i32 Z.shiftr x y = Z.shiftr x (Z.land y 31).
Proof. count. Qed.
Lemma shr64_masked x y : 0 <= y -> shift_w 64 INDEX_op_shr_i64 Z.shiftr x y = Z.shiftr x (Z.land y 63).
Proof. count. Qed.
Lemma sar32_masked x y :
  0 <= y -> shift_w 32 INDEX_op_sar_i32 (sar_w 32) x y = Z.shiftr (sint 32 x) (Z.land y 31).
Proof. count. Qed.
Lemma sar64_masked x y :
  0 <= y -> shift_w 64 INDEX_op_sar_i64 (sar_w 64) x y = Z.shiftr (sint 64 x) (Z.land y 63).
Proof. count. Qed.
Lemma rot_masked w o f x y : over o x y = f x y -> shift_w w o f x y = f x y.
Proof. intros E. unfold shift_w. by destruct (y <? w). Qed.
Lemma rotl32_all x y : shift_w 32 INDEX_op_rotl_i32 rol32 x y = rol32 x y.
Proof. by apply rot_masked. Qed.
Lemma rotl64_all x y : shift_w 64 INDEX_op_rotl_i64 rol64 x y = rol64 x y.
Proof. by apply rot_masked. Qed.
Lemma rotr32_all x y : shift_w 32 INDEX_op_rotr_i32 ror32 x y = ror32 x y.
Proof. by apply rot_masked. Qed.
Lemma rotr64_all x y : shift_w 64 INDEX_op_rotr_i64 ror64 x y = ror64 x y.
Proof. by apply rot_masked. Qed.

(** The counts of all shifts and rotations, modulo the width. *)
Ltac masked :=
  rewrite ?shl32_masked, ?shl64_masked, ?shr32_masked, ?shr64_masked, ?sar32_masked, ?sar64_masked,
    ?rotl32_all, ?rotl64_all, ?rotr32_all, ?rotr64_all by (apply uint_range; lia).

(** The width of the outputs and their values. *)
Definition eval_any {Orc : Oracle} (o : TCGOpcode) (ins cargs : list Z) : option (Z * list Z) :=
  match eval_i32 o ins cargs with
  | Some vs => Some (32, vs)
  | None => option_map (fun vs => (64, vs)) (eval_i64 o ins cargs)
  end.

(** [g'] is [g] with the low [w] bits of [vs] in [outs]. *)
Definition writes (w : Z) (outs vs : list Z) (g g' : regfile) : Prop :=
  Forall2 (fun r v => uint w (g' r) = uint w v) outs vs /\
  (forall r, r ∉ outs -> g' r = g r) /\ (regs_ok g -> regs_ok g').

Definition implements (o : TCGOpcode) (outs ins cargs : list Z) (g g' : regfile) : Prop :=
  exists (Orc : Oracle) w vs, eval_any o (g <$> ins) cargs = Some (w, vs) /\ writes w outs vs g g'.

Definition zero_junk : Oracle := {| junk := fun _ _ => 0; lookup_tb_ptr := fun _ => 0 |}.

(** The op is defined on these inputs; this does not depend on the open bits. *)
Definition defined (o : TCGOpcode) (ins cargs : list Z) (g : regfile) : Prop :=
  eval_any (Orc := zero_junk) o (g <$> ins) cargs <> None.

(** ** Introduction rules *)

Lemma writes_one w r v g x :
  0 <= w <= 64 -> uint w x = uint w v -> writes w [r] [v] g (wr g r x).
Proof.
  intros Hw Hx. split; [|split].
  - constructor; [|constructor]. by rewrite wr_same, uint_uint_le.
  - intros r' Hr. apply wr_other. by intros ->; apply Hr, list_elem_of_here.
  - intros. by apply wr_ok.
Qed.

Lemma writes_two w r r' v v' g x x' :
  0 <= w <= 64 -> r <> r' -> uint w x = uint w v -> uint w x' = uint w v' ->
  writes w [r; r'] [v; v'] g (wr (wr g r x) r' x').
Proof.
  intros Hw Hr Hx Hx'. split; [|split].
  - constructor; [|constructor; [|constructor]].
    + by rewrite wr_other, wr_same, uint_uint_le.
    + by rewrite wr_same, uint_uint_le.
  - intros q Hq. rewrite !not_elem_of_cons in Hq. destruct Hq as (?&?&_). by rewrite !wr_other.
  - intros. by repeat apply wr_ok.
Qed.

Lemma implements_i32 o outs ins cargs g g' (Orc : Oracle) vs :
  eval_i32 o (g <$> ins) cargs = Some vs -> writes 32 outs vs g g' ->
  implements o outs ins cargs g g'.
Proof. intros He Hw. exists Orc, 32, vs. unfold eval_any. by rewrite He. Qed.

Lemma implements_i64 o outs ins cargs g g' (Orc : Oracle) vs :
  eval_i32 o (g <$> ins) cargs = None -> eval_i64 o (g <$> ins) cargs = Some vs ->
  writes 64 outs vs g g' -> implements o outs ins cargs g g'.
Proof. intros He He' Hw. exists Orc, 64, vs. unfold eval_any. by rewrite He, He'. Qed.
