(* ===== verification/MemOp.v ===== *)
(** * Memory operations: MemOp of include/exec/memop.h

    The fields of a memory operation and the alignment and atomicity that
    [atom_and_align_for_opc] of tcg/tcg.c chooses for the inline access. *)

From Stdlib Require Import ZArith Lia Bool.
From stdpp Require Import base numbers list option.
From S2P Require Import Prelude.

Local Open Scope Z_scope.

Definition MO_8 : Z := 0.
Definition MO_128 : Z := 4.
Definition MO_SIZE : Z := 7.
Definition MO_SIGN : Z := 8.
Definition MO_SSIZE : Z := 15.
Definition MO_BSWAP : Z := 16.
Definition MO_ASHIFT : Z := 5.
Definition MO_UNALN : Z := 0.
Definition MO_AMASK : Z := 7 * 2 ^ 5.
Definition MO_ALIGN : Z := MO_AMASK.
Definition MO_ATOM_IFALIGN : Z := 0.
Definition MO_ATOM_IFALIGN_PAIR : Z := 1 * 2 ^ 8.
Definition MO_ATOM_WITHIN16 : Z := 2 * 2 ^ 8.
Definition MO_ATOM_WITHIN16_PAIR : Z := 3 * 2 ^ 8.
Definition MO_ATOM_SUBALIGN : Z := 4 * 2 ^ 8.
Definition MO_ATOM_NONE : Z := 5 * 2 ^ 8.
Definition MO_ATOM_MASK : Z := 7 * 2 ^ 8.

(** get_memop and get_mmuidx of include/exec/memopidx.h. *)
Definition get_memop (oi : Z) : Z := Z.shiftr oi 4.
Definition get_mmuidx (oi : Z) : Z := Z.land oi 15.

Definition get_alignment_bits (memop : Z) : Z :=
  let a := Z.land memop MO_AMASK in
  if a =? MO_UNALN then 0
  else if a =? MO_ALIGN then Z.land memop MO_SIZE
  else Z.shiftr a MO_ASHIFT.

(** The atomicity and the alignment; [None] for an atomicity that does not
    exist. *)
Definition atom_and_align_for_opc (opc host_atom : Z) (allow_two_ops : bool) : option (Z * Z) :=
  let align := get_alignment_bits opc in
  let size := Z.land opc MO_SIZE in
  let half := if size =? 0 then 0 else size - 1 in
  let atom := Z.land opc MO_ATOM_MASK in
  if atom =? MO_ATOM_NONE then Some (MO_8, align)
  else if atom =? MO_ATOM_IFALIGN then Some (size, align)
  else if atom =? MO_ATOM_IFALIGN_PAIR then Some (half, align)
  else if atom =? MO_ATOM_WITHIN16 then
    if size =? MO_128 then Some (size, align)
    else if host_atom =? MO_ATOM_WITHIN16 then Some (size, align)
    else Some (size, Z.max align size)
  else if atom =? MO_ATOM_WITHIN16_PAIR then
    if negb (host_atom =? MO_ATOM_WITHIN16) && allow_two_ops then Some (size, Z.max align half)
    else Some (size, align)
  else if atom =? MO_ATOM_SUBALIGN then
    if host_atom =? MO_ATOM_SUBALIGN then Some (size, align)
    else if allow_two_ops then Some (size, Z.max align half)
    else Some (size, Z.max align size)
  else None.
