(* ===== verification/TciCode.v ===== *)
(** * The words of the interpreter's bytecode

    The wasm32 backend writes every op twice: as WebAssembly and as a 32-bit
    word for the interpreter of tcg/wasm32.c.  This file has the layouts of
    those words: the encoders [tcg_tci_out_op_*] of tcg/wasm32/tcg-target.c.inc
    and the decoders [tci_args_*] of tcg/wasm32.c, and a lemma per layout that
    decoding inverts encoding.  The little-endian memory that holds
    the words is the one of [TcgSem]. *)

From Stdlib Require Import ZArith Lia Bool.
From stdpp Require Import base numbers functions list option.
From S2P Require Import Prelude.
From S2P Require Import Bytes.
From S2P Require Import Bitops.
From S2P Require Import TcgCond.
From S2P Require Import TcgOpc.
From S2P Require Import TcgCtx.
From S2P Require Import TcgSem.

Local Open Scope Z_scope.

(** ** Opcode numbers

    The position of an opcode in include/tcg/tcg-opc.h. *)

Definition op_index (o : TCGOpcode) : Z :=
  match o with
  | INDEX_op_discard => 0 | INDEX_op_set_label => 1 | INDEX_op_call => 2 | INDEX_op_br => 3
  | INDEX_op_mb => 4 | INDEX_op_mov_i32 => 5 | INDEX_op_setcond_i32 => 6
  | INDEX_op_negsetcond_i32 => 7 | INDEX_op_movcond_i32 => 8 | INDEX_op_ld8u_i32 => 9
  | INDEX_op_ld8s_i32 => 10 | INDEX_op_ld16u_i32 => 11 | INDEX_op_ld16s_i32 => 12
  | INDEX_op_ld_i32 => 13 | INDEX_op_st8_i32 => 14 | INDEX_op_st16_i32 => 15
  | INDEX_op_st_i32 => 16 | INDEX_op_add_i32 => 17 | INDEX_op_sub_i32 => 18
  | INDEX_op_mul_i32 => 19 | INDEX_op_div_i32 => 20 | INDEX_op_divu_i32 => 21
  | INDEX_op_rem_i32 => 22 | INDEX_op_remu_i32 => 23 | INDEX_op_div2_i32 => 24
  | INDEX_op_divu2_i32 => 25 | INDEX_op_and_i32 => 26 | INDEX_op_or_i32 => 27
  | INDEX_op_xor_i32 => 28 | INDEX_op_shl_i32 => 29 | INDEX_op_shr_i32 => 30
  | INDEX_op_sar_i32 => 31 | INDEX_op_rotl_i32 => 32 | INDEX_op_rotr_i32 => 33
  | INDEX_op_deposit_i32 => 34 | INDEX_op_extract_i32 => 35 | INDEX_op_sextract_i32 => 36
  | INDEX_op_extract2_i32 => 37 | INDEX_op_brcond_i32 => 38 | INDEX_op_add2_i32 => 39
  | INDEX_op_sub2_i32 => 40 | INDEX_op_mulu2_i32 => 41 | INDEX_op_muls2_i32 => 42
  | INDEX_op_muluh_i32 => 43 | INDEX_op_mulsh_i32 => 44 | INDEX_op_brcond2_i32 => 45
  | INDEX_op_setcond2_i32 => 46 | INDEX_op_ext8s_i32 => 47 | INDEX_op_ext16s_i32 => 48
  | INDEX_op_ext8u_i32 => 49 | INDEX_op_ext16u_i32 => 50 | INDEX_op_bswap16_i32 => 51
  | INDEX_op_bswap32_i32 => 52 | INDEX_op_not_i32 => 53 | INDEX_op_neg_i32 => 54
  | INDEX_op_andc_i32 => 55 | INDEX_op_orc_i32 => 56 | INDEX_op_eqv_i32 => 57
  | INDEX_op_nand_i32 => 58 | INDEX_op_nor_i32 => 59 | INDEX_op_clz_i32 => 60
  | INDEX_op_ctz_i32 => 61 | INDEX_op_ctpop_i32 => 62 | INDEX_op_mov_i64 => 63
  | INDEX_op_setcond_i64 => 64 | INDEX_op_negsetcond_i64 => 65 | INDEX_op_movcond_i64 => 66
  | INDEX_op_ld8u_i64 => 67 | INDEX_op_ld8s_i64 => 68 | INDEX_op_ld16u_i64 => 69
  | INDEX_op_ld16s_i64 => 70 | INDEX_op_ld32u_i64 => 71 | INDEX_op_ld32s_i64 => 72
  | INDEX_op_ld_i64 => 73 | INDEX_op_st8_i64 => 74 | INDEX_op_st16_i64 => 75
  | INDEX_op_st32_i64 => 76 | INDEX_op_st_i64 => 77 | INDEX_op_add_i64 => 78
  | INDEX_op_sub_i64 => 79 | INDEX_op_mul_i64 => 80 | INDEX_op_div_i64 => 81
  | INDEX_op_divu_i64 => 82 | INDEX_op_rem_i64 => 83 | INDEX_op_remu_i64 => 84
  | INDEX_op_div2_i64 => 85 | INDEX_op_divu2_i64 => 86 | INDEX_op_and_i64 => 87
  | INDEX_op_or_i64 => 88 | INDEX_op_xor_i64 => 89 | INDEX_op_shl_i64 => 90
  | INDEX_op_shr_i64 => 91 | INDEX_op_sar_i64 => 92 | INDEX_op_rotl_i64 => 93
  | INDEX_op_rotr_i64 => 94 | INDEX_op_deposit_i64 => 95 | INDEX_op_extract_i64 => 96
  | INDEX_op_sextract_i64 => 97 | INDEX_op_extract2_i64 => 98 | INDEX_op_ext_i32_i64 => 99
  | INDEX_op_extu_i32_i64 => 100 | INDEX_op_extrl_i64_i32 => 101 | INDEX_op_extrh_i64_i32 => 102
  | INDEX_op_brcond_i64 => 103 | INDEX_op_ext8s_i64 => 104 | INDEX_op_ext16s_i64 => 105
  | INDEX_op_ext32s_i64 => 106 | INDEX_op_ext8u_i64 => 107 | INDEX_op_ext16u_i64 => 108
  | INDEX_op_ext32u_i64 => 109 | INDEX_op_bswap16_i64 => 110 | INDEX_op_bswap32_i64 => 111
  | INDEX_op_bswap64_i64 => 112 | INDEX_op_not_i64 => 113 | INDEX_op_neg_i64 => 114
  | INDEX_op_andc_i64 => 115 | INDEX_op_orc_i64 => 116 | INDEX_op_eqv_i64 => 117
  | INDEX_op_nand_i64 => 118 | INDEX_op_nor_i64 => 119 | INDEX_op_clz_i64 => 120
  | INDEX_op_ctz_i64 => 121 | INDEX_op_ctpop_i64 => 122 | INDEX_op_add2_i64 => 123
  | INDEX_op_sub2_i64 => 124 | INDEX_op_mulu2_i64 => 125 | INDEX_op_muls2_i64 => 126
  | INDEX_op_muluh_i64 => 127 | INDEX_op_mulsh_i64 => 128 | INDEX_op_insn_start => 129
  | INDEX_op_exit_tb => 130 | INDEX_op_goto_tb => 131 | INDEX_op_goto_ptr => 132
  | INDEX_op_plugin_cb_start => 133 | INDEX_op_plugin_cb_end => 134
  | INDEX_op_qemu_ld_a32_i32 => 135 | INDEX_op_qemu_st_a32_i32 => 136
  | INDEX_op_qemu_ld_a32_i64 => 137 | INDEX_op_qemu_st_a32_i64 => 138
  | INDEX_op_qemu_ld_a64_i32 => 139 | INDEX_op_qemu_st_a64_i32 => 140
  | INDEX_op_qemu_ld_a64_i64 => 141 | INDEX_op_qemu_st_a64_i64 => 142
  | INDEX_op_qemu_st8_a32_i32 => 143 | INDEX_op_qemu_st8_a64_i32 => 144
  | INDEX_op_qemu_ld_a32_i128 => 145 | INDEX_op_qemu_ld_a64_i128 => 146
  | INDEX_op_qemu_st_a32_i128 => 147 | INDEX_op_qemu_st_a64_i128 => 148 | INDEX_op_mov_vec => 149
  | INDEX_op_dup_vec => 150 | INDEX_op_dup2_vec => 151 | INDEX_op_ld_vec => 152
  | INDEX_op_st_vec => 153 | INDEX_op_dupm_vec => 154 | INDEX_op_add_vec => 155
  | INDEX_op_sub_vec => 156 | INDEX_op_mul_vec => 157 | INDEX_op_neg_vec => 158
  | INDEX_op_abs_vec => 159 | INDEX_op_ssadd_vec => 160 | INDEX_op_usadd_vec => 161
  | INDEX_op_sssub_vec => 162 | INDEX_op_ussub_vec => 163 | INDEX_op_smin_vec => 164
  | INDEX_op_umin_vec => 165 | INDEX_op_smax_vec => 166 | INDEX_op_umax_vec => 167
  | INDEX_op_and_vec => 168 | INDEX_op_or_vec => 169 | INDEX_op_xor_vec => 170
  | INDEX_op_andc_vec => 171 | INDEX_op_orc_vec => 172 | INDEX_op_nand_vec => 173
  | INDEX_op_nor_vec => 174 | INDEX_op_eqv_vec => 175 | INDEX_op_not_vec => 176
  | INDEX_op_shli_vec => 177 | INDEX_op_shri_vec => 178 | INDEX_op_sari_vec => 179
  | INDEX_op_rotli_vec => 180 | INDEX_op_shls_vec => 181 | INDEX_op_shrs_vec => 182
  | INDEX_op_sars_vec => 183 | INDEX_op_rotls_vec => 184 | INDEX_op_shlv_vec => 185
  | INDEX_op_shrv_vec => 186 | INDEX_op_sarv_vec => 187 | INDEX_op_rotlv_vec => 188
  | INDEX_op_rotrv_vec => 189 | INDEX_op_cmp_vec => 190 | INDEX_op_bitsel_vec => 191
  | INDEX_op_cmpsel_vec => 192 | INDEX_op_last_generic => 193 | INDEX_op_tci_movi => 194
  | INDEX_op_tci_movl => 195  end.

Definition all_opcodes : list TCGOpcode :=
  [
   INDEX_op_discard; INDEX_op_set_label; INDEX_op_call; INDEX_op_br; INDEX_op_mb;
   INDEX_op_mov_i32; INDEX_op_setcond_i32; INDEX_op_negsetcond_i32; INDEX_op_movcond_i32;
   INDEX_op_ld8u_i32; INDEX_op_ld8s_i32; INDEX_op_ld16u_i32; INDEX_op_ld16s_i32; INDEX_op_ld_i32;
   INDEX_op_st8_i32; INDEX_op_st16_i32; INDEX_op_st_i32; INDEX_op_add_i32; INDEX_op_sub_i32;
   INDEX_op_mul_i32; INDEX_op_div_i32; INDEX_op_divu_i32; INDEX_op_rem_i32; INDEX_op_remu_i32;
   INDEX_op_div2_i32; INDEX_op_divu2_i32; INDEX_op_and_i32; INDEX_op_or_i32; INDEX_op_xor_i32;
   INDEX_op_shl_i32; INDEX_op_shr_i32; INDEX_op_sar_i32; INDEX_op_rotl_i32; INDEX_op_rotr_i32;
   INDEX_op_deposit_i32; INDEX_op_extract_i32; INDEX_op_sextract_i32; INDEX_op_extract2_i32;
   INDEX_op_brcond_i32; INDEX_op_add2_i32; INDEX_op_sub2_i32; INDEX_op_mulu2_i32;
   INDEX_op_muls2_i32; INDEX_op_muluh_i32; INDEX_op_mulsh_i32; INDEX_op_brcond2_i32;
   INDEX_op_setcond2_i32; INDEX_op_ext8s_i32; INDEX_op_ext16s_i32; INDEX_op_ext8u_i32;
   INDEX_op_ext16u_i32; INDEX_op_bswap16_i32; INDEX_op_bswap32_i32; INDEX_op_not_i32;
   INDEX_op_neg_i32; INDEX_op_andc_i32; INDEX_op_orc_i32; INDEX_op_eqv_i32; INDEX_op_nand_i32;
   INDEX_op_nor_i32; INDEX_op_clz_i32; INDEX_op_ctz_i32; INDEX_op_ctpop_i32; INDEX_op_mov_i64;
   INDEX_op_setcond_i64; INDEX_op_negsetcond_i64; INDEX_op_movcond_i64; INDEX_op_ld8u_i64;
   INDEX_op_ld8s_i64; INDEX_op_ld16u_i64; INDEX_op_ld16s_i64; INDEX_op_ld32u_i64;
   INDEX_op_ld32s_i64; INDEX_op_ld_i64; INDEX_op_st8_i64; INDEX_op_st16_i64; INDEX_op_st32_i64;
   INDEX_op_st_i64; INDEX_op_add_i64; INDEX_op_sub_i64; INDEX_op_mul_i64; INDEX_op_div_i64;
   INDEX_op_divu_i64; INDEX_op_rem_i64; INDEX_op_remu_i64; INDEX_op_div2_i64; INDEX_op_divu2_i64;
   INDEX_op_and_i64; INDEX_op_or_i64; INDEX_op_xor_i64; INDEX_op_shl_i64; INDEX_op_shr_i64;
   INDEX_op_sar_i64; INDEX_op_rotl_i64; INDEX_op_rotr_i64; INDEX_op_deposit_i64;
   INDEX_op_extract_i64; INDEX_op_sextract_i64; INDEX_op_extract2_i64; INDEX_op_ext_i32_i64;
   INDEX_op_extu_i32_i64; INDEX_op_extrl_i64_i32; INDEX_op_extrh_i64_i32; INDEX_op_brcond_i64;
   INDEX_op_ext8s_i64; INDEX_op_ext16s_i64; INDEX_op_ext32s_i64; INDEX_op_ext8u_i64;
   INDEX_op_ext16u_i64; INDEX_op_ext32u_i64; INDEX_op_bswap16_i64; INDEX_op_bswap32_i64;
   INDEX_op_bswap64_i64; INDEX_op_not_i64; INDEX_op_neg_i64; INDEX_op_andc_i64; INDEX_op_orc_i64;
   INDEX_op_eqv_i64; INDEX_op_nand_i64; INDEX_op_nor_i64; INDEX_op_clz_i64; INDEX_op_ctz_i64;
   INDEX_op_ctpop_i64; INDEX_op_add2_i64; INDEX_op_sub2_i64; INDEX_op_mulu2_i64;
   INDEX_op_muls2_i64; INDEX_op_muluh_i64; INDEX_op_mulsh_i64; INDEX_op_insn_start;
   INDEX_op_exit_tb; INDEX_op_goto_tb; INDEX_op_goto_ptr; INDEX_op_plugin_cb_start;
   INDEX_op_plugin_cb_end; INDEX_op_qemu_ld_a32_i32; INDEX_op_qemu_st_a32_i32;
   INDEX_op_qemu_ld_a32_i64; INDEX_op_qemu_st_a32_i64; INDEX_op_qemu_ld_a64_i32;
   INDEX_op_qemu_st_a64_i32; INDEX_op_qemu_ld_a64_i64; INDEX_op_qemu_st_a64_i64;
   INDEX_op_qemu_st8_a32_i32; INDEX_op_qemu_st8_a64_i32; INDEX_op_qemu_ld_a32_i128;
   INDEX_op_qemu_ld_a64_i128; INDEX_op_qemu_st_a32_i128; INDEX_op_qemu_st_a64_i128;
   INDEX_op_mov_vec; INDEX_op_dup_vec; INDEX_op_dup2_vec; INDEX_op_ld_vec; INDEX_op_st_vec;
   INDEX_op_dupm_vec; INDEX_op_add_vec; INDEX_op_sub_vec; INDEX_op_mul_vec; INDEX_op_neg_vec;
   INDEX_op_abs_vec; INDEX_op_ssadd_vec; INDEX_op_usadd_vec; INDEX_op_sssub_vec;
   INDEX_op_ussub_vec; INDEX_op_smin_vec; INDEX_op_umin_vec; INDEX_op_smax_vec;
   INDEX_op_umax_vec; INDEX_op_and_vec; INDEX_op_or_vec; INDEX_op_xor_vec; INDEX_op_andc_vec;
   INDEX_op_orc_vec; INDEX_op_nand_vec; INDEX_op_nor_vec; INDEX_op_eqv_vec; INDEX_op_not_vec;
   INDEX_op_shli_vec; INDEX_op_shri_vec; INDEX_op_sari_vec; INDEX_op_rotli_vec;
   INDEX_op_shls_vec; INDEX_op_shrs_vec; INDEX_op_sars_vec; INDEX_op_rotls_vec;
   INDEX_op_shlv_vec; INDEX_op_shrv_vec; INDEX_op_sarv_vec; INDEX_op_rotlv_vec;
   INDEX_op_rotrv_vec; INDEX_op_cmp_vec; INDEX_op_bitsel_vec; INDEX_op_cmpsel_vec;
   INDEX_op_last_generic; INDEX_op_tci_movi; INDEX_op_tci_movl  ].

Definition op_of_index (n : Z) : option TCGOpcode :=
  if n <? 0 then None else all_opcodes !! Z.to_nat n.

Lemma op_index_range o : 0 <= op_index o < 2 ^ 8.
Proof. destruct o; vm_compute; split; congruence. Qed.

Lemma op_of_index_op_index o : op_of_index (op_index o) = Some o.
Proof. by destruct o. Qed.

(** ** Encoders

    [fields] writes the fields of a word one after the other, as the C code
    does from [insn = 0]. *)

Definition fields (l : list (Z * Z * Z)) : option Z :=
  foldl (fun acc f => insn ← acc; deposit32 insn (f.1.1) (f.1.2) (f.2)) (Some 0) l.

Definition tcg_tci_out_op_r (op : TCGOpcode) (r0 : Z) : option Z :=
  fields [(0, 8, op_index op); (8, 4, r0)].

Definition tcg_tci_out_op_v (op : TCGOpcode) : option Z := Some (uint 8 (op_index op)).

(** [tcg_debug_assert(i1 == sextract32(i1, 0, n))] and the unsigned form. *)
Definition fits_signed (i n : Z) : bool := i =? sextract_w 32 i 0 n.
Definition fits_unsigned (i n : Z) : bool := i =? extract_w 32 i 0 n.

Definition tcg_tci_out_op_ri (op : TCGOpcode) (r0 i1 : Z) : option Z :=
  if fits_signed i1 20 then fields [(0, 8, op_index op); (8, 4, r0); (12, 20, i1)] else None.

Definition tcg_tci_out_op_rr (op : TCGOpcode) (r0 r1 : Z) : option Z :=
  fields [(0, 8, op_index op); (8, 4, r0); (12, 4, r1)].

Definition tcg_tci_out_op_rrm (op : TCGOpcode) (r0 r1 m2 : Z) : option Z :=
  if fits_unsigned m2 16
  then fields [(0, 8, op_index op); (8, 4, r0); (12, 4, r1); (16, 16, m2)] else None.

Definition tcg_tci_out_op_rrr (op : TCGOpcode) (r0 r1 r2 : Z) : option Z :=
  fields [(0, 8, op_index op); (8, 4, r0); (12, 4, r1); (16, 4, r2)].

Definition tcg_tci_out_op_rrs (op : TCGOpcode) (r0 r1 i2 : Z) : option Z :=
  if fits_signed i2 16
  then fields [(0, 8, op_index op); (8, 4, r0); (12, 4, r1); (16, 16, i2)] else None.

Definition tcg_tci_out_op_rrbb (op : TCGOpcode) (r0 r1 b2 b3 : Z) : option Z :=
  if fits_unsigned b2 6 && fits_unsigned b3 6
  then fields [(0, 8, op_index op); (8, 4, r0); (12, 4, r1); (16, 6, b2); (22, 6, b3)] else None.

Definition tcg_tci_out_op_rrrc (op : TCGOpcode) (r0 r1 r2 c3 : Z) : option Z :=
  fields [(0, 8, op_index op); (8, 4, r0); (12, 4, r1); (16, 4, r2); (20, 4, c3)].

Definition tcg_tci_out_op_rrrbb (op : TCGOpcode) (r0 r1 r2 b3 b4 : Z) : option Z :=
  if fits_unsigned b3 6 && fits_unsigned b4 6
  then fields [(0, 8, op_index op); (8, 4, r0); (12, 4, r1); (16, 4, r2); (20, 6, b3); (26, 6, b4)]
  else None.

Definition tcg_tci_out_op_rrrrr (op : TCGOpcode) (r0 r1 r2 r3 r4 : Z) : option Z :=
  fields [(0, 8, op_index op); (8, 4, r0); (12, 4, r1); (16, 4, r2); (20, 4, r3); (24, 4, r4)].

Definition tcg_tci_out_op_rrrr (op : TCGOpcode) (r0 r1 r2 r3 : Z) : option Z :=
  fields [(0, 8, op_index op); (8, 4, r0); (12, 4, r1); (16, 4, r2); (20, 4, r3)].

Definition tcg_tci_out_op_rrrrrc (op : TCGOpcode) (r0 r1 r2 r3 r4 c5 : Z) : option Z :=
  fields [(0, 8, op_index op); (8, 4, r0); (12, 4, r1); (16, 4, r2); (20, 4, r3); (24, 4, r4);
          (28, 4, c5)].

Definition tcg_tci_out_op_rrrrrr (op : TCGOpcode) (r0 r1 r2 r3 r4 r5 : Z) : option Z :=
  fields [(0, 8, op_index op); (8, 4, r0); (12, 4, r1); (16, 4, r2); (20, 4, r3); (24, 4, r4);
          (28, 4, r5)].

(** ** Decoders

    The field positions are constants within the word, so the assertions of
    extract32 and sextract32 hold ([extract32_fld]); [tb_ptr] is the address
    of the following word. *)

Definition fld (insn p n : Z) : Z := extract_w 32 insn p n.
Definition sfld (insn p n : Z) : Z := sextract_w 32 insn p n.

Definition tci_opc (insn : Z) : option TCGOpcode := op_of_index (fld insn 0 8).

Definition tci_args_l (insn tb_ptr : Z) : Z :=
  let diff := sfld insn 12 20 in if diff =? 0 then 0 else uint 32 (tb_ptr + diff).
Definition tci_args_r (insn : Z) : Z := fld insn 8 4.
Definition tci_args_nl (insn tb_ptr : Z) : Z * Z := (fld insn 8 4, uint 32 (sfld insn 12 20 + tb_ptr)).
Definition tci_args_rl (insn tb_ptr : Z) : Z * Z := (fld insn 8 4, uint 32 (sfld insn 12 20 + tb_ptr)).
Definition tci_args_rr (insn : Z) : Z * Z := (fld insn 8 4, fld insn 12 4).
Definition tci_args_ri (insn : Z) : Z * Z := (fld insn 8 4, uint 64 (sfld insn 12 20)).
Definition tci_args_rrr (insn : Z) : Z * Z * Z := (fld insn 8 4, fld insn 12 4, fld insn 16 4).
Definition tci_args_rrs (insn : Z) : Z * Z * Z := (fld insn 8 4, fld insn 12 4, sfld insn 16 16).
Definition tci_args_rrbb (insn : Z) : Z * Z * Z * Z :=
  (fld insn 8 4, fld insn 12 4, fld insn 16 6, fld insn 22 6).
Definition tci_args_rrrc (insn : Z) : Z * Z * Z * Z :=
  (fld insn 8 4, fld insn 12 4, fld insn 16 4, fld insn 20 4).
Definition tci_args_rrrbb (insn : Z) : Z * Z * Z * Z * Z :=
  (fld insn 8 4, fld insn 12 4, fld insn 16 4, fld insn 20 6, fld insn 26 6).
Definition tci_args_rrrrr (insn : Z) : Z * Z * Z * Z * Z :=
  (fld insn 8 4, fld insn 12 4, fld insn 16 4, fld insn 20 4, fld insn 24 4).
Definition tci_args_rrrr (insn : Z) : Z * Z * Z * Z :=
  (fld insn 8 4, fld insn 12 4, fld insn 16 4, fld insn 20 4).
Definition tci_args_rrrrrc (insn : Z) : Z * Z * Z * Z * Z * Z :=
  (fld insn 8 4, fld insn 12 4, fld insn 16 4, fld insn 20 4, fld insn 24 4, fld insn 28 4).
Definition tci_args_rrrrrr (insn : Z) : Z * Z * Z * Z * Z * Z :=
  (fld insn 8 4, fld insn 12 4, fld insn 16 4, fld insn 20 4, fld insn 24 4, fld insn 28 4).

Lemma extract32_fld insn p n : field_ok 32 p n = true -> extract32 insn p n = Some (fld insn p n).
Proof. unfold extract32. by intros ->. Qed.

Lemma sextract32_sfld insn p n : field_ok 32 p n = true -> sextract32 insn p n = Some (sfld insn p n).
Proof. unfold sextract32. by intros ->. Qed.

(** ** Decoding inverts encoding *)

Definition put (x : Z) (l : list (Z * Z * Z)) : Z :=
  foldl (fun x f => deposit_w 32 x (f.1.1) (f.1.2) (f.2)) x l.

Definition fields_ok (l : list (Z * Z * Z)) : bool :=
  forallb (fun f => field_ok 32 (f.1.1) (f.1.2)) l.

Definition disjoint_from (p n : Z) (l : list (Z * Z * Z)) : bool :=
  forallb (fun f => (p + n <=? f.1.1) || (f.1.1 + f.1.2 <=? p)) l.

(** What was written last at the field of length [n] at [p], when nothing
    else overlaps it. *)
Fixpoint written (l : list (Z * Z * Z)) (p n : Z) : option Z :=
  match l with
  | [] => None
  | f :: l' =>
      if (f.1.1 =? p) && (f.1.2 =? n) && disjoint_from p n l' then Some f.2 else written l' p n
  end.

Lemma fields_put l : fields_ok l = true -> fields l = Some (put 0 l).
Proof.
  unfold fields, put. generalize 0 as x. induction l as [|f l IH]; intros x Hl; [done|].
  cbn in Hl |- *. apply andb_true_iff in Hl as [Hf Hl].
  unfold deposit32 at 2. rewrite Hf. by apply IH.
Qed.

(** A statement about one bit of a field is a statement about the field. *)
Lemma put_bit l x p n i :
  fields_ok l = true -> disjoint_from p n l = true -> 0 <= p -> p + n <= 32 -> 0 <= i < n ->
  Z.testbit (put x l) (i + p) = Z.testbit x (i + p).
Proof.
  unfold put. revert x. induction l as [|f l IH]; intros x Hl Hd Hp Hn Hi; [done|].
  cbn in Hl, Hd. apply andb_true_iff in Hl as [(?&?&?)%field_ok_true Hl].
  apply andb_true_iff in Hd as [Hf Hd]. apply orb_true_iff in Hf.
  cbn [foldl]. rewrite IH by done. rewrite deposit_w_testbit by lia.
  destruct (Z.ltb_spec (i + p) 32); [|lia].
  destruct (Z.leb_spec (f.1.1) (i + p)), (Z.ltb_spec (i + p) (f.1.1 + f.1.2)); cbn; try done; lia.
Qed.

Lemma written_bit l x p n v i :
  fields_ok l = true -> written l p n = Some v -> 0 <= i < n ->
  Z.testbit (put x l) (i + p) = Z.testbit v i.
Proof.
  unfold put. revert x. induction l as [|[[p' n'] v'] l IH]; intros x Hl Hw Hi; [done|].
  cbn in Hl, Hw. apply andb_true_iff in Hl as [(?&?&?)%field_ok_true Hl].
  destruct ((p' =? p) && (n' =? n) && disjoint_from p n l) eqn:E; [|by apply IH].
  rewrite !andb_true_iff, !Z.eqb_eq in E. destruct E as [[-> ->] Hd]. simplify_eq.
  cbn [foldl fst snd]. pose proof (put_bit l (deposit_w 32 x p n v) p n i) as Hb.
  unfold put in Hb. rewrite Hb by (done || lia). rewrite deposit_w_testbit by lia.
  destruct (Z.leb_spec p (i + p)), (Z.ltb_spec (i + p) (p + n)); try lia. cbn. f_equal. lia.
Qed.

Lemma written_ok l p n v :
  fields_ok l = true -> written l p n = Some v -> 0 <= p /\ 0 < n /\ p + n <= 32.
Proof.
  induction l as [|[[p' n'] v'] l IH]; intros Hl Hw; [done|].
  cbn in Hl, Hw. apply andb_true_iff in Hl as [(?&?&?)%field_ok_true Hl].
  destruct ((p' =? p) && (n' =? n) && disjoint_from p n l) eqn:E; [|by apply IH].
  rewrite !andb_true_iff, !Z.eqb_eq in E. lia.
Qed.

Lemma fld_written l x p n v :
  fields_ok l = true -> written l p n = Some v -> fld (put x l) p n = uint n v.
Proof.
  intros Hl Hw. destruct (written_ok l p n v Hl Hw) as (?&?&?).
  unfold fld. apply Z.bits_inj'; intros i Hi. rewrite extract_w_testbit, uint_testbit by lia.
  destruct (Z.ltb_spec i n); [|done]. cbn. by apply (written_bit l x p n v).
Qed.

Lemma sfld_written l x p n v :
  fields_ok l = true -> written l p n = Some v -> sfld (put x l) p n = sint n v.
Proof.
  intros Hl Hw. destruct (written_ok l p n v Hl Hw) as (?&?&?).
  unfold sfld. apply Z.bits_inj'; intros i Hi. rewrite sextract_w_testbit, sint_testbit by lia.
  apply (written_bit l x p n v); [done | done | destruct (Z.ltb_spec i n); lia].
Qed.

Lemma put_range l x : fields_ok l = true -> 0 <= x < 2 ^ 32 -> 0 <= put x l < 2 ^ 32.
Proof.
  unfold put. revert x. induction l as [|f l IH]; intros x Hl Hx; [done|]. cbn in Hl |- *.
  apply andb_true_iff in Hl as [(?&?&?)%field_ok_true Hl]. apply IH; [done|].
  by apply deposit_w_range.
Qed.

Lemma fits_signed_spec i n : 0 < n <= 32 -> fits_signed i n = true <-> - 2 ^ (n - 1) <= i < 2 ^ (n - 1).
Proof.
  intros Hn. unfold fits_signed. rewrite sextract_w_sint, Z.shiftr_0_r, Z.eqb_eq by lia. split.
  - intros ->. apply sint_range. lia.
  - intros. by rewrite sint_small by lia.
Qed.

Lemma fits_unsigned_spec i n : 0 < n <= 32 -> fits_unsigned i n = true <-> 0 <= i < 2 ^ n.
Proof.
  intros Hn. unfold fits_unsigned. rewrite extract_w_uint, Z.shiftr_0_r, Z.eqb_eq by lia. split.
  - intros ->. apply uint_range. lia.
  - intros. by rewrite uint_small.
Qed.

(** [e] is the word of [op], and [d] reads the operands [a] back from it. *)
Definition encodes {A} (e : option Z) (op : TCGOpcode) (d : Z -> A) (a : A) : Prop :=
  exists insn, e = Some insn /\ 0 <= insn < 2 ^ 32 /\ tci_opc insn = Some op /\ d insn = a.

Lemma encodes_fields {A} l op (d : Z -> A) a :
  fields_ok l = true -> written l 0 8 = Some (op_index op) -> d (put 0 l) = a ->
  encodes (fields l) op d a.
Proof.
  intros Hl Hop Hd. exists (put 0 l). rewrite fields_put by done. refine (conj eq_refl (conj _ (conj _ Hd))).
  - apply put_range; [done | lia].
  - unfold tci_opc. rewrite (fld_written l 0 0 8 (op_index op)) by done.
    rewrite uint_small by apply op_index_range. apply op_of_index_op_index.
Qed.

(** Evaluates the decoder of a word made of fields. *)
Ltac read_fields :=
  repeat match goal with
  | |- context [fld (put ?x ?l) ?p ?n] =>
      erewrite (fld_written l x p n) by reflexivity
  | |- context [sfld (put ?x ?l) ?p ?n] =>
      erewrite (sfld_written l x p n) by reflexivity
  end.

(** A register number, which has four bits. *)
Definition is_reg (r : Z) : bool := (0 <=? r) && (r <? 16).

Lemma uint4_reg r : is_reg r = true -> uint 4 r = r.
Proof. unfold is_reg. rewrite andb_true_iff, Z.leb_le, Z.ltb_lt. intros. apply uint_small. lia. Qed.

Ltac encode_word :=
  apply encodes_fields; [reflexivity | reflexivity |];
  cbv beta delta
    [tci_args_r tci_args_rr tci_args_rrr tci_args_rrrr tci_args_rrrrr tci_args_rrrrrr tci_args_rrrc
     tci_args_rrrrrc tci_args_ri tci_args_rrs tci_args_rrbb tci_args_rrrbb];
  read_fields; cbn [fst snd]; rewrite ?uint4_reg by done.

Create HintDb tci.

Section Words.
Variables (op : TCGOpcode) (r0 r1 r2 r3 r4 r5 : Z).
Hypothesis H0 : is_reg r0 = true.
Hypothesis H1 : is_reg r1 = true.
Hypothesis H2 : is_reg r2 = true.
Hypothesis H3 : is_reg r3 = true.
Hypothesis H4 : is_reg r4 = true.
Hypothesis H5 : is_reg r5 = true.

Lemma encodes_r : encodes (tcg_tci_out_op_r op r0) op tci_args_r r0.
Proof using H0. by encode_word. Qed.
Lemma encodes_rr : encodes (tcg_tci_out_op_rr op r0 r1) op tci_args_rr (r0, r1).
Proof using H0 H1. by encode_word. Qed.
Lemma encodes_rrr : encodes (tcg_tci_out_op_rrr op r0 r1 r2) op tci_args_rrr (r0, r1, r2).
Proof using H0 H1 H2. by encode_word. Qed.
Lemma encodes_rrrr : encodes (tcg_tci_out_op_rrrr op r0 r1 r2 r3) op tci_args_rrrr (r0, r1, r2, r3).
Proof using H0 H1 H2 H3. by encode_word. Qed.
Lemma encodes_rrrrr :
  encodes (tcg_tci_out_op_rrrrr op r0 r1 r2 r3 r4) op tci_args_rrrrr (r0, r1, r2, r3, r4).
Proof using H0 H1 H2 H3 H4. by encode_word. Qed.
Lemma encodes_rrrrrr :
  encodes (tcg_tci_out_op_rrrrrr op r0 r1 r2 r3 r4 r5) op tci_args_rrrrrr (r0, r1, r2, r3, r4, r5).
Proof using H0 H1 H2 H3 H4 H5. by encode_word. Qed.

(** A condition has four bits, as a register has. *)
Lemma encodes_rrrc c :
  is_reg c = true -> encodes (tcg_tci_out_op_rrrc op r0 r1 r2 c) op tci_args_rrrc (r0, r1, r2, c).
Proof using H0 H1 H2. intros. by encode_word. Qed.
Lemma encodes_rrrrrc c :
  is_reg c = true ->
  encodes (tcg_tci_out_op_rrrrrc op r0 r1 r2 r3 r4 c) op tci_args_rrrrrc (r0, r1, r2, r3, r4, c).
Proof using H0 H1 H2 H3 H4. intros. by encode_word. Qed.

Lemma encodes_ri i :
  - 2 ^ 19 <= i < 2 ^ 19 -> encodes (tcg_tci_out_op_ri op r0 i) op tci_args_ri (r0, uint 64 i).
Proof using H0.
  intros Hi. unfold tcg_tci_out_op_ri. rewrite (proj2 (fits_signed_spec i 20 ltac:(lia))) by done.
  encode_word. by rewrite (sint_small 20 i ltac:(lia) Hi).
Qed.
Lemma encodes_rrs i :
  - 2 ^ 15 <= i < 2 ^ 15 -> encodes (tcg_tci_out_op_rrs op r0 r1 i) op tci_args_rrs (r0, r1, i).
Proof using H0 H1.
  intros Hi. unfold tcg_tci_out_op_rrs. rewrite (proj2 (fits_signed_spec i 16 ltac:(lia))) by done.
  encode_word. by rewrite (sint_small 16 i ltac:(lia) Hi).
Qed.
Lemma encodes_rrbb p n :
  0 <= p < 2 ^ 6 -> 0 <= n < 2 ^ 6 ->
  encodes (tcg_tci_out_op_rrbb op r0 r1 p n) op tci_args_rrbb (r0, r1, p, n).
Proof using H0 H1.
  intros Hp Hn. unfold tcg_tci_out_op_rrbb. rewrite !(proj2 (fits_unsigned_spec _ 6 ltac:(lia))) by done.
  cbn [andb]. encode_word. by rewrite !(uint_small 6) by lia.
Qed.
Lemma encodes_rrrbb p n :
  0 <= p < 2 ^ 6 -> 0 <= n < 2 ^ 6 ->
  encodes (tcg_tci_out_op_rrrbb op r0 r1 r2 p n) op tci_args_rrrbb (r0, r1, r2, p, n).
Proof using H0 H1 H2.
  intros Hp Hn. unfold tcg_tci_out_op_rrrbb. rewrite !(proj2 (fits_unsigned_spec _ 6 ltac:(lia))) by done.
  cbn [andb]. encode_word. by rewrite !(uint_small 6) by lia.
Qed.
End Words.

#[export] Hint Resolve
  encodes_r encodes_rr encodes_rrr encodes_rrrr encodes_rrrrr encodes_rrrrrr encodes_rrrc
  encodes_rrrrrc encodes_ri encodes_rrs encodes_rrbb encodes_rrrbb : tci.

Lemma out_of_range_ri op r0 i : ~ (- 2 ^ 19 <= i < 2 ^ 19) -> tcg_tci_out_op_ri op r0 i = None.
Proof.
  intros Hi. unfold tcg_tci_out_op_ri. destruct (fits_signed i 20) eqn:E; [|done].
  by apply fits_signed_spec in E; [|lia].
Qed.

Lemma out_of_range_rrs op r0 r1 i : ~ (- 2 ^ 15 <= i < 2 ^ 15) -> tcg_tci_out_op_rrs op r0 r1 i = None.
Proof.
  intros Hi. unfold tcg_tci_out_op_rrs. destruct (fits_signed i 16) eqn:E; [|done].
  by apply fits_signed_spec in E; [|lia].
Qed.

Lemma out_of_range_bb p n :
  ~ (0 <= p < 2 ^ 6 /\ 0 <= n < 2 ^ 6) -> fits_unsigned p 6 && fits_unsigned n 6 = false.
Proof.
  intros Hpn. apply not_true_iff_false. rewrite andb_true_iff, !fits_unsigned_spec by lia. done.
Qed.
