(* ===== verification/TciOut.v ===== *)
(** * Writing bytecode: the interpreter half of tcg/wasm32/tcg-target.c.inc

    [tci_out] is the part of TCGContext that code emission changes: the code
    buffer in the little-endian host memory, the position in it, the
    relocations against labels and the pending constant pool
    (tcg/tcg-pool.c.inc).  A function of the backend is a computation of the
    monad [Tci]: it returns, raises tcg_raise_tb_overflow ([EOverflow]) or
    fails an assertion ([EAssert]).  [tci_decode_encode] says that the
    interpreter decodes what is written here. *)

From Stdlib Require Import ZArith Lia Bool.
From stdpp Require Import base numbers functions list option.
From S2P Require Import Prelude.
From S2P Require Import Bytes.
From S2P Require Import Bitops.
From S2P Require Import TcgOpc.
From S2P Require Import TcgCtx.
From S2P Require Import TcgSem.
From S2P Require Import TciCode.

Local Open Scope Z_scope.

(** ** Registers of the target *)

Definition TCG_TARGET_NB_REGS : Z := 16.
Definition TCG_REG_R0 : Z := 0.
Definition TCG_REG_R1 : Z := 1.
Definition TCG_REG_R8 : Z := 8.
Definition TCG_REG_R14 : Z := 14.
Definition TCG_REG_TMP : Z := 13.
Definition TCG_AREG0 : Z := 14.
Definition TCG_REG_CALL_STACK : Z := 15.

(** ** State and monad *)

(** An entry of the constant pool: the instruction that refers to it and its
    64-bit words. *)
Record TCGLabelPoolData := {
  pl_label : Z;
  pl_data : list Z;
}.

(** [jmp_target_addr] is the address of gen_tb->jmp_target_addr[which]; a
    relocation is a label and the address of the word that refers to it. *)
Record tci_out := {
  omem : Z -> Z;
  code_buf : Z;
  code_ptr : Z;
  relocs : list (Z * Z);
  pool_labels : list TCGLabelPoolData;
  jmp_target_addr : Z -> Z;
  jmp_reset_offset : Z -> Z;
}.

Inductive emitted (A : Type) :=
| EDone (a : A)
| EOverflow
| EAssert.
Arguments EDone {A} a.
Arguments EOverflow {A}.
Arguments EAssert {A}.

Definition Tci (A : Type) : Type := tci_out -> emitted (A * tci_out).

Definition tci_ret {A} (a : A) : Tci A := fun s => EDone (a, s).
Definition tci_bind {A B} (m : Tci A) (f : A -> Tci B) : Tci B := fun s =>
  match m s with
  | EDone (a, s') => f a s'
  | EOverflow => EOverflow
  | EAssert => EAssert
  end.
Definition tci_assert (b : bool) : Tci unit := fun s => if b then EDone (tt, s) else EAssert.
Definition tci_overflow {A} : Tci A := fun _ => EOverflow.

Declare Scope tci_scope.
Delimit Scope tci_scope with tci.
Notation "x <- m ;; k" := (tci_bind m (fun x => k))
  (at level 100, m at next level, right associativity) : tci_scope.
Notation "m ;; k" := (tci_bind m (fun _ => k)) (at level 100, right associativity) : tci_scope.
Local Open Scope tci_scope.

Definition set_code (s : tci_out) (m : Z -> Z) (p : Z) : tci_out :=
  {| omem := m; code_buf := code_buf s; code_ptr := p; relocs := relocs s;
     pool_labels := pool_labels s; jmp_target_addr := jmp_target_addr s;
     jmp_reset_offset := jmp_reset_offset s |}.
Definition set_relocs (s : tci_out) (l : list (Z * Z)) : tci_out :=
  {| omem := omem s; code_buf := code_buf s; code_ptr := code_ptr s; relocs := l;
     pool_labels := pool_labels s; jmp_target_addr := jmp_target_addr s;
     jmp_reset_offset := jmp_reset_offset s |}.
Definition set_pool (s : tci_out) (l : list TCGLabelPoolData) : tci_out :=
  {| omem := omem s; code_buf := code_buf s; code_ptr := code_ptr s; relocs := relocs s;
     pool_labels := l; jmp_target_addr := jmp_target_addr s;
     jmp_reset_offset := jmp_reset_offset s |}.
Definition set_reset_offset (s : tci_out) (f : Z -> Z) : tci_out :=
  {| omem := omem s; code_buf := code_buf s; code_ptr := code_ptr s; relocs := relocs s;
     pool_labels := pool_labels s; jmp_target_addr := jmp_target_addr s;
     jmp_reset_offset := f |}.

(** ** Words and relocations *)

Definition tcg_out32 (v : Z) : Tci unit := fun s =>
  EDone (tt, set_code s (store_le (omem s) (code_ptr s) v 4) (code_ptr s + 4)).

Definition tcg_tci_out32 (v : Z) : Tci unit := tcg_out32 v.

(** The word of an encoder; its assertions come first. *)
Definition out_word (e : option Z) : Tci unit :=
  match e with Some insn => tcg_tci_out32 insn | None => fun _ => EAssert end.

Definition tcg_out_reloc (ptr l : Z) : Tci unit := fun s =>
  EDone (tt, set_relocs s (relocs s ++ [(l, ptr)])).

Definition cur_tci_ptr : Tci Z := fun s => EDone (code_ptr s, s).

Definition tcg_tci_out_op_l (op : TCGOpcode) (l0 : Z) : Tci unit :=
  p <- cur_tci_ptr ;;
  tcg_out_reloc p l0 ;; out_word (fields [(0, 8, op_index op)]).

Definition tcg_tci_out_op_rl (op : TCGOpcode) (r0 l1 : Z) : Tci unit :=
  p <- cur_tci_ptr ;;
  tcg_out_reloc p l1 ;; out_word (fields [(0, 8, op_index op); (8, 4, r0)]).

(** The distance is a pointer difference: 32 bits, signed. *)
Definition tcg_tci_out_op_p (op : TCGOpcode) (p0 : Z) : Tci unit :=
  p <- cur_tci_ptr ;;
  let diff := if p0 =? 0 then 0 else sint 32 (p0 - (p + 4)) in
  tci_assert ((p0 =? 0) || negb (diff =? 0)) ;;
  if (p0 =? 0) || (diff =? sextract_w 32 diff 0 20)
  then out_word (fields [(0, 8, op_index op); (12, 20, diff)])
  else tci_overflow.

(** ** The constant pool *)

(** memcmp on the bytes of two arrays of 64-bit words of the same length. *)
Fixpoint le_bytes (n : nat) (v : Z) : list Z :=
  match n with O => [] | S n' => uint 8 v :: le_bytes n' (Z.shiftr v 8) end.

Definition word_bytes (l : list Z) : list Z := flat_map (le_bytes 8) l.

Fixpoint memcmp (a b : list Z) : comparison :=
  match a, b with
  | x :: a', y :: b' => match x ?= y with Eq => memcmp a' b' | c => c end
  | _, _ => Eq
  end.

Definition nlong (n : TCGLabelPoolData) : nat := length (pl_data n).

(** Insertion before the first entry that is smaller, or as long and not
    greater. *)
Fixpoint pool_insert (n : TCGLabelPoolData) (l : list TCGLabelPoolData) : list TCGLabelPoolData :=
  match l with
  | [] => [n]
  | i :: l' =>
      if (nlong i <? nlong n)%nat then n :: i :: l'
      else if (nlong n <? nlong i)%nat then i :: pool_insert n l'
      else match memcmp (word_bytes (pl_data n)) (word_bytes (pl_data i)) with
           | Lt => i :: pool_insert n l'
           | _ => n :: i :: l'
           end
  end.

Definition new_pool_insert (n : TCGLabelPoolData) : Tci unit := fun s =>
  EDone (tt, set_pool s (pool_insert n (pool_labels s))).

Definition new_pool_label (d label : Z) : Tci unit :=
  new_pool_insert {| pl_label := label; pl_data := [d] |}.
Definition new_pool_l2 (label d0 d1 : Z) : Tci unit :=
  new_pool_insert {| pl_label := label; pl_data := [d0; d1] |}.
Definition new_pool_l8 (label d0 d1 d2 d3 d4 d5 d6 d7 : Z) : Tci unit :=
  new_pool_insert {| pl_label := label; pl_data := [d0; d1; d2; d3; d4; d5; d6; d7] |}.

(** ** Relocation

    [patch_reloc] for the type 20 of this backend; the result says whether the
    distance fits. *)

Definition patch_reloc (m : Z -> Z) (code value : Z) : bool * (Z -> Z) :=
  let diff := sint 32 (value - (code + 4)) in
  if diff =? sextract_w 32 diff 0 20
  then (true, store_le m code (deposit_w 32 (load_le m code 4) 12 20 diff) 4)
  else (false, m).

(** ** Moves and accesses to the host's memory *)

(** tcg_tci_out_movi: a small constant is an immediate, another one comes from
    the pool; [arg] is a tcg_target_long. *)
Definition tcg_tci_out_movi (ty : TCGType) (ret arg : Z) : Tci unit :=
  match ty with
  | TCG_TYPE_I32 | TCG_TYPE_I64 =>
      let arg := match ty with TCG_TYPE_I32 => sint 32 arg | _ => sint 64 arg end in
      if arg =? sextract_w 32 arg 0 20
      then out_word (tcg_tci_out_op_ri INDEX_op_tci_movi ret arg)
      else
        p <- cur_tci_ptr ;;
        new_pool_label (uint 64 arg) p ;;
        out_word (fields [(0, 8, op_index INDEX_op_tci_movl); (8, 4, ret)])
  | _ => fun _ => EAssert
  end.

(** sizeof(long) is 4 on this host. *)
Definition TCG_STATIC_CALL_ARGS_SIZE : Z := 128.
Definition TCG_STATIC_FRAME_SIZE : Z := 128 * 4.

Definition stack_bounds_check (base offset : Z) : Tci unit :=
  if base =? TCG_REG_CALL_STACK
  then tci_assert (0 <=? offset) ;;
       tci_assert (offset <? TCG_STATIC_CALL_ARGS_SIZE + TCG_STATIC_FRAME_SIZE)
  else tci_ret tt.

(** TCG_TYPE_PTR is TCG_TYPE_I32, the registers have 64 bits. *)
Definition tcg_tci_out_ldst (op : TCGOpcode) (val base offset : Z) : Tci unit :=
  stack_bounds_check base offset ;;
  if offset =? sextract_w 32 offset 0 16
  then out_word (tcg_tci_out_op_rrs op val base offset)
  else
    tcg_tci_out_movi TCG_TYPE_I32 TCG_REG_TMP offset ;;
    out_word (tcg_tci_out_op_rrr INDEX_op_add_i64 TCG_REG_TMP TCG_REG_TMP base) ;;
    out_word (tcg_tci_out_op_rrs op val TCG_REG_TMP 0).

Definition tcg_tci_out_mov (ty : TCGType) (ret arg : Z) : Tci unit :=
  match ty with
  | TCG_TYPE_I32 => out_word (tcg_tci_out_op_rr INDEX_op_mov_i32 ret arg)
  | TCG_TYPE_I64 => out_word (tcg_tci_out_op_rr INDEX_op_mov_i64 ret arg)
  | _ => fun _ => EAssert
  end.

(** ** Extensions: the target has every extension opcode *)

Definition tcg_tci_out_ext8s (ty : TCGType) (rd rs : Z) : Tci unit :=
  match ty with
  | TCG_TYPE_I32 => out_word (tcg_tci_out_op_rr INDEX_op_ext8s_i32 rd rs)
  | TCG_TYPE_I64 => out_word (tcg_tci_out_op_rr INDEX_op_ext8s_i64 rd rs)
  | _ => fun _ => EAssert
  end.
Definition tcg_tci_out_ext8u (rd rs : Z) : Tci unit :=
  out_word (tcg_tci_out_op_rr INDEX_op_ext8u_i64 rd rs).
Definition tcg_tci_out_ext16s (ty : TCGType) (rd rs : Z) : Tci unit :=
  match ty with
  | TCG_TYPE_I32 => out_word (tcg_tci_out_op_rr INDEX_op_ext16s_i32 rd rs)
  | TCG_TYPE_I64 => out_word (tcg_tci_out_op_rr INDEX_op_ext16s_i64 rd rs)
  | _ => fun _ => EAssert
  end.
Definition tcg_tci_out_ext16u (rd rs : Z) : Tci unit :=
  out_word (tcg_tci_out_op_rr INDEX_op_ext16u_i64 rd rs).
Definition tcg_tci_out_ext32s (rd rs : Z) : Tci unit :=
  out_word (tcg_tci_out_op_rr INDEX_op_ext32s_i64 rd rs).
Definition tcg_tci_out_ext32u (rd rs : Z) : Tci unit :=
  out_word (tcg_tci_out_op_rr INDEX_op_ext32u_i64 rd rs).
Definition tcg_tci_out_exts_i32_i64 (rd rs : Z) : Tci unit := tcg_tci_out_ext32s rd rs.
Definition tcg_tci_out_extu_i32_i64 (rd rs : Z) : Tci unit := tcg_tci_out_ext32u rd rs.
Definition tcg_tci_out_extrl_i64_i32 (rd rs : Z) : Tci unit := tcg_tci_out_mov TCG_TYPE_I32 rd rs.

(** ** Calls and exits *)

(** [func] and [cif] are addresses, [rsize] the size of the return type (0 for
    void). *)
Definition tcg_tci_out_call (func cif rsize : Z) : Tci unit :=
  p <- cur_tci_ptr ;;
  let which := if rsize =? 0 then 0 else ctz32 rsize - 1 in
  tci_assert ((rsize =? 0) || (rsize =? 4) || (rsize =? 8) || (rsize =? 16)) ;;
  new_pool_l2 p func cif ;;
  out_word (fields [(0, 8, op_index INDEX_op_call); (8, 4, which)]).

Definition tcg_tci_out_exit_tb (arg : Z) : Tci unit := tcg_tci_out_op_p INDEX_op_exit_tb arg.

Definition get_jmp_target_addr (which : Z) : Tci Z := fun s => EDone (jmp_target_addr s which, s).

(** tcg_current_code_size, stored in 16 bits. *)
Definition set_jmp_reset_offset (which : Z) : Tci unit := fun s =>
  EDone (tt, set_reset_offset s (<[which := uint 16 (code_ptr s - code_buf s)]> (jmp_reset_offset s))).

Definition tcg_tci_out_goto_tb (which : Z) : Tci unit :=
  a <- get_jmp_target_addr which ;;
  tcg_tci_out_op_p INDEX_op_goto_tb a ;;
  set_jmp_reset_offset which.

(** A guest access: its operands and the layout of the TLB go to the pool. *)
Definition tcg_tci_out_qemu_ldst (opc : TCGOpcode) (data addr oi a_mask mask_ofs page_bits page_mask table_ofs : Z)
  : Tci unit :=
  p <- cur_tci_ptr ;;
  new_pool_l8 p data addr oi a_mask (uint 64 mask_ofs) page_bits page_mask (uint 64 table_ofs) ;;
  out_word (fields [(0, 8, op_index opc)]).

(** ** Finalization *)

Fixpoint store_words (m : Z -> Z) (a : Z) (l : list Z) : Z -> Z :=
  match l with [] => m | d :: l' => store_words (store_le m a d 8) (a + 8) l' end.

(** The loop of tcg_out_pool_finalize: [a] is the next free address and [l]
    the data written last; equal consecutive data are shared.  The result is
    the final memory and address, or -1 (buffer full) or -2 (too far). *)
Fixpoint pool_loop (highwater : Z) (m : Z -> Z) (a : Z) (l : option (list Z))
    (p : list TCGLabelPoolData) : (Z -> Z) * Z + Z :=
  match p with
  | [] => inl (m, a)
  | e :: p' =>
      let size := 8 * Z.of_nat (nlong e) in
      let shared := match l with
                    | Some d => (length d =? nlong e)%nat &&
                                match memcmp (word_bytes d) (word_bytes (pl_data e)) with Eq => true | _ => false end
                    | None => false
                    end in
      if shared then
        let (ok, m') := patch_reloc m (pl_label e) (a - size) in
        if ok then pool_loop highwater m' a l p' else inr (-2)
      else if highwater <? a then inr (-1)
      else
        let m1 := store_words m a (pl_data e) in
        let (ok, m') := patch_reloc m1 (pl_label e) (a + size - size) in
        if ok then pool_loop highwater m' (a + size) (Some (pl_data e)) p' else inr (-2)
  end.

(** tcg_out_nop_fill writes zeros; a unit of this target is a byte, and the
    call counts units but the function clears words. *)
Fixpoint fill_zero (m : Z -> Z) (a : Z) (n : nat) : Z -> Z :=
  match n with O => m | S n' => fill_zero (<[a := 0]> m) (a + 1) n' end.

Definition tcg_out_nop_fill (m : Z -> Z) (p count : Z) : Z -> Z :=
  fill_zero m p (Z.to_nat (4 * count)).

Definition round_up (n d : Z) : Z := (n + d - 1) / d * d.

Definition tcg_out_pool_finalize (highwater : Z) (s : tci_out) : tci_out + Z :=
  match pool_labels s with
  | [] => inl s
  | p :: _ =>
      let a := round_up (code_ptr s) (8 * Z.of_nat (nlong p)) in
      let m := tcg_out_nop_fill (omem s) (code_ptr s) (a - code_ptr s) in
      match pool_loop highwater m a None (pool_labels s) with
      | inl (m', a') => inl (set_code s m' a')
      | inr e => inr e
      end
  end.

(** tcg_resolve_relocs, [value] giving the address of each label. *)
Fixpoint resolve_relocs (value : Z -> Z) (m : Z -> Z) (l : list (Z * Z)) : bool * (Z -> Z) :=
  match l with
  | [] => (true, m)
  | (lab, ptr) :: l' =>
      let (ok, m') := patch_reloc m ptr (value lab) in
      if ok then resolve_relocs value m' l' else (false, m')
  end.

(** The labels are visited in the order of their numbers. *)
Definition label_relocs (nb_labels : nat) (l : list (Z * Z)) : list (Z * Z) :=
  flat_map (fun lab => List.filter (fun r => r.1 =? lab) l) (Z.of_nat <$> List.seq 0 nb_labels).

Definition tcg_resolve_relocs (value : Z -> Z) (nb_labels : nat) (s : tci_out) : bool * tci_out :=
  let (ok, m) := resolve_relocs value (omem s) (label_relocs nb_labels (relocs s)) in
  (ok, set_code s m (code_ptr s)).

(** ** Reading the words back *)

(** The word at [a] decodes to [op] and the operands [x]. *)
Definition word_reads {A} (m : Z -> Z) (a : Z) (op : TCGOpcode) (d : Z -> A) (x : A) : Prop :=
  tci_opc (load_le m a 4) = Some op /\ d (load_le m a 4) = x.

Definition emits_word {A} (e : Tci unit) (s : tci_out) (op : TCGOpcode) (d : Z -> A) (x : A) : Prop :=
  exists s', e s = EDone (tt, s') /\ code_ptr s' = code_ptr s + 4 /\ word_reads (omem s') (code_ptr s) op d x.

(** A word with a relocation for label [lab], once [lab] is known to be [v]. *)
Definition emits_label {A} (e : Tci unit) (s : tci_out) (lab v : Z) (op : TCGOpcode) (d : Z -> A) (x : A) : Prop :=
  exists s' m', e s = EDone (tt, s') /\ code_ptr s' = code_ptr s + 4 /\
    relocs s' = relocs s ++ [(lab, code_ptr s)] /\
    patch_reloc (omem s') (code_ptr s) v = (true, m') /\ word_reads m' (code_ptr s) op d x.

(** The distance from the word after [a] to [v], a pointer difference. *)
Definition distance (a v : Z) : Z := sint 32 (v - (a + 4)).

Definition near (d : Z) : Prop := - 2 ^ 19 <= d < 2 ^ 19.

Lemma near_fits d : near d -> (d =? sextract_w 32 d 0 20) = true.
Proof. intros Hd. by apply (fits_signed_spec d 20). Qed.

Lemma far_unfit d : ~ near d -> (d =? sextract_w 32 d 0 20) = false.
Proof. intros Hd. apply not_true_iff_false. intros H. by apply Hd, (fits_signed_spec d 20). Qed.

Lemma distance_back a v : 0 <= v < 2 ^ 32 -> uint 32 (a + 4 + distance a v) = v.
Proof.
  intros Hv. rewrite <- (uint_small 32 v) at 2 by done. change (eqm 32 (a + 4 + distance a v) v).
  unfold distance. rewrite (eqm_sint 32) by lia. by replace (a + 4 + (v - (a + 4))) with v by lia.
Qed.

Lemma out_fields l s :
  fields_ok l = true ->
  out_word (fields l) s =
    EDone (tt, set_code s (store_le (omem s) (code_ptr s) (put 0 l) 4) (code_ptr s + 4)).
Proof. intros Hl. by rewrite fields_put. Qed.

Lemma stored_fields m a l : fields_ok l = true -> load_le (store_le m a (put 0 l) 4) a 4 = put 0 l.
Proof.
  intros Hl. rewrite load_store_same. apply uint_small. apply put_range; [done | lia].
Qed.

Lemma patch_fields m a v l :
  fields_ok l = true -> near (distance a v) ->
  patch_reloc (store_le m a (put 0 l) 4) a v =
    (true, store_le (store_le m a (put 0 l) 4) a (put 0 (l ++ [(12, 20, distance a v)])) 4).
Proof.
  intros Hl Hd. unfold patch_reloc. fold (distance a v). rewrite near_fits by done.
  rewrite stored_fields by done. unfold put. by rewrite foldl_app.
Qed.

Lemma opcode_read l op :
  fields_ok l = true -> written l 0 8 = Some (op_index op) -> tci_opc (put 0 l) = Some op.
Proof.
  intros Hl Hw. unfold tci_opc. rewrite (fld_written l 0 0 8 (op_index op)) by done.
  rewrite uint_small by apply op_index_range. apply op_of_index_op_index.
Qed.

Lemma emits_l op s lab v :
  0 <= v < 2 ^ 32 -> near (distance (code_ptr s) v) ->
  emits_label (tcg_tci_out_op_l op lab) s lab v op (fun w => tci_args_l w (code_ptr s + 4))
    (if distance (code_ptr s) v =? 0 then 0 else v).
Proof.
  intros Hv Hd. set (l := [(0, 8, op_index op)]).
  exists (set_code (set_relocs s (relocs s ++ [(lab, code_ptr s)]))
            (store_le (omem s) (code_ptr s) (put 0 l) 4) (code_ptr s + 4)). eexists.
  split; [exact (out_fields l (set_relocs s (relocs s ++ [(lab, code_ptr s)])) eq_refl)|].
  split; [done|]. split; [done|]. split; [by apply patch_fields|].
  unfold word_reads. rewrite stored_fields by done. split; [by apply opcode_read|].
  unfold tci_args_l. rewrite (sfld_written _ 0 12 20 (distance (code_ptr s) v)), (sint_small 20 _ ltac:(lia) Hd) by done.
  destruct (distance (code_ptr s) v =? 0); [done | by apply distance_back].
Qed.

Lemma emits_rl op s r0 lab v :
  is_reg r0 = true -> 0 <= v < 2 ^ 32 -> near (distance (code_ptr s) v) ->
  emits_label (tcg_tci_out_op_rl op r0 lab) s lab v op (fun w => tci_args_rl w (code_ptr s + 4)) (r0, v).
Proof.
  intros Hr Hv Hd. set (l := [(0, 8, op_index op); (8, 4, r0)]).
  exists (set_code (set_relocs s (relocs s ++ [(lab, code_ptr s)]))
            (store_le (omem s) (code_ptr s) (put 0 l) 4) (code_ptr s + 4)). eexists.
  split; [exact (out_fields l (set_relocs s (relocs s ++ [(lab, code_ptr s)])) eq_refl)|].
  split; [done|]. split; [done|]. split; [by apply patch_fields|].
  unfold word_reads. rewrite stored_fields by done. split; [by apply opcode_read|].
  unfold tci_args_rl. rewrite (fld_written _ 0 8 4 r0), (sfld_written _ 0 12 20 (distance (code_ptr s) v)) by done.
  rewrite uint4_reg, (sint_small 20 _ ltac:(lia) Hd) by done.
  rewrite (Z.add_comm (distance _ _)), distance_back by done. done.
Qed.

Lemma emits_p op s p :
  0 <= p < 2 ^ 32 -> p = 0 \/ near (distance (code_ptr s) p) /\ distance (code_ptr s) p <> 0 ->
  emits_word (tcg_tci_out_op_p op p) s op (fun w => tci_args_l w (code_ptr s + 4)) p.
Proof.
  intros Hp Hd. set (d := if p =? 0 then 0 else distance (code_ptr s) p).
  set (l := [(0, 8, op_index op); (12, 20, d)]).
  assert (Hnear : near d) by (unfold d; destruct (Z.eqb_spec p 0); [done | tauto]).
  exists (set_code s (store_le (omem s) (code_ptr s) (put 0 l) 4) (code_ptr s + 4)). split.
  - unfold tcg_tci_out_op_p, tci_bind, cur_tci_ptr. fold (distance (code_ptr s) p). fold d.
    rewrite (near_fits d Hnear), orb_true_r. unfold tci_assert.
    replace ((p =? 0) || negb (d =? 0)) with true; [by apply (out_fields l)|].
    unfold d. destruct (Z.eqb_spec p 0); [done|]. destruct (Z.eqb_spec (distance (code_ptr s) p) 0); [tauto | done].
  - split; [done|]. unfold word_reads. cbn [omem set_code]. rewrite stored_fields by done. split; [by apply opcode_read|].
    unfold tci_args_l. rewrite (sfld_written _ 0 12 20 d), (sint_small 20 _ ltac:(lia) Hnear) by done.
    unfold d. destruct (Z.eqb_spec p 0) as [-> | Hne]; [done|].
    destruct (Z.eqb_spec (distance (code_ptr s) p) 0); [tauto | by apply distance_back].
Qed.

Lemma refuses_p op s p :
  p <> 0 ->
  (distance (code_ptr s) p = 0 -> tcg_tci_out_op_p op p s = EAssert) /\
  (~ near (distance (code_ptr s) p) -> tcg_tci_out_op_p op p s = EOverflow).
Proof.
  intros Hp. unfold tcg_tci_out_op_p, tci_bind, cur_tci_ptr, tci_assert. fold (distance (code_ptr s) p).
  rewrite (proj2 (Z.eqb_neq p 0) Hp). cbn [orb]. split.
  - by intros ->.
  - intros Hd. rewrite far_unfit by done. destruct (Z.eqb_spec (distance (code_ptr s) p) 0) as [E | _]; [|done].
    rewrite E in Hd. by destruct Hd.
Qed.

(** C35: Decoding an interpreter word gives back the opcode and the operands
    that it was encoded from.  Registers and conditions are below 16 here, as
    the register allocator hands them out; the encoder does not check them.
    Immediates, offsets and bit positions are read back when they fit their
    fields, and fail an assertion of the encoder otherwise.  A word for a label
    is read back once the relocation has been resolved, which succeeds exactly
    when the label is within 20 bits; in the layout without a register a label
    right after the word reads as null.  A pointer is read back when it is
    null or within 20 bits of the next word; a pointer to the next word fails an
    assertion and one further away asks for a smaller block. *)
Theorem tci_decode_encode op r0 r1 r2 r3 r4 r5 c i p n s lab v :
  forallb is_reg [r0; r1; r2; r3; r4; r5; c] = true ->
  encodes (tcg_tci_out_op_r op r0) op tci_args_r r0 /\
  encodes (tcg_tci_out_op_rr op r0 r1) op tci_args_rr (r0, r1) /\
  encodes (tcg_tci_out_op_rrr op r0 r1 r2) op tci_args_rrr (r0, r1, r2) /\
  encodes (tcg_tci_out_op_rrrr op r0 r1 r2 r3) op tci_args_rrrr (r0, r1, r2, r3) /\
  encodes (tcg_tci_out_op_rrrrr op r0 r1 r2 r3 r4) op tci_args_rrrrr (r0, r1, r2, r3, r4) /\
  encodes (tcg_tci_out_op_rrrrrr op r0 r1 r2 r3 r4 r5) op tci_args_rrrrrr (r0, r1, r2, r3, r4, r5) /\
  encodes (tcg_tci_out_op_rrrc op r0 r1 r2 c) op tci_args_rrrc (r0, r1, r2, c) /\
  encodes (tcg_tci_out_op_rrrrrc op r0 r1 r2 r3 r4 c) op tci_args_rrrrrc (r0, r1, r2, r3, r4, c) /\
  (- 2 ^ 19 <= i < 2 ^ 19 -> encodes (tcg_tci_out_op_ri op r0 i) op tci_args_ri (r0, uint 64 i)) /\
  (~ (- 2 ^ 19 <= i < 2 ^ 19) -> tcg_tci_out_op_ri op r0 i = None) /\
  (- 2 ^ 15 <= i < 2 ^ 15 -> encodes (tcg_tci_out_op_rrs op r0 r1 i) op tci_args_rrs (r0, r1, i)) /\
  (~ (- 2 ^ 15 <= i < 2 ^ 15) -> tcg_tci_out_op_rrs op r0 r1 i = None) /\
  (0 <= p < 2 ^ 6 -> 0 <= n < 2 ^ 6 ->
    encodes (tcg_tci_out_op_rrbb op r0 r1 p n) op tci_args_rrbb (r0, r1, p, n) /\
    encodes (tcg_tci_out_op_rrrbb op r0 r1 r2 p n) op tci_args_rrrbb (r0, r1, r2, p, n)) /\
  (~ (0 <= p < 2 ^ 6 /\ 0 <= n < 2 ^ 6) ->
    tcg_tci_out_op_rrbb op r0 r1 p n = None /\ tcg_tci_out_op_rrrbb op r0 r1 r2 p n = None) /\
  (0 <= v < 2 ^ 32 -> near (distance (code_ptr s) v) ->
    emits_label (tcg_tci_out_op_rl op r0 lab) s lab v op (fun w => tci_args_rl w (code_ptr s + 4)) (r0, v) /\
    emits_label (tcg_tci_out_op_l op lab) s lab v op (fun w => tci_args_l w (code_ptr s + 4))
      (if distance (code_ptr s) v =? 0 then 0 else v)) /\
  (forall m a, ~ near (distance a v) -> patch_reloc m a v = (false, m)) /\
  (0 <= v < 2 ^ 32 -> v = 0 \/ near (distance (code_ptr s) v) /\ distance (code_ptr s) v <> 0 ->
    emits_word (tcg_tci_out_op_p op v) s op (fun w => tci_args_l w (code_ptr s + 4)) v) /\
  (v <> 0 ->
    (distance (code_ptr s) v = 0 -> tcg_tci_out_op_p op v s = EAssert) /\
    (~ near (distance (code_ptr s) v) -> tcg_tci_out_op_p op v s = EOverflow)).
Proof.
  cbn [forallb]. rewrite !andb_true_iff. intros (?&?&?&?&?&?&?&_).
  split_and!; eauto using emits_rl, emits_l, emits_p, refuses_p with tci.
  - apply out_of_range_ri.
  - apply out_of_range_rrs.
  - intros. unfold tcg_tci_out_op_rrbb, tcg_tci_out_op_rrrbb. by rewrite out_of_range_bb.
  - intros m a Hd. unfold patch_reloc. fold (distance a v). by rewrite far_unfit.
Qed.

(** A conditional branch backwards, the code starting at 0x1000. *)
Definition sample_out : tci_out :=
  {| omem := fun _ => 0; code_buf := 0x1000; code_ptr := 0x1010; relocs := []; pool_labels := [];
     jmp_target_addr := fun _ => 0; jmp_reset_offset := fun _ => 0 |}.

Lemma tci_decode_encode_witness :
  encodes (tcg_tci_out_op_rrs INDEX_op_ld_i64 3 14 (-8)) INDEX_op_ld_i64 tci_args_rrs (3, 14, -8) /\
  emits_label (tcg_tci_out_op_rl INDEX_op_ld_i64 3 7) sample_out 7 0x1000 INDEX_op_ld_i64
    (fun w => tci_args_rl w 0x1014) (3, 0x1000).
Proof.
  destruct (tci_decode_encode INDEX_op_ld_i64 3 14 0 0 0 0 0 (-8) 0 0 sample_out 7 0x1000) as
    (_ & _ & _ & _ & _ & _ & _ & _ & _ & _ & H1 & _ & _ & _ & H2 & _); [reflexivity|].
  split; [apply H1; lia|]. apply H2; [lia | by vm_compute].
Defined.
