(* ===== verification/TciExec.v ===== *)
(** * The interpreter: tcg_qemu_tb_exec_tci of tcg/wasm32.c

    [tci_step] is one turn of the interpreter's loop: it fetches the word at
    [tb_ptr] and executes the arm of its opcode.  [exec_alu] has the arms that
    only change registers, [exec_mem] the accesses to the host's memory,
    [exec_ctl] the calls, jumps, exits and guest accesses.  Undefined
    behaviour of C is [TUndef], a failed assertion [TAssert].

    What the interpreter calls is a parameter ([TciHost]): the helper
    functions, libffi, and the position of this thread's counter in a
    translation block. *)

From Stdlib Require Import ZArith Lia Bool.
From stdpp Require Import base numbers functions list option.
From S2P Require Import Prelude.
From S2P Require Import Bytes.
From S2P Require Import Bitops.
From S2P Require Import TcgCond.
From S2P Require Import TcgOpc.
From S2P Require Import TcgCtx.
From S2P Require Import TcgSem.
From S2P Require Import RegSpec.
From S2P Require Import MemOp.
From S2P Require Import TciCode.
From S2P Require Import TciOut.

Local Open Scope Z_scope.

(** ** Values *)

Definition tci_uint64 (high low : Z) : Z := Z.shiftl (uint 32 high) 32 + uint 32 low.

(** The switch of tci_compare32 and tci_compare64. *)
Definition tci_compare (w u0 u1 condition : Z) : option bool :=
  let u0 := uint w u0 in let u1 := uint w u1 in
  let i0 := sint w u0 in let i1 := sint w u1 in
  if condition =? TCG_COND_EQ then Some (u0 =? u1)
  else if condition =? TCG_COND_NE then Some (negb (u0 =? u1))
  else if condition =? TCG_COND_LT then Some (i0 <? i1)
  else if condition =? TCG_COND_GE then Some (i0 >=? i1)
  else if condition =? TCG_COND_LE then Some (i0 <=? i1)
  else if condition =? TCG_COND_GT then Some (i0 >? i1)
  else if condition =? TCG_COND_LTU then Some (u0 <? u1)
  else if condition =? TCG_COND_GEU then Some (u0 >=? u1)
  else if condition =? TCG_COND_LEU then Some (u0 <=? u1)
  else if condition =? TCG_COND_GTU then Some (u0 >? u1)
  else None.

Definition tci_compare32 : Z -> Z -> Z -> option bool := tci_compare 32.
Definition tci_compare64 : Z -> Z -> Z -> option bool := tci_compare 64.

(** ** Registers *)

Definition tci_write_reg64 (g : regfile) (high_index low_index value : Z) : regfile :=
  wr (wr g low_index (uint 32 value)) high_index (Z.shiftr (uint 64 value) 32).

(** ** Arms that only change registers

    [None]: not such an arm; otherwise the new registers, or [inr] for a
    failed assertion ([true]) or undefined behaviour ([false]). *)

Definition alu_result : Type := option (regfile + bool).

Definition arm (g : regfile) (r : Z) (v : Z) : alu_result := Some (inl (wr g r v)).

Definition arm_rr (g : regfile) (insn : Z) (f : Z -> Z) : alu_result :=
  let '(r0, r1) := tci_args_rr insn in arm g r0 (f (g r1)).

Definition arm_rrr (g : regfile) (insn : Z) (f : Z -> Z -> Z) : alu_result :=
  let '(r0, r1, r2) := tci_args_rrr insn in arm g r0 (f (g r1) (g r2)).

(** Division: a zero divisor and the overflowing quotient are undefined. *)
Definition arm_div (g : regfile) (insn : Z) (w : Z) (signed : bool) (f : Z -> Z -> Z) : alu_result :=
  let '(r0, r1, r2) := tci_args_rrr insn in
  let x := if signed then sint w (g r1) else uint w (g r1) in
  let y := if signed then sint w (g r2) else uint w (g r2) in
  if (y =? 0) || signed && (x =? - 2 ^ (w - 1)) && (y =? -1) then Some (inr false)
  else arm g r0 (f x y).

Definition arm_setcond (g : regfile) (insn w : Z) : alu_result :=
  let '(r0, r1, r2, c) := tci_args_rrrc insn in
  match tci_compare w (g r1) (g r2) c with
  | Some b => arm g r0 (b2z b)
  | None => Some (inr true)
  end.

Definition arm_movcond (g : regfile) (insn w : Z) : alu_result :=
  let '(r0, r1, r2, r3, r4, c) := tci_args_rrrrrc insn in
  match tci_compare w (g r1) (g r2) c with
  | Some b => arm g r0 (g (if b then r3 else r4))
  | None => Some (inr true)
  end.

(** deposit, extract and sextract of include/qemu/bitops.h assert the field. *)
Definition arm_field (g : regfile) (r : Z) (v : option Z) : alu_result :=
  match v with Some v => arm g r v | None => Some (inr true) end.

Definition arm_deposit (g : regfile) (insn : Z) (f : Z -> Z -> Z -> Z -> option Z) : alu_result :=
  let '(r0, r1, r2, pos, len) := tci_args_rrrbb insn in arm_field g r0 (f (g r1) pos len (g r2)).

Definition arm_extract (g : regfile) (insn : Z) (f : Z -> Z -> Z -> option Z) : alu_result :=
  let '(r0, r1, pos, len) := tci_args_rrbb insn in arm_field g r0 (f (g r1) pos len).

Definition arm_add2_i32 (g : regfile) (insn : Z) (f : Z -> Z -> Z) : alu_result :=
  let '(r0, r1, r2, r3, r4, r5) := tci_args_rrrrrr insn in
  let T1 := tci_uint64 (g r3) (g r2) in
  let T2 := tci_uint64 (g r5) (g r4) in
  Some (inl (tci_write_reg64 g r1 r0 (f T1 T2))).

Definition arm_mul2_i32 (g : regfile) (insn : Z) (cv : Z -> Z) : alu_result :=
  let '(r0, r1, r2, r3) := tci_args_rrrr insn in
  Some (inl (tci_write_reg64 g r1 r0 (cv (g r2) * cv (g r3)))).

Definition arm_add2_i64 (g : regfile) (insn : Z) : alu_result :=
  let '(r0, r1, r2, r3, r4, r5) := tci_args_rrrrrr insn in
  let T1 := uint 64 (g r2 + g r4) in
  let T2 := uint 64 (g r3 + g r5 + b2z (T1 <? g r2)) in
  Some (inl (wr (wr g r0 T1) r1 T2)).

Definition arm_sub2_i64 (g : regfile) (insn : Z) : alu_result :=
  let '(r0, r1, r2, r3, r4, r5) := tci_args_rrrrrr insn in
  let T1 := uint 64 (g r2 - g r4) in
  let T2 := uint 64 (g r3 - g r5 - b2z (g r2 <? g r4)) in
  Some (inl (wr (wr g r0 T1) r1 T2)).

Definition exec_alu (o : TCGOpcode) (insn : Z) (g : regfile) : alu_result :=
  match o with
  | INDEX_op_setcond_i32 => arm_setcond g insn 32
  | INDEX_op_movcond_i32 => arm_movcond g insn 32
  | INDEX_op_setcond_i64 => arm_setcond g insn 64
  | INDEX_op_movcond_i64 => arm_movcond g insn 64
  | INDEX_op_mov_i32 | INDEX_op_mov_i64 => arm_rr g insn (fun a => a)
  | INDEX_op_tci_movi => let '(r0, t1) := tci_args_ri insn in arm g r0 t1
  | INDEX_op_add_i32 | INDEX_op_add_i64 => arm_rrr g insn Z.add
  | INDEX_op_sub_i32 | INDEX_op_sub_i64 => arm_rrr g insn Z.sub
  | INDEX_op_mul_i32 | INDEX_op_mul_i64 => arm_rrr g insn Z.mul
  | INDEX_op_and_i32 | INDEX_op_and_i64 => arm_rrr g insn Z.land
  | INDEX_op_or_i32 | INDEX_op_or_i64 => arm_rrr g insn Z.lor
  | INDEX_op_xor_i32 | INDEX_op_xor_i64 => arm_rrr g insn Z.lxor
  | INDEX_op_andc_i32 | INDEX_op_andc_i64 => arm_rrr g insn (fun a b => Z.land a (Z.lnot b))
  | INDEX_op_orc_i32 | INDEX_op_orc_i64 => arm_rrr g insn (fun a b => Z.lor a (Z.lnot b))
  | INDEX_op_eqv_i32 | INDEX_op_eqv_i64 => arm_rrr g insn (fun a b => Z.lnot (Z.lxor a b))
  | INDEX_op_nand_i32 | INDEX_op_nand_i64 => arm_rrr g insn (fun a b => Z.lnot (Z.land a b))
  | INDEX_op_nor_i32 | INDEX_op_nor_i64 => arm_rrr g insn (fun a b => Z.lnot (Z.lor a b))
  | INDEX_op_div_i32 => arm_div g insn 32 true Z.quot
  | INDEX_op_divu_i32 => arm_div g insn 32 false Z.div
  | INDEX_op_rem_i32 => arm_div g insn 32 true Z.rem
  | INDEX_op_remu_i32 => arm_div g insn 32 false Z.modulo
  | INDEX_op_clz_i32 =>
      arm_rrr g insn (fun a b => let tmp32 := uint 32 a in if tmp32 =? 0 then b else clz32 tmp32)
  | INDEX_op_ctz_i32 =>
      arm_rrr g insn (fun a b => let tmp32 := uint 32 a in if tmp32 =? 0 then b else ctz32 tmp32)
  | INDEX_op_ctpop_i32 => arm_rr g insn ctpop32
  | INDEX_op_shl_i32 => arm_rrr g insn (fun a b => uint 32 (Z.shiftl (uint 32 a) (Z.land b 31)))
  | INDEX_op_shr_i32 => arm_rrr g insn (fun a b => Z.shiftr (uint 32 a) (Z.land b 31))
  | INDEX_op_sar_i32 => arm_rrr g insn (fun a b => Z.shiftr (sint 32 a) (Z.land b 31))
  | INDEX_op_rotl_i32 => arm_rrr g insn (fun a b => rol32 a (Z.land b 31))
  | INDEX_op_rotr_i32 => arm_rrr g insn (fun a b => ror32 a (Z.land b 31))
  | INDEX_op_deposit_i32 => arm_deposit g insn deposit32
  | INDEX_op_extract_i32 => arm_extract g insn extract32
  | INDEX_op_sextract_i32 => arm_extract g insn sextract32
  | INDEX_op_add2_i32 => arm_add2_i32 g insn Z.add
  | INDEX_op_sub2_i32 => arm_add2_i32 g insn Z.sub
  | INDEX_op_mulu2_i32 => arm_mul2_i32 g insn (uint 32)
  | INDEX_op_muls2_i32 => arm_mul2_i32 g insn (sint 32)
  | INDEX_op_ext8s_i32 | INDEX_op_ext8s_i64 => arm_rr g insn (sint 8)
  | INDEX_op_ext16s_i32 | INDEX_op_ext16s_i64 => arm_rr g insn (sint 16)
  | INDEX_op_ext8u_i32 | INDEX_op_ext8u_i64 => arm_rr g insn (uint 8)
  | INDEX_op_ext16u_i32 | INDEX_op_ext16u_i64 => arm_rr g insn (uint 16)
  | INDEX_op_bswap16_i32 | INDEX_op_bswap16_i64 => arm_rr g insn bswap16
  | INDEX_op_bswap32_i32 | INDEX_op_bswap32_i64 => arm_rr g insn bswap32
  | INDEX_op_not_i32 | INDEX_op_not_i64 => arm_rr g insn Z.lnot
  | INDEX_op_neg_i32 | INDEX_op_neg_i64 => arm_rr g insn Z.opp
  | INDEX_op_div_i64 => arm_div g insn 64 true Z.quot
  | INDEX_op_divu_i64 => arm_div g insn 64 false Z.div
  | INDEX_op_rem_i64 => arm_div g insn 64 true Z.rem
  | INDEX_op_remu_i64 => arm_div g insn 64 false Z.modulo
  | INDEX_op_clz_i64 => arm_rrr g insn (fun a b => if a =? 0 then b else clz64 a)
  | INDEX_op_ctz_i64 => arm_rrr g insn (fun a b => if a =? 0 then b else ctz64 a)
  | INDEX_op_ctpop_i64 => arm_rr g insn ctpop64
  | INDEX_op_add2_i64 => arm_add2_i64 g insn
  | INDEX_op_sub2_i64 => arm_sub2_i64 g insn
  | INDEX_op_shl_i64 => arm_rrr g insn (fun a b => Z.shiftl a (Z.land b 63))
  | INDEX_op_shr_i64 => arm_rrr g insn (fun a b => Z.shiftr a (Z.land b 63))
  | INDEX_op_sar_i64 => arm_rrr g insn (fun a b => Z.shiftr (sint 64 a) (Z.land b 63))
  | INDEX_op_rotl_i64 => arm_rrr g insn (fun a b => rol64 a (Z.land b 63))
  | INDEX_op_rotr_i64 => arm_rrr g insn (fun a b => ror64 a (Z.land b 63))
  | INDEX_op_deposit_i64 => arm_deposit g insn deposit64
  | INDEX_op_extract_i64 => arm_extract g insn extract64
  | INDEX_op_sextract_i64 => arm_extract g insn sextract64
  | INDEX_op_ext32s_i64 | INDEX_op_ext_i32_i64 => arm_rr g insn (sint 32)
  | INDEX_op_ext32u_i64 | INDEX_op_extu_i32_i64 => arm_rr g insn (uint 32)
  | INDEX_op_bswap64_i64 => arm_rr g insn bswap64
  | INDEX_op_mb => Some (inl g)
  | _ => None
  end.

(** ** The machine *)

(** [ctx_tb_ptr] is ctx.tb_ptr, the translation block being executed;
    [tci_tb_ptr] the return address that helpers may look at. *)
Record tci_state := {
  tregs : regfile;
  tmem : Z -> Z;
  tb_ptr : Z;
  ctx_tb_ptr : Z;
  tci_tb_ptr : Z;
}.

Inductive tci_result :=
| TNext (s : tci_state)
| TExit (v : Z) (s : tci_state)
| TAssert
| TUndef.

(** The address of an argument of a call. *)
Inductive slot := SReg (r : Z) | SStack (i : Z).

(** A helper that does not return leaves the interpreter ([None]).
    [helper_ld k] and [helper_st k] are the helper_ld*_mmu and helper_st*_mmu
    functions of the access [k]. *)
Class TciHost := {
  counter_vec_off : Z;
  stack_base : Z;
  helper_lookup_tb_ptr : Z;
  call_lookup_tb_ptr : Z -> (Z -> Z) -> Z;
  cif_arg_sizes : Z -> list Z;
  ffi_call : Z -> Z -> list slot -> regfile -> (Z -> Z) -> option (Z -> Z);
  helper_ld : Z -> Z -> Z -> Z -> Z -> (Z -> Z) -> option (Z * (Z -> Z));
  helper_st : Z -> Z -> Z -> Z -> Z -> Z -> (Z -> Z) -> option (Z -> Z);
}.

Definition set_regs (s : tci_state) (g : regfile) : tci_state :=
  {| tregs := g; tmem := tmem s; tb_ptr := tb_ptr s; ctx_tb_ptr := ctx_tb_ptr s;
     tci_tb_ptr := tci_tb_ptr s |}.
Definition set_tmem (s : tci_state) (m : Z -> Z) : tci_state :=
  {| tregs := tregs s; tmem := m; tb_ptr := tb_ptr s; ctx_tb_ptr := ctx_tb_ptr s;
     tci_tb_ptr := tci_tb_ptr s |}.
Definition set_tb_ptr (s : tci_state) (p : Z) : tci_state :=
  {| tregs := tregs s; tmem := tmem s; tb_ptr := p; ctx_tb_ptr := ctx_tb_ptr s;
     tci_tb_ptr := tci_tb_ptr s |}.
Definition set_ctx_tb_ptr (s : tci_state) (p : Z) : tci_state :=
  {| tregs := tregs s; tmem := tmem s; tb_ptr := tb_ptr s; ctx_tb_ptr := p;
     tci_tb_ptr := tci_tb_ptr s |}.
Definition set_tci_tb_ptr (s : tci_state) (p : Z) : tci_state :=
  {| tregs := tregs s; tmem := tmem s; tb_ptr := tb_ptr s; ctx_tb_ptr := ctx_tb_ptr s;
     tci_tb_ptr := p |}.

(** ** Accesses to the host's memory: a pointer has 32 bits *)

Definition load_word (m : Z -> Z) (a : Z) (n : nat) : Z := load_le m (uint 32 a) n.
Definition store_word (m : Z -> Z) (a v : Z) (n : nat) : Z -> Z := store_le m (uint 32 a) v n.

Definition arm_ld (s : tci_state) (insn : Z) (n : nat) (ext : Z -> Z) : option tci_state :=
  let '(r0, r1, ofs) := tci_args_rrs insn in
  Some (set_regs s (wr (tregs s) r0 (ext (load_word (tmem s) (tregs s r1 + ofs) n)))).

Definition arm_st (s : tci_state) (insn : Z) (n : nat) : option tci_state :=
  let '(r0, r1, ofs) := tci_args_rrs insn in
  Some (set_tmem s (store_word (tmem s) (tregs s r1 + ofs) (tregs s r0) n)).

Definition exec_mem (o : TCGOpcode) (insn : Z) (s : tci_state) : option tci_state :=
  match o with
  | INDEX_op_tci_movl =>
      let '(r0, ptr) := tci_args_rl insn (tb_ptr s) in
      Some (set_regs s (wr (tregs s) r0 (load_word (tmem s) ptr 8)))
  | INDEX_op_ld8u_i32 | INDEX_op_ld8u_i64 => arm_ld s insn 1 (fun v => v)
  | INDEX_op_ld8s_i32 | INDEX_op_ld8s_i64 => arm_ld s insn 1 (sint 8)
  | INDEX_op_ld16u_i32 | INDEX_op_ld16u_i64 => arm_ld s insn 2 (fun v => v)
  | INDEX_op_ld16s_i32 | INDEX_op_ld16s_i64 => arm_ld s insn 2 (sint 16)
  | INDEX_op_ld_i32 | INDEX_op_ld32u_i64 => arm_ld s insn 4 (fun v => v)
  | INDEX_op_ld32s_i64 => arm_ld s insn 4 (sint 32)
  | INDEX_op_ld_i64 => arm_ld s insn 8 (fun v => v)
  | INDEX_op_st8_i32 | INDEX_op_st8_i64 => arm_st s insn 1
  | INDEX_op_st16_i32 | INDEX_op_st16_i64 => arm_st s insn 2
  | INDEX_op_st_i32 | INDEX_op_st32_i64 => arm_st s insn 4
  | INDEX_op_st_i64 => arm_st s insn 8
  | _ => None
  end.

(** ** Guest accesses *)

(** CPUTLBEntry of include/exec/tlb-common.h. *)
Definition CPU_TLB_ENTRY_BITS : Z := 5.
Definition addr_read_ofs : Z := 0.
Definition addr_write_ofs : Z := 8.
Definition addend_ofs : Z := 24.

(** The operands that the pool holds for an access: register of the data and
    of the address, oi, then what [tlb_load] uses. *)
Definition data64 (m : Z -> Z) (ptr k : Z) : Z := load_word m (ptr + 8 * k) 8.

Definition tlb_load (m : Z -> Z) (env taddr mop ptr : Z) (is_ld : bool) : Z :=
  let a_mask := uint 32 (data64 m ptr 3) in
  let mask_ofs := sint 32 (data64 m ptr 4) in
  let page_bits := sint 8 (data64 m ptr 5) in
  let page_mask := data64 m ptr 6 in
  let table_ofs := sint 32 (data64 m ptr 7) in
  let s_mask := uint 32 (Z.shiftl 1 (Z.land mop MO_SIZE) - 1) in
  let tmp0 := Z.shiftr taddr (page_bits - CPU_TLB_ENTRY_BITS) in
  let tmp2 := load_word m (env + mask_ofs) 8 in
  let tmp2_b := load_word m (env + table_ofs) 8 in
  let tmp3 := uint 64 (Z.land tmp0 tmp2 + tmp2_b) in
  let off := if is_ld then addr_read_ofs else addr_write_ofs in
  let target := load_word m (tmp3 + off) 8 in
  let c_addr := if a_mask <? s_mask then uint 64 (taddr + (s_mask - a_mask)) else taddr in
  let c_addr := Z.land c_addr (Z.lor page_mask a_mask) in
  if c_addr =? target
  then uint 64 (taddr + sint 32 (load_word m (tmp3 + addend_ofs) 4))
  else 0.

(** A direct access of kind [mop & MO_SSIZE]: number of bytes, extension. *)
Definition ld_kind (k : Z) : option (nat * (Z -> Z)) :=
  if k =? 0 then Some (1%nat, fun v => v)
  else if k =? 8 then Some (1%nat, sint 8)
  else if k =? 1 then Some (2%nat, fun v => v)
  else if k =? 9 then Some (2%nat, sint 16)
  else if k =? 2 then Some (4%nat, fun v => v)
  else if k =? 10 then Some (4%nat, sint 32)
  else if k =? 3 then Some (8%nat, fun v => v)
  else None.

Definition st_kind (k : Z) : option nat :=
  if k =? 0 then Some 1%nat
  else if k =? 1 then Some 2%nat
  else if k =? 2 then Some 4%nat
  else if k =? 3 then Some 8%nat
  else None.

Section Host.
Context `{H : TciHost}.

(** The result of a call that may fail an assertion or not return. *)
Inductive access (A : Type) := AOk (a : A) | AAssert | AGone.
Arguments AOk {A} a.
Arguments AAssert {A}.
Arguments AGone {A}.

Definition tci_qemu_ld (m : Z -> Z) (env taddr oi ra ptr : Z) : access (Z * (Z -> Z)) :=
  let mop := get_memop oi in
  let target_addr := tlb_load m env taddr mop ptr true in
  match ld_kind (Z.land mop MO_SSIZE) with
  | None => AAssert
  | Some (n, ext) =>
      if target_addr =? 0
      then match helper_ld (Z.land mop MO_SSIZE) env taddr oi ra m with
           | Some (v, m') => AOk (v, m')
           | None => AGone
           end
      else AOk (ext (load_word m target_addr n), m)
  end.

Definition tci_qemu_st (m : Z -> Z) (env taddr val oi ra ptr : Z) : access (Z -> Z) :=
  let mop := get_memop oi in
  let target_addr := tlb_load m env taddr mop ptr false in
  match st_kind (Z.land mop MO_SIZE) with
  | None => AAssert
  | Some n =>
      if target_addr =? 0
      then match helper_st (Z.land mop MO_SIZE) env taddr val oi ra m with
           | Some m' => AOk m'
           | None => AGone
           end
      else AOk (store_word m target_addr val n)
  end.

(** [tci_args_ldst]: the pool entry and the operands in it. *)
Definition tci_args_ldst (m : Z -> Z) (insn tb : Z) : Z * Z * Z * Z :=
  let ptr := tci_args_l insn tb in
  (data64 m ptr 0, data64 m ptr 1, uint 32 (data64 m ptr 2), ptr).

(** The qemu_ld and qemu_st arms; [a32] truncates the guest address.  [env] is
    the argument of the function. *)
Definition arm_qemu_ld (env : Z) (s : tci_state) (insn : Z) (a32 : bool) : tci_result :=
  let '(r0, r1, oi, ptr) := tci_args_ldst (tmem s) insn (tb_ptr s) in
  let taddr := if a32 then uint 32 (tregs s r1) else tregs s r1 in
  match tci_qemu_ld (tmem s) env taddr oi (tb_ptr s) ptr with
  | AOk (v, m) => TNext (set_tmem (set_regs s (wr (tregs s) r0 v)) m)
  | AAssert => TAssert
  | AGone => TUndef
  end.

Definition arm_qemu_st (env : Z) (s : tci_state) (insn : Z) (a32 : bool) : tci_result :=
  let '(r0, r1, oi, ptr) := tci_args_ldst (tmem s) insn (tb_ptr s) in
  let taddr := if a32 then uint 32 (tregs s r1) else tregs s r1 in
  match tci_qemu_st (tmem s) env taddr (tregs s r0) oi (tb_ptr s) ptr with
  | AOk m => TNext (set_tmem s m)
  | AAssert => TAssert
  | AGone => TUndef
  end.

(** ** Calls *)

Definition DIV_ROUND_UP (n d : Z) : Z := (n + d - 1) / d.

(** The loop that assigns an address to every argument: registers from R8 on
    while [reg_idx < 5], then the stack. *)
Fixpoint call_slots (sizes : list Z) (reg_idx stack_idx : Z) : list slot :=
  match sizes with
  | [] => []
  | sz :: sizes' =>
      if reg_idx <? 5
      then SReg (8 + reg_idx) :: call_slots sizes' (reg_idx + DIV_ROUND_UP sz 8) stack_idx
      else SStack stack_idx :: call_slots sizes' reg_idx (stack_idx + DIV_ROUND_UP sz 8)
  end.

(** The return value is left in the first words of the stack; sizeof(ffi_arg)
    is 4 on this host. *)
Definition arm_call (s : tci_state) (insn : Z) : tci_result :=
  let '(len, ptr) := tci_args_nl insn (tb_ptr s) in
  let func := data64 (tmem s) ptr 0 in
  let cif := data64 (tmem s) ptr 1 in
  if uint 32 func =? uint 32 helper_lookup_tb_ptr
  then TNext (set_regs s (wr (tregs s) TCG_REG_R0 (uint 32 (call_lookup_tb_ptr (tregs s 8) (tmem s)))))
  else
    match ffi_call cif func (call_slots (cif_arg_sizes cif) 0 0) (tregs s) (tmem s) with
    | None => TUndef
    | Some m =>
        let s' := set_tmem (set_tci_tb_ptr s (tb_ptr s)) m in
        if len =? 0 then TNext s'
        else if len =? 1 then TNext (set_regs s' (wr (tregs s) TCG_REG_R0 (load_word m stack_base 4)))
        else if len =? 2 then TNext (set_regs s' (wr (tregs s) TCG_REG_R0 (load_word m stack_base 8)))
        else if len =? 3 then
          TNext (set_regs s' (wr (wr (tregs s) TCG_REG_R0 (load_word m stack_base 8))
                                 TCG_REG_R1 (load_word m (stack_base + 8) 8)))
        else TAssert
    end.

(** ** Jumps to another translation block

    A block starts with the offset of its bytecode; its counter says how often
    it was entered by the interpreter. *)

Definition INSTANTIATE_NUM : Z := 1500.

Definition enter_tb (s : tci_state) (tb : Z) : tci_result :=
  let s := set_ctx_tb_ptr s tb in
  let counter_ptr := tb + counter_vec_off in
  let cnt := sint 32 (load_word (tmem s) counter_ptr 4) in
  if (0 <=? cnt) && (cnt <? INSTANTIATE_NUM)
  then
    let s := set_tmem s (store_word (tmem s) counter_ptr (cnt + 1) 4) in
    TNext (set_tb_ptr s (uint 32 (tb + load_word (tmem s) tb 4)))
  else TExit 0 s.

Definition arm_goto_tb (s : tci_state) (insn : Z) : tci_result :=
  let ptr := tci_args_l insn (tb_ptr s) in
  let dest := load_word (tmem s) ptr 4 in
  if dest =? 0 then TNext s else enter_tb s dest.

Definition arm_goto_ptr (s : tci_state) (insn : Z) : tci_result :=
  let ptr := uint 32 (tregs s (tci_args_r insn)) in
  if ptr =? 0 then TExit 0 (set_ctx_tb_ptr s 0) else enter_tb s ptr.

(** ** The loop *)

Definition exec_ctl (env : Z) (o : TCGOpcode) (insn : Z) (s : tci_state) : tci_result :=
  match o with
  | INDEX_op_call => arm_call s insn
  | INDEX_op_br => TNext (set_tb_ptr s (tci_args_l insn (tb_ptr s)))
  | INDEX_op_brcond_i32 =>
      let '(r0, ptr) := tci_args_rl insn (tb_ptr s) in
      TNext (if uint 32 (tregs s r0) =? 0 then s else set_tb_ptr s ptr)
  | INDEX_op_brcond_i64 =>
      let '(r0, ptr) := tci_args_rl insn (tb_ptr s) in
      TNext (if tregs s r0 =? 0 then s else set_tb_ptr s ptr)
  | INDEX_op_exit_tb => TExit (tci_args_l insn (tb_ptr s)) (set_ctx_tb_ptr s 0)
  | INDEX_op_goto_tb => arm_goto_tb s insn
  | INDEX_op_goto_ptr => arm_goto_ptr s insn
  | INDEX_op_qemu_ld_a32_i32 | INDEX_op_qemu_ld_a32_i64 => arm_qemu_ld env s insn true
  | INDEX_op_qemu_ld_a64_i32 | INDEX_op_qemu_ld_a64_i64 => arm_qemu_ld env s insn false
  | INDEX_op_qemu_st_a32_i32 | INDEX_op_qemu_st_a32_i64 => arm_qemu_st env s insn true
  | INDEX_op_qemu_st_a64_i32 | INDEX_op_qemu_st_a64_i64 => arm_qemu_st env s insn false
  | _ => TAssert
  end.

Definition tci_step (env : Z) (s : tci_state) : tci_result :=
  let insn := load_word (tmem s) (tb_ptr s) 4 in
  let s := set_tb_ptr s (uint 32 (tb_ptr s + 4)) in
  match tci_opc insn with
  | None => TAssert
  | Some o =>
      match exec_alu o insn (tregs s) with
      | Some (inl g) => TNext (set_regs s g)
      | Some (inr true) => TAssert
      | Some (inr false) => TUndef
      | None =>
          match exec_mem o insn s with
          | Some s' => TNext s'
          | None => exec_ctl env o insn s
          end
      end
  end.

(** [None] when [fuel] turns do not leave the loop. *)
Fixpoint tci_run (env : Z) (fuel : nat) (s : tci_state) : option tci_result :=
  match fuel with
  | O => None
  | S fuel' =>
      match tci_step env s with
      | TNext s' => tci_run env fuel' s'
      | r => Some r
      end
  end.

(** Entering the interpreter for the block of ctx.tb_ptr. *)
Definition tci_entry (env : Z) (s : tci_state) : tci_state :=
  let tb := ctx_tb_ptr s in
  set_regs (set_tb_ptr s (uint 32 (tb + load_word (tmem s) tb 4)))
    (wr (wr (tregs s) TCG_AREG0 env) TCG_REG_CALL_STACK stack_base).

Definition tcg_qemu_tb_exec_tci (env : Z) (fuel : nat) (s : tci_state) : option tci_result :=
  tci_run env fuel (tci_entry env s).

End Host.
