(* ===== verification/TciOk.v ===== *)
(** * The interpreter executes the words of an op correctly

    [Runs k m P Q]: emission [m] succeeds and writes [k] words, and from
    registers that satisfy [P] the interpreter runs through those words and
    leaves registers related by [Q].  One lemma per layout turns an arm of
    [exec_alu] into [Runs]. *)

From Stdlib Require Import ZArith Lia Bool.
From stdpp Require Import base numbers functions list option relations sets.
From S2P Require Import Prelude.
From S2P Require Import Bytes.
From S2P Require Import Bitops.
From S2P Require Import TcgCond.
From S2P Require Import TcgOpc.
From S2P Require Import TcgCtx.
From S2P Require Import TcgSem.
From S2P Require Import RegSpec.
From S2P Require Import TciCode.
From S2P Require Import TciOut.
From S2P Require Import TciExec.

Local Open Scope Z_scope.

Section Runs.
Context `{H : TciHost} (env : Z).

Definition tci_steps : tci_state -> tci_state -> Prop := rtc (fun s s' => tci_step env s = TNext s').

(** The interpreter sees in [m] the code of [m'] between [p] and [q]. *)
Definition code_at (m m' : Z -> Z) (p q : Z) : Prop := forall a, p <= a < q -> m a = m' a.

(** Emission only writes code after [code_ptr]. *)
Definition emits_code (k : Z) (t t' : tci_out) : Prop :=
  t' = set_code t (omem t') (code_ptr t + 4 * k) /\ forall a, a < code_ptr t -> omem t' a = omem t a.

Definition Runs (k : Z) (m : Tci unit) (P : regfile -> Prop) (Q : regfile -> regfile -> Prop) : Prop :=
  0 <= k /\
  forall t, 0 <= code_ptr t -> code_ptr t + 4 * k < 2 ^ 32 ->
  exists t', m t = EDone (tt, t') /\ emits_code k t t' /\
    forall s, tb_ptr s = code_ptr t -> code_at (tmem s) (omem t') (code_ptr t) (code_ptr t') ->
      P (tregs s) -> exists g', Q (tregs s) g' /\ tci_steps s (set_tb_ptr (set_regs s g') (code_ptr t')).

Lemma Runs_seq k1 k2 m1 m2 P1 Q1 P2 Q2 :
  Runs k1 m1 P1 Q1 -> Runs k2 m2 P2 Q2 ->
  (forall g g1, P1 g -> Q1 g g1 -> P2 g1) ->
  Runs (k1 + k2) (tci_bind m1 (fun _ => m2)) P1 (fun g g' => exists g1, Q1 g g1 /\ Q2 g1 g').
Proof.
  intros [Hk1 H1] [Hk2 H2] HP. split; [lia|]. intros t Ht0 Ht.
  destruct (H1 t Ht0 ltac:(lia)) as (t1 & Hm1 & [Et1 Lo1] & R1).
  assert (Hc1 : code_ptr t1 = code_ptr t + 4 * k1) by (rewrite Et1; reflexivity).
  destruct (H2 t1 ltac:(lia) ltac:(lia)) as (t2 & Hm2 & [Et2 Lo2] & R2).
  assert (Hc2 : code_ptr t2 = code_ptr t1 + 4 * k2) by (rewrite Et2; reflexivity).
  exists t2. split; [|split; [split|]].
  - unfold tci_bind. by rewrite Hm1.
  - rewrite Et2 at 1. rewrite Hc1. rewrite Et1 at 1. unfold set_code; cbn. f_equal. lia.
  - intros a Ha. rewrite Lo2 by lia. apply Lo1. lia.
  - intros s Hs Hcode HPs.
    destruct (R1 s Hs) as (g1 & Hq1 & S1); [|done|].
    { intros a Ha. rewrite Hcode by lia. apply Lo2. lia. }
    destruct (R2 (set_tb_ptr (set_regs s g1) (code_ptr t1))) as (g2 & Hq2 & S2).
    + done.
    + intros a Ha. cbn. apply Hcode. lia.
    + cbn. eauto.
    + exists g2. split; [eauto|]. etrans; [exact S1 | exact S2].
Qed.

Lemma Runs_ret P : Runs 0 (tci_ret tt) P (fun g g' => g' = g).
Proof.
  split; [lia|]. intros t Ht0 Ht. exists t. split; [done|]. split.
  - split; [|done]. destruct t; unfold set_code; cbn. f_equal. lia.
  - intros s Hs _ HP. eexists. split; [reflexivity|]. rewrite <- Hs. by destruct s.
Qed.

Lemma Runs_weaken k m (P P' : regfile -> Prop) (Q Q' : regfile -> regfile -> Prop) :
  Runs k m P Q -> (forall g, P' g -> P g) -> (forall g g', P' g -> Q g g' -> Q' g g') -> Runs k m P' Q'.
Proof.
  intros [Hk Hr] HP HQ. split; [done|]. intros t Ht0 Ht.
  destruct (Hr t Ht0 Ht) as (t' & Hm & He & R). exists t'. split_and!; [done.. |].
  intros s Hs Hc HPs. destruct (R s Hs Hc (HP _ HPs)) as (g' & Hq & S). eauto.
Qed.

(** One word. *)
Lemma Runs_word {A} e o (d : Z -> A) a P Q :
  encodes e o d a ->
  (forall insn g, d insn = a -> P g -> exists g', exec_alu o insn g = Some (inl g') /\ Q g g') ->
  Runs 1 (out_word e) P Q.
Proof.
  intros (insn & -> & Hrange & Hopc & Hd) Harm. split; [lia|]. intros t Ht0 Ht.
  cbn [out_word]. eexists. split; [reflexivity|]. cbn [code_ptr omem set_code].
  split; [split|].
  - unfold set_code. cbn. f_equal.
  - intros a' Ha. apply store_le_other. lia.
  - intros s Hs Hcode HP. destruct (Harm insn (tregs s) Hd HP) as (g' & Hg & HQ).
    exists g'. split; [done|]. apply rtc_once. unfold tci_step, load_word.
    rewrite Hs, (uint_small 32 (code_ptr t)) by lia.
    rewrite (load_le_ext _ (store_le (omem t) (code_ptr t) insn 4)), load_store_same
      by (intros; apply Hcode; lia).
    rewrite uint_small by done. rewrite Hopc. cbn [tregs set_tb_ptr]. rewrite Hg.
    rewrite uint_small by lia. done.
Qed.

(** ** One lemma per layout *)

Lemma Runs_rr o f r0 r1 :
  (forall insn g, exec_alu o insn g = arm_rr g insn f) -> is_reg r0 = true -> is_reg r1 = true ->
  Runs 1 (out_word (tcg_tci_out_op_rr o r0 r1)) (fun _ => True) (fun g g' => g' = wr g r0 (f (g r1))).
Proof.
  intros Ho ??. eapply Runs_word; [by apply encodes_rr|]. intros insn g Hd _.
  rewrite Ho. unfold arm_rr. rewrite Hd. eauto.
Qed.

Lemma Runs_rrr o f r0 r1 r2 :
  (forall insn g, exec_alu o insn g = arm_rrr g insn f) ->
  is_reg r0 = true -> is_reg r1 = true -> is_reg r2 = true ->
  Runs 1 (out_word (tcg_tci_out_op_rrr o r0 r1 r2)) (fun _ => True)
    (fun g g' => g' = wr g r0 (f (g r1) (g r2))).
Proof.
  intros Ho ???. eapply Runs_word; [by apply encodes_rrr|]. intros insn g Hd _.
  rewrite Ho. unfold arm_rrr. rewrite Hd. eauto.
Qed.

(** The operands of a division are defined. *)
Definition div_defined (w : Z) (signed : bool) (a b : Z) : Prop :=
  if signed then sdiv_ok w (sint w a) (sint w b) = true else uint w b <> 0.

Definition div_value (w : Z) (signed : bool) (f : Z -> Z -> Z) (a b : Z) : Z :=
  if signed then f (sint w a) (sint w b) else f (uint w a) (uint w b).

Lemma Runs_div o w sg f r0 r1 r2 :
  (forall insn g, exec_alu o insn g = arm_div g insn w sg f) ->
  is_reg r0 = true -> is_reg r1 = true -> is_reg r2 = true ->
  Runs 1 (out_word (tcg_tci_out_op_rrr o r0 r1 r2)) (fun g => div_defined w sg (g r1) (g r2))
    (fun g g' => g' = wr g r0 (div_value w sg f (g r1) (g r2))).
Proof.
  intros Ho ???. eapply Runs_word; [by apply encodes_rrr|]. intros insn g Hd HP.
  rewrite Ho. unfold arm_div. rewrite Hd. unfold div_defined, div_value, sdiv_ok in *.
  destruct sg; cbn [andb].
  - apply andb_true_iff in HP as [Hy Ho']. destruct (sint w (g r2) =? 0); [done|]. cbn [orb].
    destruct ((sint w (g r1) =? _) && _); [done|]. eauto.
  - destruct (Z.eqb_spec (uint w (g r2)) 0); [done|]. eauto.
Qed.

(** A comparison in the conditions of the switch. *)
Definition compare_cond (c : Z) : bool :=
  existsb (Z.eqb c)
    [TCG_COND_EQ; TCG_COND_NE; TCG_COND_LT; TCG_COND_GE; TCG_COND_LE; TCG_COND_GT;
     TCG_COND_LTU; TCG_COND_GEU; TCG_COND_LEU; TCG_COND_GTU].

Lemma compare_cond_cases c (P : Z -> Prop) :
  P TCG_COND_EQ -> P TCG_COND_NE -> P TCG_COND_LT -> P TCG_COND_GE -> P TCG_COND_LE ->
  P TCG_COND_GT -> P TCG_COND_LTU -> P TCG_COND_GEU -> P TCG_COND_LEU -> P TCG_COND_GTU ->
  compare_cond c = true -> P c.
Proof.
  intros. unfold compare_cond in *. cbn [existsb] in *.
  repeat match goal with
  | H : (c =? ?k) || _ = true |- _ => destruct (Z.eqb_spec c k); [by subst | cbn [orb] in H]
  end. done.
Qed.

Lemma tci_compare_eval w c a b :
  0 <= w -> compare_cond c = true -> exists r, tci_compare w a b c = Some r /\ cond_eval w c a b = Some r.
Proof.
  intros Hw Hc. pattern c. apply compare_cond_cases; try done;
    eexists; (split; [reflexivity |]); cbv [cond_eval tci_compare]; z_compute;
    rewrite ?(sint_eqm w (uint w a) a), ?(sint_eqm w (uint w b) b) by (by apply eqm_uint); reflexivity.
Qed.

Lemma compare_cond_reg c : compare_cond c = true -> is_reg c = true.
Proof. intros Hc. pattern c. by apply compare_cond_cases. Qed.

Lemma Runs_setcond o w r0 r1 r2 c :
  0 <= w -> (forall insn g, exec_alu o insn g = arm_setcond g insn w) ->
  is_reg r0 = true -> is_reg r1 = true -> is_reg r2 = true -> compare_cond c = true ->
  Runs 1 (out_word (tcg_tci_out_op_rrrc o r0 r1 r2 c)) (fun _ => True)
    (fun g g' => g' = wr g r0 (b2z (cond_holds w c (g r1) (g r2)))).
Proof.
  intros Hw Ho ??? Hc. eapply Runs_word; [by apply encodes_rrrc; try done; apply compare_cond_reg|].
  intros insn g Hd _. rewrite Ho. unfold arm_setcond. rewrite Hd. unfold cond_holds.
  destruct (tci_compare_eval w c (g r1) (g r2) Hw Hc) as (b & -> & ->). eauto.
Qed.

Lemma Runs_movcond o w r0 r1 r2 r3 r4 c :
  0 <= w -> (forall insn g, exec_alu o insn g = arm_movcond g insn w) ->
  forallb is_reg [r0; r1; r2; r3; r4] = true -> compare_cond c = true ->
  Runs 1 (out_word (tcg_tci_out_op_rrrrrc o r0 r1 r2 r3 r4 c)) (fun _ => True)
    (fun g g' => g' = wr g r0 (if cond_holds w c (g r1) (g r2) then g r3 else g r4)).
Proof.
  intros Hw Ho Hr Hc. cbn in Hr. rewrite !andb_true_iff in Hr. destruct Hr as (?&?&?&?&?&_).
  eapply Runs_word; [by apply encodes_rrrrrc; try done; apply compare_cond_reg|].
  intros insn g Hd _. rewrite Ho. unfold arm_movcond. rewrite Hd. unfold cond_holds.
  destruct (tci_compare_eval w c (g r1) (g r2) Hw Hc) as (b & -> & ->).
  eexists. split; [reflexivity|]. by destruct b.
Qed.

Lemma Runs_deposit o f w r0 r1 r2 p n :
  (forall insn g, exec_alu o insn g = arm_deposit g insn f) ->
  (forall a p n b, f a p n b = checked (field_ok w p n) (deposit_w w a p n b)) ->
  is_reg r0 = true -> is_reg r1 = true -> is_reg r2 = true ->
  field_ok w p n = true -> 0 <= p < 2 ^ 6 -> 0 <= n < 2 ^ 6 ->
  Runs 1 (out_word (tcg_tci_out_op_rrrbb o r0 r1 r2 p n)) (fun _ => True)
    (fun g g' => g' = wr g r0 (deposit_w w (g r1) p n (g r2))).
Proof.
  intros Ho Hf ??? Hok ??. eapply Runs_word; [by apply encodes_rrrbb|]. intros insn g Hd _.
  rewrite Ho. unfold arm_deposit. rewrite Hd, Hf, Hok. cbn. unfold arm. eauto.
Qed.

Lemma Runs_extract o f h w r0 r1 p n :
  (forall insn g, exec_alu o insn g = arm_extract g insn f) ->
  (forall a p n, f a p n = checked (field_ok w p n) (h a p n)) ->
  is_reg r0 = true -> is_reg r1 = true ->
  field_ok w p n = true -> 0 <= p < 2 ^ 6 -> 0 <= n < 2 ^ 6 ->
  Runs 1 (out_word (tcg_tci_out_op_rrbb o r0 r1 p n)) (fun _ => True)
    (fun g g' => g' = wr g r0 (h (g r1) p n)).
Proof.
  intros Ho Hf ?? Hok ??. eapply Runs_word; [by apply encodes_rrbb|]. intros insn g Hd _.
  rewrite Ho. unfold arm_extract. rewrite Hd, Hf, Hok. cbn. unfold arm. eauto.
Qed.

(** A word of six registers and of four. *)
Lemma Runs_rrrrrr o (h : regfile -> Z -> Z -> Z -> Z -> Z -> Z -> regfile) r0 r1 r2 r3 r4 r5 :
  (forall insn g, exec_alu o insn g =
     let '(r0, r1, r2, r3, r4, r5) := tci_args_rrrrrr insn in Some (inl (h g r0 r1 r2 r3 r4 r5))) ->
  forallb is_reg [r0; r1; r2; r3; r4; r5] = true ->
  Runs 1 (out_word (tcg_tci_out_op_rrrrrr o r0 r1 r2 r3 r4 r5)) (fun _ => True)
    (fun g g' => g' = h g r0 r1 r2 r3 r4 r5).
Proof.
  intros Ho Hr. cbn in Hr. rewrite !andb_true_iff in Hr. destruct Hr as (?&?&?&?&?&?&_).
  eapply Runs_word; [by apply encodes_rrrrrr|]. intros insn g Hd _. rewrite Ho, Hd. eauto.
Qed.

Lemma Runs_rrrr o (h : regfile -> Z -> Z -> Z -> Z -> regfile) r0 r1 r2 r3 :
  (forall insn g, exec_alu o insn g =
     let '(r0, r1, r2, r3) := tci_args_rrrr insn in Some (inl (h g r0 r1 r2 r3))) ->
  forallb is_reg [r0; r1; r2; r3] = true ->
  Runs 1 (out_word (tcg_tci_out_op_rrrr o r0 r1 r2 r3)) (fun _ => True)
    (fun g g' => g' = h g r0 r1 r2 r3).
Proof.
  intros Ho Hr. cbn in Hr. rewrite !andb_true_iff in Hr. destruct Hr as (?&?&?&?&_).
  eapply Runs_word; [by apply encodes_rrrr|]. intros insn g Hd _. rewrite Ho, Hd. eauto.
Qed.

Lemma Runs_movi o r0 i :
  o = INDEX_op_tci_movi -> is_reg r0 = true -> - 2 ^ 19 <= i < 2 ^ 19 ->
  Runs 1 (out_word (tcg_tci_out_op_ri o r0 i)) (fun _ => True) (fun g g' => g' = wr g r0 i).
Proof.
  intros -> ??. eapply Runs_word; [by apply encodes_ri|]. intros insn g Hd _. unfold exec_alu. rewrite Hd.
  eexists. split; [reflexivity|]. unfold wr. by rewrite uint_uint by lia.
Qed.

End Runs.
