(* ===== verification/Wasm.v ===== *)
(** * The WebAssembly that the backend uses: instructions and their bytes

    Instructions as the WebAssembly specification defines them, restricted to
    those that tcg/wasm32/tcg-target.c.inc writes, with their binary format.
    [instr_bytes] is the encoding and [decode] reads a byte sequence back; the
    integers are LEB128, for which the file has the encoders of the backend
    ([tcg_wasm_out_leb128_*], [write_uint32_leb128], [fill_uint32_leb128]) and
    the decoders of the specification. *)

From Stdlib Require Import ZArith Lia Bool.
From stdpp Require Import base numbers functions list option.
From S2P Require Import Prelude.

Local Open Scope Z_scope.

(** ** Instructions *)

Inductive vty : Set := T32 | T64.

#[export] Instance vty_eq_dec : EqDecision vty.
Proof. solve_decision. Defined.

Inductive unop : Set := Clz | Ctz | Popcnt.
Inductive binop : Set :=
| Add | Sub | Mul | DivS | DivU | RemS | RemU | And | Or | Xor | Shl | ShrS | ShrU | Rotl | Rotr.
Inductive relop : Set := Eq | Ne | LtS | LtU | GtS | GtU | LeS | LeU | GeS | GeU.

(** A block has no result or one. *)
Definition blockty : Set := option vty.

(** [Load bytes signed] and [Store bytes] are the accesses of an i64 that are
    narrower than the type or equal to it; [Load32] and [Store32] are those of
    an i32. *)
Inductive instr : Set :=
| Unreachable | Nop
| Loop (b : blockty) | If (b : blockty) | Else | End
| Br (l : Z) | Return | Call (f : Z)
| LocalGet (i : Z) | LocalSet (i : Z) | LocalTee (i : Z)
| GlobalGet (i : Z) | GlobalSet (i : Z)
| Load32 (align off : Z) | Load (bytes : nat) (signed : bool) (align off : Z)
| Store32 (align off : Z) | Store (bytes : nat) (align off : Z)
| Const (t : vty) (v : Z)
| Eqz (t : vty) | Unop (t : vty) (o : unop) | Binop (t : vty) (o : binop) | Relop (t : vty) (o : relop)
| WrapI64 | ExtendI32S | ExtendI32U | Extend8S | Extend16S.

(** ** LEB128: the encoders of the backend

    The loops run on the unsigned pattern of the value; [w] is the width of
    the C type.  A signed value keeps its sign in the vacated bits. *)

Fixpoint sleb (fuel : nat) (w : Z) (negative : bool) (uv : Z) : list Z :=
  match fuel with
  | O => []
  | S fuel' =>
      let b := Z.land uv 0x7f in
      let uv := Z.shiftr uv 7 in
      let uv := if negative then uint w (Z.lor uv (Z.shiftl (-1) (w - 7))) else uv in
      if ((uv =? 0) && (Z.land b 0x40 =? 0)) || ((uv =? uint w (-1)) && negb (Z.land b 0x40 =? 0))
      then [b]
      else Z.lor b 0x80 :: sleb fuel' w negative uv
  end.

Definition tcg_wasm_out_leb128_sint32_t (v : Z) : list Z := sleb 5 32 (sint 32 v <? 0) (uint 32 v).
Definition tcg_wasm_out_leb128_sint64_t (v : Z) : list Z := sleb 10 64 (sint 64 v <? 0) (uint 64 v).

Fixpoint uleb (fuel : nat) (v : Z) : list Z :=
  match fuel with
  | O => []
  | S fuel' =>
      let b := Z.land v 0x7f in
      let v := Z.shiftr v 7 in
      if v =? 0 then [b] else Z.lor b 0x80 :: uleb fuel' v
  end.

Definition tcg_wasm_out_leb128_uint32_t (v : Z) : list Z := uleb 5 (uint 32 v).
Definition write_uint32_leb128 (v : Z) : list Z := uleb 5 (uint 32 v).

(** Fills a placeholder of five bytes: the continuation bits are there. *)
Fixpoint fill_leb (fuel : nat) (v : Z) (l : list Z) : list Z :=
  match fuel, l with
  | S fuel', b :: l' =>
      let v' := Z.shiftr v 7 in
      Z.lor b (Z.land v 0x7f) :: (if v' =? 0 then l' else fill_leb fuel' v' l')
  | _, _ => l
  end.
Definition fill_uint32_leb128 (v : Z) (l : list Z) : list Z := fill_leb 5 (uint 32 v) l.

(** ** LEB128: the decoders of the specification

    [n] bits remain; a byte carries seven of them. *)

Fixpoint read_u (fuel : nat) (l : list Z) : option (Z * list Z) :=
  match fuel, l with
  | S fuel', b :: l' =>
      if b <? 0x80 then Some (b, l')
      else '(v, l'') ← read_u fuel' l'; Some (Z.land b 0x7f + 0x80 * v, l'')
  | _, _ => None
  end.

Fixpoint read_s (fuel : nat) (l : list Z) : option (Z * list Z) :=
  match fuel, l with
  | S fuel', b :: l' =>
      if b <? 0x80 then Some (sint 7 b, l')
      else '(v, l'') ← read_s fuel' l'; Some (Z.land b 0x7f + 0x80 * v, l'')
  | _, _ => None
  end.

(** A 32-bit value takes at most five bytes, a 64-bit one ten. *)
Definition read_u32 (l : list Z) : option (Z * list Z) := read_u 5 l.
Definition read_s32 (l : list Z) : option (Z * list Z) := read_s 5 l.
Definition read_s64 (l : list Z) : option (Z * list Z) := read_s 10 l.

(** ** Binary format *)

Definition relop_index (o : relop) : Z :=
  match o with
  | Eq => 0 | Ne => 1 | LtS => 2 | LtU => 3 | GtS => 4 | GtU => 5 | LeS => 6 | LeU => 7 | GeS => 8 | GeU => 9
  end.
Definition unop_index (o : unop) : Z := match o with Clz => 0 | Ctz => 1 | Popcnt => 2 end.
Definition binop_index (o : binop) : Z :=
  match o with
  | Add => 0 | Sub => 1 | Mul => 2 | DivS => 3 | DivU => 4 | RemS => 5 | RemU => 6 | And => 7 | Or => 8
  | Xor => 9 | Shl => 10 | ShrS => 11 | ShrU => 12 | Rotl => 13 | Rotr => 14
  end.

Definition blockty_byte (b : blockty) : Z :=
  match b with None => 0x40 | Some T32 => 0x7f | Some T64 => 0x7e end.

(** The opcode of an access to an i64. *)
Definition load_byte (n : nat) (signed : bool) : Z :=
  match n, signed with
  | 1%nat, true => 0x30 | 1%nat, false => 0x31
  | 2%nat, true => 0x32 | 2%nat, false => 0x33
  | 4%nat, true => 0x34 | 4%nat, false => 0x35
  | _, _ => 0x29
  end.
Definition store_byte (n : nat) : Z :=
  match n with 1%nat => 0x3c | 2%nat => 0x3d | 4%nat => 0x3e | _ => 0x37 end.

Definition memarg (a o : Z) : list Z :=
  tcg_wasm_out_leb128_uint32_t a ++ tcg_wasm_out_leb128_uint32_t o.

Definition instr_bytes (i : instr) : list Z :=
  match i with
  | Unreachable => [0x00] | Nop => [0x01]
  | Loop b => [0x03; blockty_byte b] | If b => [0x04; blockty_byte b] | Else => [0x05] | End => [0x0b]
  | Br l => 0x0c :: tcg_wasm_out_leb128_uint32_t l
  | Return => [0x0f]
  | Call f => 0x10 :: tcg_wasm_out_leb128_uint32_t f
  | LocalGet i => 0x20 :: tcg_wasm_out_leb128_uint32_t i
  | LocalSet i => 0x21 :: tcg_wasm_out_leb128_uint32_t i
  | LocalTee i => 0x22 :: tcg_wasm_out_leb128_uint32_t i
  | GlobalGet i => 0x23 :: tcg_wasm_out_leb128_uint32_t i
  | GlobalSet i => 0x24 :: tcg_wasm_out_leb128_uint32_t i
  | Load32 a o => 0x28 :: memarg a o
  | Load n s a o => load_byte n s :: memarg a o
  | Store32 a o => 0x36 :: memarg a o
  | Store n a o => store_byte n :: memarg a o
  | Const T32 v => 0x41 :: tcg_wasm_out_leb128_sint32_t v
  | Const T64 v => 0x42 :: tcg_wasm_out_leb128_sint64_t v
  | Eqz T32 => [0x45] | Eqz T64 => [0x50]
  | Relop T32 o => [0x46 + relop_index o] | Relop T64 o => [0x51 + relop_index o]
  | Unop T32 o => [0x67 + unop_index o] | Unop T64 o => [0x79 + unop_index o]
  | Binop T32 o => [0x6a + binop_index o] | Binop T64 o => [0x7c + binop_index o]
  | WrapI64 => [0xa7] | ExtendI32S => [0xac] | ExtendI32U => [0xad]
  | Extend8S => [0xc2] | Extend16S => [0xc3]
  end.

Definition code_bytes (l : list instr) : list Z := flat_map instr_bytes l.

(** ** Decoding *)

Definition relops : list relop := [Eq; Ne; LtS; LtU; GtS; GtU; LeS; LeU; GeS; GeU].
Definition unops : list unop := [Clz; Ctz; Popcnt].
Definition binops : list binop :=
  [Add; Sub; Mul; DivS; DivU; RemS; RemU; And; Or; Xor; Shl; ShrS; ShrU; Rotl; Rotr].

Definition within (lo hi b : Z) : bool := (lo <=? b) && (b <=? hi).

(** Operators, of which the opcodes are consecutive. *)
Definition decode_num (b : Z) : option instr :=
  if within 0x46 0x4f b then Relop T32 <$> relops !! Z.to_nat (b - 0x46)
  else if within 0x51 0x5a b then Relop T64 <$> relops !! Z.to_nat (b - 0x51)
  else if within 0x67 0x69 b then Unop T32 <$> unops !! Z.to_nat (b - 0x67)
  else if within 0x79 0x7b b then Unop T64 <$> unops !! Z.to_nat (b - 0x79)
  else if within 0x6a 0x78 b then Binop T32 <$> binops !! Z.to_nat (b - 0x6a)
  else if within 0x7c 0x8a b then Binop T64 <$> binops !! Z.to_nat (b - 0x7c)
  else if b =? 0x45 then Some (Eqz T32)
  else if b =? 0x50 then Some (Eqz T64)
  else if b =? 0xa7 then Some WrapI64
  else if b =? 0xac then Some ExtendI32S
  else if b =? 0xad then Some ExtendI32U
  else if b =? 0xc2 then Some Extend8S
  else if b =? 0xc3 then Some Extend16S
  else if b =? 0x00 then Some Unreachable
  else if b =? 0x01 then Some Nop
  else if b =? 0x05 then Some Else
  else if b =? 0x0b then Some End
  else if b =? 0x0f then Some Return
  else None.

(** Instructions with one unsigned immediate. *)
Definition decode_idx (b : Z) : option (Z -> instr) :=
  if b =? 0x0c then Some Br
  else if b =? 0x10 then Some Call
  else if b =? 0x20 then Some LocalGet
  else if b =? 0x21 then Some LocalSet
  else if b =? 0x22 then Some LocalTee
  else if b =? 0x23 then Some GlobalGet
  else if b =? 0x24 then Some GlobalSet
  else None.

(** Accesses to memory. *)
Definition decode_mem (b : Z) : option (Z -> Z -> instr) :=
  if b =? 0x28 then Some Load32
  else if b =? 0x29 then Some (Load 8 false)
  else if b =? 0x30 then Some (Load 1 true)
  else if b =? 0x31 then Some (Load 1 false)
  else if b =? 0x32 then Some (Load 2 true)
  else if b =? 0x33 then Some (Load 2 false)
  else if b =? 0x34 then Some (Load 4 true)
  else if b =? 0x35 then Some (Load 4 false)
  else if b =? 0x36 then Some Store32
  else if b =? 0x37 then Some (Store 8)
  else if b =? 0x3c then Some (Store 1)
  else if b =? 0x3d then Some (Store 2)
  else if b =? 0x3e then Some (Store 4)
  else None.

Definition decode_blockty (b : Z) : option blockty :=
  if b =? 0x40 then Some None
  else if b =? 0x7f then Some (Some T32)
  else if b =? 0x7e then Some (Some T64)
  else None.

Definition decode1 (l : list Z) : option (instr * list Z) :=
  match l with
  | [] => None
  | b :: l =>
      match decode_num b, decode_idx b, decode_mem b with
      | Some i, _, _ => Some (i, l)
      | _, Some f, _ => '(v, l) ← read_u32 l; Some (f v, l)
      | _, _, Some f => '(a, l) ← read_u32 l; '(o, l) ← read_u32 l; Some (f a o, l)
      | _, _, _ =>
          if (b =? 0x03) || (b =? 0x04) then
            match l with
            | t :: l => bt ← decode_blockty t; Some ((if b =? 0x03 then Loop bt else If bt), l)
            | [] => None
            end
          else if b =? 0x41 then '(v, l) ← read_s32 l; Some (Const T32 v, l)
          else if b =? 0x42 then '(v, l) ← read_s64 l; Some (Const T64 v, l)
          else None
      end
  end.

(** A byte sequence has at most as many instructions as bytes. *)
Fixpoint decode_list (fuel : nat) (l : list Z) : option (list instr) :=
  match l, fuel with
  | [], _ => Some []
  | _, O => None
  | _, S fuel' => '(i, l') ← decode1 l; (i ::.) <$> decode_list fuel' l'
  end.

Definition decode (l : list Z) : option (list instr) := decode_list (length l) l.

(** ** Round trips of LEB128 *)

Lemma land_7f x : Z.land x 0x7f = x mod 128.
Proof. change 0x7f with (Z.ones 7). by rewrite Z.land_ones by lia. Qed.

Lemma lor_80 b : 0 <= b < 128 -> Z.lor b 0x80 = b + 128.
Proof.
  intros Hb. apply lor_add_disjoint. change 128 with (Z.shiftl 1 7).
  apply Z.bits_inj'; intros i Hi. rewrite Z.land_spec, Z.bits_0, shiftl_testbit by lia.
  destruct (Z.leb_spec 7 i); [|by rewrite andb_false_r].
  by rewrite (testbit_above 7 b i) by lia.
Qed.

Lemma shiftr_7 x : Z.shiftr x 7 = x / 128.
Proof. by rewrite shiftr_div by lia. Qed.

Lemma read_u_uleb fuel v rest :
  0 <= v < 2 ^ (7 * Z.of_nat fuel) -> (0 < fuel)%nat -> read_u fuel (uleb fuel v ++ rest) = Some (v, rest).
Proof.
  revert v. induction fuel as [|fuel IH]; intros v Hv Hf; [lia|].
  cbn [uleb]. rewrite land_7f, shiftr_7.
  pose proof (Z.mod_pos_bound v 128 ltac:(lia)). pose proof (Z.div_mod v 128 ltac:(lia)).
  destruct (Z.eqb_spec (v / 128) 0) as [E|E].
  - cbn [app read_u]. destruct (Z.ltb_spec (v mod 128) 0x80); [|lia]. do 2 f_equal. lia.
  - rewrite lor_80 by lia. cbn [app read_u]. destruct (Z.ltb_spec (v mod 128 + 128) 0x80); [lia|].
    replace (7 * Z.of_nat (S fuel)) with (7 + 7 * Z.of_nat fuel) in Hv by lia.
    rewrite Z.pow_add_r in Hv by lia. change (2 ^ 7) with 128 in Hv.
    destruct fuel as [|fuel]; [cbn in Hv; pose proof (Z.div_small v 128); lia|].
    rewrite IH; [| split; [apply Z.div_pos; lia | apply Z.div_lt_upper_bound; lia] | lia].
    cbn. rewrite land_7f. do 2 f_equal. rewrite <- Zplus_mod_idemp_r, Z_mod_same_full, Z.add_0_r.
    rewrite Z.mod_mod by lia. lia.
Qed.

Lemma negative_bit w s i : - 2 ^ w <= s < 0 -> w <= i -> 0 <= i -> Z.testbit s i = true.
Proof.
  intros Hs Hi Hi0. rewrite <- (negb_involutive (Z.testbit s i)), <- Z.lnot_spec by done.
  rewrite (testbit_above w); [done | unfold Z.lnot; lia | done].
Qed.

Lemma sleb_next w s :
  7 < w -> - 2 ^ (w - 1) <= s < 2 ^ (w - 1) ->
  (if s <? 0 then uint w (Z.lor (Z.shiftr (uint w s) 7) (Z.shiftl (-1) (w - 7)))
   else Z.shiftr (uint w s) 7) = uint w (Z.shiftr s 7).
Proof.
  intros Hw Hs. pose proof (pow2_double w ltac:(lia)). destruct (Z.ltb_spec s 0).
  - apply Z.bits_inj'; intros i Hi. rewrite !uint_testbit, Z.lor_spec, !Z.shiftr_spec, uint_testbit by lia.
    rewrite shiftl_testbit by lia. destruct (Z.ltb_spec i w); [|done]. cbn.
    destruct (Z.leb_spec (w - 7) i).
    + rewrite m1_testbit, (negative_bit (w - 1) s) by lia. by rewrite !orb_true_r.
    + destruct (Z.ltb_spec (i + 7) w); [|lia]. cbn. by rewrite orb_false_r.
  - rewrite (uint_small w s) by lia. rewrite uint_small; [done|].
    rewrite shiftr_7. split; [apply Z.div_pos; lia | apply Z.div_lt_upper_bound; lia].
Qed.

Lemma bit6 b : 0 <= b < 128 -> (Z.land b 0x40 =? 0) = (b <? 64).
Proof.
  intros Hb. pose proof (positions_spec 128 b Hb) as Hin.
  assert (Hall : forallb (fun b => eqb (Z.land b 0x40 =? 0) (b <? 64)) (positions 128) = true)
    by (vm_compute; reflexivity).
  apply eqb_prop. by apply (proj1 (forallb_forall _ _) Hall).
Qed.

(** When the loop stops, on the value instead of its pattern. *)
Lemma sleb_stop w s :
  7 < w -> - 2 ^ (w - 1) <= s < 2 ^ (w - 1) ->
  ((uint w (Z.shiftr s 7) =? 0) && (Z.land (s mod 128) 0x40 =? 0)) ||
  ((uint w (Z.shiftr s 7) =? uint w (-1)) && negb (Z.land (s mod 128) 0x40 =? 0)) =
  ((-64 <=? s) && (s <? 64)).
Proof.
  intros Hw Hs. rewrite shiftr_7. pose proof (pow2_double w ltac:(lia)) as Hd.
  pose proof (Z.div_mod s 128 ltac:(lia)) as Hdm. pose proof (Z.mod_pos_bound s 128 ltac:(lia)) as Hm.
  assert (128 < 2 ^ w) by (change 128 with (2 ^ 7); apply Z.pow_lt_mono_r; lia).
  assert (Hq : uint w (s / 128) = if s / 128 <? 0 then s / 128 + 2 ^ w else s / 128).
  { unfold uint. destruct (Z.ltb_spec (s / 128) 0).
    - rewrite <- (Z.mod_unique (s / 128) (2 ^ w) (-1) (s / 128 + 2 ^ w)); lia.
    - rewrite Z.mod_small; lia. }
  assert (Hm1 : uint w (-1) = 2 ^ w - 1)
    by (unfold uint; rewrite <- (Z.mod_unique (-1) (2 ^ w) (-1) (2 ^ w - 1)); lia).
  rewrite Hq, Hm1, bit6 by done. destruct (Z.ltb_spec (s / 128) 0), (Z.ltb_spec (s mod 128) 64); cbn [negb andb orb];
    split_cmp; cbn; lia.
Qed.

Lemma read_s_cons fuel b l :
  read_s (S fuel) (b :: l) =
  if b <? 0x80 then Some (sint 7 b, l)
  else '(v, l') ← read_s fuel l; Some (Z.land b 0x7f + 0x80 * v, l').
Proof. done. Qed.

Lemma read_s_sleb fuel w s rest :
  7 < w -> (0 < fuel)%nat -> - 2 ^ (w - 1) <= s < 2 ^ (w - 1) ->
  - 2 ^ (7 * Z.of_nat fuel - 1) <= s < 2 ^ (7 * Z.of_nat fuel - 1) ->
  read_s fuel (sleb fuel w (s <? 0) (uint w s) ++ rest) = Some (s, rest).
Proof.
  revert s. induction fuel as [|fuel IH]; intros s Hw Hf Hs Hfuel; [lia|].
  cbn [sleb]. rewrite sleb_next by done. rewrite land_7f.
  assert (uint w s mod 128 = s mod 128) as ->.
  { change 128 with (2 ^ 7). apply (uint_uint_le 7 w s). lia. }
  rewrite sleb_stop by done. pose proof (Z.mod_pos_bound s 128 ltac:(lia)).
  pose proof (Z.div_mod s 128 ltac:(lia)).
  destruct ((-64 <=? s) && (s <? 64)) eqn:E.
  - cbn [app read_s]. destruct (Z.ltb_spec (s mod 128) 0x80); [|lia]. do 2 f_equal.
    transitivity (sint 7 s); [apply sint_eqm; apply (eqm_uint 7 s); lia | apply sint_small; lia].
  - destruct fuel as [|fuel]; [cbn in Hfuel; lia|].
    rewrite lor_80 by done. cbn [app]. rewrite read_s_cons. destruct (Z.ltb_spec (s mod 128 + 128) 0x80); [lia|].
    rewrite shiftr_7. replace (s <? 0) with (s / 128 <? 0) by (split_cmp; done || lia).
    replace (7 * Z.of_nat (S (S fuel)) - 1) with (7 + (7 * Z.of_nat (S fuel) - 1)) in Hfuel by lia.
    rewrite Z.pow_add_r in Hfuel by lia. change (2 ^ 7) with 128 in Hfuel.
    rewrite IH by lia. cbn [mbind option_bind]. rewrite land_7f. do 2 f_equal.
    rewrite <- Zplus_mod_idemp_r, Z_mod_same_full, Z.add_0_r, Z.mod_mod by lia. lia.
Qed.

Lemma read_u32_leb v rest : read_u32 (tcg_wasm_out_leb128_uint32_t v ++ rest) = Some (uint 32 v, rest).
Proof.
  apply (read_u_uleb 5); [|lia]. pose proof (uint_range 32 v ltac:(lia)).
  change (7 * Z.of_nat 5) with 35. lia.
Qed.

Lemma sleb_pattern fuel w v :
  0 < w -> sleb fuel w (sint w v <? 0) (uint w v) = sleb fuel w (sint w v <? 0) (uint w (sint w v)).
Proof. intros. by rewrite uint_sint by lia. Qed.

Lemma read_s32_leb v rest : read_s32 (tcg_wasm_out_leb128_sint32_t v ++ rest) = Some (sint 32 v, rest).
Proof.
  unfold tcg_wasm_out_leb128_sint32_t. rewrite sleb_pattern by lia.
  pose proof (sint_range 32 v ltac:(lia)) as Hr. change (32 - 1) with 31 in Hr.
  apply (read_s_sleb 5 32); [lia | lia | exact Hr |]. change (7 * Z.of_nat 5 - 1) with 34. lia.
Qed.

Lemma read_s64_leb v rest : read_s64 (tcg_wasm_out_leb128_sint64_t v ++ rest) = Some (sint 64 v, rest).
Proof.
  unfold tcg_wasm_out_leb128_sint64_t. rewrite sleb_pattern by lia.
  pose proof (sint_range 64 v ltac:(lia)) as Hr. change (64 - 1) with 63 in Hr.
  apply (read_s_sleb 10 64); [lia | lia | exact Hr |]. change (7 * Z.of_nat 10 - 1) with 69. lia.
Qed.

(** The placeholder of a block number, and of a section size. *)
Definition leb_placeholder : list Z := [0x80; 0x80; 0x80; 0x80; 0x00].

(** A filled placeholder has the continuation bits of five bytes. *)
Lemma fill_placeholder v :
  0 <= v < 2 ^ 32 ->
  fill_uint32_leb128 v leb_placeholder =
  [v mod 128 + 128; v / 2 ^ 7 mod 128 + 128; v / 2 ^ 14 mod 128 + 128; v / 2 ^ 21 mod 128 + 128; v / 2 ^ 28].
Proof.
  intros Hv. unfold fill_uint32_leb128, leb_placeholder. rewrite uint_small by done.
  assert (Hor : forall x, Z.lor 128 (x mod 128) = x mod 128 + 128).
  { intros x. rewrite Z.lor_comm. apply lor_80, Z.mod_pos_bound. lia. }
  assert (Hz : forall x, 0 <= x -> x / 128 = 0 -> x < 128) by (intros x ??; pose proof (Z.div_mod x 128); pose proof (Z.mod_pos_bound x 128); lia).
  cbn [fill_leb]. rewrite !land_7f, !shiftr_7, !Hor, Z.lor_0_l, !Z.div_div by lia.
  change (128 * 128) with (2 ^ 14). change (2 ^ 14 * 128) with (2 ^ 21). change (2 ^ 21 * 128) with (2 ^ 28).
  assert (0 <= v / 2 ^ 28 < 128) as Htop
    by (split; [apply Z.div_pos; lia | apply Z.div_lt_upper_bound; lia]).
  rewrite (Z.mod_small (v / 2 ^ 28)) by done.
  assert (Hdiv : forall k, 0 < k -> v < k -> v / k = 0) by (intros; apply Z.div_small; lia).
  change (v / 128) with (v / 2 ^ 7).
  destruct (Z.eqb_spec (v / 2 ^ 7) 0) as [E|E].
  { apply Hz in E; [|lia]. rewrite !Hdiv by lia. done. }
  destruct (Z.eqb_spec (v / 2 ^ 14) 0) as [E1|E1].
  { assert (v < 2 ^ 14) by (pose proof (Z.div_mod v (2 ^ 14)); pose proof (Z.mod_pos_bound v (2 ^ 14)); lia).
    rewrite (Hdiv (2 ^ 14)), (Hdiv (2 ^ 21)), (Hdiv (2 ^ 28)) by lia. done. }
  destruct (Z.eqb_spec (v / 2 ^ 21) 0) as [E2|E2].
  { assert (v < 2 ^ 21) by (pose proof (Z.div_mod v (2 ^ 21)); pose proof (Z.mod_pos_bound v (2 ^ 21)); lia).
    rewrite (Hdiv (2 ^ 21)), (Hdiv (2 ^ 28)) by lia. done. }
  destruct (Z.eqb_spec (v / 2 ^ 28) 0) as [->|E3]; [done|].
  by destruct (_ =? 0).
Qed.

(** The value of five bytes of seven bits. *)
Lemma five_digits v :
  v mod 128 + 0x80 * (v / 2 ^ 7 mod 128 + 0x80 * (v / 2 ^ 14 mod 128 + 0x80 * (v / 2 ^ 21 mod 128 + 0x80 * (v / 2 ^ 28)))) = v.
Proof.
  pose proof (Z.div_mod v 128 ltac:(lia)). pose proof (Z.div_mod (v / 2 ^ 7) 128 ltac:(lia)).
  pose proof (Z.div_mod (v / 2 ^ 14) 128 ltac:(lia)). pose proof (Z.div_mod (v / 2 ^ 21) 128 ltac:(lia)).
  rewrite !Z.div_div in * by lia. change (2 ^ 7 * 128) with (2 ^ 14) in *.
  change (2 ^ 14 * 128) with (2 ^ 21) in *. change (2 ^ 21 * 128) with (2 ^ 28) in *.
  change (v / 2 ^ 7) with (v / 128) in *. lia.
Qed.

Lemma continued x : (x mod 128 + 128 <? 0x80) = false.
Proof. pose proof (Z.mod_pos_bound x 128). apply Z.ltb_ge. lia. Qed.

Lemma continued_value x : Z.land (x mod 128 + 128) 0x7f = x mod 128.
Proof. rewrite land_7f, <- Zplus_mod_idemp_r, Z_mod_same_full, Z.add_0_r, Z.mod_mod; lia. Qed.

Lemma read_filled_u32 v rest :
  0 <= v < 2 ^ 32 -> read_u32 (fill_uint32_leb128 v leb_placeholder ++ rest) = Some (v, rest).
Proof.
  intros Hv. rewrite fill_placeholder by done.
  assert (v / 2 ^ 28 < 128) by (apply Z.div_lt_upper_bound; lia).
  unfold read_u32. cbn [app read_u]. rewrite !continued. destruct (Z.ltb_spec (v / 2 ^ 28) 0x80); [|lia].
  cbn [mbind option_bind]. rewrite !continued_value. by rewrite five_digits.
Qed.

Lemma read_filled_s64 v rest :
  0 <= v < 2 ^ 32 -> read_s64 (fill_uint32_leb128 v leb_placeholder ++ rest) = Some (v, rest).
Proof.
  intros Hv. rewrite fill_placeholder by done.
  assert (0 <= v / 2 ^ 28 < 64) by (split; [apply Z.div_pos; lia | apply Z.div_lt_upper_bound; lia]).
  unfold read_s64. cbn [app]. rewrite !read_s_cons, !continued.
  destruct (Z.ltb_spec (v / 2 ^ 28) 0x80); [|lia].
  cbn [mbind option_bind]. rewrite !continued_value, sint_small, five_digits by (cbn; lia). done.
Qed.

(** ** Round trip of instructions *)

(** Immediates within their types; accesses of a width that exists. *)
Definition instr_ok (i : instr) : bool :=
  match i with
  | Br v | Call v | LocalGet v | LocalSet v | LocalTee v | GlobalGet v | GlobalSet v => uint 32 v =? v
  | Load32 a o | Store32 a o => (uint 32 a =? a) && (uint 32 o =? o)
  | Load n s a o =>
      match n, s with 1%nat, _ | 2%nat, _ | 4%nat, _ | 8%nat, false => true | _, _ => false end &&
      (uint 32 a =? a) && (uint 32 o =? o)
  | Store n a o =>
      match n with 1%nat | 2%nat | 4%nat | 8%nat => true | _ => false end &&
      (uint 32 a =? a) && (uint 32 o =? o)
  | Const T32 v => sint 32 v =? v
  | Const T64 v => sint 64 v =? v
  | _ => true
  end.

Lemma decode1_idx b f v rest :
  decode_num b = None -> decode_idx b = Some f -> uint 32 v = v ->
  decode1 (b :: tcg_wasm_out_leb128_uint32_t v ++ rest) = Some (f v, rest).
Proof. intros Hn Hi Hv. cbn [decode1]. by rewrite Hn, Hi, read_u32_leb, Hv. Qed.

Lemma decode1_mem b f a o rest :
  decode_num b = None -> decode_idx b = None -> decode_mem b = Some f ->
  uint 32 a = a -> uint 32 o = o ->
  decode1 (b :: memarg a o ++ rest) = Some (f a o, rest).
Proof.
  intros Hn Hi Hm Ha Ho. cbn [decode1]. unfold memarg. rewrite <- app_assoc.
  rewrite Hn, Hi, Hm, read_u32_leb. cbn [mbind option_bind]. by rewrite read_u32_leb, Ha, Ho.
Qed.

Lemma decode1_encode i rest :
  instr_ok i = true -> decode1 (instr_bytes i ++ rest) = Some (i, rest).
Proof.
  intros Hi. destruct i; cbn in Hi; rewrite ?andb_true_iff, ?Z.eqb_eq in Hi; try done.
  all: try (by apply decode1_idx).
  - by destruct b as [[]|].
  - by destruct b as [[]|].
  - destruct Hi. by apply decode1_mem.
  - destruct Hi as [[]].
    repeat (destruct bytes as [|bytes]; try (by destruct signed; (done || apply decode1_mem))).
  - destruct Hi. by apply decode1_mem.
  - destruct Hi as [[]].
    repeat (destruct bytes as [|bytes]; try (by apply decode1_mem || done)).
  - destruct t; apply Z.eqb_eq in Hi; cbn [instr_bytes app decode1].
    + by rewrite read_s32_leb, Hi.
    + by rewrite read_s64_leb, Hi.
  - by destruct t.
  - by destruct t, o.
  - by destruct t, o.
  - by destruct t, o.
Qed.

Lemma instr_bytes_nonempty i : (0 < length (instr_bytes i))%nat.
Proof. destruct i; cbn; try lia; destruct t; cbn; lia. Qed.

Lemma decode_list_encode l fuel :
  forallb instr_ok l = true -> (length (code_bytes l) <= fuel)%nat ->
  decode_list fuel (code_bytes l) = Some l.
Proof.
  revert fuel. induction l as [|i l IH]; intros fuel Hl Hf; [by destruct fuel|].
  cbn in Hl. apply andb_true_iff in Hl as [Hi Hl].
  unfold code_bytes in *. cbn [flat_map] in *. rewrite length_app in Hf.
  pose proof (instr_bytes_nonempty i). destruct fuel as [|fuel]; [lia|].
  destruct (instr_bytes i ++ flat_map instr_bytes l) eqn:E.
  { apply app_eq_nil in E as [E _]. rewrite E in *. cbn in *. lia. }
  cbn [decode_list]. rewrite <- E, decode1_encode by done. cbn [mbind option_bind].
  rewrite IH by (done || lia). done.
Qed.

Lemma decode_encode l : forallb instr_ok l = true -> decode (code_bytes l) = Some l.
Proof. intros. by apply decode_list_encode. Qed.
