(* ===== verification/WasmSem.v ===== *)
(** * Structured code, validation and execution

    A function body is a tree of blocks ([code]); [flatten] writes it as a
    sequence of instructions and [parse] reads it back.  [check] is the stack
    discipline that a WebAssembly engine enforces when it compiles a module,
    [exec] the execution of code: globals are the registers of the translated
    program, the memory is the memory of the host. *)

From Stdlib Require Import ZArith Lia Bool.
From stdpp Require Import base numbers functions list option.
From S2P Require Import Prelude.
From S2P Require Import Bytes.
From S2P Require Import Bitops.
From S2P Require Import TcgOpc.
From S2P Require Import TcgCtx.
From S2P Require Import TcgSem.
From S2P Require Import Wasm.

Local Open Scope Z_scope.

(** ** Trees *)

Inductive code :=
| Plain (i : instr)
| IfElse (b : blockty) (th : list code) (el : option (list code))
| LoopB (b : blockty) (body : list code).

Fixpoint flat1 (c : code) : list instr :=
  match c with
  | Plain i => [i]
  | IfElse b th el =>
      If b :: flat_map flat1 th ++
      match el with None => [] | Some el => Else :: flat_map flat1 el end ++ [End]
  | LoopB b body => Loop b :: flat_map flat1 body ++ [End]
  end.

Definition flatten (l : list code) : list instr := flat_map flat1 l.

(** What the parser is inside of: the code before the block, newest first. *)
Inductive frame :=
| FIf (b : blockty) (outer : list code)
| FElse (b : blockty) (th outer : list code)
| FLoop (b : blockty) (outer : list code).

Fixpoint parse_go (l : list instr) (cur : list code) (st : list frame) : option (list code) :=
  match l with
  | [] => match st with [] => Some (rev cur) | _ => None end
  | If b :: l => parse_go l [] (FIf b cur :: st)
  | Loop b :: l => parse_go l [] (FLoop b cur :: st)
  | Else :: l =>
      match st with
      | FIf b outer :: st => parse_go l [] (FElse b (rev cur) outer :: st)
      | _ => None
      end
  | End :: l =>
      match st with
      | FIf b outer :: st => parse_go l (IfElse b (rev cur) None :: outer) st
      | FElse b th outer :: st => parse_go l (IfElse b th (Some (rev cur)) :: outer) st
      | FLoop b outer :: st => parse_go l (LoopB b (rev cur) :: outer) st
      | [] => None
      end
  | i :: l => parse_go l (Plain i :: cur) st
  end.

Definition parse (l : list instr) : option (list code) := parse_go l [] [].

(** ** Execution *)

Inductive value : Set := V32 (z : Z) | V64 (z : Z).

Definition val_ty (v : value) : vty := match v with V32 _ => T32 | V64 _ => T64 end.

Record wst := {
  stk : list value;
  globals : Z -> Z;
  locals : Z -> value;
  wmem : Z -> Z;
}.

Definition set_stk (st : wst) (s : list value) : wst :=
  {| stk := s; globals := globals st; locals := locals st; wmem := wmem st |}.
Definition set_global (st : wst) (i v : Z) : wst :=
  {| stk := stk st; globals := <[i := v]> (globals st); locals := locals st; wmem := wmem st |}.
Definition set_local (st : wst) (i : Z) (v : value) : wst :=
  {| stk := stk st; globals := globals st; locals := <[i := v]> (locals st); wmem := wmem st |}.
Definition set_wmem (st : wst) (m : Z -> Z) : wst :=
  {| stk := stk st; globals := globals st; locals := locals st; wmem := m |}.

(** How control leaves a piece of code.  [WBr n]: a branch to the [n]th
    enclosing label; [WStuck]: no rule applies, which validation excludes. *)
Inductive wres :=
| WNext (st : wst)
| WBr (n : nat) (st : wst)
| WRet (v : Z) (st : wst)
| WTrap
| WStuck
| WFuel.

(** Operators on unsigned representatives; [None] is a trap. *)
Definition bin_sem (w : Z) (o : binop) (a b : Z) : option Z :=
  match o with
  | Add => Some (uint w (a + b))
  | Sub => Some (uint w (a - b))
  | Mul => Some (uint w (a * b))
  | DivS =>
      if (b =? 0) || ((sint w a =? - 2 ^ (w - 1)) && (sint w b =? -1)) then None
      else Some (uint w (Z.quot (sint w a) (sint w b)))
  | DivU => if b =? 0 then None else Some (a / b)
  | RemS => if b =? 0 then None else Some (uint w (Z.rem (sint w a) (sint w b)))
  | RemU => if b =? 0 then None else Some (a mod b)
  | And => Some (Z.land a b)
  | Or => Some (Z.lor a b)
  | Xor => Some (Z.lxor a b)
  | Shl => Some (uint w (Z.shiftl a (b mod w)))
  | ShrS => Some (uint w (Z.shiftr (sint w a) (b mod w)))
  | ShrU => Some (Z.shiftr a (b mod w))
  | Rotl => Some (rol w a (b mod w))
  | Rotr => Some (ror w a (b mod w))
  end.

Definition un_sem (w : Z) (o : unop) (a : Z) : Z :=
  match o with
  | Clz => if a =? 0 then w else builtin_clz w a
  | Ctz => if a =? 0 then w else builtin_ctz a
  | Popcnt => builtin_popcount a
  end.

Definition rel_sem (w : Z) (o : relop) (a b : Z) : bool :=
  match o with
  | Eq => a =? b
  | Ne => negb (a =? b)
  | LtS => sint w a <? sint w b
  | LtU => a <? b
  | GtS => sint w a >? sint w b
  | GtU => a >? b
  | LeS => sint w a <=? sint w b
  | LeU => a <=? b
  | GeS => sint w a >=? sint w b
  | GeU => a >=? b
  end.

Definition bits (t : vty) : Z := match t with T32 => 32 | T64 => 64 end.
Definition mkval (t : vty) (z : Z) : value := match t with T32 => V32 z | T64 => V64 z end.

(** The engine: the size of the memory and the imported functions, which
    consume and produce operands on the stack and may trap. *)
Class WasmHost := {
  mem_size : Z;
  host_call : Z -> wst -> option wst;
}.

Section Exec.
Context `{W : WasmHost}.

Definition push (st : wst) (s : list value) (v : value) : wres := WNext (set_stk st (v :: s)).

(** The effective address is not reduced: an access beyond the memory traps. *)
Definition wload (st : wst) (s : list value) (a off : Z) (n : nat) (k : Z -> value) : wres :=
  if a + off + Z.of_nat n <=? mem_size then push st s (k (load_le (wmem st) (a + off) n)) else WTrap.

Definition wstore (st : wst) (s : list value) (a off v : Z) (n : nat) : wres :=
  if a + off + Z.of_nat n <=? mem_size
  then WNext (set_wmem (set_stk st s) (store_le (wmem st) (a + off) v n)) else WTrap.

(** The operands of a value type on top of the stack. *)
Definition step (i : instr) (st : wst) : wres :=
  match i, stk st with
  | Nop, _ => WNext st
  | Unreachable, _ => WTrap
  | Br l, _ => WBr (Z.to_nat l) st
  | Return, V32 v :: _ => WRet v st
  | Call f, _ => match host_call f st with Some st' => WNext st' | None => WTrap end
  | LocalGet i, s => push st s (locals st i)
  | LocalSet i, v :: s => WNext (set_local (set_stk st s) i v)
  | LocalTee i, v :: s => WNext (set_local st i v)
  | GlobalGet i, s => push st s (V64 (globals st i))
  | GlobalSet i, V64 v :: s => WNext (set_global (set_stk st s) i v)
  | Load32 _ off, V32 a :: s => wload st s a off 4 V32
  | Load n sg _ off, V32 a :: s =>
      wload st s a off n
        (fun v => V64 (if sg then uint 64 (sint (8 * Z.of_nat n) v) else v))
  | Store32 _ off, V32 v :: V32 a :: s => wstore st s a off v 4
  | Store n _ off, V64 v :: V32 a :: s => wstore st s a off v n
  | Const t v, s => push st s (mkval t (uint (bits t) v))
  | Eqz T32, V32 a :: s => push st s (V32 (b2z (a =? 0)))
  | Eqz T64, V64 a :: s => push st s (V32 (b2z (a =? 0)))
  | Unop T32 o, V32 a :: s => push st s (V32 (un_sem 32 o a))
  | Unop T64 o, V64 a :: s => push st s (V64 (un_sem 64 o a))
  | Binop T32 o, V32 b :: V32 a :: s =>
      match bin_sem 32 o a b with Some v => push st s (V32 v) | None => WTrap end
  | Binop T64 o, V64 b :: V64 a :: s =>
      match bin_sem 64 o a b with Some v => push st s (V64 v) | None => WTrap end
  | Relop T32 o, V32 b :: V32 a :: s => push st s (V32 (b2z (rel_sem 32 o a b)))
  | Relop T64 o, V64 b :: V64 a :: s => push st s (V32 (b2z (rel_sem 64 o a b)))
  | WrapI64, V64 a :: s => push st s (V32 (uint 32 a))
  | ExtendI32S, V32 a :: s => push st s (V64 (uint 64 (sint 32 a)))
  | ExtendI32U, V32 a :: s => push st s (V64 a)
  | Extend8S, V64 a :: s => push st s (V64 (uint 64 (sint 8 a)))
  | Extend16S, V64 a :: s => push st s (V64 (uint 64 (sint 16 a)))
  | _, _ => WStuck
  end.

(** The results of a block of type [b] among the operands [inner]. *)
Definition results (b : blockty) (inner : list value) : option (list value) :=
  match b, inner with
  | None, _ => Some []
  | Some T32, V32 v :: _ => Some [V32 v]
  | Some T64, V64 v :: _ => Some [V64 v]
  | _, _ => None
  end.

(** Leaving a block of type [b] above the operands [s]: at its end, or by a
    branch to its label. *)
Definition leave (b : blockty) (s : list value) (r : wres) : wres :=
  match r with
  | WNext st | WBr O st =>
      match results b (stk st) with Some vs => WNext (set_stk st (vs ++ s)) | None => WStuck end
  | WBr (S n) st => WBr n st
  | r => r
  end.

Fixpoint run_with (ex : code -> wst -> wres) (l : list code) (st : wst) : wres :=
  match l with
  | [] => WNext st
  | c :: l => match ex c st with WNext st' => run_with ex l st' | r => r end
  end.

(** At most [fuel] turns of a loop; the label of a loop is its start. *)
Fixpoint iterate (fuel : nat) (body : wst -> wres) (b : blockty) (s : list value) (st : wst) : wres :=
  match fuel with
  | O => WFuel
  | S fuel' =>
      match body (set_stk st []) with
      | WBr O st' => iterate fuel' body b s st'
      | r => leave b s r
      end
  end.

Fixpoint exec (fuel : nat) (c : code) (st : wst) : wres :=
  match c with
  | Plain i => step i st
  | IfElse b th el =>
      match stk st with
      | V32 k :: s =>
          leave b s
            (if k =? 0
             then match el with None => WNext (set_stk st []) | Some el => run_with (exec fuel) el (set_stk st []) end
             else run_with (exec fuel) th (set_stk st []))
      | _ => WStuck
      end
  | LoopB b body => iterate fuel (run_with (exec fuel) body) b (stk st) st
  end.

Definition run (fuel : nat) (l : list code) (st : wst) : wres := run_with (exec fuel) l st.

End Exec.

(** ** Validation

    A stack type: the known operand types, topmost first, and whether anything
    may lie below them, as after a branch. *)

Definition sty : Set := list vty * bool.

Definition spop (t : vty) (s : sty) : option sty :=
  match s.1 with
  | t' :: l => if decide (t = t') then Some (l, s.2) else None
  | [] => if s.2 then Some ([], true) else None
  end.
Definition spush (t : vty) (s : sty) : sty := (t :: s.1, s.2).
Definition spops (l : list vty) (s : sty) : option sty :=
  foldl (fun acc t => s ← acc; spop t s) (Some s) l.
Definition sblock (b : blockty) : list vty := match b with None => [] | Some t => [t] end.

(** The types of the function: locals, globals, imported functions (operands
    with the topmost first, and result). *)
Record wctx := {
  local_ty : Z -> option vty;
  global_ok : Z -> bool;
  func_ty : Z -> option (list vty * blockty);
}.

Section Check.
Variable C : wctx.

(** Operands that an instruction pops (topmost first) and what it pushes. *)
Definition instr_ty (i : instr) : option (list vty * list vty) :=
  match i with
  | Nop => Some ([], [])
  | LocalGet i => t ← local_ty C i; Some ([], [t])
  | LocalSet i => t ← local_ty C i; Some ([t], [])
  | LocalTee i => t ← local_ty C i; Some ([t], [t])
  | GlobalGet i => if global_ok C i then Some ([], [T64]) else None
  | GlobalSet i => if global_ok C i then Some ([T64], []) else None
  | Call f => '(args, r) ← func_ty C f; Some (args, sblock r)
  | Load32 _ _ => Some ([T32], [T32])
  | Load _ _ _ _ => Some ([T32], [T64])
  | Store32 _ _ => Some ([T32; T32], [])
  | Store _ _ _ => Some ([T64; T32], [])
  | Const t _ => Some ([], [t])
  | Eqz t => Some ([t], [T32])
  | Unop t _ => Some ([t], [t])
  | Binop t _ => Some ([t; t], [t])
  | Relop t _ => Some ([t; t], [T32])
  | WrapI64 => Some ([T64], [T32])
  | ExtendI32S | ExtendI32U => Some ([T32], [T64])
  | Extend8S | Extend16S => Some ([T64], [T64])
  | _ => None
  end.

(** [labels] are the types of the enclosing labels, innermost first; the
    function returns an i32. *)
Definition check_plain (labels : list blockty) (i : instr) (s : sty) : option sty :=
  match i with
  | Unreachable => Some ([], true)
  | Br l => b ← labels !! Z.to_nat l; spops (sblock b) s ≫= fun _ => Some ([], true)
  | Return => spop T32 s ≫= fun _ => Some ([], true)
  | _ => '(ins, outs) ← instr_ty i; s' ← spops ins s; Some (foldr spush s' outs)
  end.

(** A block of type [b] ends with exactly its results. *)
Definition ends_with (b : blockty) (s : sty) : bool :=
  match spops (sblock b) s with Some ([], _) => true | _ => false end.

Fixpoint check_with (ck : code -> sty -> option sty) (l : list code) (s : sty) : option sty :=
  match l with [] => Some s | c :: l => s' ← ck c s; check_with ck l s' end.

Fixpoint check1 (labels : list blockty) (c : code) (s : sty) : option sty :=
  match c with
  | Plain i => check_plain labels i s
  | IfElse b th el =>
      s' ← spop T32 s;
      t ← check_with (check1 (b :: labels)) th ([], false);
      e ← match el with
          | None => match b with None => Some ([], false) | Some _ => None end
          | Some el => check_with (check1 (b :: labels)) el ([], false)
          end;
      if ends_with b t && ends_with b e then Some (foldr spush s' (sblock b)) else None
  | LoopB b body =>
      t ← check_with (check1 (None :: labels)) body ([], false);
      if ends_with b t then Some (foldr spush s (sblock b)) else None
  end.

Definition check (labels : list blockty) (l : list code) (s : sty) : option sty :=
  check_with (check1 labels) l s.

(** The body of a function that returns an i32. *)
Definition valid_body (l : list code) : bool :=
  match check [Some T32] l ([], false) with Some s => ends_with (Some T32) s | None => false end.

End Check.

(** ** Parsing inverts flattening *)

(** Induction on trees. *)
Section Ind.
Variable P : code -> Prop.
Hypothesis HPlain : forall i, P (Plain i).
Hypothesis HIf : forall b th el, Forall P th -> (forall e, el = Some e -> Forall P e) -> P (IfElse b th el).
Hypothesis HLoop : forall b body, Forall P body -> P (LoopB b body).

Lemma Forall_all (f : forall c, P c) l : Forall P l.
Proof. induction l; constructor; auto. Qed.

Fixpoint code_ind' (c : code) : P c :=
  let all := fix all l : Forall P l :=
    match l with [] => Forall_nil_2 P | c :: l => Forall_cons_2 P c l (code_ind' c) (all l) end in
  match c with
  | Plain i => HPlain i
  | IfElse b th el =>
      HIf b th el (all th)
        (fun e => match el as el0 return el0 = Some e -> Forall P e with
                  | Some e' => fun E => eq_ind e' (Forall P) (all e') e (f_equal (default e') E)
                  | None => fun E => match E with eq_refl => I end
                  end)
  | LoopB b body => HLoop b body (all body)
  end.
End Ind.

(** No structured instruction at a leaf. *)
Definition plain_ok (i : instr) : bool :=
  match i with Loop _ | If _ | Else | End => false | _ => true end.

Fixpoint tree_ok (c : code) : bool :=
  match c with
  | Plain i => plain_ok i
  | IfElse _ th el => forallb tree_ok th && match el with None => true | Some el => forallb tree_ok el end
  | LoopB _ body => forallb tree_ok body
  end.

Definition parses (c : code) : Prop :=
  tree_ok c = true -> forall rest cur st, parse_go (flat1 c ++ rest) cur st = parse_go rest (c :: cur) st.

Lemma parse_go_list l :
  Forall parses l -> forallb tree_ok l = true ->
  forall rest cur st, parse_go (flatten l ++ rest) cur st = parse_go rest (rev l ++ cur) st.
Proof.
  unfold flatten. induction 1 as [|c l Hc Hl IH]; intros Hok rest cur st; [done|].
  cbn in Hok |- *. apply andb_true_iff in Hok as [Hc' Hl'].
  rewrite <- (app_assoc (flat1 c)), Hc, IH by done. f_equal. by rewrite <- app_assoc.
Qed.

Lemma parse_go_tree c : parses c.
Proof.
  induction c as [i | b th el Hth Hel | b body Hb] using code_ind'; intros Hok rest cur st; cbn in Hok.
  - by destruct i.
  - apply andb_true_iff in Hok as [Ht He]. cbn [flat1 app parse_go]. rewrite <- app_assoc.
    fold (flatten th). rewrite (parse_go_list th) by done. rewrite app_nil_r. destruct el as [el|].
    + cbn [app parse_go]. rewrite <- app_assoc. fold (flatten el).
      rewrite (parse_go_list el) by (eauto || done). cbn [app parse_go].
      by rewrite !rev_involutive, app_nil_r, rev_involutive.
    + cbn [app parse_go]. by rewrite rev_involutive.
  - cbn [flat1 app parse_go]. rewrite <- app_assoc. fold (flatten body).
    rewrite (parse_go_list body) by done. cbn [app parse_go]. by rewrite app_nil_r, rev_involutive.
Qed.

Lemma parse_flatten l : forallb tree_ok l = true -> parse (flatten l) = Some l.
Proof.
  intros Hl. unfold parse. rewrite <- (app_nil_r (flatten l)).
  rewrite parse_go_list by (done || apply Forall_all, parse_go_tree).
  cbn. by rewrite app_nil_r, rev_involutive.
Qed.

(** Reading a body from its bytes. *)
Definition read_code (l : list Z) : option (list code) := decode l ≫= parse.

Lemma read_code_bytes l :
  forallb tree_ok l = true -> forallb instr_ok (flatten l) = true ->
  read_code (code_bytes (flatten l)) = Some l.
Proof. intros. unfold read_code. rewrite decode_encode by done. by apply parse_flatten. Qed.
