(* ===== verification/WasmOut.v ===== *)
(** * Writing WebAssembly: the emission functions of tcg/wasm32/tcg-target.c.inc

    [wasm_out] is the per-thread state of emission, declared in tcg/tcg.c and
    in the backend: the bytes of the function body ([sub_buf]), whether the
    local copy of env is current, the labels placed so far, the number of
    blocks, the table from labels to blocks, the placeholders still to be
    filled and the imported helpers.  A function of the backend is a
    computation of the monad [W], which fails ([None]) on a failed assertion
    or when the buffer is full. *)

From Stdlib Require Import ZArith Lia Bool.
From stdpp Require Import base numbers functions list option.
From S2P Require Import Prelude.
From S2P Require Import Bytes.
From S2P Require Import Bitops.
From S2P Require Import TcgCond.
From S2P Require Import TcgOpc.
From S2P Require Import TcgCtx.
From S2P Require Import TcgSem.
From S2P Require Import TciOut.
From S2P Require Import Wasm.

Local Open Scope Z_scope.

(** ** State and monad *)

(** A placeholder is the number of a label and the position of its bytes. *)
Record wasm_out := {
  sub_buf : list Z;
  env_cached : bool;
  current_label : list Z;
  wasm_block_idx : Z;
  label_to_block : Z -> Z;
  block_ptr_placeholder : list (Z * nat);
  target_helper_funcs : list Z;
  target_helper_types : list Z;
}.

Definition W (A : Type) : Type := wasm_out -> option (A * wasm_out).

Definition wasm_ret {A} (a : A) : W A := fun s => Some (a, s).
Definition wasm_bind {A B} (m : W A) (f : A -> W B) : W B := fun s =>
  match m s with Some (a, s') => f a s' | None => None end.
Definition wasm_assert (b : bool) : W unit := fun s => if b then Some (tt, s) else None.

Declare Scope wasm_scope.
Delimit Scope wasm_scope with wasm.
Notation "x <- m ;; k" := (wasm_bind m (fun x => k))
  (at level 100, m at next level, right associativity) : wasm_scope.
Notation "m ;; k" := (wasm_bind m (fun _ => k)) (at level 100, right associativity) : wasm_scope.
Local Open Scope wasm_scope.

Definition set_sub_buf (s : wasm_out) (l : list Z) : wasm_out :=
  {| sub_buf := l; env_cached := env_cached s; current_label := current_label s;
     wasm_block_idx := wasm_block_idx s; label_to_block := label_to_block s;
     block_ptr_placeholder := block_ptr_placeholder s;
     target_helper_funcs := target_helper_funcs s; target_helper_types := target_helper_types s |}.
Definition set_env_cached (b : bool) : W unit := fun s =>
  Some (tt,
    {| sub_buf := sub_buf s; env_cached := b; current_label := current_label s;
       wasm_block_idx := wasm_block_idx s; label_to_block := label_to_block s;
       block_ptr_placeholder := block_ptr_placeholder s;
       target_helper_funcs := target_helper_funcs s; target_helper_types := target_helper_types s |}).
Definition get_env_cached : W bool := fun s => Some (env_cached s, s).

(** ** Bytes *)

Definition SUB_BUF_MAX : Z := 100000.

(** tcg_sub_out8: the process exits when the buffer is full. *)
Definition tcg_wasm_out8 (v : Z) : W unit := fun s =>
  if Z.of_nat (length (sub_buf s)) + 1 >? SUB_BUF_MAX then None
  else Some (tt, set_sub_buf s (sub_buf s ++ [uint 8 v])).

Fixpoint out_bytes (l : list Z) : W unit :=
  match l with [] => wasm_ret tt | b :: l => tcg_wasm_out8 b ;; out_bytes l end.

(** ** Instructions

    [wasm_op] has one constructor per function that writes a single opcode
    (i64_add stands for tcg_wasm_out_op_i64_add), [wasm_ldst] one per access
    to memory. *)

Inductive wasm_op : Set :=
| op_else | op_end | i32_eqz | i32_eq | i32_and | i32_or | i32_shl | i32_shr_s | i32_shr_u
| i32_rotl | i32_rotr | i32_clz | i32_ctz | i32_popcnt | i32_add | i32_ne | i64_eqz | i64_eq
| i64_and | i64_or | i64_xor | i64_shl | i64_shr_s | i64_shr_u | i64_rotl | i64_rotr | i64_clz
| i64_ctz | i64_popcnt | i64_add | i64_sub | i64_mul | i64_div_s | i64_div_u | i64_rem_s
| i64_rem_u | i64_le_u | i64_lt_u | i64_gt_u | i32_wrap_i64 | op_return | i64_extend_i32_u
| i64_extend_i32_s | i64_extend8_s | i64_extend16_s.

Definition wasm_op_byte (o : wasm_op) : Z :=
  match o with
  | op_else => 0x05 | op_end => 0x0b | i32_eqz => 0x45 | i32_eq => 0x46 | i32_and => 0x71
  | i32_or => 0x72 | i32_shl => 0x74 | i32_shr_s => 0x75 | i32_shr_u => 0x76 | i32_rotl => 0x77
  | i32_rotr => 0x78 | i32_clz => 0x67 | i32_ctz => 0x68 | i32_popcnt => 0x69 | i32_add => 0x6a
  | i32_ne => 0x47 | i64_eqz => 0x50 | i64_eq => 0x51 | i64_and => 0x83 | i64_or => 0x84
  | i64_xor => 0x85 | i64_shl => 0x86 | i64_shr_s => 0x87 | i64_shr_u => 0x88 | i64_rotl => 0x89
  | i64_rotr => 0x8a | i64_clz => 0x79 | i64_ctz => 0x7a | i64_popcnt => 0x7b | i64_add => 0x7c
  | i64_sub => 0x7d | i64_mul => 0x7e | i64_div_s => 0x7f | i64_div_u => 0x80 | i64_rem_s => 0x81
  | i64_rem_u => 0x82 | i64_le_u => 0x58 | i64_lt_u => 0x54 | i64_gt_u => 0x56
  | i32_wrap_i64 => 0xa7 | op_return => 0x0f | i64_extend_i32_u => 0xad
  | i64_extend_i32_s => 0xac | i64_extend8_s => 0xc2 | i64_extend16_s => 0xc3
  end.

Inductive wasm_ldst : Set :=
| i64_store | i32_store | i64_store8 | i64_store16 | i64_store32 | i64_load | i32_load
| i64_load8_s | i64_load8_u | i64_load16_s | i64_load16_u | i64_load32_u | i64_load32_s.

Definition wasm_ldst_byte (k : wasm_ldst) : Z :=
  match k with
  | i64_store => 0x37 | i32_store => 0x36 | i64_store8 => 0x3c | i64_store16 => 0x3d
  | i64_store32 => 0x3e | i64_load => 0x29 | i32_load => 0x28 | i64_load8_s => 0x30
  | i64_load8_u => 0x31 | i64_load16_s => 0x32 | i64_load16_u => 0x33 | i64_load32_u => 0x35
  | i64_load32_s => 0x34
  end.

Definition tcg_wasm_out_op (o : wasm_op) : W unit := tcg_wasm_out8 (wasm_op_byte o).

Definition tcg_wasm_out_op_br (i : Z) : W unit := tcg_wasm_out8 0x0c ;; tcg_wasm_out8 i.
Definition tcg_wasm_out_op_if_noret : W unit := tcg_wasm_out8 0x04 ;; tcg_wasm_out8 0x40.
Definition tcg_wasm_out_op_if_ret_i64 : W unit := tcg_wasm_out8 0x04 ;; tcg_wasm_out8 0x7e.
Definition tcg_wasm_out_op_if_ret_i32 : W unit := tcg_wasm_out8 0x04 ;; tcg_wasm_out8 0x7f.

Definition tcg_wasm_out_op_var (instr i : Z) : W unit := tcg_wasm_out8 instr ;; tcg_wasm_out8 i.
Definition tcg_wasm_out_op_local_get (i : Z) : W unit := tcg_wasm_out_op_var 0x20 i.
Definition tcg_wasm_out_op_local_set (i : Z) : W unit := tcg_wasm_out_op_var 0x21 i.
Definition tcg_wasm_out_op_local_tee (i : Z) : W unit := tcg_wasm_out_op_var 0x22 i.
Definition tcg_wasm_out_op_global_get (i : Z) : W unit := tcg_wasm_out_op_var 0x23 i.

(** tcg_target_reg_index: register [n] is global [n]. *)
Definition tcg_target_reg_index (r : Z) : Z := r.

Definition BLOCK_PTR_IDX : Z := 16.
Definition CTX_IDX : Z := 0.
Definition TMP32_LOCAL_ENV_IDX : Z := 1.
Definition TMP32_LOCAL_0_IDX : Z := 2.
Definition TMP64_0_IDX : Z := 3.
Definition TMP64_2_IDX : Z := 5.
Definition TMP64_4_IDX : Z := 7.

Definition tcg_wasm_out_op_global_set (i : Z) : W unit :=
  (if i =? tcg_target_reg_index TCG_REG_R14 then set_env_cached false else wasm_ret tt) ;;
  tcg_wasm_out_op_var 0x24 i.

(** Reading env as an address is cached in a local. *)
Definition tcg_wasm_out_op_global_get_r_i32 (r0 : Z) : W unit :=
  if r0 =? TCG_REG_R14 then
    cached <- get_env_cached ;;
    if cached : bool then tcg_wasm_out_op_local_get TMP32_LOCAL_ENV_IDX
    else
      tcg_wasm_out_op_global_get (tcg_target_reg_index r0) ;;
      tcg_wasm_out_op i32_wrap_i64 ;;
      tcg_wasm_out_op_local_tee TMP32_LOCAL_ENV_IDX ;;
      set_env_cached true
  else
    tcg_wasm_out_op_global_get (tcg_target_reg_index r0) ;;
    tcg_wasm_out_op i32_wrap_i64.

Definition tcg_wasm_out_op_global_get_r (r0 : Z) : W unit :=
  tcg_wasm_out_op_global_get (tcg_target_reg_index r0).
Definition tcg_wasm_out_op_global_set_r (r0 : Z) : W unit :=
  tcg_wasm_out_op_global_set (tcg_target_reg_index r0).

Definition tcg_wasm_out_op_i32_const (v : Z) : W unit :=
  tcg_wasm_out8 0x41 ;; out_bytes (tcg_wasm_out_leb128_sint32_t v).
Definition tcg_wasm_out_op_i64_const (v : Z) : W unit :=
  tcg_wasm_out8 0x42 ;; out_bytes (tcg_wasm_out_leb128_sint64_t v).

Definition tcg_wasm_out_op_loadstore (instr a o : Z) : W unit :=
  tcg_wasm_out8 instr ;;
  out_bytes (tcg_wasm_out_leb128_uint32_t a) ;;
  out_bytes (tcg_wasm_out_leb128_uint32_t o).
Definition tcg_wasm_out_ldst (k : wasm_ldst) (a o : Z) : W unit :=
  tcg_wasm_out_op_loadstore (wasm_ldst_byte k) a o.

Definition tcg_wasm_out_op_call (func_idx : Z) : W unit :=
  tcg_wasm_out8 0x10 ;; out_bytes (tcg_wasm_out_leb128_uint32_t func_idx).

(** tcg_cond_to_inst; the other entries of the array are zero. *)
Definition tcg_cond_to_inst (cond : Z) : Z * Z :=
  if cond =? TCG_COND_EQ then (0x46, 0x51)
  else if cond =? TCG_COND_NE then (0x47, 0x52)
  else if cond =? TCG_COND_LT then (0x48, 0x53)
  else if cond =? TCG_COND_GE then (0x4e, 0x59)
  else if cond =? TCG_COND_LE then (0x4c, 0x57)
  else if cond =? TCG_COND_GT then (0x4a, 0x55)
  else if cond =? TCG_COND_LTU then (0x49, 0x54)
  else if cond =? TCG_COND_GEU then (0x4f, 0x5a)
  else if cond =? TCG_COND_LEU then (0x4d, 0x58)
  else if cond =? TCG_COND_GTU then (0x4b, 0x56)
  else (0, 0).

Definition tcg_wasm_out_op_cond_i64 (cond arg1 arg2 : Z) : W unit :=
  tcg_wasm_out_op_global_get_r arg1 ;;
  tcg_wasm_out_op_global_get_r arg2 ;;
  tcg_wasm_out8 (tcg_cond_to_inst cond).2.

Definition tcg_wasm_out_op_cond_i32 (cond arg1 arg2 : Z) : W unit :=
  tcg_wasm_out_op_global_get_r arg1 ;;
  tcg_wasm_out_op i32_wrap_i64 ;;
  tcg_wasm_out_op_global_get_r arg2 ;;
  tcg_wasm_out_op i32_wrap_i64 ;;
  tcg_wasm_out8 (tcg_cond_to_inst cond).1.

Definition tcg_wasm_out_op_not : W unit :=
  tcg_wasm_out_op_i64_const (-1) ;;
  tcg_wasm_out_op i64_xor.

Definition tcg_wasm_out_op_set_r_as_i64 (al ah : Z) : W unit :=
  tcg_wasm_out_op_local_set TMP64_4_IDX ;;
  tcg_wasm_out_op_local_get TMP64_4_IDX ;;
  tcg_wasm_out_op_i64_const 0xffffffff ;;
  tcg_wasm_out_op i64_and ;;
  tcg_wasm_out_op_global_set_r al ;;
  tcg_wasm_out_op_local_get TMP64_4_IDX ;;
  tcg_wasm_out_op_i64_const 32 ;;
  tcg_wasm_out_op i64_shr_u ;;
  tcg_wasm_out_op_i64_const 0xffffffff ;;
  tcg_wasm_out_op i64_and ;;
  tcg_wasm_out_op_global_set_r ah.

(** ** Ops on registers *)

(** The macro tcg_wasm_out_i64_calc. *)
Definition tcg_wasm_out_i64_calc (op : wasm_op) (ret arg1 arg2 : Z) : W unit :=
  tcg_wasm_out_op_global_get_r arg1 ;;
  tcg_wasm_out_op_global_get_r arg2 ;;
  tcg_wasm_out_op op ;;
  tcg_wasm_out_op_global_set_r ret.

Definition tcg_wasm_out_rem_s (ty : TCGType) (ret arg1 arg2 : Z) : W unit :=
  match ty with
  | TCG_TYPE_I32 =>
      tcg_wasm_out_op_global_get_r arg1 ;;
      tcg_wasm_out_op i32_wrap_i64 ;;
      tcg_wasm_out_op i64_extend_i32_s ;;
      tcg_wasm_out_op_global_get_r arg2 ;;
      tcg_wasm_out_op i32_wrap_i64 ;;
      tcg_wasm_out_op i64_extend_i32_s ;;
      tcg_wasm_out_op i64_rem_s ;;
      tcg_wasm_out_op_global_set_r ret
  | TCG_TYPE_I64 =>
      tcg_wasm_out_op_global_get_r arg1 ;;
      tcg_wasm_out_op_global_get_r arg2 ;;
      tcg_wasm_out_op i64_rem_s ;;
      tcg_wasm_out_op_global_set_r ret
  | _ => wasm_assert false
  end.

Definition tcg_wasm_out_rem_u (ty : TCGType) (ret arg1 arg2 : Z) : W unit :=
  match ty with
  | TCG_TYPE_I32 =>
      tcg_wasm_out_op_global_get_r arg1 ;;
      tcg_wasm_out_op_i64_const 0xffffffff ;;
      tcg_wasm_out_op i64_and ;;
      tcg_wasm_out_op_global_get_r arg2 ;;
      tcg_wasm_out_op_i64_const 0xffffffff ;;
      tcg_wasm_out_op i64_and ;;
      tcg_wasm_out_op i64_rem_u ;;
      tcg_wasm_out_op_global_set_r ret
  | TCG_TYPE_I64 =>
      tcg_wasm_out_op_global_get_r arg1 ;;
      tcg_wasm_out_op_global_get_r arg2 ;;
      tcg_wasm_out_op i64_rem_u ;;
      tcg_wasm_out_op_global_set_r ret
  | _ => wasm_assert false
  end.

Definition tcg_wasm_out_div_s (ty : TCGType) (ret arg1 arg2 : Z) : W unit :=
  match ty with
  | TCG_TYPE_I32 =>
      tcg_wasm_out_op_global_get_r arg1 ;;
      tcg_wasm_out_op i32_wrap_i64 ;;
      tcg_wasm_out_op i64_extend_i32_s ;;
      tcg_wasm_out_op_global_get_r arg2 ;;
      tcg_wasm_out_op i32_wrap_i64 ;;
      tcg_wasm_out_op i64_extend_i32_s ;;
      tcg_wasm_out_op i64_div_s ;;
      tcg_wasm_out_op_global_set_r ret
  | TCG_TYPE_I64 =>
      tcg_wasm_out_op_global_get_r arg1 ;;
      tcg_wasm_out_op_global_get_r arg2 ;;
      tcg_wasm_out_op i64_div_s ;;
      tcg_wasm_out_op_global_set_r ret
  | _ => wasm_assert false
  end.

Definition tcg_wasm_out_div_u (ty : TCGType) (ret arg1 arg2 : Z) : W unit :=
  match ty with
  | TCG_TYPE_I32 =>
      tcg_wasm_out_op_global_get_r arg1 ;;
      tcg_wasm_out_op_i64_const 0xffffffff ;;
      tcg_wasm_out_op i64_and ;;
      tcg_wasm_out_op_global_get_r arg2 ;;
      tcg_wasm_out_op_i64_const 0xffffffff ;;
      tcg_wasm_out_op i64_and ;;
      tcg_wasm_out_op i64_div_u ;;
      tcg_wasm_out_op_global_set_r ret
  | TCG_TYPE_I64 =>
      tcg_wasm_out_op_global_get_r arg1 ;;
      tcg_wasm_out_op_global_get_r arg2 ;;
      tcg_wasm_out_op i64_div_u ;;
      tcg_wasm_out_op_global_set_r ret
  | _ => wasm_assert false
  end.

Definition tcg_wasm_out_shl (ty : TCGType) (ret arg1 arg2 : Z) : W unit :=
  match ty with
  | TCG_TYPE_I32 =>
      tcg_wasm_out_op_global_get_r arg1 ;;
      tcg_wasm_out_op_i64_const 0xffffffff ;;
      tcg_wasm_out_op i64_and ;;
      tcg_wasm_out_op_global_get_r arg2 ;;
      tcg_wasm_out_op_i64_const 31 ;;
      tcg_wasm_out_op i64_and ;;
      tcg_wasm_out_op i64_shl ;;
      tcg_wasm_out_op_global_set_r ret
  | TCG_TYPE_I64 =>
      tcg_wasm_out_op_global_get_r arg1 ;;
      tcg_wasm_out_op_global_get_r arg2 ;;
      tcg_wasm_out_op i64_shl ;;
      tcg_wasm_out_op_global_set_r ret
  | _ => wasm_assert false
  end.

Definition tcg_wasm_out_shr_u (ty : TCGType) (ret arg1 arg2 : Z) : W unit :=
  match ty with
  | TCG_TYPE_I32 =>
      tcg_wasm_out_op_global_get_r arg1 ;;
      tcg_wasm_out_op_i64_const 0xffffffff ;;
      tcg_wasm_out_op i64_and ;;
      tcg_wasm_out_op_global_get_r arg2 ;;
      tcg_wasm_out_op_i64_const 31 ;;
      tcg_wasm_out_op i64_and ;;
      tcg_wasm_out_op i64_shr_u ;;
      tcg_wasm_out_op_global_set_r ret
  | TCG_TYPE_I64 =>
      tcg_wasm_out_op_global_get_r arg1 ;;
      tcg_wasm_out_op_global_get_r arg2 ;;
      tcg_wasm_out_op i64_shr_u ;;
      tcg_wasm_out_op_global_set_r ret
  | _ => wasm_assert false
  end.

Definition tcg_wasm_out_shr_s (ty : TCGType) (ret arg1 arg2 : Z) : W unit :=
  match ty with
  | TCG_TYPE_I32 =>
      tcg_wasm_out_op_global_get_r arg1 ;;
      tcg_wasm_out_op i32_wrap_i64 ;;
      tcg_wasm_out_op i64_extend_i32_s ;;
      tcg_wasm_out_op_global_get_r arg2 ;;
      tcg_wasm_out_op_i64_const 31 ;;
      tcg_wasm_out_op i64_and ;;
      tcg_wasm_out_op i64_shr_s ;;
      tcg_wasm_out_op_global_set_r ret
  | TCG_TYPE_I64 =>
      tcg_wasm_out_op_global_get_r arg1 ;;
      tcg_wasm_out_op_global_get_r arg2 ;;
      tcg_wasm_out_op i64_shr_s ;;
      tcg_wasm_out_op_global_set_r ret
  | _ => wasm_assert false
  end.

Definition tcg_wasm_out_i32_rotl (ret arg1 arg2 : Z) : W unit :=
  tcg_wasm_out_op_global_get_r arg1 ;;
  tcg_wasm_out_op i32_wrap_i64 ;;
  tcg_wasm_out_op_global_get_r arg2 ;;
  tcg_wasm_out_op i32_wrap_i64 ;;
  tcg_wasm_out_op i32_rotl ;;
  tcg_wasm_out_op i64_extend_i32_s ;;
  tcg_wasm_out_op_global_set_r ret.

Definition tcg_wasm_out_i32_rotr (ret arg1 arg2 : Z) : W unit :=
  tcg_wasm_out_op_global_get_r arg1 ;;
  tcg_wasm_out_op i32_wrap_i64 ;;
  tcg_wasm_out_op_global_get_r arg2 ;;
  tcg_wasm_out_op i32_wrap_i64 ;;
  tcg_wasm_out_op i32_rotr ;;
  tcg_wasm_out_op i64_extend_i32_s ;;
  tcg_wasm_out_op_global_set_r ret.

Definition tcg_wasm_out_clz64 (ret arg1 arg2 : Z) : W unit :=
  tcg_wasm_out_op_global_get_r arg1 ;;
  tcg_wasm_out_op i64_eqz ;;
  tcg_wasm_out_op_if_ret_i64 ;;
  tcg_wasm_out_op_global_get_r arg2 ;;
  tcg_wasm_out_op op_else ;;
  tcg_wasm_out_op_global_get_r arg1 ;;
  tcg_wasm_out_op i64_clz ;;
  tcg_wasm_out_op op_end ;;
  tcg_wasm_out_op_global_set_r ret.

Definition tcg_wasm_out_clz32 (ret arg1 arg2 : Z) : W unit :=
  tcg_wasm_out_op_global_get_r arg1 ;;
  tcg_wasm_out_op i64_eqz ;;
  tcg_wasm_out_op_if_ret_i32 ;;
  tcg_wasm_out_op_global_get_r arg2 ;;
  tcg_wasm_out_op i32_wrap_i64 ;;
  tcg_wasm_out_op op_else ;;
  tcg_wasm_out_op_global_get_r arg1 ;;
  tcg_wasm_out_op i32_wrap_i64 ;;
  tcg_wasm_out_op i32_clz ;;
  tcg_wasm_out_op op_end ;;
  tcg_wasm_out_op i64_extend_i32_s ;;
  tcg_wasm_out_op_global_set_r ret.

Definition tcg_wasm_out_ctz64 (ret arg1 arg2 : Z) : W unit :=
  tcg_wasm_out_op_global_get_r arg1 ;;
  tcg_wasm_out_op i64_eqz ;;
  tcg_wasm_out_op_if_ret_i64 ;;
  tcg_wasm_out_op_global_get_r arg2 ;;
  tcg_wasm_out_op op_else ;;
  tcg_wasm_out_op_global_get_r arg1 ;;
  tcg_wasm_out_op i64_ctz ;;
  tcg_wasm_out_op op_end ;;
  tcg_wasm_out_op_global_set_r ret.

Definition tcg_wasm_out_ctz32 (ret arg1 arg2 : Z) : W unit :=
  tcg_wasm_out_op_global_get_r arg1 ;;
  tcg_wasm_out_op i64_eqz ;;
  tcg_wasm_out_op_if_ret_i32 ;;
  tcg_wasm_out_op_global_get_r arg2 ;;
  tcg_wasm_out_op i32_wrap_i64 ;;
  tcg_wasm_out_op op_else ;;
  tcg_wasm_out_op_global_get_r arg1 ;;
  tcg_wasm_out_op i32_wrap_i64 ;;
  tcg_wasm_out_op i32_ctz ;;
  tcg_wasm_out_op op_end ;;
  tcg_wasm_out_op i64_extend_i32_s ;;
  tcg_wasm_out_op_global_set_r ret.

Definition tcg_wasm_out_not (ret arg : Z) : W unit :=
  tcg_wasm_out_op_global_get_r arg ;;
  tcg_wasm_out_op_not ;;
  tcg_wasm_out_op_global_set_r ret.

Definition tcg_wasm_out_andc (ret arg1 arg2 : Z) : W unit :=
  tcg_wasm_out_op_global_get_r arg1 ;;
  tcg_wasm_out_op_global_get_r arg2 ;;
  tcg_wasm_out_op_not ;;
  tcg_wasm_out_op i64_and ;;
  tcg_wasm_out_op_global_set_r ret.

Definition tcg_wasm_out_orc (ret arg1 arg2 : Z) : W unit :=
  tcg_wasm_out_op_global_get_r arg1 ;;
  tcg_wasm_out_op_global_get_r arg2 ;;
  tcg_wasm_out_op_not ;;
  tcg_wasm_out_op i64_or ;;
  tcg_wasm_out_op_global_set_r ret.

Definition tcg_wasm_out_eqv (ret arg1 arg2 : Z) : W unit :=
  tcg_wasm_out_op_global_get_r arg1 ;;
  tcg_wasm_out_op_global_get_r arg2 ;;
  tcg_wasm_out_op i64_xor ;;
  tcg_wasm_out_op_not ;;
  tcg_wasm_out_op_global_set_r ret.

Definition tcg_wasm_out_nand (ret arg1 arg2 : Z) : W unit :=
  tcg_wasm_out_op_global_get_r arg1 ;;
  tcg_wasm_out_op_global_get_r arg2 ;;
  tcg_wasm_out_op i64_and ;;
  tcg_wasm_out_op_not ;;
  tcg_wasm_out_op_global_set_r ret.

Definition tcg_wasm_out_nor (ret arg1 arg2 : Z) : W unit :=
  tcg_wasm_out_op_global_get_r arg1 ;;
  tcg_wasm_out_op_global_get_r arg2 ;;
  tcg_wasm_out_op i64_or ;;
  tcg_wasm_out_op_not ;;
  tcg_wasm_out_op_global_set_r ret.

Definition tcg_wasm_out_neg (ret arg : Z) : W unit :=
  tcg_wasm_out_op_global_get_r arg ;;
  tcg_wasm_out_op_not ;;
  tcg_wasm_out_op_i64_const 1 ;;
  tcg_wasm_out_op i64_add ;;
  tcg_wasm_out_op_global_set_r ret.

(** ** Accesses to the host's memory *)

(** The address of an access: env and the like plus a constant; a negative
    offset is added, another one goes into the instruction. *)
Definition out_base_offset (base offset : Z) : W Z :=
  tcg_wasm_out_op_global_get_r_i32 base ;;
  if sint 32 offset <? 0 then
    tcg_wasm_out_op_i32_const (sint 32 offset) ;;
    tcg_wasm_out_op i32_add ;;
    wasm_ret 0
  else wasm_ret (uint 32 offset).

(** tcg_wasm_out_ld8s, _ld8u, _ld16s, _ld16u, _ld32s, _ld32u, which differ in
    the instruction only. *)
Definition tcg_wasm_out_ldx (k : wasm_ldst) (ty : TCGType) (val base offset : Z) : W unit :=
  match ty with
  | TCG_TYPE_I32 | TCG_TYPE_I64 =>
      o <- out_base_offset base offset ;;
      tcg_wasm_out_ldst k 0 o ;;
      tcg_wasm_out_op_global_set_r val
  | _ => wasm_assert false
  end.

Definition tcg_wasm_out_ld (ty : TCGType) (val base offset : Z) : W unit :=
  match ty with
  | TCG_TYPE_I32 => tcg_wasm_out_ldx i64_load32_u ty val base offset
  | TCG_TYPE_I64 => tcg_wasm_out_ldx i64_load ty val base offset
  | _ => wasm_assert false
  end.

(** tcg_wasm_out_st8, _st16, _st32. *)
Definition tcg_wasm_out_stx (k : wasm_ldst) (ty : TCGType) (val base offset : Z) : W unit :=
  match ty with
  | TCG_TYPE_I32 | TCG_TYPE_I64 =>
      o <- out_base_offset base offset ;;
      tcg_wasm_out_op_global_get_r val ;;
      tcg_wasm_out_ldst k 0 o
  | _ => wasm_assert false
  end.

Definition tcg_wasm_out_st (ty : TCGType) (val base offset : Z) : W unit :=
  match ty with
  | TCG_TYPE_I32 => tcg_wasm_out_stx i64_store32 ty val base offset
  | TCG_TYPE_I64 => tcg_wasm_out_stx i64_store ty val base offset
  | _ => wasm_assert false
  end.

(** ** Moves, extensions, conditions *)

Definition tcg_wasm_out_mov (ty : TCGType) (ret arg : Z) : W unit :=
  match ty with
  | TCG_TYPE_I32 =>
      tcg_wasm_out_op_global_get_r arg ;;
      tcg_wasm_out_op i32_wrap_i64 ;;
      tcg_wasm_out_op i64_extend_i32_u ;;
      tcg_wasm_out_op_global_set_r ret
  | TCG_TYPE_I64 =>
      tcg_wasm_out_op_global_get_r arg ;;
      tcg_wasm_out_op_global_set_r ret
  | _ => wasm_assert false
  end.

Definition tcg_wasm_out_movi (ty : TCGType) (ret arg : Z) : W unit :=
  match ty with
  | TCG_TYPE_I32 => tcg_wasm_out_op_i64_const (sint 32 arg)
  | TCG_TYPE_I64 => tcg_wasm_out_op_i64_const arg
  | _ => wasm_assert false
  end ;;
  tcg_wasm_out_op_global_set_r ret.

Definition tcg_wasm_out_ext8s (ty : TCGType) (rd rs : Z) : W unit :=
  match ty with
  | TCG_TYPE_I32 | TCG_TYPE_I64 =>
      tcg_wasm_out_op_global_get_r rs ;;
      tcg_wasm_out_op i64_extend8_s ;;
      tcg_wasm_out_op_global_set_r rd
  | _ => wasm_assert false
  end.

Definition tcg_wasm_out_ext8u (rd rs : Z) : W unit :=
  tcg_wasm_out_op_global_get_r rs ;;
  tcg_wasm_out_op_i64_const 0xff ;;
  tcg_wasm_out_op i64_and ;;
  tcg_wasm_out_op_global_set_r rd.

Definition tcg_wasm_out_ext16s (ty : TCGType) (rd rs : Z) : W unit :=
  match ty with
  | TCG_TYPE_I32 | TCG_TYPE_I64 =>
      tcg_wasm_out_op_global_get_r rs ;;
      tcg_wasm_out_op i64_extend16_s ;;
      tcg_wasm_out_op_global_set_r rd
  | _ => wasm_assert false
  end.

Definition tcg_wasm_out_ext16u (rd rs : Z) : W unit :=
  tcg_wasm_out_op_global_get_r rs ;;
  tcg_wasm_out_op_i64_const 0xffff ;;
  tcg_wasm_out_op i64_and ;;
  tcg_wasm_out_op_global_set_r rd.

Definition tcg_wasm_out_ext32s (rd rs : Z) : W unit :=
  tcg_wasm_out_op_global_get_r rs ;;
  tcg_wasm_out_op i32_wrap_i64 ;;
  tcg_wasm_out_op i64_extend_i32_s ;;
  tcg_wasm_out_op_global_set_r rd.

Definition tcg_wasm_out_ext32u (rd rs : Z) : W unit :=
  tcg_wasm_out_op_global_get_r rs ;;
  tcg_wasm_out_op_i64_const 0xffffffff ;;
  tcg_wasm_out_op i64_and ;;
  tcg_wasm_out_op_global_set_r rd.

Definition tcg_wasm_out_exts_i32_i64 (rd rs : Z) : W unit :=
  tcg_wasm_out_ext32s rd rs.

Definition tcg_wasm_out_extu_i32_i64 (rd rs : Z) : W unit :=
  tcg_wasm_out_ext32u rd rs.

Definition tcg_wasm_out_extrl_i64_i32 (rd rs : Z) : W unit :=
  tcg_wasm_out_op_global_get_r rs ;;
  tcg_wasm_out_op_i64_const 0xffffffff ;;
  tcg_wasm_out_op i64_and ;;
  tcg_wasm_out_op_global_set_r rd.

Definition tcg_wasm_out_setcond_i32 (cond ret arg1 arg2 : Z) : W unit :=
  tcg_wasm_out_op_cond_i32 cond arg1 arg2 ;;
  tcg_wasm_out_op i64_extend_i32_u ;;
  tcg_wasm_out_op_global_set_r ret.

Definition tcg_wasm_out_setcond_i64 (cond ret arg1 arg2 : Z) : W unit :=
  tcg_wasm_out_op_cond_i64 cond arg1 arg2 ;;
  tcg_wasm_out_op i64_extend_i32_u ;;
  tcg_wasm_out_op_global_set_r ret.

Definition tcg_wasm_out_movcond_i32 (cond ret c1 c2 v1 v2 : Z) : W unit :=
  tcg_wasm_out_op_cond_i32 cond c1 c2 ;;
  tcg_wasm_out_op_if_ret_i64 ;;
  tcg_wasm_out_op_global_get_r v1 ;;
  tcg_wasm_out_op op_else ;;
  tcg_wasm_out_op_global_get_r v2 ;;
  tcg_wasm_out_op op_end ;;
  tcg_wasm_out_op_global_set_r ret.

Definition tcg_wasm_out_movcond_i64 (cond ret c1 c2 v1 v2 : Z) : W unit :=
  tcg_wasm_out_op_cond_i64 cond c1 c2 ;;
  tcg_wasm_out_op_if_ret_i64 ;;
  tcg_wasm_out_op_global_get_r v1 ;;
  tcg_wasm_out_op op_else ;;
  tcg_wasm_out_op_global_get_r v2 ;;
  tcg_wasm_out_op op_end ;;
  tcg_wasm_out_op_global_set_r ret.

(** ** Double words *)

Definition tcg_wasm_out_add2 (retl reth al ah bl bh : Z) : W unit :=
  tcg_wasm_out_op_global_get_r ah ;;
  tcg_wasm_out_op_global_get_r bh ;;
  tcg_wasm_out_op i64_add ;;
  tcg_wasm_out_op_global_get_r al ;;
  tcg_wasm_out_op_global_get_r bl ;;
  tcg_wasm_out_op i64_add ;;
  (if (al =? retl) && (bl =? retl) then
     tcg_wasm_out_op_local_set TMP64_0_IDX ;;
     tcg_wasm_out_op_local_get TMP64_0_IDX ;;
     tcg_wasm_out_op_global_get_r al ;;
     tcg_wasm_out_op i64_lt_u ;;
     tcg_wasm_out_op i64_extend_i32_s ;;
     tcg_wasm_out_op_local_get TMP64_0_IDX ;;
     tcg_wasm_out_op_global_set_r retl
   else
     tcg_wasm_out_op_global_set_r retl ;;
     tcg_wasm_out_op_global_get_r retl ;;
     (if al =? retl then tcg_wasm_out_op_global_get_r bl else tcg_wasm_out_op_global_get_r al) ;;
     tcg_wasm_out_op i64_lt_u ;;
     tcg_wasm_out_op i64_extend_i32_s) ;;
  tcg_wasm_out_op i64_add ;;
  tcg_wasm_out_op_global_set_r reth.

Definition tcg_wasm_out_sub2 (retl reth al ah bl bh : Z) : W unit :=
  tcg_wasm_out_op_global_get_r ah ;;
  tcg_wasm_out_op_global_get_r bh ;;
  tcg_wasm_out_op i64_sub ;;
  tcg_wasm_out_op_global_get_r al ;;
  tcg_wasm_out_op_global_get_r bl ;;
  tcg_wasm_out_op i64_sub ;;
  (if al =? retl then
     tcg_wasm_out_op_local_set TMP64_0_IDX ;;
     tcg_wasm_out_op_local_get TMP64_0_IDX ;;
     tcg_wasm_out_op_global_get_r al ;;
     tcg_wasm_out_op i64_gt_u ;;
     tcg_wasm_out_op_local_get TMP64_0_IDX ;;
     tcg_wasm_out_op_global_set_r retl
   else
     tcg_wasm_out_op_global_set_r retl ;;
     tcg_wasm_out_op_global_get_r retl ;;
     tcg_wasm_out_op_global_get_r al ;;
     tcg_wasm_out_op i64_gt_u) ;;
  tcg_wasm_out_op i64_sub ;;
  tcg_wasm_out_op_global_set_r reth.

Definition tcg_wasm_out_mulu2_i32 (retl reth arg1 arg2 : Z) : W unit :=
  tcg_wasm_out_op_global_get_r arg1 ;;
  tcg_wasm_out_op_global_get_r arg2 ;;
  tcg_wasm_out_op i64_mul ;;
  tcg_wasm_out_op_set_r_as_i64 retl reth.

Definition tcg_wasm_out_muls2_i32 (retl reth arg1 arg2 : Z) : W unit :=
  tcg_wasm_out_op_global_get_r arg1 ;;
  tcg_wasm_out_op_global_get_r arg2 ;;
  tcg_wasm_out_op i64_mul ;;
  tcg_wasm_out_op_set_r_as_i64 retl reth.

Definition tcg_wasm_out_ctpop_i32 (dest src : Z) : W unit :=
  tcg_wasm_out_op_global_get_r src ;;
  tcg_wasm_out_op i32_wrap_i64 ;;
  tcg_wasm_out_op i32_popcnt ;;
  tcg_wasm_out_op_global_set_r dest.

Definition tcg_wasm_out_ctpop_i64 (dest src : Z) : W unit :=
  tcg_wasm_out_op_global_get_r src ;;
  tcg_wasm_out_op i64_popcnt ;;
  tcg_wasm_out_op_global_set_r dest.

(** ** Bit fields and byte swaps *)

Definition tcg_wasm_out_deposit_i32 (dest arg1 arg2 pos len : Z) : W unit :=
  let mask := sint 32 (Z.shiftl (Z.shiftl 1 len - 1) pos) in
  tcg_wasm_out_op_global_get_r arg1 ;;
  tcg_wasm_out_op i32_wrap_i64 ;;
  tcg_wasm_out_op_i32_const (Z.lnot mask) ;;
  tcg_wasm_out_op i32_and ;;
  tcg_wasm_out_op_global_get_r arg2 ;;
  tcg_wasm_out_op i32_wrap_i64 ;;
  tcg_wasm_out_op_i32_const pos ;;
  tcg_wasm_out_op i32_shl ;;
  tcg_wasm_out_op_i32_const mask ;;
  tcg_wasm_out_op i32_and ;;
  tcg_wasm_out_op i32_or ;;
  tcg_wasm_out_op i64_extend_i32_u ;;
  tcg_wasm_out_op_global_set_r dest.

Definition tcg_wasm_out_deposit_i64 (dest arg1 arg2 pos len : Z) : W unit :=
  let mask := sint 64 (Z.shiftl (Z.shiftl 1 len - 1) pos) in
  tcg_wasm_out_op_global_get_r arg1 ;;
  tcg_wasm_out_op_i64_const (Z.lnot mask) ;;
  tcg_wasm_out_op i64_and ;;
  tcg_wasm_out_op_global_get_r arg2 ;;
  tcg_wasm_out_op_i64_const pos ;;
  tcg_wasm_out_op i64_shl ;;
  tcg_wasm_out_op_i64_const mask ;;
  tcg_wasm_out_op i64_and ;;
  tcg_wasm_out_op i64_or ;;
  tcg_wasm_out_op_global_set_r dest.

Definition tcg_wasm_out_extract (dest arg1 pos len : Z) (ty : TCGType) (sign : bool) : W unit :=
  let rs := match ty with TCG_TYPE_I32 => 32 - len | _ => 64 - len end in
  wasm_assert (match ty with TCG_TYPE_I32 | TCG_TYPE_I64 => true | _ => false end) ;;
  let sl := rs - pos in
  tcg_wasm_out_op_global_get_r arg1 ;;
  (if 0 <? sl then tcg_wasm_out_op_i64_const sl ;; tcg_wasm_out_op i64_shl else wasm_ret tt) ;;
  tcg_wasm_out_op_i64_const rs ;;
  (if sign then tcg_wasm_out_op i64_shr_s else tcg_wasm_out_op i64_shr_u) ;;
  tcg_wasm_out_op_global_set_r dest.

Definition tcg_wasm_out_bswap64 (dest src flags : Z) : W unit :=
  tcg_wasm_out_op_global_get_r src ;;
  tcg_wasm_out_op_i64_const 32 ;;
  tcg_wasm_out_op i64_rotr ;;
  tcg_wasm_out_op_local_set TMP64_0_IDX ;;
  tcg_wasm_out_op_local_get TMP64_0_IDX ;;
  tcg_wasm_out_op_i64_const 0xff000000ff000000 ;;
  tcg_wasm_out_op i64_and ;;
  tcg_wasm_out_op_i64_const 24 ;;
  tcg_wasm_out_op i64_shr_u ;;
  tcg_wasm_out_op_local_get TMP64_0_IDX ;;
  tcg_wasm_out_op_i64_const 0x00ff000000ff0000 ;;
  tcg_wasm_out_op i64_and ;;
  tcg_wasm_out_op_i64_const 8 ;;
  tcg_wasm_out_op i64_shr_u ;;
  tcg_wasm_out_op i64_or ;;
  tcg_wasm_out_op_local_get TMP64_0_IDX ;;
  tcg_wasm_out_op_i64_const 0x0000ff000000ff00 ;;
  tcg_wasm_out_op i64_and ;;
  tcg_wasm_out_op_i64_const 8 ;;
  tcg_wasm_out_op i64_shl ;;
  tcg_wasm_out_op_local_get TMP64_0_IDX ;;
  tcg_wasm_out_op_i64_const 0x000000ff000000ff ;;
  tcg_wasm_out_op i64_and ;;
  tcg_wasm_out_op_i64_const 24 ;;
  tcg_wasm_out_op i64_shl ;;
  tcg_wasm_out_op i64_or ;;
  tcg_wasm_out_op i64_or ;;
  tcg_wasm_out_op_global_set_r dest.

Definition tcg_wasm_out_bswap32 (dest src flags : Z) : W unit :=
  tcg_wasm_out_op_global_get_r src ;;
  tcg_wasm_out_op i32_wrap_i64 ;;
  tcg_wasm_out_op_local_set TMP32_LOCAL_0_IDX ;;
  tcg_wasm_out_op_local_get TMP32_LOCAL_0_IDX ;;
  tcg_wasm_out_op_i32_const 16 ;;
  tcg_wasm_out_op i32_rotr ;;
  tcg_wasm_out_op_local_set TMP32_LOCAL_0_IDX ;;
  tcg_wasm_out_op_local_get TMP32_LOCAL_0_IDX ;;
  tcg_wasm_out_op_i32_const 0xff00ff00 ;;
  tcg_wasm_out_op i32_and ;;
  tcg_wasm_out_op_i32_const 8 ;;
  tcg_wasm_out_op i32_shr_u ;;
  tcg_wasm_out_op_local_get TMP32_LOCAL_0_IDX ;;
  tcg_wasm_out_op_i32_const 0x00ff00ff ;;
  tcg_wasm_out_op i32_and ;;
  tcg_wasm_out_op_i32_const 8 ;;
  tcg_wasm_out_op i32_shl ;;
  tcg_wasm_out_op i32_or ;;
  tcg_wasm_out_op i64_extend_i32_u ;;
  tcg_wasm_out_op_global_set_r dest.

Definition tcg_wasm_out_bswap16 (dest src flags : Z) : W unit :=
  tcg_wasm_out_op_global_get_r src ;;
  tcg_wasm_out_op i32_wrap_i64 ;;
  tcg_wasm_out_op_local_set TMP32_LOCAL_0_IDX ;;
  tcg_wasm_out_op_local_get TMP32_LOCAL_0_IDX ;;
  tcg_wasm_out_op_i32_const 8 ;;
  tcg_wasm_out_op i32_rotr ;;
  tcg_wasm_out_op_local_set TMP32_LOCAL_0_IDX ;;
  tcg_wasm_out_op_local_get TMP32_LOCAL_0_IDX ;;
  tcg_wasm_out_op_i32_const 0x000000ff ;;
  tcg_wasm_out_op i32_and ;;
  tcg_wasm_out_op_local_get TMP32_LOCAL_0_IDX ;;
  tcg_wasm_out_op_i32_const 0xff000000 ;;
  tcg_wasm_out_op i32_and ;;
  tcg_wasm_out_op_i32_const 16 ;;
  (if flag flags TCG_BSWAP_OS then tcg_wasm_out_op i32_shr_s else tcg_wasm_out_op i32_shr_u) ;;
  tcg_wasm_out_op i32_or ;;
  tcg_wasm_out_op i64_extend_i32_u ;;
  tcg_wasm_out_op_global_set_r dest.
