(* ===== verification/WasmOk.v ===== *)
(** * From emission to execution

    [EmitsAt m e t e']: when the local copy of env is current or not as [e]
    says, [m] appends the bytes of the instructions [t] and leaves [e'].
    [Compiles m P Q]: what [m] writes is structured code that validates and,
    run on registers that satisfy [P], leaves registers related by [Q].  The
    database [emit] has the instructions, [wasm_code] runs them. *)

From Stdlib Require Import ZArith Lia Bool.
From stdpp Require Import base numbers functions list option.
From S2P Require Import Prelude.
From S2P Require Import Bytes.
From S2P Require Import Bitops.
From S2P Require Import TcgCond.
From S2P Require Import TcgOpc.
From S2P Require Import TcgCtx.
From S2P Require Import TcgSem.
From S2P Require Import RegSpec.
From S2P Require Import TciCode.
From S2P Require Import TciOut.
From S2P Require Import TciExec.
From S2P Require Import TciOk.
From S2P Require Import Wasm.
From S2P Require Import WasmSem.
From S2P Require Import WasmOut.

Local Open Scope Z_scope.

(** ** Emission *)

(** Appending [l] and setting the flag, if the buffer has room. *)
Definition append (l : list Z) (e : bool) (s : wasm_out) : option (unit * wasm_out) :=
  if Z.of_nat (length (sub_buf s)) + Z.of_nat (length l) <=? SUB_BUF_MAX
  then set_env_cached e (set_sub_buf s (sub_buf s ++ l)) else None.

Definition buffer_ok (s : wasm_out) : Prop := Z.of_nat (length (sub_buf s)) <= SUB_BUF_MAX.

Definition EmitsAt (m : W unit) (e : bool) (t : list instr) (e' : bool) : Prop :=
  forall s, buffer_ok s -> env_cached s = e -> m s = append (code_bytes t) e' s.

Lemma append_append l1 l2 e1 e2 s :
  match append l1 e1 s with Some (_, s') => append l2 e2 s' | None => None end = append (l1 ++ l2) e2 s.
Proof.
  unfold append. rewrite length_app.
  destruct (Z.leb_spec (Z.of_nat (length (sub_buf s)) + Z.of_nat (length l1)) SUB_BUF_MAX).
  - cbn. rewrite length_app, <- app_assoc.
    replace (Z.of_nat (length (sub_buf s) + length l1) + Z.of_nat (length l2))
      with (Z.of_nat (length (sub_buf s)) + Z.of_nat (length l1 + length l2)) by lia. done.
  - destruct (Z.leb_spec (Z.of_nat (length (sub_buf s)) + Z.of_nat (length l1 + length l2)) SUB_BUF_MAX); [lia | done].
Qed.

Lemma append_env l e s s' : append l e s = Some (tt, s') -> env_cached s' = e.
Proof. unfold append. destruct (_ <=? _); [|done]. intros [= <-]. done. Qed.

Lemma append_ok l e s s' : append l e s = Some (tt, s') -> buffer_ok s'.
Proof.
  unfold append, buffer_ok. destruct (Z.leb_spec (Z.of_nat (length (sub_buf s)) + Z.of_nat (length l)) SUB_BUF_MAX);
    [|done]. intros [= <-]. cbn. rewrite length_app. lia.
Qed.

(** Nothing is written. *)
Lemma EmitsAt_ret e : EmitsAt (wasm_ret tt) e [] e.
Proof.
  intros s Hb <-. unfold append, code_bytes, buffer_ok in *. cbn [flat_map length].
  destruct (Z.leb_spec (Z.of_nat (length (sub_buf s)) + Z.of_nat 0) SUB_BUF_MAX); [|lia].
  rewrite app_nil_r. by destruct s.
Qed.

Lemma EmitsAt_seq m1 m2 e t1 e1 t2 e2 :
  EmitsAt m1 e t1 e1 -> EmitsAt m2 e1 t2 e2 -> EmitsAt (wasm_bind m1 (fun _ => m2)) e (t1 ++ t2) e2.
Proof.
  intros H1 H2 s Hb Hs. unfold wasm_bind. rewrite H1 by done.
  unfold code_bytes. rewrite flat_map_app. rewrite <- (append_append _ _ e1).
  destruct (append _ e1 s) as [[[] s']|] eqn:E; [|done].
  rewrite H2; [done | by apply append_ok in E | by apply append_env in E].
Qed.

Definition is_byte (b : Z) : Prop := 0 <= b < 2 ^ 8.

Lemma out8_append b s : is_byte b -> tcg_wasm_out8 b s = append [b] (env_cached s) s.
Proof.
  intros Hb. unfold tcg_wasm_out8, append. rewrite (uint_small 8) by done. cbn [length].
  replace (Z.of_nat (length (sub_buf s)) + 1 >? SUB_BUF_MAX) with
    (negb (Z.of_nat (length (sub_buf s)) + Z.of_nat 1 <=? SUB_BUF_MAX))
    by (rewrite Z.gtb_ltb, Z.ltb_antisym; done).
  destruct (_ <=? _); [|done]. cbn. by destruct s.
Qed.

(** An empty sequence writes nothing, also when the buffer is exactly full. *)
Lemma out_bytes_append l s :
  Forall is_byte l -> l <> [] -> out_bytes l s = append l (env_cached s) s.
Proof.
  intros Hl Hne. revert s Hne. induction Hl as [|b l Hb Hl IH]; intros s Hne; [done|].
  cbn [out_bytes]. unfold wasm_bind. rewrite out8_append by done. destruct l as [|b' l].
  - cbn. destruct (append [b] (env_cached s) s) as [[[] s']|]; done.
  - change (b :: b' :: l) with ([b] ++ (b' :: l)). rewrite <- (append_append [b] _ (env_cached s)).
    destruct (append [b] (env_cached s) s) as [[[] s']|] eqn:E; [|done].
    rewrite IH by done. by apply append_env in E as ->.
Qed.

(** ** The bytes of immediates *)

Lemma uleb_bytes fuel v : 0 <= v -> Forall is_byte (uleb fuel v).
Proof.
  revert v. induction fuel as [|fuel IH]; intros v Hv; [constructor|]. cbn [uleb].
  rewrite land_7f, shiftr_7. pose proof (Z.mod_pos_bound v 128 ltac:(lia)).
  destruct (v / 128 =? 0); [repeat constructor; lia|].
  rewrite lor_80 by lia. constructor; [unfold is_byte; lia|]. apply IH, Z.div_pos; lia.
Qed.

Lemma sleb_bytes fuel w n uv : Forall is_byte (sleb fuel w n uv).
Proof.
  revert uv. induction fuel as [|fuel IH]; intros uv; [constructor|]. cbn [sleb].
  rewrite land_7f. pose proof (Z.mod_pos_bound uv 128 ltac:(lia)).
  destruct (_ || _); [repeat constructor; lia|].
  rewrite lor_80 by lia. constructor; [unfold is_byte; lia | apply IH].
Qed.

Lemma uleb_small v : 0 <= v < 128 -> tcg_wasm_out_leb128_uint32_t v = [v].
Proof.
  intros Hv. unfold tcg_wasm_out_leb128_uint32_t. rewrite (uint_small 32) by lia.
  cbn [uleb]. rewrite land_7f, shiftr_7, Z.mod_small, Z.div_small by lia. done.
Qed.

Lemma uleb_nonempty v : tcg_wasm_out_leb128_uint32_t v <> [].
Proof. unfold tcg_wasm_out_leb128_uint32_t. cbn [uleb]. by destruct (_ =? 0). Qed.

Lemma sleb32_nonempty v : tcg_wasm_out_leb128_sint32_t v <> [].
Proof. unfold tcg_wasm_out_leb128_sint32_t. cbn [sleb]. by destruct (_ || _). Qed.

Lemma sleb64_nonempty v : tcg_wasm_out_leb128_sint64_t v <> [].
Proof. unfold tcg_wasm_out_leb128_sint64_t. cbn [sleb]. by destruct (_ || _). Qed.

(** One instruction of bytes [l]. *)
Lemma EmitsAt_bytes m e i l :
  (forall s, m s = out_bytes l s) -> Forall is_byte l -> l <> [] -> instr_bytes i = l -> EmitsAt m e [i] e.
Proof.
  intros Hm Hl Hne Hi s _ Hs. rewrite Hm, out_bytes_append by done. unfold code_bytes. cbn.
  by rewrite app_nil_r, Hi, Hs.
Qed.

(** ** The instructions that the backend writes *)

Definition op_instr (o : wasm_op) : instr :=
  match o with
  | op_else => Else | op_end => End | op_return => Return
  | i32_eqz => Eqz T32 | i32_eq => Relop T32 Eq | i32_ne => Relop T32 Ne
  | i32_and => Binop T32 And | i32_or => Binop T32 Or | i32_shl => Binop T32 Shl
  | i32_shr_s => Binop T32 ShrS | i32_shr_u => Binop T32 ShrU | i32_rotl => Binop T32 Rotl
  | i32_rotr => Binop T32 Rotr | i32_add => Binop T32 Add
  | i32_clz => Unop T32 Clz | i32_ctz => Unop T32 Ctz | i32_popcnt => Unop T32 Popcnt
  | i64_eqz => Eqz T64 | i64_eq => Relop T64 Eq | i64_le_u => Relop T64 LeU
  | i64_lt_u => Relop T64 LtU | i64_gt_u => Relop T64 GtU
  | i64_and => Binop T64 And | i64_or => Binop T64 Or | i64_xor => Binop T64 Xor
  | i64_shl => Binop T64 Shl | i64_shr_s => Binop T64 ShrS | i64_shr_u => Binop T64 ShrU
  | i64_rotl => Binop T64 Rotl | i64_rotr => Binop T64 Rotr
  | i64_add => Binop T64 Add | i64_sub => Binop T64 Sub | i64_mul => Binop T64 Mul
  | i64_div_s => Binop T64 DivS | i64_div_u => Binop T64 DivU
  | i64_rem_s => Binop T64 RemS | i64_rem_u => Binop T64 RemU
  | i64_clz => Unop T64 Clz | i64_ctz => Unop T64 Ctz | i64_popcnt => Unop T64 Popcnt
  | i32_wrap_i64 => WrapI64 | i64_extend_i32_u => ExtendI32U | i64_extend_i32_s => ExtendI32S
  | i64_extend8_s => Extend8S | i64_extend16_s => Extend16S
  end.

Definition ldst_instr (k : wasm_ldst) (a o : Z) : instr :=
  match k with
  | i64_store => Store 8 a o | i32_store => Store32 a o | i64_store8 => Store 1 a o
  | i64_store16 => Store 2 a o | i64_store32 => Store 4 a o
  | i64_load => Load 8 false a o | i32_load => Load32 a o
  | i64_load8_s => Load 1 true a o | i64_load8_u => Load 1 false a o
  | i64_load16_s => Load 2 true a o | i64_load16_u => Load 2 false a o
  | i64_load32_u => Load 4 false a o | i64_load32_s => Load 4 true a o
  end.

(** The comparison of a condition. *)
Definition cond_relop (cond : Z) : relop :=
  if cond =? TCG_COND_EQ then Eq
  else if cond =? TCG_COND_NE then Ne
  else if cond =? TCG_COND_LT then LtS
  else if cond =? TCG_COND_GE then GeS
  else if cond =? TCG_COND_LE then LeS
  else if cond =? TCG_COND_GT then GtS
  else if cond =? TCG_COND_LTU then LtU
  else if cond =? TCG_COND_GEU then GeU
  else if cond =? TCG_COND_LEU then LeU
  else GtU.

Lemma EmitsAt_op o e : EmitsAt (tcg_wasm_out_op o) e [op_instr o] e.
Proof.
  apply (EmitsAt_bytes _ _ _ [wasm_op_byte o]).
  - intros s. unfold tcg_wasm_out_op. cbn [out_bytes]. unfold wasm_bind. by destruct (tcg_wasm_out8 _ s) as [[[] ?]|].
  - repeat constructor; destruct o; done.
  - done.
  - by destruct o.
Qed.

(** An instruction and one byte. *)
Lemma EmitsAt_two b c i e :
  is_byte b -> is_byte c -> instr_bytes i = [b; c] -> EmitsAt (tcg_wasm_out8 b ;; tcg_wasm_out8 c)%wasm e [i] e.
Proof.
  intros Hb Hc Hi. apply (EmitsAt_bytes _ _ _ [b; c]); [| by repeat apply Forall_cons_2; [..| apply Forall_nil_2] | done | done].
  intros s. cbn [out_bytes]. unfold wasm_bind. destruct (tcg_wasm_out8 b s) as [[[] s']|]; [|done].
  by destruct (tcg_wasm_out8 c s') as [[[] ?]|].
Qed.

Definition small_idx (i : Z) : Prop := 0 <= i < 128.

Lemma small_idx_byte i : small_idx i -> is_byte i.
Proof. unfold small_idx, is_byte. lia. Qed.

Lemma EmitsAt_var b k i e :
  is_byte b -> small_idx i -> instr_bytes k = b :: tcg_wasm_out_leb128_uint32_t i ->
  EmitsAt (tcg_wasm_out_op_var b i) e [k] e.
Proof.
  intros Hb Hi Hk. apply EmitsAt_two; [done | by apply small_idx_byte |]. by rewrite Hk, uleb_small.
Qed.

Lemma EmitsAt_local_get i e : small_idx i -> EmitsAt (tcg_wasm_out_op_local_get i) e [LocalGet i] e.
Proof. intros. by apply EmitsAt_var. Qed.
Lemma EmitsAt_local_set i e : small_idx i -> EmitsAt (tcg_wasm_out_op_local_set i) e [LocalSet i] e.
Proof. intros. by apply EmitsAt_var. Qed.
Lemma EmitsAt_local_tee i e : small_idx i -> EmitsAt (tcg_wasm_out_op_local_tee i) e [LocalTee i] e.
Proof. intros. by apply EmitsAt_var. Qed.
Lemma EmitsAt_global_get i e : small_idx i -> EmitsAt (tcg_wasm_out_op_global_get i) e [GlobalGet i] e.
Proof. intros. by apply EmitsAt_var. Qed.
Lemma EmitsAt_br i e : small_idx i -> EmitsAt (tcg_wasm_out_op_br i) e [Br i] e.
Proof. intros. by apply EmitsAt_var. Qed.

Lemma EmitsAt_if_noret e : EmitsAt tcg_wasm_out_op_if_noret e [If None] e.
Proof. by apply EmitsAt_two. Qed.
Lemma EmitsAt_if_ret_i64 e : EmitsAt tcg_wasm_out_op_if_ret_i64 e [If (Some T64)] e.
Proof. by apply EmitsAt_two. Qed.
Lemma EmitsAt_if_ret_i32 e : EmitsAt tcg_wasm_out_op_if_ret_i32 e [If (Some T32)] e.
Proof. by apply EmitsAt_two. Qed.

Lemma set_env_cached_append l e' s :
  append l e' s = match append l (env_cached s) s with Some (_, s') => set_env_cached e' s' | None => None end.
Proof. unfold append. by destruct (_ <=? _). Qed.

(** Writing env makes the local copy stale. *)
Definition after_set (i : Z) (e : bool) : bool := if i =? TCG_REG_R14 then false else e.

Lemma EmitsAt_global_set i e :
  small_idx i -> EmitsAt (tcg_wasm_out_op_global_set i) e [GlobalSet i] (after_set i e).
Proof.
  intros Hi s Hb Hs. unfold tcg_wasm_out_op_global_set, tcg_target_reg_index, after_set.
  destruct (i =? TCG_REG_R14).
  - unfold wasm_bind at 1, set_env_cached at 1.
    pose proof (EmitsAt_var 0x24 (GlobalSet i) i false ltac:(done) Hi eq_refl) as Hv.
    rewrite Hv by done. done.
  - unfold wasm_bind at 1, wasm_ret. by apply EmitsAt_var.
Qed.

Lemma EmitsAt_i32_const v e : EmitsAt (tcg_wasm_out_op_i32_const v) e [Const T32 (sint 32 v)] e.
Proof.
  apply (EmitsAt_bytes _ _ _ (0x41 :: tcg_wasm_out_leb128_sint32_t v)); [done | | done |].
  - constructor; [done | apply sleb_bytes].
  - cbn. unfold tcg_wasm_out_leb128_sint32_t. rewrite uint_sint by lia.
    by rewrite (sint_eqm 32 (sint 32 v) v) by (by apply eqm_sint).
Qed.

Lemma EmitsAt_i64_const v e : EmitsAt (tcg_wasm_out_op_i64_const v) e [Const T64 (sint 64 v)] e.
Proof.
  apply (EmitsAt_bytes _ _ _ (0x42 :: tcg_wasm_out_leb128_sint64_t v)); [done | | done |].
  - constructor; [done | apply sleb_bytes].
  - cbn. unfold tcg_wasm_out_leb128_sint64_t. rewrite uint_sint by lia.
    by rewrite (sint_eqm 64 (sint 64 v) v) by (by apply eqm_sint).
Qed.

Lemma EmitsAt_ldst k a o e : EmitsAt (tcg_wasm_out_ldst k a o) e [ldst_instr k a o] e.
Proof.
  apply (EmitsAt_bytes _ _ _ (wasm_ldst_byte k :: memarg a o)); [| | done | by destruct k].
  - intros s. unfold tcg_wasm_out_ldst, tcg_wasm_out_op_loadstore, memarg. cbn [out_bytes].
    unfold wasm_bind. destruct (tcg_wasm_out8 _ s) as [[[] s1]|]; [|done].
    rewrite !out_bytes_append; [| apply Forall_app; split; apply uleb_bytes, uint_range; lia |
      by intros [E _]%app_eq_nil; apply uleb_nonempty in E | apply uleb_bytes, uint_range; lia | apply uleb_nonempty].
    rewrite <- (append_append _ _ (env_cached s1)).
    destruct (append _ _ s1) as [[[] s2]|] eqn:E; [|done]. apply append_env in E as <-.
    apply out_bytes_append; [apply uleb_bytes, uint_range; lia | apply uleb_nonempty].
  - constructor; [by destruct k |]. apply Forall_app. split; apply uleb_bytes, uint_range; lia.
Qed.

Lemma EmitsAt_call f e : EmitsAt (tcg_wasm_out_op_call f) e [Call f] e.
Proof.
  apply (EmitsAt_bytes _ _ _ (0x10 :: tcg_wasm_out_leb128_uint32_t f)); [done | | done | done].
  constructor; [done | apply uleb_bytes, uint_range; lia].
Qed.

Lemma EmitsAt_cond_byte c (i : Z * Z -> Z) t e :
  compare_cond c = true -> (t = T32 /\ i = fst \/ t = T64 /\ i = snd) ->
  EmitsAt (tcg_wasm_out8 (i (tcg_cond_to_inst c))) e [Relop t (cond_relop c)] e.
Proof.
  intros Hc Ht. apply (EmitsAt_bytes _ _ _ [i (tcg_cond_to_inst c)]).
  - intros s. cbn [out_bytes]. unfold wasm_bind. by destruct (tcg_wasm_out8 _ s) as [[[] ?]|].
  - constructor; [|constructor].
    destruct Ht as [[-> ->]|[-> ->]]; pattern c; apply compare_cond_cases; (done || (split; by vm_compute)).
  - done.
  - destruct Ht as [[-> ->]|[-> ->]]; pattern c; by apply compare_cond_cases.
Qed.

(** ** Compositions *)

Create HintDb emit discriminated.
Lemma EmitsAt_assert e : EmitsAt (wasm_assert true) e [] e.
Proof. apply EmitsAt_ret. Qed.

#[export] Hint Resolve EmitsAt_ret EmitsAt_assert EmitsAt_op EmitsAt_local_get EmitsAt_local_set EmitsAt_local_tee
  EmitsAt_global_get EmitsAt_global_set EmitsAt_br EmitsAt_if_noret EmitsAt_if_ret_i64
  EmitsAt_if_ret_i32 EmitsAt_i32_const EmitsAt_i64_const EmitsAt_ldst EmitsAt_call : emit.

Lemma is_reg_small r : is_reg r = true -> small_idx r.
Proof. unfold is_reg, small_idx. intros Hr. rewrite andb_true_iff in Hr. lia. Qed.
#[export] Hint Resolve is_reg_small : emit.
#[export] Hint Extern 1 (small_idx _) => (by vm_compute) : emit.

(** Walks through a sequence of emissions. *)
Ltac emit_step :=
  match goal with
  | |- EmitsAt (wasm_bind _ (fun _ => _)) _ _ _ => eapply EmitsAt_seq
  | |- EmitsAt _ _ _ _ => solve [eauto 3 with emit nocore]
  end.
Ltac emit := repeat emit_step.

Lemma EmitsAt_get_r r e : is_reg r = true -> EmitsAt (tcg_wasm_out_op_global_get_r r) e [GlobalGet r] e.
Proof. intros. unfold tcg_wasm_out_op_global_get_r, tcg_target_reg_index. emit. Qed.
Lemma EmitsAt_set_r r e :
  is_reg r = true -> EmitsAt (tcg_wasm_out_op_global_set_r r) e [GlobalSet r] (after_set r e).
Proof. intros. unfold tcg_wasm_out_op_global_set_r, tcg_target_reg_index. emit. Qed.
#[export] Hint Resolve EmitsAt_get_r EmitsAt_set_r : emit.

Lemma EmitsAt_cond_i64 c a b e :
  compare_cond c = true -> is_reg a = true -> is_reg b = true ->
  EmitsAt (tcg_wasm_out_op_cond_i64 c a b) e [GlobalGet a; GlobalGet b; Relop T64 (cond_relop c)] e.
Proof.
  intros. unfold tcg_wasm_out_op_cond_i64.
  eapply (EmitsAt_seq _ _ _ [_]); [emit|]. eapply (EmitsAt_seq _ _ _ [_]); [emit|].
  apply EmitsAt_cond_byte; auto.
Qed.

Lemma EmitsAt_cond_i32 c a b e :
  compare_cond c = true -> is_reg a = true -> is_reg b = true ->
  EmitsAt (tcg_wasm_out_op_cond_i32 c a b) e
    [GlobalGet a; WrapI64; GlobalGet b; WrapI64; Relop T32 (cond_relop c)] e.
Proof.
  intros. unfold tcg_wasm_out_op_cond_i32.
  do 4 (eapply (EmitsAt_seq _ _ _ [_]); [emit|]). apply EmitsAt_cond_byte; auto.
Qed.
#[export] Hint Resolve EmitsAt_cond_i64 EmitsAt_cond_i32 : emit.

Lemma EmitsAt_not e : EmitsAt tcg_wasm_out_op_not e [Const T64 (-1); Binop T64 Xor] e.
Proof. unfold tcg_wasm_out_op_not. eapply (EmitsAt_seq _ _ _ [_]); emit. Qed.
#[export] Hint Resolve EmitsAt_not : emit.

(** Reading a register as an address. *)
Definition addr_instrs (r : Z) (e : bool) : list instr :=
  if r =? TCG_REG_R14
  then if e then [LocalGet TMP32_LOCAL_ENV_IDX] else [GlobalGet r; WrapI64; LocalTee TMP32_LOCAL_ENV_IDX]
  else [GlobalGet r; WrapI64].
Definition addr_env (r : Z) (e : bool) : bool := if r =? TCG_REG_R14 then true else e.

Lemma EmitsAt_set_env m e t e1 e2 :
  EmitsAt m e t e1 -> EmitsAt (m ;; set_env_cached e2)%wasm e t e2.
Proof.
  intros Hm s Hb Hs. unfold wasm_bind. rewrite Hm by done. unfold append. by destruct (_ <=? _).
Qed.

Lemma wasm_bind_assoc {A B C} (m : W A) (f : A -> W B) (g : B -> W C) s :
  wasm_bind (wasm_bind m f) g s = wasm_bind m (fun a => wasm_bind (f a) g) s.
Proof. unfold wasm_bind. by destruct (m s) as [[]|]. Qed.

Lemma EmitsAt_ext m m' e t e' : (forall s, m s = m' s) -> EmitsAt m' e t e' -> EmitsAt m e t e'.
Proof. intros He Hm s Hb Hs. rewrite He. by apply Hm. Qed.

Lemma EmitsAt_get_r_i32 r e :
  is_reg r = true -> EmitsAt (tcg_wasm_out_op_global_get_r_i32 r) e (addr_instrs r e) (addr_env r e).
Proof.
  intros Hr. unfold tcg_wasm_out_op_global_get_r_i32, addr_instrs, addr_env, tcg_target_reg_index.
  destruct (r =? TCG_REG_R14).
  - intros s Hb Hs. unfold get_env_cached. unfold wasm_bind at 1. rewrite Hs. destruct e.
    + by apply EmitsAt_local_get.
    + revert s Hb Hs. change (EmitsAt (tcg_wasm_out_op_global_get r;; tcg_wasm_out_op i32_wrap_i64;;
        tcg_wasm_out_op_local_tee TMP32_LOCAL_ENV_IDX;; set_env_cached true)%wasm false
        [GlobalGet r; WrapI64; LocalTee TMP32_LOCAL_ENV_IDX] true).
      do 2 (eapply (EmitsAt_seq _ _ _ [_]); [emit|]). eapply EmitsAt_set_env. emit.
  - eapply (EmitsAt_seq _ _ _ [_]); emit.
Qed.
#[export] Hint Resolve EmitsAt_get_r_i32 : emit.

(** The address of an access: the instructions before it and its offset. *)
Definition base_instrs (base offset : Z) (e : bool) : list instr :=
  addr_instrs base e ++ if sint 32 offset <? 0 then [Const T32 (sint 32 offset); Binop T32 Add] else [].
Definition base_off (offset : Z) : Z := if sint 32 offset <? 0 then 0 else uint 32 offset.

Lemma EmitsAt_base_offset base offset f e t e' :
  is_reg base = true -> EmitsAt (f (base_off offset)) (addr_env base e) t e' ->
  EmitsAt (wasm_bind (out_base_offset base offset) f) e (base_instrs base offset e ++ t) e'.
Proof.
  intros Hr Hf. eapply EmitsAt_ext; [intros s; apply wasm_bind_assoc|].
  unfold base_instrs. rewrite <- app_assoc. eapply EmitsAt_seq; [emit|]. unfold base_off in Hf.
  destruct (sint 32 offset <? 0).
  - eapply EmitsAt_ext; [intros s; apply wasm_bind_assoc|].
    eapply (EmitsAt_seq _ _ _ [_]); [|].
    { rewrite <- (sint_eqm 32 (sint 32 offset) offset) at 2 by (by apply eqm_sint). emit. }
    eapply EmitsAt_ext; [intros s; apply wasm_bind_assoc|].
    eapply (EmitsAt_seq _ _ _ [_]); [emit | exact Hf].
  - exact Hf.
Qed.

(** ** Compiled code *)

(** The locals and globals of the function of a translation block: its
    argument, two i32 and five i64; 25 globals. *)
Definition tb_locals (i : Z) : option vty :=
  if (0 <=? i) && (i <? 3) then Some T32 else if (3 <=? i) && (i <? 8) then Some T64 else None.
Definition tb_globals (i : Z) : bool := (0 <=? i) && (i <? 25).

Definition tb_ctx (f : Z -> option (list vty * blockty)) : wctx :=
  {| local_ty := tb_locals; global_ok := tb_globals; func_ty := f |}.

(** The local copy of env. *)
Definition env_ok (e : bool) (st : wst) : Prop :=
  e = true -> locals st TMP32_LOCAL_ENV_IDX = V32 (uint 32 (globals st TCG_REG_R14)).

(** A piece of code that validates between ops and keeps what the emission
    assumes of the state. *)
Definition good_code (c : list code) : Prop :=
  forallb tree_ok c = true /\ forallb instr_ok (flatten c) = true /\
  forall f labels, check (tb_ctx f) labels c ([], false) = Some ([], false).

Section Compiles.
Context `{H : WasmHost}.

Definition runs (c : list code) (e e' : bool) (P : wst -> Prop) (Q : wst -> wst -> Prop) : Prop :=
  forall fuel st, stk st = [] -> env_ok e st -> regs_ok (globals st) -> P st ->
  exists st', run fuel c st = WNext st' /\ stk st' = [] /\ env_ok e' st' /\ regs_ok (globals st') /\ Q st st'.

Definition Compiles (m : W unit) (P : wst -> Prop) (Q : wst -> wst -> Prop) : Prop :=
  forall e, exists c e', EmitsAt m e (flatten c) e' /\ good_code c /\ runs c e e' P Q.

Lemma flatten_app c1 c2 : flatten (c1 ++ c2) = flatten c1 ++ flatten c2.
Proof. unfold flatten. apply flat_map_app. Qed.

Lemma wasm_run_app fuel c1 c2 st :
  run fuel (c1 ++ c2) st = match run fuel c1 st with WNext st' => run fuel c2 st' | r => r end.
Proof.
  unfold run. revert st. induction c1 as [|c c1 IH]; intros st; [done|]. cbn.
  by destruct (exec fuel c st).
Qed.

Lemma check_app C labels c1 c2 s :
  check C labels (c1 ++ c2) s = check C labels c1 s ≫= check C labels c2.
Proof.
  unfold check. revert s. induction c1 as [|c c1 IH]; intros s; [done|].
  cbn [app check_with]. destruct (check1 C labels c s); [apply IH | done].
Qed.

Lemma good_code_app c1 c2 : good_code c1 -> good_code c2 -> good_code (c1 ++ c2).
Proof.
  intros (T1&I1&V1) (T2&I2&V2). split; [|split].
  - by rewrite forallb_app, T1, T2.
  - by rewrite flatten_app, forallb_app, I1, I2.
  - intros f labels. rewrite check_app, V1. apply V2.
Qed.

Lemma Compiles_seq m1 m2 P1 Q1 P2 Q2 :
  Compiles m1 P1 Q1 -> Compiles m2 P2 Q2 ->
  (forall st st1, regs_ok (globals st) -> P1 st -> Q1 st st1 -> P2 st1) ->
  Compiles (wasm_bind m1 (fun _ => m2)) P1 (fun st st' => exists st1, Q1 st st1 /\ Q2 st1 st').
Proof.
  intros H1 H2 HP e. destruct (H1 e) as (c1 & e1 & E1 & G1 & R1).
  destruct (H2 e1) as (c2 & e2 & E2 & G2 & R2).
  exists (c1 ++ c2), e2. split; [|split].
  - rewrite flatten_app. by eapply EmitsAt_seq.
  - by apply good_code_app.
  - intros fuel st Hs He Hg Hp. destruct (R1 fuel st) as (st1 & X1 & S1 & V1 & O1 & Q); [done..|].
    destruct (R2 fuel st1) as (st2 & X2 & S2 & V2 & O2 & Q'); [eauto..|].
    exists st2. rewrite wasm_run_app, X1. eauto 10.
Qed.

Lemma Compiles_weaken m (P P' : wst -> Prop) (Q Q' : wst -> wst -> Prop) :
  Compiles m P Q -> (forall st, regs_ok (globals st) -> P' st -> P st) ->
  (forall st st', regs_ok (globals st) -> P' st -> Q st st' -> Q' st st') -> Compiles m P' Q'.
Proof.
  intros Hm HP HQ e. destruct (Hm e) as (c & e' & E & G & R). exists c, e'. split_and!; [done..|].
  intros fuel st Hs He Hg Hp. destruct (R fuel st) as (st' & X & S & V & O & HQ'); eauto 10.
Qed.

(** From the instructions that are written to code. *)
Lemma Compiles_intro m P Q :
  (forall e, exists t e', EmitsAt m e t e' /\
     exists c, parse t = Some c /\ flatten c = t /\ good_code c /\ runs c e e' P Q) ->
  Compiles m P Q.
Proof. intros Hm e. destruct (Hm e) as (t & e' & E & c & _ & <- & G & R). eauto 10. Qed.

(** Assigning to a register keeps the copy of env when the emission says so. *)
Lemma env_ok_set r v e g l m s s' :
  env_ok e {| stk := s; globals := g; locals := l; wmem := m |} ->
  env_ok (after_set r e) {| stk := s'; globals := <[r := v]> g; locals := l; wmem := m |}.
Proof.
  unfold env_ok, after_set. cbn. intros He Hr. destruct (Z.eqb_spec r TCG_REG_R14); [done|].
  rewrite fn_lookup_insert_ne by done. auto.
Qed.

Lemma regs_ok_insert (g : Z -> Z) r v : regs_ok g -> 0 <= v < 2 ^ 64 -> regs_ok (<[r := v]> g).
Proof.
  intros Hg Hv r'. destruct (decide (r = r')) as [->|]; [by rewrite fn_lookup_insert|].
  by rewrite fn_lookup_insert_ne.
Qed.

(** Straight code that assigns [v] to register [r]. *)
Lemma runs_assign c e r (v : (Z -> Z) -> Z) P :
  (forall fuel st, stk st = [] -> P (globals st) -> regs_ok (globals st) ->
     exists l, run fuel c st = WNext {| stk := []; globals := <[r := v (globals st)]> (globals st);
                                        locals := l; wmem := wmem st |} /\
               l TMP32_LOCAL_ENV_IDX = locals st TMP32_LOCAL_ENV_IDX) ->
  (forall g, regs_ok g -> P g -> 0 <= v g < 2 ^ 64) ->
  runs c e (after_set r e) (fun st => P (globals st))
    (fun st st' => wmem st' = wmem st /\ globals st' = <[r := v (globals st)]> (globals st)).
Proof.
  intros Hc Hv fuel st Hs He Hg Hp. destruct (Hc fuel st Hs Hp Hg) as (l & Hrun & Hl).
  eexists. split; [exact Hrun|].
  refine (conj eq_refl (conj _ (conj _ (conj eq_refl eq_refl)))).
  - intros Hr. cbn. rewrite Hl. revert Hr. unfold after_set. destruct (Z.eqb_spec r TCG_REG_R14); [done|].
    rewrite fn_lookup_insert_ne by done. auto.
  - cbn. apply regs_ok_insert; auto.
Qed.

End Compiles.

(** ** Stepping through code

    One equation per instruction, on states written out; the database
    [wasm_run] runs straight code without unfolding the semantics. *)

Section Steps.
Context `{H : WasmHost}.

Local Abbreviation St s g l m := {| stk := s; globals := g; locals := l; wmem := m |}.

Lemma run_nil fuel st : run fuel [] st = WNext st.
Proof. done. Qed.
Lemma run_global_get fuel i c s g l m :
  run fuel (Plain (GlobalGet i) :: c) (St s g l m) = run fuel c (St (V64 (g i) :: s) g l m).
Proof. done. Qed.
Lemma run_global_set fuel i v c s g l m :
  run fuel (Plain (GlobalSet i) :: c) (St (V64 v :: s) g l m) = run fuel c (St s (<[i := v]> g) l m).
Proof. done. Qed.
Lemma run_local_get fuel i v c s g l m :
  run fuel (Plain (LocalGet i) :: c) (St s g (<[i := v]> l) m) = run fuel c (St (v :: s) g (<[i := v]> l) m).
Proof. unfold run. cbn. by rewrite fn_lookup_insert. Qed.
Lemma run_local_get_other fuel i c s g l m :
  run fuel (Plain (LocalGet i) :: c) (St s g l m) = run fuel c (St (l i :: s) g l m).
Proof. done. Qed.
Lemma run_local_set fuel i v c s g l m :
  run fuel (Plain (LocalSet i) :: c) (St (v :: s) g l m) = run fuel c (St s g (<[i := v]> l) m).
Proof. done. Qed.
Lemma run_local_tee fuel i v c s g l m :
  run fuel (Plain (LocalTee i) :: c) (St (v :: s) g l m) = run fuel c (St (v :: s) g (<[i := v]> l) m).
Proof. done. Qed.
Lemma run_const32 fuel k c s g l m :
  run fuel (Plain (Const T32 k) :: c) (St s g l m) = run fuel c (St (V32 (uint 32 k) :: s) g l m).
Proof. done. Qed.
Lemma run_const64 fuel k c s g l m :
  run fuel (Plain (Const T64 k) :: c) (St s g l m) = run fuel c (St (V64 (uint 64 k) :: s) g l m).
Proof. done. Qed.
Lemma run_wrap fuel v c s g l m :
  run fuel (Plain WrapI64 :: c) (St (V64 v :: s) g l m) = run fuel c (St (V32 (uint 32 v) :: s) g l m).
Proof. done. Qed.
Lemma run_extend_s fuel v c s g l m :
  run fuel (Plain ExtendI32S :: c) (St (V32 v :: s) g l m) = run fuel c (St (V64 (uint 64 (sint 32 v)) :: s) g l m).
Proof. done. Qed.
Lemma run_extend_u fuel v c s g l m :
  run fuel (Plain ExtendI32U :: c) (St (V32 v :: s) g l m) = run fuel c (St (V64 v :: s) g l m).
Proof. done. Qed.
Lemma run_eqz32 fuel v c s g l m :
  run fuel (Plain (Eqz T32) :: c) (St (V32 v :: s) g l m) = run fuel c (St (V32 (b2z (v =? 0)) :: s) g l m).
Proof. done. Qed.
Lemma run_eqz64 fuel v c s g l m :
  run fuel (Plain (Eqz T64) :: c) (St (V64 v :: s) g l m) = run fuel c (St (V32 (b2z (v =? 0)) :: s) g l m).
Proof. done. Qed.
Lemma run_relop32 fuel o x y c s g l m :
  run fuel (Plain (Relop T32 o) :: c) (St (V32 y :: V32 x :: s) g l m) =
  run fuel c (St (V32 (b2z (rel_sem 32 o x y)) :: s) g l m).
Proof. done. Qed.
Lemma run_relop64 fuel o x y c s g l m :
  run fuel (Plain (Relop T64 o) :: c) (St (V64 y :: V64 x :: s) g l m) =
  run fuel c (St (V32 (b2z (rel_sem 64 o x y)) :: s) g l m).
Proof. done. Qed.

(** Operators that do not trap. *)
Definition total_bin (w : Z) (o : binop) (a b : Z) : Z :=
  match bin_sem w o a b with Some v => v | None => 0 end.

Lemma run_binop32 fuel o x y c s g l m :
  match o with DivS | DivU | RemS | RemU => false | _ => true end = true ->
  run fuel (Plain (Binop T32 o) :: c) (St (V32 y :: V32 x :: s) g l m) =
  run fuel c (St (V32 (total_bin 32 o x y) :: s) g l m).
Proof. by destruct o. Qed.
Lemma run_binop64 fuel o x y c s g l m :
  match o with DivS | DivU | RemS | RemU => false | _ => true end = true ->
  run fuel (Plain (Binop T64 o) :: c) (St (V64 y :: V64 x :: s) g l m) =
  run fuel c (St (V64 (total_bin 64 o x y) :: s) g l m).
Proof. by destruct o. Qed.

(** Accesses within the memory. *)
Lemma run_load fuel n sg a off v c s g l m :
  v + off + Z.of_nat n <= mem_size ->
  run fuel (Plain (Load n sg a off) :: c) (St (V32 v :: s) g l m) =
  run fuel c (St (V64 (let x := load_le m (v + off) n in if sg then uint 64 (sint (8 * Z.of_nat n) x) else x) :: s) g l m).
Proof.
  intros Hm. unfold run. cbn [run_with exec step stk]. unfold wload.
  by rewrite (proj2 (Z.leb_le _ _) Hm).
Qed.
Lemma run_load32 fuel a off v c s g l m :
  v + off + 4 <= mem_size ->
  run fuel (Plain (Load32 a off) :: c) (St (V32 v :: s) g l m) =
  run fuel c (St (V32 (load_le m (v + off) 4) :: s) g l m).
Proof.
  intros Hm. unfold run. cbn [run_with exec step stk]. unfold wload.
  by rewrite (proj2 (Z.leb_le (v + off + Z.of_nat 4) _) Hm).
Qed.
Lemma run_store fuel n a off v x c s g l m :
  v + off + Z.of_nat n <= mem_size ->
  run fuel (Plain (Store n a off) :: c) (St (V64 x :: V32 v :: s) g l m) =
  run fuel c (St s g l (store_le m (v + off) x n)).
Proof.
  intros Hm. unfold run. cbn [run_with exec step stk]. unfold wstore.
  by rewrite (proj2 (Z.leb_le _ _) Hm).
Qed.
Lemma run_store32 fuel a off v x c s g l m :
  v + off + 4 <= mem_size ->
  run fuel (Plain (Store32 a off) :: c) (St (V32 x :: V32 v :: s) g l m) =
  run fuel c (St s g l (store_le m (v + off) x 4)).
Proof.
  intros Hm. unfold run. cbn [run_with exec step stk]. unfold wstore.
  by rewrite (proj2 (Z.leb_le (v + off + Z.of_nat 4) _) Hm).
Qed.

End Steps.

Create Rewrite HintDb wasm_run.
#[export] Hint Rewrite @run_nil @run_global_get @run_global_set @run_local_get @run_local_set @run_local_tee
  @run_const32 @run_const64 @run_wrap @run_extend_s @run_extend_u @run_eqz32 @run_eqz64 @run_relop32
  @run_relop64 : wasm_run.
#[export] Hint Rewrite @run_binop32 @run_binop64 using reflexivity : wasm_run.

(** ** Automation *)

Lemma idx_ok r : small_idx r -> (uint 32 r =? r) = true.
Proof. unfold small_idx. intros. apply Z.eqb_eq, uint_small. lia. Qed.

Lemma reg_global_ok r : is_reg r = true -> tb_globals r = true.
Proof. unfold is_reg, tb_globals. rewrite !andb_true_iff. lia. Qed.

Lemma const_ok w v : 0 <= w -> (sint w (sint w v) =? sint w v) = true.
Proof. intros. by apply Z.eqb_eq, sint_eqm, eqm_sint. Qed.

(** Every side condition of [good_code] on straight code. *)
Ltac good_code :=
  refine (conj eq_refl (conj _ _));
  [ cbn [flatten flat_map flat1 app forallb instr_ok];
    rewrite ?idx_ok by (eauto 3 with emit nocore); rewrite ?const_ok by lia; reflexivity
  | intros; cbn [check check_with check1 check_plain instr_ty global_ok local_ty tb_ctx];
    rewrite ?reg_global_ok by assumption; reflexivity ].

(** Reads the code off the instructions, which are known up to registers and
    constants. *)
Ltac parse_code :=
  match goal with
  | |- exists c, parse ?t = Some c /\ _ =>
      let c := eval cbv [parse parse_go app op_instr ldst_instr rev] in (parse t) in
      match c with Some ?c' => exists c' end; refine (conj eq_refl (conj eq_refl _))
  end.

(** Reduces [Compiles] of a function of the backend, unfolded, to the two
    obligations of [runs]. *)
Ltac compile := apply Compiles_intro; intros ?e; do 2 eexists.
