(* ===== verification/WasmCtl.v ===== *)
(** * Writing WebAssembly: control flow, calls and guest accesses

    The second half of the emission functions of tcg/wasm32/tcg-target.c.inc,
    with the bookkeeping of blocks, labels and helpers that tcg/tcg.c has.  The
    body of a translation block is a loop over blocks, each guarded by a
    comparison of a global, the block pointer, with the number of the block. *)

From Stdlib Require Import ZArith Lia Bool.
From stdpp Require Import base numbers functions list option.
From S2P Require Import Prelude.
From S2P Require Import Bytes.
From S2P Require Import Bitops.
From S2P Require Import TcgCond.
From S2P Require Import TcgOpc.
From S2P Require Import TcgCtx.
From S2P Require Import TcgHelpers.
From S2P Require Import TcgSem.
From S2P Require Import MemOp.
From S2P Require Import TciOut.
From S2P Require Import TciExec.
From S2P Require Import Wasm.
From S2P Require Import WasmOut.

Local Open Scope Z_scope.
Local Open Scope wasm_scope.

(** ** Bookkeeping *)

Definition LABEL_MAX : Z := 200.
Definition WASM_NUM_HELPER_FUNCS_MAX : Z := 200.
Definition WASM_HELPER_ADDED_TYPES_SECTION_MAX : Z := 200.

Definition wasm_block_current_idx : W Z := fun s => Some (wasm_block_idx s, s).

Definition wasm_alloc_block_idx : W Z := fun s =>
  let i := wasm_block_idx s + 1 in
  Some (i,
    {| sub_buf := sub_buf s; env_cached := env_cached s; current_label := current_label s;
       wasm_block_idx := i; label_to_block := label_to_block s;
       block_ptr_placeholder := block_ptr_placeholder s;
       target_helper_funcs := target_helper_funcs s; target_helper_types := target_helper_types s |}).

(** The assertion lets [LABEL_MAX] itself through, past the end of the array,
    which is undefined behaviour. *)
Definition wasm_add_label_context (label block : Z) : W unit := fun s =>
  if (0 <=? label) && (label <? LABEL_MAX)
  then Some (tt,
    {| sub_buf := sub_buf s; env_cached := env_cached s; current_label := current_label s;
       wasm_block_idx := wasm_block_idx s; label_to_block := <[label := block]> (label_to_block s);
       block_ptr_placeholder := block_ptr_placeholder s;
       target_helper_funcs := target_helper_funcs s; target_helper_types := target_helper_types s |})
  else None.

(** The placeholder is the position of the next byte. *)
Definition wasm_add_label_block_ptr_placeholder (label : Z) : W unit := fun s =>
  if Z.of_nat (length (block_ptr_placeholder s)) <? LABEL_MAX
  then Some (tt,
    {| sub_buf := sub_buf s; env_cached := env_cached s; current_label := current_label s;
       wasm_block_idx := wasm_block_idx s; label_to_block := label_to_block s;
       block_ptr_placeholder := block_ptr_placeholder s ++ [(label, length (sub_buf s))];
       target_helper_funcs := target_helper_funcs s; target_helper_types := target_helper_types s |})
  else None.

(** current_label[current_label_pos++] = id, with its assertion. *)
Definition push_current_label (id : Z) : W unit := fun s =>
  if Z.of_nat (length (current_label s)) + 1 <? 100
  then Some (tt,
    {| sub_buf := sub_buf s; env_cached := env_cached s; current_label := current_label s ++ [id];
       wasm_block_idx := wasm_block_idx s; label_to_block := label_to_block s;
       block_ptr_placeholder := block_ptr_placeholder s;
       target_helper_funcs := target_helper_funcs s; target_helper_types := target_helper_types s |})
  else None.

Definition label_placed (id : Z) : W bool := fun s => Some (existsb (Z.eqb id) (current_label s), s).

(** The first helper of this number. *)
Fixpoint find_helper (l : list Z) (f i : Z) : Z :=
  match l with [] => -1 | g :: l => if g =? f then i else find_helper l f (i + 1) end.

Definition get_wasm_helper_idx (f : Z) : W Z := fun s =>
  Some (find_helper (target_helper_funcs s) (uint 32 f) 0, s).

(** wasm_register_helper_alloc_num followed by wasm_register_helper. *)
Definition wasm_register_helper (f : Z) : W Z := fun s =>
  let i := Z.of_nat (length (target_helper_funcs s)) in
  if i <? WASM_NUM_HELPER_FUNCS_MAX
  then Some (i,
    {| sub_buf := sub_buf s; env_cached := env_cached s; current_label := current_label s;
       wasm_block_idx := wasm_block_idx s; label_to_block := label_to_block s;
       block_ptr_placeholder := block_ptr_placeholder s;
       target_helper_funcs := target_helper_funcs s ++ [uint 32 f];
       target_helper_types := target_helper_types s |})
  else None.

(** The bytes of a type, written at the current position. *)
Definition add_helper_types (l : list Z) : W unit := fun s =>
  if Z.of_nat (length (target_helper_types s ++ l)) <=? WASM_HELPER_ADDED_TYPES_SECTION_MAX
  then Some (tt,
    {| sub_buf := sub_buf s; env_cached := env_cached s; current_label := current_label s;
       wasm_block_idx := wasm_block_idx s; label_to_block := label_to_block s;
       block_ptr_placeholder := block_ptr_placeholder s;
       target_helper_funcs := target_helper_funcs s;
       target_helper_types := target_helper_types s ++ l |})
  else None.

(** ** The context of an instance *)

Definition ENV_OFF : Z := 0.
Definition STACK_OFF : Z := 4.
Definition TB_PTR_OFF : Z := 8.
Definition HELPER_RET_TB_PTR_OFF : Z := 12.
Definition DO_INIT_OFF : Z := 16.
Definition DONE_FLAG_OFF : Z := 20.
Definition STACK128_OFF : Z := 24.
Definition UNWINDING_OFF : Z := 28.

Definition tcg_wasm_out_ctx_i32_store_const (off v : Z) : W unit :=
  tcg_wasm_out_op_local_get CTX_IDX ;;
  tcg_wasm_out_op_i32_const v ;;
  tcg_wasm_out_ldst i32_store 0 off.

Definition tcg_wasm_out_ctx_i32_store_r (off r0 : Z) : W unit :=
  tcg_wasm_out_op_local_get CTX_IDX ;;
  tcg_wasm_out_op_global_get_r r0 ;;
  tcg_wasm_out_op i32_wrap_i64 ;;
  tcg_wasm_out_ldst i32_store 0 off.

Definition tcg_wasm_out_ctx_i32_load (off : Z) : W unit :=
  tcg_wasm_out_op_local_get CTX_IDX ;;
  tcg_wasm_out_ldst i32_load 0 off.

(** ** Blocks and branches *)

(** The start of block [block_idx]: it is entered when the block pointer does
    not point beyond it. *)
Definition out_block_start (block_idx : Z) : W unit :=
  tcg_wasm_out_op_global_get BLOCK_PTR_IDX ;;
  tcg_wasm_out_op_i64_const block_idx ;;
  tcg_wasm_out_op i64_le_u ;;
  tcg_wasm_out_op_if_noret.

Definition tcg_wasm_out_label_idx (label : Z) : W unit :=
  block_idx <- wasm_alloc_block_idx ;;
  wasm_add_label_context label block_idx ;;
  tcg_wasm_out_op op_end ;;
  out_block_start block_idx ;;
  set_env_cached false.

Definition tcg_out_label_cb (id : Z) : W unit :=
  push_current_label id ;;
  tcg_wasm_out_label_idx (id + 1).

Definition tcg_wasm_out_op_br_to_label (id : Z) (br_if : bool) : W unit :=
  let toploop_depth := if br_if then 2 else 1 in
  (if br_if then tcg_wasm_out_op_if_noret else wasm_ret tt) ;;
  tcg_wasm_out8 0x42 ;;
  wasm_add_label_block_ptr_placeholder (id + 1) ;;
  out_bytes [0x80; 0x80; 0x80; 0x80; 0x00] ;;
  tcg_wasm_out_op_global_set BLOCK_PTR_IDX ;;
  found <- label_placed id ;;
  (if found : bool then tcg_wasm_out_op_br toploop_depth
   else tcg_wasm_out_op_br (toploop_depth - 1)) ;;
  (if br_if then tcg_wasm_out_op op_end else wasm_ret tt).

Definition tcg_wasm_out_br (id : Z) : W unit := tcg_wasm_out_op_br_to_label id false.

Definition tcg_wasm_out_brcond_i32 (cond arg1 arg2 id : Z) : W unit :=
  tcg_wasm_out_op_cond_i32 cond arg1 arg2 ;;
  tcg_wasm_out_op_br_to_label id true.

Definition tcg_wasm_out_brcond_i64 (cond arg1 arg2 id : Z) : W unit :=
  tcg_wasm_out_op_cond_i64 cond arg1 arg2 ;;
  tcg_wasm_out_op_br_to_label id true.

(** ** Leaving the translation block *)

Definition tcg_wasm_out_exit_tb (arg : Z) : W unit :=
  tcg_wasm_out_ctx_i32_store_const TB_PTR_OFF 0 ;;
  tcg_wasm_out_op_i32_const (sint 32 arg) ;;
  tcg_wasm_out_op op_return.

Definition tcg_wasm_out_goto_ptr (arg : Z) : W unit :=
  tcg_wasm_out_op_global_get_r arg ;;
  tcg_wasm_out_op i32_wrap_i64 ;;
  tcg_wasm_out_ctx_i32_load TB_PTR_OFF ;;
  tcg_wasm_out_op i32_eq ;;
  tcg_wasm_out_op_if_noret ;;
  tcg_wasm_out_op_i64_const 0 ;;
  tcg_wasm_out_op_global_set BLOCK_PTR_IDX ;;
  tcg_wasm_out_op_br 2 ;;
  tcg_wasm_out_op op_end ;;
  tcg_wasm_out_ctx_i32_store_r TB_PTR_OFF arg ;;
  tcg_wasm_out_ctx_i32_store_const DO_INIT_OFF 1 ;;
  tcg_wasm_out_op_i32_const 0 ;;
  tcg_wasm_out_op op_return.

(** [jmp_target_addr] is get_jmp_target_addr(s, which). *)
Definition tcg_wasm_out_goto_tb (jmp_target_addr : Z) : W unit :=
  tcg_wasm_out_op_i32_const (sint 32 jmp_target_addr) ;;
  tcg_wasm_out_ldst i32_load 0 0 ;;
  tcg_wasm_out_op_local_set TMP32_LOCAL_0_IDX ;;
  tcg_wasm_out_op_local_get TMP32_LOCAL_0_IDX ;;
  tcg_wasm_out_op_i32_const 0 ;;
  tcg_wasm_out_op i32_ne ;;
  tcg_wasm_out_op_if_noret ;;
  tcg_wasm_out_op_local_get TMP32_LOCAL_0_IDX ;;
  tcg_wasm_out_ctx_i32_load TB_PTR_OFF ;;
  tcg_wasm_out_op i32_eq ;;
  tcg_wasm_out_op_if_noret ;;
  tcg_wasm_out_op_i64_const 0 ;;
  tcg_wasm_out_op_global_set BLOCK_PTR_IDX ;;
  tcg_wasm_out_op_br 3 ;;
  tcg_wasm_out_op op_end ;;
  tcg_wasm_out_op_local_get CTX_IDX ;;
  tcg_wasm_out_op_local_get TMP32_LOCAL_0_IDX ;;
  tcg_wasm_out_ldst i32_store 0 TB_PTR_OFF ;;
  tcg_wasm_out_ctx_i32_store_const DO_INIT_OFF 1 ;;
  tcg_wasm_out_op_i32_const 0 ;;
  tcg_wasm_out_op op_return ;;
  tcg_wasm_out_op op_end.

(** ** Calls of helpers *)

(** How a type code is passed; [None] for the code that does not exist. *)
Inductive argkind : Set := KVoid | K32 | K64 | K128.

Definition arg_kind (typecode : Z) : option argkind :=
  if typecode =? dh_typecode_void then Some KVoid
  else if (typecode =? dh_typecode_i32) || (typecode =? dh_typecode_s32) || (typecode =? dh_typecode_ptr)
  then Some K32
  else if (typecode =? dh_typecode_i64) || (typecode =? dh_typecode_s64) then Some K64
  else if typecode =? dh_typecode_i128 then Some K128
  else None.

(** The type codes of the arguments, three bits each from bit 3. *)
Definition arg_codes (typemask : Z) : list Z :=
  let nargs := DIV_ROUND_UP (32 - clz32 (Z.shiftr (uint 32 typemask) 3)) 3 in
  (fun j => extract_w 32 typemask ((Z.of_nat j + 1) * 3) 3) <$> List.seq 0 (Z.to_nat nargs).

(** The registers and the stack slots of the arguments still free. *)
Definition arg_pos : Type := Z * Z.

Definition push_arg_i64 (p : arg_pos) : W arg_pos :=
  let '(reg_idx, stack_offset) := p in
  if reg_idx <? 5 then
    tcg_wasm_out_op_global_get_r (8 + reg_idx) ;;
    wasm_ret (reg_idx + 1, stack_offset)
  else
    tcg_wasm_out_op_global_get_r TCG_REG_CALL_STACK ;;
    tcg_wasm_out_op i32_wrap_i64 ;;
    tcg_wasm_out_ldst i64_load 0 stack_offset ;;
    wasm_ret (reg_idx, stack_offset + 8).

(** Half of a 128-bit argument, copied to the buffer of the context. *)
Definition push_half (p : arg_pos) (stack128_base : Z) : W arg_pos :=
  tcg_wasm_out_op_local_get TMP64_0_IDX ;;
  tcg_wasm_out_op i32_wrap_i64 ;;
  q <- push_arg_i64 p ;;
  tcg_wasm_out_ldst i64_store 0 stack128_base ;;
  wasm_ret q.

Definition push_i128 (p : arg_pos) (stack128_base : Z) : W arg_pos :=
  (* the address of the copy is in TMP64_0 after the first such argument *)
  (if stack128_base =? 0 then
     tcg_wasm_out_ctx_i32_load STACK128_OFF ;;
     tcg_wasm_out_op i64_extend_i32_s ;;
     tcg_wasm_out_op_local_set TMP64_0_IDX
   else wasm_ret tt) ;;
  tcg_wasm_out_op_local_get TMP64_0_IDX ;;
  tcg_wasm_out_op i32_wrap_i64 ;;
  tcg_wasm_out_op_i32_const stack128_base ;;
  tcg_wasm_out_op i32_add ;;
  q <- push_half p stack128_base ;;
  push_half q (stack128_base + 8).

Fixpoint push_args (codes : list Z) (p : arg_pos) (stack128_base : Z) : W unit :=
  match codes with
  | [] => wasm_ret tt
  | c :: codes =>
      match arg_kind c with
      | None => wasm_assert false
      | Some KVoid => push_args codes p stack128_base
      | Some K32 => q <- push_arg_i64 p ;; tcg_wasm_out_op i32_wrap_i64 ;; push_args codes q stack128_base
      | Some K64 => q <- push_arg_i64 p ;; push_args codes q stack128_base
      | Some K128 => q <- push_i128 p stack128_base ;; push_args codes q (stack128_base + 16)
      end
  end.

(** The word of the result at [off] on the stack. *)
Definition out_ret_word (off r : Z) : W unit :=
  tcg_wasm_out_op_global_get_r TCG_REG_CALL_STACK ;;
  tcg_wasm_out_op i32_wrap_i64 ;;
  tcg_wasm_out_ldst i64_load 0 off ;;
  tcg_wasm_out_op_global_set_r r.

Definition gen_func_wrapper_code (typemask func_idx : Z) : W unit :=
  let rettype := Z.land typemask 7 in
  (if rettype =? dh_typecode_i128 then
     tcg_wasm_out_op_global_get_r TCG_REG_CALL_STACK ;;
     tcg_wasm_out_op i32_wrap_i64
   else wasm_ret tt) ;;
  push_args (arg_codes typemask) (0, 0) 0 ;;
  tcg_wasm_out_op_call func_idx ;;
  match arg_kind rettype with
  | Some KVoid => wasm_ret tt
  | Some K32 => tcg_wasm_out_op i64_extend_i32_s ;; tcg_wasm_out_op_global_set_r TCG_REG_R0
  | Some K64 => tcg_wasm_out_op_global_set_r TCG_REG_R0
  | Some K128 => out_ret_word 0 TCG_REG_R0 ;; out_ret_word 8 TCG_REG_R1
  | None => wasm_assert false
  end.

(** The parameter types of a helper. *)
Fixpoint param_types (codes : list Z) : option (list Z) :=
  match codes with
  | [] => Some []
  | c :: codes =>
      match arg_kind c with
      | None => None
      | Some KVoid => param_types codes
      | Some K64 => (0x7e ::.) <$> param_types codes
      | Some _ => (0x7f ::.) <$> param_types codes
      end
  end.

Definition gen_func_type (typemask : Z) : W unit :=
  let rettype := Z.land typemask 7 in
  match param_types (arg_codes typemask), arg_kind rettype with
  | Some ps, Some rk =>
      let ps := match rk with K128 => 0x7f :: ps | _ => ps end in
      let ret := match rk with K32 => [0x01; 0x7f] | K64 => [0x01; 0x7e] | _ => [0x00] end in
      add_helper_types (0x60 :: fill_uint32_leb128 (Z.of_nat (length ps)) (0 :: ps) ++ ret)
  | _, _ => wasm_assert false
  end.

(** The number of a helper in this module, registered at its first use. *)
Definition helper_idx (f : Z) (gen_type : W unit) : W Z :=
  func_idx <- get_wasm_helper_idx f ;;
  if func_idx <? 0 then
    i <- wasm_register_helper f ;;
    gen_type ;;
    wasm_ret i
  else wasm_ret func_idx.

(** A new block for what may be repeated after the stack was unwound. *)
Definition out_next_block : W unit :=
  cur <- wasm_block_current_idx ;;
  tcg_wasm_out_op_i64_const (cur + 1) ;;
  tcg_wasm_out_op_global_set BLOCK_PTR_IDX ;;
  tcg_wasm_out_op op_end ;;
  set_env_cached false ;;
  block_idx <- wasm_alloc_block_idx ;;
  out_block_start block_idx.

(** [code_ptr] is the end of the bytecode so far. *)
Definition tcg_wasm_out_call (func typemask code_ptr : Z) : W unit :=
  tcg_wasm_out_ctx_i32_load HELPER_RET_TB_PTR_OFF ;;
  tcg_wasm_out_op_i32_const (sint 32 code_ptr) ;;
  tcg_wasm_out_ldst i32_store 0 0 ;;
  func_idx <- helper_idx func (gen_func_type typemask) ;;
  out_next_block ;;
  tcg_wasm_out_ctx_i32_store_const UNWINDING_OFF 0 ;;
  gen_func_wrapper_code typemask func_idx ;;
  tcg_wasm_out_op_i32_const 1 ;;
  tcg_wasm_out_ctx_i32_load UNWINDING_OFF ;;
  tcg_wasm_out_op i32_eq ;;
  tcg_wasm_out_op_if_noret ;;
  tcg_wasm_out_op_i32_const 0 ;;
  tcg_wasm_out_op op_return ;;
  tcg_wasm_out_op op_end.

(** ** Guest accesses *)

(** What the emission reads of the translator's context: the page of the
    guest, the place of the TLB of an MMU index relative to env, and the
    addresses of the helpers for an access that misses. *)
Class TlbLayout := {
  page_bits : Z;
  page_mask : Z;
  tlb_mask_table_ofs : Z -> Z;
  helper_ld_mmu : Z -> Z;
  helper_st_mmu : Z -> Z;
}.

Section Guest.
Context `{L : TlbLayout}.

(** offsetof(CPUTLBDescFast, mask) and (.., table). *)
Definition tlb_mask_ofs (oi : Z) : Z := tlb_mask_table_ofs (get_mmuidx oi) + 0.
Definition tlb_table_ofs (oi : Z) : Z := tlb_mask_table_ofs (get_mmuidx oi) + 4.

Definition access_a_mask (oi : Z) : option Z :=
  aa ← atom_and_align_for_opc (get_memop oi) MO_ATOM_IFALIGN false;
  Some (uint 32 (Z.shiftl 1 aa.2) - 1).

(** An i64 load of a host address in env or in a TLB entry. *)
Definition out_load_ofs (k : wasm_ldst) (off : Z) : W unit :=
  if off <? 0 then
    tcg_wasm_out_op_i32_const off ;;
    tcg_wasm_out_op i32_add ;;
    tcg_wasm_out_ldst k 0 0
  else tcg_wasm_out_ldst k 0 off.

Definition tcg_wasm_out_tlb_load (addr oi : Z) (is_ld : bool) : W unit :=
  match access_a_mask oi with
  | None => wasm_assert false
  | Some a_mask =>
      let s_mask := Z.shiftl 1 (Z.land (get_memop oi) MO_SIZE) - 1 in
      tcg_wasm_out_op_global_get_r addr ;;
      tcg_wasm_out_op_i64_const (page_bits - CPU_TLB_ENTRY_BITS) ;;
      tcg_wasm_out_op i64_shr_u ;;
      tcg_wasm_out_op_global_get_r_i32 TCG_AREG0 ;;
      out_load_ofs i64_load (tlb_mask_ofs oi) ;;
      tcg_wasm_out_op_local_set TMP64_2_IDX ;;
      tcg_wasm_out_op_local_get TMP64_2_IDX ;;
      tcg_wasm_out_op i64_and ;;
      tcg_wasm_out_op_global_get_r_i32 TCG_AREG0 ;;
      out_load_ofs i64_load (tlb_table_ofs oi) ;;
      tcg_wasm_out_op i64_add ;;
      tcg_wasm_out_op i32_wrap_i64 ;;
      tcg_wasm_out_op_local_tee TMP32_LOCAL_0_IDX ;;
      out_load_ofs i64_load (if is_ld then addr_read_ofs else addr_write_ofs) ;;
      tcg_wasm_out_op_global_get_r addr ;;
      (if a_mask <? s_mask then
         tcg_wasm_out_op_i64_const (s_mask - a_mask) ;;
         tcg_wasm_out_op i64_add
       else wasm_ret tt) ;;
      tcg_wasm_out_op_i64_const (Z.lor page_mask a_mask) ;;
      tcg_wasm_out_op i64_and ;;
      tcg_wasm_out_op i64_eq ;;
      tcg_wasm_out_op_i64_const 0 ;;
      tcg_wasm_out_op_local_set TMP64_0_IDX ;;
      tcg_wasm_out_op_if_noret ;;
      tcg_wasm_out_op_local_get TMP32_LOCAL_0_IDX ;;
      out_load_ofs i32_load addend_ofs ;;
      tcg_wasm_out_op i64_extend_i32_u ;;
      tcg_wasm_out_op_global_get_r addr ;;
      tcg_wasm_out_op i64_add ;;
      tcg_wasm_out_op_local_set TMP64_0_IDX ;;
      tcg_wasm_out_op op_end
  end.

(** The instruction of a direct access. *)
Definition ld_direct_kind (k : Z) : option wasm_ldst :=
  if k =? 0 then Some i64_load8_u
  else if k =? 8 then Some i64_load8_s
  else if k =? 1 then Some i64_load16_u
  else if k =? 9 then Some i64_load16_s
  else if k =? 2 then Some i64_load32_u
  else if k =? 10 then Some i64_load32_s
  else if k =? 3 then Some i64_load
  else None.

Definition st_direct_kind (k : Z) : option wasm_ldst :=
  if k =? 0 then Some i64_store8
  else if k =? 1 then Some i64_store16
  else if k =? 2 then Some i64_store32
  else if k =? 3 then Some i64_store
  else None.

Definition tcg_wasm_out_qemu_ld_direct (r opc : Z) : W unit :=
  wasm_assert (Z.land opc MO_BSWAP =? 0) ;;
  match ld_direct_kind (Z.land opc MO_SSIZE) with
  | Some k =>
      tcg_wasm_out_op_local_get TMP64_0_IDX ;;
      tcg_wasm_out_op i32_wrap_i64 ;;
      tcg_wasm_out_ldst k 0 0 ;;
      tcg_wasm_out_op_global_set_r r
  | None => wasm_assert false
  end.

Definition tcg_wasm_out_qemu_st_direct (lo opc : Z) : W unit :=
  wasm_assert (Z.land opc MO_BSWAP =? 0) ;;
  match st_direct_kind (Z.land opc MO_SSIZE) with
  | Some k =>
      tcg_wasm_out_op_local_get TMP64_0_IDX ;;
      tcg_wasm_out_op i32_wrap_i64 ;;
      tcg_wasm_out_op_global_get_r lo ;;
      tcg_wasm_out_ldst k 0 0
  | None => wasm_assert false
  end.

(** The end of the call of a helper of the MMU: unless it completed, the
    block returns, to be entered again at the same place. *)
Definition out_check_done : W unit :=
  tcg_wasm_out_ctx_i32_load DONE_FLAG_OFF ;;
  tcg_wasm_out_op i32_eqz ;;
  tcg_wasm_out_op_if_noret ;;
  tcg_wasm_out_op_i32_const 0 ;;
  tcg_wasm_out_op op_return ;;
  tcg_wasm_out_op op_end.

(** The arguments of the helper, up to the address. *)
Definition out_mmu_args (addr_reg : Z) : W unit :=
  tcg_wasm_out_op_global_get_r TCG_AREG0 ;;
  tcg_wasm_out_op i32_wrap_i64 ;;
  tcg_wasm_out_op_global_get_r addr_reg.

(** Whether the access missed. *)
Definition out_if_miss : W unit :=
  tcg_wasm_out_op_local_get TMP64_0_IDX ;;
  tcg_wasm_out_op i64_eqz ;;
  tcg_wasm_out_op_if_noret.

Definition qemu_ld_helper_ptr (oi : Z) : option Z :=
  let k := Z.land (get_memop oi) MO_SSIZE in
  match ld_direct_kind k with Some _ => Some (helper_ld_mmu k) | None => None end.

Definition qemu_st_helper_ptr (oi : Z) : option Z :=
  let k := Z.land (get_memop oi) MO_SIZE in
  if k <=? MO_128 then Some (helper_st_mmu k) else None.

Definition gen_func_type_qemu_ld : W unit :=
  add_helper_types [0x60; 0x04; 0x7f; 0x7e; 0x7f; 0x7f; 0x01; 0x7e].

Definition gen_func_type_qemu_st (oi : Z) : W unit :=
  let data := if Z.land (get_memop oi) MO_SSIZE =? 3 then 0x7e else 0x7f in
  add_helper_types [0x60; 0x05; 0x7f; 0x7e; data; 0x7f; 0x7f; 0x00].

Definition tcg_wasm_out_qemu_ld (data_reg addr_reg oi code_ptr : Z) : W unit :=
  tcg_wasm_out_tlb_load addr_reg oi true ;;
  out_if_miss ;;
  match qemu_ld_helper_ptr oi with
  | None => wasm_assert false
  | Some f =>
      func_idx <- helper_idx f gen_func_type_qemu_ld ;;
      tcg_wasm_out_ctx_i32_store_const DONE_FLAG_OFF 0 ;;
      tcg_wasm_out_op op_else ;;
      tcg_wasm_out_qemu_ld_direct data_reg (get_memop oi) ;;
      tcg_wasm_out_op op_end ;;
      out_next_block ;;
      out_if_miss ;;
      out_mmu_args addr_reg ;;
      tcg_wasm_out_op_i32_const oi ;;
      tcg_wasm_out_op_i32_const (sint 32 code_ptr) ;;
      tcg_wasm_out_op_call func_idx ;;
      tcg_wasm_out_op_global_set_r data_reg ;;
      out_check_done ;;
      tcg_wasm_out_op op_end
  end.

Definition tcg_wasm_out_qemu_st (data_reg addr_reg oi code_ptr : Z) : W unit :=
  tcg_wasm_out_tlb_load addr_reg oi false ;;
  out_if_miss ;;
  match qemu_st_helper_ptr oi with
  | None => wasm_assert false
  | Some f =>
      func_idx <- helper_idx f (gen_func_type_qemu_st oi) ;;
      tcg_wasm_out_ctx_i32_store_const DONE_FLAG_OFF 0 ;;
      tcg_wasm_out_op op_else ;;
      tcg_wasm_out_qemu_st_direct data_reg (get_memop oi) ;;
      tcg_wasm_out_op op_end ;;
      out_next_block ;;
      out_if_miss ;;
      out_mmu_args addr_reg ;;
      tcg_wasm_out_op_global_get_r data_reg ;;
      (if Z.land (get_memop oi) MO_SSIZE =? 3 then wasm_ret tt else tcg_wasm_out_op i32_wrap_i64) ;;
      tcg_wasm_out_op_i32_const oi ;;
      tcg_wasm_out_op_i32_const (sint 32 code_ptr) ;;
      tcg_wasm_out_op_call func_idx ;;
      out_check_done ;;
      tcg_wasm_out_op op_end
  end.

End Guest.
