(* ===== verification/TcgOut.v ===== *)
(** * tcg_out_op: one op for both engines

    Every function tcg_out_* of the wasm32 backend first writes the bytecode of
    the op and then its WebAssembly.  [emission] is such a pair; the second
    half may look at the state after the first, of which it reads the end of
    the bytecode and the addresses of the jump targets. *)

From Stdlib Require Import ZArith Lia Bool.
From stdpp Require Import base numbers functions list option.
From S2P Require Import Prelude.
From S2P Require Import Bytes.
From S2P Require Import Bitops.
From S2P Require Import TcgCond.
From S2P Require Import TcgOpc.
From S2P Require Import TcgCtx.
From S2P Require Import TcgSem.
From S2P Require Import MemOp.
From S2P Require Import TciCode.
From S2P Require Import TciOut.
From S2P Require Import TciExec.
From S2P Require Import Wasm.
From S2P Require Import WasmOut.
From S2P Require Import WasmCtl.

Local Open Scope Z_scope.

Record emission := { tci_half : Tci unit; wasm_half : tci_out -> W unit }.

(** The state of both halves. *)
Record out_state := { tci : tci_out; wasm : wasm_out }.

Definition emit (m : emission) (s : out_state) : emitted out_state :=
  match tci_half m (tci s) with
  | EDone (_, t) =>
      match wasm_half m t (wasm s) with
      | Some (_, w) => EDone {| tci := t; wasm := w |}
      | None => EAssert
      end
  | EOverflow => EOverflow
  | EAssert => EAssert
  end.

(** Words of bytecode and code that does not depend on the position. *)
Definition word (e : option Z) (w : W unit) : emission := {| tci_half := out_word e; wasm_half := fun _ => w |}.
Definition both (t : Tci unit) (w : W unit) : emission := {| tci_half := t; wasm_half := fun _ => w |}.
Definition unreachable : emission := both (fun _ => EAssert) (wasm_assert false).

Section Out.
Context `{L : TlbLayout}.

Definition out_rr (o : TCGOpcode) (w : Z -> Z -> W unit) (a : nat -> Z) : emission :=
  word (tcg_tci_out_op_rr o (a 0%nat) (a 1%nat)) (w (a 0%nat) (a 1%nat)).
Definition out_rrr (o : TCGOpcode) (w : Z -> Z -> Z -> W unit) (a : nat -> Z) : emission :=
  word (tcg_tci_out_op_rrr o (a 0%nat) (a 1%nat) (a 2%nat)) (w (a 0%nat) (a 1%nat) (a 2%nat)).
Definition out_setcond (o : TCGOpcode) (w : Z -> Z -> Z -> Z -> W unit) (a : nat -> Z) : emission :=
  word (tcg_tci_out_op_rrrc o (a 0%nat) (a 1%nat) (a 2%nat) (a 3%nat))
       (w (a 3%nat) (a 0%nat) (a 1%nat) (a 2%nat)).
Definition out_movcond (o : TCGOpcode) (w : Z -> Z -> Z -> Z -> Z -> Z -> W unit) (a : nat -> Z) : emission :=
  word (tcg_tci_out_op_rrrrrc o (a 0%nat) (a 1%nat) (a 2%nat) (a 3%nat) (a 4%nat) (a 5%nat))
       (w (a 5%nat) (a 0%nat) (a 1%nat) (a 2%nat) (a 3%nat) (a 4%nat)).
Definition out_ldst (o : TCGOpcode) (w : TCGType -> Z -> Z -> Z -> W unit) (a : nat -> Z) : emission :=
  both (tcg_tci_out_ldst o (a 0%nat) (a 1%nat) (sint 32 (a 2%nat)))
       (w TCG_TYPE_I64 (a 0%nat) (a 1%nat) (sint 32 (a 2%nat))).
Definition out_extract (o : TCGOpcode) (ty : TCGType) (sign : bool) (a : nat -> Z) : emission :=
  word (tcg_tci_out_op_rrbb o (a 0%nat) (a 1%nat) (a 2%nat) (a 3%nat))
       (tcg_wasm_out_extract (a 0%nat) (a 1%nat) (a 2%nat) (a 3%nat) ty sign).
Definition out_deposit (o : TCGOpcode) (w : Z -> Z -> Z -> Z -> Z -> W unit) (a : nat -> Z) : emission :=
  word (tcg_tci_out_op_rrrbb o (a 0%nat) (a 1%nat) (a 2%nat) (a 3%nat) (a 4%nat))
       (w (a 0%nat) (a 1%nat) (a 2%nat) (a 3%nat) (a 4%nat)).
Definition out_add2 (o : TCGOpcode) (w : Z -> Z -> Z -> Z -> Z -> Z -> W unit) (a : nat -> Z) : emission :=
  word (tcg_tci_out_op_rrrrrr o (a 0%nat) (a 1%nat) (a 2%nat) (a 3%nat) (a 4%nat) (a 5%nat))
       (w (a 0%nat) (a 1%nat) (a 2%nat) (a 3%nat) (a 4%nat) (a 5%nat)).
Definition out_mul2 (o : TCGOpcode) (w : Z -> Z -> Z -> Z -> W unit) (a : nat -> Z) : emission :=
  word (tcg_tci_out_op_rrrr o (a 0%nat) (a 1%nat) (a 2%nat) (a 3%nat))
       (w (a 0%nat) (a 1%nat) (a 2%nat) (a 3%nat)).

(** tcg_out_bswap*: with TCG_BSWAP_OS the result is extended by a second op. *)
Definition out_bswap (o : TCGOpcode) (w : Z -> Z -> Z -> W unit)
    (ext : option (TCGOpcode * (Z -> Z -> W unit))) (a : nat -> Z) : emission :=
  let os := flag (a 2%nat) TCG_BSWAP_OS in
  both
    (tci_bind (out_word (tcg_tci_out_op_rr o (a 0%nat) (a 1%nat))) (fun _ =>
     match ext with
     | Some (x, _) => if os then out_word (tcg_tci_out_op_rr x (a 0%nat) (a 0%nat)) else tci_ret tt
     | None => tci_ret tt
     end))
    (wasm_bind (w (a 0%nat) (a 1%nat) (a 2%nat)) (fun _ =>
     match ext with
     | Some (_, x) => if os then x (a 0%nat) (a 0%nat) else wasm_ret tt
     | None => wasm_ret tt
     end)).

(** A conditional branch: the interpreter tests a setcond in the scratch
    register. *)
Definition out_brcond (o sc : TCGOpcode) (w : Z -> Z -> Z -> Z -> W unit) (a : nat -> Z) : emission :=
  both
    (tci_bind (out_word (tcg_tci_out_op_rrrc sc TCG_REG_TMP (a 0%nat) (a 1%nat) (a 2%nat))) (fun _ =>
     tcg_tci_out_op_rl o TCG_REG_TMP (a 3%nat)))
    (w (a 2%nat) (a 0%nat) (a 1%nat) (a 3%nat)).

(** tcg_out_qemu_ld and tcg_out_qemu_st. *)
Definition out_qemu (o : TCGOpcode) (w : Z -> Z -> Z -> Z -> W unit) (a : nat -> Z) : emission :=
  let oi := uint 32 (a 2%nat) in
  {| tci_half :=
       match access_a_mask oi with
       | Some m => tcg_tci_out_qemu_ldst o (a 0%nat) (a 1%nat) (a 2%nat) m (tlb_mask_ofs oi)
                     page_bits (uint 64 page_mask) (tlb_table_ofs oi)
       | None => fun _ => EAssert
       end;
     wasm_half := fun t => w (a 0%nat) (a 1%nat) oi (code_ptr t) |}.

(** The operands [a] are registers and constants, outputs first. *)
Definition tcg_out_op (o : TCGOpcode) (a : nat -> Z) : emission :=
  match o with
  | INDEX_op_goto_ptr => word (tcg_tci_out_op_r o (a 0%nat)) (tcg_wasm_out_goto_ptr (a 0%nat))
  | INDEX_op_br => both (tcg_tci_out_op_l o (a 0%nat)) (tcg_wasm_out_br (a 0%nat))
  | INDEX_op_setcond_i32 => out_setcond o tcg_wasm_out_setcond_i32 a
  | INDEX_op_setcond_i64 => out_setcond o tcg_wasm_out_setcond_i64 a
  | INDEX_op_movcond_i32 => out_movcond o tcg_wasm_out_movcond_i32 a
  | INDEX_op_movcond_i64 => out_movcond o tcg_wasm_out_movcond_i64 a
  | INDEX_op_ld_i64 => out_ldst o tcg_wasm_out_ld a
  | INDEX_op_ld8s_i32 | INDEX_op_ld8s_i64 => out_ldst o (tcg_wasm_out_ldx i64_load8_s) a
  | INDEX_op_ld8u_i32 | INDEX_op_ld8u_i64 => out_ldst o (tcg_wasm_out_ldx i64_load8_u) a
  | INDEX_op_ld16s_i32 | INDEX_op_ld16s_i64 => out_ldst o (tcg_wasm_out_ldx i64_load16_s) a
  | INDEX_op_ld16u_i32 | INDEX_op_ld16u_i64 => out_ldst o (tcg_wasm_out_ldx i64_load16_u) a
  | INDEX_op_ld32u_i64 => out_ldst o (tcg_wasm_out_ldx i64_load32_u) a
  | INDEX_op_ld_i32 | INDEX_op_ld32s_i64 => out_ldst o (tcg_wasm_out_ldx i64_load32_s) a
  | INDEX_op_st_i64 => out_ldst o tcg_wasm_out_st a
  | INDEX_op_st8_i32 | INDEX_op_st8_i64 => out_ldst o (tcg_wasm_out_stx i64_store8) a
  | INDEX_op_st16_i32 | INDEX_op_st16_i64 => out_ldst o (tcg_wasm_out_stx i64_store16) a
  | INDEX_op_st_i32 | INDEX_op_st32_i64 => out_ldst o (tcg_wasm_out_stx i64_store32) a
  | INDEX_op_add_i32 | INDEX_op_add_i64 => out_rrr o (tcg_wasm_out_i64_calc i64_add) a
  | INDEX_op_sub_i32 | INDEX_op_sub_i64 => out_rrr o (tcg_wasm_out_i64_calc i64_sub) a
  | INDEX_op_mul_i32 | INDEX_op_mul_i64 => out_rrr o (tcg_wasm_out_i64_calc i64_mul) a
  | INDEX_op_and_i32 | INDEX_op_and_i64 => out_rrr o (tcg_wasm_out_i64_calc i64_and) a
  | INDEX_op_or_i32 | INDEX_op_or_i64 => out_rrr o (tcg_wasm_out_i64_calc i64_or) a
  | INDEX_op_xor_i32 | INDEX_op_xor_i64 => out_rrr o (tcg_wasm_out_i64_calc i64_xor) a
  | INDEX_op_shl_i32 => out_rrr o (tcg_wasm_out_shl TCG_TYPE_I32) a
  | INDEX_op_shl_i64 => out_rrr o (tcg_wasm_out_shl TCG_TYPE_I64) a
  | INDEX_op_shr_i32 => out_rrr o (tcg_wasm_out_shr_u TCG_TYPE_I32) a
  | INDEX_op_shr_i64 => out_rrr o (tcg_wasm_out_shr_u TCG_TYPE_I64) a
  | INDEX_op_sar_i32 => out_rrr o (tcg_wasm_out_shr_s TCG_TYPE_I32) a
  | INDEX_op_sar_i64 => out_rrr o (tcg_wasm_out_shr_s TCG_TYPE_I64) a
  | INDEX_op_rotl_i32 => out_rrr o tcg_wasm_out_i32_rotl a
  | INDEX_op_rotl_i64 => out_rrr o (tcg_wasm_out_i64_calc i64_rotl) a
  | INDEX_op_rotr_i32 => out_rrr o tcg_wasm_out_i32_rotr a
  | INDEX_op_rotr_i64 => out_rrr o (tcg_wasm_out_i64_calc i64_rotr) a
  | INDEX_op_div_i32 => out_rrr o (tcg_wasm_out_div_s TCG_TYPE_I32) a
  | INDEX_op_div_i64 => out_rrr o (tcg_wasm_out_div_s TCG_TYPE_I64) a
  | INDEX_op_divu_i32 => out_rrr o (tcg_wasm_out_div_u TCG_TYPE_I32) a
  | INDEX_op_divu_i64 => out_rrr o (tcg_wasm_out_div_u TCG_TYPE_I64) a
  | INDEX_op_rem_i32 => out_rrr o (tcg_wasm_out_rem_s TCG_TYPE_I32) a
  | INDEX_op_rem_i64 => out_rrr o (tcg_wasm_out_rem_s TCG_TYPE_I64) a
  | INDEX_op_remu_i32 => out_rrr o (tcg_wasm_out_rem_u TCG_TYPE_I32) a
  | INDEX_op_remu_i64 => out_rrr o (tcg_wasm_out_rem_u TCG_TYPE_I64) a
  | INDEX_op_andc_i32 | INDEX_op_andc_i64 => out_rrr o tcg_wasm_out_andc a
  | INDEX_op_orc_i32 | INDEX_op_orc_i64 => out_rrr o tcg_wasm_out_orc a
  | INDEX_op_eqv_i32 | INDEX_op_eqv_i64 => out_rrr o tcg_wasm_out_eqv a
  | INDEX_op_nand_i32 | INDEX_op_nand_i64 => out_rrr o tcg_wasm_out_nand a
  | INDEX_op_nor_i32 | INDEX_op_nor_i64 => out_rrr o tcg_wasm_out_nor a
  | INDEX_op_clz_i32 => out_rrr o tcg_wasm_out_clz32 a
  | INDEX_op_clz_i64 => out_rrr o tcg_wasm_out_clz64 a
  | INDEX_op_ctz_i32 => out_rrr o tcg_wasm_out_ctz32 a
  | INDEX_op_ctz_i64 => out_rrr o tcg_wasm_out_ctz64 a
  | INDEX_op_brcond_i32 => out_brcond o INDEX_op_setcond_i32 tcg_wasm_out_brcond_i32 a
  | INDEX_op_brcond_i64 => out_brcond o INDEX_op_setcond_i64 tcg_wasm_out_brcond_i64 a
  | INDEX_op_neg_i32 | INDEX_op_neg_i64 => out_rr o tcg_wasm_out_neg a
  | INDEX_op_not_i32 | INDEX_op_not_i64 => out_rr o tcg_wasm_out_not a
  | INDEX_op_ctpop_i32 => out_rr o tcg_wasm_out_ctpop_i32 (fun i => a (S i))
  | INDEX_op_ctpop_i64 => out_rr o tcg_wasm_out_ctpop_i64 (fun i => a (S i))
  | INDEX_op_add2_i32 | INDEX_op_add2_i64 => out_add2 o tcg_wasm_out_add2 a
  | INDEX_op_sub2_i32 | INDEX_op_sub2_i64 => out_add2 o tcg_wasm_out_sub2 a
  | INDEX_op_qemu_ld_a32_i32 | INDEX_op_qemu_ld_a64_i32
  | INDEX_op_qemu_ld_a32_i64 | INDEX_op_qemu_ld_a64_i64 => out_qemu o tcg_wasm_out_qemu_ld a
  | INDEX_op_qemu_st_a32_i32 | INDEX_op_qemu_st_a64_i32
  | INDEX_op_qemu_st_a32_i64 | INDEX_op_qemu_st_a64_i64 => out_qemu o tcg_wasm_out_qemu_st a
  | INDEX_op_extrl_i64_i32 =>
      both (tcg_tci_out_extrl_i64_i32 (a 0%nat) (a 1%nat)) (tcg_wasm_out_extrl_i64_i32 (a 0%nat) (a 1%nat))
  | INDEX_op_mb => word (tcg_tci_out_op_v o) (tcg_wasm_out8 0x01)
  | INDEX_op_extract_i32 => out_extract o TCG_TYPE_I32 false a
  | INDEX_op_extract_i64 => out_extract o TCG_TYPE_I64 false a
  | INDEX_op_sextract_i32 => out_extract o TCG_TYPE_I32 true a
  | INDEX_op_sextract_i64 => out_extract o TCG_TYPE_I64 true a
  | INDEX_op_deposit_i32 => out_deposit o tcg_wasm_out_deposit_i32 a
  | INDEX_op_deposit_i64 => out_deposit o tcg_wasm_out_deposit_i64 a
  | INDEX_op_bswap16_i32 =>
      out_bswap o tcg_wasm_out_bswap16 (Some (INDEX_op_ext16s_i32, tcg_wasm_out_ext16s TCG_TYPE_I32)) a
  | INDEX_op_bswap16_i64 =>
      out_bswap o tcg_wasm_out_bswap16 (Some (INDEX_op_ext16s_i64, tcg_wasm_out_ext16s TCG_TYPE_I64)) a
  | INDEX_op_bswap32_i32 => out_bswap o tcg_wasm_out_bswap32 None a
  | INDEX_op_bswap32_i64 =>
      out_bswap o tcg_wasm_out_bswap32 (Some (INDEX_op_ext32s_i64, tcg_wasm_out_ext32s)) a
  | INDEX_op_bswap64_i64 => out_bswap o tcg_wasm_out_bswap64 None a
  | INDEX_op_muls2_i32 => out_mul2 o tcg_wasm_out_muls2_i32 a
  | INDEX_op_mulu2_i32 => out_mul2 o tcg_wasm_out_mulu2_i32 a
  | _ => unreachable
  end.

(** ** Emission from the register allocator and the main loop *)

Definition tcg_out_mov (ty : TCGType) (ret arg : Z) : emission :=
  both (tcg_tci_out_mov ty ret arg) (tcg_wasm_out_mov ty ret arg).
Definition tcg_out_movi (ty : TCGType) (ret arg : Z) : emission :=
  both (tcg_tci_out_movi ty ret arg) (tcg_wasm_out_movi ty ret arg).
Definition tcg_out_ld (ty : TCGType) (val base offset : Z) : emission :=
  both (match ty with
        | TCG_TYPE_I32 => tcg_tci_out_ldst INDEX_op_ld_i32 val base offset
        | TCG_TYPE_I64 => tcg_tci_out_ldst INDEX_op_ld_i64 val base offset
        | _ => fun _ => EAssert
        end) (tcg_wasm_out_ld ty val base offset).
Definition tcg_out_st (ty : TCGType) (val base offset : Z) : emission :=
  both (match ty with
        | TCG_TYPE_I32 => tcg_tci_out_ldst INDEX_op_st_i32 val base offset
        | TCG_TYPE_I64 => tcg_tci_out_ldst INDEX_op_st_i64 val base offset
        | _ => fun _ => EAssert
        end) (tcg_wasm_out_st ty val base offset).

(** The switch at the end of tcg_reg_alloc_op. *)
Definition emit_instruction (o : TCGOpcode) (a : nat -> Z) : emission :=
  let rd := a 0%nat in let rs := a 1%nat in
  match o with
  | INDEX_op_ext8s_i32 => both (tcg_tci_out_ext8s TCG_TYPE_I32 rd rs) (tcg_wasm_out_ext8s TCG_TYPE_I32 rd rs)
  | INDEX_op_ext8s_i64 => both (tcg_tci_out_ext8s TCG_TYPE_I64 rd rs) (tcg_wasm_out_ext8s TCG_TYPE_I64 rd rs)
  | INDEX_op_ext8u_i32 | INDEX_op_ext8u_i64 => both (tcg_tci_out_ext8u rd rs) (tcg_wasm_out_ext8u rd rs)
  | INDEX_op_ext16s_i32 => both (tcg_tci_out_ext16s TCG_TYPE_I32 rd rs) (tcg_wasm_out_ext16s TCG_TYPE_I32 rd rs)
  | INDEX_op_ext16s_i64 => both (tcg_tci_out_ext16s TCG_TYPE_I64 rd rs) (tcg_wasm_out_ext16s TCG_TYPE_I64 rd rs)
  | INDEX_op_ext16u_i32 | INDEX_op_ext16u_i64 => both (tcg_tci_out_ext16u rd rs) (tcg_wasm_out_ext16u rd rs)
  | INDEX_op_ext32s_i64 => both (tcg_tci_out_ext32s rd rs) (tcg_wasm_out_ext32s rd rs)
  | INDEX_op_ext32u_i64 => both (tcg_tci_out_ext32u rd rs) (tcg_wasm_out_ext32u rd rs)
  | INDEX_op_ext_i32_i64 => both (tcg_tci_out_exts_i32_i64 rd rs) (tcg_wasm_out_exts_i32_i64 rd rs)
  | INDEX_op_extu_i32_i64 => both (tcg_tci_out_extu_i32_i64 rd rs) (tcg_wasm_out_extu_i32_i64 rd rs)
  | INDEX_op_extrl_i64_i32 => both (tcg_tci_out_extrl_i64_i32 rd rs) (tcg_wasm_out_extrl_i64_i32 rd rs)
  | _ => tcg_out_op o a
  end.

Definition tcg_out_exit_tb (arg : Z) : emission :=
  both (tcg_tci_out_exit_tb arg) (tcg_wasm_out_exit_tb arg).
Definition tcg_out_goto_tb (which : Z) : emission :=
  {| tci_half := tcg_tci_out_goto_tb which;
     wasm_half := fun t => tcg_wasm_out_goto_tb (jmp_target_addr t which) |}.
Definition tcg_out_call (func cif rsize typemask : Z) : emission :=
  {| tci_half := tcg_tci_out_call func cif rsize;
     wasm_half := fun t => tcg_wasm_out_call func typemask (code_ptr t) |}.

End Out.
