(* ===== verification/Samples.v ===== *)
(** * Concrete machines

    A host of the interpreter, an engine, a TLB layout and the empty output
    buffers, on which the definitions of the backend can be evaluated. *)

From Stdlib Require Import ZArith Lia Bool.
From stdpp Require Import base numbers functions list option.
From S2P Require Import Prelude.
From S2P Require Import TciCode.
From S2P Require Import TciOut.
From S2P Require Import TciExec.
From S2P Require Import WasmSem.
From S2P Require Import WasmOut.
From S2P Require Import WasmCtl.
From S2P Require Import TcgOut.

Local Open Scope Z_scope.

(** Helpers that do nothing, in a memory without translated blocks. *)
Definition sample_host : TciHost := {|
  counter_vec_off := 36;
  stack_base := 0x8000;
  helper_lookup_tb_ptr := 0x40;
  call_lookup_tb_ptr := fun _ _ => 0;
  cif_arg_sizes := fun _ => [];
  ffi_call := fun _ _ _ _ m => Some m;
  helper_ld := fun _ _ _ _ _ m => Some (0, m);
  helper_st := fun _ _ _ _ _ _ m => Some m;
|}.

Definition sample_engine : WasmHost := {| mem_size := 2 ^ 31; host_call := fun _ st => Some st |}.

(** Pages of 4 KiB; the TLB descriptors precede env. *)
Definition sample_tlb : TlbLayout := {|
  page_bits := 12;
  page_mask := -4096;
  tlb_mask_table_ofs := fun i => -128 + 8 * i;
  helper_ld_mmu := fun k => 0x100 + k;
  helper_st_mmu := fun k => 0x200 + k;
|}.

Definition sample_tci : tci_out := {|
  omem := fun _ => 0;
  code_buf := 0x1000;
  code_ptr := 0x1000;
  relocs := [];
  pool_labels := [];
  jmp_target_addr := fun _ => 0;
  jmp_reset_offset := fun _ => 0;
|}.

Definition sample_wasm : wasm_out := {|
  sub_buf := [];
  env_cached := false;
  current_label := [];
  wasm_block_idx := 1;
  label_to_block := fun _ => -1;
  block_ptr_placeholder := [];
  target_helper_funcs := [];
  target_helper_types := [];
|}.

Definition sample_out : out_state := {| tci := sample_tci; wasm := sample_wasm |}.

Definition sample_wst (g : Z -> Z) : wst :=
  {| stk := []; globals := g; locals := fun i => if i <? 3 then V32 0 else V64 0; wmem := fun _ => 0 |}.

Definition sample_tst (g m : Z -> Z) : tci_state :=
  {| tregs := g; tmem := m; tb_ptr := 0x1000; ctx_tb_ptr := 0; tci_tb_ptr := 0 |}.

(** A register file with the listed values from register 0 on. *)
Definition sample_regs (l : list Z) : Z -> Z := fun r => if r <? 0 then 0 else nth (Z.to_nat r) l 0.
