(* ===== verification/TciOps.v ===== *)
(** * The interpreter implements every pure op

    [shape] classifies the pure ops by their operands.  For each of them the
    words that [emit_instruction] writes make the interpreter compute what the
    op means ([tci_implements]). *)

From Stdlib Require Import ZArith Lia Bool.
From stdpp Require Import base numbers functions list option relations.
From S2P Require Import Prelude.
From S2P Require Import Bytes.
From S2P Require Import Bitops.
From S2P Require Import BitCount.
From S2P Require Import TcgCond.
From S2P Require Import TcgOpc.
From S2P Require Import TcgCtx.
From S2P Require Import TcgSem.
From S2P Require Import RegSpec.
From S2P Require Import TciCode.
From S2P Require Import TciOut.
From S2P Require Import TciExec.
From S2P Require Import TciOk.
From S2P Require Import WasmCtl.
From S2P Require Import TcgOut.

Local Open Scope Z_scope.

(** ** Operands *)

Inductive shape : Set :=
| SUnary | SBinary | SSetcond | SMovcond | SDeposit (w : Z) | SExtract (w : Z) | SBswap | SAdd2 | SMul2.

Definition shape_of (o : TCGOpcode) : option shape :=
  match o with
  | INDEX_op_not_i32 | INDEX_op_not_i64 | INDEX_op_neg_i32 | INDEX_op_neg_i64
  | INDEX_op_ext8s_i32 | INDEX_op_ext8s_i64 | INDEX_op_ext8u_i32 | INDEX_op_ext8u_i64
  | INDEX_op_ext16s_i32 | INDEX_op_ext16s_i64 | INDEX_op_ext16u_i32 | INDEX_op_ext16u_i64
  | INDEX_op_ext32s_i64 | INDEX_op_ext32u_i64 | INDEX_op_ext_i32_i64 | INDEX_op_extu_i32_i64
  | INDEX_op_extrl_i64_i32 | INDEX_op_ctpop_i32 | INDEX_op_ctpop_i64 => Some SUnary
  | INDEX_op_add_i32 | INDEX_op_add_i64 | INDEX_op_sub_i32 | INDEX_op_sub_i64
  | INDEX_op_mul_i32 | INDEX_op_mul_i64 | INDEX_op_and_i32 | INDEX_op_and_i64
  | INDEX_op_or_i32 | INDEX_op_or_i64 | INDEX_op_xor_i32 | INDEX_op_xor_i64
  | INDEX_op_andc_i32 | INDEX_op_andc_i64 | INDEX_op_orc_i32 | INDEX_op_orc_i64
  | INDEX_op_eqv_i32 | INDEX_op_eqv_i64 | INDEX_op_nand_i32 | INDEX_op_nand_i64
  | INDEX_op_nor_i32 | INDEX_op_nor_i64 | INDEX_op_shl_i32 | INDEX_op_shl_i64
  | INDEX_op_shr_i32 | INDEX_op_shr_i64 | INDEX_op_sar_i32 | INDEX_op_sar_i64
  | INDEX_op_rotl_i32 | INDEX_op_rotl_i64 | INDEX_op_rotr_i32 | INDEX_op_rotr_i64
  | INDEX_op_div_i32 | INDEX_op_div_i64 | INDEX_op_divu_i32 | INDEX_op_divu_i64
  | INDEX_op_rem_i32 | INDEX_op_rem_i64 | INDEX_op_remu_i32 | INDEX_op_remu_i64
  | INDEX_op_clz_i32 | INDEX_op_clz_i64 | INDEX_op_ctz_i32 | INDEX_op_ctz_i64 => Some SBinary
  | INDEX_op_setcond_i32 | INDEX_op_setcond_i64 => Some SSetcond
  | INDEX_op_movcond_i32 | INDEX_op_movcond_i64 => Some SMovcond
  | INDEX_op_deposit_i32 => Some (SDeposit 32)
  | INDEX_op_deposit_i64 => Some (SDeposit 64)
  | INDEX_op_extract_i32 | INDEX_op_sextract_i32 => Some (SExtract 32)
  | INDEX_op_extract_i64 | INDEX_op_sextract_i64 => Some (SExtract 64)
  | INDEX_op_bswap16_i32 | INDEX_op_bswap16_i64 | INDEX_op_bswap32_i32 | INDEX_op_bswap32_i64
  | INDEX_op_bswap64_i64 => Some SBswap
  | INDEX_op_add2_i32 | INDEX_op_add2_i64 | INDEX_op_sub2_i32 | INDEX_op_sub2_i64 => Some SAdd2
  | INDEX_op_mulu2_i32 | INDEX_op_muls2_i32 => Some SMul2
  | _ => None
  end.

(** A field that does not fill the word, as tcg-op.c emits them. *)
Definition proper_field (w p l : Z) : bool := field_ok w p l && (l <? w).

(** Operands as the register allocator passes them: registers that satisfy the
    constraints of tcg_target_op_def, and the constants of the op. *)
Inductive operands_ok : shape -> list Z -> list Z -> list Z -> Prop :=
| ok_unary d a : is_reg d = true -> is_reg a = true -> operands_ok SUnary [d] [a] []
| ok_binary d a b :
    is_reg d = true -> is_reg a = true -> is_reg b = true -> operands_ok SBinary [d] [a; b] []
| ok_setcond d a b c :
    is_reg d = true -> is_reg a = true -> is_reg b = true -> compare_cond c = true ->
    operands_ok SSetcond [d] [a; b] [c]
| ok_movcond d a b x y c :
    forallb is_reg [d; a; b; x; y] = true -> compare_cond c = true -> operands_ok SMovcond [d] [a; b; x; y] [c]
| ok_deposit w d a b p l :
    is_reg d = true -> is_reg a = true -> is_reg b = true -> proper_field w p l = true ->
    operands_ok (SDeposit w) [d] [a; b] [p; l]
| ok_extract w d a p l :
    is_reg d = true -> is_reg a = true -> proper_field w p l = true ->
    operands_ok (SExtract w) [d] [a] [p; l]
| ok_bswap d a f : is_reg d = true -> is_reg a = true -> operands_ok SBswap [d] [a] [f]
| ok_add2 l h al ah bl bh :
    forallb is_reg [l; h; al; ah; bl; bh] = true -> l <> h ->
    operands_ok SAdd2 [l; h] [al; ah; bl; bh] []
| ok_mul2 l h a b : forallb is_reg [l; h; a; b] = true -> l <> h -> operands_ok SMul2 [l; h] [a; b] [].

Definition args_of (outs ins cargs : list Z) (i : nat) : Z := nth i (outs ++ ins ++ cargs) 0.

(** ** Values *)

(** The outputs of a pure op, with the open bits zero. *)
Definition value_ok (o : TCGOpcode) (ins cargs : list Z) (v : Z) : Prop :=
  exists (Orc : Oracle) w x,
    0 <= w <= 64 /\ eval_any o ins cargs = Some (w, [x]) /\ uint w v = uint w x.

Lemma value_i32 o ins cargs v x :
  eval_i32 (Orc := zero_junk) o ins cargs = Some [x] -> uint 32 v = uint 32 x -> value_ok o ins cargs v.
Proof.
  intros He Hx. exists zero_junk, 32, x. split; [lia|]. split; [|done]. unfold eval_any. by rewrite He.
Qed.

Lemma value_i64 o ins cargs v x :
  eval_i32 (Orc := zero_junk) o ins cargs = None ->
  eval_i64 (Orc := zero_junk) o ins cargs = Some [x] -> uint 64 v = uint 64 x -> value_ok o ins cargs v.
Proof.
  intros He He' Hx. exists zero_junk, 64, x. split; [lia|]. split; [|done]. unfold eval_any. by rewrite He, He'.
Qed.

(** A width of a register. *)
Definition word_size (w : Z) : Prop := w = 32 \/ w = 64.

Lemma land_word_mask w b : word_size w -> Z.land b (w - 1) = b mod w.
Proof.
  intros [-> | ->]; [change (32 - 1) with (Z.ones 5) | change (64 - 1) with (Z.ones 6)];
    by rewrite Z.land_ones by lia.
Qed.

Lemma uint_mod_word w b : word_size w -> uint w b mod w = b mod w.
Proof.
  intros Hw. apply Z.mod_mod_divide. destruct Hw as [-> | ->]; [exists (2 ^ 27) | exists (2 ^ 58)]; done.
Qed.

Lemma shift_amount w b : word_size w -> Z.land (uint w b) (w - 1) = Z.land b (w - 1).
Proof. intros Hw. by rewrite !land_word_mask, uint_mod_word. Qed.

Lemma neg_mod w b : (- (b mod w)) mod w = (- b) mod w.
Proof. rewrite <- (Z.sub_0_l (b mod w)), <- (Z.sub_0_l b). apply Zminus_mod_idemp_r. Qed.

(** A rotation depends on the words only. *)
Lemma rol_word w a b : word_size w -> rol w (uint w a) (uint w b) = rol w a b.
Proof.
  intros Hw. unfold rol. rewrite !land_word_mask, uint_uint, uint_mod_word by (done || (destruct Hw; lia)).
  by rewrite <- (neg_mod w (uint w b)), uint_mod_word, neg_mod.
Qed.

Lemma ror_word w a b : word_size w -> ror w (uint w a) (uint w b) = ror w a b.
Proof.
  intros Hw. unfold ror. rewrite !land_word_mask, uint_uint, uint_mod_word by (done || (destruct Hw; lia)).
  by rewrite <- (neg_mod w (uint w b)), uint_mod_word, neg_mod.
Qed.

Lemma rol_amount w a b : word_size w -> rol w a (b mod w) = rol w a b.
Proof.
  intros Hw. unfold rol. rewrite !land_word_mask by done.
  rewrite Z.mod_mod, neg_mod by (destruct Hw; lia). done.
Qed.

Lemma ror_amount w a b : word_size w -> ror w a (b mod w) = ror w a b.
Proof.
  intros Hw. unfold ror. rewrite !land_word_mask by done.
  rewrite Z.mod_mod, neg_mod by (destruct Hw; lia). done.
Qed.

(** The same with the masks written as constants, as the code has them. *)
Lemma shamt32 b : Z.land (uint 32 b) 31 = Z.land b 31.
Proof. apply (shift_amount 32). by left. Qed.
Lemma rol32_masked a b : rol32 a (Z.land b 31) = rol32 (uint 32 a) (uint 32 b).
Proof.
  unfold rol32. rewrite (rol_word 32), <- (rol_amount 32 a b) by (by left). f_equal. apply (land_word_mask 32). by left.
Qed.
Lemma ror32_masked a b : ror32 a (Z.land b 31) = ror32 (uint 32 a) (uint 32 b).
Proof.
  unfold ror32. rewrite (ror_word 32), <- (ror_amount 32 a b) by (by left). f_equal. apply (land_word_mask 32). by left.
Qed.
Lemma rol64_masked a b : rol64 a (Z.land b 63) = rol64 a b.
Proof.
  unfold rol64. rewrite <- (rol_amount 64 a b) by (by right). f_equal. apply (land_word_mask 64). by right.
Qed.
Lemma ror64_masked a b : ror64 a (Z.land b 63) = ror64 a b.
Proof.
  unfold ror64. rewrite <- (ror_amount 64 a b) by (by right). f_equal. apply (land_word_mask 64). by right.
Qed.
Lemma sint_uint_le v w x : 0 <= v <= w -> sint v (uint w x) = sint v x.
Proof. intros. apply sint_eqm. unfold eqm. by apply uint_uint_le. Qed.
Lemma uint_eq_le w v x y : 0 <= v <= w -> uint w x = uint w y -> uint v x = uint v y.
Proof. intros Hv E. rewrite <- (uint_uint_le v w x), <- (uint_uint_le v w y) by lia. by rewrite E. Qed.
Lemma uint_if w (c : bool) x y : uint w (if c then x else y) = if c then uint w x else uint w y.
Proof. by destruct c. Qed.

Lemma reg_uint g r : regs_ok g -> uint 64 (g r) = g r.
Proof. intros Hg. apply uint_small, Hg. Qed.

(** Opens the meaning of an op and removes conversions. *)
Ltac value :=
  first [eapply value_i32; [reflexivity|] | eapply value_i64; [reflexivity | reflexivity |]]; cbv beta zeta;
  masked; unfold clz_z;
  change (32 - 1) with 31; change (64 - 1) with 63;
  try match goal with Hg : regs_ok ?g |- _ => rewrite !(fun r => reg_uint g r Hg) end;
  rewrite ?shamt32, ?rol32_masked, ?ror32_masked, ?rol64_masked, ?ror64_masked, ?sint_uint_le,
    ?(uint_uint_le 8 32), ?(uint_uint_le 16 32) by (done || lia);
  first [ solve [wmod] | rewrite ?uint_if; rewrite ?uint_uint_le by lia; reflexivity | idtac ].

(** ** Emission and execution *)

Section Tci.
Context `{H : TciHost} `{L : TlbLayout} (env : Z).

(** One word, or two for a byte swap with a sign extension. *)
Definition tci_implements (o : TCGOpcode) (outs ins cargs : list Z) : Prop :=
  exists k, k <= 2 /\ Runs env k (tci_half (emit_instruction o (args_of outs ins cargs)))
    (fun g => regs_ok g /\ defined o ins cargs g) (implements o outs ins cargs).

(** From a lemma of [TciOk] and the value of the output. *)
Lemma tci_implements_one o d ins cargs (P : regfile -> Prop) (v : regfile -> Z) :
  Runs env 1 (tci_half (emit_instruction o (args_of [d] ins cargs))) P (fun g g' => g' = wr g d (v g)) ->
  (forall g, regs_ok g -> defined o ins cargs g -> P g /\ value_ok o (g <$> ins) cargs (v g)) ->
  tci_implements o [d] ins cargs.
Proof.
  intros Hr Hv. exists 1. split; [lia|]. eapply Runs_weaken; [exact Hr | |].
  - intros g [Hg Hd]. by apply Hv.
  - intros g g' [Hg Hd] ->. destruct (Hv g Hg Hd) as (_ & Orc & w & x & Hw & He & Hx).
    exists Orc, w, [x]. split; [done|]. by apply writes_one.
Qed.

(** ** Words of two and three registers *)

Lemma tci_rrr o f d a b :
  (forall insn g, exec_alu o insn g = arm_rrr g insn f) ->
  tci_half (emit_instruction o (args_of [d] [a; b] [])) = out_word (tcg_tci_out_op_rrr o d a b) ->
  is_reg d = true -> is_reg a = true -> is_reg b = true ->
  (forall g, regs_ok g -> value_ok o [g a; g b] [] (f (g a) (g b))) -> tci_implements o [d] [a; b] [].
Proof.
  intros Ho He Hd Ha Hb Hv. eapply (tci_implements_one _ _ _ _ (fun _ => True) (fun g => f (g a) (g b))).
  - rewrite He. by apply Runs_rrr.
  - intros g Hg _. split; [done | by apply Hv].
Qed.

(** A division is defined exactly where the interpreter divides. *)
Lemma defined_div o w (sg : bool) f a b g :
  0 <= w <= 64 ->
  (forall Orc : Oracle, eval_any o [g a; g b] [] =
     option_map (pair w) (if sg then ev_sdiv w f [g a; g b] else ev_udiv w f [g a; g b])) ->
  defined o [a; b] [] g ->
  div_defined w sg (g a) (g b) /\ value_ok o [g a; g b] [] (div_value w sg f (g a) (g b)).
Proof.
  intros Hw He Hd. unfold defined in Hd. cbn [fmap list_fmap] in Hd. rewrite He in Hd.
  unfold div_defined, div_value. destruct sg; cbn in Hd.
  - destruct (sdiv_ok w (sint w (g a)) (sint w (g b))) eqn:E; [|done]. split; [done|].
    exists zero_junk. do 2 eexists. rewrite He. cbn. rewrite E. eauto.
  - destruct (Z.eqb_spec (uint w (g b)) 0) as [|E]; [done|]. split; [done|].
    exists zero_junk. do 2 eexists. rewrite He. cbn. rewrite (proj2 (Z.eqb_neq _ 0) E). eauto.
Qed.

Lemma tci_div o w sg f d a b :
  0 <= w <= 64 ->
  (forall insn g, exec_alu o insn g = arm_div g insn w sg f) ->
  tci_half (emit_instruction o (args_of [d] [a; b] [])) = out_word (tcg_tci_out_op_rrr o d a b) ->
  (forall (Orc : Oracle) x y, eval_any o [x; y] [] =
     option_map (pair w) (if sg then ev_sdiv w f [x; y] else ev_udiv w f [x; y])) ->
  is_reg d = true -> is_reg a = true -> is_reg b = true -> tci_implements o [d] [a; b] [].
Proof.
  intros Hw Ho He Hev Hd Ha Hb.
  eapply (tci_implements_one _ _ _ _ (fun g => div_defined w sg (g a) (g b))
            (fun g => div_value w sg f (g a) (g b))).
  - rewrite He. by apply Runs_div.
  - intros g Hg Hdef. by apply defined_div.
Qed.

Lemma tci_binary o d a b :
  shape_of o = Some SBinary -> is_reg d = true -> is_reg a = true -> is_reg b = true ->
  tci_implements o [d] [a; b] [].
Proof.
  intros Ho Hd Ha Hb. destruct o; try discriminate Ho; clear Ho.
  all: first
    [ eapply tci_rrr; [reflexivity | reflexivity | assumption.. |]; intros g Hg; value
    | eapply tci_div; [| reflexivity | reflexivity | | assumption..]; [lia |];
      intros Orc x y; unfold eval_any; cbn [eval_i32 eval_i64]; by (destruct (ev_sdiv _ _ _) || destruct (ev_udiv _ _ _) || idtac) ].
Qed.

(** The ops whose words do not address the registers of the op. *)
Definition misaddressed (o : TCGOpcode) : bool :=
  match o with INDEX_op_ctpop_i32 | INDEX_op_ctpop_i64 => true | _ => false end.

(** An op that is executed as another one of the same effect. *)
Lemma tci_rr o o' f d a :
  (forall insn g, exec_alu o' insn g = arm_rr g insn f) ->
  tci_half (emit_instruction o (args_of [d] [a] [])) = out_word (tcg_tci_out_op_rr o' d a) ->
  is_reg d = true -> is_reg a = true ->
  (forall g, regs_ok g -> value_ok o [g a] [] (f (g a))) -> tci_implements o [d] [a] [].
Proof.
  intros Ho He Hd Ha Hv. eapply (tci_implements_one _ _ _ _ (fun _ => True) (fun g => f (g a))).
  - rewrite He. by apply Runs_rr.
  - intros g Hg _. split; [done | by apply Hv].
Qed.

Lemma tci_unary o d a :
  shape_of o = Some SUnary -> misaddressed o = false -> is_reg d = true -> is_reg a = true ->
  tci_implements o [d] [a] [].
Proof.
  intros Ho Hm Hd Ha. destruct o; try discriminate Ho; try discriminate Hm; clear Ho Hm.
  all: eapply tci_rr; [ | reflexivity | assumption.. |]; [reflexivity | intros g Hg; value].
Qed.

(** ** Conditions and fields *)

Lemma cond_holds_eval w c a b :
  0 <= w -> compare_cond c = true -> cond_eval w c a b = Some (cond_holds w c a b).
Proof.
  intros Hw Hc. unfold cond_holds. by destruct (tci_compare_eval w c a b Hw Hc) as (r & _ & ->).
Qed.

Lemma tci_setcond o w d a b c :
  0 <= w <= 64 ->
  (forall insn g, exec_alu o insn g = arm_setcond g insn w) ->
  tci_half (emit_instruction o (args_of [d] [a; b] [c])) = out_word (tcg_tci_out_op_rrrc o d a b c) ->
  (forall (Orc : Oracle) x y, eval_any o [x; y] [c] = option_map (pair w) (ev_cond w b2z [x; y] [c])) ->
  is_reg d = true -> is_reg a = true -> is_reg b = true -> compare_cond c = true ->
  tci_implements o [d] [a; b] [c].
Proof.
  intros Hw Ho He Hev Hd Ha Hb Hc.
  eapply (tci_implements_one _ _ _ _ (fun _ => True) (fun g => b2z (cond_holds w c (g a) (g b)))).
  - rewrite He. apply Runs_setcond; (done || lia).
  - intros g Hg _. split; [done|]. exists zero_junk. do 2 eexists. split; [exact Hw|]. split; [|reflexivity].
    cbn [fmap list_fmap]. rewrite Hev. cbn. by rewrite cond_holds_eval by (done || lia).
Qed.

Lemma tci_movcond o w d a b x y c :
  0 <= w <= 64 ->
  (forall insn g, exec_alu o insn g = arm_movcond g insn w) ->
  tci_half (emit_instruction o (args_of [d] [a; b; x; y] [c])) = out_word (tcg_tci_out_op_rrrrrc o d a b x y c) ->
  (forall (Orc : Oracle) ins, length ins = 4%nat -> eval_any o ins [c] = option_map (pair w) (ev_movcond w ins [c])) ->
  forallb is_reg [d; a; b; x; y] = true -> compare_cond c = true ->
  tci_implements o [d] [a; b; x; y] [c].
Proof.
  intros Hw Ho He Hev Hr Hc.
  eapply (tci_implements_one _ _ _ _ (fun _ => True)
            (fun g => if cond_holds w c (g a) (g b) then g x else g y)).
  - rewrite He. apply Runs_movcond; (done || lia).
  - intros g Hg _. split; [done|]. exists zero_junk. do 2 eexists. split; [exact Hw|]. split; [|reflexivity].
    cbn [fmap list_fmap]. rewrite Hev by done. cbn. by rewrite cond_holds_eval by (done || lia).
Qed.

Lemma proper_field_spec w p l :
  proper_field w p l = true -> field_ok w p l = true /\ 0 <= p < w /\ 0 < l < w.
Proof.
  unfold proper_field, field_ok. intros Hf. rewrite !andb_true_iff in Hf.
  rewrite !andb_true_iff. lia.
Qed.

Lemma tci_deposit o f w d a b p l :
  0 <= w <= 64 ->
  (forall insn g, exec_alu o insn g = arm_deposit g insn f) ->
  (forall a p n b, f a p n b = checked (field_ok w p n) (deposit_w w a p n b)) ->
  tci_half (emit_instruction o (args_of [d] [a; b] [p; l])) = out_word (tcg_tci_out_op_rrrbb o d a b p l) ->
  (forall (Orc : Oracle) x y, eval_any o [x; y] [p; l] = option_map (pair w) (ev_deposit w [x; y] [p; l])) ->
  is_reg d = true -> is_reg a = true -> is_reg b = true -> proper_field w p l = true ->
  tci_implements o [d] [a; b] [p; l].
Proof.
  intros Hw Ho Hf He Hev Hd Ha Hb Hp. apply proper_field_spec in Hp as (Hok & Hp & Hl).
  eapply (tci_implements_one _ _ _ _ (fun _ => True) (fun g => deposit_w w (g a) p l (g b))).
  - rewrite He. eapply Runs_deposit; (done || lia).
  - intros g Hg _. split; [done|]. exists zero_junk. do 2 eexists. split; [exact Hw|]. split; [|reflexivity].
    cbn [fmap list_fmap]. rewrite Hev. cbn. by rewrite Hok.
Qed.

Lemma tci_extract o f h w d a p l :
  0 <= w <= 64 ->
  (forall insn g, exec_alu o insn g = arm_extract g insn f) ->
  (forall a p n, f a p n = checked (field_ok w p n) (h a p n)) ->
  tci_half (emit_instruction o (args_of [d] [a] [p; l])) = out_word (tcg_tci_out_op_rrbb o d a p l) ->
  (forall (Orc : Oracle) x, field_ok w p l = true -> eval_any o [x] [p; l] = Some (w, [h x p l])) ->
  is_reg d = true -> is_reg a = true -> proper_field w p l = true -> tci_implements o [d] [a] [p; l].
Proof.
  intros Hw Ho Hf He Hev Hd Ha Hp. apply proper_field_spec in Hp as (Hok & Hp & Hl).
  eapply (tci_implements_one _ _ _ _ (fun _ => True) (fun g => h (g a) p l)).
  - rewrite He. eapply Runs_extract; (done || lia).
  - intros g Hg _. split; [done|]. exists zero_junk. do 2 eexists. split; [exact Hw|]. split; [|reflexivity].
    by apply Hev.
Qed.

(** ** Byte swaps *)

Lemma writes_over w r v (g : regfile) x y :
  0 <= w <= 64 -> uint w y = uint w v -> writes w [r] [v] g (wr (wr g r x) r y).
Proof.
  intros Hw Hy. split; [|split].
  - constructor; [|constructor]. by rewrite wr_same, uint_uint_le.
  - intros r' Hr. rewrite !wr_other; [done|..]; by intros ->; apply Hr, list_elem_of_here.
  - intros. by repeat apply wr_ok.
Qed.

(** What the flags leave of the swapped word [x], with zero for open bits. *)
Definition swapped (n : Z) (swap : Z -> Z) (f x : Z) : Z :=
  if flag f TCG_BSWAP_OS then sint n (swap x) else swap x.

Lemma bswap_value o w n swap f a :
  0 <= w <= 64 ->
  (forall Orc : Oracle, eval_any o [a] [f] = option_map (pair w) (ev_bswap w o n swap [a] [f])) ->
  eval_any (Orc := zero_junk) o [a] [f] <> None ->
  eval_any (Orc := zero_junk) o [a] [f] = Some (w, [swapped n swap f a]).
Proof.
  intros Hw Hev Hd. rewrite Hev in *. cbn in *. unfold bswap_flags, swapped in *.
  destruct (_ && _); [done|]. destruct (flag f TCG_BSWAP_OS); [done|].
  destruct (flag f TCG_BSWAP_OZ); [done|]. cbn. do 3 f_equal. lia.
Qed.

(** The swap and, with TCG_BSWAP_OS, the extension [x]. *)
Lemma tci_bswap o x w n swap d a f :
  0 <= n <= w -> w <= 64 -> (x = None -> n = w) ->
  (forall insn g, exec_alu o insn g = arm_rr g insn swap) ->
  (forall x', x = Some x' -> forall insn g, exec_alu x' insn g = arm_rr g insn (sint n)) ->
  tci_half (emit_instruction o (args_of [d] [a] [f])) =
    tci_bind (out_word (tcg_tci_out_op_rr o d a)) (fun _ =>
      match x with
      | Some x => if flag f TCG_BSWAP_OS then out_word (tcg_tci_out_op_rr x d d) else tci_ret tt
      | None => tci_ret tt
      end) ->
  (forall (Orc : Oracle) y, eval_any o [y] [f] = option_map (pair w) (ev_bswap w o n swap [y] [f])) ->
  is_reg d = true -> is_reg a = true -> tci_implements o [d] [a] [f].
Proof.
  intros Hn Hw Hnone Ho Hx He Hev Hd Ha.
  assert (Hval : forall g, defined o [a] [f] g ->
    eval_any (Orc := zero_junk) o [g a] [f] = Some (w, [swapped n swap f (g a)])).
  { intros g Hg. apply bswap_value; (done || lia). }
  destruct (match x with Some _ => flag f TCG_BSWAP_OS | None => false end) eqn:E.
  - destruct x as [x|]; [|done]. rewrite E in He. exists (1 + 1). split; [lia|]. rewrite He. eapply Runs_weaken.
    + eapply Runs_seq; [by apply Runs_rr | by apply Runs_rr; [apply Hx | ..] | done].
    + done.
    + intros g g' [_ Hg] (g1 & -> & ->). exists zero_junk, w, [swapped n swap f (g a)]. split; [by apply Hval|].
      apply writes_over; [lia|]. rewrite wr_same. unfold swapped. rewrite E. rewrite sint_uint_le by lia. done.
  - exists (1 + 0). split; [lia|]. rewrite He. eapply Runs_weaken.
    + eapply (Runs_seq _ _ _ _ _ _ _ (fun _ => True)); [by apply Runs_rr | | done].
      destruct x; [rewrite E|]; apply Runs_ret.
    + done.
    + intros g g' [_ Hg] (g1 & -> & ->). exists zero_junk, w, [swapped n swap f (g a)]. split; [by apply Hval|].
      apply writes_one; [lia|]. unfold swapped. destruct x; [by rewrite E|]. destruct (flag f TCG_BSWAP_OS); [|done].
      rewrite (Hnone eq_refl). by rewrite uint_sint by lia.
Qed.

(** ** Double words *)

Lemma tci_write_two w g l h x :
  w <= 64 -> l <> h -> w = 32 -> writes w [l; h] (split2 w x) g (tci_write_reg64 g h l x).
Proof.
  intros Hw Hlh ->. unfold tci_write_reg64, split2. apply writes_two; [lia | done | |].
  - by rewrite uint_uint by lia.
  - zbits.
Qed.

(** The carry and the borrow of the low words. *)
Lemma shift_add2 w al ah bl bh :
  0 <= w -> 0 <= al < 2 ^ w -> 0 <= bl < 2 ^ w ->
  Z.shiftr (ah * 2 ^ w + al + (bh * 2 ^ w + bl)) w = ah + bh + b2z (uint w (al + bl) <? al).
Proof.
  intros Hw Ha Hb. rewrite shiftr_div by done.
  replace (ah * 2 ^ w + al + (bh * 2 ^ w + bl)) with (al + bl + (ah + bh) * 2 ^ w) by ring.
  rewrite Z.div_add by lia. unfold uint, b2z.
  pose proof (Z.div_mod (al + bl) (2 ^ w) ltac:(lia)). pose proof (Z.mod_pos_bound (al + bl) (2 ^ w) ltac:(lia)).
  assert (0 <= (al + bl) / 2 ^ w < 2) by (split; [apply Z.div_pos | apply Z.div_lt_upper_bound]; lia).
  destruct (Z.ltb_spec ((al + bl) mod 2 ^ w) al); nia.
Qed.

Lemma shift_sub2 w al ah bl bh :
  0 <= w -> 0 <= al < 2 ^ w -> 0 <= bl < 2 ^ w ->
  Z.shiftr (ah * 2 ^ w + al - (bh * 2 ^ w + bl)) w = ah - bh - b2z (al <? bl).
Proof.
  intros Hw Ha Hb. rewrite shiftr_div by done.
  replace (ah * 2 ^ w + al - (bh * 2 ^ w + bl)) with (al - bl + (ah - bh) * 2 ^ w) by ring.
  rewrite Z.div_add by lia. unfold b2z. destruct (Z.ltb_spec al bl).
  - replace ((al - bl) / 2 ^ w) with (-1); [lia|]. apply (Z.div_unique _ _ _ (al - bl + 2 ^ w)); lia.
  - rewrite Z.div_small; lia.
Qed.

Lemma tci_uint64_eq h l : tci_uint64 h l = uint 32 h * 2 ^ 32 + uint 32 l.
Proof. unfold tci_uint64. by rewrite shiftl_mul by lia. Qed.

Lemma low_word w x y : 0 <= w -> uint w (x * 2 ^ w + y) = uint w y.
Proof. intros. apply (eqm_intro _ _ _ x); [done | ring]. Qed.

Lemma tci_add2 o l h al ah bl bh :
  shape_of o = Some SAdd2 -> forallb is_reg [l; h; al; ah; bl; bh] = true -> l <> h ->
  tci_implements o [l; h] [al; ah; bl; bh] [].
Proof.
  intros Ho Hr Hlh. exists 1. split; [lia|]. destruct o; try discriminate Ho; clear Ho;
    (eapply Runs_weaken; [eapply Runs_rrrrrr; [reflexivity | done] | done |]);
    intros g g' [Hg _] ->; cbn [args_of nth app]; rewrite ?tci_uint64_eq.
  - eapply implements_i32; [reflexivity | by apply tci_write_two].
  - eapply implements_i32; [reflexivity | by apply tci_write_two].
  - eapply implements_i64; [reflexivity | reflexivity |]. cbn [fmap list_fmap].
    rewrite !(fun r => reg_uint g r Hg). apply writes_two; [lia | done | |].
    + rewrite uint_uint by lia. apply (eqm_intro _ _ _ (- g ah - g bh)); [lia | ring].
    + by rewrite shift_add2, uint_uint by (apply Hg || lia).
  - eapply implements_i64; [reflexivity | reflexivity |]. cbn [fmap list_fmap].
    rewrite !(fun r => reg_uint g r Hg). apply writes_two; [lia | done | |].
    + rewrite uint_uint by lia. apply (eqm_intro _ _ _ (g bh - g ah)); [lia | ring].
    + by rewrite shift_sub2, uint_uint by (apply Hg || lia).
  Unshelve. all: exact zero_junk.
Qed.

Lemma tci_mul2 o l h a b :
  shape_of o = Some SMul2 -> forallb is_reg [l; h; a; b] = true -> l <> h ->
  tci_implements o [l; h] [a; b] [].
Proof.
  intros Ho Hr Hlh. exists 1. split; [lia|]. destruct o; try discriminate Ho; clear Ho;
    (eapply Runs_weaken; [eapply Runs_rrrr; [reflexivity | done] | done |]);
    intros g g' [Hg _] ->; cbv beta;
    (eapply implements_i32; [reflexivity | by apply tci_write_two]).
  Unshelve. all: exact zero_junk.
Qed.

(** ** Every pure op *)

Lemma tci_bswap_op o d a f :
  shape_of o = Some SBswap -> is_reg d = true -> is_reg a = true -> tci_implements o [d] [a] [f].
Proof.
  intros Ho Hd Ha.
  destruct o; try discriminate Ho.
  - apply (tci_bswap _ (Some INDEX_op_ext16s_i32) 32 16 bswap16); try (reflexivity || done || lia).
    by intros x [= <-].
  - apply (tci_bswap _ None 32 32 bswap32); try (reflexivity || done || lia).
  - apply (tci_bswap _ (Some INDEX_op_ext16s_i64) 64 16 bswap16); try (reflexivity || done || lia).
    by intros x [= <-].
  - apply (tci_bswap _ (Some INDEX_op_ext32s_i64) 64 32 bswap32); try (reflexivity || done || lia).
    by intros x [= <-].
  - apply (tci_bswap _ None 64 64 bswap64); try (reflexivity || done || lia).
Qed.

Lemma tci_pure_op o sh outs ins cargs :
  shape_of o = Some sh -> misaddressed o = false -> operands_ok sh outs ins cargs ->
  tci_implements o outs ins cargs.
Proof.
  intros Hs Hm Hops. destruct Hops as
    [| | d a b c | d a b x y c | w d a b p l | w d a p l | d a f | |].
  - by apply tci_unary.
  - by apply tci_binary.
  - destruct o; try discriminate Hs; (eapply tci_setcond; [| reflexivity | reflexivity | | done..]; [lia|]);
      intros; unfold eval_any; cbn; by destruct (cond_eval _ _ _ _).
  - destruct o; try discriminate Hs; (eapply tci_movcond; [| reflexivity | reflexivity | | done..]; [lia|]);
      intros Orc ins Hl; unfold eval_any; cbn [eval_i32 eval_i64]; by destruct (ev_movcond _ _ _).
  - destruct o; try discriminate Hs; injection Hs as <-;
      (eapply tci_deposit; [| reflexivity | reflexivity | reflexivity | | done..]; [lia|]);
      intros; unfold eval_any; cbn; by destruct (field_ok _ _ _).
  - destruct o; try discriminate Hs; injection Hs as <-;
      (eapply tci_extract; [| reflexivity | reflexivity | reflexivity | | done..]; [lia|]);
      intros Orc v Hok; unfold eval_any; cbn; by rewrite Hok.
  - by apply tci_bswap_op.
  - by apply tci_add2.
  - by apply tci_mul2.
Qed.

End Tci.
