(* ===== verification/WasmOps.v ===== *)
(** * The generated WebAssembly implements the pure ops

    The counterpart of [TciOps] for the other engine: the code that
    [emit_instruction] writes for a pure op validates and computes what the op
    means ([wasm_implements]).  [wasm_wrong] lists the ops for which this does
    not hold in general. *)

From Stdlib Require Import ZArith Lia Bool.
From stdpp Require Import base numbers functions list option.
From S2P Require Import Prelude.
From S2P Require Import Bytes.
From S2P Require Import Bitops.
From S2P Require Import BitCount.
From S2P Require Import TcgCond.
From S2P Require Import TcgOpc.
From S2P Require Import TcgCtx.
From S2P Require Import TcgSem.
From S2P Require Import RegSpec.
From S2P Require Import TciCode.
From S2P Require Import TciOut.
From S2P Require Import TciExec.
From S2P Require Import TciOk.
From S2P Require Import Wasm.
From S2P Require Import WasmSem.
From S2P Require Import WasmOut.
From S2P Require Import WasmOk.
From S2P Require Import WasmCtl.
From S2P Require Import TcgOut.
From S2P Require Import TciOps.

Local Open Scope Z_scope.

Definition in64 (v : Z) : Prop := 0 <= v < 2 ^ 64.

Section Wasm.
Context `{H : WasmHost} `{L : TlbLayout}.

Definition wasm_implements (o : TCGOpcode) (outs ins cargs : list Z) : Prop :=
  forall t, Compiles (wasm_half (emit_instruction o (args_of outs ins cargs)) t)
    (fun st => defined o ins cargs (globals st))
    (fun st st' => wmem st' = wmem st /\ implements o outs ins cargs (globals st) (globals st')).

(** Execution between ops: the operand stack is empty before and after. *)
Definition executes (c : list code) (P : regfile -> Prop) (f : regfile -> regfile) : Prop :=
  forall fuel g l m, regs_ok g -> P g -> exists l',
    run fuel c {| stk := []; globals := g; locals := l; wmem := m |} =
    WNext {| stk := []; globals := f g; locals := l'; wmem := m |} /\
    l' TMP32_LOCAL_ENV_IDX = l TMP32_LOCAL_ENV_IDX.

(** The code of [m] assigns [v] to register [d]. *)
Definition AssignCode (m : W unit) (d : Z) (P : regfile -> Prop) (v : regfile -> Z) : Prop :=
  forall e, exists t, EmitsAt m e t (after_set d e) /\
    exists c, parse t = Some c /\ flatten c = t /\ good_code c /\
      executes c P (fun g : Z -> Z => <[d := v g]> g).

Lemma insert_wr (g : Z -> Z) r v : 0 <= v < 2 ^ 64 -> <[r := v]> g = wr g r v.
Proof. intros Hv. unfold wr. by rewrite uint_small. Qed.

Lemma AssignCode_compiles m d P v :
  AssignCode m d P v -> (forall g, regs_ok g -> P g -> 0 <= v g < 2 ^ 64) ->
  Compiles m (fun st => P (globals st))
    (fun st st' => wmem st' = wmem st /\ globals st' = wr (globals st) d (v (globals st))).
Proof.
  intros Hm Hv. apply Compiles_intro. intros e. destruct (Hm e) as (t & E & c & Hp & Hf & G & R).
  exists t, (after_set d e). split; [done|]. exists c. split_and!; [done.. |].
  intros fuel [s g l mm] Hs He Hg HP. cbn in Hs, Hg, HP. subst s.
  destruct (R fuel g l mm Hg HP) as (l' & -> & Hl). eexists. split; [reflexivity|].
  cbn. rewrite insert_wr by auto. split; [done|]. split; [|split; [by apply wr_ok | done]].
  intros Hr. cbn. rewrite Hl. unfold after_set in Hr. destruct (Z.eqb_spec d TCG_REG_R14); [done|].
  rewrite wr_other by done. by apply He.
Qed.

Lemma wasm_one o d ins cargs tm m v :
  emit_instruction o (args_of [d] ins cargs) = both tm m ->
  AssignCode m d (defined o ins cargs) v ->
  (forall g, regs_ok g -> defined o ins cargs g ->
     in64 (v g) /\ value_ok o (g <$> ins) cargs (v g)) ->
  wasm_implements o [d] ins cargs.
Proof.
  intros He Hm Hv t. rewrite He. cbn [wasm_half both]. eapply Compiles_weaken.
  - eapply AssignCode_compiles; [exact Hm|]. intros g Hg Hd. by apply Hv.
  - done.
  - intros st st' Hg Hd [Hmem ->]. split; [done|].
    destruct (Hv (globals st) Hg Hd) as (_ & Orc & w & x & Hw & Hev & Hx).
    exists Orc, w, [x]. split; [done|]. by apply writes_one.
Qed.

End Wasm.

(** Reduces [AssignCode] of an unfolded function to execution. *)
Ltac assign_code :=
  let e := fresh "e" in intros e; eexists; split; [emit |]; parse_code; split; [good_code |];
  let fuel := fresh "fuel" in let g := fresh "g" in let l := fresh "l" in let m := fresh "m" in
  let Hg := fresh "Hg" in let Hd := fresh "Hd" in
  intros fuel g l m Hg Hd.

(** ** Values of 64 bits *)

Lemma in64_uint w v : 0 <= w <= 64 -> in64 (uint w v).
Proof.
  intros Hw. pose proof (uint_range w v ltac:(lia)). pose proof (Z.pow_le_mono_r 2 w 64). unfold in64. lia.
Qed.

(** A word is in range when its bits above 64 are zero. *)
Lemma in64_bits v : 0 <= v -> (forall i, 64 <= i -> Z.testbit v i = false) -> in64 v.
Proof.
  intros Hv Hb. split; [done|]. destruct (Z.lt_ge_cases v (2 ^ 64)) as [|Hge]; [done|]. exfalso.
  assert (Hlog : 64 <= Z.log2 v) by (apply Z.log2_le_pow2; lia).
  pose proof (Hb (Z.log2 v) Hlog) as Hbit. rewrite Z.bit_log2 in Hbit; lia.
Qed.

Lemma in64_land a b : in64 a -> in64 b -> in64 (Z.land a b).
Proof.
  intros Ha Hb. apply in64_bits; [apply Z.land_nonneg; left; apply Ha|]. intros i Hi.
  rewrite Z.land_spec, (testbit_above 64 a) by (done || lia). done.
Qed.
Lemma in64_lor a b : in64 a -> in64 b -> in64 (Z.lor a b).
Proof.
  intros Ha Hb. apply in64_bits; [apply Z.lor_nonneg; split; [apply Ha | apply Hb]|]. intros i Hi.
  rewrite Z.lor_spec, (testbit_above 64 a), (testbit_above 64 b) by (done || lia). done.
Qed.
Lemma in64_lxor a b : in64 a -> in64 b -> in64 (Z.lxor a b).
Proof.
  intros Ha Hb. apply in64_bits; [apply Z.lxor_nonneg; split; intros; [apply Hb | apply Ha]|]. intros i Hi.
  rewrite Z.lxor_spec, (testbit_above 64 a), (testbit_above 64 b) by (done || lia). done.
Qed.
Lemma in64_shiftr a k : in64 a -> 0 <= k -> in64 (Z.shiftr a k).
Proof.
  intros Ha Hk. apply in64_bits; [apply Z.shiftr_nonneg, Ha|]. intros i Hi.
  rewrite Z.shiftr_spec, (testbit_above 64 a) by (done || lia). done.
Qed.
Lemma in64_reg g r : regs_ok g -> in64 (g r).
Proof. intros Hg. apply Hg. Qed.
Lemma in64_rol w a b : 0 <= w <= 64 -> in64 (rol w a b).
Proof. intros. by apply in64_uint. Qed.
Lemma in64_ror w a b : 0 <= w <= 64 -> in64 (ror w a b).
Proof. intros. by apply in64_uint. Qed.
Lemma in64_b2z b : in64 (b2z b).
Proof. by destruct b. Qed.
Lemma in64_if (c : bool) a b : in64 a -> in64 b -> in64 (if c then a else b).
Proof. by destruct c. Qed.
Lemma mod64_nonneg x : 0 <= x mod 64.
Proof. apply Z.mod_pos_bound. lia. Qed.
Lemma land31_nonneg x : 0 <= Z.land x 31.
Proof. apply Z.land_nonneg. by right. Qed.
Lemma land63_nonneg x : 0 <= Z.land x 63.
Proof. apply Z.land_nonneg. by right. Qed.

(** Decides [in64] by the shape of the expression. *)
Ltac in64 :=
  lazymatch goal with
  | |- in64 (Z.land _ _) => apply in64_land; in64
  | |- in64 (Z.lor _ _) => apply in64_lor; in64
  | |- in64 (Z.lxor _ _) => apply in64_lxor; in64
  | |- in64 (Z.shiftr _ _) => apply in64_shiftr; [in64 | first [apply mod64_nonneg | apply land31_nonneg | apply land63_nonneg | lia]]
  | |- in64 (uint _ _) => apply in64_uint; lia
  | |- in64 (rol _ _ _) => apply in64_rol; lia
  | |- in64 (ror _ _ _) => apply in64_ror; lia
  | |- in64 (b2z _) => apply in64_b2z
  | |- in64 (if _ then _ else _) => apply in64_if; in64
  | |- in64 (Zpos _) => split; [lia | reflexivity]
  | |- in64 Z0 => split; [lia | reflexivity]
  | |- in64 (_ _) => apply in64_reg; assumption
  end.

(** ** Constants and masks of the generated code *)

(** Evaluates the constants that an instruction pushes. *)
Ltac fold_const w w' c :=
  let v := eval vm_compute in (uint w (sint w' c)) in change (uint w (sint w' c)) with v.
Ltac fold_consts :=
  repeat match goal with
  | |- context [uint ?w (sint ?w' (Zpos ?p))] => fold_const w w' (Zpos p)
  | |- context [uint ?w (sint ?w' (Zneg ?p))] => fold_const w w' (Zneg p)
  | |- context [uint ?w (sint ?w' Z0)] => fold_const w w' Z0
  | |- context [Z.modulo ?a ?b] => z_compute_at Z.modulo a b
  end.

Lemma land_u32 x : Z.land x 0xffffffff = uint 32 x.
Proof. change 0xffffffff with (Z.ones 32). by rewrite Z.land_ones. Qed.
Lemma land_u16 x : Z.land x 0xffff = uint 16 x.
Proof. change 0xffff with (Z.ones 16). by rewrite Z.land_ones. Qed.
Lemma land_u8 x : Z.land x 0xff = uint 8 x.
Proof. change 0xff with (Z.ones 8). by rewrite Z.land_ones. Qed.
Lemma land31_mod x : Z.land x 31 mod 64 = Z.land x 31.
Proof.
  change 31 with (Z.ones 5). rewrite Z.land_ones by lia. apply Z.mod_small.
  pose proof (Z.mod_pos_bound x (2 ^ 5)). lia.
Qed.
Lemma mod64_land x : x mod 64 = Z.land x 63.
Proof. change 63 with (Z.ones 6). by rewrite Z.land_ones. Qed.
Lemma lxor_ones x : in64 x -> Z.lxor x 0xffffffffffffffff = uint 64 (Z.lnot x).
Proof.
  intros Hx. apply Z.bits_inj'; intros i Hi. change 0xffffffffffffffff with (Z.ones 64).
  rewrite Z.lxor_spec, uint_testbit, ones_testbit, Z.lnot_spec by lia.
  destruct (Z.ltb_spec i 64); [by rewrite xorb_true_r|].
  by rewrite (testbit_above 64 x i) by (done || lia).
Qed.

Lemma eqm_uint_le v w x : 0 <= v <= w -> eqm v (uint w x) x.
Proof. intros. unfold eqm. by apply uint_uint_le. Qed.

Lemma sint_wider x : sint 64 (sint 32 x) = sint 32 x.
Proof. pose proof (sint_range 32 x ltac:(lia)) as Hr. apply sint_small; [lia|]. cbn in *. lia. Qed.

Ltac masks :=
  fold_consts; rewrite ?(rol_amount 32), ?(ror_amount 32), ?(rol_amount 64), ?(ror_amount 64)
    by (by left || by right);
  rewrite ?land_u32, ?land_u16, ?land_u8, ?land31_mod, ?mod64_land, ?lxor_ones
    by in64.

(** The value that the generated code leaves is the meaning of the op. *)
Ltac wasm_value :=
  intros ? ? ?; cbv beta; split; [in64 |]; masks; value;
  rewrite ?(uint_uint_le 32 64), ?sint_wider by lia;
  try solve [wmod | lazymatch goal with |- uint ?w ?x = uint ?w ?y => change (eqm w x y) end;
             rewrite ?(eqm_uint_le 32 64), ?eqm_uint, ?eqm_sint by lia; reflexivity].

(** ** Ops of three registers *)

Section Ops.
Context `{H : WasmHost} `{L : TlbLayout}.

Definition straight (o : TCGOpcode) : bool :=
  match o with
  | INDEX_op_add_i32 | INDEX_op_add_i64 | INDEX_op_sub_i32 | INDEX_op_sub_i64
  | INDEX_op_mul_i32 | INDEX_op_mul_i64 | INDEX_op_and_i32 | INDEX_op_and_i64
  | INDEX_op_or_i32 | INDEX_op_or_i64 | INDEX_op_xor_i32 | INDEX_op_xor_i64
  | INDEX_op_andc_i32 | INDEX_op_andc_i64 | INDEX_op_orc_i32 | INDEX_op_orc_i64
  | INDEX_op_eqv_i32 | INDEX_op_eqv_i64 | INDEX_op_nand_i32 | INDEX_op_nand_i64
  | INDEX_op_nor_i32 | INDEX_op_nor_i64 | INDEX_op_shl_i32 | INDEX_op_shl_i64
  | INDEX_op_shr_i32 | INDEX_op_shr_i64 | INDEX_op_sar_i32 | INDEX_op_sar_i64
  | INDEX_op_rotl_i32 | INDEX_op_rotl_i64 | INDEX_op_rotr_i32 | INDEX_op_rotr_i64 => true
  | _ => false
  end.

Ltac unfold_out :=
  cbv beta; unfold tcg_wasm_out_i64_calc, tcg_wasm_out_shl, tcg_wasm_out_shr_u, tcg_wasm_out_shr_s,
    tcg_wasm_out_andc, tcg_wasm_out_orc, tcg_wasm_out_eqv, tcg_wasm_out_nand, tcg_wasm_out_nor,
    tcg_wasm_out_i32_rotl, tcg_wasm_out_i32_rotr; cbn [args_of nth app].

Lemma wasm_straight o d a b :
  straight o = true -> is_reg d = true -> is_reg a = true -> is_reg b = true ->
  wasm_implements o [d] [a; b] [].
Proof.
  intros Ho Hd Ha Hb. destruct o; try discriminate Ho; clear Ho;
    (eapply wasm_one; [reflexivity | unfold_out; assign_code; cbn; eexists; (split; reflexivity) | wasm_value]).
Qed.

(** ** Divisions *)

Lemma value_ok_uint o ins cargs v : value_ok o ins cargs v -> value_ok o ins cargs (uint 64 v).
Proof.
  intros (Orc & w & x & Hw & He & Hx). exists Orc, w, x. by rewrite uint_uint_le.
Qed.

Lemma sint_nonzero X B : sint 64 X = B -> B <> 0 -> (X =? 0) = false.
Proof. intros HX HB. apply Z.eqb_neq. by intros ->. Qed.

(** The instruction on operands of which the signed values are [A] and [B]. *)
Lemma bin_divs X Y A B :
  sint 64 X = A -> sint 64 Y = B -> B <> 0 -> ~ (A = - 2 ^ 63 /\ B = -1) ->
  bin_sem 64 DivS X Y = Some (uint 64 (Z.quot A B)).
Proof.
  intros HX HY HB Ho. cbn [bin_sem]. rewrite (sint_nonzero Y B HY HB), HX, HY. change (64 - 1) with 63.
  destruct (Z.eqb_spec A (- 2 ^ 63)), (Z.eqb_spec B (-1)); try done. exfalso. auto.
Qed.

Lemma bin_rems X Y A B :
  sint 64 X = A -> sint 64 Y = B -> B <> 0 -> bin_sem 64 RemS X Y = Some (uint 64 (Z.rem A B)).
Proof. intros HX HY HB. cbn [bin_sem]. by rewrite (sint_nonzero Y B HY HB), HX, HY. Qed.

Lemma bin_divu X Y : Y <> 0 -> bin_sem 64 DivU X Y = Some (X / Y).
Proof. intros HY. cbn [bin_sem]. by rewrite (proj2 (Z.eqb_neq Y 0) HY). Qed.

Lemma bin_remu X Y : Y <> 0 -> bin_sem 64 RemU X Y = Some (X mod Y).
Proof. intros HY. cbn [bin_sem]. by rewrite (proj2 (Z.eqb_neq Y 0) HY). Qed.

Lemma in64_div x y : in64 x -> 0 < y -> in64 (x / y).
Proof. intros Hx Hy. split; [apply Z.div_pos; [apply Hx | done]|]. apply Z.div_lt_upper_bound; unfold in64 in *; nia. Qed.
Lemma in64_mod x y : in64 y -> 0 < y -> in64 (x mod y).
Proof. intros Hx Hy. pose proof (Z.mod_pos_bound x y Hy). unfold in64 in *. lia. Qed.

(** The operand of a division of width [w]. *)
Definition div_operand (w : Z) (sg : bool) (x : Z) : Z :=
  if w =? 32 then if sg then uint 64 (sint 32 (uint 32 x)) else uint 32 x else x.

Definition div_instr (sg : bool) (quotient : bool) : binop :=
  match sg, quotient with true, true => DivS | true, false => RemS | false, true => DivU | false, false => RemU end.
Definition div_fun (sg : bool) (quotient : bool) : Z -> Z -> Z :=
  match sg, quotient with true, true => Z.quot | true, false => Z.rem | false, true => Z.div | false, false => Z.modulo end.

Lemma sint_operand w x : word_size w -> in64 x -> sint 64 (div_operand w true x) = sint w x.
Proof.
  intros [-> | ->] Hx; cbn; [|done]. rewrite sint_uint_le, sint_wider, sint_uint_le by lia. done.
Qed.

Lemma uint_operand w x : word_size w -> in64 x -> div_operand w false x = uint w x.
Proof. intros [-> | ->] Hx; cbn; [done|]. by rewrite uint_small. Qed.

Lemma bin_div w (sg q : bool) x y :
  word_size w -> in64 x -> in64 y -> div_defined w sg x y ->
  bin_sem 64 (div_instr sg q) (div_operand w sg x) (div_operand w sg y) =
    Some (uint 64 (div_value w sg (div_fun sg q) x y)).
Proof.
  intros Hw Hx Hy Hd. unfold div_defined, div_value in *. destruct sg.
  - unfold sdiv_ok in Hd. rewrite andb_true_iff, !negb_true_iff, Z.eqb_neq, andb_false_iff, !Z.eqb_neq in Hd.
    destruct Hd as [H0 Ho]. pose proof (sint_operand w x Hw Hx). pose proof (sint_operand w y Hw Hy). destruct q.
    + apply bin_divs; [done.. |]. intros [Ha Hb]. destruct Hw as [-> | ->]; [|by destruct Ho].
      pose proof (sint_range 32 x ltac:(lia)) as Hr. cbn in Hr. lia.
    + by apply bin_rems.
  - rewrite !uint_operand by done. pose proof (uint_range w x). pose proof (uint_range w y).
    assert (in64 (uint w x) /\ in64 (uint w y)) as [? ?] by (split; apply in64_uint; destruct Hw; lia).
    assert (0 < uint w y) by (destruct Hw; lia).
    destruct q; [rewrite bin_divu by lia | rewrite bin_remu by lia]; rewrite (uint_small 64); try done.
    + by apply in64_div.
    + by apply in64_mod.
Qed.

Lemma wasm_div o w (sg q : bool) tm m d a b :
  word_size w ->
  emit_instruction o (args_of [d] [a; b] []) = both tm m ->
  (forall (Orc : Oracle) x y, eval_any o [x; y] [] = option_map (pair w)
     (if sg then ev_sdiv w (div_fun sg q) [x; y] else ev_udiv w (div_fun sg q) [x; y])) ->
  AssignCode m d
    (fun g => is_Some (bin_sem 64 (div_instr sg q) (div_operand w sg (g a)) (div_operand w sg (g b))))
    (fun g => default 0 (bin_sem 64 (div_instr sg q) (div_operand w sg (g a)) (div_operand w sg (g b)))) ->
  wasm_implements o [d] [a; b] [].
Proof.
  intros Hw He Hev Hm.
  assert (Hdef : forall g, regs_ok g -> defined o [a; b] [] g ->
    bin_sem 64 (div_instr sg q) (div_operand w sg (g a)) (div_operand w sg (g b)) =
      Some (uint 64 (div_value w sg (div_fun sg q) (g a) (g b))) /\
    value_ok o [g a; g b] [] (div_value w sg (div_fun sg q) (g a) (g b))).
  { intros g Hg Hd. destruct (defined_div o w sg (div_fun sg q) a b g) as [Hd' Hv]; [destruct Hw; lia | auto | done |].
    split; [|done]. apply bin_div; (done || apply Hg). }
  eapply (wasm_one _ _ _ _ _ _ _ He).
  - intros e. destruct (Hm e) as (t & E & c & Hp & Hf & G & R). exists t. split; [done|]. exists c.
    split_and!; [done.. |]. intros fuel g l mm Hg Hd. apply R; [done|]. destruct (Hdef g Hg Hd) as [-> _]. eauto.
  - intros g Hg Hd. cbv beta. destruct (Hdef g Hg Hd) as [-> Hv]. cbn. split; [apply in64_uint; lia|].
    by apply value_ok_uint.
Qed.


Definition division (o : TCGOpcode) : bool :=
  match o with
  | INDEX_op_div_i32 | INDEX_op_div_i64 | INDEX_op_divu_i32 | INDEX_op_divu_i64
  | INDEX_op_rem_i32 | INDEX_op_rem_i64 | INDEX_op_remu_i32 | INDEX_op_remu_i64 => true
  | _ => false
  end.

Lemma bin_and x y : bin_sem 64 And x y = Some (Z.land x y).
Proof. done. Qed.

(** The code of a division, on operands for which the instruction does not
    trap. *)
Ltac div_code :=
  unfold tcg_wasm_out_div_s, tcg_wasm_out_div_u, tcg_wasm_out_rem_s, tcg_wasm_out_rem_u; cbn [args_of nth app];
  assign_code; fold_consts;
  match goal with
  | Hd : is_Some _ |- _ =>
      let Hv := fresh "Hv" in
      destruct Hd as [? Hv]; cbn -[bin_sem] in Hv |- *; repeat (rewrite bin_and; cbn -[bin_sem]);
      fold_consts; rewrite ?land_u32, Hv
  end; cbn; eexists; (split; reflexivity).

Lemma wasm_divisions o d a b :
  division o = true -> is_reg d = true -> is_reg a = true -> is_reg b = true ->
  wasm_implements o [d] [a; b] [].
Proof.
  intros Ho Hd Ha Hb.
  destruct o; try discriminate Ho; clear Ho;
    [ eapply (wasm_div _ 32 true true) | eapply (wasm_div _ 32 false true)
    | eapply (wasm_div _ 32 true false) | eapply (wasm_div _ 32 false false)
    | eapply (wasm_div _ 64 true true) | eapply (wasm_div _ 64 false true)
    | eapply (wasm_div _ 64 true false) | eapply (wasm_div _ 64 false false) ];
    first [by left | by right | reflexivity | idtac].
  all: try solve [ intros Orc x y; unfold eval_any; cbn [eval_i32 eval_i64];
                   by (destruct (ev_sdiv _ _ _) || destruct (ev_udiv _ _ _)) ].
  all: div_code.
Qed.

End Ops.
