(* ===== verification/WasmOps2.v ===== *)
(** * The generated WebAssembly implements the pure ops, continued

    Extensions, conditions, fields, byte swaps and double words, and the
    summary for every pure op outside [wasm_wrong]. *)

From Stdlib Require Import ZArith Lia Bool.
From stdpp Require Import base numbers functions list option.
From S2P Require Import Prelude.
From S2P Require Import Bytes.
From S2P Require Import Bitops.
From S2P Require Import BitCount.
From S2P Require Import TcgCond.
From S2P Require Import TcgOpc.
From S2P Require Import TcgCtx.
From S2P Require Import TcgSem.
From S2P Require Import RegSpec.
From S2P Require Import TciCode.
From S2P Require Import TciOut.
From S2P Require Import TciExec.
From S2P Require Import TciOk.
From S2P Require Import Wasm.
From S2P Require Import WasmSem.
From S2P Require Import WasmOut.
From S2P Require Import WasmOk.
From S2P Require Import WasmCtl.
From S2P Require Import TcgOut.
From S2P Require Import TciOps.
From S2P Require Import WasmOps.

Local Open Scope Z_scope.

(** The ops whose generated code is wrong on some registers: [ctpop] reads
    the wrong operands, [sub2] does not validate, and the others let the high
    halves of 32-bit inputs reach the result. *)
Definition wasm_wrong (o : TCGOpcode) : bool :=
  match o with
  | INDEX_op_ctpop_i32 | INDEX_op_ctpop_i64 | INDEX_op_sub2_i32 | INDEX_op_sub2_i64
  | INDEX_op_add2_i32 | INDEX_op_mulu2_i32 | INDEX_op_muls2_i32 | INDEX_op_clz_i32 | INDEX_op_ctz_i32
  | INDEX_op_extract_i32 | INDEX_op_sextract_i32 => true
  | _ => false
  end.

Section Ops.
Context `{H : WasmHost} `{L : TlbLayout}.

(** ** Ops of two registers *)

Ltac unfold_unary :=
  cbv beta; unfold tcg_wasm_out_not, tcg_wasm_out_neg, tcg_wasm_out_ext8s, tcg_wasm_out_ext8u,
    tcg_wasm_out_ext16s, tcg_wasm_out_ext16u, tcg_wasm_out_exts_i32_i64, tcg_wasm_out_extu_i32_i64,
    tcg_wasm_out_ext32s, tcg_wasm_out_ext32u, tcg_wasm_out_extrl_i64_i32; cbn [args_of nth app].

Lemma wasm_unary o d a :
  shape_of o = Some SUnary -> misaddressed o = false -> is_reg d = true -> is_reg a = true ->
  wasm_implements o [d] [a] [].
Proof.
  intros Ho Hm Hd Ha. destruct o; try discriminate Ho; try discriminate Hm; clear Ho Hm;
    (eapply wasm_one; [reflexivity | unfold_unary; assign_code; cbn; eexists; (split; reflexivity) | wasm_value]).
  all: lazymatch goal with |- uint ?w ?x = uint ?w ?y => change (eqm w x y) end;
    rewrite ?(eqm_uint_le 32 64), ?eqm_uint by lia; apply eqm_eq; unfold Z.lnot; lia.
Qed.

(** ** Counting zeros *)

Lemma in64_clz w x : 0 <= w <= 64 -> in64 (clz_w w x).
Proof.
  intros Hw. unfold clz_w. destruct (Z.eqb_spec (uint w x) 0); [unfold in64; lia|]. unfold builtin_clz.
  pose proof (uint_range w x ltac:(lia)). pose proof (Z.log2_nonneg (uint w x)).
  assert (Z.log2 (uint w x) < w) by (apply Z.log2_lt_pow2; lia). unfold in64. lia.
Qed.

Lemma in64_ctz w x : 0 <= w <= 64 -> in64 (ctz_w w x).
Proof.
  intros Hw. destruct (decide (uint w x = 0)) as [E|E].
  - rewrite ctz_w_zero by done. unfold in64. lia.
  - destruct (ctz_w_spec w x ltac:(lia) E) as (? & _). unfold in64. lia.
Qed.

Lemma wasm_clz64 d a b :
  is_reg d = true -> is_reg a = true -> is_reg b = true -> wasm_implements INDEX_op_clz_i64 [d] [a; b] [].
Proof.
  intros Hd Ha Hb. eapply (wasm_one _ _ _ _ _ _ (fun g => if g a =? 0 then g b else clz64 (g a))); [reflexivity | |].
  - cbn [args_of nth app]. unfold tcg_wasm_out_clz64. assign_code. cbn. unfold clz64.
    rewrite (reg_uint g a) by done. destruct (g a =? 0) eqn:E; cbn; eexists; (split; reflexivity).
  - intros g Hg _. split; [apply in64_if; [apply Hg | by apply (in64_clz 64)] | value].
Qed.

Lemma wasm_ctz64 d a b :
  is_reg d = true -> is_reg a = true -> is_reg b = true -> wasm_implements INDEX_op_ctz_i64 [d] [a; b] [].
Proof.
  intros Hd Ha Hb. eapply (wasm_one _ _ _ _ _ _ (fun g => if g a =? 0 then g b else ctz64 (g a))); [reflexivity | |].
  - cbn [args_of nth app]. unfold tcg_wasm_out_ctz64. assign_code. cbn. unfold ctz64.
    rewrite (reg_uint g a) by done. destruct (g a =? 0) eqn:E; cbn; eexists; (split; reflexivity).
  - intros g Hg _. split; [apply in64_if; [apply Hg | by apply (in64_ctz 64)] | value].
Qed.

(** ** Conditions *)

(** The comparison instruction decides the condition. *)
Lemma rel_cond w c x y :
  0 < w -> compare_cond c = true ->
  rel_sem w (cond_relop c) (uint w x) (uint w y) = cond_holds w c x y.
Proof.
  intros Hw Hc. pose proof (cond_holds_eval w c x y ltac:(lia) Hc) as He.
  assert (Some (rel_sem w (cond_relop c) (uint w x) (uint w y)) = cond_eval w c x y) as Heq; [|congruence].
  clear He. pattern c. apply compare_cond_cases; try done;
    cbv [cond_eval cond_relop rel_sem]; z_compute; rewrite ?sint_uint_le by lia; reflexivity.
Qed.

Lemma wasm_setcond o d a b c :
  shape_of o = Some SSetcond -> is_reg d = true -> is_reg a = true -> is_reg b = true -> compare_cond c = true ->
  wasm_implements o [d] [a; b] [c].
Proof.
  intros Ho Hd Ha Hb Hc. destruct o; try discriminate Ho.
  - eapply (wasm_one _ _ _ _ _ _ (fun g => b2z (cond_holds 32 c (g a) (g b)))); [reflexivity | |].
    + cbn [args_of nth app]. unfold tcg_wasm_out_setcond_i32. assign_code.
      cbn -[rel_sem]. rewrite rel_cond by (done || lia). eexists; (split; reflexivity).
    + intros g Hg _. split; [apply in64_b2z|]. eapply value_i32; [|reflexivity]. cbn.
      by rewrite cond_holds_eval by (done || lia).
  - eapply (wasm_one _ _ _ _ _ _ (fun g => b2z (cond_holds 64 c (g a) (g b)))); [reflexivity | |].
    + cbn [args_of nth app]. unfold tcg_wasm_out_setcond_i64. assign_code.
      cbn -[rel_sem]. rewrite <- (reg_uint g a), <- (reg_uint g b), rel_cond by (done || lia).
      rewrite !(fun r => reg_uint g r Hg). eexists; (split; reflexivity).
    + intros g Hg _. split; [apply in64_b2z|]. eapply value_i64; [reflexivity | | reflexivity]. cbn.
      by rewrite cond_holds_eval by (done || lia).
Qed.

Lemma wasm_movcond o d a b x y c :
  shape_of o = Some SMovcond -> forallb is_reg [d; a; b; x; y] = true -> compare_cond c = true ->
  wasm_implements o [d] [a; b; x; y] [c].
Proof.
  intros Ho Hr Hc. cbn in Hr. rewrite !andb_true_iff in Hr. destruct Hr as (Hd & Ha & Hb & Hx & Hy & _).
  destruct o; try discriminate Ho.
  - eapply (wasm_one _ _ _ _ _ _ (fun g => if cond_holds 32 c (g a) (g b) then g x else g y)); [reflexivity | |].
    + cbn [args_of nth app]. unfold tcg_wasm_out_movcond_i32. assign_code.
      cbn -[rel_sem]. rewrite rel_cond by (done || lia).
      destruct (cond_holds 32 c (g a) (g b)); cbn; eexists; (split; reflexivity).
    + intros g Hg _. split; [apply in64_if; apply Hg|]. eapply value_i32; [|reflexivity]. cbn.
      by rewrite cond_holds_eval by (done || lia).
  - eapply (wasm_one _ _ _ _ _ _ (fun g => if cond_holds 64 c (g a) (g b) then g x else g y)); [reflexivity | |].
    + cbn [args_of nth app]. unfold tcg_wasm_out_movcond_i64. assign_code.
      cbn -[rel_sem]. rewrite <- (reg_uint g a), <- (reg_uint g b), rel_cond by (done || lia).
      rewrite !(fun r => reg_uint g r Hg).
      destruct (cond_holds 64 c (g a) (g b)); cbn; eexists; (split; reflexivity).
    + intros g Hg _. split; [apply in64_if; apply Hg|]. eapply value_i64; [reflexivity | | reflexivity]. cbn.
      by rewrite cond_holds_eval by (done || lia).
Qed.

(** ** Fields *)

Lemma ones_shift l : Z.shiftl 1 l - 1 = Z.ones l.
Proof. unfold Z.ones. lia. Qed.

(** The masks of the generated code select the field. *)
Lemma deposit_masks w x y p l :
  0 < w -> 0 <= p < w -> 0 < l < w -> p + l <= w ->
  Z.lor (Z.land (uint w x) (uint w (sint w (Z.lnot (sint w (Z.shiftl (Z.shiftl 1 l - 1) p))))))
    (Z.land (uint w (Z.shiftl (uint w y) p)) (uint w (sint w (sint w (Z.shiftl (Z.shiftl 1 l - 1) p))))) =
  deposit_w w x p l y.
Proof.
  intros Hw Hp Hl Hpl. rewrite ones_shift. rewrite !uint_sint by lia.
  assert (uint w (Z.lnot (sint w (Z.shiftl (Z.ones l) p))) = uint w (Z.lnot (Z.shiftl (Z.ones l) p))) as -> by wmod.
  apply Z.bits_inj'; intros i Hi. repeat (progress autorewrite with zbits).
  split_cmp; repeat (progress autorewrite with zbits); split_cmp; close_bits.
Qed.

Lemma const_shift w p : word_size w -> 0 <= p < w -> uint w (sint w p) mod w = p.
Proof.
  intros Hw Hp. rewrite uint_sint, uint_mod_word by (done || (destruct Hw; lia)). by apply Z.mod_small.
Qed.

Lemma in64_deposit w x p l y : field_ok w p l = true -> 0 < w <= 64 -> in64 (deposit_w w x p l y).
Proof.
  intros Hf Hw. pose proof (deposit_w_range w x p l y). pose proof (Z.pow_le_mono_r 2 w 64).
  unfold field_ok in Hf. rewrite !andb_true_iff in Hf. unfold in64. lia.
Qed.

Lemma wasm_deposit o w d a b p l :
  shape_of o = Some (SDeposit w) ->
  is_reg d = true -> is_reg a = true -> is_reg b = true -> proper_field w p l = true ->
  wasm_implements o [d] [a; b] [p; l].
Proof.
  intros Ho Hd Ha Hb Hf. apply proper_field_spec in Hf as (Hok & Hp & Hl).
  assert (Hpl : p + l <= w) by (unfold field_ok in Hok; rewrite !andb_true_iff in Hok; lia).
  destruct o; try discriminate Ho; injection Ho as <-.
  - eapply (wasm_one _ _ _ _ _ _ (fun g => deposit_w 32 (g a) p l (g b))); [reflexivity | |].
    + cbn [args_of nth app]. unfold tcg_wasm_out_deposit_i32. assign_code. cbn.
      rewrite const_shift, deposit_masks by (by left || lia). eexists; (split; reflexivity).
    + intros g Hg _. split; [by apply in64_deposit|]. eapply value_i32; [|reflexivity]. cbn. by rewrite Hok.
  - eapply (wasm_one _ _ _ _ _ _ (fun g => deposit_w 64 (g a) p l (g b))); [reflexivity | |].
    + cbn [args_of nth app]. unfold tcg_wasm_out_deposit_i64. assign_code. cbn.
      rewrite <- (reg_uint g a), <- (reg_uint g b) by done.
      rewrite const_shift, deposit_masks by (by right || lia).
      rewrite !(fun r => reg_uint g r Hg). eexists; (split; reflexivity).
    + intros g Hg _. split; [by apply in64_deposit|]. eapply value_i64; [reflexivity | | reflexivity]. cbn. by rewrite Hok.
Qed.

(** The two shifts of an extraction from 64 bits. *)
Lemma extract_shifts x p l :
  in64 x -> 0 <= p -> 0 < l -> p + l <= 64 -> l < 64 ->
  Z.shiftr (uint 64 (Z.shiftl x (64 - l - p))) (64 - l) = extract_w 64 x p l.
Proof.
  intros Hx Hp Hl Hpl Hl'. apply Z.bits_inj'; intros i Hi. repeat (progress autorewrite with zbits).
  split_cmp; repeat (progress autorewrite with zbits); split_cmp; close_bits.
Qed.

Lemma sextract_shifts x p l :
  in64 x -> 0 <= p -> 0 < l -> p + l <= 64 -> l < 64 ->
  uint 64 (Z.shiftr (sint 64 (uint 64 (Z.shiftl x (64 - l - p)))) (64 - l)) = uint 64 (sextract_w 64 x p l).
Proof.
  intros Hx Hp Hl Hpl Hl'. zbits.
Qed.

Lemma wasm_extract64 (o : TCGOpcode) d a p l :
  o = INDEX_op_extract_i64 \/ o = INDEX_op_sextract_i64 ->
  is_reg d = true -> is_reg a = true -> proper_field 64 p l = true ->
  wasm_implements o [d] [a] [p; l].
Proof.
  intros Ho Hd Ha Hf. apply proper_field_spec in Hf as (Hok & Hp & Hl).
  assert (Hpl : p + l <= 64) by (unfold field_ok in Hok; rewrite !andb_true_iff in Hok; lia).
  destruct Ho as [-> | ->].
  - eapply (wasm_one _ _ _ _ _ _ (fun g => extract_w 64 (g a) p l)); [reflexivity | |].
    + cbn [args_of nth app]. unfold tcg_wasm_out_extract. destruct (Z.ltb_spec 0 (64 - l - p)); assign_code; cbn;
        rewrite !const_shift by (by right || lia); rewrite <- extract_shifts by (apply Hg || lia).
      * eexists; (split; reflexivity).
      * replace (64 - l - p) with 0 by lia. rewrite Z.shiftl_0_r, (reg_uint g a) by done.
        eexists; (split; reflexivity).
    + intros g Hg _. split; [|eapply value_i64; [reflexivity | | reflexivity]; cbn; by rewrite Hok].
      rewrite <- extract_shifts by (apply Hg || lia). apply in64_shiftr; [apply in64_uint; lia | lia].
  - eapply (wasm_one _ _ _ _ _ _ (fun g => uint 64 (sextract_w 64 (g a) p l))); [reflexivity | |].
    + cbn [args_of nth app]. unfold tcg_wasm_out_extract. destruct (Z.ltb_spec 0 (64 - l - p)); assign_code; cbn;
        rewrite !const_shift by (by right || lia); rewrite <- sextract_shifts by (apply Hg || lia).
      * eexists; (split; reflexivity).
      * replace (64 - l - p) with 0 by lia. rewrite Z.shiftl_0_r, (reg_uint g a) by done.
        eexists; (split; reflexivity).
    + intros g Hg _. split; [apply in64_uint; lia|]. apply value_ok_uint.
      eapply value_i64; [reflexivity | | reflexivity]. cbn. by rewrite Hok.
Qed.

(** ** Byte swaps *)

(** Runs code that uses locals. *)
Ltac run_locals :=
  autorewrite with wasm_run; eexists; (split; [reflexivity|]);
  rewrite ?fn_lookup_insert_ne by done; reflexivity.

(** The value of a chain of shifts and masks of register [x]. *)
Ltac swap_value x :=
  unfold total_bin; cbn [bin_sem]; fold_consts; unfold ror; z_compute; unfold_bswap;
  bit_permutation x.

(** [m] assigns to [d] the low [n] bits of [v]. *)
Definition AssignsLow (m : W unit) (d n : Z) (v : regfile -> Z) : Prop :=
  exists x, AssignCode m d (fun _ => True) x /\
    forall g, regs_ok g -> in64 (x g) /\ uint n (x g) = uint n (v g).

Lemma AssignsLow_le m d n n' v : 0 <= n <= n' -> AssignsLow m d n' v -> AssignsLow m d n v.
Proof.
  intros Hn (x & Hc & Hx). exists x. split; [done|]. intros g Hg. destruct (Hx g Hg) as [? E]. split; [done|].
  by apply (uint_eq_le n').
Qed.

Ltac swap_code a :=
  eexists; split; [assign_code; run_locals|];
  intros g Hg; cbv beta; (split; [unfold total_bin; cbn [bin_sem]; fold_consts; z_compute; in64 | swap_value (g a)]).

Lemma bswap64_code d a f :
  is_reg d = true -> is_reg a = true -> AssignsLow (tcg_wasm_out_bswap64 d a f) d 64 (fun g => bswap64 (g a)).
Proof. intros Hd Ha. unfold AssignsLow, tcg_wasm_out_bswap64. swap_code a. Qed.

(** The result is extended with zeros. *)
Lemma bswap32_code d a f :
  is_reg d = true -> is_reg a = true -> AssignsLow (tcg_wasm_out_bswap32 d a f) d 64 (fun g => bswap32 (g a)).
Proof. intros Hd Ha. unfold AssignsLow, tcg_wasm_out_bswap32. swap_code a. Qed.

Lemma bswap16_code d a f :
  is_reg d = true -> is_reg a = true ->
  AssignsLow (tcg_wasm_out_bswap16 d a f) d (if flag f TCG_BSWAP_OS then 16 else 64) (fun g => bswap16 (g a)).
Proof.
  intros Hd Ha. unfold AssignsLow, tcg_wasm_out_bswap16. destruct (flag f TCG_BSWAP_OS); swap_code a.
Qed.

Lemma ext16s_code ty d a :
  ty = TCG_TYPE_I32 \/ ty = TCG_TYPE_I64 -> is_reg d = true -> is_reg a = true ->
  AssignCode (tcg_wasm_out_ext16s ty d a) d (fun _ => True) (fun g => uint 64 (sint 16 (g a))).
Proof.
  intros Hty Hd Ha. destruct Hty as [-> | ->]; unfold tcg_wasm_out_ext16s; assign_code; cbn; eexists; (split; reflexivity).
Qed.

Lemma ext32s_code d a :
  is_reg d = true -> is_reg a = true ->
  AssignCode (tcg_wasm_out_ext32s d a) d (fun _ => True) (fun g => uint 64 (sint 32 (uint 32 (g a)))).
Proof. intros Hd Ha. unfold tcg_wasm_out_ext32s; assign_code; cbn; eexists; (split; reflexivity). Qed.

(** The extension after a swap: from [n] bits, in all the bits of a word. *)
Definition Extends (m : W unit) (d n : Z) : Prop :=
  exists x, AssignCode m d (fun _ => True) x /\
    forall g, regs_ok g -> in64 (x g) /\ uint 64 (x g) = uint 64 (sint n (g d)).

Lemma ext16s_extends ty d :
  ty = TCG_TYPE_I32 \/ ty = TCG_TYPE_I64 -> is_reg d = true -> Extends (tcg_wasm_out_ext16s ty d d) d 16.
Proof.
  intros Hty Hd. eexists. split; [by apply ext16s_code|]. intros g Hg.
  split; [apply in64_uint; lia | by rewrite uint_uint by lia].
Qed.

Lemma ext32s_extends d : is_reg d = true -> Extends (tcg_wasm_out_ext32s d d) d 32.
Proof.
  intros Hd. eexists. split; [by apply ext32s_code|]. intros g Hg.
  split; [apply in64_uint; lia | by rewrite uint_uint, sint_uint_le by lia].
Qed.

Lemma Compiles_ret : Compiles (wasm_ret tt) (fun _ => True) (fun st st' => st' = st).
Proof.
  intros e. exists [], e. split; [apply EmitsAt_ret|]. split; [by split|].
  intros fuel st Hs He Hg _. exists st. by split_and!.
Qed.

Lemma wasm_bswap o x w n swap d a f swap_code :
  0 < n <= w -> w <= 64 -> (x = None -> n = w) ->
  (forall t, wasm_half (emit_instruction o (args_of [d] [a] [f])) t =
    wasm_bind swap_code (fun _ =>
      match x with
      | Some m => if flag f TCG_BSWAP_OS then m else wasm_ret tt
      | None => wasm_ret tt
      end)) ->
  AssignsLow swap_code d (if flag f TCG_BSWAP_OS then n else 64) (fun g => swap (g a)) ->
  match x with Some m => Extends m d n | None => True end ->
  (forall (Orc : Oracle) y, eval_any o [y] [f] = option_map (pair w) (ev_bswap w o n swap [y] [f])) ->
  wasm_implements o [d] [a] [f].
Proof.
  intros Hn Hw Hnone He (v & Hc & Hv) Hx Hev t. rewrite He. clear He.
  assert (Hval : forall g, defined o [a] [f] g ->
    eval_any (Orc := zero_junk) o [g a] [f] = Some (w, [swapped n swap f (g a)])).
  { intros g Hg. apply bswap_value; (done || lia). }
  apply AssignCode_compiles in Hc; [|intros g Hg _; by apply Hv].
  destruct (match x with Some _ => flag f TCG_BSWAP_OS | None => false end) eqn:E.
  - destruct x as [m|]; [|done]. rewrite E in *. destruct Hx as (v' & Hc' & Hv').
    apply AssignCode_compiles in Hc'; [|intros g Hg _; by apply Hv'].
    eapply Compiles_weaken; [eapply Compiles_seq; [exact Hc | exact Hc' | done] | done |].
    intros st st' Hg Hd ([s1 g1 l1 m1] & [Hm1 Hg1] & Hm2 & ->). cbn in *. subst. split; [done|].
    exists zero_junk, w, [swapped n swap f (globals st a)]. split; [by apply Hval|]. apply writes_over; [lia|].
    unfold swapped. rewrite E. apply (uint_eq_le 64); [lia|].
    destruct (Hv' (wr (globals st) d (v (globals st)))) as [_ ->]; [by apply wr_ok|]. f_equal.
    rewrite wr_same, sint_uint_le by lia. apply sint_eqm. by apply Hv.
  - eapply Compiles_weaken.
    + eapply (Compiles_seq _ _ _ _ (fun _ => True)); [exact Hc | | done].
      destruct x; [rewrite E|]; apply Compiles_ret.
    + done.
    + intros st st' Hg Hd (st1 & [Hm1 Hg1] & ->). rewrite Hm1, Hg1. split; [done|].
      exists zero_junk, w, [swapped n swap f (globals st a)]. split; [by apply Hval|]. apply writes_one; [lia|].
      destruct (Hv _ Hg) as [_ Heq]. unfold swapped. destruct x; [rewrite E in *; by apply (uint_eq_le 64); [lia|]|].
      destruct (flag f TCG_BSWAP_OS); [|by apply (uint_eq_le 64); [lia|]].
      rewrite (Hnone eq_refl) in *. by rewrite uint_sint by lia.
Qed.

Lemma wasm_bswap_op o d a f :
  shape_of o = Some SBswap -> is_reg d = true -> is_reg a = true -> wasm_implements o [d] [a] [f].
Proof.
  intros Ho Hd Ha. destruct o; try discriminate Ho; clear Ho.
  - eapply (wasm_bswap _ (Some (tcg_wasm_out_ext16s TCG_TYPE_I32 d d)) 32 16 bswap16); [lia | lia | done | reflexivity | by apply bswap16_code | |].
    + apply ext16s_extends; [by left | done].
    + by intros Orc y.
  - eapply (wasm_bswap _ None 32 32 bswap32); [lia | lia | done | reflexivity | | done | by intros Orc y].
    apply (AssignsLow_le _ _ _ 64); [by destruct (flag _ _) | by apply bswap32_code].
  - eapply (wasm_bswap _ (Some (tcg_wasm_out_ext16s TCG_TYPE_I64 d d)) 64 16 bswap16); [lia | lia | done | reflexivity | by apply bswap16_code | |].
    + apply ext16s_extends; [by right | done].
    + by intros Orc y.
  - eapply (wasm_bswap _ (Some (tcg_wasm_out_ext32s d d)) 64 32 bswap32); [lia | lia | done | reflexivity | | |].
    + apply (AssignsLow_le _ _ _ 64); [by destruct (flag _ _) | by apply bswap32_code].
    + by apply ext32s_extends.
    + by intros Orc y.
  - eapply (wasm_bswap _ None 64 64 bswap64); [lia | lia | done | reflexivity | | done | by intros Orc y].
    apply (AssignsLow_le _ _ _ 64); [by destruct (flag _ _) | by apply bswap64_code].
Qed.

(** ** Addition of double words *)

(** Code that assigns to two registers. *)
Lemma compiles_two m d d' (lo hi : regfile -> Z) :
  (forall e, exists t, EmitsAt m e t (after_set d' (after_set d e)) /\
    exists c, parse t = Some c /\ flatten c = t /\ good_code c /\
      executes c (fun _ => True) (fun g : Z -> Z => <[d' := hi g]> (<[d := lo g]> g))) ->
  (forall g, regs_ok g -> in64 (lo g) /\ in64 (hi g)) ->
  Compiles m (fun _ => True)
    (fun st st' => wmem st' = wmem st /\
       globals st' = wr (wr (globals st) d (lo (globals st))) d' (hi (globals st))).
Proof.
  intros Hm Hv. apply Compiles_intro. intros e. destruct (Hm e) as (t & E & c & Hp & Hf & G & R).
  exists t, (after_set d' (after_set d e)). split; [done|]. exists c. split_and!; [done.. |].
  intros fuel [s g l mm] Hs He Hg _. cbn in Hs, Hg. subst s. destruct (Hv g Hg).
  destruct (R fuel g l mm Hg I) as (l' & -> & Hl). eexists. split; [reflexivity|].
  cbn. rewrite !insert_wr by auto. split; [done|]. split; [|split; [by repeat apply wr_ok | done]].
  intros Hr. cbn. rewrite Hl. unfold after_set in Hr.
  destruct (Z.eqb_spec d' TCG_REG_R14), (Z.eqb_spec d TCG_REG_R14); try done.
  rewrite !wr_other by done. by apply He.
Qed.

Definition add2_lo (al bl : Z) (g : regfile) : Z := uint 64 (g al + g bl).
Definition add2_hi (al ah bl bh x : Z) (g : regfile) : Z :=
  uint 64 (uint 64 (g ah + g bh) + uint 64 (sint 32 (b2z (add2_lo al bl g <? g x)))).

Lemma add2_code l h al ah bl bh e :
  is_reg l = true -> is_reg h = true -> is_reg al = true -> is_reg ah = true -> is_reg bl = true ->
  is_reg bh = true ->
  exists t, EmitsAt (tcg_wasm_out_add2 l h al ah bl bh) e t (after_set h (after_set l e)) /\
    exists c, parse t = Some c /\ flatten c = t /\ good_code c /\
      executes c (fun _ => True) (fun g : Z -> Z =>
        <[h := add2_hi al ah bl bh (if (al =? l) && negb (bl =? l) then bl else al) g]> (<[l := add2_lo al bl g]> g)).
Proof.
  intros Hl Hh Hal Hah Hbl Hbh. unfold tcg_wasm_out_add2.
  destruct (Z.eqb_spec al l) as [-> | Ha], (Z.eqb_spec bl l) as [-> | Hb]; cbn [andb negb];
    eexists; (split; [emit|]); parse_code; (split; [good_code |]); intros fuel g lo m Hg _;
    autorewrite with wasm_run; eexists;
    (split; [ rewrite ?fn_lookup_insert, ?fn_lookup_insert_ne by congruence; unfold total_bin;
              cbn [bin_sem rel_sem]; reflexivity
            | rewrite ?fn_lookup_insert_ne by done; reflexivity ]).
Qed.

Lemma carry_sym w x y : 0 <= w -> 0 <= x < 2 ^ w -> 0 <= y < 2 ^ w ->
  (uint w (x + y) <? x) = (uint w (x + y) <? y).
Proof.
  intros Hw Hx Hy. pose proof (shift_add2 w x 0 y 0 Hw Hx Hy) as E. pose proof (shift_add2 w y 0 x 0 Hw Hy Hx) as E'.
  rewrite (Z.add_comm y x) in E'. replace (0 * 2 ^ w + y + (0 * 2 ^ w + x)) with (0 * 2 ^ w + x + (0 * 2 ^ w + y)) in E' by ring.
  rewrite E in E'. by destruct (_ <? x), (_ <? y).
Qed.

Lemma wasm_add2_i64 l h al ah bl bh :
  forallb is_reg [l; h; al; ah; bl; bh] = true -> l <> h ->
  wasm_implements INDEX_op_add2_i64 [l; h] [al; ah; bl; bh] [].
Proof.
  intros Hr Hlh t. cbn [forallb] in Hr. rewrite !andb_true_iff in Hr. destruct Hr as (Hl & Hh & Hal & Hah & Hbl & Hbh & _).
  eapply Compiles_weaken.
  - apply (compiles_two _ l h (add2_lo al bl)); [intros e; by apply add2_code|].
    intros g Hg. split; apply in64_uint; lia.
  - done.
  - intros st st' Hg _ [Hm ->]. split; [done|]. set (g := globals st) in *.
    eapply implements_i64; [reflexivity | reflexivity |]. cbn [fmap list_fmap].
    rewrite !(fun r => reg_uint g r Hg). apply writes_two; [lia | done | |].
    + unfold add2_lo. rewrite !uint_uint by lia. apply (eqm_intro _ _ _ (- g ah - g bh)); [lia | ring].
    + rewrite shift_add2 by (apply Hg || lia). unfold add2_hi, add2_lo.
      assert (E : forall b, uint 64 (sint 32 (b2z b)) = b2z b) by by intros [].
      rewrite E, uint_uint by lia. unfold uint at 1 2. rewrite Zplus_mod_idemp_l.
      cbn [args_of nth app]. destruct (_ && _); [|done]. by rewrite (carry_sym 64) by (apply Hg || lia).
  Unshelve. all: exact zero_junk.
Qed.

(** ** Every pure op *)

Lemma wasm_binary o d a b :
  shape_of o = Some SBinary -> wasm_wrong o = false -> is_reg d = true -> is_reg a = true -> is_reg b = true ->
  wasm_implements o [d] [a; b] [].
Proof.
  intros Hs Hw Hd Ha Hb. destruct (straight o) eqn:E; [by apply wasm_straight|].
  destruct (division o) eqn:E'; [by apply wasm_divisions|].
  destruct o; try discriminate; [by apply wasm_clz64 | by apply wasm_ctz64].
Qed.

Lemma wasm_pure_op o sh outs ins cargs :
  shape_of o = Some sh -> wasm_wrong o = false -> operands_ok sh outs ins cargs ->
  wasm_implements o outs ins cargs.
Proof.
  intros Hs Hw Hops. destruct Hops.
  - apply wasm_unary; [done | by destruct o | done..].
  - by apply wasm_binary.
  - by apply wasm_setcond.
  - by apply wasm_movcond.
  - by eapply wasm_deposit.
  - destruct o; try discriminate; injection Hs as <-; apply wasm_extract64; auto.
  - by apply wasm_bswap_op.
  - destruct o; try discriminate. by apply wasm_add2_i64.
  - by destruct o.
Qed.

End Ops.
