(* ===== verification/TcgOutOk.v ===== *)
(** * Which ops each engine implements

    The summary of [TciOps] and [WasmOps]: the interpreter implements every
    pure op but ctpop, the generated WebAssembly every pure op outside
    [wasm_wrong], and no other.  The failures are shown on concrete registers,
    by running what the backend writes. *)

From Stdlib Require Import ZArith Lia Bool.
From stdpp Require Import base numbers functions list option relations.
From S2P Require Import Prelude.
From S2P Require Import Bytes.
From S2P Require Import Bitops.
From S2P Require Import BitCount.
From S2P Require Import TcgCond.
From S2P Require Import TcgOpc.
From S2P Require Import TcgCtx.
From S2P Require Import TcgSem.
From S2P Require Import RegSpec.
From S2P Require Import TciCode.
From S2P Require Import TciOut.
From S2P Require Import TciExec.
From S2P Require Import TciOk.
From S2P Require Import Wasm.
From S2P Require Import WasmSem.
From S2P Require Import WasmOut.
From S2P Require Import WasmOk.
From S2P Require Import WasmCtl.
From S2P Require Import TcgOut.
From S2P Require Import Samples.
From S2P Require Import TciOps.
From S2P Require Import WasmOps.
From S2P Require Import WasmOps2.

Local Open Scope Z_scope.

Section Exact.
Context `{H : TciHost} `{WH : WasmHost} `{L : TlbLayout}.

(** ** Running what is written for one op *)

(** The code that a fresh buffer receives, as the engine reads it. *)
Definition wasm_op_code (o : TCGOpcode) (outs ins cargs : list Z) : option (list code) :=
  match wasm_half (emit_instruction o (args_of outs ins cargs)) sample_tci sample_wasm with
  | Some (_, s) => read_code (sub_buf s)
  | None => None
  end.

Lemma wasm_op_code_ok o outs ins cargs c :
  wasm_implements o outs ins cargs -> wasm_op_code o outs ins cargs = Some c ->
  good_code c /\ forall g, regs_ok g -> defined o ins cargs g ->
    exists st, run 1 c (sample_wst g) = WNext st /\ implements o outs ins cargs g (globals st).
Proof.
  intros Hi Hc. unfold wasm_op_code in Hc. destruct (Hi sample_tci false) as (c' & e' & E & G & R).
  rewrite (E sample_wasm) in Hc by done. unfold append in Hc. destruct (_ <=? _); [|done].
  change (read_code (code_bytes (flatten c')) = Some c) in Hc. destruct G as (Gt & Gi & Gc). rewrite read_code_bytes in Hc by done. injection Hc as <-.
  split; [done|]. intros g Hg Hd.
  destruct (R 1%nat (sample_wst g)) as (st & Hr & _ & _ & _ & _ & Him); [done..|]. eauto.
Qed.

(** The outputs after the code has run. *)
Definition wasm_outputs (o : TCGOpcode) (outs ins cargs : list Z) (g : regfile) : option (list Z) :=
  match wasm_op_code o outs ins cargs with
  | Some c => match run 1 c (sample_wst g) with WNext st => Some (globals st <$> outs) | _ => None end
  | None => None
  end.

Lemma writes_outputs w outs vs g g' : writes w outs vs g g' -> uint w <$> (g' <$> outs) = uint w <$> vs.
Proof. intros (Ho & _). induction Ho; cbn; [done | by f_equal]. Qed.

Lemma wasm_refute o outs ins cargs g w vs xs :
  regs_ok g -> (forall Orc : Oracle, eval_any o (g <$> ins) cargs = Some (w, vs)) ->
  wasm_outputs o outs ins cargs g = Some xs -> uint w <$> xs <> uint w <$> vs ->
  ~ wasm_implements o outs ins cargs.
Proof.
  intros Hg He Hx Hne Hi. unfold wasm_outputs in Hx. destruct (wasm_op_code o outs ins cargs) as [c|] eqn:Hc; [|done].
  destruct (wasm_op_code_ok _ _ _ _ _ Hi Hc) as [_ R].
  destruct (R g Hg) as (st & Hr & Orc & w' & vs' & He' & Hw); [unfold defined; by rewrite He|].
  rewrite Hr in Hx. injection Hx as <-. rewrite He in He'. injection He' as <- <-.
  by apply Hne, (writes_outputs w outs vs g).
Qed.

Lemma wasm_refute_type o outs ins cargs c :
  wasm_op_code o outs ins cargs = Some c ->
  check (tb_ctx (fun _ => None)) [] c ([], false) = None -> ~ wasm_implements o outs ins cargs.
Proof.
  intros Hc Hn Hi. destruct (wasm_op_code_ok _ _ _ _ _ Hi Hc) as [(_ & _ & G) _]. by rewrite G in Hn.
Qed.

Lemma sample_regs_ok l : Forall in64 l -> regs_ok (sample_regs l).
Proof.
  intros Hl r. unfold sample_regs. destruct (r <? 0); [done|]. generalize (Z.to_nat r) as n.
  induction Hl as [|x l Hx Hl IH]; intros [|n]; cbn; [done..| exact Hx | apply IH].
Qed.

(** Registers that show a failure, with the code evaluated. *)
Ltac refute l :=
  eapply (wasm_refute _ _ _ _ (sample_regs l));
  [ apply sample_regs_ok; repeat (constructor; [split; [lia | reflexivity] |]); constructor
  | intros; cbv; reflexivity
  | vm_compute; reflexivity
  | vm_compute; discriminate ].

Lemma extract_i32_wrong : ~ wasm_implements INDEX_op_extract_i32 [1] [2] [8; 8].
Proof. refute [0; 0; 0x12345678]. Qed.

Lemma sextract_i32_wrong : ~ wasm_implements INDEX_op_sextract_i32 [1] [2] [8; 8].
Proof. refute [0; 0; 0x12345678]. Qed.
Lemma clz_i32_wrong : ~ wasm_implements INDEX_op_clz_i32 [1] [2; 3] [].
Proof. refute [0; 0; 0x100000000; 7]. Qed.
Lemma ctz_i32_wrong : ~ wasm_implements INDEX_op_ctz_i32 [1] [2; 3] [].
Proof. refute [0; 0; 0x100000000; 7]. Qed.
Lemma add2_i32_wrong : ~ wasm_implements INDEX_op_add2_i32 [1; 2] [3; 4; 5; 6] [].
Proof. refute [0; 0; 0; 0xffffffff; 0; 1; 0]. Qed.
Lemma mulu2_i32_wrong : ~ wasm_implements INDEX_op_mulu2_i32 [1; 2] [3; 4] [].
Proof. refute [0; 0; 0; 0x100000001; 1]. Qed.
Lemma muls2_i32_wrong : ~ wasm_implements INDEX_op_muls2_i32 [1; 2] [3; 4] [].
Proof. refute [0; 0; 0; 0xffffffff; 1]. Qed.
Lemma ctpop_i64_wrong : ~ wasm_implements INDEX_op_ctpop_i64 [1] [2] [].
Proof. refute [0; 0; 1]. Qed.
Lemma ctpop_i32_wrong : ~ wasm_implements INDEX_op_ctpop_i32 [1] [2] [].
Proof. eapply wasm_refute_type; vm_compute; reflexivity. Qed.
Lemma sub2_i32_wrong : ~ wasm_implements INDEX_op_sub2_i32 [1; 2] [3; 4; 5; 6] [].
Proof. eapply wasm_refute_type; vm_compute; reflexivity. Qed.
Lemma sub2_i64_wrong : ~ wasm_implements INDEX_op_sub2_i64 [1; 2] [3; 4; 5; 6] [].
Proof. eapply wasm_refute_type; vm_compute; reflexivity. Qed.

(** ** The interpreter and ctpop *)

(** A word after which the interpreter stops. *)
Lemma one_step env s s1 s' :
  tci_step env s = TNext s1 -> (forall s2, tci_step env s1 <> TNext s2) ->
  tci_steps env s s' -> tb_ptr s' <> tb_ptr s -> s' = s1.
Proof.
  intros H1 H2 Hs Hne. destruct Hs as [| x y z Hxy Hs]; [done|]. rewrite H1 in Hxy. injection Hxy as <-.
  destruct Hs as [|x' y' z' Hx' _]; [done|]. by destruct (H2 _ Hx').
Qed.

Lemma tci_refute env o outs ins cargs g t' s1 w vs :
  regs_ok g -> (forall Orc : Oracle, eval_any o (g <$> ins) cargs = Some (w, vs)) ->
  tci_half (emit_instruction o (args_of outs ins cargs)) sample_tci = EDone (tt, t') ->
  tci_step env (sample_tst g (omem t')) = TNext s1 -> (forall s2, tci_step env s1 <> TNext s2) ->
  code_ptr t' <> 0x1000 -> uint w <$> (tregs s1 <$> outs) <> uint w <$> vs ->
  ~ tci_implements env o outs ins cargs.
Proof.
  intros Hg Hv He Hs1 Hs2 Hp Hne (k & Hk & Hk0 & Hr).
  destruct (Hr sample_tci) as (t & Ht & _ & R); [done | cbn; lia|]. rewrite He in Ht. injection Ht as <-.
  destruct (R (sample_tst g (omem t'))) as (g' & (Orc & w' & vs' & He' & Hw) & Hsteps);
    [done | done | split; [done | unfold defined; by rewrite Hv] |].
  apply (one_step _ _ _ _ Hs1 Hs2) in Hsteps; [|done]. rewrite <- Hsteps in Hne. apply Hne.
  rewrite Hv in He'. injection He' as <- <-. by eapply writes_outputs.
Qed.

Ltac refute_tci l :=
  eapply (tci_refute _ _ _ _ _ (sample_regs l));
  [ apply sample_regs_ok; repeat (constructor; [split; [lia | reflexivity] |]); constructor
  | intros; cbv; reflexivity
  | reflexivity
  | vm_compute; reflexivity
  | vm_compute; discriminate.. ].

Lemma tci_ctpop_i32_wrong env : ~ tci_implements env INDEX_op_ctpop_i32 [1] [2] [].
Proof. refute_tci [0; 0; 1]. Qed.
Lemma tci_ctpop_i64_wrong env : ~ tci_implements env INDEX_op_ctpop_i64 [1] [2] [].
Proof. refute_tci [0; 0; 1]. Qed.

(** ** The exact sets *)

Lemma wasm_wrong_fails o sh :
  shape_of o = Some sh -> wasm_wrong o = true ->
  exists outs ins cargs, operands_ok sh outs ins cargs /\ ~ wasm_implements o outs ins cargs.
Proof.
  intros Hs Hw. destruct o; try discriminate Hw; injection Hs as <-; do 3 eexists.
  all: lazymatch goal with |- _ /\ ~ wasm_implements ?o _ _ _ =>
         lazymatch o with
         | INDEX_op_extract_i32 => refine (conj _ extract_i32_wrong)
         | INDEX_op_sextract_i32 => refine (conj _ sextract_i32_wrong)
         | INDEX_op_clz_i32 => refine (conj _ clz_i32_wrong)
         | INDEX_op_ctz_i32 => refine (conj _ ctz_i32_wrong)
         | INDEX_op_add2_i32 => refine (conj _ add2_i32_wrong)
         | INDEX_op_mulu2_i32 => refine (conj _ mulu2_i32_wrong)
         | INDEX_op_muls2_i32 => refine (conj _ muls2_i32_wrong)
         | INDEX_op_ctpop_i32 => refine (conj _ ctpop_i32_wrong)
         | INDEX_op_ctpop_i64 => refine (conj _ ctpop_i64_wrong)
         | INDEX_op_sub2_i32 => refine (conj _ sub2_i32_wrong)
         | INDEX_op_sub2_i64 => refine (conj _ sub2_i64_wrong)
         end
       end.
  all: by constructor.
Qed.

Lemma tci_misaddressed_fails env o sh :
  shape_of o = Some sh -> misaddressed o = true ->
  exists outs ins cargs, operands_ok sh outs ins cargs /\ ~ tci_implements env o outs ins cargs.
Proof.
  intros Hs Hm. destruct o; try discriminate Hm; injection Hs as <-; do 3 eexists.
  all: lazymatch goal with |- _ /\ ~ tci_implements _ ?o _ _ _ =>
         lazymatch o with
         | INDEX_op_ctpop_i32 => refine (conj _ (tci_ctpop_i32_wrong env))
         | INDEX_op_ctpop_i64 => refine (conj _ (tci_ctpop_i64_wrong env))
         end
       end.
  all: by constructor.
Qed.

(** C4: The bytecode of a pure op makes the interpreter compute what the op
    means, on every register file on which the op is defined and for every
    choice of registers and constants that the allocator can pass; this holds
    for an opcode exactly when it is not ctpop, whose emission passes the
    wrong operands. *)
Theorem interpreter_implements_exactly env o sh :
  shape_of o = Some sh ->
  (forall outs ins cargs, operands_ok sh outs ins cargs -> tci_implements env o outs ins cargs) <->
  misaddressed o = false.
Proof.
  intros Hs. split.
  - intros Hi. destruct (misaddressed o) eqn:E; [|done].
    destruct (tci_misaddressed_fails env o sh Hs E) as (outs & ins & cargs & Ho & Hn). by destruct (Hn (Hi _ _ _ Ho)).
  - intros Hm outs ins cargs Ho. by apply tci_pure_op with sh.
Qed.

(** C3: The WebAssembly of a pure op validates, runs without a trap and
    computes what the op means, under the same conditions; this holds for an
    opcode exactly when it is not one of the eleven of [wasm_wrong]. *)
Theorem wasm_implements_exactly o sh :
  shape_of o = Some sh ->
  (forall outs ins cargs, operands_ok sh outs ins cargs -> wasm_implements o outs ins cargs) <->
  wasm_wrong o = false.
Proof.
  intros Hs. split.
  - intros Hi. destruct (wasm_wrong o) eqn:E; [|done].
    destruct (wasm_wrong_fails o sh Hs E) as (outs & ins & cargs & Ho & Hn). by destruct (Hn (Hi _ _ _ Ho)).
  - intros Hw outs ins cargs Ho. by apply wasm_pure_op with sh.
Qed.

End Exact.

Lemma interpreter_implements_exactly_witness :
  tci_implements (H := sample_host) (L := sample_tlb) 0x100 INDEX_op_rotl_i32 [3] [1; 2] [].
Proof.
  apply (interpreter_implements_exactly (H := sample_host) (L := sample_tlb) 0x100 INDEX_op_rotl_i32 SBinary eq_refl);
    [reflexivity | by constructor].
Defined.

Lemma wasm_implements_exactly_witness :
  wasm_implements (H := sample_engine) (L := sample_tlb) INDEX_op_bswap64_i64 [3] [1] [0].
Proof.
  apply (wasm_implements_exactly (WH := sample_engine) (L := sample_tlb) INDEX_op_bswap64_i64 SBswap eq_refl);
    [reflexivity | by constructor].
Defined.
