(* ===== verification/TcgBlock.v ===== *)
(** * Straight-line blocks: the two engines agree

    A list of instructions after register allocation, pure ops and the moves
    that the allocator inserts.  [block_sem] is its meaning on registers, in
    which the upper half of a 32-bit result is open.  Both emissions implement
    it, and on blocks that do not read open bits ([typed]) the interpreter and
    the generated WebAssembly end with the same values. *)

From Stdlib Require Import ZArith Lia Bool.
From stdpp Require Import base numbers functions list option relations.
From S2P Require Import Prelude.
From S2P Require Import Bytes.
From S2P Require Import Bitops.
From S2P Require Import BitCount.
From S2P Require Import TcgCond.
From S2P Require Import TcgOpc.
From S2P Require Import TcgCtx.
From S2P Require Import TcgSem.
From S2P Require Import RegSpec.
From S2P Require Import TciCode.
From S2P Require Import TciOut.
From S2P Require Import TciExec.
From S2P Require Import TciOk.
From S2P Require Import Wasm.
From S2P Require Import WasmSem.
From S2P Require Import WasmOut.
From S2P Require Import WasmOk.
From S2P Require Import WasmCtl.
From S2P Require Import TcgOut.
From S2P Require Import Samples.
From S2P Require Import TciOps.
From S2P Require Import WasmOps.
From S2P Require Import WasmOps2.

Local Open Scope Z_scope.

(** ** Values depend on the low bits of the inputs *)

Definition i32_op (o : TCGOpcode) : bool :=
  match o with
  | INDEX_op_not_i32 | INDEX_op_neg_i32 | INDEX_op_ext8s_i32 | INDEX_op_ext8u_i32
  | INDEX_op_ext16s_i32 | INDEX_op_ext16u_i32 | INDEX_op_ctpop_i32 | INDEX_op_add_i32
  | INDEX_op_sub_i32 | INDEX_op_mul_i32 | INDEX_op_and_i32 | INDEX_op_or_i32
  | INDEX_op_xor_i32 | INDEX_op_andc_i32 | INDEX_op_orc_i32 | INDEX_op_eqv_i32
  | INDEX_op_nand_i32 | INDEX_op_nor_i32 | INDEX_op_shl_i32 | INDEX_op_shr_i32
  | INDEX_op_sar_i32 | INDEX_op_rotl_i32 | INDEX_op_rotr_i32 | INDEX_op_div_i32
  | INDEX_op_divu_i32 | INDEX_op_rem_i32 | INDEX_op_remu_i32 | INDEX_op_clz_i32
  | INDEX_op_ctz_i32 | INDEX_op_setcond_i32 | INDEX_op_movcond_i32 | INDEX_op_deposit_i32
  | INDEX_op_extract_i32 | INDEX_op_sextract_i32 | INDEX_op_bswap16_i32 | INDEX_op_bswap32_i32
  | INDEX_op_add2_i32 | INDEX_op_sub2_i32 | INDEX_op_mulu2_i32 | INDEX_op_muls2_i32
  | INDEX_op_mov_i32 => true
  | _ => false
  end.

(** The widths at which an op reads its inputs and defines its outputs. *)
Definition in_width (o : TCGOpcode) : Z :=
  match o with
  | INDEX_op_ext_i32_i64 | INDEX_op_extu_i32_i64 => 32
  | _ => if i32_op o then 32 else 64
  end.
Definition out_width (o : TCGOpcode) : Z :=
  match o with
  | INDEX_op_extrl_i64_i32 => 32
  | _ => if i32_op o then 32 else 64
  end.

(** The ops whose result has open bits below its width. *)
Definition open_bits (o : TCGOpcode) (cargs : list Z) : bool :=
  match o, cargs with
  | (INDEX_op_bswap16_i32 | INDEX_op_bswap16_i64 | INDEX_op_bswap32_i64), [f] =>
      negb (flag f TCG_BSWAP_OS) && negb (flag f TCG_BSWAP_OZ)
  | _, _ => false
  end.

Definition moves (o : TCGOpcode) : bool :=
  match o with INDEX_op_mov_i32 | INDEX_op_mov_i64 => true | _ => false end.

(** Results of the same width that agree on it. *)
Definition same_result (w : Z) (r r' : option (Z * list Z)) : Prop :=
  match r, r' with
  | Some (v, l), Some (v', l') => v = w /\ v' = w /\ Forall2 (eqm w) l l'
  | None, None => True
  | _, _ => False
  end.

Lemma cond_eval_eqm w c x y x' y' :
  eqm w x x' -> eqm w y y' -> cond_eval w c x y = cond_eval w c x' y'.
Proof.
  intros Hx Hy. unfold cond_eval. rewrite (sint_eqm w x x' Hx), (sint_eqm w y y' Hy). unfold eqm in *.
  by rewrite Hx, Hy.
Qed.

Lemma bswap_flags_eqm w n swap x x' f j j' :
  0 <= n <= w -> (forall x, swap (uint n x) = swap x) -> eqm w x x' ->
  n = w \/ flag f TCG_BSWAP_OS = true \/ flag f TCG_BSWAP_OZ = true ->
  match bswap_flags w n swap x f j, bswap_flags w n swap x' f j' with
  | Some v, Some v' => eqm w v v'
  | None, None => True
  | _, _ => False
  end.
Proof.
  intros Hn Hs Hx Hf. assert (Hlow : uint n x = uint n x') by by apply (uint_eq_le w).
  assert (E : swap x = swap x') by (rewrite <- (Hs x), <- (Hs x'); by rewrite Hlow).
  unfold bswap_flags. rewrite Hx, Hlow, E. destruct (_ && _); [done|].
  destruct (flag f TCG_BSWAP_OS); [done|]. destruct (flag f TCG_BSWAP_OZ); [done|].
  destruct Hf as [-> | [? | ?]]; [|done..]. apply (eqm_intro _ _ _ (j - j')); [lia | ring].
Qed.

(** *** The combinators *)

Definition same_outs (w : Z) (r r' : option (list Z)) : Prop :=
  match r, r' with
  | Some l, Some l' => Forall2 (eqm w) l l'
  | None, None => True
  | _, _ => False
  end.

Lemma same_outs_refl w r : same_outs w r r.
Proof. destruct r; [|done]. cbn. by induction l; constructor. Qed.

Lemma same_i32 r r' : same_outs 32 r r' ->
  same_result 32 (match r with Some vs => Some (32, vs) | None => None end)
                 (match r' with Some vs => Some (32, vs) | None => None end).
Proof. by destruct r, r'. Qed.

Lemma same_i64 r r' : same_outs 64 r r' ->
  same_result 64 (option_map (pair 64) r) (option_map (pair 64) r').
Proof. by destruct r, r'. Qed.

(** Inputs that agree are equal once they are read at their width. *)
Ltac read_inputs :=
  unfold eval_any; cbn [eval_i32 eval_i64 in_width out_width i32_op] in *;
  unfold ev1, ev2, ev_sdiv, ev_udiv, ev_cond, ev_movcond, ev_deposit, ev_extract, ev_sextract,
    ev_add2, extract_w, sextract_w, deposit_w;
  repeat match goal with
  | H : eqm ?w ?x ?y |- context [sint ?w ?x] => rewrite (sint_eqm w x y H)
  | H : eqm ?w ?x ?y |- context [uint ?w ?x] => rewrite (H : uint w x = uint w y)
  end.

Lemma same_one w r r' : eqm w r r' -> same_result w (Some (w, [r])) (Some (w, [r'])).
Proof. intros. split_and!; [done..|]. by repeat constructor. Qed.

Lemma same_result_refl w v : (forall u l, v = Some (u, l) -> u = w) -> same_result w v v.
Proof.
  destruct v as [[u l]|]; [|done]. intros E. rewrite (E u l eq_refl). split_and!; [done..|].
  by induction l; constructor.
Qed.

Ltac same_reads :=
  read_inputs; apply same_result_refl; intros ? ?;
  repeat match goal with |- context [if ?c then _ else _] => destruct c end; by intros [= <- _].

Lemma eval_unary_same (Orc Orc' : Oracle) o x x' :
  shape_of o = Some SUnary -> eqm (in_width o) x x' ->
  same_result (out_width o) (eval_any (Orc := Orc) o [x] []) (eval_any (Orc := Orc') o [x'] []).
Proof. intros Hs Hx. destruct o; try discriminate Hs; clear Hs; same_reads. Qed.

Lemma eval_binary_same (Orc Orc' : Oracle) o x y x' y' :
  shape_of o = Some SBinary -> eqm (in_width o) x x' -> eqm (in_width o) y y' ->
  same_result (out_width o) (eval_any (Orc := Orc) o [x; y] []) (eval_any (Orc := Orc') o [x'; y'] []).
Proof. intros Hs Hx Hy. destruct o; try discriminate Hs; clear Hs; same_reads. Qed.

Lemma eval_setcond_same (Orc Orc' : Oracle) o x y x' y' c :
  shape_of o = Some SSetcond -> eqm (in_width o) x x' -> eqm (in_width o) y y' ->
  same_result (out_width o) (eval_any (Orc := Orc) o [x; y] [c]) (eval_any (Orc := Orc') o [x'; y'] [c]).
Proof.
  intros Hs Hx Hy. destruct o; try discriminate Hs; clear Hs; read_inputs;
    rewrite (cond_eval_eqm _ c x y x' y') by done; (destruct (cond_eval _ _ _ _); [|done]); by apply same_one.
Qed.

Lemma eval_movcond_same (Orc Orc' : Oracle) o x y a b x' y' a' b' c :
  shape_of o = Some SMovcond -> eqm (in_width o) x x' -> eqm (in_width o) y y' ->
  eqm (in_width o) a a' -> eqm (in_width o) b b' ->
  same_result (out_width o) (eval_any (Orc := Orc) o [x; y; a; b] [c])
                            (eval_any (Orc := Orc') o [x'; y'; a'; b'] [c]).
Proof.
  intros Hs Hx Hy Ha Hb. destruct o; try discriminate Hs; clear Hs; read_inputs;
    rewrite (cond_eval_eqm _ c x y x' y') by done; (destruct (cond_eval _ _ _ _) as [[]|]; [| |done]);
    by apply same_one.
Qed.

Lemma eval_field_same (Orc Orc' : Oracle) o w x x' p l :
  shape_of o = Some (SExtract w) -> eqm (in_width o) x x' ->
  same_result (out_width o) (eval_any (Orc := Orc) o [x] [p; l]) (eval_any (Orc := Orc') o [x'] [p; l]).
Proof. intros Hs Hx. destruct o; try discriminate Hs; clear Hs; same_reads. Qed.

Lemma eval_deposit_same (Orc Orc' : Oracle) o w x x' y y' p l :
  shape_of o = Some (SDeposit w) -> eqm (in_width o) x x' -> eqm (in_width o) y y' ->
  same_result (out_width o) (eval_any (Orc := Orc) o [x; y] [p; l]) (eval_any (Orc := Orc') o [x'; y'] [p; l]).
Proof. intros Hs Hx Hy. destruct o; try discriminate Hs; clear Hs; same_reads. Qed.

Lemma eval_add2_same (Orc Orc' : Oracle) o a b c d a' b' c' d' :
  shape_of o = Some SAdd2 -> eqm (in_width o) a a' -> eqm (in_width o) b b' ->
  eqm (in_width o) c c' -> eqm (in_width o) d d' ->
  same_result (out_width o) (eval_any (Orc := Orc) o [a; b; c; d] []) (eval_any (Orc := Orc') o [a'; b'; c'; d'] []).
Proof. intros Hs Ha Hb Hc Hd. destruct o; try discriminate Hs; clear Hs; same_reads. Qed.

Lemma eval_mul2_same (Orc Orc' : Oracle) o x y x' y' :
  shape_of o = Some SMul2 -> eqm (in_width o) x x' -> eqm (in_width o) y y' ->
  same_result (out_width o) (eval_any (Orc := Orc) o [x; y] []) (eval_any (Orc := Orc') o [x'; y'] []).
Proof. intros Hs Hx Hy. destruct o; try discriminate Hs; clear Hs; same_reads. Qed.

Lemma eval_bswap_same (Orc Orc' : Oracle) o x x' f :
  shape_of o = Some SBswap -> open_bits o [f] = false -> eqm (in_width o) x x' ->
  same_result (out_width o) (eval_any (Orc := Orc) o [x] [f]) (eval_any (Orc := Orc') o [x'] [f]).
Proof.
  assert (H16 : forall x, bswap16 (uint 16 x) = bswap16 x) by (intros; unfold bswap16; by rewrite uint_uint by lia).
  assert (H32 : forall x, bswap32 (uint 32 x) = bswap32 x) by (intros; unfold bswap32; by rewrite uint_uint by lia).
  assert (H64 : forall x, bswap64 (uint 64 x) = bswap64 x) by (intros; unfold bswap64; by rewrite uint_uint by lia).
  intros Hs Hb Hx. destruct o; try discriminate Hs; clear Hs; read_inputs; unfold ev_bswap; cbn [open_bits] in Hb;
    lazymatch goal with
    | |- context [bswap_flags ?w ?n ?s x f ?j] =>
        lazymatch goal with
        | |- context [bswap_flags w n s x' f ?j'] =>
            assert (Hf : n = w \/ flag f TCG_BSWAP_OS = true \/ flag f TCG_BSWAP_OZ = true)
              by (first [by left | right; destruct (flag f TCG_BSWAP_OS), (flag f TCG_BSWAP_OZ);
                          first [discriminate Hb | by left | by right]]);
            pose proof (bswap_flags_eqm w n s x x' f j j' ltac:(lia) ltac:(assumption) Hx Hf) as E
        end
    end;
    destruct (bswap_flags _ _ _ x f _), (bswap_flags _ _ _ x' f _); try done; by apply same_one.
Qed.

Lemma eval_same (Orc Orc' : Oracle) o sh outs ins cargs (g h : regfile) :
  shape_of o = Some sh -> operands_ok sh outs ins cargs -> open_bits o cargs = false ->
  (forall r, r ∈ ins -> eqm (in_width o) (g r) (h r)) ->
  same_result (out_width o) (eval_any (Orc := Orc) o (g <$> ins) cargs) (eval_any (Orc := Orc') o (h <$> ins) cargs).
Proof.
  intros Hs Ho Hb Hl. destruct Ho; cbn [fmap list_fmap];
    [ apply eval_unary_same | apply eval_binary_same | apply eval_setcond_same | apply eval_movcond_same
    | eapply eval_deposit_same | eapply eval_field_same | apply eval_bswap_same | apply eval_add2_same
    | apply eval_mul2_same ]; eauto; apply Hl; repeat constructor.
Qed.

(** ** Blocks *)

Inductive insn : Type :=
| IOp (o : TCGOpcode) (outs ins cargs : list Z)
| IMov (ty : TCGType) (ret arg : Z)
| IMovi (ty : TCGType) (ret v : Z).

Definition ty_width (ty : TCGType) : option Z :=
  match ty with TCG_TYPE_I32 => Some 32 | TCG_TYPE_I64 => Some 64 | _ => None end.

Lemma ty_width_range ty w : ty_width ty = Some w -> 0 <= w <= 64.
Proof. destruct ty; intros [= <-]; lia. Qed.

(** Which bits of the registers are known, before and after. *)
Definition widths : Type := Z -> Z.

Definition set_widths (outs : list Z) (w : Z) (W : widths) : widths :=
  fun r => if decide (r ∈ outs) then w else W r.

Definition insn_outs (i : insn) : list Z :=
  match i with IOp _ outs _ _ => outs | IMov _ ret _ | IMovi _ ret _ => [ret] end.

Definition insn_width (i : insn) : Z :=
  match i with
  | IOp o _ _ _ => out_width o
  | IMov ty _ _ | IMovi ty _ _ => default 0 (ty_width ty)
  end.

(** Instructions of the supported kinds that read known bits. *)
Definition reads_known (W : widths) (i : insn) : Prop :=
  match i with
  | IOp o outs ins cargs =>
      (exists sh, shape_of o = Some sh /\ operands_ok sh outs ins cargs) /\
      wasm_wrong o = false /\ open_bits o cargs = false /\ (forall r, r ∈ ins -> in_width o <= W r)
  | IMov ty ret arg =>
      exists w, ty_width ty = Some w /\ is_reg ret = true /\ is_reg arg = true /\ w <= W arg
  | IMovi ty ret v => is_Some (ty_width ty) /\ is_reg ret = true /\ - 2 ^ 19 <= v < 2 ^ 19
  end.

Fixpoint typed (W : widths) (l : list insn) (W' : widths) : Prop :=
  match l with
  | [] => W' = W
  | i :: l => reads_known W i /\ typed (set_widths (insn_outs i) (insn_width i) W) l W'
  end.

(** *** Meaning *)

Definition insn_eval {Orc : Oracle} (i : insn) (g : regfile) : option (Z * list Z) :=
  match i with
  | IOp o _ ins cargs => eval_any o (g <$> ins) cargs
  | IMov ty _ arg => option_map (fun w => (w, [g arg])) (ty_width ty)
  | IMovi ty _ v => option_map (fun w => (w, [v])) (ty_width ty)
  end.

Definition insn_defined (i : insn) (g : regfile) : Prop := insn_eval (Orc := zero_junk) i g <> None.

Definition insn_sem (i : insn) (g g' : regfile) : Prop :=
  exists (Orc : Oracle) w vs, insn_eval i g = Some (w, vs) /\ writes w (insn_outs i) vs g g'.

Fixpoint block_sem (l : list insn) (g g' : regfile) : Prop :=
  match l with
  | [] => g' = g
  | i :: l => exists g1, insn_sem i g g1 /\ block_sem l g1 g'
  end.

(** No op of the block is undefined, whatever its open bits. *)
Fixpoint safe (l : list insn) (g : regfile) : Prop :=
  match l with
  | [] => True
  | i :: l => insn_defined i g /\ forall g1, insn_sem i g g1 -> safe l g1
  end.

(** The registers agree on the known bits. *)
Definition agree (W : widths) (g h : regfile) : Prop := forall r, eqm (W r) (g r) (h r).

(** *** Emission *)

Section Block.
Context `{TH : TciHost} `{WH : WasmHost} `{L : TlbLayout}.

Definition insn_emission (i : insn) : emission :=
  match i with
  | IOp o outs ins cargs => emit_instruction o (args_of outs ins cargs)
  | IMov ty ret arg => tcg_out_mov ty ret arg
  | IMovi ty ret v => tcg_out_movi ty ret v
  end.

Fixpoint emit_block (l : list insn) (s : out_state) : emitted out_state :=
  match l with
  | [] => EDone s
  | i :: l =>
      match emit (insn_emission i) s with
      | EDone s' => emit_block l s'
      | r => r
      end
  end.

(** The two halves of a block, one after the other. *)
Fixpoint tci_block_code (l : list insn) : Tci unit :=
  match l with
  | [] => tci_ret tt
  | i :: l => tci_bind (tci_half (insn_emission i)) (fun _ => tci_block_code l)
  end.

Fixpoint wasm_block_code (l : list insn) (t : tci_out) : W unit :=
  match l with
  | [] => wasm_ret tt
  | i :: l => wasm_bind (wasm_half (insn_emission i) t) (fun _ => wasm_block_code l t)
  end.

Lemma small_imm v : - 2 ^ 19 <= v < 2 ^ 19 ->
  sint 32 v = v /\ sint 64 v = v /\ (v =? sextract_w 32 v 0 20) = true.
Proof.
  intros Hv. rewrite !sint_small by lia. split_and!; [done..|]. apply Z.eqb_eq.
  rewrite <- (sint_small 20 v) at 1 by lia. unfold sextract_w. zbits.
Qed.

Lemma Runs_small_movi env ty w ret v :
  ty_width ty = Some w -> is_reg ret = true -> - 2 ^ 19 <= v < 2 ^ 19 ->
  Runs env 1 (tcg_tci_out_movi ty ret v) (fun _ => True) (fun g g' => g' = wr g ret v).
Proof.
  intros Hty Hr Hv. destruct (small_imm v Hv) as (E32 & E64 & Ei).
  destruct ty; try discriminate Hty; unfold tcg_tci_out_movi; rewrite ?E32, ?E64, Ei; by apply Runs_movi.
Qed.

Lemma tci_insn env W i :
  reads_known W i ->
  exists k, k <= 2 /\ Runs env k (tci_half (insn_emission i)) (fun g => regs_ok g /\ insn_defined i g) (insn_sem i).
Proof.
  destruct i as [o outs ins cargs | ty ret arg | ty ret v].
  - intros ((sh & Hs & Ho) & Hw & _). apply tci_pure_op with sh; [done | by destruct o | done].
  - intros (w & Hty & Hr & Ha & _). exists 1. split; [lia|]. destruct ty; try discriminate Hty; injection Hty as <-;
      (eapply Runs_weaken; [by eapply Runs_rr; [reflexivity | ..] | done |]);
      intros g g' _ ->; exists zero_junk; do 2 eexists; (split; [reflexivity|]); by apply writes_one.
  - intros ([w Hty] & Hr & Hv). exists 1. split; [lia|]. eapply Runs_weaken; [by eapply Runs_small_movi | done |].
    intros g g' _ ->. exists zero_junk, w, [v]. cbn. rewrite Hty. split; [done|].
    apply writes_one; [by eapply ty_width_range | done].
Qed.

Lemma wasm_mov_code ty w ret arg :
  ty_width ty = Some w -> is_reg ret = true -> is_reg arg = true ->
  AssignCode (tcg_wasm_out_mov ty ret arg) ret (fun _ => True) (fun g => uint w (g arg)).
Proof.
  intros Hty Hr Ha. destruct ty; try discriminate Hty; injection Hty as <-; unfold tcg_wasm_out_mov; assign_code; cbn.
  - eexists; (split; reflexivity).
  - rewrite (reg_uint g arg) by done. eexists; (split; reflexivity).
Qed.

Lemma wasm_movi_code ty w ret v :
  ty_width ty = Some w -> is_reg ret = true -> - 2 ^ 19 <= v < 2 ^ 19 ->
  AssignCode (tcg_wasm_out_movi ty ret v) ret (fun _ => True) (fun g => uint 64 v).
Proof.
  intros Hty Hr Hv. destruct (small_imm v Hv) as (E32 & E64 & _).
  destruct ty; try discriminate Hty; injection Hty as <-; unfold tcg_wasm_out_movi; rewrite ?E32; assign_code; cbn;
    rewrite ?E64; eexists; (split; reflexivity).
Qed.

Lemma wasm_insn W i :
  reads_known W i ->
  forall t, Compiles (wasm_half (insn_emission i) t) (fun st => insn_defined i (globals st))
    (fun st st' => wmem st' = wmem st /\ insn_sem i (globals st) (globals st')).
Proof.
  intros Hi t. destruct i as [o outs ins cargs | ty ret arg | ty ret v].
  - destruct Hi as ((sh & Hs & Ho) & Hw & _). by apply wasm_pure_op with sh.
  - destruct Hi as (w & Hty & Hr & Ha & _). pose proof (ty_width_range _ _ Hty).
    eapply Compiles_weaken; [eapply AssignCode_compiles; [by apply wasm_mov_code |] | done |].
    + intros g Hg _. by apply in64_uint.
    + intros st st' Hg _ [? ->]. split; [done|]. exists zero_junk, w, [globals st arg]. cbn. rewrite Hty.
      split; [done|]. apply writes_one; [done|]. by rewrite uint_uint by lia.
  - destruct Hi as ([w Hty] & Hr & Hv). pose proof (ty_width_range _ _ Hty).
    eapply Compiles_weaken; [eapply AssignCode_compiles; [by eapply wasm_movi_code |] | done |].
    + intros g Hg _. by apply in64_uint.
    + intros st st' Hg _ [? ->]. split; [done|]. exists zero_junk, w, [v]. cbn. rewrite Hty.
      split; [done|]. apply writes_one; [done|]. by rewrite uint_uint_le by lia.
Qed.

(** *** Agreement *)

Lemma insn_same W i g h (Orc Orc' : Oracle) :
  reads_known W i -> agree W g h ->
  same_result (insn_width i) (insn_eval (Orc := Orc) i g) (insn_eval (Orc := Orc') i h).
Proof.
  intros Hi Hg. destruct i as [o outs ins cargs | ty ret arg | ty ret v]; cbn.
  - destruct Hi as ((sh & Hs & Ho) & Hw & Hb & Hr). eapply eval_same; [done.. |].
    intros r Hin. apply (uint_eq_le (W r)); [|apply Hg]. split; [|by apply Hr].
    unfold in_width. destruct o; cbn; lia.
  - destruct Hi as (w & Hty & _ & _ & Hw). rewrite Hty. apply same_one. cbn.
    apply (uint_eq_le (W arg)); [|apply Hg]. apply ty_width_range in Hty. lia.
  - destruct Hi as ([w Hty] & _). rewrite Hty. by apply same_one.
Qed.

Lemma agree_writes W w outs vs ws g h g' h' :
  agree W g h -> Forall2 (eqm w) vs ws -> writes w outs vs g g' -> writes w outs ws h h' ->
  agree (set_widths outs w W) g' h'.
Proof.
  intros Hg Hv (Ho & Hn & _) (Ho' & Hn' & _) r. unfold set_widths. destruct (decide (r ∈ outs)) as [Hr | Hr].
  - clear Hn Hn'. revert ws Hv Ho'. induction Ho as [|r1 v1 outs vs E Ho IH]; intros ws Hv Ho'; [by apply not_elem_of_nil in Hr|].
    inversion Ho' as [|? w1 ? ws' E']; subst. inversion Hv; subst.
    apply elem_of_cons in Hr as [-> | Hr]; [|by eapply IH]. unfold eqm in *. congruence.
  - rewrite Hn, Hn' by done. apply Hg.
Qed.

Lemma agree_insn W i g h g' h' :
  reads_known W i -> agree W g h -> insn_sem i g g' -> insn_sem i h h' ->
  agree (set_widths (insn_outs i) (insn_width i) W) g' h'.
Proof.
  intros Hi Hg (Orc & w & vs & E & Hw) (Orc' & w' & ws & E' & Hw').
  pose proof (insn_same W i g h Orc Orc' Hi Hg) as Hs. rewrite E, E' in Hs. destruct Hs as (-> & -> & Hv).
  by eapply agree_writes.
Qed.

Lemma Forall2_replace {A B} (P Q : A -> B -> Prop) (R : B -> B -> Prop) l k k' :
  (forall x y z, x ∈ l -> P x y -> R z y -> Q x z) -> Forall2 P l k -> Forall2 R k' k -> Forall2 Q l k'.
Proof.
  intros HP Hl. revert k'. induction Hl as [|x y l k Hxy Hl IH]; intros k' Hk; inversion Hk; subst; constructor.
  - eapply HP; [by constructor | done..].
  - apply IH; [|done]. intros x' y' z' Hx. apply HP. by constructor.
Qed.

(** A step of one side exists on the other. *)
Lemma sem_transfer W i g h h' :
  reads_known W i -> agree W g h -> regs_ok h -> insn_sem i h h' -> exists g', insn_sem i g g'.
Proof.
  intros Hi Hg Hh (Orc & w & ws & E & Ho & _ & Hok). specialize (Hok Hh).
  pose proof (insn_same W i g h Orc Orc Hi Hg) as Hs. rewrite E in Hs.
  destruct (insn_eval i g) as [[w' vs]|] eqn:E'; [|done]. destruct Hs as (-> & -> & Hv).
  exists (fun r => if decide (r ∈ insn_outs i) then h' r else g r), Orc, (insn_width i), vs.
  split; [done|]. split; [|split].
  - eapply Forall2_replace; [|exact Ho | exact Hv]. intros r x v Hr Hx Hy. rewrite decide_True by done.
    unfold eqm in Hy. congruence.
  - intros r Hr. by rewrite decide_False.
  - intros Hok' r. destruct (decide _); [apply Hok | apply Hok'].
Qed.

Lemma defined_agree W i g h : reads_known W i -> agree W g h -> insn_defined i g -> insn_defined i h.
Proof.
  intros Hi Hg Hd Hn. apply Hd. pose proof (insn_same W i g h zero_junk zero_junk Hi Hg) as Hs.
  rewrite Hn in Hs. by destruct (insn_eval i g) as [[]|].
Qed.

Lemma sem_ok i g g' : insn_sem i g g' -> regs_ok g -> regs_ok g'.
Proof. intros (Orc & w & vs & _ & _ & _ & Hok). done. Qed.

Lemma safe_agree W l W' g h :
  typed W l W' -> agree W g h -> regs_ok g -> regs_ok h -> safe l g -> safe l h.
Proof.
  revert W g h. induction l as [|i l IH]; intros W g h Ht Hg Hok Hok' Hs; [done|].
  destruct Ht as [Hi Ht]. destruct Hs as [Hd Hs]. split; [by eapply defined_agree|].
  intros h1 Hh1. destruct (sem_transfer W i g h h1 Hi Hg Hok' Hh1) as [g1 Hg1].
  eapply IH; [exact Ht | by eapply agree_insn | by eapply sem_ok | by eapply sem_ok | by apply Hs].
Qed.

Lemma agree_block W l W' g h g' h' :
  typed W l W' -> agree W g h -> block_sem l g g' -> block_sem l h h' -> agree W' g' h'.
Proof.
  revert W g h. induction l as [|i l IH]; intros W g h Ht Hg; cbn.
  - intros -> ->. by rewrite Ht.
  - intros (g1 & Hg1 & Hg') (h1 & Hh1 & Hh'). destruct Ht as [Hi Ht].
    eapply (IH _ g1 h1 Ht); [by eapply agree_insn | done..].
Qed.

(** *** Both emissions of a block *)

Lemma tci_block env W l W' :
  typed W l W' ->
  exists k, k <= 2 * Z.of_nat (length l) /\
    Runs env k (tci_block_code l) (fun g => regs_ok g /\ safe l g) (block_sem l).
Proof.
  revert W. induction l as [|i l IH]; intros W Ht.
  - exists 0. split; [done | apply Runs_ret].
  - destruct Ht as [Hi Ht]. destruct (IH _ Ht) as (k & Hle & Hk).
    destruct (tci_insn env W i Hi) as (k1 & Hle1 & Hk1).
    exists (k1 + k). split; [cbn [length]; lia|]. apply (Runs_weaken _ _ _ _ (fun g => regs_ok g /\ safe (i :: l) g) _ (insn_sem i)) in Hk1;
      [|intros g (? & ? & ?); done | done].
    eapply Runs_seq; [exact Hk1 | exact Hk |]. intros g g1 (Hok & Hd & Hs) Hg1.
    split; [by eapply sem_ok | by apply Hs].
Qed.

Lemma wasm_block W l W' t :
  typed W l W' ->
  Compiles (wasm_block_code l t) (fun st => safe l (globals st))
    (fun st st' => wmem st' = wmem st /\ block_sem l (globals st) (globals st')).
Proof.
  revert W. induction l as [|i l IH]; intros W Ht.
  - eapply Compiles_weaken; [apply Compiles_ret | done |]. intros st st' _ _ ->. done.
  - destruct Ht as [Hi Ht]. pose proof (wasm_insn W i Hi t) as Hc.
    apply (Compiles_weaken _ _ (fun st => safe (i :: l) (globals st)) _ (fun st st' =>
      wmem st' = wmem st /\ insn_sem i (globals st) (globals st'))) in Hc; [|by intros st _ [? ?] | done].
    eapply Compiles_weaken; [eapply Compiles_seq; [exact Hc | exact (IH _ Ht) |] | done |].
    + intros st st1 Hok [Hd Hs] [_ Hg1]. by apply Hs.
    + intros st st' _ _ (st1 & [Hm Hg1] & Hm' & Hg'). split; [congruence | by exists (globals st1)].
Qed.

(** The code of these instructions does not depend on the bytecode. *)
Lemma wasm_half_const W i t t' :
  reads_known W i -> wasm_half (insn_emission i) t = wasm_half (insn_emission i) t'.
Proof.
  destruct i as [o outs ins cargs | ty ret arg | ty ret v]; [|done..].
  intros ((sh & Hs & _) & _). by destruct o.
Qed.

Lemma wasm_block_const W l W' t t' : typed W l W' -> wasm_block_code l t = wasm_block_code l t'.
Proof.
  revert W. induction l as [|i l IH]; intros W Ht; [done|]. destruct Ht as [Hi Ht]. cbn.
  rewrite (wasm_half_const W i t t' Hi). by rewrite (IH _ Ht).
Qed.

(** Emitting instruction by instruction is emitting the halves. *)
Lemma emit_block_halves W l W' s t :
  typed W l W' -> tci_block_code l (tci s) = EDone (tt, t) ->
  emit_block l s =
    match wasm_block_code l t (wasm s) with
    | Some (_, w) => EDone {| tci := t; wasm := w |}
    | None => EAssert
    end.
Proof.
  revert W s. induction l as [|i l IH]; intros W s Ht; cbn.
  - intros [= <-]. by destruct s.
  - destruct Ht as [Hi Ht]. unfold tci_bind, wasm_bind, emit.
    destruct (tci_half (insn_emission i) (tci s)) as [[[] t1]| |] eqn:E; [|done..]. intros Hl.
    rewrite (wasm_half_const W i t1 t Hi).
    destruct (wasm_half (insn_emission i) t (wasm s)) as [[[] w1]|]; [|done].
    by apply (IH _ {| tci := t1; wasm := w1 |} Ht).
Qed.

(** What the agreement of the engines on a block means. *)
Definition block_agreement (env : Z) (W : widths) (l : list insn) (W' : widths) : Prop :=
  exists k, 0 <= k <= 2 * Z.of_nat (length l) /\
  forall s, 0 <= code_ptr (tci s) -> code_ptr (tci s) + 4 * k < 2 ^ 32 -> buffer_ok (wasm s) ->
  exists t c e,
    emit_block l s =
      match append (code_bytes (flatten c)) e (wasm s) with
      | Some (_, w) => EDone {| tci := t; wasm := w |}
      | None => EAssert
      end /\
    code_ptr t = code_ptr (tci s) + 4 * k /\
    read_code (code_bytes (flatten c)) = Some c /\ check (tb_ctx (fun _ => None)) [] c ([], false) = Some ([], false) /\
    forall fuel ts ws,
      tb_ptr ts = code_ptr (tci s) -> code_at (tmem ts) (omem t) (code_ptr (tci s)) (code_ptr t) ->
      stk ws = [] -> env_ok (env_cached (wasm s)) ws ->
      regs_ok (tregs ts) -> regs_ok (globals ws) -> agree W (tregs ts) (globals ws) -> safe l (tregs ts) ->
      exists g ws',
        tci_steps env ts (set_tb_ptr (set_regs ts g) (code_ptr t)) /\
        run fuel c ws = WNext ws' /\ stk ws' = [] /\ wmem ws' = wmem ws /\
        block_sem l (tregs ts) g /\ block_sem l (globals ws) (globals ws') /\
        agree W' g (globals ws').

(** C1: Both ways in which the backend executes code implement every [typed]
    straight-line block, and agree.  A block is a list of pure ops, moves and
    constant loads; [typed] says that no op reads bits that are undefined, that
    no op is one of the eleven that the WebAssembly emission does not implement
    ([wasm_wrong]), and that a constant fits the 20 bits of the bytecode.
    Emission writes [k] words of bytecode, and WebAssembly that fails only when
    the buffer is full; the WebAssembly validates; and from registers that
    agree on the known bits, on which no op is undefined, the interpreter runs
    through the words, the WebAssembly runs to its end without a trap and with
    its memory unchanged, both end in registers that the meaning of the block
    gives, and these agree again on the known bits. *)
Theorem engines_agree_on_blocks env W l W' : typed W l W' -> block_agreement env W l W'.
Proof.
  intros Ht. destruct (tci_block env W l W' Ht) as (k & Hle & Hk & Hr). exists k. split; [done|].
  intros s H0 H32 Hb.
  destruct (Hr (tci s) H0 H32) as (t & Hm & [Et _] & R).
  destruct (wasm_block W l W' t Ht (env_cached (wasm s))) as (c & e & Hc & Hgood & Hrun). exists t, c, e.
  destruct Hgood as (Gt & Gi & Gc). split; [|split; [|split; [by apply read_code_bytes | split; [apply Gc|]]]].
  - rewrite (emit_block_halves W l W' s t Ht Hm). by rewrite (Hc (wasm s) Hb eq_refl).
  - by rewrite Et.
  - intros fuel ts ws Hp Hcode Hs He Hok Hok' Ha Hsafe.
    destruct (R ts Hp Hcode (conj Hok Hsafe)) as (g & Hg & Hsteps).
    destruct (Hrun fuel ws Hs He Hok' (safe_agree W l W' _ _ Ht Ha Hok Hok' Hsafe))
      as (ws' & Hx & Hs' & _ & _ & Hmem & Hg').
    exists g, ws'. split_and!; [done..|]. by eapply agree_block.
Qed.

End Block.

(** A block that adds the two low bits of 5, with a few ops more. *)
Definition sample_block : list insn :=
  [ IMovi TCG_TYPE_I32 1 5; IMovi TCG_TYPE_I32 2 1;
    IOp INDEX_op_and_i32 [3] [1; 2] []; IOp INDEX_op_shr_i32 [1] [1; 2] [];
    IOp INDEX_op_and_i32 [4] [1; 2] []; IOp INDEX_op_add_i32 [3] [3; 4] [];
    IOp INDEX_op_bswap32_i32 [4] [1] [0]; IOp INDEX_op_ext_i32_i64 [5] [3] [];
    IOp INDEX_op_setcond_i64 [6] [5; 5] [TCG_COND_EQ]; IMov TCG_TYPE_I64 7 6 ].

(** Nothing is known at the start. *)
Definition sample_widths : widths := fold_left (fun W i => set_widths (insn_outs i) (insn_width i) W) sample_block (fun _ => 0).

Lemma engines_agree_on_blocks_witness :
  block_agreement (TH := sample_host) (WH := sample_engine) (L := sample_tlb)
    0x100 (fun _ => 0) sample_block sample_widths.
Proof.
  apply (engines_agree_on_blocks (TH := sample_host) (WH := sample_engine) (L := sample_tlb)).
  cbn [typed sample_block].
  repeat match goal with
  | |- _ /\ _ => split
  | |- reads_known _ (IMov _ _ _) => exists 64; by split_and!
  | |- reads_known _ (IMovi _ _ _) => split_and!; [by eexists | done..]
  | |- reads_known _ (IOp _ _ _ _) =>
      split; [eexists; split; [reflexivity | by constructor] |]; split_and!; [reflexivity.. |];
      apply Forall_forall; repeat constructor; vm_compute; discriminate
  end.
  reflexivity.
Defined.
