(* ===== verification/WasmInst.v ===== *)
(** * The instances of generated modules

    tcg/wasm32.c keeps a ring of instantiated modules per thread and a count
    of the live ones that all threads share.  A block runs in the interpreter
    until it is hot; then its module is instantiated, unless too many are
    alive, in which case the older half of the ring is given up and the
    browser collects it some time later.

    - [local] is the state of a thread: the ring, its counters, the words of
      this core in the blocks (where the instance is, how often the block was
      interpreted) and the table of functions of the engine;
    - one definition per function of the file, [None] where it would leave an
      array or exit;
    - [dispatch] is the body of the loop of tcg_qemu_tb_exec up to the call of
      an engine, [sys_step] the interleaving of threads and of the collector.

    The theorems: no thread ever calls a function that is gone or belongs to
    another block; no array is left and no exit taken; the shared count is the
    number of live instances and exceeds its limit by less than the number of
    threads; and the loop runs exactly the blocks that follow one another, each
    by one of the engines, and returns when these come to an end. *)

From Stdlib Require Import ZArith Lia Bool.
From stdpp Require Import base numbers functions list option gmap relations.
From S2P Require Import Prelude.
From S2P Require Import TciExec.

Local Open Scope Z_scope.

Definition MAX_INSTANCE_ALIVE : Z := 15000.
Definition INSTANCE_RUNNING_LEN : Z := MAX_INSTANCE_ALIVE.
Definition TO_REMOVE_INSTANCE_SIZE : Z := 50000.
Definition MAX_EXEC_NUM : Z := 50000.

(** ** State *)

Record instance_info := { tb : Z; fidx : Z }.

(** [export_vec t] is the word of block [t] that points into the ring, by the
    index of the element; [counter_vec t] counts its runs in the interpreter.
    [table] is the engine's table: the block that a function was made of. *)
Record local := {
  instance_running : Z -> instance_info;
  instance_running_begin : Z;
  instance_running_end : Z;
  instance_running_local : Z;
  instance_alive_local : Z;
  instance_garbage_collected_local : Z;
  to_remove_instance : list Z;
  exec_cnt : Z;
  export_vec : Z -> option Z;
  counter_vec : Z -> Z;
  table : gmap Z Z;
}.

Definition set_ring (l : local) (r : Z -> instance_info) (b e n : Z) : local :=
  {| instance_running := r; instance_running_begin := b; instance_running_end := e;
     instance_running_local := n; instance_alive_local := instance_alive_local l;
     instance_garbage_collected_local := instance_garbage_collected_local l;
     to_remove_instance := to_remove_instance l; exec_cnt := exec_cnt l;
     export_vec := export_vec l; counter_vec := counter_vec l; table := table l |}.
Definition set_alive (l : local) (alive collected : Z) : local :=
  {| instance_running := instance_running l; instance_running_begin := instance_running_begin l;
     instance_running_end := instance_running_end l; instance_running_local := instance_running_local l;
     instance_alive_local := alive; instance_garbage_collected_local := collected;
     to_remove_instance := to_remove_instance l; exec_cnt := exec_cnt l;
     export_vec := export_vec l; counter_vec := counter_vec l; table := table l |}.
Definition set_removed (l : local) (r : list Z) (t : gmap Z Z) : local :=
  {| instance_running := instance_running l; instance_running_begin := instance_running_begin l;
     instance_running_end := instance_running_end l; instance_running_local := instance_running_local l;
     instance_alive_local := instance_alive_local l;
     instance_garbage_collected_local := instance_garbage_collected_local l;
     to_remove_instance := r; exec_cnt := exec_cnt l;
     export_vec := export_vec l; counter_vec := counter_vec l; table := t |}.
Definition set_block (l : local) (e : Z -> option Z) (c : Z -> Z) : local :=
  {| instance_running := instance_running l; instance_running_begin := instance_running_begin l;
     instance_running_end := instance_running_end l; instance_running_local := instance_running_local l;
     instance_alive_local := instance_alive_local l;
     instance_garbage_collected_local := instance_garbage_collected_local l;
     to_remove_instance := to_remove_instance l; exec_cnt := exec_cnt l;
     export_vec := e; counter_vec := c; table := table l |}.
Definition set_exec_cnt (l : local) (n : Z) : local :=
  {| instance_running := instance_running l; instance_running_begin := instance_running_begin l;
     instance_running_end := instance_running_end l; instance_running_local := instance_running_local l;
     instance_alive_local := instance_alive_local l;
     instance_garbage_collected_local := instance_garbage_collected_local l;
     to_remove_instance := to_remove_instance l; exec_cnt := n;
     export_vec := export_vec l; counter_vec := counter_vec l; table := table l |}.

(** ** The functions *)

(** [seen] is the value of instance_alive_global. *)
Definition can_add_instance (seen : Z) : bool := seen <? MAX_INSTANCE_ALIVE.

Definition inc_instance_local (l : local) : local :=
  set_alive (set_ring l (instance_running l) (instance_running_begin l) (instance_running_end l)
               (instance_running_local l + 1))
    (instance_alive_local l + 1) (instance_garbage_collected_local l).

Definition instance_pending_gc_local (l : local) : Z := instance_alive_local l - instance_running_local l.

(** With what is added to instance_alive_global.  The comparison is unsigned. *)
Definition check_instance_garbage_collected (l : local) : option (Z * local) :=
  let n := instance_garbage_collected_local l in
  if n >? 0 then
    if n >? uint 32 (instance_pending_gc_local l) then None
    else Some (- n, set_alive l (instance_alive_local l - n) 0)
  else Some (0, l).

(** removeFunction for every element; the index is then zero. *)
Definition remove_module_js (l : local) : local :=
  set_removed l [] (foldr delete (table l) (to_remove_instance l)).

Fixpoint remove_loop (n : nat) (l : local) : option local :=
  match n with
  | O => Some l
  | S n =>
      let b := instance_running_begin l in
      if Z.of_nat (length (to_remove_instance l)) <? TO_REMOVE_INSTANCE_SIZE then
        let f := fidx (instance_running l b) in
        remove_loop n
          (set_removed
             (set_ring l (<[b := {| tb := 0; fidx := f |}]> (instance_running l))
                ((b + 1) mod INSTANCE_RUNNING_LEN) (instance_running_end l) (instance_running_local l - 1))
             (to_remove_instance l ++ [f]) (table l))
      else None
  end.

Definition remove_instance_running_local (l : local) : option local :=
  if instance_pending_gc_local l >? 0 then Some l
  else
    l ← remove_loop (Z.to_nat (instance_running_local l / 2)) l;
    Some (if Z.of_nat (length (to_remove_instance l)) >? 0 then remove_module_js l else l).

Definition add_instance_running_local (f t : Z) (l : local) : local :=
  let e := instance_running_end l in
  inc_instance_local
    (set_block
       (set_ring l (<[e := {| tb := t; fidx := f |}]> (instance_running l)) (instance_running_begin l)
          ((e + 1) mod INSTANCE_RUNNING_LEN) (instance_running_local l))
       (<[t := Some e]> (export_vec l)) (counter_vec l)).

Definition get_instance_running_local (t : Z) (l : local) : Z * local :=
  match export_vec l t with
  | None => (0, l)
  | Some i =>
      let elm := instance_running l i in
      if negb (tb elm =? t)
      then (0, set_block l (<[t := None]> (export_vec l)) (<[t := INSTANTIATE_NUM]> (counter_vec l)))
      else (fidx elm, l)
  end.

(** [gcs] finalizers run while the thread sleeps. *)
Definition trysleep (seen gcs : Z) (l : local) : option (Z * local) :=
  let n := exec_cnt l - 1 in
  if n =? 0 then
    dl ← (if negb (can_add_instance seen)
          then check_instance_garbage_collected
                 (set_alive (set_exec_cnt l n) (instance_alive_local l) (instance_garbage_collected_local l + gcs))
          else Some (0, set_exec_cnt l n));
    Some (dl.1, set_exec_cnt dl.2 MAX_EXEC_NUM)
  else Some (0, set_exec_cnt l n).

(** ** One turn of tcg_qemu_tb_exec *)

Inductive engine_call := CallTci | CallWasm (f : Z).

(** instantiate_wasm returns the index [f] of a function made of the block. *)
Definition instantiate_wasm (f t : Z) (l : local) : local :=
  set_removed l (to_remove_instance l) (<[f := t]> (table l)).

Definition dispatch (seen fresh t : Z) (l : local) : option (engine_call * Z * local) :=
  let '(f, l) := get_instance_running_local t l in
  if f >? 0 then Some (CallWasm f, 0, l)
  else if counter_vec l t <? INSTANTIATE_NUM then
    Some (CallTci, 0, set_block l (export_vec l) (<[t := counter_vec l t + 1]> (counter_vec l)))
  else if negb (can_add_instance seen) then
    l ← remove_instance_running_local l;
    dl ← check_instance_garbage_collected l;
    Some (CallTci, dl.1, dl.2)
  else
    Some (CallWasm fresh, 1, add_instance_running_local fresh t (instantiate_wasm fresh t l)).

(** ** The invariant of a thread *)

Local Abbreviation LEN := INSTANCE_RUNNING_LEN.

(** Element [i] of the ring is in use. *)
Definition in_ring (l : local) (i : Z) : Prop :=
  0 <= i < LEN /\ (i - instance_running_begin l) mod LEN < instance_running_local l.

Record ring_ok (l : local) : Prop := {
  ro_begin : 0 <= instance_running_begin l < LEN;
  ro_size : 0 <= instance_running_local l <= LEN;
  ro_end : instance_running_end l = (instance_running_begin l + instance_running_local l) mod LEN;
  ro_used : forall i, in_ring l i ->
    tb (instance_running l i) <> 0 /\ 0 < fidx (instance_running l i) /\
    table l !! fidx (instance_running l i) = Some (tb (instance_running l i));
  ro_free : forall i, 0 <= i < LEN -> ~ in_ring l i -> tb (instance_running l i) = 0;
  ro_distinct : forall i j, in_ring l i -> in_ring l j ->
    fidx (instance_running l i) = fidx (instance_running l j) -> i = j;
  ro_kept : forall i, in_ring l i -> fidx (instance_running l i) ∉ to_remove_instance l;
  ro_export : forall t i, export_vec l t = Some i -> 0 <= i < LEN;
}.

Record counts_ok (l : local) : Prop := {
  co_alive : instance_running_local l <= instance_alive_local l <= MAX_INSTANCE_ALIVE;
  co_collected : 0 <= instance_garbage_collected_local l <= instance_pending_gc_local l;
}.

Definition linv (l : local) : Prop := ring_ok l /\ counts_ok l /\ to_remove_instance l = [].

(** *** Positions in the ring *)

Lemma len_pos : 0 < LEN.
Proof. done. Qed.

Lemma end_free b n : 0 <= b < LEN -> 0 <= n < LEN -> ((b + n) mod LEN - b) mod LEN = n.
Proof.
  intros Hb Hn. pose proof len_pos. rewrite Zminus_mod_idemp_l. replace (b + n - b) with n by lia.
  by apply Z.mod_small.
Qed.

Lemma position_unique b i j : 0 <= i < LEN -> 0 <= j < LEN -> (i - b) mod LEN = (j - b) mod LEN -> i = j.
Proof.
  intros Hi Hj E. pose proof len_pos. assert (E' : (i - b + b) mod LEN = (j - b + b) mod LEN).
  { rewrite <- (Zplus_mod_idemp_l (i - b)), <- (Zplus_mod_idemp_l (j - b)). by rewrite E. }
  replace (i - b + b) with i in E' by lia. replace (j - b + b) with j in E' by lia.
  by rewrite !Z.mod_small in E'.
Qed.

Lemma next_position b i : 0 <= b < LEN -> 0 <= i < LEN ->
  (i - (b + 1) mod LEN) mod LEN = if i =? b then LEN - 1 else (i - b) mod LEN - 1.
Proof.
  intros Hb Hi. pose proof len_pos. rewrite Zminus_mod_idemp_r.
  destruct (Z.eqb_spec i b) as [-> | Hne].
  - replace (b - (b + 1)) with (-1) by lia. done.
  - replace (i - (b + 1)) with ((i - b) - 1) by lia. rewrite <- Zminus_mod_idemp_l.
    assert ((i - b) mod LEN <> 0).
    { intros E. apply Hne. apply (position_unique b); [done..|]. by rewrite E, Z.sub_diag. }
    pose proof (Z.mod_pos_bound (i - b) LEN len_pos). apply Z.mod_small. lia.
Qed.

(** *** Adding an instance *)

Lemma end_not_in_ring l : ring_ok l -> instance_running_local l < LEN -> ~ in_ring l (instance_running_end l).
Proof.
  intros R Hn [_ H]. rewrite (ro_end l R), end_free in H; [lia | apply R | pose proof (ro_size l R); lia].
Qed.

Lemma add_in_ring f t l i :
  ring_ok l -> instance_running_local l < LEN ->
  in_ring (add_instance_running_local f t (instantiate_wasm f t l)) i <->
  in_ring l i \/ i = instance_running_end l.
Proof.
  intros R Hn. unfold in_ring. cbn. pose proof (ro_size l R) as Hs. pose proof (ro_begin l R) as Hb.
  rewrite (ro_end l R). split.
  - intros [Hi H]. destruct (Z.eq_dec ((i - instance_running_begin l) mod LEN) (instance_running_local l)) as [E | E];
      [|left; lia]. right. apply (position_unique (instance_running_begin l)); [done | |].
    + by apply Z.mod_pos_bound.
    + rewrite E, end_free; lia.
  - intros [[Hi H] | ->]; [lia|]. split; [by apply Z.mod_pos_bound|]. rewrite end_free; lia.
Qed.

Lemma add_ok f t l :
  linv l -> instance_alive_local l < MAX_INSTANCE_ALIVE -> t <> 0 -> 0 < f -> table l !! f = None ->
  linv (add_instance_running_local f t (instantiate_wasm f t l)).
Proof.
  intros (R & [Ca Cc] & Hr) Ha Ht Hf Hfresh. set (l' := add_instance_running_local _ _ _).
  assert (Hn : instance_running_local l < LEN) by (change LEN with MAX_INSTANCE_ALIVE; lia).
  pose proof (ro_size l R) as Hs. pose proof (end_not_in_ring l R Hn) as He.
  assert (Hin : forall i, in_ring l' i <-> in_ring l i \/ i = instance_running_end l) by (intros; by apply add_in_ring).
  assert (Hold : forall i, in_ring l i -> instance_running l' i = instance_running l i).
  { intros i Hi. apply fn_lookup_insert_ne. by intros <-. }
  assert (Hnew : instance_running l' (instance_running_end l) = {| tb := t; fidx := f |}) by apply fn_lookup_insert.
  assert (Hne : forall i, in_ring l i -> fidx (instance_running l i) <> f).
  { intros i Hi E. destruct (ro_used l R i Hi) as (_ & _ & Hu). by rewrite E, Hfresh in Hu. }
  split; [|split; [|done]].
  - split; cbn.
    + apply R.
    + lia.
    + rewrite (ro_end l R), Zplus_mod_idemp_l. f_equal. lia.
    + intros i Hi. apply Hin in Hi as [Hi | ->].
      * change (<[_ := _]> _ i) with (instance_running l' i). rewrite Hold by done.
        rewrite lookup_insert_ne by (symmetry; by apply Hne). by apply R.
      * change (<[_ := _]> _ _) with (instance_running l' (instance_running_end l)) at 1 2 3 4.
        rewrite Hnew. cbn. rewrite lookup_insert_eq. done.
    + intros i Hi Hni. rewrite fn_lookup_insert_ne.
      * apply R; [done|]. intros H. apply Hni, Hin. by left.
      * intros <-. apply Hni, Hin. by right.
    + intros i j Hi Hj. apply Hin in Hi as [Hi | ->], Hj as [Hj | ->];
        repeat change (<[_ := _]> (instance_running l) ?k) with (instance_running l' k);
        rewrite ?Hnew, ?(Hold i Hi), ?(Hold j Hj); cbn; [by apply R | | |done].
      * intros E. by destruct (Hne i Hi).
      * intros E. by destruct (Hne j Hj).
    + intros i _. rewrite Hr. apply not_elem_of_nil.
    + intros t' i. destruct (decide (t = t')) as [<- | Hd].
      * rewrite fn_lookup_insert. intros [= <-]. rewrite (ro_end l R). by apply Z.mod_pos_bound.
      * rewrite fn_lookup_insert_ne by done. apply R.
  - unfold instance_pending_gc_local in Cc. split; unfold instance_pending_gc_local; cbn; lia.
Qed.

(** *** Giving up the older half *)

Definition pop_first (l : local) : local :=
  let b := instance_running_begin l in
  let f := fidx (instance_running l b) in
  set_removed
    (set_ring l (<[b := {| tb := 0; fidx := f |}]> (instance_running l))
       ((b + 1) mod LEN) (instance_running_end l) (instance_running_local l - 1))
    (to_remove_instance l ++ [f]) (table l).

Lemma pop_in_ring l i :
  ring_ok l -> 0 < instance_running_local l ->
  in_ring (pop_first l) i <-> in_ring l i /\ i <> instance_running_begin l.
Proof.
  intros R Hn. unfold in_ring. cbn. pose proof (ro_size l R) as Hs. pose proof (ro_begin l R) as Hb.
  split.
  - intros [Hi H]. rewrite next_position in H by done. destruct (Z.eqb_spec i (instance_running_begin l)); lia.
  - intros [[Hi H] Hne]. split; [done|]. rewrite next_position by done.
    destruct (Z.eqb_spec i (instance_running_begin l)); [done | lia].
Qed.

Lemma begin_in_ring l : ring_ok l -> 0 < instance_running_local l -> in_ring l (instance_running_begin l).
Proof. intros R Hn. split; [apply R|]. by rewrite Z.sub_diag. Qed.

Lemma pop_ok l : ring_ok l -> 0 < instance_running_local l -> ring_ok (pop_first l).
Proof.
  intros R Hn. pose proof (ro_size l R) as Hs. pose proof (begin_in_ring l R Hn) as Hbr.
  assert (Hin := fun i => pop_in_ring l i R Hn).
  assert (Hold : forall i, i <> instance_running_begin l -> instance_running (pop_first l) i = instance_running l i).
  { intros i Hi. apply fn_lookup_insert_ne. by apply not_eq_sym. }
  split.
  - apply Z.mod_pos_bound, len_pos.
  - cbn. lia.
  - cbn. rewrite (ro_end l R), Zplus_mod_idemp_l. f_equal. lia.
  - intros i Hi. apply Hin in Hi as [Hi Hne]. rewrite Hold by done. by apply R.
  - intros i Hi Hni. destruct (Z.eq_dec i (instance_running_begin l)) as [-> | Hne].
    + cbn. by rewrite fn_lookup_insert.
    + rewrite Hold by done. apply R; [done|]. intros H. by apply Hni, Hin.
  - intros i j Hi Hj. apply Hin in Hi as [Hi Hni], Hj as [Hj Hnj]. rewrite !Hold by done. by apply R.
  - intros i Hi. apply Hin in Hi as [Hi Hne]. rewrite Hold by done. cbn.
    rewrite elem_of_app, list_elem_of_singleton. intros [H | H]; [by apply (ro_kept l R i)|].
    by apply Hne, (ro_distinct l R).
  - apply R.
Qed.

(** What the loop leaves alone. *)
Definition same_counts (l l' : local) : Prop :=
  instance_alive_local l' = instance_alive_local l /\
  instance_garbage_collected_local l' = instance_garbage_collected_local l /\ table l' = table l.

Lemma remove_loop_ok n l :
  ring_ok l -> Z.of_nat n <= instance_running_local l ->
  Z.of_nat (length (to_remove_instance l)) + Z.of_nat n <= TO_REMOVE_INSTANCE_SIZE ->
  exists l', remove_loop n l = Some l' /\ ring_ok l' /\ same_counts l l' /\
    instance_running_local l' = instance_running_local l - Z.of_nat n /\
    export_vec l' = export_vec l /\ counter_vec l' = counter_vec l.
Proof.
  revert l. induction n as [|n IH]; intros l R Hn Hlen; cbn [remove_loop].
  - exists l. split_and!; (done || lia).
  - destruct (Z.ltb_spec (Z.of_nat (length (to_remove_instance l))) TO_REMOVE_INSTANCE_SIZE); [|lia].
    fold (pop_first l). destruct (IH (pop_first l)) as (l' & E & R' & (S1 & S2 & S3) & Hrun & He & Hc).
    + apply pop_ok; [done | lia].
    + cbn. lia.
    + cbn. rewrite length_app. cbn. lia.
    + exists l'. split; [exact E|]. split; [done|]. split; [by split_and!|]. cbn in Hrun. split; [lia | done].
Qed.

Lemma foldr_delete_lookup (m : gmap Z Z) r k : k ∉ r -> foldr delete m r !! k = m !! k.
Proof.
  induction r as [|x r IH]; [done|]. rewrite not_elem_of_cons. intros [Hx Hr]. cbn.
  rewrite lookup_delete_ne by done. by apply IH.
Qed.

Lemma remove_module_ok l : ring_ok l -> ring_ok (remove_module_js l).
Proof.
  intros R. split; try apply R; cbn.
  - intros i Hi. destruct (ro_used l R i Hi) as (? & ? & ?). split_and!; [done..|].
    rewrite foldr_delete_lookup; [done | by apply R].
  - intros i _. apply not_elem_of_nil.
Qed.

Lemma remove_ok l :
  linv l -> exists l', remove_instance_running_local l = Some l' /\ linv l' /\
    instance_alive_local l' = instance_alive_local l.
Proof.
  intros (R & [Ca Cc] & Hr). unfold remove_instance_running_local.
  destruct (Z.gtb_spec (instance_pending_gc_local l) 0) as [Hp | Hp]; [by exists l|].
  pose proof (ro_size l R) as Hs. pose proof (Z.div_pos (instance_running_local l) 2 ltac:(lia) ltac:(lia)).
  assert (Hhalf : instance_running_local l / 2 <= instance_running_local l) by (apply Z.div_le_upper_bound; lia).
  assert (Hmax : LEN <= TO_REMOVE_INSTANCE_SIZE) by done.
  destruct (remove_loop_ok (Z.to_nat (instance_running_local l / 2)) l R) as (l' & E & R' & (S1 & S2 & S3) & Hrun & _).
  { lia. }
  { rewrite Hr. cbn [length]. lia. }
  rewrite E. cbn [mbind option_bind]. eexists. split; [reflexivity|].
  unfold instance_pending_gc_local in *.
  destruct (Z.gtb_spec (Z.of_nat (length (to_remove_instance l'))) 0) as [Hl | Hl].
  - split; [|done]. split; [by apply remove_module_ok|]. split; [|done].
    split; unfold instance_pending_gc_local; cbn; lia.
  - split; [|done]. split; [done|]. split; [split; unfold instance_pending_gc_local; lia|].
    destruct (to_remove_instance l'); [done | cbn in Hl; lia].
Qed.

(** *** The other functions *)

Lemma check_ok l :
  linv l -> exists d l', check_instance_garbage_collected l = Some (d, l') /\ linv l' /\
    instance_alive_local l' = instance_alive_local l + d /\ d <= 0.
Proof.
  intros (R & [Ca Cc] & Hr). unfold check_instance_garbage_collected.
  destruct (Z.gtb_spec (instance_garbage_collected_local l) 0) as [Hp | Hp].
  - pose proof (ro_size l R). unfold instance_pending_gc_local in *.
    change (instance_running_local l <= instance_alive_local l <= 15000) in Ca.
    rewrite uint_small by (change (2 ^ 32) with 4294967296; lia).
    destruct (Z.gtb_spec (instance_garbage_collected_local l) (instance_alive_local l - instance_running_local l)); [lia|].
    do 2 eexists. split; [reflexivity|]. split; [|cbn; lia]. split; [by destruct R|]. split; [|done].
    split; unfold instance_pending_gc_local; cbn; change MAX_INSTANCE_ALIVE with 15000; lia.
  - exists 0, l. split_and!; [done | by split_and! | lia | lia].
Qed.

Lemma get_ok t l f l' :
  linv l -> t <> 0 -> get_instance_running_local t l = (f, l') ->
  linv l' /\ instance_alive_local l' = instance_alive_local l /\ table l' = table l /\
  (0 < f -> table l' !! f = Some t).
Proof.
  intros (R & C & Hr) Ht. unfold get_instance_running_local. destruct (export_vec l t) as [i|] eqn:E.
  - destruct (Z.eqb_spec (tb (instance_running l i)) t) as [Etb | Etb]; cbn [negb]; intros [= <- <-].
    + split; [by split_and!|]. split; [done|]. split; [done|]. intros _. pose proof (ro_export l R t i E) as Hi.
      assert (Hin : in_ring l i).
      { destruct (decide ((i - instance_running_begin l) mod LEN < instance_running_local l)); [by split|].
        exfalso. apply Ht. rewrite <- Etb. apply R; [done|]. by intros [_ ?]. }
      rewrite <- Etb. by apply R.
    + split; [|split; [done | split; [done | lia]]]. split; [|split; [by destruct C | done]].
      split; try apply R. cbn. intros t' j. destruct (decide (t = t')) as [<- | Hd].
      * by rewrite fn_lookup_insert.
      * rewrite fn_lookup_insert_ne by done. apply R.
  - intros [= <- <-]. split; [by split_and!|]. split; [done|]. split; [done | lia].
Qed.

Definition call_ok (c : engine_call) (t : Z) (l : local) : Prop :=
  match c with CallTci => True | CallWasm f => table l !! f = Some t end.

Lemma count_run_ok t n l : linv l -> linv (set_block l (export_vec l) (<[t := n]> (counter_vec l))).
Proof. intros ([] & [] & Hr). split; [by split | split; [by split | done]]. Qed.

(** A turn of the loop neither leaves an array nor exits, and calls a function
    of this block. *)
Lemma dispatch_ok seen fresh t l :
  linv l -> instance_alive_local l <= seen -> t <> 0 -> 0 < fresh -> table l !! fresh = None ->
  exists c d l', dispatch seen fresh t l = Some (c, d, l') /\ linv l' /\ call_ok c t l' /\
    instance_alive_local l' = instance_alive_local l + d /\ d <= (if seen <? MAX_INSTANCE_ALIVE then 1 else 0).
Proof.
  intros Hl Hseen Ht Hf Hfresh. unfold dispatch. destruct (get_instance_running_local t l) as [f l1] eqn:E.
  destruct (get_ok t l f l1 Hl Ht E) as (Hl1 & Ha & Htab & Hcall).
  assert (H0 : 0 <= if seen <? MAX_INSTANCE_ALIVE then 1 else 0) by by destruct (_ <? _).
  destruct (Z.gtb_spec f 0) as [Hf0 | _].
  { do 3 eexists. split; [reflexivity|]. split_and!; [done | by apply Hcall | lia | lia]. }
  destruct (counter_vec l1 t <? INSTANTIATE_NUM).
  { do 3 eexists. split; [reflexivity|]. split_and!; [by apply count_run_ok | done | cbn; lia | lia]. }
  unfold can_add_instance. destruct (Z.ltb_spec seen MAX_INSTANCE_ALIVE) as [Hs | Hs]; cbn [negb].
  - do 3 eexists. split; [reflexivity|]. split_and!; [| | cbn; lia | lia].
    + apply add_ok; [done | lia | done | done | by rewrite Htab].
    + cbn. by rewrite lookup_insert_eq.
  - destruct (remove_ok l1 Hl1) as (l2 & -> & Hl2 & Ha2). cbn [mbind option_bind].
    destruct (check_ok l2 Hl2) as (d & l3 & -> & Hl3 & Ha3 & Hd). cbn [mbind option_bind fst snd].
    do 3 eexists. split; [reflexivity|]. split_and!; [done | done | lia | lia].
Qed.

Lemma trysleep_ok seen gcs l :
  linv l -> 0 <= gcs <= instance_pending_gc_local l - instance_garbage_collected_local l ->
  exists d l', trysleep seen gcs l = Some (d, l') /\ linv l' /\
    instance_alive_local l' = instance_alive_local l + d /\ d <= 0.
Proof.
  intros (R & C & Hr) Hg. unfold trysleep.
  assert (Hset : forall l n, linv l -> linv (set_exec_cnt l n)) by by intros ? ? ([] & [] & ?).
  destruct (exec_cnt l - 1 =? 0); [|do 2 eexists; split; [reflexivity|]; split; [by apply Hset | cbn; lia]].
  destruct (can_add_instance seen); cbn [negb].
  - cbn [mbind option_bind fst snd]. do 2 eexists. split; [reflexivity|]. split; [by repeat apply Hset | cbn; lia].
  - match goal with |- context [check_instance_garbage_collected ?l1] =>
      destruct (check_ok l1) as (d & l2 & E & Hl2 & Ha & Hd) end.
    + destruct C. split; [by destruct R|]. split; [|done]. split; unfold instance_pending_gc_local in *; cbn in *; lia.
    + rewrite E. cbn [mbind option_bind fst snd]. do 2 eexists. split; [reflexivity|]. split; [by apply Hset | done].
Qed.

(** ** Several threads *)

(** A thread between its read of the shared count and its use of it carries
    what it has read. *)
Definition thread : Type := local * option Z.

Record sys := { instance_alive_global : Z; threads : list thread }.

Inductive sys_step (s : sys) : sys -> Prop :=
| step_read i l :
    threads s !! i = Some (l, None) ->
    sys_step s {| instance_alive_global := instance_alive_global s;
                  threads := <[i := (l, Some (instance_alive_global s))]> (threads s) |}
| step_dispatch i l seen t fresh c d l' :
    threads s !! i = Some (l, Some seen) -> t <> 0 -> 0 < fresh -> table l !! fresh = None ->
    dispatch seen fresh t l = Some (c, d, l') ->
    sys_step s {| instance_alive_global := instance_alive_global s + d;
                  threads := <[i := (l', None)]> (threads s) |}
| step_sleep i l gcs d l' :
    threads s !! i = Some (l, None) ->
    0 <= gcs <= instance_pending_gc_local l - instance_garbage_collected_local l ->
    trysleep (instance_alive_global s) gcs l = Some (d, l') ->
    sys_step s {| instance_alive_global := instance_alive_global s + d;
                  threads := <[i := (l', None)]> (threads s) |}
| step_collect i l p :
    (* the browser only collects instances that were given up *)
    threads s !! i = Some (l, p) ->
    instance_garbage_collected_local l < instance_pending_gc_local l ->
    sys_step s {| instance_alive_global := instance_alive_global s;
                  threads := <[i := (set_alive l (instance_alive_local l)
                                       (instance_garbage_collected_local l + 1), p)]> (threads s) |}.

Definition local_init : local :=
  {| instance_running := fun _ => {| tb := 0; fidx := 0 |};
     instance_running_begin := 0; instance_running_end := 0;
     instance_running_local := 0; instance_alive_local := 0; instance_garbage_collected_local := 0;
     to_remove_instance := []; exec_cnt := MAX_EXEC_NUM;
     export_vec := fun _ => None; counter_vec := fun _ => 0; table := ∅ |}.

Definition sys_init (n : nat) : sys :=
  {| instance_alive_global := 0; threads := replicate n (local_init, None) |}.

(** *** The invariant *)

Fixpoint zsum {A} (f : A -> Z) (l : list A) : Z :=
  match l with [] => 0 | x :: l => f x + zsum f l end.

Lemma zsum_insert {A} (f : A -> Z) (l : list A) i x y :
  l !! i = Some x -> zsum f (<[i := y]> l) = zsum f l - f x + f y.
Proof.
  revert i. induction l as [|z l IH]; intros [|i]; cbn; try done.
  - intros [= <-]. lia.
  - intros Hi. change (f z + zsum f (<[i := y]> l) = f z + zsum f l - f x + f y). rewrite (IH i Hi). lia.
Qed.

Lemma zsum_bound {A} (f : A -> Z) (l : list A) c :
  0 <= c -> (forall x, f x <= c) -> zsum f l <= c * Z.of_nat (length l).
Proof. intros Hc Hf. induction l as [|x l IH]; cbn -[Z.mul]; [lia|]. pose proof (Hf x). lia. Qed.

Lemma zsum_elem {A} (f : A -> Z) (l : list A) i x :
  (forall j y, l !! j = Some y -> 0 <= f y) -> l !! i = Some x -> f x <= zsum f l.
Proof.
  revert i. induction l as [|z l IH]; intros i Hf Hi; [done|]. cbn.
  assert (Hrest : 0 <= zsum f l).
  { clear -Hf. assert (Hf' : forall j y, l !! j = Some y -> 0 <= f y) by (intros j; apply (Hf (S j))).
    clear Hf. induction l as [|y l IH]; cbn; [done|]. pose proof (Hf' 0%nat y eq_refl).
    assert (0 <= zsum f l) by (apply IH; intros j; apply (Hf' (S j))). lia. }
  destruct i as [|i]; cbn in Hi; [injection Hi as ->; lia|].
  pose proof (Hf 0%nat z eq_refl). assert (f x <= zsum f l) by (eapply IH; [intros j; apply (Hf (S j)) | done]). lia.
Qed.

Definition alive (t : thread) : Z := instance_alive_local t.1.

(** The thread is about to add an instance. *)
Definition adding (t : thread) : Z :=
  match t.2 with Some seen => if seen <? MAX_INSTANCE_ALIVE then 1 else 0 | None => 0 end.

Definition thread_ok (t : thread) : Prop :=
  linv t.1 /\ match t.2 with Some seen => instance_alive_local t.1 <= seen | None => True end.

Record sinv (s : sys) : Prop := {
  si_count : instance_alive_global s = zsum alive (threads s);
  si_threads : forall i t, threads s !! i = Some t -> thread_ok t;
  si_limit : instance_alive_global s + zsum adding (threads s)
             <= MAX_INSTANCE_ALIVE + Z.of_nat (length (threads s)) - 1 \/ threads s = [];
}.

Lemma alive_nonneg t : thread_ok t -> 0 <= alive t.
Proof. intros [(R & [C _] & _) _]. pose proof (ro_size _ R). unfold alive. lia. Qed.

Lemma adding_bound t : adding t <= 1.
Proof. unfold adding. destruct t as [? [?|]]; cbn; [destruct (_ <? _)|]; lia. Qed.

(** Replacing one thread. *)
Lemma sinv_update s i t t' d :
  sinv s -> threads s !! i = Some t -> thread_ok t' -> alive t' = alive t + d ->
  d + adding t' <= adding t ->
  sinv {| instance_alive_global := instance_alive_global s + d; threads := <[i := t']> (threads s) |}.
Proof.
  intros [Hc Ht Hl] Hi Hok Ha Hd. split; cbn.
  - rewrite (zsum_insert alive _ _ t) by done. lia.
  - intros j u. rewrite list_lookup_insert_Some. intros [(-> & -> & _) | [_ Hj]]; [done | by eapply Ht].
  - left. destruct Hl as [Hl | Hl]; [|by rewrite Hl in Hi].
    rewrite length_insert, (zsum_insert adding _ _ t) by done. lia.
Qed.

Lemma step_sinv s s' : sinv s -> sys_step s s' -> sinv s'.
Proof.
  intros Hs Hstep. destruct Hstep as
    [i l Hi | i l seen t fresh c d l' Hi Ht Hf Hfr E | i l gcs d l' Hi Hg E | i l p Hi Hg];
    destruct (si_threads s Hs i _ Hi) as [Hl Hseen]; cbn in Hl, Hseen.
  - assert (Ha : instance_alive_local l <= instance_alive_global s).
    { rewrite (si_count s Hs). apply (zsum_elem alive _ i (l, None)); [|done].
      intros j y Hy. by eapply alive_nonneg, Hs. }
    destruct Hs as [Hc Hts Hlim]. split; cbn.
    + rewrite (zsum_insert alive _ _ (l, None)) by done. change (alive (l, Some _)) with (alive (l, None)). lia.
    + intros j u. rewrite list_lookup_insert_Some. intros [(-> & <- & _) | [_ Hj]]; [done | by eapply Hts].
    + left. destruct Hlim as [Hlim | Hlim]; [|by rewrite Hlim in Hi].
      rewrite length_insert. destruct (Z.ltb_spec (instance_alive_global s) MAX_INSTANCE_ALIVE) as [Hlt | Hge].
      * pose proof (zsum_bound adding (<[i := (l, Some (instance_alive_global s))]> (threads s)) 1
          ltac:(lia) adding_bound) as Hb. rewrite length_insert in Hb. lia.
      * rewrite (zsum_insert adding _ _ (l, None)) by done. assert (adding (l, Some (instance_alive_global s)) = 0).
        { unfold adding. cbn. destruct (Z.ltb_spec (instance_alive_global s) MAX_INSTANCE_ALIVE); [lia | done]. }
        change (adding (l, None)) with 0. lia.
  - destruct (dispatch_ok seen fresh t l Hl Hseen Ht Hf Hfr) as (c0 & d0 & l0 & E0 & Hl0 & _ & Ha & Hd).
    rewrite E in E0. injection E0 as <- <- <-.
    apply (sinv_update s i _ _ _ Hs Hi); [done | exact Ha | unfold adding; cbn; lia].
  - destruct (trysleep_ok (instance_alive_global s) gcs l Hl Hg) as (d0 & l0 & E0 & Hl0 & Ha & Hd).
    rewrite E in E0. injection E0 as <- <-.
    apply (sinv_update s i _ _ _ Hs Hi); [done | exact Ha | unfold adding; cbn; lia].
  - rewrite <- (Z.add_0_r (instance_alive_global s)).
    apply (sinv_update s i _ _ _ Hs Hi); [|unfold alive; cbn; lia | unfold adding; cbn; lia].
    split; [|done]. destruct Hl as (R & [Ca Cc] & Hr). split; [by destruct R|]. split; [|done].
    unfold instance_pending_gc_local in *. split; unfold instance_pending_gc_local; cbn; lia.
Qed.

Lemma local_init_ok : linv local_init.
Proof.
  split; [|split; [|done]].
  - split; cbn; try done; try (intros i [_ H]; cbn in H; pose proof (Z.mod_pos_bound (i - 0) LEN len_pos); lia).
    intros i j [_ H]. cbn in H. pose proof (Z.mod_pos_bound (i - 0) LEN len_pos). lia.
  - by split.
Qed.

Lemma sys_init_ok n : sinv (sys_init n).
Proof.
  assert (Hz : forall f : thread -> Z, f (local_init, None) = 0 -> zsum f (replicate n (local_init, None)) = 0).
  { intros f Hf. induction n as [|n IH]; [done|]. cbn. lia. }
  split; cbn.
  - by rewrite Hz.
  - intros i t Hi. apply lookup_replicate in Hi as [-> _]. split; [apply local_init_ok | done].
  - rewrite Hz by done. rewrite length_replicate. destruct n; [by right | left; unfold MAX_INSTANCE_ALIVE; lia].
Qed.

Lemma reachable_sinv n s : rtc sys_step (sys_init n) s -> sinv s.
Proof.
  intros Hr. assert (Hgen : forall a b, rtc sys_step a b -> sinv a -> sinv b).
  { intros a b Hab. induction Hab; [done|]. intros Ha. by eapply IHHab, step_sinv. }
  eapply Hgen; [exact Hr | apply sys_init_ok].
Qed.

Lemma sys_step_threads s s' : sys_step s s' -> length (threads s') = length (threads s).
Proof. by destruct 1; cbn; rewrite length_insert. Qed.

Lemma reachable_threads n s : rtc sys_step (sys_init n) s -> length (threads s) = n.
Proof.
  intros Hr. assert (Hgen : forall a b, rtc sys_step a b -> length (threads b) = length (threads a)).
  { intros a b Hab. induction Hab; [done|]. by rewrite IHHab, (sys_step_threads x y). }
  rewrite (Hgen _ _ Hr). apply length_replicate.
Qed.

(** C6: Whatever the interleaving of [n] threads and of the collector, the
    shared count is the sum of the live instances of the threads, it exceeds
    its limit by less than the number of threads (the race between the check
    and the increment), and in every thread the ring holds exactly the running
    instances, never more than its length, at distinct live functions. *)
Theorem instance_counts n s :
  rtc sys_step (sys_init n) s ->
  instance_alive_global s = zsum alive (threads s) /\
  0 <= instance_alive_global s <= MAX_INSTANCE_ALIVE + Z.max 0 (Z.of_nat n - 1) /\
  forall i l p, threads s !! i = Some (l, p) ->
    ring_ok l /\ 0 <= instance_running_local l <= instance_alive_local l /\
    instance_alive_local l <= MAX_INSTANCE_ALIVE /\
    0 <= instance_garbage_collected_local l <= instance_pending_gc_local l.
Proof.
  intros Hr. pose proof (reachable_sinv n s Hr) as Hs. pose proof (reachable_threads n s Hr) as Hn.
  split; [apply Hs|]. split.
  - assert (Hnn : forall f : thread -> Z, (forall j y, threads s !! j = Some y -> 0 <= f y) -> 0 <= zsum f (threads s)).
    { intros f Hf. destruct (threads s) as [|x ts] eqn:E; [done|].
      pose proof (zsum_elem f _ 0%nat x Hf eq_refl). pose proof (Hf 0%nat x eq_refl). lia. }
    assert (0 <= zsum alive (threads s)) by (apply Hnn; intros j y Hy; by eapply alive_nonneg, Hs).
    assert (0 <= zsum adding (threads s)).
    { apply Hnn. intros j y _. unfold adding. destruct y.2; [destruct (_ <? _)|]; lia. }
    pose proof (si_count s Hs). destruct (si_limit s Hs) as [Hlim | Hlim]; [lia|].
    rewrite Hlim in *. cbn in *. unfold MAX_INSTANCE_ALIVE. lia.
  - intros i l p Hi. destruct (si_threads s Hs i _ Hi) as [(R & [Ca Cc] & Hrem) _]. pose proof (ro_size l R).
    cbn in Ca, Cc. refine (conj R (conj _ (conj _ _))); [lia | lia | exact Cc].
Qed.

(** C7: In every reachable state, a thread that looks for the engine of a
    block never leaves an array and never takes the exit on an unexpected
    number of collected instances, and when it calls a function, the function
    is in the engine's table and was made of this very block. *)
Theorem dispatch_never_calls_stale_code n s i l seen t fresh :
  rtc sys_step (sys_init n) s -> threads s !! i = Some (l, Some seen) ->
  t <> 0 -> 0 < fresh -> table l !! fresh = None ->
  exists c d l', dispatch seen fresh t l = Some (c, d, l') /\
    match c with CallTci => True | CallWasm f => table l' !! f = Some t end.
Proof.
  intros Hr Hi Ht Hf Hfr. destruct (si_threads s (reachable_sinv n s Hr) i _ Hi) as [Hl Hseen].
  destruct (dispatch_ok seen fresh t l Hl Hseen Ht Hf Hfr) as (c & d & l' & E & _ & Hc & _). eauto 6.
Qed.

(** ** The loop of tcg_qemu_tb_exec

    [interp t m] is what interpreting the bytecode of block [t] does up to the
    instruction that leaves the block, [compiled t m] the same for a function
    made of block [t]; both are modelled op by op in [TciExec] and [WasmSem],
    and nothing is assumed of them here.  A block leaves the loop with a result
    (exit_tb), or goes on to another block (goto_tb, goto_ptr), where the null
    block stands for a failed lookup. *)

Inductive outcome (M : Type) := Leave (res : Z) (m : M) | Next (t : Z) (m : M).
Arguments Leave {M} res m.
Arguments Next {M} t m.

Lemma sn_tc {A} (R : relation A) x : sn R x -> sn (tc R) x.
Proof.
  induction 1 as [x _ IH]. constructor. intros y Hy. unfold flip in *.
  destruct Hy as [x y Hxy | x z y Hxz Hzy]; [by apply IH|].
  apply (Acc_inv (IH z Hxz)). exact Hzy.
Qed.

Lemma sn_tc_inv {A} (R : relation A) x : sn (tc R) x -> sn R x.
Proof. induction 1 as [x _ IH]. constructor. intros y Hy. by apply IH, tc_once. Qed.

Lemma linv_counters l c : linv l -> linv (set_block l (export_vec l) c).
Proof. intros (R & C & Hr). split; [by destruct R | split; [by destruct C | done]]. Qed.

Lemma fresh_function (tbl : gmap Z Z) : exists f, 0 < f /\ tbl !! f = None.
Proof.
  exists (1 + foldr Z.max 0 (map_to_list tbl).*1).
  assert (H : forall k, k ∈ (map_to_list tbl).*1 -> k <= foldr Z.max 0 (map_to_list tbl).*1).
  { generalize (map_to_list tbl).*1 as ks. induction ks as [|x ks IH]; intros k Hk; [by apply not_elem_of_nil in Hk|].
    cbn. apply elem_of_cons in Hk as [-> | Hk]; [lia|]. specialize (IH k Hk). lia. }
  split.
  - assert (0 <= foldr Z.max 0 (map_to_list tbl).*1); [|lia]. generalize (map_to_list tbl).*1 as ks.
    induction ks; cbn; lia.
  - destruct (tbl !! _) as [t|] eqn:E; [|done]. apply elem_of_map_to_list in E.
    apply (list_elem_of_fmap_2 fst) in E. specialize (H _ E). cbn in H. lia.
Qed.

Section Loop.
Context {M : Type} (interp compiled : Z -> M -> outcome M).

(** The interpreter goes on with a block that it has not seen often, and
    counts it; it returns when the block is due for compilation. *)
Definition cold (cnt : Z -> Z) (t : Z) : bool := (0 <=? cnt t) && (cnt t <? INSTANTIATE_NUM).

(** The result, ctx.tb_ptr, the counters and the state that are left. *)
Inductive tci_blocks (cnt : Z -> Z) (t : Z) (m : M) : Z -> Z -> (Z -> Z) -> M -> Prop :=
| tci_leave res m' : interp t m = Leave res m' -> tci_blocks cnt t m res 0 cnt m'
| tci_null m' : interp t m = Next 0 m' -> tci_blocks cnt t m 0 0 cnt m'
| tci_hot t' m' :
    interp t m = Next t' m' -> t' <> 0 -> cold cnt t' = false -> tci_blocks cnt t m 0 t' cnt m'
| tci_cold t' m' res t2 cnt2 m2 :
    interp t m = Next t' m' -> t' <> 0 -> cold cnt t' = true ->
    tci_blocks (<[t' := cnt t' + 1]> cnt) t' m' res t2 cnt2 m2 -> tci_blocks cnt t m res t2 cnt2 m2.

(** A function made of block [t0], called with ctx.tb_ptr at [t]; a jump to
    ctx.tb_ptr itself goes back to the top of the function. *)
Inductive wasm_blocks (t0 t : Z) (m : M) : Z -> Z -> M -> Prop :=
| wasm_leave res m' : compiled t0 m = Leave res m' -> wasm_blocks t0 t m res 0 m'
| wasm_again m' res t2 m2 :
    compiled t0 m = Next t m' -> wasm_blocks t0 t m' res t2 m2 -> wasm_blocks t0 t m res t2 m2
| wasm_jump t' m' : compiled t0 m = Next t' m' -> t' <> t -> wasm_blocks t0 t m 0 t' m'.

Inductive call_engine (l : local) (t : Z) (m : M) : engine_call -> Z -> Z -> M -> local -> Prop :=
| call_tci res t' cnt m' :
    tci_blocks (counter_vec l) t m res t' cnt m' ->
    call_engine l t m CallTci res t' m' (set_block l (export_vec l) cnt)
| call_wasm f t0 res t' m' :
    table l !! f = Some t0 -> wasm_blocks t0 t m res t' m' -> call_engine l t m (CallWasm f) res t' m' l.

(** What the other threads and the collector do during a turn: the counts
    that are read, the finalizers that run, the function the engine adds. *)
Record surroundings := { seen0 : Z; gcs : Z; seen : Z; fresh : Z }.

(** One turn of the loop. *)
Inductive turn (e : surroundings) (l : local) (t : Z) (m : M) : Z -> Z -> M -> local -> Prop :=
| turn_intro d0 l0 c d l1 res t' m' l2 :
    trysleep (seen0 e) (gcs e) l = Some (d0, l0) ->
    dispatch (seen e) (fresh e) t l0 = Some (c, d, l1) ->
    call_engine l1 t m c res t' m' l2 -> turn e l t m res t' m' l2.

(** Finalizers run for instances that were given up, the count that is read
    includes the instances of the thread, and a new function is at a new index. *)
Definition possible (e : surroundings) (l : local) : Prop :=
  0 <= gcs e <= instance_pending_gc_local l - instance_garbage_collected_local l /\
  0 < fresh e /\
  forall d0 l0, trysleep (seen0 e) (gcs e) l = Some (d0, l0) ->
    instance_alive_local l0 <= seen e /\ table l0 !! fresh e = None.

Inductive tcg_qemu_tb_exec (l : local) (t : Z) (m : M) : Z -> M -> local -> Prop :=
| exec_return e res m' l' : possible e l -> turn e l t m res 0 m' l' -> tcg_qemu_tb_exec l t m res m' l'
| exec_again e res t' m' l' r mr lr :
    possible e l -> turn e l t m res t' m' l' -> t' <> 0 -> tcg_qemu_tb_exec l' t' m' r mr lr ->
    tcg_qemu_tb_exec l t m r mr lr.

(** *** What the loop promises *)

(** The blocks are run one after the other, each by one of the engines. *)
Definition block_step (a b : Z * M) : Prop :=
  b.1 <> 0 /\ (interp a.1 a.2 = Next b.1 b.2 \/ compiled a.1 a.2 = Next b.1 b.2).

Definition last_block (a : Z * M) (r : Z) (mr : M) : Prop :=
  interp a.1 a.2 = Leave r mr \/ compiled a.1 a.2 = Leave r mr \/
  (r = 0 /\ (interp a.1 a.2 = Next 0 mr \/ compiled a.1 a.2 = Next 0 mr)).

Definition runs_blocks (t : Z) (m : M) (r : Z) (mr : M) : Prop :=
  exists a, rtc block_step (t, m) a /\ last_block a r mr.

(** Whatever happens around the thread, every turn comes to an end, and so
    does the sequence of turns. *)
Inductive must_return (l : local) (t : Z) (m : M) : Prop :=
| must_intro :
    (exists e, possible e l) ->
    (forall e, possible e l -> exists res t' m' l', turn e l t m res t' m' l') ->
    (forall e res t' m' l', possible e l -> turn e l t m res t' m' l' -> t' <> 0 -> must_return l' t' m') ->
    must_return l t m.

(** A call of an engine: it left, or moved on by at least a block. *)
Definition moves (t : Z) (m : M) (r t' : Z) (m' : M) : Prop :=
  if t' =? 0 then runs_blocks t m r m' else tc block_step (t, m) (t', m').

Lemma moves_last t m r m' : last_block (t, m) r m' -> moves t m r 0 m'.
Proof. intros Hl. exists (t, m). split; [apply rtc_refl | done]. Qed.

Lemma moves_step t m r t' m' : block_step (t, m) (t', m') -> moves t m r t' m'.
Proof.
  intros Hs. unfold moves. destruct (Z.eqb_spec t' 0) as [-> |]; [by destruct Hs | by apply tc_once].
Qed.

Lemma moves_more t m t' m' r t2 m2 :
  block_step (t, m) (t', m') -> moves t' m' r t2 m2 -> moves t m r t2 m2.
Proof.
  intros Hs. unfold moves. destruct (t2 =? 0).
  - intros (a & Hr & Hl). exists a. split; [by eapply rtc_l | done].
  - intros Ht. by eapply tc_l.
Qed.

Lemma tci_moves cnt t m r t' cnt' m' : tci_blocks cnt t m r t' cnt' m' -> moves t m r t' m'.
Proof.
  induction 1 as [cnt t m res m' E | cnt t m m' E | cnt t m t' m' E Hne Hc | cnt t m t' m' r t2 c2 m2 E Hne Hc H IH].
  - apply moves_last. by left.
  - apply moves_last. right; right. by auto.
  - apply moves_step. split; [done | by left].
  - eapply moves_more; [|exact IH]. split; [done | by left].
Qed.

Lemma wasm_moves t m r t' m' : t <> 0 -> wasm_blocks t t m r t' m' -> moves t m r t' m'.
Proof.
  intros Ht. induction 1 as [m res m' E | m m' res t2 m2 E H IH | m t' m' E Hne].
  - apply moves_last. right; by left.
  - eapply moves_more; [|exact IH]. split; [done | by right].
  - destruct (Z.eq_dec t' 0) as [-> | Hz]; [apply moves_last; right; right; by auto|].
    apply moves_step. split; [done | by right].
Qed.

Lemma turn_moves e l t m r t' m' l' :
  linv l -> t <> 0 -> possible e l -> turn e l t m r t' m' l' -> moves t m r t' m' /\ linv l'.
Proof.
  intros Hl Ht (Hg & Hf & Hp) Hturn. destruct Hturn as [d0 l0 c d l1 res t' m' l2 Es Ed Hc].
  destruct (trysleep_ok (seen0 e) (gcs e) l Hl Hg) as (d0' & l0' & Es' & Hl0 & _).
  rewrite Es in Es'. injection Es' as <- <-. destruct (Hp _ _ Es) as [Hseen Hfr].
  destruct (dispatch_ok (seen e) (fresh e) t l0 Hl0 Hseen Ht Hf Hfr) as (c' & d' & l1' & Ed' & Hl1 & Hok & _).
  rewrite Ed in Ed'. injection Ed' as <- <- <-.
  destruct Hc as [res t' cnt m' H | f t0 res t' m' Hf0 H].
  - split; [by eapply tci_moves | by apply linv_counters].
  - cbn in Hok. rewrite Hok in Hf0. injection Hf0 as <-. split; [by apply wasm_moves | done].
Qed.

(** *** Calls end *)

Lemma tci_total t m : sn block_step (t, m) -> forall cnt, exists r t' cnt' m', tci_blocks cnt t m r t' cnt' m'.
Proof.
  intros Hs. remember (t, m) as a eqn:Ea. revert t m Ea.
  induction Hs as [a _ IH]; intros t m -> cnt.
  destruct (interp t m) as [res m' | t' m'] eqn:E; [by repeat eexists; apply tci_leave|].
  destruct (Z.eq_dec t' 0) as [-> | Hne]; [by repeat eexists; apply tci_null|].
  destruct (cold cnt t') eqn:Ec; [|by repeat eexists; eapply tci_hot].
  destruct (IH (t', m') (conj Hne (or_introl E)) t' m' eq_refl (<[t' := cnt t' + 1]> cnt)) as (r & t2 & c2 & m2 & H).
  exists r, t2, c2, m2. by eapply tci_cold.
Qed.

Lemma wasm_total t m : t <> 0 -> sn block_step (t, m) -> exists r t' m', wasm_blocks t t m r t' m'.
Proof.
  intros Ht Hs. remember (t, m) as a eqn:Ea. revert m Ea.
  induction Hs as [a _ IH]; intros m ->.
  destruct (compiled t m) as [res m' | t' m'] eqn:E; [by repeat eexists; apply wasm_leave|].
  destruct (Z.eq_dec t' t) as [-> | Hne]; [|by repeat eexists; eapply wasm_jump].
  destruct (IH (t, m') (conj Ht (or_intror E)) m' eq_refl) as (r & t2 & m2 & H).
  exists r, t2, m2. by eapply wasm_again.
Qed.

Lemma turn_total e l t m :
  linv l -> t <> 0 -> sn block_step (t, m) -> possible e l -> exists r t' m' l', turn e l t m r t' m' l'.
Proof.
  intros Hl Ht Hsn (Hg & Hf & Hp). destruct (trysleep_ok (seen0 e) (gcs e) l Hl Hg) as (d0 & l0 & Es & Hl0 & _).
  destruct (Hp _ _ Es) as [Hseen Hfr].
  destruct (dispatch_ok (seen e) (fresh e) t l0 Hl0 Hseen Ht Hf Hfr) as (c & d & l1 & Ed & Hl1 & Hok & _).
  destruct c as [|f].
  - destruct (tci_total t m Hsn (counter_vec l1)) as (r & t' & cnt & m' & H).
    repeat eexists; [exact Es | exact Ed | by apply call_tci].
  - destruct (wasm_total t m Ht Hsn) as (r & t' & m' & H).
    repeat eexists; [exact Es | exact Ed | by eapply call_wasm].
Qed.

Lemma possible_exists l : linv l -> exists e, possible e l.
Proof.
  intros Hl. pose proof Hl as (_ & [_ Cc] & _).
  assert (Hg : 0 <= 0 <= instance_pending_gc_local l - instance_garbage_collected_local l) by lia.
  destruct (trysleep_ok 0 0 l Hl Hg) as (d0 & l0 & Es & _).
  destruct (fresh_function (table l0)) as (f & Hf & Hfr).
  exists {| seen0 := 0; gcs := 0; seen := instance_alive_local l0; fresh := f |}. split; [done|]. split; [done|].
  cbn. rewrite Es. intros d1 l1 [= <- <-]. done.
Qed.

(** C2: The loop of tcg_qemu_tb_exec runs the blocks that the blocks themselves
    ask for, whatever the engines compute.  Whatever it returns is reached from
    the first block by running one block after the other, each once per visit
    and by one of the two engines, the interpreter or the function that was
    made of this very block, the last being a block that leaves; the ring and
    the counters of the thread are consistent again.  And when no sequence of
    blocks from the first goes on for ever, the loop returns: under every
    behaviour of the other threads and of the collector, each turn comes to an
    end, without an access outside an array, an exit or a call of a function
    that is gone, and there are finitely many turns. *)
Theorem tb_exec_runs_blocks l t m :
  linv l -> t <> 0 ->
  (forall r mr lr, tcg_qemu_tb_exec l t m r mr lr -> runs_blocks t m r mr /\ linv lr) /\
  (sn block_step (t, m) -> must_return l t m).
Proof.
  intros Hl Ht. split.
  - intros r mr lr Hx. revert Hl Ht.
    induction Hx as [l t m e res m' l' He Hturn | l t m e res t' m' l' r mr lr He Hturn Hne Hx IH];
      intros Hl Ht; destruct (turn_moves _ _ _ _ _ _ _ _ Hl Ht He Hturn) as [Hm Hl']; [done|].
    destruct (IH Hl' Hne) as [(a & Hr & Hlast) Hlr]. split; [|done].
    exists a. split; [|done]. unfold moves in Hm. rewrite (proj2 (Z.eqb_neq t' 0) Hne) in Hm.
    etrans; [by apply tc_rtc | exact Hr].
  - intros Hsn%sn_tc. remember (t, m) as a eqn:Ea. revert l t m Ea Hl Ht.
    induction Hsn as [a Hacc IH]; intros l t m -> Hl Ht.
    assert (Hsn : sn block_step (t, m)).
    { constructor. intros b Hb. apply (sn_tc_inv block_step). apply Hacc. by apply tc_once. }
    constructor.
    + by apply possible_exists.
    + intros e He. by apply turn_total.
    + intros e res t' m' l' He Hturn Hne. destruct (turn_moves _ _ _ _ _ _ _ _ Hl Ht He Hturn) as [Hm Hl'].
      unfold moves in Hm. rewrite (proj2 (Z.eqb_neq t' 0) Hne) in Hm. by apply (IH (t', m')).
Qed.

End Loop.

(** ** Concrete runs *)

(** Two threads, the first of which has read the count. *)
Definition sample_sys : sys :=
  {| instance_alive_global := 0; threads := [(local_init, Some 0); (local_init, None)] |}.

Lemma sample_sys_reachable : rtc sys_step (sys_init 2) sample_sys.
Proof. apply rtc_once. exact (step_read (sys_init 2) 0%nat local_init eq_refl). Qed.

Lemma instance_counts_witness :
  rtc sys_step (sys_init 2) sample_sys /\
  instance_alive_global sample_sys = zsum alive (threads sample_sys) /\
  0 <= instance_alive_global sample_sys <= MAX_INSTANCE_ALIVE + Z.max 0 (Z.of_nat 2 - 1).
Proof.
  split; [apply sample_sys_reachable|].
  destruct (instance_counts 2 sample_sys sample_sys_reachable) as (? & ? & _). by split.
Defined.

Lemma dispatch_never_calls_stale_code_witness :
  exists c d l', dispatch 0 7 0x4000 local_init = Some (c, d, l') /\
    match c with CallTci => True | CallWasm f => table l' !! f = Some 0x4000 end.
Proof.
  apply (dispatch_never_calls_stale_code 2 sample_sys 0%nat local_init 0 0x4000 7);
    [apply sample_sys_reachable | done | done | done | done].
Defined.

(** Two blocks that take turns in counting down; the second is only reached
    from the first, and leaves once the count is zero. *)
Definition countdown (t m : Z) : outcome Z :=
  if m <=? 0 then Leave 5 m else Next (if t =? 0x4000 then 0x5000 else 0x4000) (m - 1).

Lemma countdown_ends t m : m <= 2 -> sn (block_step countdown countdown) (t, m).
Proof.
  assert (H0 : forall t m, m <= 0 -> sn (block_step countdown countdown) (t, m)).
  { intros t0 m0 H. constructor. intros b [_ E]. unfold countdown in E. cbn in E.
    destruct (Z.leb_spec m0 0); [by destruct E | lia]. }
  assert (H1 : forall k t m, m <= k -> (forall t' m', m' <= k - 1 -> sn (block_step countdown countdown) (t', m')) ->
    sn (block_step countdown countdown) (t, m)).
  { intros k t0 m0 Hk IH. constructor. intros [t' m'] [_ E]. unfold countdown in E. cbn in E.
    destruct (m0 <=? 0); [by destruct E|]. destruct E as [E | E]; injection E as <- <-; apply IH; lia. }
  intros Hm. apply (H1 2); [done|]. intros. apply (H1 1); [lia|]. intros. apply H0. lia.
Qed.

Lemma tb_exec_runs_blocks_witness :
  must_return countdown countdown local_init 0x4000 2 /\
  forall r mr lr, tcg_qemu_tb_exec countdown countdown local_init 0x4000 2 r mr lr ->
    runs_blocks countdown countdown 0x4000 2 r mr.
Proof.
  destruct (tb_exec_runs_blocks countdown countdown local_init 0x4000 2 local_init_ok) as [H1 H2]; [done|].
  split; [by apply H2, countdown_ends|]. intros r mr lr Hx. by destruct (H1 r mr lr Hx).
Defined.
