(* ===== verification/WasmMem.v ===== *)
(** * Memory accesses of the generated code

    The lookup of a guest address in the TLB.  The
    code between ops is straight except for one conditional; it is put
    together from pieces with the rules [run_addr], [run_load_ofs] and their
    counterparts for validation. *)

From Stdlib Require Import ZArith Lia Bool.
From stdpp Require Import base numbers functions list option relations.
From S2P Require Import Prelude.
From S2P Require Import Bytes.
From S2P Require Import Bitops.
From S2P Require Import TcgOpc.
From S2P Require Import TcgCtx.
From S2P Require Import TcgSem.
From S2P Require Import RegSpec.
From S2P Require Import MemOp.
From S2P Require Import TciCode.
From S2P Require Import TciOut.
From S2P Require Import TciExec.
From S2P Require Import TciOk.
From S2P Require Import Wasm.
From S2P Require Import WasmSem.
From S2P Require Import WasmOut.
From S2P Require Import WasmOk.
From S2P Require Import WasmCtl.
From S2P Require Import TcgOut.
From S2P Require Import Samples.
From S2P Require Import TciOps.
From S2P Require Import WasmOps.

Local Open Scope Z_scope.

Definition plain (l : list instr) : list code := map Plain l.

Lemma flatten_plain l : flatten (plain l) = l.
Proof. unfold flatten, plain. induction l as [|i l IH]; [done|]. cbn. by rewrite IH. Qed.

Section Mem.
Context `{H : WasmHost} `{L : TlbLayout}.

Local Abbreviation St s g l m := {| stk := s; globals := g; locals := l; wmem := m |}.

(** ** Pieces *)

(** The locals after reading register [r] as an address. *)
Definition env_locals (r : Z) (e : bool) (g : Z -> Z) (l : Z -> value) : Z -> value :=
  if (r =? TCG_REG_R14) && negb e then <[TMP32_LOCAL_ENV_IDX := V32 (uint 32 (g r))]> l else l.

Lemma run_addr fuel r e c s g l m :
  env_ok e (St s g l m) ->
  run fuel (plain (addr_instrs r e) ++ c) (St s g l m) =
  run fuel c (St (V32 (uint 32 (g r)) :: s) g (env_locals r e g l) m).
Proof.
  intros He. unfold addr_instrs, env_locals. destruct (Z.eqb_spec r TCG_REG_R14) as [-> | _]; [|done].
  destruct e; [|done]. cbn [plain map app andb negb]. rewrite run_local_get_other.
  pose proof (He eq_refl) as E. cbn [locals globals] in E. by rewrite E.
Qed.

Lemma check_addr f labels r e c s :
  is_reg r = true ->
  check (tb_ctx f) labels (plain (addr_instrs r e) ++ c) (s, false) = check (tb_ctx f) labels c (T32 :: s, false).
Proof.
  intros Hr. unfold addr_instrs. destruct (r =? TCG_REG_R14); [destruct e|];
    cbn [plain map app check check_with check1 check_plain instr_ty global_ok local_ty tb_ctx];
    rewrite ?reg_global_ok by done; reflexivity.
Qed.

Lemma addr_instrs_ok r e :
  is_reg r = true -> forallb instr_ok (addr_instrs r e) = true /\ forallb plain_ok (addr_instrs r e) = true.
Proof.
  intros Hr. unfold addr_instrs. destruct (r =? TCG_REG_R14); [destruct e|]; cbn [forallb instr_ok plain_ok];
    rewrite ?idx_ok by (by apply is_reg_small); done.
Qed.

(** A load at a constant distance from the address on the stack. *)
Definition load_ofs_instrs (k : wasm_ldst) (off : Z) : list instr :=
  if off <? 0 then [Const T32 (sint 32 off); Binop T32 Add; ldst_instr k 0 0] else [ldst_instr k 0 off].

Lemma EmitsAt_load_ofs k off e : EmitsAt (out_load_ofs k off) e (load_ofs_instrs k off) e.
Proof.
  unfold out_load_ofs, load_ofs_instrs. destruct (off <? 0); [|emit].
  do 2 (eapply (EmitsAt_seq _ _ _ [_]); [emit|]). emit.
Qed.

#[local] Hint Resolve EmitsAt_load_ofs : emit.

(** The access at [a + off] does not leave the memory. *)
Definition reachable (a off n : Z) : Prop :=
  - 2 ^ 31 <= off < 2 ^ 31 /\ uint 32 (a + off) + n <= mem_size /\ (0 <= off -> uint 32 a + off < 2 ^ 32).

Lemma reachable_pos a off n : reachable a off n -> 0 <= off -> uint 32 a + off = uint 32 (a + off).
Proof.
  intros (_ & _ & Hw) Ho. specialize (Hw Ho). pose proof (uint_range 32 a ltac:(lia)).
  rewrite <- (uint_small 32 (uint 32 a + off)) by lia. unfold uint. by rewrite Zplus_mod_idemp_l.
Qed.

Lemma reachable_neg a off : uint 32 (uint 32 a + uint 32 (sint 32 off)) = uint 32 (a + off).
Proof. unfold uint at 1 2. rewrite uint_sint by lia. unfold uint. by rewrite <- Zplus_mod. Qed.

Lemma run_load_ofs fuel a off c s g l m :
  reachable a off 8 ->
  run fuel (plain (load_ofs_instrs i64_load off) ++ c) (St (V32 (uint 32 a) :: s) g l m) =
  run fuel c (St (V64 (load_le m (uint 32 (a + off)) 8) :: s) g l m).
Proof.
  intros Hr. unfold load_ofs_instrs. destruct (Z.ltb_spec off 0) as [Ho | Ho]; cbn [plain map app ldst_instr].
  - rewrite run_const32, run_binop32 by done. unfold total_bin. cbn [bin_sem]. rewrite reachable_neg.
    rewrite run_load by (destruct Hr as (_ & Hm & _); lia). by rewrite Z.add_0_r.
  - rewrite run_load by (rewrite (reachable_pos a off 8) by done; apply Hr).
    by rewrite (reachable_pos a off 8).
Qed.

Lemma check_load_ofs f labels off c s :
  check (tb_ctx f) labels (plain (load_ofs_instrs i64_load off) ++ c) (T32 :: s, false) =
  check (tb_ctx f) labels c (T64 :: s, false).
Proof. unfold load_ofs_instrs. by destruct (off <? 0). Qed.

Lemma load_ofs_ok off :
  - 2 ^ 31 <= off < 2 ^ 31 ->
  forallb instr_ok (load_ofs_instrs i64_load off) = true /\ forallb plain_ok (load_ofs_instrs i64_load off) = true.
Proof.
  intros Ho. unfold load_ofs_instrs. destruct (Z.ltb_spec off 0); cbn [forallb instr_ok plain_ok ldst_instr].
  - rewrite const_ok by lia. done.
  - rewrite (uint_small 32 off) by lia. by rewrite !Z.eqb_refl.
Qed.

(** ** The lookup of a guest address *)

Definition entry_ofs (is_ld : bool) : Z := if is_ld then addr_read_ofs else addr_write_ofs.

Definition s_mask (oi : Z) : Z := Z.shiftl 1 (Z.land (get_memop oi) MO_SIZE) - 1.

(** An access that the alignment does not cover is compared by its last byte. *)
Definition bump_instrs (a_mask oi : Z) : list instr :=
  if a_mask <? s_mask oi then [Const T64 (sint 64 (s_mask oi - a_mask)); Binop T64 Add] else [].

Definition tlb_code (addr oi : Z) (is_ld e : bool) (a_mask : Z) : list code :=
  plain [GlobalGet addr; Const T64 (sint 64 (page_bits - CPU_TLB_ENTRY_BITS)); Binop T64 ShrU] ++
  plain (addr_instrs TCG_AREG0 e) ++ plain (load_ofs_instrs i64_load (tlb_mask_ofs oi)) ++
  plain [LocalSet TMP64_2_IDX; LocalGet TMP64_2_IDX; Binop T64 And] ++
  plain (addr_instrs TCG_AREG0 true) ++ plain (load_ofs_instrs i64_load (tlb_table_ofs oi)) ++
  plain [Binop T64 Add; WrapI64; LocalTee TMP32_LOCAL_0_IDX; Load 8 false 0 (entry_ofs is_ld); GlobalGet addr] ++
  plain (bump_instrs a_mask oi) ++
  plain [Const T64 (sint 64 (Z.lor page_mask a_mask)); Binop T64 And; Relop T64 Eq; Const T64 (sint 64 0);
         LocalSet TMP64_0_IDX] ++
  [IfElse None
     (plain [LocalGet TMP32_LOCAL_0_IDX; Load32 0 addend_ofs; ExtendI32U; GlobalGet addr; Binop T64 Add;
             LocalSet TMP64_0_IDX]) None].

Lemma flatten_tlb_code addr oi is_ld e a_mask :
  flatten (tlb_code addr oi is_ld e a_mask) =
  [GlobalGet addr; Const T64 (sint 64 (page_bits - CPU_TLB_ENTRY_BITS)); Binop T64 ShrU] ++
  addr_instrs TCG_AREG0 e ++ load_ofs_instrs i64_load (tlb_mask_ofs oi) ++
  [LocalSet TMP64_2_IDX; LocalGet TMP64_2_IDX; Binop T64 And] ++
  addr_instrs TCG_AREG0 true ++ load_ofs_instrs i64_load (tlb_table_ofs oi) ++
  [Binop T64 Add; WrapI64; LocalTee TMP32_LOCAL_0_IDX; Load 8 false 0 (entry_ofs is_ld); GlobalGet addr] ++
  bump_instrs a_mask oi ++
  [Const T64 (sint 64 (Z.lor page_mask a_mask)); Binop T64 And; Relop T64 Eq; Const T64 (sint 64 0);
   LocalSet TMP64_0_IDX; If None; LocalGet TMP32_LOCAL_0_IDX; Load32 0 addend_ofs; ExtendI32U; GlobalGet addr;
   Binop T64 Add; LocalSet TMP64_0_IDX; End].
Proof. unfold tlb_code. rewrite !flatten_app, !flatten_plain. done. Qed.

Lemma EmitsAt_eq m e t t' e' : EmitsAt m e t' e' -> t' = t -> EmitsAt m e t e'.
Proof. by intros ? <-. Qed.

Lemma EmitsAt_tlb_load addr oi is_ld e a_mask :
  is_reg addr = true -> access_a_mask oi = Some a_mask ->
  EmitsAt (tcg_wasm_out_tlb_load addr oi is_ld) e (flatten (tlb_code addr oi is_ld e a_mask)) true.
Proof.
  intros Hr Ha. unfold tcg_wasm_out_tlb_load. rewrite Ha, flatten_tlb_code. unfold bump_instrs. fold (s_mask oi).
  assert (Hae : is_reg TCG_AREG0 = true) by done.
  destruct (a_mask <? s_mask oi), is_ld; (eapply EmitsAt_eq; [emit | reflexivity]).
Qed.

Lemma tree_ok_plain l : forallb tree_ok (plain l) = forallb plain_ok l.
Proof. induction l as [|i l IH]; [done|]. cbn. by rewrite <- IH. Qed.

Definition ofs_ok (oi : Z) : Prop :=
  - 2 ^ 31 <= tlb_mask_ofs oi < 2 ^ 31 /\ - 2 ^ 31 <= tlb_table_ofs oi < 2 ^ 31.

(** Validates instructions that are written out. *)
Ltac check_straight Hg :=
  cbn [plain map app check check_with check1 check_plain instr_ty global_ok local_ty tb_ctx];
  rewrite ?Hg; reflexivity.

Lemma good_tlb_code addr oi is_ld e a_mask :
  is_reg addr = true -> ofs_ok oi -> good_code (tlb_code addr oi is_ld e a_mask).
Proof.
  intros Hr [Hm Ht]. assert (Hae : is_reg TCG_AREG0 = true) by done.
  assert (Hb : forall labels f s, check (tb_ctx f) labels (plain (bump_instrs a_mask oi)) (T64 :: s, false) =
    Some (T64 :: s, false)) by (intros; unfold bump_instrs; by destruct (_ <? _)).
  split; [|split].
  - unfold tlb_code. rewrite !forallb_app, !tree_ok_plain.
    rewrite !(proj2 (addr_instrs_ok _ _ Hae)), (proj2 (load_ofs_ok _ Hm)), (proj2 (load_ofs_ok _ Ht)).
    unfold bump_instrs. by destruct (_ <? _).
  - rewrite flatten_tlb_code, !forallb_app, !(proj1 (addr_instrs_ok _ _ Hae)),
      (proj1 (load_ofs_ok _ Hm)), (proj1 (load_ofs_ok _ Ht)).
    cbn [forallb instr_ok]. rewrite !(idx_ok addr), !const_ok by (lia || by apply is_reg_small).
    unfold bump_instrs. destruct is_ld, (_ <? _); cbn [forallb instr_ok]; rewrite ?const_ok by lia; done.
  - intros f labels. unfold tlb_code.
    assert (Hg : tb_globals addr = true) by by apply reg_global_ok.
    rewrite check_app. replace (check _ _ (plain [GlobalGet addr; _; _]) _) with (Some ([T64], false)) by check_straight Hg.
    cbn [mbind option_bind]. rewrite check_addr, check_load_ofs by done.
    rewrite check_app. replace (check _ _ (plain [LocalSet _; _; _]) _) with (Some ([T64], false)) by check_straight Hg.
    cbn [mbind option_bind]. rewrite check_addr, check_load_ofs by done.
    rewrite check_app. replace (check _ _ (plain [_; _; _; _; _]) _) with (Some ([T64; T64], false)) by check_straight Hg.
    cbn [mbind option_bind]. rewrite check_app, Hb. cbn [mbind option_bind].
    check_straight Hg.
Qed.

(** *** Execution *)

Definition tlb_entry (g m : Z -> Z) (addr oi : Z) : Z :=
  uint 64 (Z.land (Z.shiftr (g addr) (page_bits - CPU_TLB_ENTRY_BITS))
                  (load_le m (uint 32 (g TCG_AREG0 + tlb_mask_ofs oi)) 8)
           + load_le m (uint 32 (g TCG_AREG0 + tlb_table_ofs oi)) 8).

Definition tlb_compare (taddr oi a_mask : Z) : Z :=
  Z.land (if a_mask <? s_mask oi then uint 64 (taddr + (s_mask oi - a_mask)) else taddr)
         (uint 64 (Z.lor page_mask a_mask)).

(** The value in the local: the host address, or zero for a miss. *)
Definition wasm_tlb (g m : Z -> Z) (addr oi : Z) (is_ld : bool) (a_mask : Z) : Z :=
  let p := uint 32 (tlb_entry g m addr oi) in
  if load_le m (p + entry_ofs is_ld) 8 =? tlb_compare (g addr) oi a_mask
  then uint 64 (load_le m (p + addend_ofs) 4 + g addr) else 0.

(** The descriptor of the TLB and the entry are in the memory. *)
Definition tlb_readable (g m : Z -> Z) (addr oi : Z) : Prop :=
  reachable (g TCG_AREG0) (tlb_mask_ofs oi) 8 /\ reachable (g TCG_AREG0) (tlb_table_ofs oi) 8 /\
  uint 32 (tlb_entry g m addr oi) + 32 <= mem_size.

Definition page_ok : Prop := CPU_TLB_ENTRY_BITS <= page_bits < 64.

Lemma run_bump fuel a_mask oi x c s g l m :
  run fuel (plain (bump_instrs a_mask oi) ++ c) (St (V64 x :: s) g l m) =
  run fuel c (St (V64 (if a_mask <? s_mask oi then uint 64 (x + (s_mask oi - a_mask)) else x) :: s) g l m).
Proof.
  unfold bump_instrs. destruct (_ <? _); [|done]. cbn [plain map app].
  rewrite run_const64, run_binop64 by done. unfold total_bin. cbn [bin_sem].
  do 4 f_equal. rewrite uint_sint by lia. unfold uint. by rewrite Zplus_mod_idemp_r.
Qed.

(** A conditional without results. *)
Lemma run_if fuel th c (k : bool) s g l m l' :
  (k = true -> run fuel th (St [] g l m) = WNext (St [] g l' m)) ->
  run fuel (IfElse None th None :: c) (St (V32 (b2z k) :: s) g l m) =
  run fuel c (St s g (if k then l' else l) m).
Proof.
  intros Hk. unfold run. cbn [run_with exec stk]. destruct k; [|done].
  change (b2z true =? 0) with false. cbv iota. unfold run in Hk. unfold set_stk. cbn [globals locals wmem].
  by rewrite (Hk eq_refl).
Qed.

Lemma env_locals_env e g l m s :
  env_ok e (St s g l m) -> env_locals TCG_AREG0 e g l TMP32_LOCAL_ENV_IDX = V32 (uint 32 (g TCG_AREG0)).
Proof.
  intros He. unfold env_locals. rewrite Z.eqb_refl. cbn [andb]. destruct e; cbn [negb].
  - by apply (He eq_refl).
  - by rewrite fn_lookup_insert.
Qed.

(** The hit: the addend of the entry. *)
Lemma run_tlb_hit fuel addr p g l m :
  l TMP32_LOCAL_0_IDX = V32 p -> p + 32 <= mem_size ->
  run fuel (plain [LocalGet TMP32_LOCAL_0_IDX; Load32 0 addend_ofs; ExtendI32U; GlobalGet addr; Binop T64 Add;
                   LocalSet TMP64_0_IDX]) (St [] g l m) =
  WNext (St [] g (<[TMP64_0_IDX := V64 (uint 64 (load_le m (p + addend_ofs) 4 + g addr))]> l) m).
Proof.
  intros Hl Hp. cbn [plain map]. rewrite run_local_get_other, Hl.
  rewrite run_load32 by (unfold addend_ofs; lia). by rewrite run_extend_u, run_global_get, run_binop64, run_local_set, run_nil.
Qed.

Lemma run_tlb_code fuel addr oi is_ld e a_mask g l m :
  page_ok -> tlb_readable g m addr oi -> env_ok e (St [] g l m) ->
  exists l', run fuel (tlb_code addr oi is_ld e a_mask) (St [] g l m) = WNext (St [] g l' m) /\
    l' TMP64_0_IDX = V64 (wasm_tlb g m addr oi is_ld a_mask) /\
    l' TMP32_LOCAL_ENV_IDX = V32 (uint 32 (g TCG_AREG0)).
Proof.
  intros Hp (Rm & Rt & Re) He. unfold tlb_code. pose proof (env_locals_env e g l m [] He) as Henv.
  assert (Hsh : uint 64 (sint 64 (page_bits - CPU_TLB_ENTRY_BITS)) mod 64 = page_bits - CPU_TLB_ENTRY_BITS).
  { unfold page_ok, CPU_TLB_ENTRY_BITS in *. rewrite uint_sint, uint_small, Z.mod_small by lia. lia. }
  cbn [plain map app]. rewrite run_global_get, run_const64, run_binop64 by done. unfold total_bin. cbn [bin_sem].
  rewrite Hsh. fold (plain (addr_instrs TCG_AREG0 e)). rewrite run_addr by done.
  set (l1 := env_locals TCG_AREG0 e g l) in *.
  rewrite run_load_ofs by done. rewrite run_local_set, run_local_get, run_binop64 by done.
  unfold total_bin. cbn [bin_sem].
  rewrite run_addr by (intros _; cbn [locals globals]; by rewrite fn_lookup_insert_ne).
  rewrite run_load_ofs by done. rewrite run_binop64, run_wrap, run_local_tee by done. unfold total_bin. cbn [bin_sem].
  set (x := uint 64 (Z.land _ _ + _)). change x with (tlb_entry g m addr oi). clear x.
  set (p := uint 32 (tlb_entry g m addr oi)) in *.
  rewrite run_load by (unfold entry_ofs, addr_read_ofs, addr_write_ofs; destruct is_ld; lia).
  rewrite run_global_get, run_bump, run_const64, run_binop64, run_relop64, run_const64, run_local_set by done.
  unfold total_bin. cbn [bin_sem rel_sem]. rewrite uint_sint by lia.
  erewrite run_if by (intros _; apply run_tlb_hit; [rewrite fn_lookup_insert_ne by done; apply fn_lookup_insert | exact Re]).
  rewrite run_nil. eexists. split; [reflexivity|]. unfold wasm_tlb. fold p. unfold tlb_compare.
  change (env_locals TCG_AREG0 true g ?l0) with l0.
  destruct (_ =? _); (split; [by rewrite fn_lookup_insert | by rewrite !fn_lookup_insert_ne]).
Qed.

(** *** The interpreter's lookup *)

(** The operands of the lookup in the pool at [ptr], as tcg_tci_out_qemu_ldst
    stores them. *)
Definition tlb_operands (m : Z -> Z) (ptr oi a_mask : Z) : Prop :=
  data64 m ptr 3 = a_mask /\ data64 m ptr 4 = uint 64 (tlb_mask_ofs oi) /\ data64 m ptr 5 = page_bits /\
  data64 m ptr 6 = uint 64 page_mask /\ data64 m ptr 7 = uint 64 (tlb_table_ofs oi).

Lemma sint_pattern w v : 0 < w <= 64 -> - 2 ^ (w - 1) <= v < 2 ^ (w - 1) -> sint w (uint 64 v) = v.
Proof. intros Hw Hv. rewrite sint_uint_le by lia. apply sint_small; lia. Qed.

Lemma s_mask_range oi : 0 <= s_mask oi < 2 ^ 7.
Proof.
  unfold s_mask, MO_SIZE. change 7 with (Z.ones 3) at 1 2. rewrite Z.land_ones by lia.
  pose proof (Z.mod_pos_bound (get_memop oi) (2 ^ 3) ltac:(lia)) as Hr. change (2 ^ 3) with 8 in *.
  rewrite shiftl_mul, Z.mul_1_l by lia.
  pose proof (Z.pow_le_mono_r 2 (get_memop oi mod 8) 7 ltac:(lia) ltac:(lia)).
  pose proof (Z.pow_pos_nonneg 2 (get_memop oi mod 8) ltac:(lia) ltac:(lia)). lia.
Qed.

Lemma lor_uint64 x a : 0 <= a < 2 ^ 64 -> Z.lor (uint 64 x) a = uint 64 (Z.lor x a).
Proof.
  intros Ha. rewrite <- (uint_small 64 a) at 1 by done. zbits.
Qed.

Lemma entry_word m a p k n : p = uint 32 a -> 0 <= k -> p + k < 2 ^ 32 -> load_word m (a + k) n = load_le m (p + k) n.
Proof.
  intros -> Hk Hlt. unfold load_word. f_equal. pose proof (uint_range 32 a ltac:(lia)).
  rewrite <- (uint_small 32 (uint 32 a + k)) by lia. unfold uint. by rewrite Zplus_mod_idemp_l.
Qed.

Lemma tlb_load_entry g m addr oi is_ld ptr a_mask :
  page_ok -> ofs_ok oi -> 0 <= a_mask < 2 ^ 31 -> tlb_operands m ptr oi a_mask ->
  tlb_readable g m addr oi -> mem_size <= 2 ^ 32 ->
  let p := uint 32 (tlb_entry g m addr oi) in
  tlb_load m (g TCG_AREG0) (g addr) (get_memop oi) ptr is_ld =
  if load_le m (p + entry_ofs is_ld) 8 =? tlb_compare (g addr) oi a_mask
  then uint 64 (g addr + sint 32 (load_le m (p + addend_ofs) 4)) else 0.
Proof.
  intros Hp [Hm Ht] Ha (E3 & E4 & E5 & E6 & E7) (_ & _ & Re) Hsz p. unfold tlb_load.
  rewrite E3, E4, E5, E6, E7. rewrite !(sint_pattern 32) by lia.
  unfold page_ok, CPU_TLB_ENTRY_BITS in Hp. rewrite (sint_small 8 page_bits) by lia.
  rewrite (uint_small 32 a_mask) by lia. fold CPU_TLB_ENTRY_BITS.
  set (x := uint 64 (Z.land _ _ + _)). change x with (tlb_entry g m addr oi). clear x.
  fold (s_mask oi). pose proof (s_mask_range oi). rewrite (uint_small 32 (s_mask oi)) by lia.
  rewrite lor_uint64 by lia. fold (tlb_compare (g addr) oi a_mask). fold (entry_ofs is_ld).
  assert (0 <= entry_ofs is_ld <= 8) by by destruct is_ld.
  rewrite !(entry_word m _ p) by (done || unfold addend_ofs; lia). by rewrite Z.eqb_sym.
Qed.

(** Zero and sign extension of the addend give the same 32-bit address. *)
Lemma host_address a d :
  uint 32 (a + d) <> 0 ->
  (uint 64 (d + a) = 0 <-> uint 64 (a + sint 32 d) = 0) /\
  uint 32 (uint 64 (d + a)) = uint 32 (uint 64 (a + sint 32 d)).
Proof.
  intros Hn. rewrite !uint_uint_le by lia.
  assert (E1 : uint 32 (d + a) = uint 32 (a + d)) by (f_equal; lia).
  assert (E2 : uint 32 (a + sint 32 d) = uint 32 (a + d)).
  { change (eqm 32 (a + sint 32 d) (a + d)). by rewrite eqm_sint by lia. }
  assert (Hz : forall x, uint 64 x = 0 -> uint 32 x = 0).
  { intros x Hx. rewrite <- (uint_uint_le 32 64) by lia. by rewrite Hx. }
  split; [split; intros Hx%Hz; congruence | congruence].
Qed.

(** C5: The lookup of a guest address by the generated code and by the
    interpreter agree: with the same registers, memory and operands in the
    pool, the code leaves zero in its local exactly when tlb_load returns
    zero (a miss), and otherwise the same host address, provided the
    descriptor and the entry of the TLB are in the memory and a hit does not
    give a null pointer; registers and memory do not change. *)
Theorem tlb_lookup_agrees addr oi is_ld ptr a_mask :
  is_reg addr = true -> access_a_mask oi = Some a_mask -> 0 <= a_mask < 2 ^ 31 -> page_ok -> ofs_ok oi ->
  mem_size <= 2 ^ 32 ->
  Compiles (tcg_wasm_out_tlb_load addr oi is_ld)
    (fun st => let g := globals st in let m := wmem st in
       tlb_operands m ptr oi a_mask /\ tlb_readable g m addr oi /\
       (load_le m (uint 32 (tlb_entry g m addr oi) + entry_ofs is_ld) 8 = tlb_compare (g addr) oi a_mask ->
        uint 32 (g addr + load_le m (uint 32 (tlb_entry g m addr oi) + addend_ofs) 4) <> 0))
    (fun st st' => globals st' = globals st /\ wmem st' = wmem st /\
       exists v, locals st' TMP64_0_IDX = V64 v /\
         let r := tlb_load (wmem st) (globals st TCG_AREG0) (globals st addr) (get_memop oi) ptr is_ld in
         (v = 0 <-> r = 0) /\ uint 32 v = uint 32 r).
Proof.
  intros Hr Ha Har Hp Ho Hsz e. exists (tlb_code addr oi is_ld e a_mask), true.
  split; [by apply EmitsAt_tlb_load|]. split; [by apply good_tlb_code|].
  intros fuel [s g l m] Hs He Hg (Hops & Hread & Hnn). cbn -[load_le] in *. subst s.
  destruct (run_tlb_code fuel addr oi is_ld e a_mask g l m Hp Hread He) as (l' & Hrun & Hv & Henv).
  eexists. split; [exact Hrun|]. split; [done|]. split; [by intros _|]. split; [done|].
  split; [done|]. split; [done|]. cbn -[load_le]. eexists. split; [exact Hv|].
  rewrite (tlb_load_entry g m addr oi is_ld ptr a_mask) by done. unfold wasm_tlb.
  destruct (Z.eqb_spec (load_le m (uint 32 (tlb_entry g m addr oi) + entry_ofs is_ld) 8)
    (tlb_compare (g addr) oi a_mask)) as [Hhit|]; [|done].
  by apply host_address, Hnn.
Qed.

End Mem.

(** A guest page at 0x12345000 is at 0x5000 on the host; its entry has index
    0x45 in a table at 0x2000. *)
Definition sample_tlb_mem : Z -> Z :=
  fold_right (fun '(a, v, n) m => store_le m a v n) (fun _ => 0)
    [(0xf80, 0xfe0, 4%nat); (0xf84, 0x2000, 4%nat);
     (0x28a0, 0x12345000, 8%nat); (0x28a0 + addend_ofs, 0x5000 - 0x12345000, 4%nat);
     (0x3018, 0, 8%nat); (0x3020, -128, 8%nat); (0x3028, 12, 8%nat); (0x3030, -4096, 8%nat);
     (0x3038, -124, 8%nat)].

Definition sample_tlb_regs : Z -> Z := <[TCG_AREG0 := 0x1000]> (sample_regs [0x12345678]).

Lemma tlb_lookup_agrees_witness :
  let WH := sample_engine in let LH := sample_tlb in
  tlb_operands sample_tlb_mem 0x3000 32 0 /\ tlb_readable sample_tlb_regs sample_tlb_mem 0 32 /\
  tlb_load sample_tlb_mem 0x1000 0x12345678 2 0x3000 true = 0x5678 /\
  Compiles (tcg_wasm_out_tlb_load 0 32 true)
    (fun st => let g := globals st in let m := wmem st in
       tlb_operands m 0x3000 32 0 /\ tlb_readable g m 0 32 /\
       (load_le m (uint 32 (tlb_entry g m 0 32) + entry_ofs true) 8 = tlb_compare (g 0) 32 0 ->
        uint 32 (g 0 + load_le m (uint 32 (tlb_entry g m 0 32) + addend_ofs) 4) <> 0))
    (fun st st' => globals st' = globals st /\ wmem st' = wmem st /\
       exists v, locals st' TMP64_0_IDX = V64 v /\
         let r := tlb_load (wmem st) (globals st TCG_AREG0) (globals st 0) (get_memop 32) 0x3000 true in
         (v = 0 <-> r = 0) /\ uint 32 v = uint 32 r).
Proof.
  split; [vm_compute; repeat split; reflexivity|].
  split; [vm_compute; repeat split; discriminate|].
  split; [vm_compute; reflexivity|].
  apply (tlb_lookup_agrees (H := sample_engine) (L := sample_tlb) 0 32 true 0x3000 0);
    [reflexivity | reflexivity | lia | split; [discriminate | reflexivity] | | cbn; lia].
  split; (split; [discriminate | reflexivity]).
Defined.
