(* ===== verification/SabFs.v ===== *)
(** * SABFS: the file system in a SharedArrayBuffer (sabfs.js)

    The container's file system lives in one buffer: a superblock, a table of
    inodes of 128 bytes, and data blocks of 4096 bytes of which the free ones
    form a linked list.  [fs] is the state of the module (its variables and
    the buffer), [M] computations that may throw a RangeError, as accesses
    outside the buffer do.  A JS string is the list of its UTF-16 code units,
    a JS number an integer; TextEncoder, TextDecoder and the clock belong to
    the browser and are the class [Browser].

    The functions run one after the other; interleavings of the atomic steps
    of several workers are not modelled. *)

From Stdlib Require Import ZArith Lia Bool.
From stdpp Require Import base numbers functions list option gmap.
From S2P Require Import Prelude.
From S2P Require Import Bytes.

Local Open Scope Z_scope.

Definition str : Type := list Z.

Class Browser := {
  encode : str -> list Z;
  decode : list Z -> str;
  clock : nat -> Z;
}.

(** ** Constants *)

Definition MAGIC : Z := 0x53414247.
Definition VERSION : Z := 2.
Definition BLOCK_SIZE : Z := 4096.
Definition INODE_SIZE : Z := 128.
Definition DIRENT_SIZE : Z := 32.
Definition DIRENTS_PER_BLOCK : Z := 128.
Definition DIRECT_BLOCKS : Z := 8.
Definition PTRS_PER_BLOCK : Z := 1024.
Definition MAX_NAME_LEN : Z := 255.

Definition S_IFMT : Z := 0xf000.
Definition S_IFDIR : Z := 0x4000.
Definition S_IFREG : Z := 0x8000.
Definition S_IFLNK : Z := 0xa000.
Definition S_IFBLK : Z := 0x6000.
Definition S_IFCHR : Z := 0x2000.
Definition S_IFIFO : Z := 0x1000.
Definition S_IFSOCK : Z := 0xc000.

Definition DT_UNKNOWN : Z := 0.
Definition DT_FIFO : Z := 1.
Definition DT_CHR : Z := 2.
Definition DT_DIR : Z := 4.
Definition DT_BLK : Z := 6.
Definition DT_REG : Z := 8.
Definition DT_LNK : Z := 10.
Definition DT_SOCK : Z := 12.

Definition O_RDONLY : Z := 0.
Definition O_WRONLY : Z := 1.
Definition O_RDWR : Z := 2.
Definition O_CREAT : Z := 0x40.
Definition O_EXCL : Z := 0x80.
Definition O_TRUNC : Z := 0x200.
Definition O_APPEND : Z := 0x400.
Definition O_NOFOLLOW : Z := 0x20000.

Definition SB_MAGIC : Z := 0.
Definition SB_VERSION : Z := 4.
Definition SB_BLOCK_SIZE : Z := 8.
Definition SB_TOTAL_BLOCKS : Z := 12.
Definition SB_INODE_COUNT : Z := 16.
Definition SB_FREE_BLOCK : Z := 20.
Definition SB_FREE_INODE : Z := 24.
Definition SB_ROOT_INODE : Z := 28.
Definition SB_DATA_BLOCKS : Z := 32.

Definition INO_MODE : Z := 0.
Definition INO_NLINK : Z := 4.
Definition INO_UID : Z := 8.
Definition INO_GID : Z := 12.
Definition INO_SIZE_LO : Z := 16.
Definition INO_SIZE_HI : Z := 20.
Definition INO_ATIME : Z := 24.
Definition INO_MTIME : Z := 28.
Definition INO_CTIME : Z := 32.
Definition INO_BLOCKS : Z := 36.
Definition INO_DIRECT : Z := 40.
Definition INO_INDIRECT : Z := 72.
Definition INO_DOUBLE_INDIRECT : Z := 76.
Definition INO_FLAGS : Z := 80.

(** The end of the free list. *)
Definition NIL : Z := 0xffffffff.

(** ** State *)

Record file := { f_ino : Z; f_path : str; f_flags : Z; f_pos : Z }.

(** [ticks] counts the readings of the clock. *)
Record fs := {
  sab : Z -> Z;
  byteLength : Z;
  inodeTableOffset : Z;
  dataBlocksOffset : Z;
  totalDataBlocks : Z;
  fdTable : gmap Z file;
  nextFd : Z;
  pathCache : gmap str Z;
  ticks : nat;
}.

Definition set_sab (s : fs) (b : Z -> Z) : fs :=
  {| sab := b; byteLength := byteLength s; inodeTableOffset := inodeTableOffset s;
     dataBlocksOffset := dataBlocksOffset s; totalDataBlocks := totalDataBlocks s; fdTable := fdTable s;
     nextFd := nextFd s; pathCache := pathCache s; ticks := ticks s |}.

Definition set_fds (s : fs) (t : gmap Z file) (n : Z) : fs :=
  {| sab := sab s; byteLength := byteLength s; inodeTableOffset := inodeTableOffset s;
     dataBlocksOffset := dataBlocksOffset s; totalDataBlocks := totalDataBlocks s; fdTable := t;
     nextFd := n; pathCache := pathCache s; ticks := ticks s |}.

Definition set_cache (s : fs) (c : gmap str Z) : fs :=
  {| sab := sab s; byteLength := byteLength s; inodeTableOffset := inodeTableOffset s;
     dataBlocksOffset := dataBlocksOffset s; totalDataBlocks := totalDataBlocks s; fdTable := fdTable s;
     nextFd := nextFd s; pathCache := c; ticks := ticks s |}.

Definition set_ticks (s : fs) (n : nat) : fs :=
  {| sab := sab s; byteLength := byteLength s; inodeTableOffset := inodeTableOffset s;
     dataBlocksOffset := dataBlocksOffset s; totalDataBlocks := totalDataBlocks s; fdTable := fdTable s;
     nextFd := nextFd s; pathCache := pathCache s; ticks := n |}.

(** ** Computations; [None] is an exception *)

Definition M (A : Type) : Type := fs -> option (A * fs).

Definition ret {A} (x : A) : M A := fun s => Some (x, s).
Definition bind {A B} (m : M A) (f : A -> M B) : M B :=
  fun s => match m s with Some (x, s') => f x s' | None => None end.
Definition get : M fs := fun s => Some (s, s).
Definition throw {A} : M A := fun _ => None.

Declare Scope sab_scope.
Delimit Scope sab_scope with sab.
Notation "x <- m ;; k" := (bind m (fun x => k)) (at level 100, m at next level, right associativity) : sab_scope.
Notation "m ;; k" := (bind m (fun _ => k)) (at level 100, right associativity) : sab_scope.
Local Open Scope sab_scope.

(** ** The buffer: DataView, Uint8Array and Atomics *)

Definition in_view (s : fs) (off n : Z) : bool := (0 <=? off) && (off + n <=? byteLength s).

Definition getUint32 (off : Z) : M Z :=
  fun s => if in_view s off 4 then Some (load_le (sab s) off 4, s) else None.
Definition getUint16 (off : Z) : M Z :=
  fun s => if in_view s off 2 then Some (load_le (sab s) off 2, s) else None.
Definition setUint32 (off v : Z) : M unit :=
  fun s => if in_view s off 4 then Some (tt, set_sab s (store_le (sab s) off v 4)) else None.
Definition setUint16 (off v : Z) : M unit :=
  fun s => if in_view s off 2 then Some (tt, set_sab s (store_le (sab s) off v 2)) else None.

(** The value that was there. *)
Definition compareExchange (off old new : Z) : M Z :=
  v <- getUint32 off ;;
  (if v =? old then setUint32 off new else ret tt) ;;
  ret v.

(** u8.fill(0, a, b) and u8.slice(a, b), whose bounds are clamped. *)
Definition u8_fill0 (a b : Z) : M unit :=
  fun s => Some (tt, set_sab s (fun i => if (a <=? i) && (i <? b) then 0 else sab s i)).

Definition bytes_at (m : Z -> Z) (a : Z) (n : nat) : list Z := map (fun i => m (a + Z.of_nat i)) (seq 0 n).

Definition u8_slice (a b : Z) : M (list Z) :=
  fun s => Some (bytes_at (sab s) a (Z.to_nat (Z.min b (byteLength s) - a)), s).

(** u8.set(l, off). *)
Definition write_bytes (m : Z -> Z) (off : Z) (l : list Z) : Z -> Z :=
  fun i => if (off <=? i) && (i <? off + Z.of_nat (length l)) then nth (Z.to_nat (i - off)) l 0 else m i.

Definition u8_set (l : list Z) (off : Z) : M unit :=
  fun s => if in_view s off (Z.of_nat (length l)) then Some (tt, set_sab s (write_bytes (sab s) off l)) else None.

(** Array.slice on bytes. *)
Definition slice (l : list Z) (a b : Z) : list Z := take (Z.to_nat (b - a)) (drop (Z.to_nat a) l).

Definition ceil_div (a b : Z) : Z := - (- a / b).

Section Ops.
Context `{B : Browser}.

Definition now : M Z := fun s => Some (clock (ticks s), set_ticks s (S (ticks s))).

(** ** init and attach *)

Fixpoint link_free (n : nat) (i : Z) : M unit :=
  match n with
  | O => ret tt
  | S n =>
      s <- get ;;
      setUint32 (dataBlocksOffset s + i * BLOCK_SIZE) (i + 1) ;;
      link_free n (i + 1)
  end.

(** new Uint32Array(sab) needs whole words. *)
Definition new_sab (sizeBytes inodeTableBlocks total : Z) : M unit :=
  fun s =>
    if (0 <=? sizeBytes) && (sizeBytes mod 4 =? 0) then
      Some (tt, {| sab := fun _ => 0; byteLength := sizeBytes; inodeTableOffset := BLOCK_SIZE;
                   dataBlocksOffset := BLOCK_SIZE + inodeTableBlocks * BLOCK_SIZE;
                   totalDataBlocks := total; fdTable := fdTable s; nextFd := nextFd s;
                   pathCache := pathCache s; ticks := ticks s |})
    else None.

(** [inodeCount] is options.inodeCount, zero when it is not given. *)
Definition init (sizeBytes inodeCount : Z) : M unit :=
  let totalBlocks := sizeBytes / BLOCK_SIZE in
  let inodeCount := if inodeCount =? 0 then Z.min (totalBlocks / 4) 65536 else inodeCount in
  let inodeTableBlocks := ceil_div (inodeCount * INODE_SIZE) BLOCK_SIZE in
  let total := totalBlocks - 1 - inodeTableBlocks in
  new_sab sizeBytes inodeTableBlocks total ;;
  setUint32 SB_MAGIC MAGIC ;;
  setUint32 SB_VERSION VERSION ;;
  setUint32 SB_BLOCK_SIZE BLOCK_SIZE ;;
  setUint32 SB_TOTAL_BLOCKS totalBlocks ;;
  setUint32 SB_INODE_COUNT inodeCount ;;
  setUint32 SB_FREE_BLOCK 1 ;;
  setUint32 SB_FREE_INODE 1 ;;
  setUint32 SB_ROOT_INODE 0 ;;
  setUint32 SB_DATA_BLOCKS total ;;
  link_free (Z.to_nat (total - 2)) 1 ;;
  s <- get ;;
  setUint32 (dataBlocksOffset s + (total - 1) * BLOCK_SIZE) 0xffffffff ;;
  t <- now ;;
  let rootOff := inodeTableOffset s in
  setUint32 (rootOff + INO_MODE) (Z.lor S_IFDIR 0x1ed) ;;
  setUint32 (rootOff + INO_NLINK) 2 ;;
  setUint32 (rootOff + INO_UID) 0 ;;
  setUint32 (rootOff + INO_GID) 0 ;;
  setUint32 (rootOff + INO_SIZE_LO) 0 ;;
  setUint32 (rootOff + INO_SIZE_HI) 0 ;;
  setUint32 (rootOff + INO_ATIME) t ;;
  setUint32 (rootOff + INO_MTIME) t ;;
  setUint32 (rootOff + INO_CTIME) t.

(** The buffer [b] of [len] bytes comes from another worker. *)
Definition attach (b : Z -> Z) (len : Z) : M unit :=
  (fun s => if negb (len mod 4 =? 0) then None else Some (tt, {| sab := b; byteLength := len; inodeTableOffset := inodeTableOffset s;
                         dataBlocksOffset := dataBlocksOffset s; totalDataBlocks := totalDataBlocks s;
                         fdTable := fdTable s; nextFd := nextFd s; pathCache := pathCache s; ticks := ticks s |})) ;;
  magic <- getUint32 SB_MAGIC ;;
  if negb (magic =? MAGIC) then throw
  else
    inodeCount <- getUint32 SB_INODE_COUNT ;;
    let inodeTableBlocks := ceil_div (inodeCount * INODE_SIZE) BLOCK_SIZE in
    data <- getUint32 SB_DATA_BLOCKS ;;
    total <- getUint32 SB_TOTAL_BLOCKS ;;
    fun s => Some (tt, {| sab := b; byteLength := len; inodeTableOffset := BLOCK_SIZE;
                          dataBlocksOffset := BLOCK_SIZE + inodeTableBlocks * BLOCK_SIZE;
                          totalDataBlocks := if data =? 0 then total - 1 - inodeTableBlocks else data;
                          fdTable := fdTable s; nextFd := nextFd s; pathCache := pathCache s; ticks := ticks s |}).

(** ** Blocks and inodes *)

(** [retry] bounds the calls after a failed compareExchange. *)
Fixpoint allocBlock_try (retry : nat) : M Z :=
  match retry with
  | O => throw
  | S retry =>
      freeBlock <- getUint32 SB_FREE_BLOCK ;;
      if (freeBlock =? NIL) || (freeBlock =? 0) then ret (-1)
      else
        s <- get ;;
        let blockOff := dataBlocksOffset s + freeBlock * BLOCK_SIZE in
        nextFree <- getUint32 blockOff ;;
        v <- compareExchange SB_FREE_BLOCK freeBlock nextFree ;;
        if negb (v =? freeBlock) then allocBlock_try retry
        else
          u8_fill0 blockOff (blockOff + BLOCK_SIZE) ;;
          ret freeBlock
  end.

(** Without other workers the exchange succeeds at once. *)
Definition allocBlock : M Z := allocBlock_try 1.

Fixpoint freeBlock_try (retry : nat) (blockNum blockOff : Z) : M unit :=
  match retry with
  | O => throw
  | S retry =>
      freeHead <- getUint32 SB_FREE_BLOCK ;;
      setUint32 blockOff freeHead ;;
      v <- compareExchange SB_FREE_BLOCK freeHead blockNum ;;
      if v =? freeHead then ret tt else freeBlock_try retry blockNum blockOff
  end.

Definition freeBlock (blockNum : Z) : M unit :=
  if (blockNum =? 0) || (blockNum =? NIL) then ret tt
  else
    s <- get ;;
    freeBlock_try 1 blockNum (dataBlocksOffset s + blockNum * BLOCK_SIZE).

Fixpoint allocInode_try (retry : nat) (inodeCount : Z) : M Z :=
  match retry with
  | O => throw
  | S retry =>
      freeInode <- getUint32 SB_FREE_INODE ;;
      if freeInode >=? inodeCount then ret (-1)
      else
        v <- compareExchange SB_FREE_INODE freeInode (freeInode + 1) ;;
        if v =? freeInode then
          s <- get ;;
          let off := inodeTableOffset s + freeInode * INODE_SIZE in
          u8_fill0 off (off + INODE_SIZE) ;;
          ret freeInode
        else allocInode_try retry inodeCount
  end.

Definition allocInode : M Z :=
  inodeCount <- getUint32 SB_INODE_COUNT ;;
  allocInode_try 1 inodeCount.

Definition inodeOffset (s : fs) (ino : Z) : Z := inodeTableOffset s + ino * INODE_SIZE.
Definition blockOffset (s : fs) (blockNum : Z) : Z := dataBlocksOffset s + blockNum * BLOCK_SIZE.

Record inode := {
  mode : Z;
  nlink : Z;
  uid : Z;
  gid : Z;
  isize : Z;
  atime : Z;
  mtime : Z;
  ctime : Z;
  iblocks : Z;
  direct : list Z;
  indirect : Z;
  doubleIndirect : Z;
  iflags : Z;
}.

Fixpoint getWords (n : nat) (off : Z) : M (list Z) :=
  match n with
  | O => ret []
  | S n => w <- getUint32 off ;; ws <- getWords n (off + 4) ;; ret (w :: ws)
  end.

Definition readInode (ino : Z) : M inode :=
  s <- get ;;
  let off := inodeOffset s ino in
  m <- getUint32 (off + INO_MODE) ;;
  n <- getUint32 (off + INO_NLINK) ;;
  u <- getUint32 (off + INO_UID) ;;
  g <- getUint32 (off + INO_GID) ;;
  lo <- getUint32 (off + INO_SIZE_LO) ;;
  hi <- getUint32 (off + INO_SIZE_HI) ;;
  at_ <- getUint32 (off + INO_ATIME) ;;
  mt <- getUint32 (off + INO_MTIME) ;;
  ct <- getUint32 (off + INO_CTIME) ;;
  bl <- getUint32 (off + INO_BLOCKS) ;;
  d <- getWords 8 (off + INO_DIRECT) ;;
  i1 <- getUint32 (off + INO_INDIRECT) ;;
  i2 <- getUint32 (off + INO_DOUBLE_INDIRECT) ;;
  fl <- getUint32 (off + INO_FLAGS) ;;
  ret {| mode := m; nlink := n; uid := u; gid := g; isize := lo + hi * 0x100000000; atime := at_; mtime := mt;
         ctime := ct; iblocks := bl; direct := d; indirect := i1; doubleIndirect := i2; iflags := fl |}.

(** The properties of the object that writeInode receives, in its order. *)
Inductive prop : Type :=
| Mode (v : Z) | Nlink (v : Z) | Uid (v : Z) | Gid (v : Z) | Size (v : Z) | Atime (v : Z) | Mtime (v : Z)
| Ctime (v : Z) | Blocks (v : Z) | Direct (l : list Z) | Indirect (v : Z) | DoubleIndirect (v : Z) | Flags (v : Z).

Fixpoint setWords (l : list Z) (n : nat) (off : Z) : M unit :=
  match n with
  | O => ret tt
  | S n => setUint32 off (hd 0 l) ;; setWords (tl l) n (off + 4)
  end.

Definition write_prop (off : Z) (p : prop) : M unit :=
  match p with
  | Mode v => setUint32 (off + INO_MODE) v
  | Nlink v => setUint32 (off + INO_NLINK) v
  | Uid v => setUint32 (off + INO_UID) v
  | Gid v => setUint32 (off + INO_GID) v
  | Size v =>
      setUint32 (off + INO_SIZE_LO) (Z.land v 0xffffffff) ;;
      setUint32 (off + INO_SIZE_HI) (v / 0x100000000)
  | Atime v => setUint32 (off + INO_ATIME) v
  | Mtime v => setUint32 (off + INO_MTIME) v
  | Ctime v => setUint32 (off + INO_CTIME) v
  | Blocks v => setUint32 (off + INO_BLOCKS) v
  | Direct l => setWords l 8 (off + INO_DIRECT)
  | Indirect v => setUint32 (off + INO_INDIRECT) v
  | DoubleIndirect v => setUint32 (off + INO_DOUBLE_INDIRECT) v
  | Flags v => setUint32 (off + INO_FLAGS) v
  end.

Fixpoint write_props (off : Z) (l : list prop) : M unit :=
  match l with
  | [] => ret tt
  | p :: l => write_prop off p ;; write_props off l
  end.

Definition writeInode (ino : Z) (data : list prop) : M unit :=
  s <- get ;; write_props (inodeOffset s ino) data.

(** ** The blocks of a file *)

(** A zero pointer is a hole. *)
Definition or_hole (ptr : Z) : Z := if ptr =? 0 then -1 else ptr.

Definition getBlockNum (i : inode) (fileBlock : Z) : M Z :=
  if fileBlock <? DIRECT_BLOCKS then
    match direct i !! Z.to_nat fileBlock with
    | Some blk => if 0 <=? fileBlock then ret (or_hole blk) else throw
    | None => throw
    end
  else
    s <- get ;;
    let indirectIdx := fileBlock - DIRECT_BLOCKS in
    if indirectIdx <? PTRS_PER_BLOCK then
      if indirect i =? 0 then ret (-1)
      else ptr <- getUint32 (blockOffset s (indirect i) + indirectIdx * 4) ;; ret (or_hole ptr)
    else
      let doubleIdx := indirectIdx - PTRS_PER_BLOCK in
      let l1 := doubleIdx / PTRS_PER_BLOCK in
      let l2 := doubleIdx mod PTRS_PER_BLOCK in
      if doubleIndirect i =? 0 then ret (-1)
      else
        l1Ptr <- getUint32 (blockOffset s (doubleIndirect i) + l1 * 4) ;;
        if l1Ptr =? 0 then ret (-1)
        else ptr <- getUint32 (blockOffset s l1Ptr + l2 * 4) ;; ret (or_hole ptr).

(** The block that the word at [slot] points to, allocated when there is
    none; then [newBlock] is given back if that fails. *)
Definition ensure_block (slot newBlock : Z) : M (option Z) :=
  ptr <- getUint32 slot ;;
  if ptr =? 0 then
    b <- allocBlock ;;
    if b =? -1 then freeBlock newBlock ;; ret None
    else setUint32 slot b ;; ret (Some b)
  else ret (Some ptr).

(** Enters the block into the inode or into its pointer blocks. *)
Definition place_block (off fileBlock newBlock : Z) : M bool :=
  if fileBlock <? DIRECT_BLOCKS then
    setUint32 (off + INO_DIRECT + fileBlock * 4) newBlock ;; ret true
  else
    s <- get ;;
    let indirectIdx := fileBlock - DIRECT_BLOCKS in
    if indirectIdx <? PTRS_PER_BLOCK then
      p <- ensure_block (off + INO_INDIRECT) newBlock ;;
      match p with
      | None => ret false
      | Some p => setUint32 (blockOffset s p + indirectIdx * 4) newBlock ;; ret true
      end
    else
      let doubleIdx := indirectIdx - PTRS_PER_BLOCK in
      let l1 := doubleIdx / PTRS_PER_BLOCK in
      let l2 := doubleIdx mod PTRS_PER_BLOCK in
      d <- ensure_block (off + INO_DOUBLE_INDIRECT) newBlock ;;
      match d with
      | None => ret false
      | Some d =>
          p <- ensure_block (blockOffset s d + l1 * 4) newBlock ;;
          match p with
          | None => ret false
          | Some p => setUint32 (blockOffset s p + l2 * 4) newBlock ;; ret true
          end
      end.

Definition allocBlockForFile (ino fileBlock : Z) : M Z :=
  newBlock <- allocBlock ;;
  if newBlock =? -1 then ret (-1)
  else
    s <- get ;;
    let off := inodeOffset s ino in
    ok <- place_block off fileBlock newBlock ;;
    if ok : bool then
      blocks <- getUint32 (off + INO_BLOCKS) ;;
      setUint32 (off + INO_BLOCKS) (blocks + 1) ;;
      ret newBlock
    else ret (-1).

(** ** Directories *)

Definition is_type (m t : Z) : bool := Z.land m S_IFMT =? t.

(** Math.ceil(size / BLOCK_SIZE) || 1. *)
Definition num_blocks (size : Z) : Z := let n := ceil_div size BLOCK_SIZE in if n =? 0 then 1 else n.

Definition ent_name (entOff : Z) : M str :=
  nameLen <- getUint16 (entOff + 4) ;;
  l <- u8_slice (entOff + 8) (entOff + 8 + nameLen) ;;
  ret (decode l).

Definition str_eqb (a b : str) : bool := bool_decide (a = b).

(** The entries of one block, from entry [i] on; [f] takes the offset and the
    inode of an entry that is in use and may end the search. *)
Fixpoint find_entry {A} (f : Z -> Z -> M (option A)) (n : nat) (blkOff i : Z) : M (option A) :=
  match n with
  | O => ret None
  | S n =>
      let entOff := blkOff + i * DIRENT_SIZE in
      entIno <- getUint32 entOff ;;
      if entIno =? 0 then find_entry f n blkOff (i + 1)
      else
        r <- f entOff entIno ;;
        match r with
        | Some r => ret (Some r)
        | None => find_entry f n blkOff (i + 1)
        end
  end.

Fixpoint find_in_blocks {A} (f : Z -> Z -> M (option A)) (dir : inode) (n : nat) (b : Z) : M (option A) :=
  match n with
  | O => ret None
  | S n =>
      blkNum <- getBlockNum dir b ;;
      if blkNum =? -1 then find_in_blocks f dir n (b + 1)
      else
        s <- get ;;
        r <- find_entry f (Z.to_nat DIRENTS_PER_BLOCK) (blockOffset s blkNum) 0 ;;
        match r with
        | Some r => ret (Some r)
        | None => find_in_blocks f dir n (b + 1)
        end
  end.

Definition lookupInDir (dirIno : Z) (name : str) : M Z :=
  dir <- readInode dirIno ;;
  if negb (is_type (mode dir) S_IFDIR) then ret (-1)
  else
    r <- find_in_blocks
           (fun entOff entIno =>
              entName <- ent_name entOff ;;
              ret (if str_eqb entName name then Some entIno else None))
           dir (Z.to_nat (num_blocks (isize dir))) 0 ;;
    ret (default (-1) r).

Definition removeDirEntry (dirIno : Z) (name : str) : M Z :=
  dir <- readInode dirIno ;;
  if negb (is_type (mode dir) S_IFDIR) then ret (-1)
  else
    r <- find_in_blocks
           (fun entOff entIno =>
              entName <- ent_name entOff ;;
              if str_eqb entName name then
                u8_fill0 entOff (entOff + DIRENT_SIZE) ;;
                t <- now ;; t' <- now ;;
                writeInode dirIno [Mtime t; Ctime t'] ;;
                ret (Some entIno)
              else ret None)
           dir (Z.to_nat (num_blocks (isize dir))) 0 ;;
    ret (default (-1) r).

(** The first unused entry of a block. *)
Fixpoint free_entry (n : nat) (blkOff i : Z) : M (option Z) :=
  match n with
  | O => ret None
  | S n =>
      entIno <- getUint32 (blkOff + i * DIRENT_SIZE) ;;
      if entIno =? 0 then ret (Some i) else free_entry n blkOff (i + 1)
  end.

Definition set_entry (entOff ino type : Z) (nameBytes : list Z) : M unit :=
  setUint32 entOff ino ;;
  setUint16 (entOff + 4) (Z.of_nat (length nameBytes)) ;;
  setUint16 (entOff + 6) type ;;
  u8_fill0 (entOff + 8) (entOff + 32) ;;
  u8_set nameBytes (entOff + 8).

Fixpoint add_in_blocks (dirIno : Z) (dir : inode) (ino type : Z) (nameBytes : list Z) (n : nat) (b : Z) : M bool :=
  match n with
  | O => ret false
  | S n =>
      blkNum <- getBlockNum dir b ;;
      blkNum <- (if blkNum =? -1 then allocBlockForFile dirIno b else ret blkNum) ;;
      if blkNum =? -1 then ret false
      else
        s <- get ;;
        let blkOff := blockOffset s blkNum in
        e <- free_entry (Z.to_nat DIRENTS_PER_BLOCK) blkOff 0 ;;
        match e with
        | Some i =>
            set_entry (blkOff + i * DIRENT_SIZE) ino type nameBytes ;;
            let newSize := b * BLOCK_SIZE + (i + 1) * DIRENT_SIZE in
            (if newSize >? isize dir then
               t <- now ;; t' <- now ;; writeInode dirIno [Size newSize; Mtime t; Ctime t']
             else ret tt) ;;
            ret true
        | None => add_in_blocks dirIno dir ino type nameBytes n (b + 1)
        end
  end.

Definition addDirEntry (dirIno : Z) (name : str) (ino type : Z) : M bool :=
  dir <- readInode dirIno ;;
  if negb (is_type (mode dir) S_IFDIR) then ret false
  else
    let nameBytes := encode name in
    if Z.of_nat (length nameBytes) >? 24 then ret false
    else add_in_blocks dirIno dir ino type nameBytes (Z.to_nat (num_blocks (isize dir) + 1)) 0.

End Ops.
