(* ===== verification/SabApi.v ===== *)
(** * SABFS: paths and the public functions (sabfs.js)

    Path resolution with its cache, and the functions that the module
    exports.  A function that returns a number returns -1 for an error. *)

From Stdlib Require Import ZArith Lia Bool.
From stdpp Require Import base numbers functions list option gmap.
From S2P Require Import Prelude.
From S2P Require Import Bytes.
From S2P Require Import SabFs.

Local Open Scope Z_scope.
Local Open Scope sab_scope.

(** ** Strings *)

Definition SLASH : Z := 47.
Definition DOT : Z := 46.

(** path.split('/'). *)
Fixpoint split (p : str) : list str :=
  match p with
  | [] => [[]]
  | c :: p =>
      if c =? SLASH then [] :: split p
      else match split p with w :: ws => (c :: w) :: ws | [] => [[c]] end
  end.

Definition nonempty (w : str) : bool := match w with [] => false | _ => true end.

(** path.split('/').filter(p => p.length > 0). *)
Definition components (p : str) : list str := List.filter nonempty (split p).

Fixpoint join (l : list str) : str :=
  match l with
  | [] => []
  | [w] => w
  | w :: l => w ++ SLASH :: join l
  end.

Definition normalize_step (normalized : list str) (part : str) : list str :=
  if str_eqb part [DOT] then normalized
  else if str_eqb part [DOT; DOT] then removelast normalized
  else normalized ++ [part].

Definition normalized_parts (p : str) : list str := foldl normalize_step [] (components p).

Definition normalizePath (p : str) : str := SLASH :: join (normalized_parts p).

(** p.substring(0, p.lastIndexOf('/')). *)
Fixpoint after_slash (r : str) : str :=
  match r with [] => [] | c :: r => if c =? SLASH then r else after_slash r end.
Definition before_last_slash (p : str) : str := rev (after_slash (rev p)).

Section Api.
Context `{B : Browser}.

(** ** Symbolic links *)

(** Bytes of the target from block [fileBlock] on; missing blocks leave
    zeros. *)
Fixpoint target_bytes (n : nat) (i : inode) (size pos fileBlock : Z) : M (list Z) :=
  match n with
  | O => throw
  | S n =>
      if pos <? size then
        blkNum <- getBlockNum i fileBlock ;;
        if blkNum =? -1 then ret (replicate (Z.to_nat (size - pos)) 0)
        else
          s <- get ;;
          let chunkSize := Z.min (size - pos) BLOCK_SIZE in
          l <- u8_slice (blockOffset s blkNum) (blockOffset s blkNum + chunkSize) ;;
          r <- target_bytes n i size (pos + chunkSize) (fileBlock + 1) ;;
          ret (l ++ r)
      else ret []
  end.

(** Iterations that a loop over [count] bytes needs. *)
Definition loops (count : Z) : nat := Z.to_nat (count / BLOCK_SIZE) + 3.

Definition readSymlinkTarget (ino : Z) : M (option str) :=
  i <- readInode ino ;;
  if negb (is_type (mode i) S_IFLNK) then ret None
  else if isize i =? 0 then ret (Some [])
  else l <- target_bytes (loops (isize i)) i (isize i) 0 0 ;; ret (Some (decode l)).

(** ** Paths *)

(** One pass over the components; [again] resolves the path that a symbolic
    link leads to. *)
Fixpoint walk (again : str -> M Z) (followLinks : bool) (ino : Z) (currentPath : str) (parts : list str) : M Z :=
  match parts with
  | [] => ret ino
  | part :: rest =>
      let currentPath := currentPath ++ SLASH :: part in
      ino <- lookupInDir ino part ;;
      if ino =? -1 then ret (-1)
      else
        i <- readInode ino ;;
        if is_type (mode i) S_IFLNK then
          if negb followLinks && match rest with [] => true | _ => false end then ret ino
          else
            target <- readSymlinkTarget ino ;;
            match target with
            | None | Some [] => ret (-1)
            | Some (c :: t) =>
                let resolved :=
                  if c =? SLASH then c :: t
                  else
                    let parent := before_last_slash currentPath in
                    (if nonempty parent then parent else [SLASH]) ++ SLASH :: c :: t in
                let remaining := join rest in
                again (if nonempty remaining then resolved ++ SLASH :: remaining else resolved)
            end
        else walk again followLinks ino currentPath rest
  end.

Fixpoint resolvePathInternal (followLinks : bool) (maxDepth : nat) (path : str) : M Z :=
  match maxDepth with
  | O => ret (-1)
  | S d => walk (resolvePathInternal followLinks d) followLinks 0 [] (components (normalizePath path))
  end.

Definition MAX_DEPTH : nat := 40.

Definition cache_set (path : str) (ino : Z) : M unit := fun s => Some (tt, set_cache s (<[path := ino]> (pathCache s))).
Definition cache_delete (path : str) : M unit := fun s => Some (tt, set_cache s (delete path (pathCache s))).
Definition clearCache : M unit := fun s => Some (tt, set_cache s ∅).

Definition resolvePath (path : str) : M Z :=
  s <- get ;;
  match pathCache s !! path with
  | Some ino => ret ino
  | None =>
      ino <- resolvePathInternal true MAX_DEPTH path ;;
      (if negb (ino =? -1) then cache_set path ino else ret tt) ;;
      ret ino
  end.

Definition lresolvePath (path : str) : M Z := resolvePathInternal false MAX_DEPTH path.

Definition resolveParent (path : str) : M (Z * str) :=
  let parts := components (normalizePath path) in
  match parts with
  | [] => ret (0, [])
  | _ =>
      parentIno <- resolvePath (SLASH :: join (removelast parts)) ;;
      ret (parentIno, List.last parts [])
  end.

Definition modeToType (m : Z) : Z :=
  let type := Z.land m S_IFMT in
  if type =? S_IFDIR then DT_DIR
  else if type =? S_IFREG then DT_REG
  else if type =? S_IFLNK then DT_LNK
  else if type =? S_IFBLK then DT_BLK
  else if type =? S_IFCHR then DT_CHR
  else if type =? S_IFIFO then DT_FIFO
  else if type =? S_IFSOCK then DT_SOCK
  else DT_UNKNOWN.

(** ** stat *)

(** The fields of the inode are those of the result. *)
Definition stat (path : str) : M (option (Z * inode)) :=
  ino <- resolvePath path ;;
  if ino =? -1 then ret None
  else
    i <- readInode ino ;;
    t <- now ;;
    writeInode ino [Atime t] ;;
    ret (Some (ino, i)).

Definition lstat (path : str) : M (option (Z * inode)) :=
  ino <- lresolvePath path ;;
  if ino =? -1 then ret None else i <- readInode ino ;; ret (Some (ino, i)).

(** ** Open files *)

Definition flag_set (flags f : Z) : bool := negb (Z.land flags f =? 0).

(** A new inode with the mode and link count given. *)
Definition new_inode (m n size : Z) : M Z :=
  ino <- allocInode ;;
  if ino =? -1 then ret (-1)
  else
    t <- now ;;
    writeInode ino [Mode m; Nlink n; Uid 0; Gid 0; Size size; Atime t; Mtime t; Ctime t; Blocks 0] ;;
    ret ino.

Definition create_file (path : str) (m : Z) : M Z :=
  pb <- resolveParent path ;;
  if pb.1 =? -1 then ret (-1)
  else
    ino <- new_inode (Z.lor S_IFREG (Z.land m 0xfff)) 1 0 ;;
    if ino =? -1 then ret (-1)
    else
      ok <- addDirEntry pb.1 pb.2 ino DT_REG ;;
      if negb ok then ret (-1) else cache_set (normalizePath path) ino ;; ret ino.

Definition truncate_inode (ino : Z) : M unit :=
  t <- now ;; t' <- now ;;
  writeInode ino [Size 0; Mtime t; Ctime t'; Blocks 0; Direct (replicate 8 0); Indirect 0; DoubleIndirect 0].

Definition open (path : str) (flags m : Z) : M Z :=
  ino <- (if flag_set flags O_NOFOLLOW then lresolvePath path else resolvePath path) ;;
  ino <- (if ino =? -1 then (if flag_set flags O_CREAT then create_file path m else ret (-1)) else ret ino) ;;
  if ino =? -1 then ret (-1)
  else
    i <- readInode ino ;;
    if is_type (mode i) S_IFDIR then ret (-1)
    else
      (if flag_set flags O_TRUNC then truncate_inode ino else ret tt) ;;
      fun s =>
        let fd := nextFd s in
        Some (fd, set_fds s (<[fd := {| f_ino := ino; f_path := path; f_flags := flags;
                                        f_pos := if flag_set flags O_APPEND then isize i else 0 |}]> (fdTable s))
                    (fd + 1)).

Definition close (fd : Z) : M Z :=
  fun s => match fdTable s !! fd with
           | None => Some (-1, s)
           | Some _ => Some (0, set_fds s (delete fd (fdTable s)) (nextFd s))
           end.

Definition set_pos (fd pos : Z) : M unit :=
  fun s => match fdTable s !! fd with
           | None => Some (tt, s)
           | Some f => Some (tt, set_fds s (<[fd := {| f_ino := f_ino f; f_path := f_path f; f_flags := f_flags f;
                                                       f_pos := pos |}]> (fdTable s)) (nextFd s))
           end.

(** The bytes at [pos], which the code copies to the caller's buffer of [size]
    bytes: TypedArray.set throws when they do not fit, and fill stops at the
    end of the buffer. *)
Fixpoint read_loop (n : nat) (size : Z) (i : inode) (pos toRead bytesRead : Z) : M (list Z) :=
  match n with
  | O => throw
  | S n =>
      if bytesRead <? toRead then
        let fileBlockIdx := (pos + bytesRead) / BLOCK_SIZE in
        let blockOff := (pos + bytesRead) mod BLOCK_SIZE in
        blockNum <- getBlockNum i fileBlockIdx ;;
        let chunkSize := Z.min (toRead - bytesRead) (BLOCK_SIZE - blockOff) in
        s <- get ;;
        let dataOff := blockOffset s blockNum + blockOff in
        l <- (if blockNum =? -1 then ret (replicate (Z.to_nat chunkSize) 0)
              else
                l <- u8_slice dataOff (dataOff + chunkSize) ;;
                if bytesRead + Z.of_nat (length l) >? size then throw else ret l) ;;
        r <- read_loop n size i pos toRead (bytesRead + chunkSize) ;;
        ret (l ++ r)
      else ret []
  end.

(** [None] is the result -1; otherwise the length is the result, and the buffer
    of [size] bytes begins with the list, as far as it goes. *)
Definition read (fd size count : Z) : M (option (list Z)) :=
  s <- get ;;
  match fdTable s !! fd with
  | None => ret None
  | Some file =>
      i <- readInode (f_ino file) ;;
      if f_pos file >=? isize i then ret (Some [])
      else
        let toRead := Z.min count (isize i - f_pos file) in
        l <- read_loop (loops toRead) size i (f_pos file) toRead 0 ;;
        set_pos fd (f_pos file + Z.max 0 toRead) ;;
        t <- now ;;
        writeInode (f_ino file) [Atime t] ;;
        ret (Some l)
  end.

Fixpoint write_loop (n : nat) (ino pos count bytesWritten : Z) (buffer : list Z) : M Z :=
  match n with
  | O => throw
  | S n =>
      if bytesWritten <? count then
        let fileBlockIdx := (pos + bytesWritten) / BLOCK_SIZE in
        let blockOff := (pos + bytesWritten) mod BLOCK_SIZE in
        i <- readInode ino ;;
        blockNum <- getBlockNum i fileBlockIdx ;;
        blockNum <- (if blockNum =? -1 then allocBlockForFile ino fileBlockIdx else ret blockNum) ;;
        if blockNum =? -1 then ret bytesWritten
        else
          s <- get ;;
          let dataOff := blockOffset s blockNum + blockOff in
          let chunkSize := Z.min (count - bytesWritten) (BLOCK_SIZE - blockOff) in
          u8_set (slice buffer bytesWritten (bytesWritten + chunkSize)) dataOff ;;
          write_loop n ino pos count (bytesWritten + chunkSize) buffer
      else ret bytesWritten
  end.

Definition write (fd : Z) (buffer : list Z) (count : Z) : M Z :=
  s <- get ;;
  match fdTable s !! fd with
  | None => ret (-1)
  | Some file =>
      pos <- (if flag_set (f_flags file) O_APPEND
              then i <- readInode (f_ino file) ;; ret (isize i)
              else ret (f_pos file)) ;;
      bytesWritten <- write_loop (loops count) (f_ino file) pos count 0 buffer ;;
      let pos := pos + bytesWritten in
      set_pos fd pos ;;
      i <- readInode (f_ino file) ;;
      t <- now ;;
      writeInode (f_ino file) (if pos >? isize i then [Size pos; Mtime t; Ctime t] else [Mtime t; Ctime t]) ;;
      ret bytesWritten
  end.

(** The position of the file is put back afterwards. *)
Definition with_pos {A} (fd offset : Z) (err : A) (m : M A) : M A :=
  s <- get ;;
  match fdTable s !! fd with
  | None => ret err
  | Some file => set_pos fd offset ;; r <- m ;; set_pos fd (f_pos file) ;; ret r
  end.

Definition pread (fd size count offset : Z) : M (option (list Z)) :=
  with_pos fd offset None (read fd size count).
Definition pwrite (fd : Z) (buffer : list Z) (count offset : Z) : M Z :=
  with_pos fd offset (-1) (write fd buffer count).

Definition lseek (fd offset whence : Z) : M Z :=
  s <- get ;;
  match fdTable s !! fd with
  | None => ret (-1)
  | Some file =>
      i <- readInode (f_ino file) ;;
      match (if whence =? 0 then Some offset
             else if whence =? 1 then Some (f_pos file + offset)
             else if whence =? 2 then Some (isize i + offset) else None) with
      | None => ret (-1)
      | Some pos => let pos := Z.max 0 pos in set_pos fd pos ;; ret pos
      end
  end.

Definition truncate (path : str) (length : Z) : M Z :=
  ino <- resolvePath path ;;
  if ino =? -1 then ret (-1)
  else
    i <- readInode ino ;;
    if negb (is_type (mode i) S_IFREG) then ret (-1)
    else
      t <- now ;; t' <- now ;;
      writeInode ino [Size length; Mtime t; Ctime t'] ;;
      ret 0.

(** ** Directories *)

Record dirent := { d_name : str; d_ino : Z; d_type : Z }.

(** The entries of a block, as find_entry visits them. *)
Fixpoint list_entries (n : nat) (blkOff i : Z) : M (list dirent) :=
  match n with
  | O => ret []
  | S n =>
      let entOff := blkOff + i * DIRENT_SIZE in
      entIno <- getUint32 entOff ;;
      if entIno =? 0 then list_entries n blkOff (i + 1)
      else
        nameLen <- getUint16 (entOff + 4) ;;
        type <- getUint16 (entOff + 6) ;;
        l <- u8_slice (entOff + 8) (entOff + 8 + nameLen) ;;
        r <- list_entries n blkOff (i + 1) ;;
        ret ({| d_name := decode l; d_ino := entIno; d_type := type |} :: r)
  end.

Fixpoint list_blocks (i : inode) (n : nat) (b : Z) : M (list dirent) :=
  match n with
  | O => ret []
  | S n =>
      blkNum <- getBlockNum i b ;;
      if blkNum =? -1 then list_blocks i n (b + 1)
      else
        s <- get ;;
        l <- list_entries (Z.to_nat DIRENTS_PER_BLOCK) (blockOffset s blkNum) 0 ;;
        r <- list_blocks i n (b + 1) ;;
        ret (l ++ r)
  end.

Definition readdir (path : str) : M (option (list dirent)) :=
  ino <- resolvePath path ;;
  if ino =? -1 then ret None
  else
    i <- readInode ino ;;
    if negb (is_type (mode i) S_IFDIR) then ret None
    else
      l <- list_blocks i (Z.to_nat (num_blocks (isize i))) 0 ;;
      t <- now ;;
      writeInode ino [Atime t] ;;
      ret (Some l).

Definition mkdir (path : str) (m : Z) : M Z :=
  r <- resolvePath path ;;
  if negb (r =? -1) then ret (-1)
  else
    pb <- resolveParent path ;;
    if pb.1 =? -1 then ret (-1)
    else
      ino <- allocInode ;;
      if ino =? -1 then ret (-1)
      else
        t <- now ;;
        writeInode ino [Mode (Z.lor S_IFDIR (Z.land m 0xfff)); Nlink 2; Uid 0; Gid 0; Size 0; Atime t; Mtime t;
                        Ctime t; Blocks 0] ;;
        ok <- addDirEntry pb.1 pb.2 ino DT_DIR ;;
        if negb ok then ret (-1)
        else
          parent <- readInode pb.1 ;;
          writeInode pb.1 [Nlink (nlink parent + 1); Mtime t; Ctime t] ;;
          cache_set (normalizePath path) ino ;;
          ret 0.

Definition rmdir (path : str) : M Z :=
  ino <- resolvePath path ;;
  if ino =? -1 then ret (-1)
  else if ino =? 0 then ret (-1)
  else
    i <- readInode ino ;;
    if negb (is_type (mode i) S_IFDIR) then ret (-1)
    else
      entries <- readdir path ;;
      if match entries with Some (_ :: _) => true | _ => false end then ret (-1)
      else
        pb <- resolveParent path ;;
        if pb.1 =? -1 then ret (-1)
        else
          removeDirEntry pb.1 pb.2 ;;
          parent <- readInode pb.1 ;;
          t <- now ;; t' <- now ;;
          writeInode pb.1 [Nlink (Z.max 2 (nlink parent - 1)); Mtime t; Ctime t'] ;;
          cache_delete (normalizePath path) ;;
          ret 0.

(** ** Links *)

Definition unlink (path : str) : M Z :=
  ino <- lresolvePath path ;;
  if ino =? -1 then ret (-1)
  else
    i <- readInode ino ;;
    if is_type (mode i) S_IFDIR then ret (-1)
    else
      pb <- resolveParent path ;;
      if pb.1 =? -1 then ret (-1)
      else
        removeDirEntry pb.1 pb.2 ;;
        let newNlink := nlink i - 1 in
        (if newNlink =? 0 then writeInode ino [Mode 0; Nlink 0]
         else t <- now ;; writeInode ino [Nlink newNlink; Ctime t]) ;;
        cache_delete (normalizePath path) ;;
        ret 0.

Fixpoint write_target (n : nat) (ino pos fileBlock : Z) (l : list Z) : M bool :=
  match n with
  | O => throw
  | S n =>
      if pos <? Z.of_nat (length l) then
        blkNum <- allocBlockForFile ino fileBlock ;;
        if blkNum =? -1 then ret false
        else
          s <- get ;;
          let chunkSize := Z.min (Z.of_nat (length l) - pos) BLOCK_SIZE in
          u8_set (slice l pos (pos + chunkSize)) (blockOffset s blkNum) ;;
          write_target n ino (pos + chunkSize) (fileBlock + 1) l
      else ret true
  end.

Definition symlink (target path : str) : M Z :=
  r <- lresolvePath path ;;
  if negb (r =? -1) then ret (-1)
  else
    pb <- resolveParent path ;;
    if pb.1 =? -1 then ret (-1)
    else
      let targetBytes := encode target in
      ino <- new_inode (Z.lor S_IFLNK 0x1ff) 1 (Z.of_nat (length targetBytes)) ;;
      if ino =? -1 then ret (-1)
      else
        ok <- write_target (loops (Z.of_nat (length targetBytes))) ino 0 0 targetBytes ;;
        if negb ok then ret (-1)
        else
          ok <- addDirEntry pb.1 pb.2 ino DT_LNK ;;
          ret (if ok : bool then 0 else -1).

Definition readlink (path : str) : M (option str) :=
  ino <- lresolvePath path ;;
  if ino =? -1 then ret None else readSymlinkTarget ino.

Definition link (oldPath newPath : str) : M Z :=
  ino <- resolvePath oldPath ;;
  if ino =? -1 then ret (-1)
  else
    i <- readInode ino ;;
    if is_type (mode i) S_IFDIR then ret (-1)
    else
      r <- lresolvePath newPath ;;
      if negb (r =? -1) then ret (-1)
      else
        pb <- resolveParent newPath ;;
        if pb.1 =? -1 then ret (-1)
        else
          ok <- addDirEntry pb.1 pb.2 ino (modeToType (mode i)) ;;
          if negb ok then ret (-1)
          else t <- now ;; writeInode ino [Nlink (nlink i + 1); Ctime t] ;; ret 0.

Definition rename (oldPath newPath : str) : M Z :=
  ino <- lresolvePath oldPath ;;
  if ino =? -1 then ret (-1)
  else
    old <- resolveParent oldPath ;;
    new <- resolveParent newPath ;;
    if (old.1 =? -1) || (new.1 =? -1) then ret (-1)
    else
      removeDirEntry old.1 old.2 ;;
      existingIno <- lookupInDir new.1 new.2 ;;
      (if negb (existingIno =? -1) then removeDirEntry new.1 new.2 else ret (-1)) ;;
      i <- readInode ino ;;
      ok <- addDirEntry new.1 new.2 ino (modeToType (mode i)) ;;
      if negb ok then ret (-1)
      else
        t <- now ;;
        writeInode ino [Ctime t] ;;
        clearCache ;;
        ret 0.

(** ** Attributes *)

Definition chmod (path : str) (m : Z) : M Z :=
  ino <- resolvePath path ;;
  if ino =? -1 then ret (-1)
  else
    i <- readInode ino ;;
    t <- now ;;
    writeInode ino [Mode (Z.lor (Z.land (mode i) S_IFMT) (Z.land m 0xfff)); Ctime t] ;;
    ret 0.

Definition chown (path : str) (u g : Z) : M Z :=
  ino <- resolvePath path ;;
  if ino =? -1 then ret (-1)
  else
    t <- now ;;
    writeInode ino ((if u =? -1 then [] else [Uid u]) ++ (if g =? -1 then [] else [Gid g]) ++ [Ctime t]) ;;
    ret 0.

Definition utimes (path : str) (a m : Z) : M Z :=
  ino <- resolvePath path ;;
  if ino =? -1 then ret (-1)
  else t <- now ;; writeInode ino [Atime a; Mtime m; Ctime t] ;; ret 0.

(** ** statfs *)

Fixpoint count_free (n : nat) (freeBlocks blk : Z) : M Z :=
  match n with
  | O => ret freeBlocks
  | S n =>
      s <- get ;;
      if negb (blk =? NIL) && negb (blk =? 0) && (freeBlocks <? totalDataBlocks s) then
        blk <- getUint32 (dataBlocksOffset s + blk * BLOCK_SIZE) ;;
        count_free n (freeBlocks + 1) blk
      else ret freeBlocks
  end.

Record statfs_result := { sf_blocks : Z; sf_bfree : Z; sf_files : Z; sf_ffree : Z; sf_namelen : Z }.

Definition statfs : M statfs_result :=
  totalBlocks <- getUint32 SB_TOTAL_BLOCKS ;;
  inodeCount <- getUint32 SB_INODE_COUNT ;;
  freeInode <- getUint32 SB_FREE_INODE ;;
  blk <- getUint32 SB_FREE_BLOCK ;;
  s <- get ;;
  freeBlocks <- count_free (Z.to_nat (totalDataBlocks s) + 1) 0 blk ;;
  ret {| sf_blocks := totalDataBlocks s; sf_bfree := freeBlocks; sf_files := inodeCount;
         sf_ffree := inodeCount - freeInode; sf_namelen := MAX_NAME_LEN |}.

(** ** Whole files *)

Definition importFile (path : str) (data : list Z) (m : Z) : M bool :=
  fd <- open path (Z.lor (Z.lor O_CREAT O_TRUNC) O_WRONLY) m ;;
  if fd =? -1 then ret false
  else
    written <- write fd data (Z.of_nat (length data)) ;;
    close fd ;;
    ret (written =? Z.of_nat (length data)).

Definition exportFile (path : str) : M (option (list Z)) :=
  st <- stat path ;;
  match st with
  | None => ret None
  | Some (_, i) =>
      if is_type (mode i) S_IFDIR then ret None
      else
        fd <- open path O_RDONLY 0x1a4 ;;
        if fd =? -1 then ret None
        else
          l <- read fd (isize i) (isize i) ;;
          close fd ;;
          (* the array of size bytes keeps zeros where nothing was read *)
          let l := default [] l in
          ret (Some (l ++ replicate (Z.to_nat (isize i) - length l) 0))
  end.

End Api.
