(* ===== verification/SabInv.v ===== *)
(** * SABFS: the buffer as words, and its invariant

    [loc] names the words of the buffer: superblock, inodes, blocks.  [rd]
    reads one, [wrt] writes one.  The invariant gives every block an owner: a
    place in the tree of some inode, or the free list.  Since a block has one
    owner, no two places point to the same block. *)

From Stdlib Require Import ZArith Lia Bool.
From stdpp Require Import base numbers functions list option gmap.
From S2P Require Import Prelude.
From S2P Require Import Bytes.
From S2P Require Import SabFs.

Local Open Scope Z_scope.

(** ** Words *)

Inductive loc := LSb (k : Z) | LIno (ino k : Z) | LBlk (b k : Z).

#[global] Instance loc_eq_dec : EqDecision loc.
Proof. solve_decision. Defined.

Definition addr (s : fs) (l : loc) : Z :=
  match l with
  | LSb k => 4 * k
  | LIno ino k => inodeOffset s ino + 4 * k
  | LBlk b k => blockOffset s b + 4 * k
  end.

(** [N] inodes; the superblock has 9 words. *)
Definition valid (N : Z) (s : fs) (l : loc) : Prop :=
  match l with
  | LSb k => 0 <= k < 9
  | LIno ino k => 0 <= ino < N /\ 0 <= k < 32
  | LBlk b k => 0 <= b < totalDataBlocks s /\ 0 <= k < 1024
  end.

(** Blocks, their pointers included, fit into 32 bits; the table of inodes
    lies between the superblock and the blocks. *)
Record geometry (N : Z) (s : fs) : Prop := {
  geo_table : inodeTableOffset s = BLOCK_SIZE;
  geo_inodes : 1 <= N < 2 ^ 32;
  geo_data : BLOCK_SIZE + N * INODE_SIZE <= dataBlocksOffset s;
  geo_total : 2 <= totalDataBlocks s <= 2 ^ 20;
  geo_fits : dataBlocksOffset s + totalDataBlocks s * BLOCK_SIZE <= byteLength s;
}.

Definition rd (s : fs) (l : loc) : Z := load_le (sab s) (addr s l) 4.
Definition wrt (s : fs) (l : loc) (v : Z) : fs := set_sab s (store_le (sab s) (addr s l) v 4).

#[global] Arguments rd : simpl never.
#[global] Arguments wrt : simpl never.

Ltac geo H := destruct H as [?Gt ?Gi ?Gd ?Gn ?Gf]; unfold BLOCK_SIZE, INODE_SIZE in *.

Lemma valid_bounds N s l : geometry N s -> valid N s l -> 0 <= addr s l /\ addr s l + 4 <= byteLength s.
Proof.
  intros G V. geo G. destruct l as [k | ino k | b k]; cbn in *; unfold inodeOffset, blockOffset, BLOCK_SIZE, INODE_SIZE;
    lia.
Qed.

Lemma addr_sep N s l l' :
  geometry N s -> valid N s l -> valid N s l' -> l <> l' -> addr s l + 4 <= addr s l' \/ addr s l' + 4 <= addr s l.
Proof.
  intros G V V' Hne. geo G.
  destruct l as [k | ino k | b k], l' as [k' | ino' k' | b' k']; cbn in *;
    unfold inodeOffset, blockOffset, BLOCK_SIZE, INODE_SIZE in *.
  1: assert (k <> k') by congruence.
  5: assert (ino <> ino' \/ k <> k') by (destruct (decide (ino = ino')); [right; congruence | by left]).
  9: assert (b <> b' \/ k <> k') by (destruct (decide (b = b')); [right; congruence | by left]).
  all: lia.
Qed.

Lemma getUint32_rd N s l : geometry N s -> valid N s l -> getUint32 (addr s l) s = Some (rd s l, s).
Proof.
  intros G V. destruct (valid_bounds N s l G V). unfold getUint32, in_view.
  rewrite (proj2 (Z.leb_le _ _)), (proj2 (Z.leb_le _ _)) by lia. done.
Qed.

Lemma setUint32_wrt N s l v : geometry N s -> valid N s l -> setUint32 (addr s l) v s = Some (tt, wrt s l v).
Proof.
  intros G V. destruct (valid_bounds N s l G V). unfold setUint32, in_view.
  rewrite (proj2 (Z.leb_le _ _)), (proj2 (Z.leb_le _ _)) by lia. done.
Qed.

Lemma rd_range s l : 0 <= rd s l < 2 ^ 32.
Proof. apply (load_le_range _ _ 4). Qed.

Lemma rd_wrt N s l v l' :
  geometry N s -> valid N s l -> valid N s l' -> rd (wrt s l v) l' = if decide (l = l') then uint 32 v else rd s l'.
Proof.
  intros G V V'. unfold rd, wrt. cbn [sab set_sab]. change (addr (set_sab s _) l') with (addr s l').
  destruct (decide (l = l')) as [-> | Hne].
  - apply (load_store_same _ _ _ 4).
  - apply load_store_other. destruct (addr_sep N s l l' G V V' Hne); cbn; lia.
Qed.

Lemma geometry_sab N s m : geometry N (set_sab s m) <-> geometry N s.
Proof. split; intros []; constructor; done. Qed.

(** ** Owners *)

(** [Held] is a block between its allocation and its use. *)
Inductive owner := Free | Held | Data (ino fb : Z) | Ind (ino : Z) | DInd (ino : Z) | L1 (ino j : Z).

#[global] Instance owner_eq_dec : EqDecision owner.
Proof. solve_decision. Defined.

(** What a word is meant to point to. *)
Definition ino_child (ino k : Z) : option owner :=
  if (10 <=? k) && (k <? 18) then Some (Data ino (k - 10))
  else if k =? 18 then Some (Ind ino)
  else if k =? 19 then Some (DInd ino)
  else None.

Definition child (o : owner) (k : Z) : option owner :=
  match o with
  | Ind ino => Some (Data ino (8 + k))
  | DInd ino => Some (L1 ino k)
  | L1 ino j => Some (Data ino (1032 + 1024 * j + k))
  | _ => None
  end.

Definition points (ow : Z -> owner) (l : loc) : option owner :=
  match l with
  | LSb _ => None
  | LIno ino k => ino_child ino k
  | LBlk b k => if decide (1 <= b) then child (ow b) k else None
  end.

Fixpoint chain (s : fs) (h : Z) (fl : list Z) : Prop :=
  match fl with
  | [] => h = NIL
  | b :: fl => h = b /\ chain s (rd s (LBlk b 0)) fl
  end.

Definition ptr_ok (ow : Z -> owner) (s : fs) (o : owner) (v : Z) : Prop :=
  v = 0 \/ (1 <= v < totalDataBlocks s /\ ow v = o).

Definition SbFree : loc := LSb 5.
Definition SbFreeInode : loc := LSb 6.
Definition SbInodes : loc := LSb 4.

Record inv (N : Z) (ow : Z -> owner) (fl : list Z) (s : fs) : Prop := {
  inv_geo : geometry N s;
  inv_count : rd s SbInodes = N;
  inv_chain : chain s (rd s SbFree) fl;
  inv_nodup : NoDup fl;
  inv_free : forall b, b ∈ fl -> 1 <= b < totalDataBlocks s /\ ow b = Free;
  inv_ptr : forall l o, valid N s l -> points ow l = Some o -> ptr_ok ow s o (rd s l);
}.

(** ** Contents *)

Definition MAX_FILE_BLOCKS : Z := 8 + 1024 + 1024 * 1024.

(** The block of a file; zero is a hole. *)
Definition map_block (s : fs) (ino fb : Z) : Z :=
  if fb <? 8 then rd s (LIno ino (10 + fb))
  else if fb <? 1032 then
    let p := rd s (LIno ino 18) in if p =? 0 then 0 else rd s (LBlk p (fb - 8))
  else
    let d := rd s (LIno ino 19) in
    if d =? 0 then 0
    else
      let p := rd s (LBlk d ((fb - 1032) / 1024)) in
      if p =? 0 then 0 else rd s (LBlk p ((fb - 1032) mod 1024)).

(** A byte of a file, wherever its size is. *)
Definition fbyte (s : fs) (ino p : Z) : Z :=
  let b := map_block s ino (p / 4096) in
  if b =? 0 then 0 else sab s (blockOffset s b + p mod 4096).

Definition file_pos (p : Z) : Prop := 0 <= p < MAX_FILE_BLOCKS * 4096.

(** ** Reading the tree *)

Section Tree.
Context (N : Z) (ow : Z -> owner) (fl : list Z) (s : fs) (Hi : inv N ow fl s).

Lemma points_nonzero l o : valid N s l -> points ow l = Some o -> rd s l <> 0 ->
  1 <= rd s l < totalDataBlocks s /\ ow (rd s l) = o.
Proof using Hi. intros V Hp Hnz. by destruct (inv_ptr _ _ _ _ Hi l o V Hp). Qed.

Lemma points_blk b k o : 1 <= b -> child (ow b) k = Some o -> points ow (LBlk b k) = Some o.
Proof using. intros Hb Hc. cbn. by rewrite decide_True by done. Qed.

Lemma points_direct ino fb : 0 <= fb < 8 -> points ow (LIno ino (10 + fb)) = Some (Data ino fb).
Proof using.
  intros Hfb. cbn. unfold ino_child. rewrite (proj2 (Z.leb_le _ _)), (proj2 (Z.ltb_lt _ _)) by lia. cbn.
  do 2 f_equal. lia.
Qed.

Lemma map_block_owner ino fb :
  0 <= ino < N -> 0 <= fb < MAX_FILE_BLOCKS -> ptr_ok ow s (Data ino fb) (map_block s ino fb).
Proof using Hi.
  intros Hino Hfb. unfold map_block, MAX_FILE_BLOCKS in *.
  destruct (Z.ltb_spec fb 8).
  { apply (inv_ptr _ _ _ _ Hi); [cbn; lia | apply points_direct; lia]. }
  destruct (Z.ltb_spec fb 1032).
  { destruct (Z.eqb_spec (rd s (LIno ino 18)) 0) as [|Hp]; [by left|].
    apply (points_nonzero (LIno ino 18) (Ind ino)) in Hp as [Hr Ho]; [|cbn; lia|done].
    apply (inv_ptr _ _ _ _ Hi); [cbn; lia|]. apply points_blk; [lia|]. rewrite Ho. cbn. do 2 f_equal. lia. }
  destruct (Z.eqb_spec (rd s (LIno ino 19)) 0) as [|Hd]; [by left|].
  apply (points_nonzero (LIno ino 19) (DInd ino)) in Hd as [Hr Ho]; [|cbn; lia|done].
  assert (0 <= (fb - 1032) / 1024 < 1024).
  { split; [apply Z.div_pos; lia | apply Z.div_lt_upper_bound; lia]. }
  pose proof (Z.mod_pos_bound (fb - 1032) 1024 ltac:(lia)).
  set (d := rd s (LIno ino 19)) in *. set (j := (fb - 1032) / 1024) in *.
  destruct (Z.eqb_spec (rd s (LBlk d j)) 0) as [|Hp]; [by left|].
  apply (points_nonzero (LBlk d j) (L1 ino j)) in Hp as [Hr' Ho']; [|cbn; lia|apply points_blk; [lia|by rewrite Ho]].
  apply (inv_ptr _ _ _ _ Hi); [cbn; lia|]. apply points_blk; [lia|]. rewrite Ho'. cbn. do 2 f_equal.
  unfold j. pose proof (Z.div_mod (fb - 1032) 1024 ltac:(lia)). lia.
Qed.

(** A block of a file belongs to one place of one file. *)
Lemma map_block_inj ino fb ino' fb' :
  0 <= ino < N -> 0 <= fb < MAX_FILE_BLOCKS -> 0 <= ino' < N -> 0 <= fb' < MAX_FILE_BLOCKS ->
  map_block s ino fb = map_block s ino' fb' -> map_block s ino fb <> 0 -> ino = ino' /\ fb = fb'.
Proof using Hi.
  intros H1 H2 H3 H4 E Hnz. destruct (map_block_owner ino fb H1 H2) as [|[_ O1]]; [done|].
  rewrite E in *. destruct (map_block_owner ino' fb' H3 H4) as [|[_ O2]]; [done|].
  rewrite O1 in O2. by injection O2.
Qed.

Lemma file_pos_block p : file_pos p -> 0 <= p / 4096 < MAX_FILE_BLOCKS.
Proof using. unfold file_pos. intros Hp. split; [apply Z.div_pos; lia | apply Z.div_lt_upper_bound; lia]. Qed.

End Tree.
