(* ===== verification/SabTree.v ===== *)
(** * SABFS: changing the tree of blocks

    The changes that the functions make to the buffer, one lemma each: a word
    of an inode that is not a pointer, a new pointer, the bytes of a file's
    block, the head of the free list.  Each keeps the invariant and says what
    becomes of the contents of the files. *)

From Stdlib Require Import ZArith Lia Bool.
From stdpp Require Import base numbers functions list option gmap.
From S2P Require Import Prelude.
From S2P Require Import Bytes.
From S2P Require Import SabFs.
From S2P Require Import SabInv.

Local Open Scope Z_scope.

(** [s'] differs from [s] in the buffer only. *)
Definition same_rest (s s' : fs) : Prop := s' = set_sab s (sab s').

Lemma same_rest_sab s m : same_rest s (set_sab s m).
Proof. by destruct s. Qed.
Lemma same_rest_refl s : same_rest s s.
Proof. by destruct s. Qed.
Lemma same_rest_trans s1 s2 s3 : same_rest s1 s2 -> same_rest s2 s3 -> same_rest s1 s3.
Proof. unfold same_rest. intros -> ->. done. Qed.
Lemma same_rest_wrt s l v : same_rest s (wrt s l v).
Proof. by destruct s. Qed.

Create HintDb sab.
#[global] Hint Resolve same_rest_sab same_rest_refl same_rest_wrt : sab.

Lemma same_rest_addr s s' l : same_rest s s' -> addr s' l = addr s l.
Proof. by intros ->. Qed.
Lemma same_rest_block s s' b : same_rest s s' -> blockOffset s' b = blockOffset s b.
Proof. by intros ->. Qed.
Lemma same_rest_total s s' : same_rest s s' -> totalDataBlocks s' = totalDataBlocks s.
Proof. by intros ->. Qed.
Lemma same_rest_geo N s s' : same_rest s s' -> geometry N s -> geometry N s'.
Proof. intros -> G. by apply geometry_sab. Qed.
Lemma same_rest_valid N s s' l : same_rest s s' -> valid N s' l <-> valid N s l.
Proof. by intros ->. Qed.

(** [s'] has the same buffer; the clock, the open files and the cache may
    differ. *)
Record same_mem (s s' : fs) : Prop := {
  mem_sab : sab s' = sab s;
  mem_len : byteLength s' = byteLength s;
  mem_table : inodeTableOffset s' = inodeTableOffset s;
  mem_data : dataBlocksOffset s' = dataBlocksOffset s;
  mem_total : totalDataBlocks s' = totalDataBlocks s;
}.

Lemma same_mem_rd s s' l : same_mem s s' -> rd s' l = rd s l.
Proof.
  intros [Es El Et Ed En]. unfold rd, addr, inodeOffset, blockOffset. by rewrite Es, Et, Ed.
Qed.

Lemma same_mem_geo N s s' : same_mem s s' -> geometry N s -> geometry N s'.
Proof. intros [Es El Et Ed En] []. constructor; rewrite ?El, ?Et, ?Ed, ?En; done. Qed.

Lemma same_mem_refl s : same_mem s s.
Proof. done. Qed.

Lemma same_mem_ticks s n : same_mem s (set_ticks s n).
Proof. done. Qed.

Lemma same_mem_fds s t n : same_mem s (set_fds s t n).
Proof. done. Qed.

Lemma same_mem_cache s c : same_mem s (set_cache s c).
Proof. done. Qed.

#[global] Hint Resolve same_mem_refl same_mem_ticks same_mem_fds same_mem_cache : sab.

Lemma same_mem_map s s' ino fb : same_mem s s' -> map_block s' ino fb = map_block s ino fb.
Proof. intros Hm. unfold map_block. by rewrite !(same_mem_rd s s') by done. Qed.

Lemma same_mem_byte s s' ino p : same_mem s s' -> fbyte s' ino p = fbyte s ino p.
Proof.
  intros Hm. unfold fbyte. rewrite (same_mem_map s s') by done. destruct Hm as [Es El Et Ed En].
  unfold blockOffset. by rewrite Es, Ed.
Qed.

Lemma same_mem_inv N ow fl s s' : same_mem s s' -> inv N ow fl s -> inv N ow fl s'.
Proof.
  intros Hm [G Hn Hch Hnd Hfr Hp]. pose proof Hm as [Es El Et Ed En]. constructor.
  - by eapply same_mem_geo.
  - by rewrite (same_mem_rd s s').
  - rewrite (same_mem_rd s s') by done. clear Hfr Hnd. revert Hch. generalize (rd s SbFree).
    induction fl as [|b fl IH]; intros h; cbn; [done|]. rewrite (same_mem_rd s s') by done. intros [-> Hc]. auto.
  - done.
  - by rewrite En.
  - intros l o V Hpl. unfold ptr_ok. rewrite (same_mem_rd s s'), En by done. apply Hp; [|done].
    by destruct l; cbn in *; rewrite ?En in V.
Qed.

(** The word is outside the bytes that change. *)
Lemma rd_agree s s' l :
  same_rest s s' -> (forall a, addr s l <= a < addr s l + 4 -> sab s' a = sab s a) -> rd s' l = rd s l.
Proof.
  intros Hr Ha. unfold rd. rewrite (same_rest_addr s s' l Hr). apply load_le_ext. intros a Hin. apply Ha.
  change (Z.of_nat 4) with 4 in Hin. lia.
Qed.

Lemma sab_wrt s l v a : a < addr s l \/ addr s l + 4 <= a -> sab (wrt s l v) a = sab s a.
Proof. intros Ha. apply store_le_other. by change (Z.of_nat 4) with 4. Qed.

Lemma chain_ext s s' h fl :
  (forall b, b ∈ fl -> rd s' (LBlk b 0) = rd s (LBlk b 0)) -> chain s h fl -> chain s' h fl.
Proof.
  revert h. induction fl as [|b fl IH]; intros h He; cbn; [done|]. intros [-> Hc].
  rewrite (He b) by set_solver. split; [done|]. apply IH; [|done]. set_solver.
Qed.

Section Changes.
Context (N : Z) (ow : Z -> owner) (fl : list Z) (s : fs) (Hi : inv N ow fl s).

Definition of_ino (o : owner) (ino : Z) : Prop :=
  match o with Data i _ | Ind i | DInd i | L1 i _ => i = ino | _ => False end.

(** The pointers of the file are the same. *)
Lemma map_block_ext_ino s' ino fb :
  0 <= ino < N -> 0 <= fb < MAX_FILE_BLOCKS ->
  (forall l o, valid N s l -> points ow l = Some o -> of_ino o ino -> rd s' l = rd s l) ->
  map_block s' ino fb = map_block s ino fb.
Proof using Hi.
  intros Hino Hfb He. unfold map_block, MAX_FILE_BLOCKS in *.
  destruct (Z.ltb_spec fb 8).
  { eapply He; [cbn; lia | apply points_direct; lia | done]. }
  destruct (Z.ltb_spec fb 1032).
  { rewrite (He (LIno ino 18) (Ind ino)) by (done || cbn; lia).
    destruct (Z.eqb_spec (rd s (LIno ino 18)) 0) as [|Hp]; [done|].
    apply (points_nonzero N ow fl s Hi _ (Ind ino)) in Hp as [Hr Ho]; [|cbn; lia|done].
    eapply He; [cbn; lia | apply points_blk; [lia | by rewrite Ho] | done]. }
  rewrite (He (LIno ino 19) (DInd ino)) by (done || cbn; lia).
  destruct (Z.eqb_spec (rd s (LIno ino 19)) 0) as [|Hd]; [done|].
  apply (points_nonzero N ow fl s Hi _ (DInd ino)) in Hd as [Hr Ho]; [|cbn; lia|done].
  assert (0 <= (fb - 1032) / 1024 < 1024).
  { split; [apply Z.div_pos; lia | apply Z.div_lt_upper_bound; lia]. }
  pose proof (Z.mod_pos_bound (fb - 1032) 1024 ltac:(lia)).
  set (d := rd s (LIno ino 19)) in *. set (j := (fb - 1032) / 1024) in *.
  assert (Hj : points ow (LBlk d j) = Some (L1 ino j)) by (apply points_blk; [lia | by rewrite Ho]).
  rewrite (He (LBlk d j) (L1 ino j)) by (done || cbn; lia).
  destruct (Z.eqb_spec (rd s (LBlk d j)) 0) as [|Hp]; [done|].
  apply (points_nonzero N ow fl s Hi _ (L1 ino j)) in Hp as [Hr' Ho']; [|cbn; lia|done].
  eapply He; [cbn; lia | apply points_blk; [lia | by rewrite Ho'] | done].
Qed.

Lemma map_block_ext s' ino fb :
  0 <= ino < N -> 0 <= fb < MAX_FILE_BLOCKS ->
  (forall l o, valid N s l -> points ow l = Some o -> rd s' l = rd s l) -> map_block s' ino fb = map_block s ino fb.
Proof using Hi. intros Hino Hfb He. apply map_block_ext_ino; eauto. Qed.

(** *** A word of an inode that is not a pointer *)

Lemma wrt_meta ino k v :
  0 <= ino < N -> 0 <= k < 32 -> ino_child ino k = None ->
  let s' := wrt s (LIno ino k) v in
  inv N ow fl s' /\ forall ino' p, 0 <= ino' < N -> file_pos p -> fbyte s' ino' p = fbyte s ino' p.
Proof using Hi.
  intros Hino Hk Hc s'. pose proof (inv_geo _ _ _ _ Hi) as G. assert (V : valid N s (LIno ino k)) by done.
  assert (Hrd : forall l, valid N s l -> l <> LIno ino k -> rd s' l = rd s l).
  { intros l Vl Hne. unfold s'. rewrite (rd_wrt N) by done. by rewrite decide_False. }
  assert (Hp : forall l o, valid N s l -> points ow l = Some o -> rd s' l = rd s l).
  { intros l o Vl Hpl. apply Hrd; [done|]. intros ->. cbn in Hpl. congruence. }
  split.
  - pose proof Hi as [_ Hn Hch Hnd Hfr Hptr]. constructor.
    + by apply (same_rest_geo N s); [apply same_rest_wrt|].
    + by rewrite Hrd.
    + rewrite Hrd by done. apply (chain_ext s); [|done]. intros b Hb. destruct (Hfr b Hb).
      apply Hrd; [cbn; lia | done].
    + done.
    + done.
    + intros l o Vl Hpl. rewrite (Hp l o Vl Hpl). by apply Hptr.
  - intros ino' p Hino' Hfp. unfold fbyte. rewrite map_block_ext; [|done|by apply file_pos_block|done].
    destruct (Z.eqb_spec (map_block s ino' (p / 4096)) 0) as [|Hnz]; [done|].
    destruct (map_block_owner N ow fl s Hi ino' (p / 4096) Hino' (file_pos_block p Hfp)) as [|[Hb _]]; [done|].
    apply sab_wrt. right. cbn. pose proof G as G'. geo G'. unfold inodeOffset, blockOffset, BLOCK_SIZE, INODE_SIZE.
    pose proof (Z.mod_pos_bound p 4096 ltac:(lia)). change (blockOffset s') with (blockOffset s).
    unfold blockOffset, BLOCK_SIZE. lia.
Qed.

(** *** The contents depend on the pointers and on the blocks of files *)

Lemma fbyte_ext s' ino p :
  same_rest s s' -> 0 <= ino < N -> file_pos p ->
  (forall l o, valid N s l -> points ow l = Some o -> rd s' l = rd s l) ->
  (forall b i fb a, 1 <= b < totalDataBlocks s -> ow b = Data i fb -> 0 <= a < 4096 ->
     sab s' (blockOffset s b + a) = sab s (blockOffset s b + a)) ->
  fbyte s' ino p = fbyte s ino p.
Proof using Hi.
  intros Hr Hino Hfp Hp Hb. unfold fbyte. rewrite map_block_ext; [|done|by apply file_pos_block|done].
  destruct (Z.eqb_spec (map_block s ino (p / 4096)) 0) as [|Hnz]; [done|].
  destruct (map_block_owner N ow fl s Hi ino (p / 4096) Hino (file_pos_block p Hfp)) as [|[? ?]]; [done|].
  rewrite (same_rest_block s s') by done. eapply Hb; [done | done |]. apply Z.mod_pos_bound. lia.
Qed.

Lemma points_kind l o : points ow l = Some o -> o <> Free /\ o <> Held.
Proof using.
  destruct l as [k | ino k | b k]; cbn; [done| |].
  - unfold ino_child. repeat case_match; intros [= <-]; done.
  - case_decide; [|done]. by destruct (ow b); intros [= <-].
Qed.

(** A change of the owner of one block, which was not in use. *)
Lemma points_insert b o l o' :
  points (<[b := o]> ow) l = Some o' ->
  (exists k, l = LBlk b k /\ child o k = Some o') \/ points ow l = Some o'.
Proof using.
  destruct l as [k | ino k | b' k]; cbn; [by auto..|].
  case_decide; [|done]. destruct (decide (b' = b)) as [-> | Hne].
  - rewrite fn_lookup_insert. eauto.
  - rewrite fn_lookup_insert_ne by done. auto.
Qed.

Lemma ptr_ok_insert b o o' v :
  ow b = Free \/ ow b = Held -> o' <> Free -> o' <> Held -> ptr_ok ow s o' v -> ptr_ok (<[b := o]> ow) s o' v.
Proof using.
  intros Hb H1 H2 [-> | [Hv Hov]]; [by left|]. right. split; [done|].
  rewrite fn_lookup_insert_ne; [done|]. intros ->. destruct Hb; congruence.
Qed.

Definition zero_block (s : fs) (b : Z) : Prop := forall a, 0 <= a < 4096 -> sab s (blockOffset s b + a) = 0.

Lemma load_le_zero m a n : (forall i, a <= i < a + Z.of_nat n -> m i = 0) -> load_le m a n = 0.
Proof using.
  revert a. induction n as [|n IH]; intros a Hm; [done|]. cbn [load_le].
  rewrite IH by (intros; apply Hm; lia). rewrite Hm by lia. done.
Qed.

Lemma rd_zero b k s' : zero_block s' b -> 0 <= k < 1024 -> rd s' (LBlk b k) = 0.
Proof using.
  intros Hz Hk. unfold rd. cbn [addr]. apply load_le_zero. intros i Hin. change (Z.of_nat 4) with 4 in Hin.
  replace i with (blockOffset s' b + (i - blockOffset s' b)) by lia. apply Hz. lia.
Qed.

(** *** Taking the first free block *)

Definition cleared (s : fs) (b : Z) : fs :=
  set_sab s (fun i => if (blockOffset s b <=? i) && (i <? blockOffset s b + BLOCK_SIZE) then 0 else sab s i).

Lemma sab_cleared s0 b a :
  a < blockOffset s0 b \/ blockOffset s0 b + 4096 <= a -> sab (cleared s0 b) a = sab s0 a.
Proof using.
  intros Ha. unfold cleared, BLOCK_SIZE. cbn. destruct (Z.leb_spec (blockOffset s0 b) a); [|done].
  destruct (Z.ltb_spec a (blockOffset s0 b + 4096)); [lia | done].
Qed.

Lemma rd_cleared b l :
  0 <= b < totalDataBlocks s -> valid N s l -> (forall k, l <> LBlk b k) ->
  forall s0, same_rest s s0 -> rd (cleared s0 b) l = rd s0 l.
Proof using Hi.
  intros Hb V Hne s0 Hr. apply rd_agree; [apply same_rest_sab|]. intros a Ha. apply sab_cleared.
  rewrite (same_rest_addr s s0), (same_rest_block s s0) in * by done.
  pose proof (inv_geo _ _ _ _ Hi) as G. geo G.
  destruct l as [k | ino k | b' k]; cbn in *; unfold inodeOffset, blockOffset, BLOCK_SIZE, INODE_SIZE in *; [lia..|].
  assert (b' <> b) by (intros ->; by apply (Hne k)). lia.
Qed.

Definition taken (s : fs) (b : Z) : fs := cleared (wrt s SbFree (rd s (LBlk b 0))) b.

Lemma rd_taken b l :
  0 <= b < totalDataBlocks s -> valid N s l -> (forall k, l <> LBlk b k) -> l <> SbFree ->
  rd (taken s b) l = rd s l.
Proof using Hi.
  intros Hb V Hne Hf. unfold taken. rewrite (rd_cleared b l) by auto with sab.
  rewrite (rd_wrt N) by (done || apply Hi). by rewrite decide_False.
Qed.

Lemma taken_ok b fl' :
  fl = b :: fl' ->
  let s' := taken s b in
  inv N (<[b := Held]> ow) fl' s' /\ zero_block s' b /\
  (forall l o, valid N s l -> points ow l = Some o -> rd s' l = rd s l) /\
  forall ino p, 0 <= ino < N -> file_pos p -> fbyte s' ino p = fbyte s ino p.
Proof using Hi.
  intros Efl s'. pose proof Hi as [G Hn Hch Hnd Hfr Hptr]. rewrite Efl in Hch, Hnd, Hfr. destruct Hch as [Hh Hch].
  destruct (Hfr b) as [Hb Hob]; [apply elem_of_cons; auto|]. apply NoDup_cons in Hnd as [Hbn Hnd].
  assert (Hin : forall l o, points ow l = Some o -> forall k, l <> LBlk b k).
  { intros l o Hpl k ->. cbn in Hpl. rewrite decide_True, Hob in Hpl by lia. done. }
  assert (Hp : forall l o, valid N s l -> points ow l = Some o -> rd s' l = rd s l).
  { intros l o V Hpl. apply rd_taken; [lia | done | by eapply Hin | by intros ->]. }
  split; [|split; [|split; [done|]]].
  - constructor.
    + by apply geometry_sab, geometry_sab.
    + unfold s'. rewrite rd_taken; [done | lia | done..].
    + unfold s' at 2. unfold taken. rewrite (rd_cleared b SbFree); [|lia|done|done|apply same_rest_wrt].
      rewrite (rd_wrt N) by done. rewrite decide_True by done.
      rewrite uint_small by apply rd_range. apply (chain_ext s); [|done].
      intros b' Hb'. destruct (Hfr b'); [apply elem_of_cons; auto|]. apply rd_taken; [lia | cbn; lia | congruence | done].
    + done.
    + intros b' Hb'. destruct (Hfr b') as [? ?]; [apply elem_of_cons; auto|]. split; [done|].
      rewrite fn_lookup_insert_ne; [done|]. intros ->. done.
    + intros l o V Hpl. apply points_insert in Hpl as [(k & _ & [=]) | Hpl].
      destruct (points_kind l o Hpl). rewrite (Hp l o V Hpl). apply ptr_ok_insert; eauto.
  - intros a Ha. unfold s', taken, cleared, BLOCK_SIZE. cbn.
    change (blockOffset (set_sab _ _) b) with (blockOffset s b).
    change (blockOffset (wrt _ _ _) b) with (blockOffset s b).
    rewrite (proj2 (Z.leb_le _ _)), (proj2 (Z.ltb_lt _ _)) by lia. done.
  - intros ino p Hino Hfp. apply fbyte_ext; [|done|done|done|].
    + eapply same_rest_trans; [apply same_rest_wrt | apply same_rest_sab].
    + intros b' i fb a Hb' Ho Ha. assert (b' <> b) by congruence. unfold s', taken. geo G.
      rewrite sab_cleared; [apply sab_wrt|]; change (blockOffset (wrt _ _ _)) with (blockOffset s);
        unfold blockOffset, BLOCK_SIZE; cbn; lia.
Qed.

(** *** A pointer to a new, empty block *)

Lemma link_ok l o v :
  valid N s l -> points ow l = Some o -> rd s l = 0 ->
  1 <= v < totalDataBlocks s -> ow v = Held -> zero_block s v ->
  let s' := wrt s l v in
  inv N (<[v := o]> ow) fl s' /\ zero_block s' v /\ rd s' l = v /\
  (forall l', valid N s l' -> l' <> l -> rd s' l' = rd s l').
Proof using Hi.
  intros V Hpl Hl Hv Hov Hz s'. pose proof Hi as [G Hn Hch Hnd Hfr Hptr].
  assert (Hrd : forall l', valid N s l' -> l' <> l -> rd s' l' = rd s l').
  { intros l' V' Hne. unfold s'. rewrite (rd_wrt N) by done. by rewrite decide_False. }
  assert (Hv' : rd s' l = v).
  { unfold s'. rewrite (rd_wrt N), decide_True by done. apply uint_small. geo G. lia. }
  assert (Hlv : forall k, l <> LBlk v k).
  { intros k ->. cbn in Hpl. rewrite decide_True, Hov in Hpl by lia. done. }
  assert (Hz' : zero_block s' v).
  { intros a Ha. rewrite <- (Hz a Ha). apply sab_wrt. pose proof G as G'. geo G'.
    destruct l as [k | ino k | b k]; cbn in *; [done| |];
      unfold inodeOffset, blockOffset, BLOCK_SIZE, INODE_SIZE in *; [lia|].
    assert (b <> v) by (intros ->; by apply (Hlv k)). lia. }
  assert (Hfl : forall b, b ∈ fl -> l <> LBlk b 0).
  { intros b Hb ->. destruct (Hfr b Hb) as [? Ho]. cbn in Hpl. rewrite decide_True, Ho in Hpl by lia. done. }
  split; [constructor | done].
  - by apply geometry_sab.
  - rewrite Hrd; [done | done | by intros <-].
  - rewrite Hrd; [|done | by intros <-]. apply (chain_ext s); [|done].
    intros b Hb. apply Hrd; [destruct (Hfr b Hb); cbn; lia | by apply not_eq_sym, Hfl].
  - done.
  - intros b Hb. destruct (Hfr b Hb). split; [done|]. rewrite fn_lookup_insert_ne by congruence. done.
  - intros l' o' V' Hpl'. apply points_insert in Hpl' as [(k & -> & Hc) | Hpl'].
    { left. apply rd_zero; [done | cbn in V'; lia]. }
    destruct (decide (l' = l)) as [-> | Hne].
    + rewrite Hv'. right. split; [done|]. rewrite fn_lookup_insert. congruence.
    + rewrite Hrd by done. destruct (points_kind l' o' Hpl'). apply ptr_ok_insert; eauto.
Qed.

(** What the new pointer does to the map of a file: nothing, or it fills the
    hole that it is for. *)
Lemma link_map l o v ino fb :
  valid N s l -> points ow l = Some o -> rd s l = 0 ->
  1 <= v < totalDataBlocks s -> ow v = Held -> zero_block s v ->
  0 <= ino < N -> 0 <= fb < MAX_FILE_BLOCKS ->
  let s' := wrt s l v in
  map_block s' ino fb = map_block s ino fb \/
  (map_block s ino fb = 0 /\ map_block s' ino fb = v /\ o = Data ino fb).
Proof using Hi.
  intros V Hpl Hl Hv Hov Hz Hino Hfb s'.
  destruct (link_ok l o v V Hpl Hl Hv Hov Hz) as (_ & Hz' & Hv' & Hrd).
  assert (Hs : forall l' o', valid N s l' -> points ow l' = Some o' ->
    (l' = l /\ o' = o /\ rd s l' = 0 /\ rd s' l' = v) \/ (l' <> l /\ rd s' l' = rd s l')).
  { intros l' o' V' Hp'. destruct (decide (l' = l)) as [-> | Hne]; [left | right; eauto].
    split; [done|]. split; [congruence|]. done. }
  assert (Hzb : forall k, 0 <= k < 1024 -> rd s' (LBlk v k) = 0) by (intros; by apply rd_zero).
  unfold map_block, MAX_FILE_BLOCKS in *.
  destruct (Z.ltb_spec fb 8).
  { destruct (Hs (LIno ino (10 + fb)) (Data ino fb)) as [(_ & <- & ? & ?) | [_ ?]];
      [cbn; lia | apply points_direct; lia | by right | by left]. }
  destruct (Z.ltb_spec fb 1032).
  { destruct (Hs (LIno ino 18) (Ind ino)) as [(_ & _ & -> & ->) | [_ ->]]; [cbn; lia | done | |].
    { left. rewrite (proj2 (Z.eqb_neq v 0)), Z.eqb_refl by lia. apply Hzb. lia. }
    destruct (Z.eqb_spec (rd s (LIno ino 18)) 0) as [|Hp]; [by left|].
    apply (points_nonzero N ow fl s Hi _ (Ind ino)) in Hp as [Hr Ho]; [|cbn; lia|done].
    destruct (Hs (LBlk (rd s (LIno ino 18)) (fb - 8)) (Data ino fb)) as [(_ & <- & ? & ?) | [_ ?]];
      [cbn; lia | apply points_blk; [lia | rewrite Ho; cbn; do 2 f_equal; lia] | by right | by left]. }
  assert (0 <= (fb - 1032) / 1024 < 1024).
  { split; [apply Z.div_pos; lia | apply Z.div_lt_upper_bound; lia]. }
  pose proof (Z.mod_pos_bound (fb - 1032) 1024 ltac:(lia)) as Hm.
  pose proof (Z.div_mod (fb - 1032) 1024 ltac:(lia)) as Hdm.
  set (j := (fb - 1032) / 1024) in *. set (k := (fb - 1032) mod 1024) in *.
  destruct (Hs (LIno ino 19) (DInd ino)) as [(_ & _ & -> & ->) | [_ ->]]; [cbn; lia | done | |].
  { left. rewrite (proj2 (Z.eqb_neq v 0)), Hzb by lia. done. }
  destruct (Z.eqb_spec (rd s (LIno ino 19)) 0) as [|Hd]; [by left|].
  apply (points_nonzero N ow fl s Hi _ (DInd ino)) in Hd as [Hr Ho]; [|cbn; lia|done].
  set (d := rd s (LIno ino 19)) in *.
  destruct (Hs (LBlk d j) (L1 ino j)) as [(_ & _ & -> & ->) | [_ ->]];
    [cbn; lia | apply points_blk; [lia | by rewrite Ho] | |].
  { left. rewrite (proj2 (Z.eqb_neq v 0)), Hzb by lia. done. }
  destruct (Z.eqb_spec (rd s (LBlk d j)) 0) as [|Hp]; [by left|].
  apply (points_nonzero N ow fl s Hi _ (L1 ino j)) in Hp as [Hr' Ho'];
    [|cbn; lia|apply points_blk; [lia | by rewrite Ho]].
  destruct (Hs (LBlk (rd s (LBlk d j)) k) (Data ino fb)) as [(_ & <- & ? & ?) | [_ ?]];
    [cbn; lia | apply points_blk; [lia | rewrite Ho'; cbn; do 2 f_equal; lia] | by right | by left].
Qed.

(** A block whose words are pointers is no block of a file. *)
Lemma pointer_outside l o b i fb a :
  valid N s l -> points ow l = Some o -> 1 <= b < totalDataBlocks s -> ow b = Data i fb -> 0 <= a < 4096 ->
  blockOffset s b + a < addr s l \/ addr s l + 4 <= blockOffset s b + a.
Proof using Hi.
  intros V Hpl Hb Ho Ha. pose proof (inv_geo _ _ _ _ Hi) as G. geo G.
  destruct l as [k | ino k | b' k]; cbn in *; [done| |];
    unfold inodeOffset, blockOffset, BLOCK_SIZE, INODE_SIZE in *; [lia|].
  assert (b' <> b) by (intros ->; rewrite decide_True, Ho in Hpl by lia; done). lia.
Qed.

Lemma link_contents l o v ino p :
  valid N s l -> points ow l = Some o -> rd s l = 0 ->
  1 <= v < totalDataBlocks s -> ow v = Held -> zero_block s v -> 0 <= ino < N -> file_pos p ->
  fbyte (wrt s l v) ino p = fbyte s ino p.
Proof using Hi.
  intros V Hpl Hl Hv Hov Hz Hino Hfp. destruct (link_ok l o v V Hpl Hl Hv Hov Hz) as (_ & Hz' & _).
  pose proof (Z.mod_pos_bound p 4096 ltac:(lia)) as Hm.
  pose proof (link_map l o v ino (p / 4096) V Hpl Hl Hv Hov Hz Hino (file_pos_block p Hfp)) as [Em | (E0 & Ev & _)];
    unfold fbyte.
  - cbn zeta in Em. rewrite Em. destruct (Z.eqb_spec (map_block s ino (p / 4096)) 0) as [|Hnz]; [done|].
    destruct (map_block_owner N ow fl s Hi ino (p / 4096) Hino (file_pos_block p Hfp)) as [|[Hb Ho]]; [done|].
    apply sab_wrt. by eapply pointer_outside.
  - cbn zeta in Ev. rewrite E0, Ev, (proj2 (Z.eqb_neq v 0)) by lia. by apply Hz'.
Qed.

(** *** Giving a block back *)

Definition released (s : fs) (v : Z) : fs := wrt (wrt s (LBlk v 0) (rd s SbFree)) SbFree v.

Lemma released_ok v :
  1 <= v < totalDataBlocks s -> ow v = Held ->
  let s' := released s v in
  inv N (<[v := Free]> ow) (v :: fl) s' /\
  (forall l, valid N s l -> l <> LBlk v 0 -> l <> SbFree -> rd s' l = rd s l) /\
  forall ino p, 0 <= ino < N -> file_pos p -> fbyte s' ino p = fbyte s ino p.
Proof using Hi.
  intros Hv Hov s'. pose proof Hi as [G Hn Hch Hnd Hfr Hptr].
  assert (V : valid N s (LBlk v 0)) by (cbn; lia).
  set (s1 := wrt s (LBlk v 0) (rd s SbFree)).
  assert (G1 : geometry N s1) by (by apply geometry_sab).
  assert (Hrd : forall l, valid N s l -> l <> LBlk v 0 -> l <> SbFree -> rd s' l = rd s l).
  { intros l Vl H1 H2. unfold s', released. fold s1. rewrite (rd_wrt N) by done. rewrite decide_False by done.
    unfold s1. rewrite (rd_wrt N) by done. by rewrite decide_False. }
  assert (Hp : forall l o, valid N s l -> points ow l = Some o -> rd s' l = rd s l).
  { intros l o Vl Hpl. apply Hrd; [done | | by intros ->]. intros ->. cbn in Hpl.
    rewrite decide_True, Hov in Hpl by lia. done. }
  assert (Hvf : v ∉ fl) by (intros Hin; destruct (Hfr v Hin); congruence).
  split; [constructor | split; [done|]].
  - by apply geometry_sab.
  - by rewrite Hrd.
  - unfold s' at 2. unfold released. fold s1. rewrite (rd_wrt N) by done. rewrite decide_True by done.
    split; [apply uint_small; geo G; lia|].
    unfold s', released. fold s1. rewrite (rd_wrt N s1) by done. rewrite decide_False by done.
    unfold s1 at 2. rewrite (rd_wrt N s), decide_True, uint_small by (done || apply rd_range).
    apply (chain_ext s); [|done]. intros b Hb. destruct (Hfr b Hb).
    apply Hrd; [cbn; lia | intros [= ->]; done | done].
  - by constructor.
  - intros b [-> | Hb]%elem_of_cons; [by rewrite fn_lookup_insert|]. destruct (Hfr b Hb). split; [done|].
    rewrite fn_lookup_insert_ne by (intros ->; done). done.
  - intros l o Vl Hpl. apply points_insert in Hpl as [(k & _ & [=]) | Hpl].
    destruct (points_kind l o Hpl). rewrite (Hp l o Vl Hpl). apply ptr_ok_insert; eauto.
  - intros ino p Hino Hfp. apply fbyte_ext; [|done..|].
    + eapply same_rest_trans; apply same_rest_wrt.
    + intros b i fb a Hb Ho Ha. assert (b <> v) by congruence. unfold s', released. fold s1. geo G.
      rewrite sab_wrt; [apply sab_wrt|]; cbn; unfold blockOffset, BLOCK_SIZE; lia.
Qed.

(** *** Bytes of a file *)

Lemma data_write ino fb lo hi m :
  0 <= ino < N -> 0 <= fb < MAX_FILE_BLOCKS -> map_block s ino fb <> 0 -> 0 <= lo -> hi <= 4096 ->
  (forall a, ~ (blockOffset s (map_block s ino fb) + lo <= a < blockOffset s (map_block s ino fb) + hi) ->
     m a = sab s a) ->
  let s' := set_sab s m in
  inv N ow fl s' /\
  (forall ino' fb', 0 <= ino' < N -> 0 <= fb' < MAX_FILE_BLOCKS -> map_block s' ino' fb' = map_block s ino' fb') /\
  forall ino' p, 0 <= ino' < N -> file_pos p ->
    fbyte s' ino' p =
    if decide (ino' = ino /\ fb * 4096 + lo <= p < fb * 4096 + hi)
    then m (blockOffset s (map_block s ino fb) + (p - fb * 4096)) else fbyte s ino' p.
Proof using Hi.
  intros Hino Hfb Hnz Hlo Hhi Hm s'. pose proof Hi as [G Hn Hch Hnd Hfr Hptr].
  destruct (map_block_owner N ow fl s Hi ino fb Hino Hfb) as [|[Hb Ho]]; [done|].
  set (b := map_block s ino fb) in *.
  assert (Hrd : forall l, valid N s l -> (forall k, l <> LBlk b k) -> rd s' l = rd s l).
  { intros l V Hl. apply rd_agree; [apply same_rest_sab|]. intros a Ha. apply Hm. geo G.
    destruct l as [k | i k | b' k]; cbn in *; unfold inodeOffset, blockOffset, BLOCK_SIZE, INODE_SIZE in *; [lia..|].
    assert (b' <> b) by (intros ->; by apply (Hl k)). lia. }
  assert (Hp : forall l o, valid N s l -> points ow l = Some o -> rd s' l = rd s l).
  { intros l o V Hpl. apply Hrd; [done|]. intros k ->. cbn in Hpl. rewrite decide_True, Ho in Hpl by lia. done. }
  split; [constructor | split; [intros; by apply map_block_ext|]].
  - by apply geometry_sab.
  - by rewrite Hrd.
  - rewrite Hrd by done. apply (chain_ext s); [|done]. intros b' Hb'. destruct (Hfr b' Hb').
    apply Hrd; [cbn; lia|]. intros k [= ->]. congruence.
  - done.
  - done.
  - intros l o V Hpl. rewrite (Hp l o V Hpl). by apply Hptr.
  - intros ino' p Hino' Hfp. unfold fbyte. rewrite map_block_ext; [|done|by apply file_pos_block|done].
    destruct (Z.eqb_spec (map_block s ino' (p / 4096)) 0) as [E0|Hnz'].
    { rewrite decide_False; [done|]. intros [-> Hp']. apply Hnz. unfold b. rewrite <- E0. f_equal.
      apply (Z.div_unique _ _ _ (p - fb * 4096)); lia. }
    pose proof (Z.div_mod p 4096 ltac:(lia)) as Hdm. pose proof (Z.mod_pos_bound p 4096 ltac:(lia)) as Hmod.
    change (blockOffset s') with (blockOffset s). change (sab s') with m.
    destruct (decide (map_block s ino' (p / 4096) = b)) as [E | Hne].
    + destruct (map_block_inj N ow fl s Hi _ _ _ _ Hino' (file_pos_block p Hfp) Hino Hfb E) as [-> Ep]; [done|].
      rewrite E. case_decide as Hd; [f_equal; lia | apply Hm; lia].
    + rewrite decide_False.
      * destruct (map_block_owner N ow fl s Hi ino' (p / 4096) Hino' (file_pos_block p Hfp)) as [|[Hb' _]]; [done|].
        apply Hm. unfold blockOffset, BLOCK_SIZE. lia.
      * intros [-> Hp']. apply Hne. unfold b. f_equal. symmetry. apply (Z.div_unique _ _ _ (p - fb * 4096)); lia.
Qed.

End Changes.
