(* ===== verification/SabFile.v ===== *)
(** * SABFS: blocks of a file, reading and writing

    The functions on blocks in terms of the changes of [SabTree], then
    [read_loop] and [write_loop] against the contents [fbyte]. *)

From Stdlib Require Import ZArith Lia Bool.
From stdpp Require Import base numbers functions list option gmap.
From S2P Require Import Prelude.
From S2P Require Import Bytes.
From S2P Require Import SabFs.
From S2P Require Import SabApi.
From S2P Require Import SabInv.
From S2P Require Import SabTree.

Local Open Scope Z_scope.

Lemma bind_ok {A B} (m : M A) (f : A -> M B) s x s' : m s = Some (x, s') -> bind m f s = f x s'.
Proof. unfold bind. by intros ->. Qed.

Lemma bind_get {A} (f : fs -> M A) s : bind get f s = f s s.
Proof. done. Qed.

Lemma bind_ret {A B} (x : A) (f : A -> M B) s : bind (ret x) f s = f x s.
Proof. done. Qed.

Lemma bind_assoc {A B C} (m : M A) (f : A -> M B) (g : B -> M C) s :
  bind (bind m f) g s = bind m (fun x => bind (f x) g) s.
Proof. unfold bind. by destruct (m s) as [[]|]. Qed.

(** ** What is kept *)

(** Words that the tree of blocks does not use. *)
Definition is_meta (l : loc) : Prop :=
  match l with
  | LSb k => k <> 5
  | LIno ino k => ino_child ino k = None /\ k <> 9
  | LBlk _ _ => False
  end.

Record keeps (N : Z) (s s' : fs) : Prop := {
  keeps_rest : same_rest s s';
  keeps_meta : forall l, is_meta l -> valid N s l -> rd s' l = rd s l;
  keeps_bytes : forall ino p, 0 <= ino < N -> file_pos p -> fbyte s' ino p = fbyte s ino p;
  keeps_map : forall ino fb, 0 <= ino < N -> 0 <= fb < MAX_FILE_BLOCKS -> map_block s ino fb <> 0 ->
    map_block s' ino fb = map_block s ino fb;
}.

Lemma keeps_refl N s : keeps N s s.
Proof. by split; auto with sab. Qed.

Lemma keeps_trans N s1 s2 s3 : keeps N s1 s2 -> keeps N s2 s3 -> keeps N s1 s3.
Proof.
  intros [R1 M1 B1 P1] [R2 M2 B2 P2]. split.
  - by eapply same_rest_trans.
  - intros l Hm V. rewrite M2, M1; [done.. |]. by apply (same_rest_valid N s1 s2).
  - intros. by rewrite B2, B1.
  - intros ino fb Hino Hfb Hnz. rewrite P2, P1; [done.. |]. by rewrite P1.
Qed.

Lemma meta_not_ptr ow l o : is_meta l -> points ow l = Some o -> False.
Proof. destruct l as [k | ino k | b k]; cbn; [done | intros []; congruence | done]. Qed.

Section Blocks.
Context `{B : Browser} (N : Z).

(** Accesses at the address of a word. *)
Lemma get_at s off l : geometry N s -> valid N s l -> off = addr s l -> getUint32 off s = Some (rd s l, s).
Proof using. intros G V ->. by apply (getUint32_rd N). Qed.

Lemma set_at s off l v : geometry N s -> valid N s l -> off = addr s l -> setUint32 off v s = Some (tt, wrt s l v).
Proof using. intros G V ->. by apply (setUint32_wrt N). Qed.

Lemma compareExchange_ok s off l new :
  geometry N s -> valid N s l -> off = addr s l ->
  compareExchange off (rd s l) new s = Some (rd s l, wrt s l new).
Proof using.
  intros G V E. unfold compareExchange. rewrite (bind_ok _ _ _ _ _ (get_at s off l G V E)), Z.eqb_refl.
  by rewrite (bind_ok _ _ _ _ _ (set_at s off l new G V E)).
Qed.

(** ** Allocation *)

Lemma block_addr s b : blockOffset s b = addr s (LBlk b 0).
Proof using. cbn. lia. Qed.

Lemma allocBlock_empty ow s : inv N ow [] s -> allocBlock s = Some (-1, s).
Proof using.
  intros Hi. pose proof Hi as [G _ Hch _ _ _]. unfold allocBlock, allocBlock_try.
  rewrite (bind_ok _ _ _ _ _ (get_at s SB_FREE_BLOCK SbFree G ltac:(done) eq_refl)). cbn in Hch. rewrite Hch. done.
Qed.

Lemma allocBlock_first ow b fl s : inv N ow (b :: fl) s -> allocBlock s = Some (b, taken s b).
Proof using.
  intros Hi. pose proof Hi as [G _ [Hh _] _ Hfr _]. destruct (Hfr b) as [Hb _]; [apply elem_of_cons; auto|].
  assert (V : valid N s (LBlk b 0)) by (cbn; lia). pose proof G as G'. geo G'.
  unfold allocBlock, allocBlock_try.
  rewrite (bind_ok _ _ _ _ _ (get_at s SB_FREE_BLOCK SbFree G ltac:(done) eq_refl)), Hh.
  rewrite (proj2 (Z.eqb_neq b NIL)), (proj2 (Z.eqb_neq b 0)) by (unfold NIL; lia). cbn [orb].
  rewrite bind_get. rewrite (bind_ok _ _ _ _ _ (get_at s _ (LBlk b 0) G V (block_addr s b))).
  rewrite <- Hh at 1.
  rewrite (bind_ok _ _ _ _ _ (compareExchange_ok s SB_FREE_BLOCK SbFree _ G ltac:(done) eq_refl)).
  rewrite Hh, Z.eqb_refl. done.
Qed.

Lemma freeBlock_ok s v :
  geometry N s -> 1 <= v < totalDataBlocks s -> freeBlock v s = Some (tt, released s v).
Proof using.
  intros G Hv. pose proof G as G'. geo G'. assert (V : valid N s (LBlk v 0)) by (cbn; lia).
  unfold freeBlock. rewrite (proj2 (Z.eqb_neq v 0)), (proj2 (Z.eqb_neq v NIL)) by (unfold NIL; lia). cbn [orb].
  rewrite bind_get. unfold freeBlock_try.
  rewrite (bind_ok _ _ _ _ _ (get_at s SB_FREE_BLOCK SbFree G ltac:(done) eq_refl)).
  rewrite (bind_ok _ _ _ _ _ (set_at s _ (LBlk v 0) _ G V (block_addr s v))).
  set (s1 := wrt s (LBlk v 0) (rd s SbFree)). assert (G1 : geometry N s1) by (by apply geometry_sab).
  assert (E : rd s1 SbFree = rd s SbFree).
  { unfold s1. rewrite (rd_wrt N) by done. by rewrite decide_False. }
  rewrite <- E at 1.
  rewrite (bind_ok _ _ _ _ _ (compareExchange_ok s1 SB_FREE_BLOCK SbFree v G1 ltac:(done) eq_refl)).
  rewrite E, Z.eqb_refl. done.
Qed.

Lemma keeps_taken ow b fl s : inv N ow (b :: fl) s -> keeps N s (taken s b).
Proof using.
  intros Hi. destruct (taken_ok N ow _ s Hi b fl eq_refl) as (_ & _ & Hp & Hb).
  destruct (inv_free _ _ _ _ Hi b) as [? _]; [apply elem_of_cons; auto|]. split.
  - eapply same_rest_trans; [apply same_rest_wrt | apply same_rest_sab].
  - intros l Hm V. apply (rd_taken N ow _ s Hi); [lia | done | by intros k -> | by intros ->].
  - done.
  - intros ino fb Hino Hfb _. by eapply map_block_ext.
Qed.

Lemma keeps_link ow fl s l o v :
  inv N ow fl s -> valid N s l -> points ow l = Some o -> rd s l = 0 ->
  1 <= v < totalDataBlocks s -> ow v = Held -> zero_block s v -> keeps N s (wrt s l v).
Proof using.
  intros Hi V Hp Hl Hv Hov Hz. destruct (link_ok N ow fl s Hi l o v) as (_ & _ & _ & Hrd); [done..|]. split.
  - apply same_rest_wrt.
  - intros l' Hm V'. apply Hrd; [done|]. intros ->. by eapply meta_not_ptr.
  - intros ino p Hino Hfp. by eapply link_contents.
  - intros ino fb Hino Hfb Hnz.
    by destruct (link_map N ow fl s Hi l o v ino fb V Hp Hl Hv Hov Hz Hino Hfb) as [-> | (? & _)].
Qed.

Lemma keeps_released ow fl s v :
  inv N ow fl s -> 1 <= v < totalDataBlocks s -> ow v = Held -> keeps N s (released s v).
Proof using.
  intros Hi Hv Hov. destruct (released_ok N ow fl s Hi v Hv Hov) as (_ & Hrd & Hb). split.
  - eapply same_rest_trans; apply same_rest_wrt.
  - intros l Hm V. apply Hrd; [done | by intros -> | by intros ->].
  - done.
  - intros ino fb Hino Hfb _. eapply map_block_ext; [exact Hi | done | done |]. intros l o V Hp.
    apply Hrd; [done | | by intros ->]. intros ->. cbn in Hp. rewrite decide_True, Hov in Hp by lia. done.
Qed.

(** A held block stays empty while another word is written. *)
Lemma zero_block_taken ow b fl s v :
  inv N ow (b :: fl) s -> 1 <= v < totalDataBlocks s -> zero_block s v -> zero_block (taken s b) v.
Proof using.
  intros Hi Hv Hz a Ha. pose proof (inv_geo _ _ _ _ Hi) as G. geo G. change (blockOffset (taken s b)) with (blockOffset s).
  destruct (inv_free _ _ _ _ Hi b) as [? _]; [apply elem_of_cons; auto|]. unfold taken.
  destruct (decide (v = b)) as [-> | Hne].
  - unfold cleared, BLOCK_SIZE. cbn. change (blockOffset (wrt _ _ _)) with (blockOffset s).
    by rewrite (proj2 (Z.leb_le _ _)), (proj2 (Z.ltb_lt _ _)) by lia.
  - rewrite sab_cleared, sab_wrt; [by apply Hz|..]; change (blockOffset (wrt _ _ _)) with (blockOffset s);
      cbn; unfold blockOffset, BLOCK_SIZE; lia.
Qed.

Lemma zero_block_wrt ow fl s l o v x :
  inv N ow fl s -> valid N s l -> points ow l = Some o -> 1 <= v < totalDataBlocks s -> ow v = Held ->
  zero_block s v -> zero_block (wrt s l x) v.
Proof using.
  intros Hi V Hp Hv Hov Hz a Ha. rewrite sab_wrt; [by apply Hz|]. pose proof (inv_geo _ _ _ _ Hi) as G. geo G.
  change (blockOffset (wrt s l x)) with (blockOffset s).
  destruct l as [k | ino k | b k]; cbn in *; [done| |];
    unfold inodeOffset, blockOffset, BLOCK_SIZE, INODE_SIZE in *; [lia|].
  assert (b <> v) by (intros ->; rewrite decide_True, Hov in Hp by lia; done). lia.
Qed.

(** ** Pointer blocks *)

(** Block [nb] is held and empty. *)
Definition held (ow : Z -> owner) (s : fs) (nb : Z) : Prop :=
  1 <= nb < totalDataBlocks s /\ ow nb = Held /\ zero_block s nb.

Lemma ensure_block_ok ow fl s slot l o nb :
  inv N ow fl s -> valid N s l -> points ow l = Some o -> slot = addr s l -> held ow s nb ->
  exists r s' ow' fl',
    ensure_block slot nb s = Some (r, s') /\ inv N ow' fl' s' /\ keeps N s s' /\
    (forall ino fb, 0 <= ino < N -> 0 <= fb < MAX_FILE_BLOCKS -> o <> Data ino fb ->
       map_block s' ino fb = map_block s ino fb) /\
    (forall l' o', valid N s l' -> points ow l' = Some o' -> l' <> l -> rd s' l' = rd s l') /\
    match r with
    | Some p => 1 <= p < totalDataBlocks s /\ ow' p = o /\ rd s' l = p /\ held ow' s' nb /\
                (length fl <= S (length fl'))%nat
    | None => fl = []
    end.
Proof using.
  intros Hi V Hp -> (Hnb & Hho & Hz). pose proof (inv_geo _ _ _ _ Hi) as G. unfold ensure_block.
  rewrite (bind_ok _ _ _ _ _ (getUint32_rd N s l G V)).
  destruct (Z.eqb_spec (rd s l) 0) as [E0 | Hnz].
  2:{ destruct (points_nonzero N ow fl s Hi l o V Hp Hnz).
      exists (Some (rd s l)), s, ow, fl. repeat (split; [done || apply keeps_refl|]). lia. }
  destruct fl as [|p fl].
  { rewrite (bind_ok _ _ _ _ _ (allocBlock_empty ow s Hi)), Z.eqb_refl.
    rewrite (bind_ok _ _ _ _ _ (freeBlock_ok s nb G Hnb)).
    destruct (released_ok N ow [] s Hi nb Hnb Hho) as (Hi' & Hrd & _).
    exists None, (released s nb), (<[nb := Free]> ow), [nb]. split; [done|]. split; [done|].
    split; [by eapply keeps_released|].
    assert (Hp' : forall l' o', valid N s l' -> points ow l' = Some o' -> rd (released s nb) l' = rd s l').
    { intros l' o' V' Hp'. apply Hrd; [done | | by intros ->]. intros ->. cbn in Hp'.
      rewrite decide_True, Hho in Hp' by lia. done. }
    split; [intros; by eapply map_block_ext|]. split; [eauto | done]. }
  rewrite (bind_ok _ _ _ _ _ (allocBlock_first ow p fl s Hi)).
  destruct (taken_ok N ow _ s Hi p fl eq_refl) as (Hi1 & Hz1 & Hrd1 & _).
  destruct (inv_free _ _ _ _ Hi p) as [Hpb Hpo]; [apply elem_of_cons; auto|].
  assert (Hne : p <> nb) by congruence.
  set (s1 := taken s p) in *. assert (G1 : geometry N s1) by apply Hi1.
  assert (Hp1 : points (<[p := Held]> ow) l = Some o).
  { destruct l as [k | ino k | b k]; [done | done |]. cbn in *. case_decide; [|done].
    rewrite fn_lookup_insert_ne; [done|]. intros <-. by rewrite Hpo in Hp. }
  rewrite (proj2 (Z.eqb_neq p (-1))) by lia. rewrite (bind_ok _ _ _ _ _ (setUint32_wrt N s1 l p G1 V)).
  assert (E1 : rd s1 l = 0) by (by rewrite (Hrd1 l o)).
  assert (Hh1 : <[p := Held]> ow p = Held) by apply fn_lookup_insert.
  destruct (link_ok N _ _ s1 Hi1 l o p V Hp1 E1 Hpb Hh1 Hz1) as (Hi2 & Hz2 & Hv2 & Hrd2).
  exists (Some p), (wrt s1 l p), (<[p := o]> (<[p := Held]> ow)), fl. split; [done|]. split; [done|].
  split; [eapply keeps_trans; [by eapply keeps_taken | by eapply keeps_link]|]. split.
  { intros ino fb Hino Hfb Hd.
    destruct (link_map N _ _ s1 Hi1 l o p ino fb V Hp1 E1 Hpb Hh1 Hz1 Hino Hfb) as [-> | (_ & _ & ->)]; [|done].
    by eapply map_block_ext. }
  split; [intros l' o' V' Hp' Hl'; rewrite Hrd2 by done; by eapply Hrd1|].
  split; [done|]. split; [by rewrite fn_lookup_insert|]. split; [done|]. split; [|cbn; lia].
  split; [done|]. split; [by rewrite !fn_lookup_insert_ne|].
  eapply (zero_block_wrt _ _ s1); [exact Hi1 | done | exact Hp1 | done | by rewrite fn_lookup_insert_ne |].
    by eapply zero_block_taken.
Qed.

(** Only block [fb] of the file may be another one. *)
Definition others_map (s s' : fs) (ino fb : Z) : Prop :=
  forall i b, 0 <= i < N -> 0 <= b < MAX_FILE_BLOCKS -> i <> ino \/ b <> fb -> map_block s' i b = map_block s i b.

Lemma others_map_trans s1 s2 s3 ino fb : others_map s1 s2 ino fb -> others_map s2 s3 ino fb -> others_map s1 s3 ino fb.
Proof using. intros H1 H2 i b Hi Hb Hne. by rewrite H2, H1. Qed.

(** The last pointer. *)
Lemma put_block ow fl s off l ino fb nb :
  inv N ow fl s -> valid N s l -> points ow l = Some (Data ino fb) -> rd s l = 0 -> off = addr s l -> held ow s nb ->
  exists s' ow',
    setUint32 off nb s = Some (tt, s') /\ inv N ow' fl s' /\ keeps N s s' /\ rd s' l = nb /\
    (forall l', valid N s l' -> l' <> l -> rd s' l' = rd s l') /\ others_map s s' ino fb.
Proof using.
  intros Hi V Hp E0 -> (Hnb & Hho & Hz).
  destruct (link_ok N ow fl s Hi l _ nb V Hp E0 Hnb Hho Hz) as (Hi' & _ & Hv & Hrd).
  exists (wrt s l nb), (<[nb := Data ino fb]> ow). split; [apply (setUint32_wrt N); [apply Hi | done]|].
  split; [done|]. split; [by eapply keeps_link|]. split; [done|]. split; [done|]. intros i b Hii Hb Hne.
  destruct (link_map N ow fl s Hi l _ nb i b V Hp E0 Hnb Hho Hz Hii Hb) as [|(_ & _ & Eo)]; [done|]. by destruct Hne; congruence.
Qed.

Lemma double_index fb :
  1032 <= fb < MAX_FILE_BLOCKS ->
  0 <= (fb - 1032) / 1024 < 1024 /\ 0 <= (fb - 1032) mod 1024 < 1024 /\
  1032 + 1024 * ((fb - 1032) / 1024) + (fb - 1032) mod 1024 = fb.
Proof using.
  unfold MAX_FILE_BLOCKS. intros Hfb. pose proof (Z.mod_pos_bound (fb - 1032) 1024 ltac:(lia)).
  pose proof (Z.div_mod (fb - 1032) 1024 ltac:(lia)).
  assert ((fb - 1032) / 1024 < 1024) by (apply Z.div_lt_upper_bound; lia).
  assert (0 <= (fb - 1032) / 1024) by (apply Z.div_pos; lia). lia.
Qed.

(** [m] enters block [nb] at place [fb] of the file, or fails for want of
    two blocks. *)
Definition places (m : M bool) (fl : list Z) (s : fs) (ino fb nb : Z) : Prop :=
  exists ok s' ow' fl',
    m s = Some (ok, s') /\ inv N ow' fl' s' /\ keeps N s s' /\ others_map s s' ino fb /\
    (length fl <= 2 + length fl')%nat /\
    if ok : bool then map_block s' ino fb = nb else (length fl < 2)%nat.

Lemma place_direct ow fl s ino fb nb :
  inv N ow fl s -> 0 <= ino < N -> 0 <= fb < 8 -> map_block s ino fb = 0 -> held ow s nb ->
  places (bind (setUint32 (inodeOffset s ino + INO_DIRECT + fb * 4) nb) (fun _ => ret true)) fl s ino fb nb.
Proof using.
  intros Hi Hino Hfb Hm Hh. unfold map_block in Hm. rewrite (proj2 (Z.ltb_lt fb 8)) in Hm by lia.
  destruct (put_block ow fl s (inodeOffset s ino + INO_DIRECT + fb * 4) (LIno ino (10 + fb)) ino fb nb)
    as (s' & ow' & E & Hi' & K & Hv & _ & Ho);
    [done | cbn; lia | apply points_direct; lia | done | cbn; unfold INO_DIRECT; lia | done |].
  exists true, s', ow', fl. split; [by rewrite (bind_ok _ _ _ _ _ E)|]. split; [done|]. split; [done|].
  split; [done|]. split; [lia|]. unfold map_block. by rewrite (proj2 (Z.ltb_lt fb 8)) by lia.
Qed.

(** The pointer in word [k] of block [p], itself found at [l]. *)
Lemma place_last ow fl s ino fb nb p k :
  inv N ow fl s -> 1 <= p < totalDataBlocks s -> 0 <= k < 1024 -> child (ow p) k = Some (Data ino fb) ->
  rd s (LBlk p k) = 0 -> held ow s nb ->
  exists s' ow',
    bind (setUint32 (blockOffset s p + k * 4) nb) (fun _ => ret true) s = Some (true, s') /\
    inv N ow' fl s' /\ keeps N s s' /\ rd s' (LBlk p k) = nb /\
    (forall l', valid N s l' -> l' <> LBlk p k -> rd s' l' = rd s l') /\ others_map s s' ino fb.
Proof using.
  intros Hi Hp Hk Hc E0 Hh.
  destruct (put_block ow fl s (blockOffset s p + k * 4) (LBlk p k) ino fb nb) as (s' & ow' & E & R);
    [done | cbn; lia | apply points_blk; [lia | done] | done | cbn; lia | done |].
  exists s', ow'. split; [by rewrite (bind_ok _ _ _ _ _ E) | done].
Qed.

Lemma place_indirect ow fl s ino fb nb :
  inv N ow fl s -> 0 <= ino < N -> 8 <= fb < 1032 -> map_block s ino fb = 0 -> held ow s nb ->
  places (bind (ensure_block (inodeOffset s ino + INO_INDIRECT) nb) (fun p =>
            match p with
            | None => ret false
            | Some p => bind (setUint32 (blockOffset s p + (fb - 8) * 4) nb) (fun _ => ret true)
            end)) fl s ino fb nb.
Proof using.
  intros Hi Hino Hfb Hm Hh.
  destruct (ensure_block_ok ow fl s (inodeOffset s ino + INO_INDIRECT) (LIno ino 18) (Ind ino) nb)
    as (r & s1 & ow1 & fl1 & E & Hi1 & K1 & Hm1 & _ & Hr); [done | cbn; lia | done | done | done |].
  unfold places. rewrite (bind_ok _ _ _ _ _ E). destruct r as [p|].
  2:{ exists false, s1, ow1, fl1. subst fl. split; [done|]. split; [done|]. split; [done|].
      split; [intros i b ? ? _; by apply Hm1|]. cbn. lia. }
  destruct Hr as (Hpb & Hpo & Hp & Hh1 & Hlen).
  assert (Ho1 : others_map s s1 ino fb) by (intros i b ? ? _; by apply Hm1).
  specialize (Hm1 ino fb Hino ltac:(unfold MAX_FILE_BLOCKS; lia) ltac:(done)). rewrite Hm in Hm1.
  assert (E0 : rd s1 (LBlk p (fb - 8)) = 0).
  { unfold map_block in Hm1. rewrite (proj2 (Z.ltb_ge fb 8)), (proj2 (Z.ltb_lt fb 1032)), Hp in Hm1 by lia.
    cbn zeta in Hm1. by rewrite (proj2 (Z.eqb_neq p 0)) in Hm1 by lia. }
  pose proof (keeps_rest _ _ _ K1) as R1. pose proof (same_rest_total _ _ R1) as T1.
  rewrite <- (same_rest_block s s1) by done.
  destruct (place_last ow1 fl1 s1 ino fb nb p (fb - 8)) as (s' & ow' & -> & Hi' & K & Hv & Hrd & Ho);
    [done | lia | lia | rewrite Hpo; cbn; do 2 f_equal; lia | done | done |].
  exists true, s', ow', fl1. split; [done|]. split; [done|]. split; [by eapply keeps_trans|].
  split; [by eapply others_map_trans|]. split; [lia|].
  unfold map_block. rewrite (proj2 (Z.ltb_ge fb 8)), (proj2 (Z.ltb_lt fb 1032)) by lia.
  rewrite Hrd; [|cbn; lia|done]. by rewrite Hp, (proj2 (Z.eqb_neq p 0)) by lia.
Qed.

Lemma place_double ow fl s ino fb nb j k :
  inv N ow fl s -> 0 <= ino < N -> 1032 <= fb < MAX_FILE_BLOCKS -> map_block s ino fb = 0 -> held ow s nb ->
  j = (fb - 1032) / 1024 -> k = (fb - 1032) mod 1024 ->
  places (bind (ensure_block (inodeOffset s ino + INO_DOUBLE_INDIRECT) nb) (fun d =>
            match d with
            | None => ret false
            | Some d =>
                bind (ensure_block (blockOffset s d + j * 4) nb) (fun p =>
                match p with
                | None => ret false
                | Some p => bind (setUint32 (blockOffset s p + k * 4) nb) (fun _ => ret true)
                end)
            end)) fl s ino fb nb.
Proof using.
  intros Hi Hino Hfb Hm Hh Ej Ek. destruct (double_index fb Hfb) as (Hj & Hk & Hjk). rewrite <- Ej, <- Ek in *.
  destruct (ensure_block_ok ow fl s (inodeOffset s ino + INO_DOUBLE_INDIRECT) (LIno ino 19) (DInd ino) nb)
    as (r & s1 & ow1 & fl1 & E & Hi1 & K1 & Hm1 & _ & Hr); [done | cbn; lia | done | done | done |].
  unfold places. rewrite (bind_ok _ _ _ _ _ E). destruct r as [d|].
  2:{ exists false, s1, ow1, fl1. subst fl. split; [done|]. split; [done|]. split; [done|].
      split; [intros i b ? ? _; by apply Hm1|]. cbn. lia. }
  destruct Hr as (Hdb & Hdo & Hd & Hh1 & Hlen1).
  assert (Ho1 : others_map s s1 ino fb) by (intros i b ? ? _; by apply Hm1).
  specialize (Hm1 ino fb Hino ltac:(lia) ltac:(done)). rewrite Hm in Hm1.
  pose proof (keeps_rest _ _ _ K1) as R1. pose proof (same_rest_total _ _ R1) as T1.
  destruct (ensure_block_ok ow1 fl1 s1 (blockOffset s d + j * 4) (LBlk d j) (L1 ino j) nb)
    as (r & s2 & ow2 & fl2 & E2 & Hi2 & K2 & Hm2 & Hw2 & Hr);
    [done | cbn; lia | apply points_blk; [lia | by rewrite Hdo]
    | cbn; rewrite (same_rest_block s s1) by done; lia | done |].
  rewrite (bind_ok _ _ _ _ _ E2). destruct r as [p|].
  2:{ exists false, s2, ow2, fl2. subst fl1. split; [done|]. split; [done|]. split; [by eapply keeps_trans|].
      split; [eapply others_map_trans; [exact Ho1 | intros i b ? ? _; by apply Hm2]|]. cbn in *. lia. }
  destruct Hr as (Hpb & Hpo & Hp & Hh2 & Hlen2).
  assert (Ho2 : others_map s1 s2 ino fb) by (intros i b ? ? _; by apply Hm2).
  specialize (Hm2 ino fb Hino ltac:(lia) ltac:(done)). rewrite Hm1 in Hm2.
  pose proof (keeps_rest _ _ _ K2) as R2. pose proof (same_rest_total _ _ R2) as T2.
  assert (E19 : rd s2 (LIno ino 19) = d) by (rewrite (Hw2 _ (DInd ino)); [done | cbn; lia | done | done]).
  assert (E0 : rd s2 (LBlk p k) = 0).
  { unfold map_block in Hm2. rewrite (proj2 (Z.ltb_ge fb 8)), (proj2 (Z.ltb_ge fb 1032)), E19 in Hm2 by lia.
    cbn zeta in Hm2. rewrite <- Ej, <- Ek, Hp, (proj2 (Z.eqb_neq d 0)), (proj2 (Z.eqb_neq p 0)) in Hm2 by lia. done. }
  rewrite <- (same_rest_block s s2) by (by eapply same_rest_trans).
  destruct (place_last ow2 fl2 s2 ino fb nb p k) as (s' & ow' & -> & Hi' & K & Hv & Hrd & Ho);
    [done | lia | lia | rewrite Hpo; cbn; do 2 f_equal; lia | done | done |].
  exists true, s', ow', fl2. split; [done|]. split; [done|].
  split; [eapply keeps_trans; [exact K1 | by eapply keeps_trans]|].
  split; [eapply others_map_trans; [exact Ho1 | by eapply others_map_trans]|]. split; [lia|].
  assert (Hdp : d <> p) by (intros ->; destruct (inv_ptr _ _ _ _ Hi2 (LIno ino 19) (DInd ino)) as [|[_ ?]];
    [cbn; lia | done | lia | rewrite E19 in *; congruence]).
  unfold map_block. rewrite (proj2 (Z.ltb_ge fb 8)), (proj2 (Z.ltb_ge fb 1032)) by lia.
  rewrite Hrd; [|cbn; lia|done]. rewrite E19, <- Ej, <- Ek, (proj2 (Z.eqb_neq d 0)) by lia. cbn zeta.
  rewrite Hrd; [|cbn; lia|congruence]. by rewrite Hp, (proj2 (Z.eqb_neq p 0)) by lia.
Qed.

Lemma place_block_ok ow fl s ino fb nb :
  inv N ow fl s -> 0 <= ino < N -> 0 <= fb < MAX_FILE_BLOCKS -> map_block s ino fb = 0 -> held ow s nb ->
  places (place_block (inodeOffset s ino) fb nb) fl s ino fb nb.
Proof using.
  intros Hi Hino Hfb Hm Hh. unfold place_block, DIRECT_BLOCKS, PTRS_PER_BLOCK.
  destruct (Z.ltb_spec fb 8); [eapply place_direct; eauto; lia|].
  destruct (Z.ltb_spec (fb - 8) 1024).
  - unfold places. rewrite bind_get. eapply place_indirect; eauto; lia.
  - unfold places. rewrite bind_get. eapply place_double; eauto; [lia | f_equal; lia | f_equal; lia].
Qed.

Lemma allocBlockForFile_ok ow fl s ino fb :
  inv N ow fl s -> 0 <= ino < N -> 0 <= fb < MAX_FILE_BLOCKS -> map_block s ino fb = 0 ->
  exists r s' ow' fl',
    allocBlockForFile ino fb s = Some (r, s') /\ inv N ow' fl' s' /\ keeps N s s' /\ others_map s s' ino fb /\
    (length fl <= 3 + length fl')%nat /\
    ((r = -1 /\ (length fl < 3)%nat) \/ (r = map_block s' ino fb /\ r <> 0)).
Proof using.
  intros Hi Hino Hfb Hm. unfold allocBlockForFile. destruct fl as [|b fl].
  { rewrite (bind_ok _ _ _ _ _ (allocBlock_empty ow s Hi)), Z.eqb_refl. exists (-1), s, ow, [].
    split; [done|]. split; [done|]. split; [apply keeps_refl|]. split; [done|]. cbn. split; [lia|]. left. split; [done | lia]. }
  rewrite (bind_ok _ _ _ _ _ (allocBlock_first ow b fl s Hi)).
  destruct (taken_ok N ow _ s Hi b fl eq_refl) as (Hi1 & Hz1 & Hrd1 & _).
  destruct (inv_free _ _ _ _ Hi b) as [Hb Hbo]; [apply elem_of_cons; auto|].
  pose proof (keeps_taken ow b fl s Hi) as K1. set (s1 := taken s b) in *.
  rewrite (proj2 (Z.eqb_neq b (-1))) by lia. rewrite bind_get.
  assert (Ho1 : others_map s s1 ino fb) by (intros i c ? ? _; by eapply map_block_ext).
  assert (Hm1 : map_block s1 ino fb = 0) by (by rewrite (map_block_ext N ow _ s Hi)).
  destruct (place_block_ok _ fl s1 ino fb b Hi1 Hino Hfb Hm1) as (ok & s2 & ow2 & fl2 & E & Hi2 & K2 & Ho2 & Hl & Hok).
  { split; [done|]. split; [apply fn_lookup_insert | done]. }
  rewrite (bind_ok _ _ _ _ _ E). destruct ok.
  2:{ exists (-1), s2, ow2, fl2. split; [done|]. split; [done|]. split; [by eapply keeps_trans|].
      split; [by eapply others_map_trans|]. cbn. split; [lia|]. left. split; [done | lia]. }
  pose proof (inv_geo _ _ _ _ Hi2) as G2. assert (V : valid N s2 (LIno ino 9)) by (cbn; lia).
  assert (Ea : inodeOffset s1 ino + INO_BLOCKS = addr s2 (LIno ino 9)).
  { rewrite (same_rest_addr s1 s2) by apply K2. cbn. unfold INO_BLOCKS. lia. }
  rewrite (bind_ok _ _ _ _ _ (get_at s2 _ (LIno ino 9) G2 V Ea)).
  rewrite (bind_ok _ _ _ _ _ (set_at s2 _ (LIno ino 9) _ G2 V Ea)).
  destruct (wrt_meta N ow2 fl2 s2 Hi2 ino 9 (rd s2 (LIno ino 9) + 1)) as [Hi3 Hb3]; [done | lia | done |].
  assert (Hm3 : forall i c, 0 <= i < N -> 0 <= c < MAX_FILE_BLOCKS ->
    map_block (wrt s2 (LIno ino 9) (rd s2 (LIno ino 9) + 1)) i c = map_block s2 i c).
  { intros i c Hii Hc. eapply map_block_ext; [exact Hi2 | done | done |].
    intros l o Vl Hp. rewrite (rd_wrt N) by done. rewrite decide_False; [done|]. by intros <-. }
  eexists b, _, ow2, fl2. split; [done|]. split; [exact Hi3|]. split; [|split; [|split; [cbn; lia|]]].
  - eapply keeps_trans; [exact K1|]. eapply keeps_trans; [exact K2|]. split; [apply same_rest_wrt | | done | auto].
    intros l Hme Vl. rewrite (rd_wrt N) by done. rewrite decide_False; [done|]. intros <-. by destruct Hme.
  - eapply others_map_trans; [exact Ho1|]. eapply others_map_trans; [exact Ho2|]. intros i c Hii Hc _. by apply Hm3.
  - right. split; [|lia]. rewrite <- Hok. symmetry. by apply Hm3.
Qed.

End Blocks.
