(* ===== verification/SabRw.v ===== *)
(** * SABFS: reading and writing the bytes of a file

    Inodes as records, the map of a file as [getBlockNum] computes it, and the
    two loops of read and write against the contents [fbyte]. *)

From Stdlib Require Import ZArith Lia Bool.
From stdpp Require Import base numbers functions list option gmap.
From S2P Require Import Prelude.
From S2P Require Import Bytes.
From S2P Require Import SabFs.
From S2P Require Import SabApi.
From S2P Require Import SabInv.
From S2P Require Import SabTree.
From S2P Require Import SabFile.

Local Open Scope Z_scope.

(** ** Inodes *)

Definition ino_words (s : fs) (ino k : Z) (n : nat) : list Z :=
  map (fun i => rd s (LIno ino (k + Z.of_nat i))) (seq 0 n).

Definition file_size (s : fs) (ino : Z) : Z := rd s (LIno ino 4) + rd s (LIno ino 5) * 0x100000000.

Definition inode_at (s : fs) (ino : Z) : inode :=
  {| mode := rd s (LIno ino 0); nlink := rd s (LIno ino 1); uid := rd s (LIno ino 2); gid := rd s (LIno ino 3);
     isize := file_size s ino; atime := rd s (LIno ino 6);
     mtime := rd s (LIno ino 7); ctime := rd s (LIno ino 8); iblocks := rd s (LIno ino 9);
     direct := ino_words s ino 10 8; indirect := rd s (LIno ino 18); doubleIndirect := rd s (LIno ino 19);
     iflags := rd s (LIno ino 20) |}.

Section Rw.
Context `{B : Browser} (N : Z).

Lemma getWords_ok n s ino k off :
  geometry N s -> 0 <= ino < N -> 0 <= k -> k + Z.of_nat n <= 32 -> off = inodeOffset s ino + 4 * k ->
  getWords n off s = Some (ino_words s ino k n, s).
Proof using.
  intros G Hino. revert k off. induction n as [|n IH]; intros k off Hk Hn ->; [done|]. cbn [getWords].
  rewrite (bind_ok _ _ _ _ _ (get_at N s _ (LIno ino k) G ltac:(cbn; lia) eq_refl)).
  erewrite bind_ok by (apply (IH (k + 1)); lia). unfold ino_words, ret. cbn [seq map].
  rewrite Z.add_0_r, <- seq_shift, map_map. do 3 f_equal. apply map_ext. intros i. do 2 f_equal. lia.
Qed.

Lemma readInode_ok s ino : geometry N s -> 0 <= ino < N -> readInode ino s = Some (inode_at s ino, s).
Proof using.
  intros G Hino. unfold readInode. rewrite bind_get.
  assert (Hg : forall k, 0 <= k < 32 -> getUint32 (inodeOffset s ino + 4 * k) s = Some (rd s (LIno ino k), s)).
  { intros k Hk. by apply (get_at N s _ (LIno ino k)). }
  rewrite (bind_ok _ _ _ _ _ (Hg 0 ltac:(lia))), (bind_ok _ _ _ _ _ (Hg 1 ltac:(lia))),
    (bind_ok _ _ _ _ _ (Hg 2 ltac:(lia))), (bind_ok _ _ _ _ _ (Hg 3 ltac:(lia))),
    (bind_ok _ _ _ _ _ (Hg 4 ltac:(lia))), (bind_ok _ _ _ _ _ (Hg 5 ltac:(lia))),
    (bind_ok _ _ _ _ _ (Hg 6 ltac:(lia))), (bind_ok _ _ _ _ _ (Hg 7 ltac:(lia))),
    (bind_ok _ _ _ _ _ (Hg 8 ltac:(lia))), (bind_ok _ _ _ _ _ (Hg 9 ltac:(lia))).
  erewrite bind_ok by (apply (getWords_ok 8 s ino 10); [done | done | lia | lia | reflexivity]).
  by rewrite (bind_ok _ _ _ _ _ (Hg 18 ltac:(lia))), (bind_ok _ _ _ _ _ (Hg 19 ltac:(lia))),
    (bind_ok _ _ _ _ _ (Hg 20 ltac:(lia))).
Qed.

Lemma ino_words_lookup s ino k n i :
  0 <= i < Z.of_nat n -> ino_words s ino k n !! Z.to_nat i = Some (rd s (LIno ino (k + i))).
Proof using.
  intros Hi. unfold ino_words. rewrite list_lookup_fmap, lookup_seq_lt by lia. cbn. do 3 f_equal. lia.
Qed.

Lemma getBlockNum_ok ow fl s ino fb :
  inv N ow fl s -> 0 <= ino < N -> 0 <= fb < MAX_FILE_BLOCKS ->
  getBlockNum (inode_at s ino) fb s = Some (or_hole (map_block s ino fb), s).
Proof using.
  intros Hi Hino Hfb. pose proof (inv_geo _ _ _ _ Hi) as G.
  unfold getBlockNum, DIRECT_BLOCKS, PTRS_PER_BLOCK, map_block. destruct (Z.ltb_spec fb 8) as [H8 | H8].
  { cbn [direct inode_at]. rewrite ino_words_lookup by lia. by rewrite (proj2 (Z.leb_le 0 fb)) by lia. }
  rewrite bind_get. cbn [indirect doubleIndirect inode_at]. cbn zeta.
  destruct (Z.ltb_spec fb 1032) as [Hs | Hs].
  { rewrite (proj2 (Z.ltb_lt (fb - 8) 1024)) by lia. destruct (Z.eqb_spec (rd s (LIno ino 18)) 0) as [|Hp]; [done|].
    apply (points_nonzero N ow fl s Hi _ (Ind ino)) in Hp as [Hr _]; [|cbn; lia|done].
    by erewrite bind_ok by (eapply (get_at N s _ (LBlk (rd s (LIno ino 18)) (fb - 8))); [done | cbn; lia | cbn; lia]). }
  rewrite (proj2 (Z.ltb_ge (fb - 8) 1024)) by lia. replace (fb - 8 - 1024) with (fb - 1032) by lia.
  destruct (double_index fb ltac:(lia)) as (Hj & Hk & _).
  destruct (Z.eqb_spec (rd s (LIno ino 19)) 0) as [|Hd]; [done|].
  apply (points_nonzero N ow fl s Hi _ (DInd ino)) in Hd as [Hr Ho]; [|cbn; lia|done].
  erewrite bind_ok by (eapply (get_at N s _ (LBlk (rd s (LIno ino 19)) ((fb - 1032) / 1024)));
    [done | cbn; lia | cbn; lia]).
  destruct (Z.eqb_spec (rd s (LBlk (rd s (LIno ino 19)) ((fb - 1032) / 1024))) 0) as [|Hp]; [done|].
  apply (points_nonzero N ow fl s Hi _ (L1 ino ((fb - 1032) / 1024))) in Hp as [Hr' _];
    [|cbn; lia|apply points_blk; [lia | by rewrite Ho]].
  by erewrite bind_ok by (eapply (get_at N s _ (LBlk _ _)); [done | | cbn; rewrite Z.mul_comm; reflexivity]; cbn; lia).
Qed.

(** ** read *)

Definition fbytes (s : fs) (ino p : Z) (n : nat) : list Z := map (fun i => fbyte s ino (p + Z.of_nat i)) (seq 0 n).

Lemma fbytes_cons s ino p n : fbytes s ino p (S n) = fbyte s ino p :: fbytes s ino (p + 1) n.
Proof using.
  unfold fbytes. cbn [seq map]. rewrite Z.add_0_r, <- seq_shift, map_map. f_equal. apply map_ext. intros i. f_equal. lia.
Qed.

Lemma fbytes_app s ino p n m : fbytes s ino p (n + m) = fbytes s ino p n ++ fbytes s ino (p + Z.of_nat n) m.
Proof using.
  revert p. induction n as [|n IH]; intros p; [cbn; by rewrite Z.add_0_r|].
  cbn [Nat.add]. rewrite !fbytes_cons, IH. cbn [app]. do 3 f_equal. lia.
Qed.

Lemma length_fbytes s ino p n : length (fbytes s ino p n) = n.
Proof using. unfold fbytes. by rewrite length_map, length_seq. Qed.

(** The bytes between two positions of one block. *)
Lemma fbytes_block s ino p c :
  0 <= c -> p mod 4096 + c <= 4096 ->
  fbytes s ino p (Z.to_nat c) =
  let b := map_block s ino (p / 4096) in
  if b =? 0 then replicate (Z.to_nat c) 0 else bytes_at (sab s) (blockOffset s b + p mod 4096) (Z.to_nat c).
Proof using.
  intros Hc Hp. unfold fbytes, bytes_at. cbn zeta. pose proof (Z.div_mod p 4096 ltac:(lia)).
  pose proof (Z.mod_pos_bound p 4096 ltac:(lia)).
  assert (Hi : forall i, i ∈ seq 0 (Z.to_nat c) -> (p + Z.of_nat i) / 4096 = p / 4096 /\
    (p + Z.of_nat i) mod 4096 = p mod 4096 + Z.of_nat i).
  { intros i [_ Hi]%elem_of_seq. split; symmetry;
      [apply (Z.div_unique _ _ _ (p mod 4096 + Z.of_nat i)) | apply (Z.mod_unique _ _ (p / 4096))]; lia. }
  destruct (Z.eqb_spec (map_block s ino (p / 4096)) 0) as [E | E].
  - apply list_eq. intros i. rewrite list_lookup_fmap. destruct (decide (i < Z.to_nat c)%nat) as [Hlt | Hge].
    + rewrite lookup_seq_lt, lookup_replicate_2 by lia. cbn. unfold fbyte.
      destruct (Hi i) as [-> ->]; [apply elem_of_seq; lia|]. by rewrite E.
    + rewrite lookup_seq_ge by lia. symmetry. apply lookup_replicate_None. lia.
  - apply list_fmap_ext. intros j i Hj. unfold fbyte. apply lookup_seq in Hj as [-> Hj].
    destruct (Hi (0 + j)%nat) as [-> ->]; [apply elem_of_seq; lia|].
    rewrite (proj2 (Z.eqb_neq _ 0)) by done. f_equal. lia.
Qed.

(** A block of the file is inside the buffer. *)
Lemma block_in_view ow fl s ino fb :
  inv N ow fl s -> 0 <= ino < N -> 0 <= fb < MAX_FILE_BLOCKS -> map_block s ino fb <> 0 ->
  0 <= blockOffset s (map_block s ino fb) /\ blockOffset s (map_block s ino fb) + 4096 <= byteLength s.
Proof using.
  intros Hi Hino Hfb Hnz. destruct (map_block_owner N ow fl s Hi ino fb Hino Hfb) as [|[Hb _]]; [done|].
  pose proof (inv_geo _ _ _ _ Hi) as G. geo G. unfold blockOffset, BLOCK_SIZE. lia.
Qed.

(** The next chunk ends at the end of the block or of the request. *)
Lemma chunk_step pos count done chunk n :
  0 <= pos -> 0 <= done < count -> chunk = Z.min (count - done) (4096 - (pos + done) mod 4096) ->
  (pos + count - 1) / 4096 + 2 <= (pos + done) / 4096 + Z.of_nat (S n) ->
  0 < chunk /\ done + chunk <= count /\ (pos + done) mod 4096 + chunk <= 4096 /\ (1 <= n)%nat /\
  (done + chunk < count -> (pos + (done + chunk)) / 4096 = (pos + done) / 4096 + 1 /\
    (pos + count - 1) / 4096 + 2 <= (pos + (done + chunk)) / 4096 + Z.of_nat n).
Proof using.
  intros Hpos Hd -> Hn. pose proof (Z.mod_pos_bound (pos + done) 4096 ltac:(lia)) as Hm.
  pose proof (Z.div_mod (pos + done) 4096 ltac:(lia)) as Hdm.
  assert ((pos + done) / 4096 <= (pos + count - 1) / 4096) by (apply Z.div_le_mono; lia).
  split; [lia|]. split; [lia|]. split; [lia|]. split; [lia|]. intros Hlt.
  assert (E : (pos + (done + Z.min (count - done) (4096 - (pos + done) mod 4096))) / 4096 = (pos + done) / 4096 + 1).
  { symmetry. apply (Z.div_unique _ _ _ 0); lia. }
  rewrite E. split; [done | lia].
Qed.

Lemma loops_enough pos count : 0 <= pos -> 0 < count -> (pos + count - 1) / 4096 + 2 <= (pos + 0) / 4096 + Z.of_nat (loops count).
Proof using.
  intros Hp Hc. unfold loops, BLOCK_SIZE. rewrite Nat2Z.inj_add, Z2Nat.id by (apply Z.div_pos; lia).
  rewrite Z.add_0_r. pose proof (Z.div_mod pos 4096 ltac:(lia)). pose proof (Z.mod_pos_bound pos 4096 ltac:(lia)).
  pose proof (Z.div_mod count 4096 ltac:(lia)). pose proof (Z.mod_pos_bound count 4096 ltac:(lia)).
  assert ((pos + count - 1) / 4096 < pos / 4096 + count / 4096 + 2); [|lia]. apply Z.div_lt_upper_bound; lia.
Qed.

Lemma read_loop_ok ow fl s ino pos toRead n size done :
  inv N ow fl s -> toRead <= size -> 0 <= ino < N -> 0 <= pos -> pos + toRead <= MAX_FILE_BLOCKS * 4096 -> 0 <= done <= toRead ->
  (1 <= n)%nat -> (done < toRead -> (pos + toRead - 1) / 4096 + 2 <= (pos + done) / 4096 + Z.of_nat n) ->
  read_loop n size (inode_at s ino) pos toRead done s =
  Some (fbytes s ino (pos + done) (Z.to_nat (toRead - done)), s).
Proof using.
  intros Hi Hsize Hino Hpos Hmax. revert done. induction n as [|n IH]; intros d Hd Hn Hfuel; [lia|]. cbn [read_loop].
  destruct (Z.ltb_spec d toRead) as [Hlt | Hge].
  2:{ replace (Z.to_nat (toRead - d)) with 0%nat by lia. done. }
  unfold BLOCK_SIZE. set (c := Z.min (toRead - d) (4096 - (pos + d) mod 4096)).
  destruct (chunk_step pos toRead d c n) as (Hc0 & Hc1 & Hc2 & Hn1 & Hnext); [done | lia | done | by apply Hfuel|].
  assert (Hfb : 0 <= (pos + d) / 4096 < MAX_FILE_BLOCKS).
  { split; [apply Z.div_pos; lia | apply Z.div_lt_upper_bound; lia]. }
  rewrite (bind_ok _ _ _ _ _ (getBlockNum_ok ow fl s ino _ Hi Hino Hfb)), bind_get.
  pose proof (fbytes_block s ino (pos + d) c ltac:(lia) Hc2) as Hblk. cbn zeta in Hblk.
  erewrite (bind_ok _ _ s (fbytes s ino (pos + d) (Z.to_nat c)) s).
  - erewrite bind_ok by (apply IH; [lia | done | intros; by apply Hnext]).
    unfold ret. do 2 f_equal. replace (Z.to_nat (toRead - d)) with (Z.to_nat c + Z.to_nat (toRead - (d + c)))%nat by lia.
    rewrite fbytes_app. do 2 f_equal; lia.
  - rewrite Hblk. unfold or_hole. destruct (Z.eqb_spec (map_block s ino ((pos + d) / 4096)) 0) as [E | E].
    + done.
    + destruct (block_in_view ow fl s ino _ Hi Hino Hfb E).
      assert (Hr : ptr_ok ow s (Data ino ((pos + d) / 4096)) (map_block s ino ((pos + d) / 4096))) by (by eapply map_block_owner).
      rewrite (proj2 (Z.eqb_neq _ (-1))) by (destruct Hr; lia).
      erewrite (bind_ok _ _ s (bytes_at (sab s) _ (Z.to_nat c))) by (unfold u8_slice; do 3 f_equal; lia).
      unfold bytes_at at 1. rewrite length_map, length_seq, Z2Nat.id, Z.gtb_ltb, (proj2 (Z.ltb_ge _ _)) by lia. done.
Qed.

(** ** write *)

Definition meta_kept (s s' : fs) : Prop :=
  same_rest s s' /\ (forall l, is_meta l -> valid N s l -> rd s' l = rd s l) /\
  forall ino fb, 0 <= ino < N -> 0 <= fb < MAX_FILE_BLOCKS -> map_block s ino fb <> 0 ->
    map_block s' ino fb = map_block s ino fb.

Lemma meta_kept_trans s1 s2 s3 : meta_kept s1 s2 -> meta_kept s2 s3 -> meta_kept s1 s3.
Proof using.
  intros (R1 & M1 & P1) (R2 & M2 & P2). split; [by eapply same_rest_trans|]. split.
  - intros l Hm V. rewrite M2, M1; [done.. |]. by apply (same_rest_valid N s1 s2).
  - intros ino fb Hino Hfb Hnz. rewrite P2, P1; [done.. |]. by rewrite P1.
Qed.

Lemma keeps_meta_kept s s' : keeps N s s' -> meta_kept s s'.
Proof using. intros []. by repeat split. Qed.

Lemma nth_slice l a c i : 0 <= a -> 0 <= i < c -> nth (Z.to_nat i) (slice l a (a + c)) 0 = nth (Z.to_nat (a + i)) l 0.
Proof using.
  intros Ha Hi. unfold slice. rewrite !nth_lookup, lookup_take, lookup_drop by lia.
  rewrite decide_True by lia. do 2 f_equal. lia.
Qed.

Lemma length_slice l a c : 0 <= a -> 0 <= c -> a + c <= Z.of_nat (length l) -> length (slice l a (a + c)) = Z.to_nat c.
Proof using. intros. unfold slice. rewrite length_take, length_drop. lia. Qed.

Lemma meta_addr s l : geometry N s -> is_meta l -> valid N s l -> addr s l + 4 <= dataBlocksOffset s.
Proof using.
  intros G Hm V. geo G. destruct l; cbn in *; [| |done]; unfold inodeOffset, INODE_SIZE; lia.
Qed.

(** One chunk, in a block that the file has. *)
Lemma write_chunk ow fl s ino fb lo l :
  inv N ow fl s -> 0 <= ino < N -> 0 <= fb < MAX_FILE_BLOCKS -> map_block s ino fb <> 0 ->
  0 <= lo -> lo + Z.of_nat (length l) <= 4096 ->
  exists s',
    u8_set l (blockOffset s (map_block s ino fb) + lo) s = Some (tt, s') /\ inv N ow fl s' /\ meta_kept s s' /\
    (forall i b, 0 <= i < N -> 0 <= b < MAX_FILE_BLOCKS -> map_block s' i b = map_block s i b) /\
    forall ino' p, 0 <= ino' < N -> file_pos p ->
      fbyte s' ino' p =
      if decide (ino' = ino /\ fb * 4096 + lo <= p < fb * 4096 + lo + Z.of_nat (length l))
      then nth (Z.to_nat (p - (fb * 4096 + lo))) l 0 else fbyte s ino' p.
Proof using.
  intros Hi Hino Hfb Hnz Hlo Hlen. destruct (block_in_view ow fl s ino fb Hi Hino Hfb Hnz) as [Hb0 Hb1].
  set (b := map_block s ino fb) in *. unfold u8_set, in_view.
  rewrite (proj2 (Z.leb_le _ _)), (proj2 (Z.leb_le _ _)) by lia. cbn [andb]. eexists. split; [done|].
  assert (Hout : forall a, ~ (blockOffset s b + lo <= a < blockOffset s b + (lo + Z.of_nat (length l))) ->
    write_bytes (sab s) (blockOffset s b + lo) l a = sab s a).
  { intros a Ha. unfold write_bytes. destruct (Z.leb_spec (blockOffset s b + lo) a); [|done].
    destruct (Z.ltb_spec a (blockOffset s b + lo + Z.of_nat (length l))); [lia | done]. }
  destruct (data_write N ow fl s Hi ino fb lo (lo + Z.of_nat (length l)) _ Hino Hfb Hnz Hlo Hlen Hout) as (Hi' & Hmap & Hf).
  split; [done|]. split; [|split; [done|]].
  - split; [apply same_rest_sab|]. split; [|by auto]. intros lc Hm V. apply rd_agree; [apply same_rest_sab|]. intros a Ha. apply Hout.
    pose proof (meta_addr s lc (inv_geo _ _ _ _ Hi) Hm V).
    destruct (map_block_owner N ow fl s Hi ino fb Hino Hfb) as [|[Hb _]]; [done|]. fold b in Hb.
    unfold blockOffset, BLOCK_SIZE. lia.
  - intros ino' p Hino' Hp. rewrite Hf by done. rewrite Z.add_assoc. case_decide as Hd; [|done].
    fold b. unfold write_bytes. rewrite (proj2 (Z.leb_le _ _)), (proj2 (Z.ltb_lt _ _)) by lia. cbn [andb].
    do 2 f_equal. lia.
Qed.

Definition wrote (s s' : fs) (ino pos lo hi : Z) (buffer : list Z) : Prop :=
  forall ino' p, 0 <= ino' < N -> file_pos p ->
    fbyte s' ino' p =
    if decide (ino' = ino /\ pos + lo <= p < pos + hi) then nth (Z.to_nat (p - pos)) buffer 0 else fbyte s ino' p.

Lemma wrote_trans s1 s2 s3 ino pos lo mid hi buffer :
  lo <= mid <= hi -> wrote s1 s2 ino pos lo mid buffer -> wrote s2 s3 ino pos mid hi buffer ->
  wrote s1 s3 ino pos lo hi buffer.
Proof using.
  intros Hm W1 W2 ino' p Hino Hp. rewrite W2, W1 by done.
  repeat case_decide; try done; exfalso; lia.
Qed.

(** Blocks that bytes [d] to [count] of a request at [pos] touch. *)
Definition span (pos count d : Z) : Z := (pos + count - 1) / 4096 - (pos + d) / 4096 + 1.

(** The block of the file, allocated if need be. *)
Lemma file_block_ok ow fl s ino fb :
  inv N ow fl s -> 0 <= ino < N -> 0 <= fb < MAX_FILE_BLOCKS ->
  exists r s1 ow1 fl1,
    (if or_hole (map_block s ino fb) =? -1 then allocBlockForFile ino fb else ret (or_hole (map_block s ino fb))) s
      = Some (r, s1) /\ inv N ow1 fl1 s1 /\ keeps N s s1 /\ (length fl <= 3 + length fl1)%nat /\
    ((r = -1 /\ (length fl < 3)%nat) \/ (r = map_block s1 ino fb /\ map_block s1 ino fb <> 0 /\ map_block s1 ino fb <> -1)).
Proof using.
  intros Hi Hino Hfb. pose proof (map_block_owner N ow fl s Hi ino fb Hino Hfb) as Hp. unfold or_hole.
  destruct (Z.eqb_spec (map_block s ino fb) 0) as [E | E].
  - rewrite Z.eqb_refl. destruct (allocBlockForFile_ok N ow fl s ino fb Hi Hino Hfb E)
      as (r & s1 & ow1 & fl1 & E1 & Hi1 & K1 & _ & Hl & Hr).
    exists r, s1, ow1, fl1. split; [done|]. split; [done|]. split; [done|]. split; [done|].
    destruct Hr as [|[-> Hnz]]; [by left | right]. split; [done|]. split; [done|].
    destruct (map_block_owner N ow1 fl1 s1 Hi1 ino fb Hino Hfb); lia.
  - rewrite (proj2 (Z.eqb_neq _ (-1))) by (destruct Hp; lia). exists (map_block s ino fb), s, ow, fl.
    split; [done|]. split; [done|]. split; [apply keeps_refl|]. split; [lia|]. right. destruct Hp; lia.
Qed.

Lemma write_loop_ok ow fl s ino pos count n d buffer :
  inv N ow fl s -> 0 <= ino < N -> 0 <= pos -> pos + count <= MAX_FILE_BLOCKS * 4096 ->
  count <= Z.of_nat (length buffer) -> 0 <= d <= count ->
  (1 <= n)%nat -> (d < count -> (pos + count - 1) / 4096 + 2 <= (pos + d) / 4096 + Z.of_nat n) ->
  exists w s' ow' fl',
    write_loop n ino pos count d buffer s = Some (w, s') /\ inv N ow' fl' s' /\ meta_kept s s' /\
    d <= w <= count /\
    ((w = count \/ Z.of_nat (length fl) < 3 * span pos count d) /\
     Z.of_nat (length fl) <= (if d <? count then 3 * span pos count d else 0) + Z.of_nat (length fl')) /\
    wrote s s' ino pos d w buffer.
Proof using.
  intros Hi Hino Hpos Hmax Hbuf. revert ow fl s d Hi. induction n as [|n IH]; intros ow fl s d Hi Hd Hn Hfuel; [lia|].
  cbn [write_loop]. destruct (Z.ltb_spec d count) as [Hlt | Hge].
  2:{ exists d, s, ow, fl. split; [done|]. split; [done|]. split; [by apply keeps_meta_kept, keeps_refl|].
      split; [lia|]. split; [split; [left|]; lia|]. intros ino' p _ _. rewrite decide_False by lia. done. }
  unfold BLOCK_SIZE. set (c := Z.min (count - d) (4096 - (pos + d) mod 4096)).
  destruct (chunk_step pos count d c n) as (Hc0 & Hc1 & Hc2 & Hn1 & Hnext); [done | lia | done | by apply Hfuel|].
  assert (Hfb : 0 <= (pos + d) / 4096 < MAX_FILE_BLOCKS).
  { split; [apply Z.div_pos; lia | apply Z.div_lt_upper_bound; lia]. }
  set (fb := (pos + d) / 4096) in *. pose proof (inv_geo _ _ _ _ Hi) as G.
  rewrite (bind_ok _ _ _ _ _ (readInode_ok s ino G Hino)).
  rewrite (bind_ok _ _ _ _ _ (getBlockNum_ok ow fl s ino fb Hi Hino Hfb)).
  destruct (file_block_ok ow fl s ino fb Hi Hino Hfb) as (r & s1 & ow1 & fl1 & E1 & Hi1 & K1 & Hlen & Hr).
  rewrite (bind_ok _ _ _ _ _ E1). apply keeps_meta_kept in K1 as M1. destruct Hr as [[-> Hfew] | (-> & Hnz & Hm1)].
  { rewrite Z.eqb_refl. exists d, s1, ow1, fl1. split; [done|]. split; [done|]. split; [done|]. split; [lia|].
    assert (fb <= (pos + count - 1) / 4096) by (apply Z.div_le_mono; lia).
    split; [unfold span; fold fb; split; [right|]; lia|].
    intros ino' p Hino' Hp. rewrite decide_False by lia. by apply K1. }
  rewrite (proj2 (Z.eqb_neq _ (-1))), bind_get by done.
  assert (Hls : length (slice buffer d (d + c)) = Z.to_nat c) by (apply length_slice; lia).
  destruct (write_chunk ow1 fl1 s1 ino fb ((pos + d) mod 4096) (slice buffer d (d + c)))
    as (s2 & E2 & Hi2 & M2 & _ & Hf2); [done | done | done | done | apply Z.mod_pos_bound; lia | rewrite Hls; lia |].
  rewrite (bind_ok _ _ _ _ _ E2).
  destruct (IH ow1 fl1 s2 (d + c) Hi2) as (w & s' & ow' & fl' & E3 & Hi3 & M3 & Hw & [Hcnt Hused] & Hf3);
    [lia | done | intros; by apply Hnext |].
  exists w, s', ow', fl'. split; [done|]. split; [done|]. split; [by do 2 (eapply meta_kept_trans; [done|])|].
  split; [lia|]. split.
  { assert (fb <= (pos + count - 1) / 4096) by (apply Z.div_le_mono; lia). unfold span in *. fold fb.
    destruct (Z.ltb_spec (d + c) count) as [Hlt' | Hge']; [|split; [left|]; lia].
    destruct (Hnext Hlt') as [E _]. rewrite E in Hcnt, Hused. split; [destruct Hcnt; [by left | right]|]; lia. }
  eapply (wrote_trans _ s2); [|clear Hf3 | exact Hf3]; [lia|]. intros ino' p Hino' Hp. rewrite Hf2 by done.
  pose proof (Z.div_mod (pos + d) 4096 ltac:(lia)) as Hdm. fold fb in Hdm.
  rewrite (keeps_bytes _ _ _ K1) by done. rewrite Hls.
  replace (fb * 4096 + (pos + d) mod 4096) with (pos + d) by lia.
  repeat case_decide; [|exfalso; lia|exfalso; lia|done].
  replace (p - (pos + d)) with (p - pos - d) by lia. rewrite nth_slice by lia. do 2 f_equal. lia.
Qed.

End Rw.
