(* ===== verification/SabMeta.v ===== *)
(** * SABFS: writing inodes

    writeInode as a list of words, what it does to the invariant and to the
    contents, and a fresh inode. *)

From Stdlib Require Import ZArith Lia Bool.
From stdpp Require Import base numbers functions list option gmap.
From S2P Require Import Prelude.
From S2P Require Import Bytes.
From S2P Require Import SabFs.
From S2P Require Import SabInv.
From S2P Require Import SabTree.
From S2P Require Import SabFile.
From S2P Require Import SabRw.

Local Open Scope Z_scope.

(** ** The words of a property *)

Fixpoint words_from (n : nat) (k : Z) (l : list Z) : list (Z * Z) :=
  match n with O => [] | S n => (k, hd 0 l) :: words_from n (k + 1) (tl l) end.

Definition prop_words (p : prop) : list (Z * Z) :=
  match p with
  | Mode v => [(0, v)]
  | Nlink v => [(1, v)]
  | Uid v => [(2, v)]
  | Gid v => [(3, v)]
  | Size v => [(4, Z.land v 0xffffffff); (5, v / 0x100000000)]
  | Atime v => [(6, v)]
  | Mtime v => [(7, v)]
  | Ctime v => [(8, v)]
  | Blocks v => [(9, v)]
  | Direct l => words_from 8 10 l
  | Indirect v => [(18, v)]
  | DoubleIndirect v => [(19, v)]
  | Flags v => [(20, v)]
  end.

Definition put_words (s : fs) (ino : Z) (ws : list (Z * Z)) : fs :=
  foldl (fun s kv => wrt s (LIno ino kv.1) kv.2) s ws.

Definition props_words (l : list prop) : list (Z * Z) := flat_map prop_words l.

Lemma put_words_app s ino l1 l2 : put_words s ino (l1 ++ l2) = put_words (put_words s ino l1) ino l2.
Proof. apply foldl_app. Qed.

Lemma same_rest_put s ino ws : same_rest s (put_words s ino ws).
Proof.
  revert s. induction ws as [|kv ws IH]; intros s; cbn; [auto with sab|].
  eapply same_rest_trans; [apply same_rest_wrt | apply IH].
Qed.

(** The last word written at an index. *)
Definition last_word (ws : list (Z * Z)) (k : Z) : option Z :=
  foldl (fun acc kv => if kv.1 =? k then Some kv.2 else acc) None ws.

Lemma last_word_acc ws k acc :
  foldl (fun acc kv => if kv.1 =? k then Some kv.2 else acc) acc ws =
  match last_word ws k with Some v => Some v | None => acc end.
Proof.
  unfold last_word. revert acc. induction ws as [|kv ws IH]; intros acc; [done|]. cbn.
  destruct (kv.1 =? k); [|by rewrite IH]. rewrite (IH (Some kv.2)). by destruct (foldl _ None ws).
Qed.

Lemma last_word_cons kv ws k :
  last_word (kv :: ws) k = match last_word ws k with Some v => Some v | None => if kv.1 =? k then Some kv.2 else None end.
Proof. exact (last_word_acc ws k _). Qed.

Section Meta.
Context `{B : Browser} (N : Z).

Definition words_ok (ws : list (Z * Z)) : Prop := Forall (fun kv => 0 <= kv.1 < 32) ws.

Lemma rd_put s ino ws l :
  geometry N s -> 0 <= ino < N -> words_ok ws -> valid N s l ->
  rd (put_words s ino ws) l =
  match l with
  | LIno i k => if i =? ino then match last_word ws k with Some v => uint 32 v | None => rd s l end else rd s l
  | _ => rd s l
  end.
Proof using.
  intros G Hino Hws V. revert s G V. induction Hws as [|kv ws Hk Hws IH]; intros s G V.
  { cbn. destruct l; [done| |done]. by destruct (_ =? _). }
  cbn [put_words foldl]. fold (put_words (wrt s (LIno ino kv.1) kv.2) ino ws).
  assert (V1 : valid N s (LIno ino kv.1)) by (cbn; lia).
  rewrite IH; [|by apply geometry_sab | done]. rewrite (rd_wrt N) by done.
  destruct l as [k | i k | b k]; [by rewrite decide_False | | by rewrite decide_False].
  rewrite last_word_cons. destruct (Z.eqb_spec i ino) as [-> | Hne].
  - destruct (last_word ws k); [done|]. destruct (Z.eqb_spec kv.1 k) as [<- | Hk'].
    + by rewrite decide_True.
    + rewrite decide_False; [done | congruence].
  - rewrite decide_False; [done | congruence].
Qed.

Lemma write_words_ok s ino k v :
  geometry N s -> 0 <= ino < N -> 0 <= k < 32 ->
  setUint32 (inodeOffset s ino + 4 * k) v s = Some (tt, put_words s ino [(k, v)]).
Proof using. intros G Hino Hk. by apply (set_at N s _ (LIno ino k)). Qed.

Lemma write_prop_ok s ino p :
  geometry N s -> 0 <= ino < N -> write_prop (inodeOffset s ino) p s = Some (tt, put_words s ino (prop_words p)).
Proof using.
  intros G Hino.
  assert (Hw : forall s' k v, same_rest s s' -> 0 <= k < 32 ->
    setUint32 (inodeOffset s ino + 4 * k) v s' = Some (tt, wrt s' (LIno ino k) v)).
  { intros s' k v R Hk. apply (set_at N s' _ (LIno ino k)); [by eapply same_rest_geo | cbn; lia|].
    by rewrite (same_rest_addr s s'). }
  destruct p; cbn [write_prop prop_words];
    try match goal with |- _ = Some (_, put_words _ _ [(?k, _)]) => apply (write_words_ok s ino k v G Hino); lia end.
  - erewrite bind_ok by (apply (Hw s 4); [apply same_rest_refl | lia]). apply (Hw _ 5); [auto with sab | lia].
  - assert (Hd : forall n k l s', same_rest s s' -> 0 <= k -> k + Z.of_nat n <= 32 ->
      forall off, off = inodeOffset s ino + 4 * k -> setWords l n off s' = Some (tt, put_words s' ino (words_from n k l))).
    { induction n as [|n IH]; intros k l' s' R Hk Hn off ->; [done|]. cbn [setWords words_from put_words foldl].
      rewrite (bind_ok _ _ _ _ _ (Hw s' k _ R ltac:(lia))).
      apply IH; [eapply same_rest_trans; [exact R | apply same_rest_wrt] | lia..]. }
    apply Hd; [apply same_rest_refl | lia | lia | done].
Qed.

Lemma writeInode_ok s ino l :
  geometry N s -> 0 <= ino < N -> writeInode ino l s = Some (tt, put_words s ino (props_words l)).
Proof using.
  intros G Hino. unfold writeInode. rewrite bind_get.
  assert (Hl : forall s', same_rest s s' -> write_props (inodeOffset s ino) l s' = Some (tt, put_words s' ino (props_words l))).
  { induction l as [|p l IH]; intros s' R; [done|]. cbn [write_props props_words flat_map]. rewrite put_words_app.
    replace (inodeOffset s ino) with (inodeOffset s' ino) by (by rewrite R).
    rewrite (bind_ok _ _ _ _ _ (write_prop_ok s' ino p ltac:(by eapply same_rest_geo) Hino)).
    replace (inodeOffset s' ino) with (inodeOffset s ino) by (by rewrite R).
    apply IH. eapply same_rest_trans; [exact R | apply same_rest_put]. }
  apply Hl, same_rest_refl.
Qed.

(** ** The invariant *)

(** The word is no pointer, or the pointer is removed. *)
Definition harmless (ino : Z) (kv : Z * Z) : Prop := 0 <= kv.1 < 32 /\ (ino_child ino kv.1 = None \/ kv.2 = 0).

Lemma wrt_zero ow fl s ino k :
  inv N ow fl s -> 0 <= ino < N -> 0 <= k < 32 ->
  let s' := wrt s (LIno ino k) 0 in
  inv N ow fl s' /\ forall i p, 0 <= i < N -> i <> ino -> file_pos p -> fbyte s' i p = fbyte s i p.
Proof using.
  intros Hi Hino Hk s'. destruct (ino_child ino k) as [o|] eqn:Ec.
  2:{ destruct (wrt_meta N ow fl s Hi ino k 0 Hino Hk Ec) as [? Hf]. split; [done|]. intros. by apply Hf. }
  pose proof Hi as [G Hn Hch Hnd Hfr Hptr]. assert (V : valid N s (LIno ino k)) by done.
  assert (Hrd : forall l, valid N s l -> l <> LIno ino k -> rd s' l = rd s l).
  { intros l Vl Hne. unfold s'. rewrite (rd_wrt N) by done. by rewrite decide_False. }
  split; [constructor|].
  - by apply geometry_sab.
  - by rewrite Hrd.
  - rewrite Hrd by done. apply (chain_ext s); [|done]. intros b Hb. destruct (Hfr b Hb). apply Hrd; [cbn; lia | done].
  - done.
  - done.
  - intros l o' Vl Hp. destruct (decide (l = LIno ino k)) as [-> | Hne].
    + left. unfold s'. by rewrite (rd_wrt N), decide_True by done.
    + rewrite Hrd by done. by apply Hptr.
  - intros i p Hii Hne Hfp. unfold fbyte.
    assert (E : map_block s' i (p / 4096) = map_block s i (p / 4096)).
    { eapply map_block_ext_ino; [exact Hi | done | by apply file_pos_block|]. intros l o' Vl Hp Ho. apply Hrd; [done|].
      intros ->. cbn in Hp. unfold ino_child in Hp. repeat case_match; simplify_eq; done. }
    rewrite E. destruct (Z.eqb_spec (map_block s i (p / 4096)) 0) as [|Hnz]; [done|].
    destruct (map_block_owner N ow fl s Hi i _ Hii (file_pos_block p Hfp)) as [|[Hb Ho]]; [done|].
    apply sab_wrt. eapply pointer_outside; [exact Hi | done | exact Ec | exact Hb | exact Ho |]. apply Z.mod_pos_bound. lia.
Qed.

Lemma put_harmless ow fl s ino ws :
  inv N ow fl s -> 0 <= ino < N -> Forall (harmless ino) ws ->
  inv N ow fl (put_words s ino ws) /\
  forall i p, 0 <= i < N -> i <> ino -> file_pos p -> fbyte (put_words s ino ws) i p = fbyte s i p.
Proof using.
  intros Hi Hino Hws. revert s Hi. induction Hws as [|[k v] ws [Hk Hc] Hws IH]; intros s Hi; [done|]. cbn in Hk, Hc.
  change (put_words s ino ((k, v) :: ws)) with (put_words (wrt s (LIno ino k) v) ino ws).
  assert (H1 : inv N ow fl (wrt s (LIno ino k) v) /\
    forall i p, 0 <= i < N -> i <> ino -> file_pos p -> fbyte (wrt s (LIno ino k) v) i p = fbyte s i p).
  { destruct Hc as [Hc | ->]; [|by apply wrt_zero].
    destruct (wrt_meta N ow fl s Hi ino k v Hino Hk Hc). eauto. }
  destruct H1 as [Hi1 Hf1]. destruct (IH _ Hi1) as [Hi2 Hf2]. split; [done|]. intros. by rewrite Hf2, Hf1.
Qed.

Definition meta_words (ino : Z) (ws : list (Z * Z)) : Prop :=
  Forall (fun kv => 0 <= kv.1 < 32 /\ ino_child ino kv.1 = None) ws.

Lemma put_meta ow fl s ino ws :
  inv N ow fl s -> 0 <= ino < N -> meta_words ino ws ->
  inv N ow fl (put_words s ino ws) /\
  forall i p, 0 <= i < N -> file_pos p -> fbyte (put_words s ino ws) i p = fbyte s i p.
Proof using.
  intros Hi Hino Hws. revert s Hi. induction Hws as [|[k v] ws [Hk Hc] Hws IH]; intros s Hi; [done|]. cbn in Hk, Hc.
  change (put_words s ino ((k, v) :: ws)) with (put_words (wrt s (LIno ino k) v) ino ws).
  destruct (wrt_meta N ow fl s Hi ino k v Hino Hk Hc) as [Hi1 Hf1].
  destruct (IH _ Hi1) as [Hi2 Hf2]. split; [done|]. intros. by rewrite Hf2, Hf1.
Qed.

(** Without pointers there are only holes. *)
Lemma fbyte_no_pointers s ino p :
  (forall k, 10 <= k < 20 -> rd s (LIno ino k) = 0) -> file_pos p -> fbyte s ino p = 0.
Proof using.
  intros Hz Hp. pose proof (file_pos_block p Hp) as Hfb. unfold fbyte, map_block.
  destruct (Z.ltb_spec (p / 4096) 8); [by rewrite Hz by lia|].
  destruct (p / 4096 <? 1032); by rewrite Hz by lia.
Qed.

(** ** A fresh inode *)

Definition fresh_inode (s : fs) (ino : Z) : fs :=
  let s1 := wrt s SbFreeInode (ino + 1) in
  set_sab s1 (fun i => if (inodeOffset s1 ino <=? i) && (i <? inodeOffset s1 ino + INODE_SIZE) then 0 else sab s1 i).

Lemma allocInode_full ow fl s : inv N ow fl s -> N <= rd s SbFreeInode -> allocInode s = Some (-1, s).
Proof using.
  intros Hi HF. pose proof Hi as [G Hn _ _ _ _]. unfold allocInode.
  rewrite (bind_ok _ _ _ _ _ (get_at N s SB_INODE_COUNT SbInodes G ltac:(done) eq_refl)), Hn. unfold allocInode_try.
  rewrite (bind_ok _ _ _ _ _ (get_at N s SB_FREE_INODE SbFreeInode G ltac:(done) eq_refl)).
  by rewrite (proj2 (Z.geb_le _ _)).
Qed.

Lemma allocInode_next ow fl s :
  inv N ow fl s -> rd s SbFreeInode < N -> allocInode s = Some (rd s SbFreeInode, fresh_inode s (rd s SbFreeInode)).
Proof using.
  intros Hi HF. pose proof Hi as [G Hn _ _ _ _]. unfold allocInode.
  rewrite (bind_ok _ _ _ _ _ (get_at N s SB_INODE_COUNT SbInodes G ltac:(done) eq_refl)), Hn. unfold allocInode_try.
  rewrite (bind_ok _ _ _ _ _ (get_at N s SB_FREE_INODE SbFreeInode G ltac:(done) eq_refl)).
  rewrite Z.geb_leb, (proj2 (Z.leb_gt _ _)) by done.
  rewrite (bind_ok _ _ _ _ _ (compareExchange_ok N s SB_FREE_INODE SbFreeInode _ G ltac:(done) eq_refl)).
  by rewrite Z.eqb_refl.
Qed.

Lemma rd_fresh s ino l :
  geometry N s -> 0 <= ino < N -> valid N s l ->
  rd (fresh_inode s ino) l =
  match l with
  | LIno i _ => if i =? ino then 0 else rd s l
  | _ => if decide (l = SbFreeInode) then uint 32 (ino + 1) else rd s l
  end.
Proof using.
  intros G Hino V. pose proof G as G'. geo G'.
  assert (Ho : (forall k, l <> LIno ino k) -> rd (fresh_inode s ino) l = rd (wrt s SbFreeInode (ino + 1)) l).
  { intros Hne. apply rd_agree; [apply same_rest_sab|]. intros a Ha. unfold fresh_inode. cbn [sab set_sab].
    change (addr (wrt _ _ _)) with (addr s) in Ha. change (inodeOffset (wrt _ _ _)) with (inodeOffset s).
    destruct (Z.leb_spec (inodeOffset s ino) a); [|done]. destruct (Z.ltb_spec a (inodeOffset s ino + INODE_SIZE)); [|done].
    exfalso. destruct l as [k | i k | b k]; cbn in *; unfold inodeOffset, blockOffset, BLOCK_SIZE, INODE_SIZE in *; [lia| |lia].
    assert (i <> ino) by (intros ->; by apply (Hne k)). lia. }
  destruct l as [k | i k | b k].
  - rewrite Ho by done. rewrite (rd_wrt N) by done. repeat case_decide; congruence.
  - destruct (Z.eqb_spec i ino) as [-> | Hne].
    + unfold rd. apply load_le_zero. intros a Ha. cbn in V. unfold fresh_inode. cbn [sab set_sab].
      change (Z.of_nat 4) with 4 in Ha. cbn in Ha. change (inodeOffset (fresh_inode s ino)) with (inodeOffset s) in Ha.
      change (inodeOffset (wrt _ _ _)) with (inodeOffset s). unfold INODE_SIZE.
      by rewrite (proj2 (Z.leb_le _ _)), (proj2 (Z.ltb_lt _ _)) by lia.
    + rewrite Ho by congruence. rewrite (rd_wrt N) by done. by rewrite decide_False.
  - rewrite Ho by done. by rewrite (rd_wrt N) by done.
Qed.

Lemma sab_fresh s ino a :
  geometry N s -> 0 <= ino < N -> dataBlocksOffset s <= a -> sab (fresh_inode s ino) a = sab s a.
Proof using.
  intros G Hino Ha. geo G. unfold fresh_inode. cbn [sab set_sab].
  change (inodeOffset (wrt _ _ _)) with (inodeOffset s). unfold inodeOffset, INODE_SIZE.
  rewrite (proj2 (Z.ltb_ge a _)), andb_false_r by lia. apply sab_wrt. cbn. lia.
Qed.

Lemma fresh_ok ow fl s ino :
  inv N ow fl s -> 0 <= ino < N ->
  let s' := fresh_inode s ino in
  inv N ow fl s' /\ same_rest s s' /\ (forall p, file_pos p -> fbyte s' ino p = 0) /\
  forall i p, 0 <= i < N -> i <> ino -> file_pos p -> fbyte s' i p = fbyte s i p.
Proof using.
  intros Hi Hino s'. pose proof Hi as [G Hn Hch Hnd Hfr Hptr].
  assert (Hrd := rd_fresh s ino).
  assert (R : same_rest s s') by (eapply same_rest_trans; [apply same_rest_wrt | apply same_rest_sab]).
  split; [constructor|].
  - by eapply same_rest_geo.
  - unfold s'. by rewrite Hrd.
  - unfold s' at 2. rewrite Hrd by done. apply (chain_ext s); [|done]. intros b Hb. destruct (Hfr b Hb).
    unfold s'. rewrite Hrd; [done | done | done | cbn; lia].
  - done.
  - done.
  - intros l o V Hp. unfold s' at 2. rewrite Hrd by done.
    destruct l as [k | i k | b k]; [done| |].
    + destruct (i =? ino); [by left | by apply Hptr].
    + rewrite decide_False by done. by apply Hptr.
  - split; [done|]. split.
    + intros p Hp. apply fbyte_no_pointers; [|done]. intros k Hk. unfold s'. rewrite Hrd; [|done|done|cbn; lia].
      by rewrite Z.eqb_refl.
    + intros i p Hii Hne Hp. unfold fbyte.
      assert (E : map_block s' i (p / 4096) = map_block s i (p / 4096)).
      { eapply map_block_ext_ino; [exact Hi | done | by apply file_pos_block|]. intros l o V Hpl Ho. unfold s'.
        rewrite Hrd by done. destruct l as [k | j k | b k]; [done| |done]. cbn in Hpl.
        destruct (Z.eqb_spec j ino) as [-> |]; [|done].
        exfalso. unfold ino_child in Hpl. repeat case_match; simplify_eq; done. }
      rewrite E. destruct (Z.eqb_spec (map_block s i (p / 4096)) 0) as [|Hnz]; [done|].
      destruct (map_block_owner N ow fl s Hi i _ Hii (file_pos_block p Hp)) as [|[Hb Ho]]; [done|].
      change (blockOffset s') with (blockOffset s). apply sab_fresh; [done | done|].
      pose proof (Z.mod_pos_bound p 4096 ltac:(lia)). unfold blockOffset, BLOCK_SIZE. lia.
Qed.

End Meta.
