(* ===== verification/SabFrame.v ===== *)
(** * SABFS: changes of one inode

    [elsewhere N s s' ino]: between the two states only the inode [ino], its
    contents and the free lists may have changed. *)

From Stdlib Require Import ZArith Lia Bool.
From stdpp Require Import base numbers functions list option gmap.
From S2P Require Import Prelude.
From S2P Require Import Bytes.
From S2P Require Import SabFs.
From S2P Require Import SabInv.
From S2P Require Import SabTree.
From S2P Require Import SabFile.
From S2P Require Import SabRw.
From S2P Require Import SabMeta.

Local Open Scope Z_scope.

(** All but the buffer and the clock. *)
Record shape (s s' : fs) : Prop := {
  sh_len : byteLength s' = byteLength s;
  sh_table : inodeTableOffset s' = inodeTableOffset s;
  sh_data : dataBlocksOffset s' = dataBlocksOffset s;
  sh_total : totalDataBlocks s' = totalDataBlocks s;
  sh_fds : fdTable s' = fdTable s;
  sh_next : nextFd s' = nextFd s;
  sh_cache : pathCache s' = pathCache s;
}.

Lemma shape_rest s s' : same_rest s s' -> shape s s'.
Proof. intros ->. done. Qed.

Lemma shape_refl s : shape s s.
Proof. done. Qed.

Lemma shape_ticks s n : shape s (set_ticks s n).
Proof. done. Qed.

Lemma shape_trans s1 s2 s3 : shape s1 s2 -> shape s2 s3 -> shape s1 s3.
Proof. intros [] []. constructor; congruence. Qed.

Lemma shape_valid N s s' l : shape s s' -> valid N s' l <-> valid N s l.
Proof. intros H. destruct l; cbn; rewrite ?(sh_total _ _ H); done. Qed.

#[global] Hint Resolve shape_rest shape_refl shape_ticks : sab.

(** A word of an inode that is neither a pointer nor the number of blocks. *)
Definition is_attr (k : Z) : Prop := 0 <= k < 9 \/ 20 <= k < 32.

Lemma attr_child ino k : is_attr k -> ino_child ino k = None.
Proof.
  intros Hk. unfold is_attr, ino_child in *. destruct (Z.leb_spec 10 k), (Z.ltb_spec k 18), (Z.eqb_spec k 18), (Z.eqb_spec k 19);
    cbn; (done || lia).
Qed.

Record elsewhere (N : Z) (s s' : fs) (ino : Z) : Prop := {
  el_shape : shape s s';
  el_sb : forall k, 0 <= k < 9 -> k <> 5 -> k <> 6 -> rd s' (LSb k) = rd s (LSb k);
  el_words : forall i k, 0 <= i < N -> i <> ino -> is_attr k -> rd s' (LIno i k) = rd s (LIno i k);
  el_bytes : forall i p, 0 <= i < N -> i <> ino -> file_pos p -> fbyte s' i p = fbyte s i p;
  el_map : forall i fb, 0 <= i < N -> i <> ino -> 0 <= fb < MAX_FILE_BLOCKS -> map_block s i fb <> 0 ->
    map_block s' i fb = map_block s i fb;
}.

Section Frame.
Context `{B : Browser} (N : Z).

Lemma elsewhere_trans s1 s2 s3 ino : elsewhere N s1 s2 ino -> elsewhere N s2 s3 ino -> elsewhere N s1 s3 ino.
Proof using.
  intros [S1 K1 W1 B1 M1] [S2 K2 W2 B2 M2]. split.
  - by eapply shape_trans.
  - intros. by rewrite K2, K1.
  - intros. by rewrite W2, W1.
  - intros. by rewrite B2, B1.
  - intros i fb H1 H2 H3 H4. rewrite M2, M1; [done.. |]. by rewrite M1.
Qed.

Lemma elsewhere_mem s s' ino : shape s s' -> same_mem s s' -> elsewhere N s s' ino.
Proof using.
  intros Hs Hm. split; [done|..]; intros; [by apply same_mem_rd..| by apply same_mem_byte | by apply same_mem_map].
Qed.

Lemma elsewhere_ticks s n ino : elsewhere N s (set_ticks s n) ino.
Proof using. apply elsewhere_mem; auto with sab. Qed.

Lemma elsewhere_refl s ino : elsewhere N s s ino.
Proof using. apply elsewhere_mem; auto with sab. Qed.

Lemma meta_attr i k : is_attr k -> is_meta (LIno i k).
Proof using. intros Hk. split; [by apply attr_child | unfold is_attr in Hk; lia]. Qed.

Lemma elsewhere_meta_kept s s' ino :
  meta_kept N s s' -> (forall i p, 0 <= i < N -> i <> ino -> file_pos p -> fbyte s' i p = fbyte s i p) ->
  elsewhere N s s' ino.
Proof using.
  intros (R & Hm & Hp) Hb. split.
  - auto with sab.
  - intros k Hk H5 H6. by apply Hm.
  - intros i k Hi Hne Hk. apply Hm; [by apply meta_attr | cbn; unfold is_attr in Hk; lia].
  - done.
  - intros i fb Hi _. by apply Hp.
Qed.

Lemma elsewhere_keeps s s' ino : keeps N s s' -> elsewhere N s s' ino.
Proof using. intros K. apply elsewhere_meta_kept; [by apply keeps_meta_kept|]. intros. by apply K. Qed.

(** *** Words of the inode *)

Lemma put_map ow fl s ino ws i fb :
  inv N ow fl s -> 0 <= ino < N -> Forall (harmless ino) ws -> 0 <= i < N -> i <> ino \/ meta_words ino ws ->
  0 <= fb < MAX_FILE_BLOCKS -> map_block (put_words s ino ws) i fb = map_block s i fb.
Proof using.
  intros Hi Hino Hws Hii Hor Hfb. eapply map_block_ext_ino; [exact Hi | done | done|]. intros l o V Hp Ho.
  assert (Hw : words_ok ws) by (eapply Forall_impl; [exact Hws | by intros kv []]).
  rewrite (rd_put N) by (done || apply Hi). destruct l as [k | j k | b k]; [done| |done].
  destruct (Z.eqb_spec j ino) as [-> | Hj]; [|done]. cbn in Hp.
  assert (Hino' : i = ino) by (unfold ino_child in Hp; repeat case_match; simplify_eq; done).
  destruct Hor as [|Hm]; [done|].
  assert (El : last_word ws k = None); [|by rewrite El].
  clear Hws Hw. induction Hm as [|kv ws [_ Hc] Hm IH]; [done|]. rewrite last_word_cons, IH.
  destruct (Z.eqb_spec kv.1 k) as [<- |]; [congruence | done].
Qed.

Lemma meta_harmless ino ws : meta_words ino ws -> Forall (harmless ino) ws.
Proof using. intros H. eapply Forall_impl; [exact H|]. intros kv []. split; [done | by left]. Qed.

Lemma put_elsewhere ow fl s ino ws :
  inv N ow fl s -> 0 <= ino < N -> Forall (harmless ino) ws ->
  inv N ow fl (put_words s ino ws) /\ elsewhere N s (put_words s ino ws) ino.
Proof using.
  intros Hi Hino Hws. destruct (put_harmless N ow fl s ino ws Hi Hino Hws) as [Hi' Hb]. split; [done|].
  assert (Hw : words_ok ws) by (eapply Forall_impl; [exact Hws | by intros kv []]). split.
  - apply shape_rest, same_rest_put.
  - intros k Hk _ _. by rewrite (rd_put N) by (done || apply Hi).
  - intros i k Hii Hne Hk. rewrite (rd_put N); [|apply Hi | done | done | cbn; unfold is_attr in Hk; lia].
    by rewrite (proj2 (Z.eqb_neq _ _)).
  - done.
  - intros i fb Hii Hne Hfb _. eapply put_map; eauto.
Qed.

(** *** A new inode *)

Lemma fresh_elsewhere ow fl s ino :
  inv N ow fl s -> 0 <= ino < N ->
  inv N ow fl (fresh_inode s ino) /\ elsewhere N s (fresh_inode s ino) ino.
Proof using.
  intros Hi Hino. destruct (fresh_ok N ow fl s ino Hi Hino) as (Hi' & R & _ & Hb). pose proof (inv_geo _ _ _ _ Hi) as G.
  split; [done|]. split.
  - auto with sab.
  - intros k Hk _ H6. rewrite (rd_fresh N) by done. rewrite decide_False; [done|]. intros [= ->]. done.
  - intros i k Hii Hne Hk. rewrite (rd_fresh N); [|done | done | cbn; unfold is_attr in Hk; lia].
    by rewrite (proj2 (Z.eqb_neq _ _)).
  - done.
  - intros i fb Hii Hne Hfb _. eapply map_block_ext_ino; [exact Hi | done | done|]. intros l o V Hp Ho.
    rewrite (rd_fresh N) by done. destruct l as [k | j k | b k]; [done| |done].
    destruct (Z.eqb_spec j ino) as [-> |]; [|done]. cbn in Hp. exfalso. apply Hne.
    unfold ino_child in Hp; repeat case_match; simplify_eq; done.
Qed.

End Frame.
