(* ===== verification/SabDir.v ===== *)
(** * SABFS: directories

    A directory is a file of 32-byte entries.  [ent_ino], [ent_len],
    [ent_type] and [ent_str] are the fields of entry [j] of a directory in
    terms of its contents; the searches of the code go through the entries in
    this order ([scan]). *)

From Stdlib Require Import ZArith Lia Bool.
From stdpp Require Import base numbers functions list option gmap.
From S2P Require Import Prelude.
From S2P Require Import Bytes.
From S2P Require Import SabFs.
From S2P Require Import SabApi.
From S2P Require Import SabInv.
From S2P Require Import SabTree.
From S2P Require Import SabFile.
From S2P Require Import SabRw.
From S2P Require Import SabMeta.

Local Open Scope Z_scope.

Lemma load_le_shift m a m' a' n :
  (forall i, 0 <= i < Z.of_nat n -> m (a + i) = m' (a' + i)) -> load_le m a n = load_le m' a' n.
Proof.
  revert a a'. induction n as [|n IH]; intros a a' He; [done|]. cbn [load_le].
  pose proof (He 0 ltac:(lia)) as E0. rewrite !Z.add_0_r in E0. rewrite E0, (IH (a + 1) (a' + 1)); [done|].
  intros i Hi. rewrite <- !Z.add_assoc. apply He. lia.
Qed.

(** The first [g j] with [j] among the [n] numbers from [j] on. *)
Fixpoint scan {A} (g : Z -> option A) (n : nat) (j : Z) : option A :=
  match n with
  | O => None
  | S n => match g j with Some a => Some a | None => scan g n (j + 1) end
  end.

Lemma scan_app {A} (g : Z -> option A) n m j :
  scan g (n + m) j = match scan g n j with Some a => Some a | None => scan g m (j + Z.of_nat n) end.
Proof.
  revert j. induction n as [|n IH]; intros j; [cbn; by rewrite Z.add_0_r|]. cbn [Nat.add scan].
  destruct (g j); [done|]. rewrite IH. by replace (j + 1 + Z.of_nat n) with (j + Z.of_nat (S n)) by lia.
Qed.

Lemma scan_ext {A} (g g' : Z -> option A) n j :
  (forall i, j <= i < j + Z.of_nat n -> g i = g' i) -> scan g n j = scan g' n j.
Proof.
  revert j. induction n as [|n IH]; intros j He; [done|]. cbn [scan]. rewrite He by lia.
  destruct (g' j); [done|]. apply IH. intros. apply He. lia.
Qed.

Lemma scan_Some {A} (g : Z -> option A) n j a :
  scan g n j = Some a <->
  exists i, j <= i < j + Z.of_nat n /\ g i = Some a /\ forall i', j <= i' < i -> g i' = None.
Proof.
  revert j. induction n as [|n IH]; intros j; cbn [scan].
  - split; [done|]. intros (i & Hi & _). lia.
  - destruct (g j) as [b|] eqn:E.
    + split; [intros [= ->]; exists j; split; [lia|]; split; [done|]; intros; lia|].
      intros (i & Hi & Ha & Hn). destruct (decide (i = j)) as [-> | Hne]; [congruence|].
      rewrite Hn in E by lia. done.
    + rewrite IH. split; intros (i & Hi & Ha & Hn).
      * exists i. split; [lia|]. split; [done|]. intros i' Hi'. destruct (decide (i' = j)) as [-> |]; [done|]. apply Hn. lia.
      * assert (i <> j) by congruence. exists i. split; [lia|]. split; [done|]. intros i' Hi'. apply Hn. lia.
Qed.

Lemma scan_None {A} (g : Z -> option A) n j :
  scan g n j = None <-> forall i, j <= i < j + Z.of_nat n -> g i = None.
Proof.
  revert j. induction n as [|n IH]; intros j; cbn [scan]; [split; [lia | done]|].
  destruct (g j) as [b|] eqn:E.
  - split; [done|]. intros Hn. rewrite Hn in E by lia. done.
  - rewrite IH. split; intros Hn i Hi; [|apply Hn; lia]. destruct (decide (i = j)) as [-> |]; [done|]. apply Hn. lia.
Qed.

Section Dir.
Context `{B : Browser} (N : Z).

(** ** Entries *)

Definition ent_ino (s : fs) (d j : Z) : Z := load_le (fbyte s d) (32 * j) 4.
Definition ent_len (s : fs) (d j : Z) : Z := load_le (fbyte s d) (32 * j + 4) 2.
Definition ent_type (s : fs) (d j : Z) : Z := load_le (fbyte s d) (32 * j + 6) 2.
Definition ent_str (s : fs) (d j : Z) : str := decode (fbytes s d (32 * j + 8) (Z.to_nat (ent_len s d j))).

(** Entries of a file of the greatest size. *)
Definition ent_pos (j : Z) : Prop := 0 <= j < MAX_FILE_BLOCKS * 128.

Lemma fword s d fb o n :
  0 <= fb -> 0 <= o -> o + Z.of_nat n <= 4096 -> map_block s d fb <> 0 ->
  load_le (sab s) (blockOffset s (map_block s d fb) + o) n = load_le (fbyte s d) (fb * 4096 + o) n.
Proof using.
  intros Hfb Ho Hn Hnz. apply load_le_shift. intros i Hi. unfold fbyte.
  assert (E : (fb * 4096 + o + i) / 4096 = fb /\ (fb * 4096 + o + i) mod 4096 = o + i).
  { split; symmetry; [apply (Z.div_unique _ _ _ (o + i)) | apply (Z.mod_unique _ _ fb)]; lia. }
  destruct E as [-> ->]. rewrite (proj2 (Z.eqb_neq _ 0)) by done. f_equal. lia.
Qed.

(** Entry [i] of block [fb] of directory [d]. *)
Section Entry.
Context (ow : Z -> owner) (fl : list Z) (s : fs) (d fb i : Z).
Context (Hi : inv N ow fl s) (Hd : 0 <= d < N) (Hfb : 0 <= fb < MAX_FILE_BLOCKS) (Hnz : map_block s d fb <> 0).
Context (Hent : 0 <= i < 128).

Local Abbreviation off := (blockOffset s (map_block s d fb) + i * DIRENT_SIZE).
Local Abbreviation j := (128 * fb + i).

Lemma entry_view o n : 0 <= o -> o + n <= 32 -> in_view s (off + o) n = true.
Proof using Hi Hd Hfb Hnz Hent.
  intros Ho Hn. destruct (block_in_view N ow fl s d fb Hi Hd Hfb Hnz). unfold in_view, DIRENT_SIZE.
  by rewrite (proj2 (Z.leb_le _ _)), (proj2 (Z.leb_le _ _)) by lia.
Qed.

Lemma dirent_word o n :
  0 <= o -> o + Z.of_nat n <= 32 -> load_le (sab s) (off + o) n = load_le (fbyte s d) (32 * j + o) n.
Proof using Hfb Hnz Hent.
  intros Ho Hn. unfold DIRENT_SIZE. replace (32 * j + o) with (fb * 4096 + (i * 32 + o)) by lia.
  rewrite <- fword by (done || lia). f_equal. lia.
Qed.

Lemma get_ent_ino : getUint32 off s = Some (ent_ino s d j, s).
Proof using Hi Hd Hfb Hnz Hent.
  unfold getUint32, ent_ino. rewrite <- (Z.add_0_r off), entry_view, dirent_word by (cbn; lia). by rewrite Z.add_0_r.
Qed.

Lemma get_ent_len : getUint16 (off + 4) s = Some (ent_len s d j, s).
Proof using Hi Hd Hfb Hnz Hent. unfold getUint16, ent_len. by rewrite entry_view, dirent_word by (cbn; lia). Qed.

Lemma get_ent_type : getUint16 (off + 6) s = Some (ent_type s d j, s).
Proof using Hi Hd Hfb Hnz Hent. unfold getUint16, ent_type. by rewrite entry_view, dirent_word by (cbn; lia). Qed.

Lemma slice_ent_name :
  ent_len s d j <= 24 ->
  u8_slice (off + 8) (off + 8 + ent_len s d j) s = Some (fbytes s d (32 * j + 8) (Z.to_nat (ent_len s d j)), s).
Proof using Hi Hd Hfb Hnz Hent.
  intros Hl. assert (0 <= ent_len s d j) by apply (load_le_range _ _ 2).
  destruct (block_in_view N ow fl s d fb Hi Hd Hfb Hnz). unfold u8_slice. do 2 f_equal.
  assert (E : (32 * j + 8) / 4096 = fb /\ (32 * j + 8) mod 4096 = i * 32 + 8).
  { split; symmetry; [apply (Z.div_unique _ _ _ (i * 32 + 8)) | apply (Z.mod_unique _ _ fb)]; lia. }
  rewrite fbytes_block by (rewrite ?(proj2 E); lia). destruct E as [-> ->]. cbn zeta.
  rewrite (proj2 (Z.eqb_neq _ 0)) by done. unfold DIRENT_SIZE. f_equal; lia.
Qed.

Lemma get_ent_name : ent_len s d j <= 24 -> ent_name off s = Some (ent_str s d j, s).
Proof using Hi Hd Hfb Hnz Hent.
  intros Hl. unfold ent_name. rewrite (bind_ok _ _ _ _ _ get_ent_len).
  by rewrite (bind_ok _ _ _ _ _ (slice_ent_name Hl)).
Qed.

End Entry.

(** ** Searching *)

Definition outcome {A} (s : fs) (r : option (A * fs)) : option A * fs :=
  match r with None => (None, s) | Some (a, s') => (Some a, s') end.

(** An entry of a hole is unused. *)
Lemma ent_ino_hole s d fb i : 0 <= fb -> 0 <= i < 128 -> map_block s d fb = 0 -> ent_ino s d (128 * fb + i) = 0.
Proof using.
  intros Hfb Hent E. apply load_le_zero. intros p Hp. change (Z.of_nat 4) with 4 in Hp. unfold fbyte.
  replace (p / 4096) with fb by (apply (Z.div_unique _ _ _ (p - fb * 4096)); lia). by rewrite E.
Qed.

Section Find.
Context {A : Type} (f : Z -> Z -> M (option A)) (act : Z -> option (A * fs)).
Context (ow : Z -> owner) (fl : list Z) (s : fs) (d : Z) (Hi : inv N ow fl s) (Hd : 0 <= d < N).

(** What the search does at an entry that is in use; the others are skipped. *)
Definition act_used (j : Z) : option (A * fs) := if ent_ino s d j =? 0 then None else act j.

Context (Hf : forall fb i, 0 <= fb < MAX_FILE_BLOCKS -> 0 <= i < 128 -> map_block s d fb <> 0 ->
  ent_ino s d (128 * fb + i) <> 0 ->
  f (blockOffset s (map_block s d fb) + i * DIRENT_SIZE) (ent_ino s d (128 * fb + i)) s =
  Some (outcome s (act (128 * fb + i)))).

Lemma find_entry_ok fb n i :
  0 <= fb < MAX_FILE_BLOCKS -> map_block s d fb <> 0 -> 0 <= i -> i + Z.of_nat n <= 128 ->
  find_entry f n (blockOffset s (map_block s d fb)) i s = Some (outcome s (scan act_used n (128 * fb + i))).
Proof using Hi Hd Hf.
  intros Hfb Hnz. revert i. induction n as [|n IH]; intros i Hi0 Hn; [done|]. cbn [find_entry scan].
  rewrite (bind_ok _ _ _ _ _ (get_ent_ino ow fl s d fb i Hi Hd Hfb Hnz ltac:(lia))). unfold act_used at 1.
  destruct (Z.eqb_spec (ent_ino s d (128 * fb + i)) 0) as [E | E].
  - rewrite IH by lia. by replace (128 * fb + (i + 1)) with (128 * fb + i + 1) by lia.
  - pose proof (Hf fb i Hfb ltac:(lia) Hnz E) as Ef.
    destruct (act (128 * fb + i)) as [[a s']|]; cbn [outcome] in Ef; rewrite (bind_ok _ _ _ _ _ Ef); [done|].
    rewrite IH by lia.
    by replace (128 * fb + (i + 1)) with (128 * fb + i + 1) by lia.
Qed.

Lemma find_in_blocks_ok n b :
  0 <= b -> b + Z.of_nat n <= MAX_FILE_BLOCKS ->
  find_in_blocks f (inode_at s d) n b s = Some (outcome s (scan act_used (128 * n) (128 * b))).
Proof using Hi Hd Hf.
  revert b. induction n as [|n IH]; intros b Hb Hn; [done|]. cbn [find_in_blocks].
  rewrite (bind_ok _ _ _ _ _ (getBlockNum_ok N ow fl s d b Hi Hd ltac:(lia))).
  replace (128 * S n)%nat with (128 + 128 * n)%nat by lia. rewrite scan_app.
  replace (128 * b + Z.of_nat 128) with (128 * (b + 1)) by lia. unfold or_hole.
  destruct (Z.eqb_spec (map_block s d b) 0) as [E | E].
  - rewrite Z.eqb_refl, IH by lia. rewrite (proj2 (scan_None act_used 128 (128 * b))); [done|].
    intros j Hj. unfold act_used. replace j with (128 * b + (j - 128 * b)) by lia.
    rewrite ent_ino_hole by (done || lia). done.
  - destruct (map_block_owner N ow fl s Hi d b Hd ltac:(lia)) as [|[? _]]; [done|].
    rewrite (proj2 (Z.eqb_neq _ (-1))) by lia. rewrite bind_get.
    pose proof (find_entry_ok b 128 0 ltac:(lia) E ltac:(lia) ltac:(lia)) as Ef. rewrite Z.add_0_r in Ef.
    change (Z.to_nat DIRENTS_PER_BLOCK) with 128%nat.
    destruct (scan act_used 128 (128 * b)) as [[a s']|]; cbn [outcome] in Ef; rewrite (bind_ok _ _ _ _ _ Ef); [done|].
    apply IH; lia.
Qed.

End Find.

(** ** What a directory has to be *)

(** Of the entries that are in use, the names fit and the inodes are below
    [F]; the blocks up to the size are there, and the entries after them are
    unused. *)
Record dir_ok (F : Z) (s : fs) (d : Z) : Prop := {
  dir_entries : forall j, ent_pos j -> ent_ino s d j <> 0 -> ent_ino s d j < F /\ ent_len s d j <= 24;
  dir_size : file_size s d <= MAX_FILE_BLOCKS * 4096;
  dir_mapped : forall fb, 0 <= fb < ceil_div (file_size s d) BLOCK_SIZE -> map_block s d fb <> 0;
  dir_tail : forall j, ent_pos j -> 128 * num_blocks (file_size s d) <= j -> ent_ino s d j = 0;
}.

Definition is_dir (s : fs) (ino : Z) : bool := is_type (rd s (LIno ino 0)) S_IFDIR.

(** A directory has no more blocks than the file system. *)
Lemma mapped_bound ow fl s d n :
  inv N ow fl s -> 0 <= d < N -> 0 <= n <= MAX_FILE_BLOCKS ->
  (forall fb, 0 <= fb < n -> map_block s d fb <> 0) -> n < totalDataBlocks s.
Proof using.
  intros Hi Hd Hn Hm. pose proof (inv_geo _ _ _ _ Hi) as G. geo G.
  set (l := map (map_block s d) (seqZ 0 n)). set (k := seqZ 1 (totalDataBlocks s - 1)).
  assert (Hl : length l = Z.to_nat n) by (unfold l; by rewrite length_map, length_seqZ).
  assert (Hk : length k = Z.to_nat (totalDataBlocks s - 1)) by (unfold k; by rewrite length_seqZ).
  assert (Hs : l ⊆+ k).
  { apply NoDup_submseteq.
    - unfold l. apply NoDup_fmap_2_strong; [|apply NoDup_seqZ]. intros x y Hx Hy E.
      apply elem_of_seqZ in Hx, Hy. eapply (map_block_inj N ow fl s Hi d x d y); [lia.. | done | by apply Hm; lia].
    - intros x Hx. apply list_elem_of_fmap in Hx as (fb & -> & Hfb). apply elem_of_seqZ in Hfb. unfold k.
      apply elem_of_seqZ. destruct (map_block_owner N ow fl s Hi d fb Hd ltac:(lia)) as [E|[? _]]; [|lia].
      exfalso. apply (Hm fb); [lia | done]. }
  apply submseteq_length in Hs. lia.
Qed.

(** ** lookupInDir *)

Definition slots (s : fs) (d : Z) : nat := 128 * Z.to_nat (num_blocks (file_size s d)).

Definition ent_match (s : fs) (d : Z) (name : str) (j : Z) : bool :=
  negb (ent_ino s d j =? 0) && str_eqb (ent_str s d j) name.

Definition find_name (s : fs) (d : Z) (name : str) : option Z :=
  scan (fun j => if ent_match s d name j then Some j else None) (slots s d) 0.

Lemma num_blocks_bound ow fl F s d :
  inv N ow fl s -> 0 <= d < N -> dir_ok F s d -> 1 <= num_blocks (file_size s d) < MAX_FILE_BLOCKS.
Proof using.
  intros Hi Hd [_ Hs Hm _]. unfold num_blocks, ceil_div, BLOCK_SIZE in *.
  assert (0 <= file_size s d).
  { unfold file_size. pose proof (rd_range s (LIno d 4)). pose proof (rd_range s (LIno d 5)). lia. }
  assert (Hc : 0 <= - (- file_size s d / 4096) <= MAX_FILE_BLOCKS).
  { pose proof (Z.div_mod (- file_size s d) 4096 ltac:(lia)). pose proof (Z.mod_pos_bound (- file_size s d) 4096 ltac:(lia)).
    unfold MAX_FILE_BLOCKS in *. lia. }
  pose proof (mapped_bound ow fl s d _ Hi Hd Hc Hm). pose proof (inv_geo _ _ _ _ Hi) as G. geo G.
  unfold MAX_FILE_BLOCKS. destruct (Z.eqb_spec (- (- file_size s d / 4096)) 0); lia.
Qed.

Lemma scan_pick {A} (P Q : Z -> bool) (k : Z -> A) n j :
  scan (fun j => if P j then None else if Q j then Some (k j) else None) n j =
  option_map k (scan (fun j => if negb (P j) && Q j then Some j else None) n j).
Proof using.
  revert j. induction n as [|n IH]; intros j; [done|]. cbn [scan]. destruct (P j); [done|]. by destruct (Q j).
Qed.

(** A search that stops at the first entry with the name. *)
Lemma search_ok {A} (f : Z -> Z -> M (option A)) (g : Z -> A) (h : Z -> fs) ow fl F s d name :
  inv N ow fl s -> 0 <= d < N -> dir_ok F s d ->
  (forall fb i, 0 <= fb < MAX_FILE_BLOCKS -> 0 <= i < 128 -> map_block s d fb <> 0 ->
     let j := 128 * fb + i in
     ent_ino s d j <> 0 -> ent_len s d j <= 24 ->
     f (blockOffset s (map_block s d fb) + i * DIRENT_SIZE) (ent_ino s d j) s =
     Some (if str_eqb (ent_str s d j) name then (Some (g j), h j) else (None, s))) ->
  find_in_blocks f (inode_at s d) (Z.to_nat (num_blocks (file_size s d))) 0 s =
  Some (match find_name s d name with Some j => (Some (g j), h j) | None => (None, s) end).
Proof using.
  intros Hi Hd Hdir Hf. pose proof (num_blocks_bound ow fl F s d Hi Hd Hdir) as Hnb.
  rewrite (find_in_blocks_ok f (fun j => if str_eqb (ent_str s d j) name then Some (g j, h j) else None) ow fl s d Hi Hd);
    [| |lia|lia].
  - f_equal. unfold act_used, find_name, slots, ent_match. rewrite (scan_pick (fun j => ent_ino s d j =? 0)).
    change (128 * 0) with 0. by destruct (scan _ _ 0).
  - intros fb i Hfb Hent Hnz Hu. cbn zeta. destruct (dir_entries F s d Hdir (128 * fb + i)) as [_ Hl];
      [unfold ent_pos; lia | done|].
    rewrite Hf by done. by destruct (str_eqb _ _).
Qed.

Lemma lookupInDir_ok ow fl F s d name :
  inv N ow fl s -> 0 <= d < N -> (is_dir s d = true -> dir_ok F s d) ->
  lookupInDir d name s =
  Some (if is_dir s d then match find_name s d name with Some j => ent_ino s d j | None => -1 end else -1, s).
Proof using.
  intros Hi Hd Hdir. unfold lookupInDir. rewrite (bind_ok _ _ _ _ _ (readInode_ok N s d (inv_geo _ _ _ _ Hi) Hd)).
  change (is_type (mode (inode_at s d)) S_IFDIR) with (is_dir s d). destruct (is_dir s d) eqn:E; [|done]. cbn [negb].
  specialize (Hdir eq_refl). change (isize (inode_at s d)) with (file_size s d). unfold bind at 1.
  rewrite (search_ok _ (ent_ino s d) (fun _ => s) ow fl F s d name Hi Hd Hdir); [by destruct (find_name s d name)|].
  intros fb i Hfb Hent Hnz j Hu Hl. rewrite (bind_ok _ _ _ _ _ (get_ent_name ow fl s d fb i Hi Hd Hfb Hnz Hent Hl)).
  fold j. unfold ret. by destruct (str_eqb (ent_str s d j) name).
Qed.

(** ** removeDirEntry *)

(** The contents after entry [j] of directory [d] became [g]. *)
Definition entry_set (s s' : fs) (d j : Z) (g : Z -> Z) : Prop :=
  forall ino p, 0 <= ino < N -> file_pos p ->
    fbyte s' ino p = if decide (ino = d /\ 32 * j <= p < 32 * j + 32) then g (p - 32 * j) else fbyte s ino p.

Lemma entry_write ow fl s d fb i m :
  inv N ow fl s -> 0 <= d < N -> 0 <= fb < MAX_FILE_BLOCKS -> map_block s d fb <> 0 -> 0 <= i < 128 ->
  let off := blockOffset s (map_block s d fb) + i * DIRENT_SIZE in
  (forall a, ~ (off <= a < off + 32) -> m a = sab s a) ->
  let s' := set_sab s m in
  inv N ow fl s' /\ meta_kept N s s' /\ entry_set s s' d (128 * fb + i) (fun k => m (off + k)).
Proof using.
  intros Hi Hd Hfb Hnz Hent off Hm s'. unfold DIRENT_SIZE in off.
  destruct (data_write N ow fl s Hi d fb (i * 32) (i * 32 + 32) m Hd Hfb Hnz ltac:(lia) ltac:(lia)) as (Hi' & Hmap & Hf).
  { intros a Ha. apply Hm. unfold off. lia. }
  split; [done|]. split.
  - split; [apply same_rest_sab|]. split; [|by auto]. intros lc Hme V. apply rd_agree; [apply same_rest_sab|].
    intros a Ha. apply Hm. pose proof (meta_addr N s lc (inv_geo _ _ _ _ Hi) Hme V).
    destruct (map_block_owner N ow fl s Hi d fb Hd Hfb) as [|[Hb _]]; [done|]. unfold off, blockOffset, BLOCK_SIZE. lia.
  - intros ino p Hino Hp. rewrite Hf by done. unfold off. repeat case_decide; [f_equal; lia | exfalso; lia | exfalso; lia | done].
Qed.

Definition ent_off (s : fs) (d j : Z) : Z := blockOffset s (map_block s d (j / 128)) + j mod 128 * DIRENT_SIZE.

Lemma ent_off_block s d fb i :
  0 <= i < 128 -> ent_off s d (128 * fb + i) = blockOffset s (map_block s d fb) + i * DIRENT_SIZE.
Proof using.
  intros Hent. unfold ent_off. replace ((128 * fb + i) / 128) with fb by (apply (Z.div_unique _ _ _ i); lia).
  by replace ((128 * fb + i) mod 128) with i by (apply (Z.mod_unique _ _ fb); lia).
Qed.

Definition cleared_at (s : fs) (off : Z) : fs :=
  set_sab s (fun i => if (off <=? i) && (i <? off + DIRENT_SIZE) then 0 else sab s i).

(** Entry [j] is cleared and the directory's times are set. *)
Definition removed (s : fs) (d j : Z) : fs :=
  put_words (set_ticks (cleared_at s (ent_off s d j)) (S (S (ticks s)))) d
    [(7, clock (ticks s)); (8, clock (S (ticks s)))].

Lemma removeDirEntry_ok ow fl F s d name :
  inv N ow fl s -> 0 <= d < N -> (is_dir s d = true -> dir_ok F s d) ->
  removeDirEntry d name s =
  Some (match (if is_dir s d then find_name s d name else None) with
        | Some j => (ent_ino s d j, removed s d j)
        | None => (-1, s)
        end).
Proof using.
  intros Hi Hd Hdir. unfold removeDirEntry. rewrite (bind_ok _ _ _ _ _ (readInode_ok N s d (inv_geo _ _ _ _ Hi) Hd)).
  change (is_type (mode (inode_at s d)) S_IFDIR) with (is_dir s d). destruct (is_dir s d) eqn:E; [|done]. cbn [negb].
  specialize (Hdir eq_refl). change (isize (inode_at s d)) with (file_size s d). unfold bind at 1.
  rewrite (search_ok _ (ent_ino s d) (removed s d) ow fl F s d name Hi Hd Hdir); [by destruct (find_name s d name)|].
  intros fb i Hfb Hent Hnz j Hu Hl. rewrite (bind_ok _ _ _ _ _ (get_ent_name ow fl s d fb i Hi Hd Hfb Hnz Hent Hl)).
  fold j. destruct (str_eqb (ent_str s d j) name); [|done]. rewrite <- ent_off_block by done. fold j.
  set (s1 := cleared_at s (ent_off s d j)).
  erewrite (bind_ok (u8_fill0 _ _) _ s tt s1) by done.
  erewrite (bind_ok now _ s1) by done. erewrite (bind_ok now _ (set_ticks s1 _)) by done.
  erewrite bind_ok; [done|]. apply (writeInode_ok N); [|done]. apply (same_mem_geo N s1); [done|].
  apply geometry_sab, Hi.
Qed.

End Dir.
