(* ===== verification/SabEntry.v ===== *)
(** * SABFS: entering and removing directory entries *)

From Stdlib Require Import ZArith Lia Bool.
From stdpp Require Import base numbers functions list option gmap.
From S2P Require Import Prelude.
From S2P Require Import Bytes.
From S2P Require Import SabFs.
From S2P Require Import SabApi.
From S2P Require Import SabInv.
From S2P Require Import SabTree.
From S2P Require Import SabFile.
From S2P Require Import SabRw.
From S2P Require Import SabMeta.
From S2P Require Import SabFrame.
From S2P Require Import SabDir.

Local Open Scope Z_scope.

Section Entries.
Context `{B : Browser} (N : Z).

(** Directory [d] changed in entry [j] and in its times, and has the size
    [sz]. *)
Record dir_change (s s' : fs) (d j sz : Z) : Prop := {
  dc_else : elsewhere N s s' d;
  dc_next : rd s' SbFreeInode = rd s SbFreeInode;
  dc_attr : forall k, is_attr k -> k < 4 \/ k = 6 \/ 9 <= k -> rd s' (LIno d k) = rd s (LIno d k);
  dc_size : file_size s' d = sz;
  dc_map : forall fb, 0 <= fb < MAX_FILE_BLOCKS -> map_block s d fb <> 0 -> map_block s' d fb = map_block s d fb;
  dc_bytes : forall p, file_pos p -> ~ (32 * j <= p < 32 * j + 32) -> fbyte s' d p = fbyte s d p;
}.

(** The fields of the other entries. *)
Lemma dc_other s s' d j sz j' o n :
  dir_change s s' d j sz -> ent_pos j' -> j' <> j -> 0 <= o -> o + Z.of_nat n <= 32 ->
  load_le (fbyte s' d) (32 * j' + o) n = load_le (fbyte s d) (32 * j' + o) n.
Proof using.
  intros Hc Hj Hne Ho Hn. apply load_le_ext. intros p Hp. apply (dc_bytes _ _ _ _ _ Hc); [|lia].
  unfold file_pos, ent_pos in *. lia.
Qed.

Lemma dc_ino s s' d j sz j' : dir_change s s' d j sz -> ent_pos j' -> j' <> j -> ent_ino s' d j' = ent_ino s d j'.
Proof using.
  intros Hc Hj Hne. pose proof (dc_other s s' d j sz j' 0 4 Hc Hj Hne ltac:(lia) ltac:(cbn; lia)) as E.
  by rewrite Z.add_0_r in E.
Qed.

Lemma dc_len s s' d j sz j' : dir_change s s' d j sz -> ent_pos j' -> j' <> j -> ent_len s' d j' = ent_len s d j'.
Proof using. intros Hc Hj Hne. apply (dc_other s s' d j sz j' 4 2 Hc Hj Hne); cbn; lia. Qed.

Lemma dc_type s s' d j sz j' : dir_change s s' d j sz -> ent_pos j' -> j' <> j -> ent_type s' d j' = ent_type s d j'.
Proof using. intros Hc Hj Hne. apply (dc_other s s' d j sz j' 6 2 Hc Hj Hne); cbn; lia. Qed.

Lemma dc_str s s' d j sz j' :
  dir_change s s' d j sz -> ent_pos j' -> j' <> j -> ent_len s d j' <= 24 -> ent_str s' d j' = ent_str s d j'.
Proof using.
  intros Hc Hj Hne Hl. unfold ent_str. rewrite (dc_len s s' d j sz) by done. f_equal. unfold fbytes. apply map_ext_in.
  intros i Hin. apply in_seq in Hin. assert (0 <= ent_len s d j') by apply (load_le_range _ _ 2).
  apply (dc_bytes _ _ _ _ _ Hc); [|lia]. unfold file_pos, ent_pos in *. lia.
Qed.

Lemma dc_is_dir s s' d j sz : dir_change s s' d j sz -> is_dir s' d = is_dir s d.
Proof using. intros Hc. unfold is_dir. by rewrite (dc_attr _ _ _ _ _ Hc) by (unfold is_attr; lia). Qed.

(** *** Attributes of a directory *)

(** Words 4 to 8 are the size and the times. *)
Lemma put_dir ow fl s d ws :
  inv N ow fl s -> 0 <= d < N -> Forall (fun kv => kv.1 = 4 \/ kv.1 = 5 \/ kv.1 = 7 \/ kv.1 = 8) ws ->
  let s' := put_words s d ws in
  inv N ow fl s' /\ (forall p, file_pos p -> fbyte s' d p = fbyte s d p) /\
  forall j, dir_change s s' d j (file_size s' d).
Proof using.
  intros Hi Hd Hws s'.
  assert (Hmw : meta_words d ws).
  { eapply Forall_impl; [exact Hws|]. intros kv Hk. cbn in Hk. split; [lia|]. apply attr_child. unfold is_attr. lia. }
  destruct (put_elsewhere N ow fl s d ws Hi Hd (meta_harmless d ws Hmw)) as [Hi' He]. split; [done|].
  destruct (put_meta N ow fl s d ws Hi Hd Hmw) as [_ Hb]. split; [by auto|]. intros j. pose proof (inv_geo _ _ _ _ Hi) as G.
  assert (Hw : words_ok ws) by (eapply Forall_impl; [exact Hmw | by intros kv []]). split.
  - done.
  - unfold s'. by rewrite (rd_put N).
  - intros k Hk Hr. unfold s'. rewrite (rd_put N); [|done | done | done | cbn; unfold is_attr in Hk; lia].
    rewrite Z.eqb_refl. replace (last_word ws k) with (@None Z); [done|]. clear -Hws Hr. symmetry.
    induction Hws as [|kv ws Hkv Hws IH]; [done|]. rewrite last_word_cons, IH.
    cbn in Hkv. by rewrite (proj2 (Z.eqb_neq _ _)) by lia.
  - done.
  - intros fb Hfb _. eapply put_map; eauto using meta_harmless.
  - intros p Hp _. by apply Hb.
Qed.

Lemma dir_change_trans s1 s2 s3 d j sz sz' :
  dir_change s1 s2 d j sz -> dir_change s2 s3 d j sz' -> dir_change s1 s3 d j sz'.
Proof using.
  intros [E1 N1 A1 S1 M1 B1] [E2 N2 A2 S2 M2 B2]. split.
  - by eapply elsewhere_trans.
  - congruence.
  - intros. by rewrite A2, A1.
  - done.
  - intros fb Hfb Hnz. rewrite M2, M1; [done.. |]. by rewrite M1.
  - intros. by rewrite B2, B1.
Qed.

Lemma dir_change_mem s s' d j : shape s s' -> same_mem s s' -> dir_change s s' d j (file_size s d).
Proof using.
  intros Hs Hm. split; [by apply elsewhere_mem|..]; intros; unfold file_size;
    [by rewrite ?(same_mem_rd s s')..|by apply same_mem_map|by apply same_mem_byte].
Qed.

(** Bytes of one entry. *)
Lemma entry_change ow fl s d fb i m :
  inv N ow fl s -> 0 <= d < N -> 0 <= fb < MAX_FILE_BLOCKS -> map_block s d fb <> 0 -> 0 <= i < 128 ->
  let off := blockOffset s (map_block s d fb) + i * DIRENT_SIZE in
  (forall a, ~ (off <= a < off + 32) -> m a = sab s a) ->
  let s' := set_sab s m in
  inv N ow fl s' /\ dir_change s s' d (128 * fb + i) (file_size s d) /\
  (forall o n, 0 <= o -> o + Z.of_nat n <= 32 -> load_le (fbyte s' d) (32 * (128 * fb + i) + o) n = load_le m (off + o) n) /\
  forall o, 0 <= o < 32 -> fbyte s' d (32 * (128 * fb + i) + o) = m (off + o).
Proof using.
  intros Hi Hd Hfb Hnz Hent off Hm s'. destruct (entry_write N ow fl s d fb i m Hi Hd Hfb Hnz Hent Hm) as (Hi' & Mk & He).
  assert (Hpos : forall o, 0 <= o < 32 -> file_pos (32 * (128 * fb + i) + o)).
  { intros o Ho. unfold file_pos, MAX_FILE_BLOCKS in *. lia. }
  assert (Hby : forall o, 0 <= o < 32 -> fbyte s' d (32 * (128 * fb + i) + o) = m (off + o)).
  { intros o Ho. unfold s'. rewrite He by (done || by apply Hpos). rewrite decide_True by lia. f_equal. unfold off. lia. }
  split; [done|]. split.
  - destruct Mk as (R & Mm & Mp). split.
    + apply elsewhere_meta_kept; [done|]. intros ino p Hino Hne Hp. unfold s'. rewrite He by done. by rewrite decide_False by lia.
    + by apply Mm.
    + intros k Hk _. apply Mm; [by apply meta_attr | cbn; unfold is_attr in Hk; lia].
    + unfold file_size, s'. by rewrite !Mm by (done || (cbn; lia)).
    + intros fb' Hfb' Hnz'. by apply Mp.
    + intros p Hp Hout. unfold s'. rewrite He by done. by rewrite decide_False by lia.
  - split; [|done]. intros o n Ho Hn. apply load_le_shift. intros k Hk.
    rewrite <- !Z.add_assoc. apply Hby. lia.
Qed.

(** ** removeDirEntry *)

Lemma ent_pos_block j : ent_pos j -> 0 <= j / 128 < MAX_FILE_BLOCKS /\ 0 <= j mod 128 < 128 /\ j = 128 * (j / 128) + j mod 128.
Proof using.
  unfold ent_pos. intros Hj. pose proof (Z.div_mod j 128 ltac:(lia)). pose proof (Z.mod_pos_bound j 128 ltac:(lia)). lia.
Qed.

Lemma removed_ok ow fl s d j :
  inv N ow fl s -> 0 <= d < N -> ent_pos j -> map_block s d (j / 128) <> 0 ->
  let s' := removed s d j in
  inv N ow fl s' /\ dir_change s s' d j (file_size s d) /\ ent_ino s' d j = 0.
Proof using.
  intros Hi Hd Hj Hnz s'. destruct (ent_pos_block j Hj) as (Hfb & Hent & Ej).
  unfold s', removed. set (s1 := cleared_at s (ent_off s d j)). set (s2 := set_ticks s1 _).
  assert (Hout : forall a, ~ (ent_off s d j <= a < ent_off s d j + 32) ->
    (if (ent_off s d j <=? a) && (a <? ent_off s d j + DIRENT_SIZE) then 0 else sab s a) = sab s a).
  { intros a Ha. unfold DIRENT_SIZE. destruct (Z.leb_spec (ent_off s d j) a); [|done].
    destruct (Z.ltb_spec a (ent_off s d j + 32)); [lia | done]. }
  destruct (entry_change ow fl s d (j / 128) (j mod 128) _ Hi Hd Hfb Hnz Hent Hout) as (Hi1 & C1 & L1 & _).
  rewrite <- Ej in *. fold (cleared_at s (ent_off s d j)) in *. fold s1 in Hi1, C1, L1.
  assert (Hi2 : inv N ow fl s2) by (apply (same_mem_inv N ow fl s1); [apply same_mem_ticks | done]).
  assert (C2 : dir_change s1 s2 d j (file_size s1 d)) by (apply dir_change_mem; [apply shape_ticks | apply same_mem_ticks]).
  destruct (put_dir ow fl s2 d [(7, clock (ticks s)); (8, clock (S (ticks s)))] Hi2 Hd) as (Hi3 & Hp & C3).
  { repeat constructor; cbn; lia. }
  split; [done|]. specialize (C3 j). split.
  - assert (E : file_size (put_words s2 d [(7, clock (ticks s)); (8, clock (S (ticks s)))]) d = file_size s d).
    { rewrite <- (dc_size _ _ _ _ _ C1). change (file_size s1 d) with (file_size s2 d). unfold file_size.
      rewrite !(rd_put N) by (apply Hi2 || done || (repeat constructor; cbn; lia) || (cbn; lia)).
      by rewrite Z.eqb_refl. }
    rewrite E in C3. eapply dir_change_trans; [exact C1|]. by eapply dir_change_trans.
  - unfold ent_ino. rewrite (load_le_ext _ (fbyte s1 d)).
    + rewrite <- (Z.add_0_r (32 * j)), L1 by (cbn; lia). apply load_le_zero. intros p Hpp.
      change (Z.of_nat 4) with 4 in Hpp. unfold ent_off, DIRENT_SIZE.
      by rewrite (proj2 (Z.leb_le _ _)), (proj2 (Z.ltb_lt _ _)) by (unfold DIRENT_SIZE in Hpp; lia).
    + intros p Hpp. change (Z.of_nat 4) with 4 in Hpp.
      rewrite Hp by (unfold file_pos, ent_pos in *; lia). apply same_mem_byte, same_mem_ticks.
Qed.

(** ** addDirEntry *)

Definition unused (s : fs) (d j : Z) : option Z := if ent_ino s d j =? 0 then Some j else None.

Lemma free_entry_ok ow fl s d fb n i :
  inv N ow fl s -> 0 <= d < N -> 0 <= fb < MAX_FILE_BLOCKS -> map_block s d fb <> 0 -> 0 <= i -> i + Z.of_nat n <= 128 ->
  free_entry n (blockOffset s (map_block s d fb)) i s =
  Some (option_map (fun j => j - 128 * fb) (scan (unused s d) n (128 * fb + i)), s).
Proof using.
  intros Hi Hd Hfb Hnz. revert i. induction n as [|n IH]; intros i Hi0 Hn; [done|]. cbn [free_entry scan].
  rewrite (bind_ok _ _ _ _ _ (get_ent_ino N ow fl s d fb i Hi Hd Hfb Hnz ltac:(lia))). unfold unused at 1.
  destruct (ent_ino s d (128 * fb + i) =? 0); [cbn; unfold ret; do 3 f_equal; lia|].
  rewrite IH by lia. by replace (128 * fb + (i + 1)) with (128 * fb + i + 1) by lia.
Qed.

(** The bytes that set_entry leaves. *)
Definition entered (s : fs) (off ino type : Z) (l : list Z) : fs :=
  let m := store_le (store_le (store_le (sab s) off ino 4) (off + 4) (Z.of_nat (length l)) 2) (off + 6) type 2 in
  set_sab s (write_bytes (fun i => if (off + 8 <=? i) && (i <? off + 32) then 0 else m i) (off + 8) l).

Lemma set_entry_ok s off ino type l :
  (forall o n, 0 <= o -> o + n <= 32 -> in_view s (off + o) n = true) -> Z.of_nat (length l) <= 24 ->
  set_entry off ino type l s = Some (tt, entered s off ino type l).
Proof using.
  intros Hv Hl. unfold set_entry, setUint32, setUint16, u8_set, u8_fill0, bind, in_view in *. cbn [byteLength set_sab].
  pose proof (Hv 0 4 ltac:(lia) ltac:(lia)) as V0. rewrite Z.add_0_r in V0. rewrite V0. cbn [byteLength set_sab].
  rewrite (Hv 4 2) by lia. cbn [byteLength set_sab]. rewrite (Hv 6 2) by lia. cbn [byteLength set_sab].
  by rewrite (Hv 8) by lia.
Qed.

Lemma write_bytes_out m off l a : ~ (off <= a < off + Z.of_nat (length l)) -> write_bytes m off l a = m a.
Proof using.
  intros Ha. unfold write_bytes. destruct (Z.leb_spec off a); [|done].
  destruct (Z.ltb_spec a (off + Z.of_nat (length l))); [lia | done].
Qed.

Lemma entered_out s off ino type l a :
  Z.of_nat (length l) <= 24 -> ~ (off <= a < off + 32) -> sab (entered s off ino type l) a = sab s a.
Proof using.
  intros Hl Ha. unfold entered. cbn [sab set_sab]. rewrite write_bytes_out by lia.
  rewrite (proj2 (andb_false_iff _ _)) by (rewrite Z.leb_gt, Z.ltb_ge; lia).
  by rewrite !store_le_other by (cbn; lia).
Qed.

(** The fixed part of the entry. *)
Lemma entered_head s off ino type l a :
  Z.of_nat (length l) <= 24 -> off <= a < off + 8 ->
  sab (entered s off ino type l) a =
  store_le (store_le (store_le (sab s) off ino 4) (off + 4) (Z.of_nat (length l)) 2) (off + 6) type 2 a.
Proof using.
  intros Hl Ha. unfold entered. cbn [sab set_sab]. rewrite write_bytes_out by lia.
  by rewrite (proj2 (Z.leb_gt _ _)) by lia.
Qed.

Lemma entered_fields s off ino type l :
  Z.of_nat (length l) <= 24 ->
  let m := sab (entered s off ino type l) in
  load_le m off 4 = uint 32 ino /\ load_le m (off + 4) 2 = Z.of_nat (length l) /\ load_le m (off + 6) 2 = uint 16 type /\
  forall i, (i < length l)%nat -> m (off + 8 + Z.of_nat i) = nth i l 0.
Proof using.
  intros Hl m. split; [|split; [|split]].
  - erewrite load_le_ext by (intros; apply entered_head; [done | cbn in *; lia]).
    rewrite !load_store_other by (cbn; lia). apply (load_store_same _ _ _ 4).
  - erewrite load_le_ext by (intros; apply entered_head; [done | cbn in *; lia]).
    rewrite load_store_other, (load_store_same _ _ _ 2) by (cbn; lia). apply uint_small. cbn. lia.
  - erewrite load_le_ext by (intros; apply entered_head; [done | cbn in *; lia]). apply (load_store_same _ _ _ 2).
  - intros i Hin. unfold m, entered, write_bytes. cbn [sab set_sab].
    rewrite (proj2 (Z.leb_le _ _)), (proj2 (Z.ltb_lt _ _)) by lia. cbn [andb]. f_equal. lia.
Qed.

Lemma size_put s ino ws v :
  geometry N s -> 0 <= ino < N -> words_ok ws -> last_word ws 4 = Some (Z.land v 0xffffffff) ->
  last_word ws 5 = Some (v / 0x100000000) -> 0 <= v < 2 ^ 64 -> file_size (put_words s ino ws) ino = v.
Proof using.
  intros G Hino Hws E4 E5 Hv. unfold file_size. rewrite !(rd_put N) by (done || (cbn; lia)).
  rewrite Z.eqb_refl, E4, E5. change 0xffffffff with (Z.ones 32). rewrite (Z.land_ones v 32 ltac:(lia)).
  change 0x100000000 with (2 ^ 32). assert (0 <= v / 2 ^ 32 < 2 ^ 32).
  { split; [apply Z.div_pos; lia | apply Z.div_lt_upper_bound; lia]. }
  rewrite (uint_small 32 (v mod 2 ^ 32)), (uint_small 32 (v / 2 ^ 32)) by (done || (apply Z.mod_pos_bound; lia)). pose proof (Z.div_mod v (2 ^ 32) ltac:(lia)). lia.
Qed.

(** Entry [j] is now [ino] under the name [l]; the size reaches at least its
    end. *)
Record new_entry (s s' : fs) (d j ino type : Z) (l : list Z) : Prop := {
  ne_change : dir_change s s' d j (Z.max (file_size s d) (32 * j + 32));
  ne_ino : ent_ino s' d j = ino;
  ne_len : ent_len s' d j = Z.of_nat (length l);
  ne_type : ent_type s' d j = type;
  ne_str : ent_str s' d j = decode l;
  ne_mapped : map_block s' d (j / 128) <> 0;
}.

Lemma new_entry_bytes s s' s1 d j ino type l :
  dir_change s s' d j (Z.max (file_size s d) (32 * j + 32)) -> ent_pos j -> map_block s' d (j / 128) <> 0 ->
  Z.of_nat (length l) <= 24 -> 0 <= ino < 2 ^ 32 -> 0 <= type < 2 ^ 16 ->
  (forall o, 0 <= o < 32 -> fbyte s' d (32 * j + o) = sab (entered s1 (ent_off s1 d j) ino type l) (ent_off s1 d j + o)) ->
  new_entry s s' d j ino type l.
Proof using.
  intros Hc Hj Hm Hl Hino Hty Hb. set (off := ent_off s1 d j) in *.
  destruct (entered_fields s1 off ino type l Hl) as (F1 & F2 & F3 & F4).
  assert (Hw : forall o n, 0 <= o -> o + Z.of_nat n <= 32 ->
    load_le (fbyte s' d) (32 * j + o) n = load_le (sab (entered s1 off ino type l)) (off + o) n).
  { intros o n Ho Hn. apply load_le_shift. intros k Hk. rewrite <- !Z.add_assoc. apply Hb. lia. }
  assert (El : ent_len s' d j = Z.of_nat (length l)) by (unfold ent_len; rewrite Hw by (cbn; lia); done). split.
  - done.
  - unfold ent_ino. rewrite <- (Z.add_0_r (32 * j)), Hw, Z.add_0_r, F1 by (cbn; lia). by apply uint_small.
  - done.
  - unfold ent_type. rewrite Hw, F3 by (cbn; lia). by apply uint_small.
  - unfold ent_str. rewrite El, Nat2Z.id. f_equal. apply list_eq. intros i. unfold fbytes. rewrite list_lookup_fmap.
    destruct (decide (i < length l)%nat) as [Hlt | Hge].
    + rewrite lookup_seq_lt by lia. cbn [fmap option_fmap option_map]. rewrite <- Z.add_assoc, Hb by lia.
      rewrite Z.add_assoc, F4 by lia. rewrite nth_lookup.
      destruct (lookup_lt_is_Some_2 l i Hlt) as [x Ex]. cbn [Nat.add]. by rewrite Ex.
    + rewrite lookup_seq_ge by lia. symmetry. apply lookup_ge_None. lia.
  - done.
Qed.

(** The search has found a place in a block that is there. *)
Lemma add_here ow fl s d fb i ino type l :
  inv N ow fl s -> 0 <= d < N -> 0 <= fb < MAX_FILE_BLOCKS -> map_block s d fb <> 0 -> 0 <= i < 128 ->
  Z.of_nat (length l) <= 24 -> 0 <= ino < 2 ^ 32 -> 0 <= type < 2 ^ 16 ->
  exists s',
    bind (set_entry (blockOffset s (map_block s d fb) + i * DIRENT_SIZE) ino type l) (fun _ =>
      let newSize := fb * BLOCK_SIZE + (i + 1) * DIRENT_SIZE in
      bind (if newSize >? file_size s d
            then bind now (fun t => bind now (fun t' => writeInode d [Size newSize; Mtime t; Ctime t'])) else ret tt)
           (fun _ => ret true)) s = Some (true, s') /\
    inv N ow fl s' /\ new_entry s s' d (128 * fb + i) ino type l.
Proof using.
  intros Hi Hd Hfb Hnz Hent Hl Hino Hty. set (off := blockOffset s (map_block s d fb) + i * DIRENT_SIZE).
  set (s1 := entered s off ino type l). set (j := 128 * fb + i).
  assert (Hj : ent_pos j) by (unfold ent_pos, j, MAX_FILE_BLOCKS in *; lia).
  assert (Ej : j / 128 = fb) by (symmetry; apply (Z.div_unique _ _ _ i); unfold j; lia).
  rewrite (bind_ok _ _ _ _ _ (set_entry_ok s off ino type l (entry_view N ow fl s d fb i Hi Hd Hfb Hnz Hent) Hl)).
  destruct (entry_change ow fl s d fb i _ Hi Hd Hfb Hnz Hent (fun a Ha => entered_out s off ino type l a Hl Ha))
    as (Hi1 & C1 & _ & Hb1). fold s1 in Hi1, C1, Hb1 |- *. change (set_sab s (sab s1)) with s1 in *. cbn zeta.
  assert (Eoff : off = ent_off s d j) by (symmetry; by apply ent_off_block).
  unfold BLOCK_SIZE, DIRENT_SIZE. replace (fb * 4096 + (i + 1) * 32) with (32 * j + 32) by (unfold j; lia).
  destruct (Z.gtb_spec (32 * j + 32) (file_size s d)) as [Hgt | Hle].
  - set (s2 := set_ticks s1 (S (S (ticks s1)))).
    set (ws := props_words [Size (32 * j + 32); Mtime (clock (ticks s1)); Ctime (clock (S (ticks s1)))]).
    assert (Hi2 : inv N ow fl s2) by (apply (same_mem_inv N ow fl s1); [apply same_mem_ticks | done]).
    destruct (put_dir ow fl s2 d ws Hi2 Hd) as (Hi3 & Hb3 & C3); [repeat constructor; cbn; lia|]. specialize (C3 j).
    exists (put_words s2 d ws). split.
    { rewrite bind_assoc. erewrite (bind_ok now _ s1) by done. rewrite bind_assoc.
      erewrite (bind_ok now _ (set_ticks s1 _)) by done. fold s2.
      by rewrite (bind_ok _ _ _ _ _ (writeInode_ok N s2 d _ (inv_geo _ _ _ _ Hi2) Hd)). }
    split; [done|]. rewrite (size_put s2 d ws (32 * j + 32)) in C3;
      [|apply Hi2 | done | repeat constructor; cbn; lia | done | done | unfold ent_pos, MAX_FILE_BLOCKS in *; lia].
    assert (C : dir_change s (put_words s2 d ws) d j (32 * j + 32)).
    { eapply dir_change_trans; [exact C1|]. eapply dir_change_trans; [|exact C3].
      apply dir_change_mem; [apply shape_ticks | apply same_mem_ticks]. }
    apply (new_entry_bytes s _ s); [|done|..|done|done|done|].
    + by rewrite Z.max_r by lia.
    + rewrite Ej. by rewrite (dc_map _ _ _ _ _ C).
    + intros o Ho. rewrite <- Eoff, Hb3 by (unfold file_pos, ent_pos in *; lia).
      rewrite (same_mem_byte s1 s2) by apply same_mem_ticks. by apply Hb1.
  - exists s1. split; [done|]. split; [done|]. apply (new_entry_bytes s s1 s); [|done|..|done|done|done|].
    + by rewrite Z.max_l by lia.
    + rewrite Ej. by rewrite (dc_map _ _ _ _ _ C1).
    + intros o Ho. rewrite <- Eoff. by apply Hb1.
Qed.

Lemma keeps_dir_change s s' d j : 0 <= d < N -> keeps N s s' -> dir_change s s' d j (file_size s d).
Proof using.
  intros Hd K. split.
  - by apply elsewhere_keeps.
  - by apply K.
  - intros k Hk _. apply K; [by apply meta_attr | cbn; unfold is_attr in Hk; lia].
  - unfold file_size. by rewrite !(keeps_meta _ _ _ K) by (done || (cbn; lia)).
  - intros fb Hfb Hnz. by apply K.
  - intros p Hp _. by apply K.
Qed.

Lemma keeps_ent_ino s s' d j : 0 <= d < N -> keeps N s s' -> ent_pos j -> ent_ino s' d j = ent_ino s d j.
Proof using.
  intros Hd K Hj. apply load_le_ext. intros p Hp. apply K; [done|]. change (Z.of_nat 4) with 4 in Hp.
  unfold file_pos, ent_pos in *. lia.
Qed.

Lemma keeps_new_entry s s1 s' d j ino type l :
  0 <= d < N -> keeps N s s1 -> new_entry s1 s' d j ino type l -> new_entry s s' d j ino type l.
Proof using.
  intros Hd K [C I L T Sn Mp]. pose proof (keeps_dir_change s s1 d j Hd K) as C1.
  rewrite (dc_size _ _ _ _ _ C1) in C. split; [|done..]. by eapply dir_change_trans.
Qed.

(** What the search for a place comes to: the first unused entry, or nothing
    for want of blocks. *)
Definition add_result (fl : list Z) (s : fs) (d ino type : Z) (l : list Z) (place : option Z) (r : bool) (s' : fs) : Prop :=
  if r then exists j, place = Some j /\ new_entry s s' d j ino type l
  else keeps N s s' /\ (place = None \/ (length fl < 3)%nat).

Lemma add_in_blocks_ok ow fl s d ino type l n b :
  inv N ow fl s -> 0 <= d < N -> Z.of_nat (length l) <= 24 -> 0 <= ino < 2 ^ 32 -> 0 <= type < 2 ^ 16 ->
  0 <= b -> b + Z.of_nat n <= MAX_FILE_BLOCKS ->
  exists r s' ow' fl',
    add_in_blocks d (inode_at s d) ino type l n b s = Some (r, s') /\ inv N ow' fl' s' /\
    add_result fl s d ino type l (scan (unused s d) (128 * n) (128 * b)) r s'.
Proof using.
  intros Hi Hd Hl Hino Hty. revert b. induction n as [|n IH]; intros b Hb Hn.
  { exists false, s, ow, fl. split; [done|]. split; [done|]. split; [apply keeps_refl | by left]. }
  cbn [add_in_blocks]. rewrite (bind_ok _ _ _ _ _ (getBlockNum_ok N ow fl s d b Hi Hd ltac:(lia))).
  replace (128 * S n)%nat with (128 + 128 * n)%nat by lia. rewrite scan_app.
  replace (128 * b + Z.of_nat 128) with (128 * (b + 1)) by lia.
  destruct (file_block_ok N ow fl s d b Hi Hd ltac:(lia)) as (r & s1 & ow1 & fl1 & E1 & Hi1 & K1 & _ & Hr).
  rewrite (bind_ok _ _ _ _ _ E1). destruct Hr as [[-> Hfew] | (-> & Hnz & Hm1)].
  { exists false, s1, ow1, fl1. split; [done|]. split; [done|]. split; [done | by right]. }
  rewrite (proj2 (Z.eqb_neq _ (-1))), bind_get by done.
  pose proof (free_entry_ok ow1 fl1 s1 d b 128 0 Hi1 Hd ltac:(lia) Hnz ltac:(lia) ltac:(lia)) as Ef.
  rewrite Z.add_0_r in Ef. change (Z.to_nat DIRENTS_PER_BLOCK) with 128%nat. rewrite (bind_ok _ _ _ _ _ Ef).
  rewrite (scan_ext (unused s1 d) (unused s d)).
  2:{ intros j Hj. unfold unused. rewrite (keeps_ent_ino s s1); [done | done | done|]. unfold ent_pos. lia. }
  destruct (scan (unused s d) 128 (128 * b)) as [j|] eqn:Es; cbn [option_map].
  - apply scan_Some in Es as (j' & Hj & Eu & _). unfold unused in Eu. destruct (ent_ino s d j' =? 0); [|done].
    injection Eu as ->.
    destruct (add_here ow1 fl1 s1 d b (j - 128 * b) ino type l) as (s' & E2 & Hi2 & Ne); [done | done | lia | done | lia | done..|].
    replace (isize (inode_at s d)) with (file_size s1 d) by (apply (dc_size _ _ _ _ _ (keeps_dir_change s s1 d j Hd K1))).
    exists true, s', ow1, fl1. split; [exact E2|]. split; [done|]. exists j. split; [done|].
    replace (128 * b + (j - 128 * b)) with j in Ne by lia. by eapply keeps_new_entry.
  - rewrite scan_None in Es. destruct (Z.eqb_spec (map_block s d b) 0) as [Eh | Eh].
    { specialize (Es (128 * b + 0) ltac:(lia)). unfold unused in Es. by rewrite ent_ino_hole in Es by (done || lia). }
    destruct (map_block_owner N ow fl s Hi d b Hd ltac:(lia)) as [|[? _]]; [done|].
    assert (s1 = s) as ->; [|by apply IH; lia]. unfold or_hole in E1.
    rewrite (proj2 (Z.eqb_neq _ 0)), (proj2 (Z.eqb_neq _ (-1))) in E1 by (done || lia). by injection E1.
Qed.

Lemma addDirEntry_ok ow fl F s d name ino type :
  inv N ow fl s -> 0 <= d < N -> (is_dir s d = true -> dir_ok F s d) -> 0 <= ino < 2 ^ 32 -> 0 <= type < 2 ^ 16 ->
  exists r s' ow' fl',
    addDirEntry d name ino type s = Some (r, s') /\ inv N ow' fl' s' /\
    add_result fl s d ino type (encode name)
      (if is_dir s d && (Z.of_nat (length (encode name)) <=? 24) then scan (unused s d) (128 + slots s d) 0 else None) r s'.
Proof using.
  intros Hi Hd Hdir Hino Hty. unfold addDirEntry. rewrite (bind_ok _ _ _ _ _ (readInode_ok N s d (inv_geo _ _ _ _ Hi) Hd)).
  change (is_type (mode (inode_at s d)) S_IFDIR) with (is_dir s d). destruct (is_dir s d) eqn:Ed; cbn [negb andb].
  2:{ exists false, s, ow, fl. split; [done|]. split; [done|]. split; [apply keeps_refl | by left]. }
  destruct (Z.gtb_spec (Z.of_nat (length (encode name))) 24) as [Hgt | Hle].
  { rewrite (proj2 (Z.leb_gt _ _)) by lia. exists false, s, ow, fl. split; [done|]. split; [done|].
    split; [apply keeps_refl | by left]. }
  rewrite (proj2 (Z.leb_le _ _)) by done. pose proof (num_blocks_bound N ow fl F s d Hi Hd (Hdir eq_refl)).
  change (isize (inode_at s d)) with (file_size s d). unfold slots.
  replace (128 + 128 * Z.to_nat (num_blocks (file_size s d)))%nat with (128 * Z.to_nat (num_blocks (file_size s d) + 1))%nat by lia.
  apply (add_in_blocks_ok ow fl s d ino type (encode name) _ 0); (done || lia).
Qed.

End Entries.
