(* ===== verification/SabGood.v ===== *)
(** * SABFS: the invariant of the whole module

    [good]: the buffer satisfies [inv] for some ownership, every inode in use
    has a size that its block map can hold, every directory is well formed,
    and open files and cached paths name inodes in use.  Every change that the
    functions make keeps it. *)

From Stdlib Require Import ZArith Lia Bool.
From stdpp Require Import base numbers functions list option gmap.
From S2P Require Import Prelude.
From S2P Require Import Bytes.
From S2P Require Import SabFs.
From S2P Require Import SabApi.
From S2P Require Import SabInv.
From S2P Require Import SabTree.
From S2P Require Import SabFile.
From S2P Require Import SabRw.
From S2P Require Import SabMeta.
From S2P Require Import SabFrame.
From S2P Require Import SabDir.
From S2P Require Import SabEntry.

Local Open Scope Z_scope.

Definition MAX_SIZE : Z := MAX_FILE_BLOCKS * 4096.

(** Inodes below this one have been allocated. *)
Definition next_ino (s : fs) : Z := rd s SbFreeInode.

Definition in_use (s : fs) (ino : Z) : Prop := 0 <= ino < next_ino s.

Section Good.
Context `{B : Browser} (N : Z).

Record file_ok (s : fs) (f : file) : Prop := {
  fo_ino : in_use s (f_ino f);
  fo_file : is_dir s (f_ino f) = false;
  fo_pos : 0 <= f_pos f;
}.

Record good (s : fs) : Prop := {
  g_inv : exists ow fl, inv N ow fl s;
  g_next : 1 <= next_ino s <= N;
  g_root : is_dir s 0 = true;
  g_size : forall i, in_use s i -> file_size s i <= MAX_SIZE;
  g_dirs : forall d, in_use s d -> is_dir s d = true -> dir_ok (next_ino s) s d;
  g_fds : forall fd f, fdTable s !! fd = Some f -> file_ok s f;
  g_cache : forall p i, pathCache s !! p = Some i -> in_use s i;
}.

(** Later states: inodes stay in use and keep being directories or not. *)
Definition ext (s s' : fs) : Prop :=
  next_ino s <= next_ino s' /\ forall i, in_use s i -> is_dir s' i = is_dir s i.

Lemma later_refl s : ext s s.
Proof using. done. Qed.

Lemma ext_in_use s s' i : ext s s' -> in_use s i -> in_use s' i.
Proof using. unfold in_use. intros [] ?. lia. Qed.

Lemma later_trans s1 s2 s3 : ext s1 s2 -> ext s2 s3 -> ext s1 s3.
Proof using.
  intros E1 E2. pose proof (ext_in_use s1 s2) as Hu. destruct E1 as [N1 D1], E2 as [N2 D2].
  split; [lia|]. intros i Hi. rewrite D2, D1; [done | done|]. by apply Hu.
Qed.

Lemma good_bound s i : good s -> in_use s i -> 0 <= i < N.
Proof using. intros G Hi. pose proof (g_next s G). unfold in_use in Hi. lia. Qed.

Lemma good_dir s d : good s -> in_use s d -> is_dir s d = true -> dir_ok (next_ino s) s d.
Proof using. intros G. apply (g_dirs s G). Qed.

Lemma good_geo s : good s -> geometry N s.
Proof using. intros G. destruct (g_inv s G) as (ow & fl & Hi). apply Hi. Qed.

(** *** The same buffer *)

Lemma same_mem_is_dir s s' i : same_mem s s' -> is_dir s' i = is_dir s i.
Proof using. intros Hm. unfold is_dir. by rewrite (same_mem_rd s s'). Qed.

Lemma same_mem_next s s' : same_mem s s' -> next_ino s' = next_ino s.
Proof using. intros Hm. unfold next_ino. by rewrite (same_mem_rd s s'). Qed.

Lemma same_mem_size s s' i : same_mem s s' -> file_size s' i = file_size s i.
Proof using. intros Hm. unfold file_size. by rewrite !(same_mem_rd s s'). Qed.

Lemma same_mem_ext s s' : same_mem s s' -> ext s s'.
Proof using. intros Hm. split; [by rewrite (same_mem_next s s')|]. intros. by apply same_mem_is_dir. Qed.

Lemma file_ok_ext s s' f : ext s s' -> file_ok s f -> file_ok s' f.
Proof using.
  intros E [Hi Hd Hp]. split; [by eapply ext_in_use | | done]. destruct E as [_ E]. by rewrite E.
Qed.

(** ** A directory that is not touched *)

Lemma size_blocks z : z <= MAX_FILE_BLOCKS * 4096 -> ceil_div z BLOCK_SIZE <= MAX_FILE_BLOCKS.
Proof using.
  intros Hz. unfold ceil_div, BLOCK_SIZE. pose proof (Z.div_mod (- z) 4096 ltac:(lia)).
  pose proof (Z.mod_pos_bound (- z) 4096 ltac:(lia)). lia.
Qed.

Lemma dir_ok_ext F F' s s' d :
  dir_ok F s d -> F <= F' -> (forall p, file_pos p -> fbyte s' d p = fbyte s d p) ->
  file_size s' d = file_size s d ->
  (forall fb, 0 <= fb < MAX_FILE_BLOCKS -> map_block s d fb <> 0 -> map_block s' d fb = map_block s d fb) ->
  dir_ok F' s' d.
Proof using.
  intros [He Hs Hm Ht] HF Hb Hz Hmap.
  assert (Hw : forall j o n, ent_pos j -> 0 <= o -> o + Z.of_nat n <= 32 ->
    load_le (fbyte s' d) (32 * j + o) n = load_le (fbyte s d) (32 * j + o) n).
  { intros j o n Hj Ho Hn. apply load_le_ext. intros p Hp. apply Hb. unfold file_pos, ent_pos in *. lia. }
  assert (Hino : forall j, ent_pos j -> ent_ino s' d j = ent_ino s d j).
  { intros j Hj. pose proof (Hw j 0 4%nat Hj ltac:(lia) ltac:(cbn; lia)) as E. by rewrite Z.add_0_r in E. }
  split.
  - intros j Hj. rewrite Hino by done. unfold ent_len in *. rewrite (Hw j 4 2%nat Hj) by (cbn; lia).
    intros Hnz. destruct (He j Hj Hnz). lia.
  - by rewrite Hz.
  - rewrite Hz. intros fb Hfb. rewrite Hmap; [by apply Hm | | by apply Hm]. split; [lia|].
    apply size_blocks in Hs. lia.
  - rewrite Hz. intros j Hj Hge. rewrite Hino by done. by apply Ht.
Qed.

Lemma elsewhere_is_dir s s' ino i : elsewhere N s s' ino -> 0 <= i < N -> i <> ino -> is_dir s' i = is_dir s i.
Proof using. intros E Hi Hne. unfold is_dir. by rewrite (el_words _ _ _ _ E) by (done || (unfold is_attr; lia)). Qed.

Lemma elsewhere_size s s' ino i : elsewhere N s s' ino -> 0 <= i < N -> i <> ino -> file_size s' i = file_size s i.
Proof using. intros E Hi Hne. unfold file_size. by rewrite !(el_words _ _ _ _ E) by (done || (unfold is_attr; lia)). Qed.

Lemma elsewhere_dir_ok F F' s s' ino d :
  elsewhere N s s' ino -> 0 <= d < N -> d <> ino -> F <= F' -> dir_ok F s d -> dir_ok F' s' d.
Proof using.
  intros E Hd Hne HF Hok. eapply dir_ok_ext; [exact Hok | done | | |].
  - intros p Hp. by apply E.
  - by eapply elsewhere_size.
  - intros fb Hfb Hnz. by apply E.
Qed.

(** ** One inode changes *)

(** [ino] is in use, or is the next one and now in use. *)
Lemma good_change ow fl s s' ino :
  good s -> inv N ow fl s' -> elsewhere N s s' ino -> next_ino s <= next_ino s' <= N ->
  (forall i, next_ino s <= i < next_ino s' -> i = ino) ->
  (in_use s ino -> is_dir s' ino = is_dir s ino) ->
  (in_use s' ino -> file_size s' ino <= MAX_SIZE) ->
  (in_use s' ino -> is_dir s' ino = true -> dir_ok (next_ino s') s' ino) ->
  good s' /\ ext s s'.
Proof using.
  intros G Hi E Hn Hnew Hdir Hsize Hok. pose proof (g_next s G) as HN.
  assert (X : ext s s').
  { split; [lia|]. intros i Hu. destruct (decide (i = ino)) as [-> | Hne]; [by apply Hdir|].
    eapply elsewhere_is_dir; [exact E | by eapply good_bound | done]. }
  split; [|done]. pose proof (el_shape _ _ _ _ E) as Sh.
  assert (Hold : forall i, in_use s' i -> i <> ino -> in_use s i).
  { intros i Hu Hne. destruct (decide (i < next_ino s)); [unfold in_use in *; lia|]. exfalso. apply Hne, Hnew.
    unfold in_use in Hu. lia. }
  constructor.
  - by exists ow, fl.
  - lia.
  - destruct X as [_ X]. rewrite X by (unfold in_use; lia). apply G.
  - intros i Hu. destruct (decide (i = ino)) as [-> | Hne]; [by apply Hsize|].
    pose proof (Hold i Hu Hne) as Hu'. rewrite (elsewhere_size s s' ino) by (done || by eapply good_bound).
    by apply G.
  - intros d Hu Hd. destruct (decide (d = ino)) as [-> | Hne]; [by apply Hok|].
    pose proof (Hold d Hu Hne) as Hu'. destruct X as [_ X]. rewrite X in Hd by done.
    eapply (elsewhere_dir_ok (next_ino s)); [exact E | by eapply good_bound | done | lia|]. by apply G.
  - intros fd f Hf. rewrite (sh_fds _ _ Sh) in Hf. eapply file_ok_ext; [exact X|]. by eapply (g_fds s G).
  - intros p i Hc. rewrite (sh_cache _ _ Sh) in Hc. eapply ext_in_use; [exact X|]. by eapply (g_cache s G).
Qed.

Lemma good_mem s s' :
  good s -> same_mem s s' -> (forall fd f, fdTable s' !! fd = Some f -> file_ok s f) ->
  (forall p i, pathCache s' !! p = Some i -> in_use s i) -> good s' /\ ext s s'.
Proof using.
  intros G Hm Hf Hc. pose proof (same_mem_ext s s' Hm) as X. split; [|done].
  assert (Hu : forall i, in_use s' i -> in_use s i) by (intros i; unfold in_use; by rewrite (same_mem_next s s')).
  constructor.
  - destruct (g_inv s G) as (ow & fl & Hi). exists ow, fl. by eapply same_mem_inv.
  - rewrite (same_mem_next s s') by done. apply G.
  - rewrite (same_mem_is_dir s s') by done. apply G.
  - intros i Hi. rewrite (same_mem_size s s') by done. by apply G, Hu.
  - intros d Hd. rewrite (same_mem_is_dir s s'), (same_mem_next s s') by done. intros Hdir.
    eapply dir_ok_ext; [by apply G; [apply Hu|] | lia | | by apply same_mem_size |]; intros;
      [by apply same_mem_byte | by apply same_mem_map].
  - intros fd f E. eapply file_ok_ext; [done|]. by eapply Hf.
  - intros q i E. eapply ext_in_use; [done|]. by eapply Hc.
Qed.

Lemma good_ticks s n : good s -> good (set_ticks s n) /\ ext s (set_ticks s n).
Proof using. intros G. apply good_mem; [done | apply same_mem_ticks | apply G | apply G]. Qed.

(** *** Attributes *)

Lemma next_put s ino ws : good s -> 0 <= ino < N -> words_ok ws -> next_ino (put_words s ino ws) = next_ino s.
Proof using. intros G Hino Hw. unfold next_ino. rewrite (rd_put N); [done | by apply good_geo | done | done | done]. Qed.

Lemma harmless_ok ino ws : Forall (harmless ino) ws -> words_ok ws.
Proof using. intros H. eapply Forall_impl; [exact H | by intros kv []]. Qed.

(** The mode that the words leave is that of a directory iff it was. *)
Definition keeps_type (s : fs) (ino : Z) (ws : list (Z * Z)) : Prop :=
  match last_word ws 0 with Some v => is_type (uint 32 v) S_IFDIR = is_dir s ino | None => True end.

Lemma is_dir_put s ino ws :
  good s -> 0 <= ino < N -> words_ok ws -> keeps_type s ino ws -> is_dir (put_words s ino ws) ino = is_dir s ino.
Proof using.
  intros G Hino Hw Hk. unfold is_dir at 1. rewrite (rd_put N); [|by apply good_geo | done | done | cbn; lia].
  rewrite Z.eqb_refl. unfold keeps_type in Hk. by destruct (last_word ws 0).
Qed.

Lemma good_attrs s ino ws :
  good s -> in_use s ino -> meta_words ino ws -> last_word ws 4 = None -> last_word ws 5 = None -> keeps_type s ino ws ->
  good (put_words s ino ws) /\ ext s (put_words s ino ws).
Proof using.
  intros G Hu Hm H4 H5 Hk. pose proof (good_bound s ino G Hu) as Hino. pose proof (meta_harmless ino ws Hm) as Hh.
  pose proof (harmless_ok ino ws Hh) as Hw. destruct (g_inv s G) as (ow & fl & Hi).
  destruct (put_elsewhere N ow fl s ino ws Hi Hino Hh) as [Hi' E].
  assert (Hs : file_size (put_words s ino ws) ino = file_size s ino).
  { unfold file_size. rewrite !(rd_put N) by (apply Hi || done || (cbn; lia)). by rewrite Z.eqb_refl, H4, H5. }
  pose proof (next_put s ino ws G Hino Hw) as En. pose proof (is_dir_put s ino ws G Hino Hw Hk) as Ed.
  eapply good_change; [done | exact Hi' | exact E | ..]; rewrite ?En.
  - pose proof (g_next s G). lia.
  - lia.
  - done.
  - intros _. rewrite Hs. by apply G.
  - intros _ Hd. rewrite Ed in Hd. destruct (put_meta N ow fl s ino ws Hi Hino Hm) as [_ Hb].
    eapply dir_ok_ext; [by apply G | lia | | done |].
    + intros p Hp. by apply Hb.
    + intros fb Hfb _. eapply put_map; eauto.
Qed.

(** A file that is no directory may get another size and lose its blocks. *)
Lemma good_file_words s ino ws :
  good s -> in_use s ino -> is_dir s ino = false -> Forall (harmless ino) ws -> keeps_type s ino ws ->
  file_size (put_words s ino ws) ino <= MAX_SIZE ->
  good (put_words s ino ws) /\ ext s (put_words s ino ws).
Proof using.
  intros G Hu Hd Hh Hk Hs. pose proof (good_bound s ino G Hu) as Hino. pose proof (harmless_ok ino ws Hh) as Hw.
  destruct (g_inv s G) as (ow & fl & Hi). destruct (put_elsewhere N ow fl s ino ws Hi Hino Hh) as [Hi' E].
  pose proof (next_put s ino ws G Hino Hw) as En. pose proof (is_dir_put s ino ws G Hino Hw Hk) as Ed.
  eapply good_change; [done | exact Hi' | exact E | ..]; rewrite ?En.
  - pose proof (g_next s G). lia.
  - lia.
  - done.
  - done.
  - intros _. by rewrite Ed, Hd.
Qed.

(** *** Blocks and contents of files *)

Lemma keeps_next s s' : keeps N s s' -> next_ino s' = next_ino s.
Proof using. intros K. by apply K. Qed.

Lemma good_keeps ow fl s s' : good s -> inv N ow fl s' -> keeps N s s' -> good s' /\ ext s s'.
Proof using.
  intros G Hi K. pose proof (g_next s G) as HN. pose proof (keeps_dir_change N s s' 0 0 ltac:(lia) K) as C.
  pose proof (keeps_next s s' K) as En.
  eapply (good_change ow fl s s' 0); [done | done | by apply elsewhere_keeps | rewrite En; lia | rewrite En; lia | ..].
  - intros _. by eapply dc_is_dir.
  - intros _. rewrite (dc_size _ _ _ _ _ _ C). apply G. unfold in_use. lia.
  - intros Hu Hd. rewrite (dc_is_dir _ _ _ _ _ _ C) in Hd. rewrite En.
    eapply dir_ok_ext; [apply G; [unfold in_use; lia | done] | lia | | by apply (dc_size _ _ _ _ _ _ C) |].
    + intros p Hp. apply K; [lia | done].
    + intros fb Hfb Hnz. apply K; [lia | done | done].
Qed.

Lemma good_wrote ow fl s s' ino pos lo hi buffer :
  good s -> inv N ow fl s' -> in_use s ino -> is_dir s ino = false -> meta_kept N s s' ->
  wrote N s s' ino pos lo hi buffer -> good s' /\ ext s s'.
Proof using.
  intros G Hi Hu Hd Mk W. pose proof (g_next s G) as HN. pose proof (good_bound s ino G Hu) as Hino.
  assert (En : next_ino s' = next_ino s) by (by apply Mk).
  assert (Ed : is_dir s' ino = is_dir s ino).
  { unfold is_dir. destruct Mk as (_ & Mm & _). by rewrite Mm by (done || (cbn; lia)). }
  eapply (good_change ow fl s s' ino); [done | done | | rewrite En; lia | rewrite En; lia | done | |].
  - apply elsewhere_meta_kept; [done|]. intros i p Hi' Hne Hp. rewrite W by done. by rewrite decide_False by tauto.
  - intros _. destruct Mk as (_ & Mm & _). unfold file_size. rewrite !Mm by (done || (cbn; lia)). by apply G.
  - by rewrite Ed, Hd.
Qed.

(** *** A new inode *)

Definition new_words (m n size t : Z) : list (Z * Z) :=
  props_words [Mode m; Nlink n; Uid 0; Gid 0; Size size; Atime t; Mtime t; Ctime t; Blocks 0].

Lemma new_words_meta ino m n size t : meta_words ino (new_words m n size t).
Proof using. repeat constructor; cbn; lia. Qed.

Definition created (s : fs) (k : nat) (m n size t : Z) : fs :=
  put_words (set_ticks (fresh_inode s (next_ino s)) k) (next_ino s) (new_words m n size t).

Lemma dir_ok_empty F s d : (forall p, file_pos p -> fbyte s d p = 0) -> file_size s d = 0 -> dir_ok F s d.
Proof using.
  intros Hb Hs.
  assert (Hz : forall j, ent_pos j -> ent_ino s d j = 0).
  { intros j Hj. apply load_le_zero. intros p Hp. change (Z.of_nat 4) with 4 in Hp. apply Hb.
    unfold file_pos, ent_pos in *. lia. }
  split.
  - intros j Hj Hnz. by apply Hz in Hj.
  - rewrite Hs. unfold MAX_FILE_BLOCKS. lia.
  - rewrite Hs. intros fb Hfb. change (ceil_div 0 BLOCK_SIZE) with 0 in Hfb. lia.
  - intros j Hj _. by apply Hz.
Qed.

Lemma good_new s k m n size t :
  good s -> next_ino s < N -> 0 <= size <= MAX_SIZE -> (is_type (uint 32 m) S_IFDIR = true -> size = 0) ->
  let s' := created s k m n size t in
  good s' /\ ext s s' /\ next_ino s' = next_ino s + 1 /\ is_dir s' (next_ino s) = is_type (uint 32 m) S_IFDIR /\
  file_size s' (next_ino s) = size /\ rd s' (LIno (next_ino s) 0) = uint 32 m /\
  forall p, file_pos p -> fbyte s' (next_ino s) p = 0.
Proof using.
  intros G HF Hsz Hdir s'. set (ino := next_ino s) in *. pose proof (g_next s G) as HN.
  destruct (g_inv s G) as (ow & fl & Hi). assert (Hino : 0 <= ino < N) by (unfold ino in *; lia).
  destruct (fresh_elsewhere N ow fl s ino Hi Hino) as [Hi1 E1].
  destruct (fresh_ok N ow fl s ino Hi Hino) as (_ & _ & Hz & _).
  set (s1 := fresh_inode s ino) in *. set (s2 := set_ticks s1 k).
  assert (Hi2 : inv N ow fl s2) by (apply (same_mem_inv N ow fl s1); [apply same_mem_ticks | done]).
  pose proof (new_words_meta ino m n size t) as Hm. pose proof (meta_harmless _ _ Hm) as Hh.
  pose proof (harmless_ok _ _ Hh) as Hw.
  destruct (put_elsewhere N ow fl s2 ino _ Hi2 Hino Hh) as [Hi3 E3]. destruct (put_meta N ow fl s2 ino _ Hi2 Hino Hm) as [_ Hb3].
  change (put_words s2 ino (new_words m n size t)) with s' in *.
  assert (E : elsewhere N s s' ino).
  { eapply elsewhere_trans; [exact E1|]. eapply elsewhere_trans; [apply elsewhere_ticks | exact E3]. }
  pose proof (inv_geo _ _ _ _ Hi) as Geo. pose proof (inv_geo _ _ _ _ Hi2) as Geo2.
  assert (En : next_ino s' = ino + 1).
  { unfold s', next_ino, created. fold ino s1 s2. rewrite (rd_put N) by done. rewrite (same_mem_rd s1 s2) by apply same_mem_ticks.
    unfold s1. rewrite (rd_fresh N) by done. apply uint_small. pose proof Geo as Geo'. geo Geo'. lia. }
  assert (Em : rd s' (LIno ino 0) = uint 32 m).
  { unfold s', created. fold ino s1 s2. rewrite (rd_put N) by (done || (cbn; lia)). by rewrite Z.eqb_refl. }
  assert (Es : file_size s' ino = size).
  { apply (size_put N); [done | done | done | done | done|]. unfold MAX_SIZE, MAX_FILE_BLOCKS in Hsz. lia. }
  assert (Hb : forall p, file_pos p -> fbyte s' ino p = 0).
  { intros p Hp. rewrite Hb3 by done. rewrite (same_mem_byte s1 s2) by apply same_mem_ticks. by apply Hz. }
  assert (Ed : is_dir s' ino = is_type (uint 32 m) S_IFDIR) by (unfold is_dir; by rewrite Em).
  enough (good s' /\ ext s s') as []; [by split_and!|].
  eapply (good_change ow fl s s' ino); [done | done | done | fold ino; lia | fold ino; lia | unfold in_use; fold ino; lia | ..].
  - intros _. lia.
  - intros _ Hd. apply dir_ok_empty; [done|]. rewrite Es. apply Hdir. congruence.
Qed.

(** *** Directory entries *)

Lemma good_removed s d j :
  good s -> in_use s d -> is_dir s d = true -> ent_pos j -> map_block s d (j / 128) <> 0 ->
  good (removed s d j) /\ ext s (removed s d j).
Proof using.
  intros G Hu Hd Hj Hnz. destruct (g_inv s G) as (ow & fl & Hi). pose proof (good_bound s d G Hu) as Hdb.
  destruct (removed_ok N ow fl s d j Hi Hdb Hj Hnz) as (Hi' & C & E0). set (s' := removed s d j) in *.
  assert (En : next_ino s' = next_ino s) by exact (dc_next _ _ _ _ _ _ C). pose proof (g_next s G) as HN.
  destruct (g_dirs s G d Hu Hd) as [He Hs Hm Ht].
  eapply (good_change ow fl s s' d); [done | done | apply C | lia | lia | | |].
  - intros _. by eapply dc_is_dir.
  - intros _. rewrite (dc_size _ _ _ _ _ _ C). by apply G.
  - intros _ _. rewrite En. split.
    + intros j' Hj'. destruct (decide (j' = j)) as [-> | Hne]; [by rewrite E0|].
      rewrite (dc_ino _ _ _ _ _ _ _ C), (dc_len _ _ _ _ _ _ _ C) by done. by apply He.
    + by rewrite (dc_size _ _ _ _ _ _ C).
    + rewrite (dc_size _ _ _ _ _ _ C). intros fb Hfb. rewrite (dc_map _ _ _ _ _ _ C); [by apply Hm | | by apply Hm].
      apply size_blocks in Hs. lia.
    + rewrite (dc_size _ _ _ _ _ _ C). intros j' Hj' Hge. destruct (decide (j' = j)) as [-> | Hne]; [done|].
      rewrite (dc_ino _ _ _ _ _ _ _ C) by done. by apply Ht.
Qed.

Lemma num_blocks_mono a b : a <= b -> 0 <= a -> num_blocks a <= num_blocks b.
Proof using.
  intros Hab Ha. unfold num_blocks, ceil_div, BLOCK_SIZE.
  assert (- b / 4096 <= - a / 4096) by (apply Z.div_le_mono; lia). assert (- a / 4096 <= 0) by (apply Z.div_le_upper_bound; lia).
  destruct (Z.eqb_spec (- (- a / 4096)) 0), (Z.eqb_spec (- (- b / 4096)) 0); lia.
Qed.

(** An entry that ends within the size is in the blocks that are searched. *)
Lemma num_blocks_entry j size : 0 <= j -> 32 * j + 32 <= size -> j < 128 * num_blocks size.
Proof using.
  intros Hj Hs. unfold num_blocks, ceil_div, BLOCK_SIZE. assert (- size / 4096 <= - (32 * j + 32) / 4096) by (apply Z.div_le_mono; lia).
  pose proof (Z.div_mod (- (32 * j + 32)) 4096 ltac:(lia)). pose proof (Z.mod_pos_bound (- (32 * j + 32)) 4096 ltac:(lia)).
  destruct (Z.eqb_spec (- (- size / 4096)) 0); lia.
Qed.

(** [j] is the first unused entry, as the search of addDirEntry finds it. *)
Lemma good_added ow fl s s' d j ino type l :
  good s -> inv N ow fl s' -> in_use s d -> is_dir s d = true -> 0 <= ino < next_ino s -> Z.of_nat (length l) <= 24 ->
  ent_pos j -> (forall j', 0 <= j' < j -> ent_ino s d j' <> 0) -> new_entry N s s' d j ino type l ->
  good s' /\ ext s s'.
Proof using.
  intros G Hi Hu Hd Hino Hl Hj Hfirst [C I L _ _ Mp]. pose proof (good_bound s d G Hu) as Hdb.
  assert (En : next_ino s' = next_ino s) by exact (dc_next _ _ _ _ _ _ C). pose proof (g_next s G) as HN.
  destruct (g_dirs s G d Hu Hd) as [He Hs Hm Ht].
  assert (Hz : file_size s' d <= MAX_SIZE).
  { rewrite (dc_size _ _ _ _ _ _ C). unfold ent_pos, MAX_SIZE, MAX_FILE_BLOCKS in *. lia. }
  eapply (good_change ow fl s s' d); [done | done | apply C | lia | lia | by intros _; eapply dc_is_dir | done |].
  intros _ _. rewrite En. split; [|done| |].
  - intros j' Hj'. destruct (decide (j' = j)) as [-> | Hne]; [lia|].
    rewrite (dc_ino _ _ _ _ _ _ _ C), (dc_len _ _ _ _ _ _ _ C) by done. by apply He.
  - rewrite (dc_size _ _ _ _ _ _ C). intros fb Hfb.
    assert (Hmax : fb < MAX_FILE_BLOCKS).
    { rewrite <- (dc_size _ _ _ _ _ _ C) in Hfb. apply size_blocks in Hz. lia. }
    destruct (decide (map_block s d fb = 0)) as [Eh|]; [|rewrite (dc_map _ _ _ _ _ _ C); [done | lia | done]].
    destruct (decide (fb = j / 128)) as [-> |Hne]; [done|].
    exfalso. assert (fb < j / 128).
    { unfold ceil_div, BLOCK_SIZE in Hfb. destruct (decide (fb < ceil_div (file_size s d) BLOCK_SIZE)); [by destruct (Hm fb); [lia|]|].
      unfold ceil_div, BLOCK_SIZE in n. pose proof (Z.div_mod j 128 ltac:(lia)). pose proof (Z.mod_pos_bound j 128 ltac:(lia)).
      destruct (Z.max_spec (file_size s d) (32 * j + 32)) as [[_ Em]|[_ Em]]; rewrite Em in Hfb; [|lia].
      assert (- (- (32 * j + 32) / 4096) <= j / 128 + 1); [|lia].
      enough (- (j / 128 + 1) <= - (32 * j + 32) / 4096) by lia. apply Z.div_le_lower_bound; lia. }
    apply (Hfirst (128 * fb + 0)); [pose proof (Z.div_mod j 128 ltac:(lia)); pose proof (Z.mod_pos_bound j 128 ltac:(lia)); lia|].
    apply ent_ino_hole; (done || lia).
  - rewrite (dc_size _ _ _ _ _ _ C). intros j' Hj' Hge. assert (0 <= file_size s d).
    { unfold file_size. pose proof (rd_range s (LIno d 4)). pose proof (rd_range s (LIno d 5)). lia. }
    pose proof (num_blocks_entry j (Z.max (file_size s d) (32 * j + 32)) ltac:(unfold ent_pos in Hj; lia) ltac:(lia)).
    pose proof (num_blocks_mono (file_size s d) (Z.max (file_size s d) (32 * j + 32)) ltac:(lia) ltac:(lia)).
    rewrite (dc_ino _ _ _ _ _ _ _ C) by (done || lia). apply Ht; [done | lia].
Qed.

End Good.
