(* ===== verification/SabSafe.v ===== *)
(** * SABFS: every function keeps the invariant

    [safe m s Q]: in a good state [s] the computation [m] does not throw, ends
    in a good state in which the inodes in use are still in use, and
    establishes [Q].  [looks m s Q] is the same for computations that only
    read. *)

From Stdlib Require Import ZArith Lia Bool.
From stdpp Require Import base numbers functions list option gmap.
From S2P Require Import Prelude.
From S2P Require Import Bytes.
From S2P Require Import SabFs.
From S2P Require Import SabApi.
From S2P Require Import SabInv.
From S2P Require Import SabTree.
From S2P Require Import SabFile.
From S2P Require Import SabRw.
From S2P Require Import SabMeta.
From S2P Require Import SabFrame.
From S2P Require Import SabDir.
From S2P Require Import SabEntry.
From S2P Require Import SabGood.

Local Open Scope Z_scope.

Definition looks {A} (m : M A) (s : fs) (Q : A -> Prop) : Prop := exists a, m s = Some (a, s) /\ Q a.

Section Safe.
Context `{B : Browser} (N : Z).

Definition safe {A} (m : M A) (s : fs) (Q : A -> fs -> Prop) : Prop :=
  exists a s', m s = Some (a, s') /\ good N s' /\ ext s s' /\ Q a s'.

(** ** Rules *)

Lemma looks_ret {A} (a : A) s (Q : A -> Prop) : Q a -> looks (ret a) s Q.
Proof using. intros. by exists a. Qed.

Lemma looks_bind {A C} (m : M A) (f : A -> M C) s Q R :
  looks m s Q -> (forall a, Q a -> looks (f a) s R) -> looks (bind m f) s R.
Proof using. intros (a & E & Ha) Hf. destruct (Hf a Ha) as (b & E' & Hb). exists b. by rewrite (bind_ok _ _ _ _ _ E). Qed.

Lemma looks_eq {A} (m : M A) s a : m s = Some (a, s) -> looks m s (fun x => x = a).
Proof using. intros E. by exists a. Qed.

Lemma looks_get {A} (f : fs -> M A) s R : looks (f s) s R -> looks (bind get f) s R.
Proof using. done. Qed.

Lemma safe_ret {A} (a : A) s (Q : A -> fs -> Prop) : good N s -> Q a s -> safe (ret a) s Q.
Proof using. intros G Ha. exists a, s. by split_and!; [| |apply later_refl|]. Qed.

Lemma safe_bind {A C} (m : M A) (f : A -> M C) s Q R :
  safe m s Q -> (forall a s', good N s' -> ext s s' -> Q a s' -> safe (f a) s' R) -> safe (bind m f) s R.
Proof using.
  intros (a & s' & E & G & X & Ha) Hf. destruct (Hf a s' G X Ha) as (b & s'' & E' & G' & X' & Hb).
  exists b, s''. rewrite (bind_ok _ _ _ _ _ E). split_and!; [done | done | by eapply later_trans | done].
Qed.

Lemma safe_look {A C} (m : M A) (f : A -> M C) s Q R :
  looks m s Q -> (forall a, Q a -> safe (f a) s R) -> safe (bind m f) s R.
Proof using. intros (a & E & Ha) Hf. unfold safe. setoid_rewrite (bind_ok _ _ _ _ _ E). by apply Hf. Qed.

Lemma safe_get {A} (f : fs -> M A) s R : safe (f s) s R -> safe (bind get f) s R.
Proof using. done. Qed.

Lemma safe_looks {A} (m : M A) s (Q : A -> Prop) : good N s -> looks m s Q -> safe m s (fun a _ => Q a).
Proof using. intros G (a & E & Ha). exists a, s. split_and!; [done | done | apply later_refl | done]. Qed.

Lemma safe_mono {A} (m : M A) s (Q R : A -> fs -> Prop) :
  safe m s Q -> (forall a s', good N s' -> ext s s' -> Q a s' -> R a s') -> safe m s R.
Proof using. intros (a & s' & E & G & X & Ha) HR. exists a, s'. split_and!; auto. Qed.

(** A computation whose end is known. *)
Lemma safe_to {A} (m : M A) s a s' (Q : A -> fs -> Prop) :
  m s = Some (a, s') -> good N s' /\ ext s s' -> Q a s' -> safe m s Q.
Proof using. intros E [G X] Ha. by exists a, s'. Qed.

(** ** Reading *)

Lemma looks_readInode s ino : good N s -> in_use s ino -> looks (readInode ino) s (fun i => i = inode_at s ino).
Proof using.
  intros G Hu. exists (inode_at s ino). split; [|done]. apply (readInode_ok N); [by apply good_geo | by eapply good_bound].
Qed.

(** The result of a search: nothing, or an inode in use. *)
Definition found (s : fs) (r : Z) : Prop := r = -1 \/ in_use s r.

Lemma find_name_entry s d name j :
  good N s -> in_use s d -> is_dir s d = true -> find_name s d name = Some j ->
  ent_pos j /\ in_use s (ent_ino s d j) /\ ent_ino s d j <> 0 /\ map_block s d (j / 128) <> 0 /\ ent_str s d j = name.
Proof using.
  intros G Hu Hd Hf. destruct (g_inv N s G) as (ow & fl & Hi). pose proof (good_bound N s d G Hu) as Hdb.
  pose proof (good_dir N s d G Hu Hd) as Hok. pose proof (num_blocks_bound N ow fl _ s d Hi Hdb Hok) as Hnb.
  apply scan_Some in Hf as (i & Hin & E & _). unfold ent_match in E.
  destruct (Z.eqb_spec (ent_ino s d i) 0) as [|Hnz]; [done|]. cbn [negb andb] in E. unfold str_eqb in E.
  case_bool_decide as En; [|done]. injection E as ->.
  assert (Hj : ent_pos j) by (unfold ent_pos, slots in *; lia). destruct (dir_entries _ _ _ Hok j Hj Hnz) as [HF _].
  assert (0 <= ent_ino s d j) by apply (load_le_range _ _ 4).
  split; [done|]. split; [by unfold in_use|]. split; [done|]. split; [|done].
  intros E0. apply Hnz. destruct (ent_pos_block j Hj) as (Hfb & Hent & Ej). rewrite Ej.
  apply ent_ino_hole; [lia | done | done].
Qed.

Lemma looks_lookup s d name : good N s -> in_use s d -> looks (lookupInDir d name) s (found s).
Proof using.
  intros G Hu. destruct (g_inv N s G) as (ow & fl & Hi). pose proof (good_bound N s d G Hu) as Hd.
  pose proof (lookupInDir_ok N ow fl (next_ino s) s d name Hi Hd (good_dir N s d G Hu)) as E. eexists. split; [exact E|].
  destruct (is_dir s d) eqn:Ed; [|by left]. destruct (find_name s d name) as [j|] eqn:Ef; [|by left].
  right. by eapply find_name_entry.
Qed.

Lemma looks_block s ino fb :
  good N s -> in_use s ino -> 0 <= fb < MAX_FILE_BLOCKS ->
  looks (getBlockNum (inode_at s ino) fb) s (fun r => r = or_hole (map_block s ino fb)).
Proof using.
  intros G Hu Hfb. destruct (g_inv N s G) as (ow & fl & Hi). pose proof (good_bound N s ino G Hu) as Hino.
  eexists. split; [by apply (getBlockNum_ok N ow fl) | done].
Qed.

Lemma looks_slice s a b : looks (u8_slice a b) s (fun _ => True).
Proof using. by eexists. Qed.

(** [pos] is the beginning of block [fb], or the end. *)
Lemma looks_target s ino n size pos fb :
  good N s -> in_use s ino -> size <= MAX_SIZE -> 0 <= fb -> pos = 4096 * fb \/ size <= pos ->
  (1 <= n)%nat -> size - pos <= 4096 * (Z.of_nat n - 1) ->
  looks (target_bytes n (inode_at s ino) size pos fb) s (fun _ => True).
Proof using.
  intros G Hu Hs. revert pos fb. induction n as [|n IH]; intros pos fb Hfb Hpos Hn Hfuel; [lia|]. cbn [target_bytes].
  destruct (Z.ltb_spec pos size) as [Hlt | Hge]; [|by apply looks_ret].
  eapply looks_bind; [apply looks_block; [done | done | unfold MAX_SIZE in *; lia]|]. intros r _.
  destruct (r =? -1); [by apply looks_ret|]. apply looks_get. unfold BLOCK_SIZE.
  eapply looks_bind; [apply looks_slice|]. intros l _.
  eapply looks_bind; [apply IH; lia|]. intros l' _. by apply looks_ret.
Qed.

Lemma looks_symlink s ino : good N s -> in_use s ino -> looks (readSymlinkTarget ino) s (fun _ => True).
Proof using.
  intros G Hu. unfold readSymlinkTarget. eapply looks_bind; [by apply looks_readInode|]. intros i ->.
  destruct (negb _); [by apply looks_ret|]. destruct (_ =? 0); [by apply looks_ret|].
  change (isize (inode_at s ino)) with (file_size s ino).
  eapply looks_bind; [|intros l _; by apply looks_ret]. unfold loops, BLOCK_SIZE.
  apply looks_target; [done | done | by apply G | lia | by left | lia |].
  pose proof (Z.div_mod (file_size s ino) 4096 ltac:(lia)). pose proof (Z.mod_pos_bound (file_size s ino) 4096 ltac:(lia)). lia.
Qed.

(** ** Paths *)

Lemma looks_walk s again follow ino cur parts :
  good N s -> in_use s ino -> (forall p, looks (again p) s (found s)) ->
  looks (walk again follow ino cur parts) s (found s).
Proof using.
  intros G Hu Ha. revert ino cur Hu. induction parts as [|part rest IH]; intros ino cur Hu; [by apply looks_ret; right|].
  cbn [walk]. eapply looks_bind; [by apply looks_lookup|]. intros r Hr.
  destruct (Z.eqb_spec r (-1)); [by apply looks_ret; left|]. destruct Hr as [|Hr]; [done|].
  eapply looks_bind; [by apply looks_readInode|]. intros i ->.
  destruct (is_type _ _); [|by apply IH]. destruct (_ && _); [by apply looks_ret; right|].
  eapply looks_bind; [by apply looks_symlink|]. intros [[|c t]|] _; [by apply looks_ret; left | apply Ha | by apply looks_ret; left].
Qed.

Lemma in_use_root s : good N s -> in_use s 0.
Proof using. intros G. pose proof (g_next N s G). unfold in_use. lia. Qed.

Lemma looks_resolve s follow d path : good N s -> looks (resolvePathInternal follow d path) s (found s).
Proof using.
  intros G. revert path. induction d as [|d IH]; intros path; [by apply looks_ret; left|].
  apply looks_walk; [done | by apply in_use_root | done].
Qed.

Lemma safe_cache_set s path ino : good N s -> in_use s ino -> safe (cache_set path ino) s (fun _ _ => True).
Proof using.
  intros G Hu. eapply safe_to; [done| |done]. apply good_mem; [done | apply same_mem_cache | apply G|].
  intros p i. cbn. rewrite lookup_insert_Some. intros [[_ <-] | [_ E]]; [done | by eapply (g_cache N s G)].
Qed.

Lemma safe_cache_delete s path : good N s -> safe (cache_delete path) s (fun _ _ => True).
Proof using.
  intros G. eapply safe_to; [done| |done]. apply good_mem; [done | apply same_mem_cache | apply G|].
  intros p i. cbn. rewrite lookup_delete_Some. intros [_ E]. by eapply (g_cache N s G).
Qed.

Lemma safe_clearCache s : good N s -> safe clearCache s (fun _ _ => True).
Proof using. intros G. eapply safe_to; [done| |done]. by apply good_mem; [done | apply same_mem_cache | apply G|]. Qed.

Lemma safe_resolvePath s path : good N s -> safe (resolvePath path) s (fun r s' => found s' r).
Proof using.
  intros G. apply safe_get. destruct (pathCache s !! path) as [i|] eqn:E.
  { apply safe_ret; [done|]. right. by eapply (g_cache N s G). }
  eapply safe_look; [by apply looks_resolve|]. intros r Hr.
  destruct (Z.eqb_spec r (-1)) as [-> | Hne]; cbn [negb].
  { eapply safe_bind; [by apply (safe_ret _ _ (fun _ _ => True))|]. intros _ s' G' _ _. by apply safe_ret; [|left]. }
  destruct Hr as [|Hr]; [done|]. eapply safe_bind; [by apply safe_cache_set|]. intros _ s' G' X _.
  apply safe_ret; [done|]. right. by eapply ext_in_use.
Qed.

Lemma safe_resolveParent s path : good N s -> safe (resolveParent path) s (fun r s' => found s' r.1).
Proof using.
  intros G. unfold resolveParent. destruct (components (normalizePath path)).
  { apply safe_ret; [done|]. right. by apply in_use_root. }
  eapply safe_bind; [by apply safe_resolvePath|]. intros r s' G' _ Hr. by apply safe_ret.
Qed.

End Safe.
