(* ===== verification/SabOps.v ===== *)
(** * SABFS: the public functions are safe

    One lemma per function of the module, by the rules of [SabSafe]. *)

From Stdlib Require Import ZArith Lia Bool.
From stdpp Require Import base numbers functions list option gmap.
From S2P Require Import Prelude.
From S2P Require Import Bytes.
From S2P Require Import SabFs.
From S2P Require Import SabApi.
From S2P Require Import SabInv.
From S2P Require Import SabTree.
From S2P Require Import SabFile.
From S2P Require Import SabRw.
From S2P Require Import SabMeta.
From S2P Require Import SabFrame.
From S2P Require Import SabDir.
From S2P Require Import SabEntry.
From S2P Require Import SabGood.
From S2P Require Import SabSafe.

Local Open Scope Z_scope.

Section Ops.
Context `{B : Browser} (N : Z).

Local Abbreviation safe := (safe N).
Local Abbreviation good := (good N).

(** ** Changing inodes *)

Lemma safe_now s : good s -> safe now s (fun _ s' => same_mem s s' /\ fdTable s' = fdTable s /\ pathCache s' = pathCache s).
Proof using. intros G. eapply safe_to; [done | by apply good_ticks | by split_and!; [apply same_mem_ticks|..]]. Qed.

(** Properties other than the mode, the size and the pointers. *)
Definition plain (p : prop) : bool :=
  match p with
  | Nlink _ | Uid _ | Gid _ | Atime _ | Mtime _ | Ctime _ | Blocks _ | Flags _ => true
  | _ => false
  end.

Lemma plain_words l :
  forallb plain l = true -> Forall (fun kv => 1 <= kv.1 < 4 \/ 6 <= kv.1 < 10 \/ kv.1 = 20) (props_words l).
Proof using.
  induction l as [|p l IH]; cbn; [done|]. intros [Hp Hl]%andb_true_iff. apply Forall_app. split; [|by apply IH].
  destruct p; try done; repeat constructor; cbn; lia.
Qed.

Lemma last_word_None ws k : Forall (fun kv => kv.1 <> k) ws -> last_word ws k = None.
Proof using.
  induction 1 as [|kv ws Hk _ IH]; [done|]. rewrite last_word_cons, IH. by rewrite (proj2 (Z.eqb_neq _ _)).
Qed.

Lemma safe_write_attrs s ino l :
  good s -> in_use s ino -> forallb plain l = true -> safe (writeInode ino l) s (fun _ _ => True).
Proof using.
  intros G Hu Hp. apply plain_words in Hp.
  assert (Hn : forall k, k = 0 \/ k = 4 \/ k = 5 -> last_word (props_words l) k = None).
  { intros k Hk. apply last_word_None. eapply Forall_impl; [exact Hp|]. cbn. intros. lia. }
  eapply safe_to; [apply (writeInode_ok N); [by apply good_geo | by eapply good_bound] | | done].
  apply good_attrs; [done | done | | by apply Hn; lia.. |].
  - eapply Forall_impl; [exact Hp|]. cbn. intros kv Hk. split; [lia|]. unfold ino_child.
    destruct (Z.leb_spec 10 kv.1), (Z.ltb_spec kv.1 18), (Z.eqb_spec kv.1 18), (Z.eqb_spec kv.1 19); cbn; (done || lia).
  - unfold keeps_type. by rewrite Hn by lia.
Qed.

(** A mode with the type of another. *)
Lemma is_type_or m p t : is_type (uint 32 (Z.lor m (Z.land p 0xfff))) t = is_type m t.
Proof using.
  unfold is_type. f_equal. change 0xfff with (Z.ones 12). apply Z.bits_inj'. intros i Hi.
  rewrite !Z.land_spec, uint_testbit, Z.lor_spec, Z.land_spec by lia.
  destruct (Z.ltb_spec i 12) as [H12 | H12].
  - assert (E : Z.testbit S_IFMT i = false).
    { change S_IFMT with (Z.shiftl 15 12). apply Z.shiftl_spec_low. lia. }
    by rewrite E, !andb_false_r.
  - rewrite Z.ones_spec_high, andb_false_r, orb_false_r by lia. destruct (Z.ltb_spec i 32) as [H32 | H32]; [done|].
    assert (E : Z.testbit S_IFMT i = false).
    { apply Z.bits_above_log2; [done|]. change (Z.log2 S_IFMT) with 15. lia. }
    by rewrite E, !andb_false_r.
Qed.

Lemma safe_write_mode s ino m p t :
  good s -> in_use s ino -> is_type m S_IFDIR = is_dir s ino ->
  safe (writeInode ino [Mode (Z.lor m (Z.land p 0xfff)); Ctime t]) s (fun _ _ => True).
Proof using.
  intros G Hu Hm. eapply safe_to; [apply (writeInode_ok N); [by apply good_geo | by eapply good_bound] | | done].
  apply good_attrs; [done | done | | done | done |].
  - repeat constructor; cbn; lia.
  - unfold keeps_type. cbn [props_words flat_map prop_words app]. cbn -[is_type uint Z.lor Z.land].
    by rewrite is_type_or.
Qed.

Lemma safe_write_file s ino l :
  good s -> in_use s ino -> is_dir s ino = false -> Forall (harmless ino) (props_words l) ->
  keeps_type s ino (props_words l) -> file_size (put_words s ino (props_words l)) ino <= MAX_SIZE ->
  safe (writeInode ino l) s (fun _ s' => s' = put_words s ino (props_words l)).
Proof using.
  intros G Hu Hd Hh Hk Hz.
  eapply safe_to; [apply (writeInode_ok N); [by apply good_geo | by eapply good_bound] | | done].
  by apply good_file_words.
Qed.

(** A size and two times. *)
Lemma safe_write_size s ino size t t' :
  good s -> in_use s ino -> is_dir s ino = false -> 0 <= size <= MAX_SIZE ->
  safe (writeInode ino [Size size; Mtime t; Ctime t']) s
    (fun _ s' => s' = put_words s ino (props_words [Size size; Mtime t; Ctime t'])).
Proof using.
  intros G Hu Hd Hz. apply safe_write_file; [done | done | done | | done |].
  - repeat constructor; cbn; lia.
  - erewrite (size_put N _ _ _ size); [lia | by apply good_geo | by eapply good_bound | | done | done|].
    + repeat constructor; cbn; lia.
    + unfold MAX_SIZE, MAX_FILE_BLOCKS in Hz. lia.
Qed.

Lemma safe_clear_mode s ino :
  good s -> in_use s ino -> is_dir s ino = false -> safe (writeInode ino [Mode 0; Nlink 0]) s (fun _ _ => True).
Proof using.
  intros G Hu Hd. eapply safe_to; [apply (writeInode_ok N); [by apply good_geo | by eapply good_bound] | | done].
  apply good_attrs; [done | done | | done | done |].
  - repeat constructor; cbn; lia.
  - unfold keeps_type. by rewrite Hd.
Qed.

Lemma safe_truncate_inode s ino :
  good s -> in_use s ino -> is_dir s ino = false -> safe (truncate_inode ino) s (fun _ _ => True).
Proof using.
  intros G Hu Hd. unfold truncate_inode. eapply safe_bind; [by apply safe_now|]. intros t s1 G1 X1 _.
  eapply safe_bind; [by apply safe_now|]. intros t' s2 G2 X2 _. pose proof (later_trans _ _ _ X1 X2) as X.
  assert (Hu2 : in_use s2 ino) by (by eapply ext_in_use). eapply safe_mono; [apply safe_write_file|done].
  - done.
  - done.
  - destruct X as [_ X]. by rewrite X.
  - repeat constructor; cbn; lia.
  - done.
  - erewrite (size_put N _ _ _ 0); [unfold MAX_SIZE, MAX_FILE_BLOCKS; lia | by apply good_geo | by eapply good_bound | | done | done | lia].
    repeat constructor; cbn; lia.
Qed.

(** ** New inodes and directory entries *)

(** Allocation of an inode with its first attributes, as open, mkdir and
    symlink have it. *)
Lemma safe_alloc {A} (r0 : A) (k : Z -> Z -> M A) s m n size R :
  good s -> 0 <= size <= MAX_SIZE -> (is_type (uint 32 m) S_IFDIR = true -> size = 0) ->
  R r0 s ->
  (forall t s', next_ino s < N -> s' = created s (S (ticks s)) m n size t -> good s' -> ext s s' ->
     in_use s' (next_ino s) -> is_dir s' (next_ino s) = is_type (uint 32 m) S_IFDIR -> safe (k (next_ino s) t) s' R) ->
  safe (bind allocInode (fun ino => if ino =? -1 then ret r0 else
    bind now (fun t => bind (writeInode ino [Mode m; Nlink n; Uid 0; Gid 0; Size size; Atime t; Mtime t; Ctime t; Blocks 0])
      (fun _ => k ino t)))) s R.
Proof using.
  intros G Hsz Hdir Hr Hk. destruct (g_inv N s G) as (ow & fl & Hi). pose proof (g_next N s G) as HN.
  destruct (decide (N <= next_ino s)) as [Hge | Hlt].
  { unfold SabSafe.safe. rewrite (bind_ok _ _ _ _ _ (allocInode_full N ow fl s Hi Hge)), Z.eqb_refl. by apply safe_ret. }
  unfold SabSafe.safe. rewrite (bind_ok _ _ _ _ _ (allocInode_next N ow fl s Hi ltac:(unfold next_ino in Hlt; lia))). fold (next_ino s).
  rewrite (proj2 (Z.eqb_neq _ (-1))) by lia. set (s1 := fresh_inode s (next_ino s)).
  erewrite (bind_ok now _ s1) by done. set (t := clock (ticks s1)). set (s2 := set_ticks s1 (S (ticks s1))).
  assert (G2 : geometry N s2).
  { destruct (fresh_elsewhere N ow fl s (next_ino s) Hi) as [Hi1 _]; [lia|].
    apply (same_mem_geo N s1); [apply same_mem_ticks | apply Hi1]. }
  rewrite (bind_ok _ _ _ _ _ (writeInode_ok N s2 (next_ino s) _ G2 ltac:(lia))).
  destruct (good_new N s (S (ticks s)) m n size t G ltac:(lia) Hsz Hdir) as (G' & X & En & Ed & _).
  destruct (Hk t (created s (S (ticks s)) m n size t)) as (a & s' & E & Ga & Xa & Ha);
    [lia | done | done | done | unfold in_use; lia | done |].
  exists a, s'. split; [exact E|]. split_and!; [done | by eapply later_trans | done].
Qed.

Lemma safe_addDirEntry s d name ino type :
  good s -> in_use s d -> in_use s ino -> 0 <= type < 2 ^ 16 -> safe (addDirEntry d name ino type) s (fun _ _ => True).
Proof using.
  intros G Hd Hu Hty. destruct (g_inv N s G) as (ow & fl & Hi). pose proof (good_bound N s d G Hd) as Hdb.
  pose proof (good_bound N s ino G Hu) as Hib. pose proof (good_geo N s G) as Geo. geo Geo.
  destruct (addDirEntry_ok N ow fl (next_ino s) s d name ino type Hi Hdb (good_dir N s d G Hd) ltac:(lia) Hty)
    as (r & s' & ow' & fl' & E & Hi' & Hr). eapply safe_to; [exact E | | done]. unfold add_result in Hr. destruct r.
  2:{ destruct Hr as [K _]. by eapply good_keeps. }
  destruct Hr as (j & Ej & Ne). destruct (is_dir s d) eqn:Ed; cbn [andb] in Ej; [|done].
  destruct (Z.leb_spec (Z.of_nat (length (encode name))) 24) as [Hl|]; [|done].
  pose proof (num_blocks_bound N ow fl _ s d Hi Hdb (good_dir N s d G Hd Ed)) as Hnb.
  apply scan_Some in Ej as (j' & Hj & Eu & Hfirst). unfold unused in Eu, Hfirst. destruct (ent_ino s d j' =? 0); [|done].
  injection Eu as ->. apply (good_added N ow' fl' s s' d j ino type (encode name)); [done | exact Hi' | done | done | exact Hu | exact Hl | | | exact Ne].
  - unfold ent_pos, slots in *. lia.
  - intros i Hin E0. specialize (Hfirst i Hin). by rewrite E0 in Hfirst.
Qed.

Lemma safe_removeDirEntry s d name : good s -> in_use s d -> safe (removeDirEntry d name) s (fun _ _ => True).
Proof using.
  intros G Hd. destruct (g_inv N s G) as (ow & fl & Hi). pose proof (good_bound N s d G Hd) as Hdb.
  pose proof (removeDirEntry_ok N ow fl (next_ino s) s d name Hi Hdb (good_dir N s d G Hd)) as E.
  destruct (is_dir s d) eqn:Ed; [|by eapply safe_to; [exact E | split; [done | apply later_refl]|]].
  destruct (find_name s d name) as [j|] eqn:Ef; [|by eapply safe_to; [exact E | split; [done | apply later_refl]|]].
  eapply safe_to; [exact E | | done]. destruct (find_name_entry N s d name j G Hd Ed Ef) as (Hj & _ & _ & Hnz & _).
  by apply good_removed.
Qed.

(** ** Open files *)

Lemma safe_set_fds s t n : good s -> (forall fd f, t !! fd = Some f -> file_ok s f) ->
  good (set_fds s t n) /\ ext s (set_fds s t n).
Proof using. intros G Hf. by apply good_mem; [done | apply same_mem_fds | | apply G]. Qed.

Lemma safe_set_pos s fd pos : good s -> 0 <= pos -> safe (set_pos fd pos) s (fun _ s' => same_mem s s').
Proof using.
  intros G Hp. unfold set_pos. destruct (fdTable s !! fd) as [f|] eqn:E.
  2:{ eapply safe_to; [by rewrite E | split; [done | apply later_refl] | apply same_mem_refl]. }
  eapply safe_to; [by rewrite E | | apply same_mem_fds]. apply safe_set_fds; [done|]. intros fd' f'.
  rewrite lookup_insert_Some. intros [[_ <-] | [_ E']]; [|by eapply (g_fds N s G)].
  destruct (g_fds N s G fd f E). by constructor.
Qed.

Lemma safe_close s fd : good s -> safe (close fd) s (fun _ _ => True).
Proof using.
  intros G. unfold close. destruct (fdTable s !! fd) as [f|] eqn:E.
  - eapply safe_to; [by rewrite E | | done]. apply safe_set_fds; [done|]. intros fd' f'.
    rewrite lookup_delete_Some. intros [_ E']. by eapply (g_fds N s G).
  - eapply safe_to; [by rewrite E | split; [done | apply later_refl] | done].
Qed.

Lemma safe_bind_ret {A C} (a : A) (f : A -> M C) s R : safe (f a) s R -> safe (bind (ret a) f) s R.
Proof using. done. Qed.

Lemma safe_assoc {A C D} (m : M A) (f : A -> M C) (g : C -> M D) s R :
  safe (bind m (fun x => bind (f x) g)) s R -> safe (bind (bind m f) g) s R.
Proof using. unfold SabSafe.safe. by rewrite bind_assoc. Qed.

Lemma ext_is_dir s s' i b : ext s s' -> in_use s i -> is_dir s i = b -> is_dir s' i = b.
Proof using. intros [_ X] Hu <-. by apply X. Qed.

Lemma reg_not_dir s i : negb (is_type (mode (inode_at s i)) S_IFREG) = false -> is_dir s i = false.
Proof using.
  intros H%negb_false_iff%Z.eqb_eq. unfold is_dir, is_type. cbn in H. by rewrite H.
Qed.

Lemma ext_found s s' r : ext s s' -> found s r -> found s' r.
Proof using. intros X [-> | Hu]; [by left | right]. by eapply ext_in_use. Qed.

End Ops.

(** What is known of an earlier state. *)
Ltac keep :=
  repeat match goal with
  | H : is_type (mode (inode_at ?s ?i)) S_IFDIR = ?b |- _ => change (is_dir s i = b) in H
  | H : negb (is_type (mode (inode_at ?s ?i)) S_IFREG) = false |- _ => apply reg_not_dir in H
  | H : (_ || _) = false |- _ => apply orb_false_iff in H as [? ?]
  | H : (_ =? -1) = false |- _ => apply Z.eqb_neq in H
  | H : found ?s ?r, n : ?r <> -1 |- _ => destruct H as [H|H]; [by destruct n|]
  | X : ext ?s ?s', H : in_use ?s ?i |- _ =>
      lazymatch goal with _ : in_use s' i |- _ => fail | _ => pose proof (ext_in_use s s' i X H) end
  | X : ext ?s ?s', H : found ?s ?i |- _ =>
      lazymatch goal with _ : found s' i |- _ => fail | _ => pose proof (ext_found s s' i X H) end
  | X : ext ?s ?s', H : is_dir ?s ?i = ?b, U : in_use ?s ?i |- _ =>
      lazymatch goal with _ : is_dir s' i = b |- _ => fail | _ => pose proof (ext_is_dir s s' i b X U H) end
  end.

Create HintDb safe.
#[global] Hint Resolve safe_now safe_write_attrs safe_write_mode safe_write_size safe_clear_mode safe_truncate_inode safe_addDirEntry
  safe_removeDirEntry safe_set_pos safe_close safe_resolvePath safe_resolveParent safe_cache_set safe_cache_delete
  safe_clearCache looks_lookup looks_readInode looks_resolve : safe.
#[global] Hint Extern 1 (forallb plain _ = true) => reflexivity : safe.

(** One step along the code. *)
Ltac sstep :=
  keep;
  lazymatch goal with
  | |- safe _ (bind get _) _ _ => apply safe_get
  | |- safe _ (bind (ret _) _) _ _ => apply safe_bind_ret
  | |- safe _ (bind (bind _ _) _) _ _ => apply safe_assoc
  | |- safe _ (bind (readInode _) _) _ _ => eapply safe_look; [by eauto with safe | intros ? ->]
  | |- safe _ (bind (lookupInDir _ _) _) _ _ => eapply safe_look; [by eauto with safe | intros ? ?]
  | |- safe _ (bind (lresolvePath _) _) _ _ => eapply safe_look; [by eapply looks_resolve | intros ? ?]
  | |- safe _ (bind (if negb (?r =? -1) then _ else _) _) _ _ => destruct (Z.eqb_spec r (-1)); cbn [negb]
  | |- safe _ (bind (if ?r =? ?n then _ else _) _) _ _ => destruct (Z.eqb_spec r n)
  | |- safe _ (bind (if ?b then _ else _) _) _ _ => destruct b eqn:?
  | |- safe _ (bind _ _) _ _ => eapply safe_bind; [by eauto with safe | let Q := fresh "Q" in intros ? ?s ?G ?X Q; cbn beta in Q]
  | |- safe _ (ret _) _ _ => apply safe_ret; [done | try done; try (by left); try (by right)]
  | |- safe _ (if negb (?r =? -1) then _ else _) _ _ => destruct (Z.eqb_spec r (-1)); cbn [negb]
  | |- safe _ (if ?r =? ?n then _ else _) _ _ => destruct (Z.eqb_spec r n)
  | |- safe _ (if ?b then _ else _) _ _ => destruct b eqn:?
  end.

Ltac ssteps := repeat sstep.

Section Api.
Context `{B : Browser} (N : Z).

Local Abbreviation safe := (safe N).
Local Abbreviation good := (good N).

Lemma safe_stat s path : good s -> safe (stat path) s (fun _ _ => True).
Proof using. intros G. unfold stat. ssteps. Qed.

Lemma safe_lstat s path : good s -> safe (lstat path) s (fun _ _ => True).
Proof using. intros G. unfold lstat. ssteps. Qed.

Lemma is_type_mask m t : is_type (Z.land m S_IFMT) t = is_type m t.
Proof using. unfold is_type. by rewrite <- Z.land_assoc, Z.land_diag. Qed.

Lemma safe_chmod s path m : good s -> safe (chmod path m) s (fun _ _ => True).
Proof using.
  intros G. unfold chmod. do 4 sstep. keep. eapply safe_bind; [apply safe_write_mode; [done | done|]|].
  - rewrite is_type_mask. symmetry. by apply (ext_is_dir s0 s1).
  - intros. by sstep.
Qed.

Lemma safe_chown s path u g : good s -> safe (chown path u g) s (fun _ _ => True).
Proof using.
  intros G. unfold chown. do 3 sstep. eapply safe_bind; [apply safe_write_attrs; [done | by keep |]|].
  - by destruct (u =? -1), (g =? -1).
  - intros. by sstep.
Qed.

Lemma safe_utimes s path a m : good s -> safe (utimes path a m) s (fun _ _ => True).
Proof using. intros G. unfold utimes. ssteps. Qed.

(** ** Directories *)

Lemma looks_list_entries ow fl s d fb n i :
  inv N ow fl s -> 0 <= d < N -> 0 <= fb < MAX_FILE_BLOCKS -> map_block s d fb <> 0 -> 0 <= i -> i + Z.of_nat n <= 128 ->
  looks (list_entries n (blockOffset s (map_block s d fb)) i) s (fun _ => True).
Proof using.
  intros Hi Hd Hfb Hnz. revert i. induction n as [|n IH]; intros i Hi0 Hn; [by apply looks_ret|]. cbn [list_entries].
  eapply looks_bind; [apply looks_eq, (get_ent_ino N ow fl s d fb i); (done || lia)|]. intros e _.
  destruct (e =? 0); [apply IH; lia|].
  eapply looks_bind; [apply looks_eq, (get_ent_len N ow fl s d fb i); (done || lia)|]. intros len _.
  eapply looks_bind; [apply looks_eq, (get_ent_type N ow fl s d fb i); (done || lia)|]. intros ty _.
  eapply looks_bind; [apply looks_slice|]. intros l _. eapply looks_bind; [apply IH; lia|]. intros r _. by apply looks_ret.
Qed.

Lemma looks_list_blocks s d n b :
  good s -> in_use s d -> 0 <= b -> b + Z.of_nat n <= MAX_FILE_BLOCKS ->
  looks (list_blocks (inode_at s d) n b) s (fun _ => True).
Proof using.
  intros G Hu. destruct (g_inv N s G) as (ow & fl & Hi). pose proof (good_bound N s d G Hu) as Hd.
  revert b. induction n as [|n IH]; intros b Hb Hn; [by apply looks_ret|]. cbn [list_blocks].
  eapply looks_bind; [apply (looks_block N); (done || lia)|]. intros r ->.
  unfold or_hole. destruct (Z.eqb_spec (map_block s d b) 0) as [E | E]; [rewrite Z.eqb_refl; apply IH; lia|].
  destruct (map_block_owner N ow fl s Hi d b Hd ltac:(lia)) as [|[? _]]; [done|].
  rewrite (proj2 (Z.eqb_neq _ (-1))) by lia. apply looks_get.
  eapply looks_bind; [eapply looks_list_entries; [exact Hi | done | lia | done | lia | done]|]. intros l _.
  eapply looks_bind; [apply IH; lia|]. intros l' _. by apply looks_ret.
Qed.

Lemma looks_list_dir s d :
  good s -> in_use s d -> is_dir s d = true ->
  looks (list_blocks (inode_at s d) (Z.to_nat (num_blocks (isize (inode_at s d)))) 0) s (fun _ => True).
Proof using.
  intros G Hu Hdir. destruct (g_inv N s G) as (ow & fl & Hi). pose proof (good_bound N s d G Hu) as Hd.
  pose proof (num_blocks_bound N ow fl _ s d Hi Hd (good_dir N s d G Hu Hdir)) as Hnb.
  apply looks_list_blocks; [done | done | lia |]. change (isize (inode_at s d)) with (file_size s d). lia.
Qed.

Lemma safe_readdir s path : good s -> safe (readdir path) s (fun _ _ => True).
Proof using.
  intros G. unfold readdir. do 4 sstep; [by sstep|]. keep.
  eapply safe_look; [by apply looks_list_dir; [..|apply negb_false_iff] | intros l _]. ssteps.
Qed.

Lemma is_dir_or p : is_type (uint 32 (Z.lor S_IFDIR (Z.land p 0xfff))) S_IFDIR = true.
Proof using. by rewrite is_type_or. Qed.

Lemma safe_mkdir s path m : good s -> safe (mkdir path m) s (fun _ _ => True).
Proof using.
  intros G. unfold mkdir. do 4 sstep; [sstep|..]. keep. apply safe_alloc; [done | | done | done|].
  - unfold MAX_SIZE, MAX_FILE_BLOCKS. lia.
  - intros t s' _ _ G' X' Hu _. eapply safe_bind; [apply safe_addDirEntry; [done | by keep | done | unfold DT_DIR; lia]|].
    intros ok s'' G'' X'' _. ssteps.
Qed.

Lemma safe_rmdir s path : good s -> safe (rmdir path) s (fun _ _ => True).
Proof using.
  intros G. unfold rmdir. do 5 sstep; [by sstep..|]. eapply safe_bind; [by apply safe_readdir|].
  intros entries s' G' X' _. destruct (match entries with Some (_ :: _) => true | _ => false end); [by sstep|]. ssteps.
Qed.

Lemma safe_unlink s path : good s -> safe (unlink path) s (fun _ _ => True).
Proof using. intros G. unfold unlink. ssteps. Qed.

Lemma modeToType_range m : 0 <= modeToType m < 2 ^ 16.
Proof using. unfold modeToType. repeat case_match; done. Qed.

Lemma safe_link s p q : good s -> safe (link p q) s (fun _ _ => True).
Proof using. intros G. unfold link. pose proof modeToType_range. ssteps. Qed.

Lemma safe_rename s p q : good s -> safe (rename p q) s (fun _ _ => True).
Proof using. intros G. unfold rename. pose proof modeToType_range. ssteps. Qed.

Lemma safe_truncate s path length : good s -> 0 <= length <= MAX_SIZE -> safe (truncate path length) s (fun _ _ => True).
Proof using.
  intros G Hl. unfold truncate. ssteps.
Qed.

End Api.
