(* ===== verification/SabIo.v ===== *)
(** * SABFS: open files are safe to use

    open, read, write and the functions built from them, symbolic links and
    statfs.  The functions that grow a file are safe within the greatest size
    that a block map can hold. *)

From Stdlib Require Import ZArith Lia Bool.
From stdpp Require Import base numbers functions list option gmap.
From S2P Require Import Prelude.
From S2P Require Import Bytes.
From S2P Require Import SabFs.
From S2P Require Import SabApi.
From S2P Require Import SabInv.
From S2P Require Import SabTree.
From S2P Require Import SabFile.
From S2P Require Import SabRw.
From S2P Require Import SabMeta.
From S2P Require Import SabFrame.
From S2P Require Import SabDir.
From S2P Require Import SabEntry.
From S2P Require Import SabGood.
From S2P Require Import SabSafe.
From S2P Require Import SabOps.

Local Open Scope Z_scope.

Section Io.
Context `{B : Browser} (N : Z).

Local Abbreviation safe := (safe N).
Local Abbreviation good := (good N).

(** ** open *)

Definition new_file (m n size : Z) (s s' : fs) (r : Z) : Prop :=
  r = -1 \/ (in_use s' r /\ r <> -1 /\ is_dir s' r = is_type (uint 32 m) S_IFDIR /\
             next_ino s < N /\ r = next_ino s /\ exists t, s' = created s (S (ticks s)) m n size t).

Lemma safe_new_inode s m n size :
  good s -> 0 <= size <= MAX_SIZE -> (is_type (uint 32 m) S_IFDIR = true -> size = 0) ->
  safe (new_inode m n size) s (fun r s' => new_file m n size s s' r).
Proof using.
  intros G Hs Hd. apply (safe_alloc N (-1) (fun ino _ => ret ino)); [done | done | done | by left|].
  intros t s' Hlt Es' G' X' Hu Ed. apply safe_ret; [done|]. right.
  split_and!; [done | unfold in_use in Hu; lia | done | done | done | by exists t].
Qed.

Lemma is_reg_or p : is_type (uint 32 (Z.lor S_IFREG (Z.land p 0xfff))) S_IFDIR = false.
Proof using. by rewrite is_type_or. Qed.

Lemma safe_create_file s path m :
  good s -> safe (create_file path m) s (fun r s' => found s' r).
Proof using.
  intros G. unfold create_file. do 2 sstep; [by sstep|]. keep.
  eapply safe_bind; [apply safe_new_inode; [done | unfold MAX_SIZE, MAX_FILE_BLOCKS; lia | done]|].
  intros r s' G' X' [-> | (Hu & Hr & Ed & _)]; [rewrite Z.eqb_refl; by sstep|].
  rewrite (proj2 (Z.eqb_neq r (-1))) by done. keep.
  eapply safe_bind; [apply safe_addDirEntry; [done | done | done | unfold DT_REG; lia]|].
  intros ok s'' G'' X'' _. keep. destruct (negb ok); [by sstep|]. ssteps.
Qed.

(** The entry of the new descriptor. *)
Definition opened (flags : Z) (s : fs) (fd : Z) : Prop :=
  fd = -1 \/ exists f, fdTable s !! fd = Some f /\ f_flags f = flags /\ (flag_set flags O_APPEND = false -> f_pos f = 0).

Lemma size_nonneg s i : 0 <= file_size s i.
Proof using. unfold file_size. pose proof (rd_range s (LIno i 4)). pose proof (rd_range s (LIno i 5)). lia. Qed.

Lemma safe_open s path flags m : good s -> safe (open path flags m) s (fun fd s' => opened flags s' fd).
Proof using.
  intros G. unfold open.
  assert (Hres : safe (if flag_set flags O_NOFOLLOW then lresolvePath path else resolvePath path) s (fun r s' => found s' r)).
  { destruct (flag_set flags O_NOFOLLOW); [|by apply safe_resolvePath].
    eapply safe_mono; [apply safe_looks; [done | by apply (looks_resolve N)]|]. intros r s' _ X. by apply ext_found. }
  eapply safe_bind; [exact Hres|]. intros r s0 G0 X0 Hr.
  eapply safe_bind with (Q := fun r s' => found s' r).
  { sstep; [|by sstep]. sstep; [by apply safe_create_file | by sstep]. }
  intros r' s1 G1 X1 Hr'. cbn beta in Hr'. sstep; [by sstep|]. keep. do 2 sstep; [by sstep|].
  eapply safe_bind with (Q := fun _ _ => True).
  { sstep; [by apply safe_truncate_inode; keep | by sstep]. }
  intros _ s2 G2 X2 _. keep. eapply safe_to; [done| |].
  - apply safe_set_fds; [done|]. intros fd f. rewrite lookup_insert_Some. intros [[_ <-] | [_ E]]; [|by eapply (g_fds N s2 G2)].
    split; cbn; [done | done|]. destruct (flag_set flags O_APPEND); [apply size_nonneg | lia].
  - right. eexists. cbn. rewrite lookup_insert_eq. split_and!; [done | done|]. cbn. by intros ->.
Qed.

(** ** read and write *)

(** The bytes that there are fit into the buffer. *)
Definition read_fits (s : fs) (fd size count : Z) : Prop :=
  forall f, fdTable s !! fd = Some f -> Z.min count (file_size s (f_ino f) - f_pos f) <= size.

Definition pread_fits (s : fs) (fd size count offset : Z) : Prop :=
  0 <= offset /\
  forall f, fdTable s !! fd = Some f -> Z.min count (file_size s (f_ino f) - offset) <= size.

Lemma fits_read s fd size count : count <= size -> read_fits s fd size count.
Proof using. intros Hc f _. lia. Qed.

Lemma fits_pread s fd size count offset : count <= size -> 0 <= offset -> pread_fits s fd size count offset.
Proof using. intros Hc Ho. split; [done|]. intros f _. lia. Qed.

Lemma safe_read s fd size count : good s -> read_fits s fd size count -> safe (read fd size count) s (fun _ _ => True).
Proof using.
  intros G Hsize. unfold read. sstep. destruct (fdTable s !! fd) as [f|] eqn:Ef; [|by sstep].
  specialize (Hsize f Ef). destruct (g_fds N s G fd f Ef) as [Hu Hd Hp]. do 2 sstep; [by sstep|].
  change (isize (inode_at s (f_ino f))) with (file_size s (f_ino f)) in *.
  rewrite Z.geb_leb in Heqb. apply Z.leb_gt in Heqb. pose proof (g_size N s G _ Hu) as Hz.
  destruct (g_inv N s G) as (ow & fl & Hi). pose proof (good_bound N s _ G Hu) as Hb.
  set (n := Z.min count (file_size s (f_ino f) - f_pos f)) in *.
  assert (Hl : looks (read_loop (loops n) size (inode_at s (f_ino f)) (f_pos f) n 0) s (fun _ => True)).
  { destruct (decide (0 < n)) as [Hn|Hn].
    - eexists. split; [|done]. apply (read_loop_ok N ow fl); [done | lia | done | done | unfold MAX_SIZE in Hz; lia | lia | unfold loops; lia|].
      intros _. apply loops_enough; lia.
    - unfold loops. rewrite Nat.add_comm. cbn [Nat.add read_loop]. rewrite (proj2 (Z.ltb_ge 0 n)) by lia. by apply looks_ret. }
  eapply safe_look; [exact Hl|]. intros l _. eapply safe_bind; [apply safe_set_pos; [done | lia]|]. intros _ s1 G1 X1 _. ssteps.
Qed.

(** Where a write begins. *)
Definition write_pos (s : fs) (f : file) : Z := if flag_set (f_flags f) O_APPEND then file_size s (f_ino f) else f_pos f.

(** The bytes are there and the file does not outgrow its block map. *)
Definition write_fits (s : fs) (fd : Z) (buffer : list Z) (count : Z) : Prop :=
  forall f, fdTable s !! fd = Some f -> 0 <= count <= Z.of_nat (length buffer) /\ write_pos s f + count <= MAX_SIZE.

Lemma safe_write s fd buffer count :
  good s -> write_fits s fd buffer count -> safe (write fd buffer count) s (fun _ _ => True).
Proof using.
  intros G Hfit. unfold write. sstep. destruct (fdTable s !! fd) as [f|] eqn:Ef; [|by sstep].
  destruct (g_fds N s G fd f Ef) as [Hu Hd Hp]. destruct (Hfit f Ef) as [Hc Hmax].
  eapply safe_look with (Q := fun p => p = write_pos s f).
  { unfold write_pos. destruct (flag_set _ _); [|by apply looks_ret].
    eapply looks_bind; [by apply (looks_readInode N)|]. intros i ->. by apply looks_ret. }
  intros pos ->. destruct (g_inv N s G) as (ow & fl & Hi). pose proof (good_bound N s _ G Hu) as Hb.
  assert (Hp0 : 0 <= write_pos s f) by (unfold write_pos; destruct (flag_set _ _); [apply size_nonneg | done]).
  destruct (write_loop_ok N ow fl s (f_ino f) (write_pos s f) count (loops count) 0 buffer)
    as (w & s1 & ow1 & fl1 & E1 & Hi1 & Mk & Hw & _ & W); [done | done | done | done | lia | lia | unfold loops; lia | intros; apply loops_enough; lia|].
  eapply safe_bind; [eapply (safe_to N _ _ _ _ (fun a s' => a = w)); [exact E1 | by eapply good_wrote | done]|].
  intros w' s2 G2 X2 ->. eapply safe_bind; [apply safe_set_pos; [done | lia]|]. intros _ s3 G3 X3 _. do 2 sstep.
  eapply safe_bind with (Q := fun _ _ => True); [|intros; by sstep]. keep. destruct (_ >? _).
  - eapply safe_mono; [apply safe_write_size; [done | done | done | lia]|done].
  - by apply safe_write_attrs.
Qed.

Lemma same_mem_write_pos s s' f : same_mem s s' -> write_pos s' f = write_pos s f.
Proof using. intros Hm. unfold write_pos. by rewrite (same_mem_size s s'). Qed.

(** The file with its position moved. *)
Definition at_pos (f : file) (pos : Z) : file :=
  {| f_ino := f_ino f; f_path := f_path f; f_flags := f_flags f; f_pos := pos |}.

Lemma safe_with_pos {A} (err : A) (m : M A) s fd offset :
  good s -> 0 <= offset ->
  (forall f s', fdTable s !! fd = Some f -> good s' -> same_mem s s' -> fdTable s' !! fd = Some (at_pos f offset) ->
     safe m s' (fun _ _ => True)) ->
  safe (with_pos fd offset err m) s (fun _ _ => True).
Proof using.
  intros G Ho Hm. unfold with_pos. sstep. destruct (fdTable s !! fd) as [f|] eqn:Ef; [|by sstep].
  eapply safe_bind with (Q := fun _ s' => same_mem s s' /\ fdTable s' !! fd = Some (at_pos f offset)).
  { destruct (safe_set_pos N s fd offset G Ho) as (a & s' & E & G' & X & Hmem). exists a, s'. split_and!; try done.
    unfold set_pos in E. rewrite Ef in E. injection E as <- <-. cbn [fdTable set_fds]. by rewrite lookup_insert_eq. }
  intros _ s1 G1 X1 [Hm1 Ef1]. eapply safe_bind; [by apply (Hm f)|]. intros r s2 G2 X2 _.
  eapply safe_bind; [apply safe_set_pos; [done | apply (g_fds N s G fd f Ef)]|]. intros _ s3 G3 X3 _. by sstep.
Qed.

Lemma safe_pread s fd size count offset :
  good s -> pread_fits s fd size count offset -> safe (pread fd size count offset) s (fun _ _ => True).
Proof using.
  intros G [Ho Hfit]. apply safe_with_pos; [done | done|]. intros f s' Ef G' Hm Ef'. apply safe_read; [done|].
  intros f' E. rewrite Ef' in E. injection E as <-. cbn [f_ino f_pos at_pos]. rewrite (same_mem_size s s') by done. by apply Hfit.
Qed.

Definition pwrite_fits (s : fs) (fd : Z) (buffer : list Z) (count offset : Z) : Prop :=
  0 <= offset /\ forall f, fdTable s !! fd = Some f ->
    0 <= count <= Z.of_nat (length buffer) /\ write_pos s (at_pos f offset) + count <= MAX_SIZE.

Lemma safe_pwrite s fd buffer count offset :
  good s -> pwrite_fits s fd buffer count offset -> safe (pwrite fd buffer count offset) s (fun _ _ => True).
Proof using.
  intros G [Ho Hfit]. apply safe_with_pos; [done | done|]. intros f s' Ef G' Hm Ef'. apply safe_write; [done|].
  intros f' E. rewrite Ef' in E. injection E as <-. rewrite (same_mem_write_pos s s') by done. by apply Hfit.
Qed.

Lemma safe_lseek s fd offset whence : good s -> safe (lseek fd offset whence) s (fun _ _ => True).
Proof using.
  intros G. unfold lseek. sstep. destruct (fdTable s !! fd) as [f|] eqn:Ef; [|by sstep].
  destruct (g_fds N s G fd f Ef) as [Hu Hd Hp]. sstep.
  destruct (if whence =? 0 then _ else _) as [pos|]; [|by sstep].
  eapply safe_bind; [apply safe_set_pos; [done | lia]|]. intros. by sstep.
Qed.

(** ** Symbolic links *)

(** The blocks of the file from [fb] on are holes; [pos] is the beginning of
    block [fb], or the end. *)
Lemma write_target_ok ow fl s ino n pos fb l :
  inv N ow fl s -> 0 <= ino < N -> Z.of_nat (length l) <= MAX_SIZE -> 0 <= fb ->
  pos = 4096 * fb \/ pos = Z.of_nat (length l) -> pos <= Z.of_nat (length l) ->
  (forall b, fb <= b < MAX_FILE_BLOCKS -> map_block s ino b = 0) ->
  (1 <= n)%nat -> Z.of_nat (length l) - pos <= 4096 * (Z.of_nat n - 1) ->
  exists ok s' ow' fl' hi,
    write_target n ino pos fb l s = Some (ok, s') /\ inv N ow' fl' s' /\ meta_kept N s s' /\ pos <= hi /\
    wrote N s s' ino 0 pos hi l /\
    (if ok : bool then hi = Z.of_nat (length l) /\ forall b, 4096 * fb <= 4096 * b < Z.of_nat (length l) -> pos < hi -> map_block s' ino b <> 0
     else True).
Proof using.
  intros Hi Hino Hmax. set (len := Z.of_nat (length l)) in *. revert ow fl s pos fb Hi.
  induction n as [|n IH]; intros ow fl s pos fb Hi Hfb Hpos Hle Hh Hn Hfuel; [lia|]. cbn [write_target]. fold len.
  destruct (Z.ltb_spec pos len) as [Hlt | Hge].
  2:{ exists true, s, ow, fl, pos. split; [done|]. split; [done|]. split; [apply keeps_meta_kept, keeps_refl|]. split; [lia|].
      split; [|split; [lia | lia]]. intros i p _ _. by rewrite decide_False by lia. }
  assert (Hb : 0 <= fb < MAX_FILE_BLOCKS) by (unfold MAX_SIZE in Hmax; lia).
  destruct (allocBlockForFile_ok N ow fl s ino fb Hi Hino Hb (Hh fb ltac:(lia))) as (r & s1 & ow1 & fl1 & E1 & Hi1 & K1 & Ho1 & _ & Hr).
  rewrite (bind_ok _ _ _ _ _ E1). pose proof (keeps_meta_kept N s s1 K1) as M1. destruct Hr as [[-> _] | [-> Hnz]].
  { exists false, s1, ow1, fl1, pos. split; [done|]. split; [done|]. split; [done|]. split; [lia|]. split; [|done].
    intros i p Hii Hp. rewrite decide_False by lia. by apply K1. }
  destruct (map_block_owner N ow1 fl1 s1 Hi1 ino fb Hino Hb) as [|[Hb1 _]]; [done|].
  rewrite (proj2 (Z.eqb_neq _ (-1))), bind_get by lia. unfold BLOCK_SIZE. set (c := Z.min (len - pos) 4096).
  assert (Hls : length (slice l pos (pos + c)) = Z.to_nat c) by (apply length_slice; lia).
  destruct (write_chunk N ow1 fl1 s1 ino fb 0 (slice l pos (pos + c))) as (s2 & E2 & Hi2 & M2 & Hm2 & Hf2); [done | done | done | done | lia | lia|].
  rewrite Z.add_0_r in E2. rewrite (bind_ok _ _ _ _ _ E2).
  assert (Hh2 : forall b, fb + 1 <= b < MAX_FILE_BLOCKS -> map_block s2 ino b = 0).
  { intros b Hbb. rewrite Hm2, Ho1 by lia. apply Hh. lia. }
  destruct (IH ow1 fl1 s2 (pos + c) (fb + 1) Hi2) as (ok & s' & ow' & fl' & hi & E3 & Hi3 & M3 & Hhi & W3 & Hok);
    [lia | lia | lia | exact Hh2 | lia | lia |].
  exists ok, s', ow', fl', hi. split; [done|]. split; [done|]. split; [by do 2 (eapply meta_kept_trans; [done|])|].
  split; [lia|]. split.
  { eapply (wrote_trans N _ s2 _ _ _ _ (pos + c)); [lia | | exact W3]. intros i p Hii Hp. rewrite Hf2 by done.
    rewrite (keeps_bytes _ _ _ K1) by done. rewrite Hls, Z.add_0_r.
    repeat case_decide; [|exfalso; lia|exfalso; lia|done].
    replace (p - fb * 4096) with (p - pos) by lia. rewrite nth_slice by lia. do 2 f_equal. lia. }
  destruct ok; [|done]. destruct Hok as [Eh Hmp]. split; [done|]. intros b Hbb _.
  destruct (decide (b = fb)) as [-> |]; [|apply Hmp; lia].
  destruct M3 as (_ & _ & M3). destruct M2 as (_ & _ & M2). rewrite M3, M2; (done || rewrite ?M2; done).
Qed.

(** A new inode has no blocks. *)
Lemma created_holes s k m n size t b :
  good s -> next_ino s < N -> 0 <= b < MAX_FILE_BLOCKS -> map_block (created s k m n size t) (next_ino s) b = 0.
Proof using.
  intros G Hlt Hb. destruct (g_inv N s G) as (ow & fl & Hi). pose proof (g_next N s G) as HN.
  assert (Hino : 0 <= next_ino s < N) by lia. destruct (fresh_elsewhere N ow fl s (next_ino s) Hi Hino) as [Hi1 _].
  set (s1 := fresh_inode s (next_ino s)) in *. set (s2 := set_ticks s1 k).
  assert (Hi2 : inv N ow fl s2) by (apply (same_mem_inv N ow fl s1); [apply same_mem_ticks | done]).
  pose proof (new_words_meta (next_ino s) m n size t) as Hm.
  unfold created. fold s1 s2. rewrite (put_map N ow fl); [|done | done | by apply meta_harmless | done | by right | done].
  rewrite (same_mem_map s1 s2) by apply same_mem_ticks.
  assert (Hz : forall k, 10 <= k < 20 -> rd s1 (LIno (next_ino s) k) = 0).
  { intros q Hq. unfold s1. rewrite (rd_fresh N); [|apply Hi | done | cbn; lia]. by rewrite Z.eqb_refl. }
  unfold map_block. destruct (Z.ltb_spec b 8); [by rewrite Hz by lia|]. destruct (b <? 1032); by rewrite Hz by lia.
Qed.

Lemma safe_symlink s target path :
  good s -> Z.of_nat (length (encode target)) <= MAX_SIZE -> safe (symlink target path) s (fun _ _ => True).
Proof using.
  intros G Hl. unfold symlink. do 4 sstep; [by sstep|]. keep. set (tb := encode target) in *. pose proof (is_type_or S_IFLNK 0x1ff S_IFDIR) as Ht.
  change (Z.lor S_IFLNK (Z.land 0x1ff 0xfff)) with (Z.lor S_IFLNK 0x1ff) in Ht.
  eapply safe_bind; [apply safe_new_inode; [done | lia | by rewrite Ht]|].
  intros r s1 G1 X1 [-> | (Hu & Hr & Ed & Hlt & Er & t & Es1)]; [rewrite Z.eqb_refl; by sstep|].
  rewrite (proj2 (Z.eqb_neq r (-1))) by done. keep. rewrite Ht in Ed. change (is_type S_IFLNK S_IFDIR) with false in Ed.
  destruct (g_inv N s1 G1) as (ow & fl & Hi).
  destruct (write_target_ok ow fl s1 r (loops (Z.of_nat (length tb))) 0 0 tb Hi (good_bound N s1 r G1 Hu) Hl)
    as (ok & s2 & ow2 & fl2 & hi & E2 & Hi2 & M2 & _ & W2 & _).
  - lia.
  - by left.
  - lia.
  - intros b Hb. subst r s1. by apply created_holes.
  - unfold loops. lia.
  - unfold loops, BLOCK_SIZE. pose proof (Z.div_mod (Z.of_nat (length tb)) 4096 ltac:(lia)).
    pose proof (Z.mod_pos_bound (Z.of_nat (length tb)) 4096 ltac:(lia)). lia.
  - eapply safe_bind; [eapply (safe_to N _ _ _ _ (fun a s' => a = ok)); [exact E2 | by eapply (good_wrote N ow2 fl2 s1 s2 r) | done]|].
    intros ok' s3 G3 X3 ->. keep. destruct (negb ok); [by sstep|].
    eapply safe_bind; [apply safe_addDirEntry; [done | done | done | unfold DT_LNK; lia]|]. intros. by sstep.
Qed.

Lemma safe_readlink s path : good s -> safe (readlink path) s (fun _ _ => True).
Proof using.
  intros G. unfold readlink. do 2 sstep; [by sstep|]. keep. apply safe_looks; [done | by apply (looks_symlink N)].
Qed.

(** ** statfs *)

(** The list is counted up to its end. *)
Lemma count_free_ok ow fl s n k h l :
  inv N ow fl s -> chain s h l -> l ⊆ fl -> Z.of_nat (k + length l) <= totalDataBlocks s ->
  (length l < n)%nat -> count_free n (Z.of_nat k) h s = Some (Z.of_nat (k + length l), s).
Proof using.
  intros Hi Hc Hs. revert k h l Hc Hs. induction n as [|n IH]; intros k h l Hc Hs Hk Hn; [lia|]. cbn [count_free].
  rewrite bind_get. destruct l as [|b l]; cbn [chain] in Hc.
  { subst h. rewrite Z.eqb_refl. cbn. by rewrite Nat.add_0_r. }
  destruct Hc as [-> Hc]. destruct (inv_free _ _ _ _ Hi b) as [Hb _].
  { apply Hs, elem_of_cons. auto. }
  pose proof (inv_geo _ _ _ _ Hi) as G. pose proof G as G'. geo G'.
  rewrite (proj2 (Z.eqb_neq b NIL)), (proj2 (Z.eqb_neq b 0)) by (unfold NIL; lia). cbn [negb andb].
  cbn [length] in Hk, Hn. rewrite (proj2 (Z.ltb_lt _ _)) by lia.
  rewrite (bind_ok _ _ _ _ _ (get_at N s _ (LBlk b 0) G ltac:(cbn; lia) (block_addr s b))).
  replace (Z.of_nat k + 1) with (Z.of_nat (S k)) by lia. rewrite (IH (S k) _ l); [|done | | cbn in *; lia | lia].
  - do 2 f_equal. cbn. lia.
  - intros x Hx. apply Hs, elem_of_cons. auto.
Qed.

Lemma free_count ow fl s : inv N ow fl s -> Z.of_nat (length fl) < totalDataBlocks s.
Proof using.
  intros Hi. pose proof (inv_geo _ _ _ _ Hi) as G. geo G.
  assert (Hs : fl ⊆+ seqZ 1 (totalDataBlocks s - 1)).
  { apply NoDup_submseteq; [apply Hi|]. intros b Hb. apply elem_of_seqZ. destruct (inv_free _ _ _ _ Hi b Hb). lia. }
  apply submseteq_length in Hs. rewrite length_seqZ in Hs. lia.
Qed.

Lemma statfs_ok ow fl s :
  inv N ow fl s ->
  statfs s = Some ({| sf_blocks := totalDataBlocks s; sf_bfree := Z.of_nat (length fl); sf_files := N;
                      sf_ffree := N - next_ino s; sf_namelen := MAX_NAME_LEN |}, s).
Proof using.
  intros Hi. pose proof (inv_geo _ _ _ _ Hi) as G. pose proof (free_count ow fl s Hi) as Hc. unfold statfs.
  rewrite (bind_ok _ _ _ _ _ (get_at N s SB_TOTAL_BLOCKS (LSb 3) G ltac:(done) eq_refl)).
  rewrite (bind_ok _ _ _ _ _ (get_at N s SB_INODE_COUNT SbInodes G ltac:(done) eq_refl)).
  rewrite (bind_ok _ _ _ _ _ (get_at N s SB_FREE_INODE SbFreeInode G ltac:(done) eq_refl)).
  rewrite (bind_ok _ _ _ _ _ (get_at N s SB_FREE_BLOCK SbFree G ltac:(done) eq_refl)), bind_get.
  erewrite bind_ok by (apply (count_free_ok ow fl s _ 0 _ fl Hi (inv_chain _ _ _ _ Hi)); [done | lia | lia]).
  by rewrite (inv_count _ _ _ _ Hi).
Qed.

Lemma safe_statfs s : good s -> safe statfs s (fun _ _ => True).
Proof using.
  intros G. destruct (g_inv N s G) as (ow & fl & Hi). eapply safe_to; [by apply (statfs_ok ow fl) | | done].
  split; [done | apply later_refl].
Qed.

(** ** Whole files *)

Lemma safe_importFile s path data m :
  good s -> Z.of_nat (length data) <= MAX_SIZE -> safe (importFile path data m) s (fun _ _ => True).
Proof using.
  intros G Hl. unfold importFile. eapply safe_bind; [by apply safe_open|]. intros fd s1 G1 X1 Ho. sstep; [by sstep|].
  destruct Ho as [|(f & Ef & Efl & Hp)]; [done|].
  eapply safe_bind; [apply safe_write; [done|]|].
  - intros f' E. rewrite Ef in E. injection E as <-. split; [lia|]. unfold write_pos. rewrite Efl.
    change (flag_set (Z.lor (Z.lor O_CREAT O_TRUNC) O_WRONLY) O_APPEND) with false. rewrite Hp by done. lia.
  - intros. ssteps.
Qed.

Lemma safe_exportFile s path : good s -> safe (exportFile path) s (fun _ _ => True).
Proof using.
  intros G. unfold exportFile. eapply safe_bind; [by apply safe_stat|]. intros [[ino i]|] s1 G1 X1 _; [|by sstep].
  sstep; [by sstep|]. eapply safe_bind; [by apply safe_open|]. intros fd s2 G2 X2 _. sstep; [by sstep|].
  eapply safe_bind; [apply safe_read; [done | by apply fits_read]|]. intros. ssteps.
Qed.


End Io.
