(* ===== verification/SabInit.v ===== *)
(** * SABFS: a new file system is good *)

From Stdlib Require Import ZArith Lia Bool.
From stdpp Require Import base numbers functions list option gmap.
From S2P Require Import Prelude.
From S2P Require Import Bytes.
From S2P Require Import SabFs.
From S2P Require Import SabInv.
From S2P Require Import SabTree.
From S2P Require Import SabFile.
From S2P Require Import SabRw.
From S2P Require Import SabMeta.
From S2P Require Import SabFrame.
From S2P Require Import SabDir.
From S2P Require Import SabEntry.
From S2P Require Import SabGood.

Local Open Scope Z_scope.

Section Init.
Context `{B : Browser}.

(** The numbers that init computes. *)
Definition inodes_of (sizeBytes inodeCount : Z) : Z :=
  if inodeCount =? 0 then Z.min (sizeBytes / BLOCK_SIZE / 4) 65536 else inodeCount.
Definition table_blocks (N : Z) : Z := ceil_div (N * INODE_SIZE) BLOCK_SIZE.
Definition data_blocks (sizeBytes N : Z) : Z := sizeBytes / BLOCK_SIZE - 1 - table_blocks N.

(** Sizes for which there are an inode and a free block, and no more blocks
    than a pointer block of pointer blocks can name. *)
Record init_ok (sizeBytes inodeCount : Z) : Prop := {
  io_words : 0 <= sizeBytes /\ sizeBytes mod 4 = 0;
  io_inodes : 1 <= inodes_of sizeBytes inodeCount < 2 ^ 32;
  io_blocks : 2 <= data_blocks sizeBytes (inodes_of sizeBytes inodeCount) <= 2 ^ 20;
}.

(** The module before init. *)
Record unused_module (s : fs) : Prop := { um_fds : fdTable s = ∅; um_cache : pathCache s = ∅ }.

(** The buffer of zeros. *)
Definition zeros (s : fs) (sizeBytes N : Z) : fs :=
  {| sab := fun _ => 0; byteLength := sizeBytes; inodeTableOffset := BLOCK_SIZE;
     dataBlocksOffset := BLOCK_SIZE + table_blocks N * BLOCK_SIZE; totalDataBlocks := data_blocks sizeBytes N;
     fdTable := fdTable s; nextFd := nextFd s; pathCache := pathCache s; ticks := ticks s |}.

Lemma rd_zeros s sizeBytes N l : rd (zeros s sizeBytes N) l = 0.
Proof using. by apply load_le_zero. Qed.

Lemma zeros_geo s sizeBytes inodeCount :
  init_ok sizeBytes inodeCount -> let N := inodes_of sizeBytes inodeCount in geometry N (zeros s sizeBytes N).
Proof using.
  intros [[Hs Hm] Hn Hb] N. fold N in Hn, Hb. unfold data_blocks, table_blocks, ceil_div, BLOCK_SIZE, INODE_SIZE in *.
  pose proof (Z.div_mod (- (N * 128)) 4096 ltac:(lia)). pose proof (Z.mod_pos_bound (- (N * 128)) 4096 ltac:(lia)).
  pose proof (Z.div_mod sizeBytes 4096 ltac:(lia)). pose proof (Z.mod_pos_bound sizeBytes 4096 ltac:(lia)).
  split; cbn; unfold data_blocks, table_blocks, ceil_div, BLOCK_SIZE, INODE_SIZE in *; [done | lia..].
Qed.

Section Steps.
Context (N : Z).

(** The free list is linked. *)
Lemma link_free_ok n i s :
  geometry N s -> 0 <= i -> i + Z.of_nat n <= totalDataBlocks s ->
  exists s', link_free n i s = Some (tt, s') /\ same_rest s s' /\
    forall l, valid N s l ->
      rd s' l = match l with
                | LBlk b k => if (k =? 0) && (i <=? b) && (b <? i + Z.of_nat n) then b + 1 else rd s l
                | _ => rd s l
                end.
Proof using.
  revert i s. induction n as [|n IH]; intros i s G Hi Hn.
  { exists s. split; [done|]. split; [apply same_rest_refl|]. intros [|? ?|b k] _; [done | done|].
    destruct (Z.leb_spec i b), (Z.ltb_spec b (i + Z.of_nat 0)); rewrite ?andb_false_r; (done || lia). }
  pose proof G as G'. geo G'. assert (V : valid N s (LBlk i 0)) by (cbn; lia).
  cbn [link_free]. rewrite bind_get. rewrite (bind_ok _ _ _ _ _ (set_at N s _ (LBlk i 0) (i + 1) G V (block_addr s i))).
  set (s1 := wrt s (LBlk i 0) (i + 1)). destruct (IH (i + 1) s1) as (s' & E & R & Hrd); [by apply geometry_sab | lia | change (totalDataBlocks s1) with (totalDataBlocks s); lia |].
  exists s'. split; [exact E|]. split; [eapply same_rest_trans; [apply same_rest_wrt | exact R]|]. intros l Vl. rewrite Hrd by done.
  unfold s1. rewrite (rd_wrt N) by done. destruct l as [| |b k]; [done | done|].
  destruct (Z.eqb_spec k 0) as [-> | Hk]; cbn [andb].
  - destruct (decide (LBlk i 0 = LBlk b 0)) as [[= <-] | Hne].
    + rewrite uint_small by lia. destruct (Z.leb_spec (i + 1) i), (Z.leb_spec i i), (Z.ltb_spec i (i + Z.of_nat (S n))); (done || lia).
    + assert (b <> i) by congruence.
      destruct (Z.leb_spec (i + 1) b), (Z.leb_spec i b), (Z.ltb_spec b (i + 1 + Z.of_nat n)), (Z.ltb_spec b (i + Z.of_nat (S n)));
        cbn [andb]; (done || lia).
  - rewrite decide_False by congruence. done.
Qed.

Lemma chain_seq s n i :
  (forall b, i <= b < i + Z.of_nat n -> rd s (LBlk b 0) = b + 1) -> rd s (LBlk (i + Z.of_nat n) 0) = NIL ->
  chain s i (seqZ i (Z.of_nat n + 1)).
Proof using.
  revert i. induction n as [|n IH]; intros i Hrd Hn.
  { cbn. rewrite Z.add_0_r in Hn. done. }
  rewrite seqZ_cons by lia. cbn [chain]. split; [done|]. rewrite Hrd by lia.
  replace (Z.succ i) with (i + 1) by lia. replace (Z.pred (Z.of_nat (S n) + 1)) with (Z.of_nat n + 1) by lia.
  apply IH; [intros; apply Hrd; lia|]. by replace (i + 1 + Z.of_nat n) with (i + Z.of_nat (S n)) by lia.
Qed.

(** A sequence of words that are written, and then the rest. *)
Fixpoint sets {A} (l : list (Z * Z)) (k : M A) : M A :=
  match l with
  | [] => k
  | (off, v) :: l => bind (setUint32 off v) (fun _ => sets l k)
  end.

Definition put_locs (s : fs) (l : list (loc * Z)) : fs := foldl (fun s lv => wrt s lv.1 lv.2) s l.

Fixpoint last_loc (ws : list (loc * Z)) (l : loc) (v : Z) : Z :=
  match ws with
  | [] => v
  | (l', v') :: ws => last_loc ws l (if decide (l' = l) then uint 32 v' else v)
  end.

Lemma same_rest_locs s l : same_rest s (put_locs s l).
Proof using.
  revert s. induction l as [|lv l IH]; intros s; cbn; [apply same_rest_refl|].
  eapply same_rest_trans; [apply same_rest_wrt | apply IH].
Qed.

Lemma sets_ok {A} (k : M A) s l offs :
  geometry N s -> Forall (fun lv => valid N s lv.1) l -> offs = map (fun lv => (addr s lv.1, lv.2)) l ->
  sets offs k s = k (put_locs s l).
Proof using.
  intros G Hv ->. revert s G Hv. induction l as [|[lc v] l IH]; intros s G Hv; [done|]. inversion_clear Hv.
  cbn [sets map put_locs foldl fst snd]. rewrite (bind_ok _ _ _ _ _ (setUint32_wrt N s lc v G H)).
  fold (put_locs (wrt s lc v) l). rewrite <- IH; [done | by apply geometry_sab | done].
Qed.

Lemma rd_locs s ws l :
  geometry N s -> Forall (fun lv => valid N s lv.1) ws -> valid N s l -> rd (put_locs s ws) l = last_loc ws l (rd s l).
Proof using.
  intros G Hws V. revert s G Hws V. induction ws as [|[lc v] ws IH]; intros s G Hws V; [done|]. inversion_clear Hws.
  cbn [put_locs foldl last_loc fst snd]. fold (put_locs (wrt s lc v) ws).
  rewrite IH; [|by apply geometry_sab | done | done]. by rewrite (rd_wrt N).
Qed.

Lemma last_loc_other ws l v : Forall (fun lv => lv.1 <> l) ws -> last_loc ws l v = v.
Proof using.
  revert v. induction ws as [|[lc w] ws IH]; intros v H; [done|]. inversion_clear H. cbn [last_loc].
  rewrite decide_False by done. by apply IH.
Qed.

End Steps.

(** ** init *)

Definition sb_words (totalBlocks N total : Z) : list (loc * Z) :=
  [(LSb 0, MAGIC); (LSb 1, VERSION); (LSb 2, BLOCK_SIZE); (LSb 3, totalBlocks); (LSb 4, N); (LSb 5, 1); (LSb 6, 1);
   (LSb 7, 0); (LSb 8, total)].

Definition root_words (t : Z) : list (loc * Z) :=
  [(LIno 0 0, Z.lor S_IFDIR 0x1ed); (LIno 0 1, 2); (LIno 0 2, 0); (LIno 0 3, 0); (LIno 0 4, 0); (LIno 0 5, 0);
   (LIno 0 6, t); (LIno 0 7, t); (LIno 0 8, t)].

(** The words of the new file system. *)
Record fresh_words (N : Z) (s : fs) : Prop := {
  fw_geo : geometry N s;
  fw_inodes : rd s SbInodes = N;
  fw_free : rd s SbFree = 1;
  fw_next : rd s SbFreeInode = 1;
  fw_links : forall b, 1 <= b < totalDataBlocks s - 1 -> rd s (LBlk b 0) = b + 1;
  fw_last : rd s (LBlk (totalDataBlocks s - 1) 0) = NIL;
  fw_mode : rd s (LIno 0 0) = Z.lor S_IFDIR 0x1ed;
  fw_size : file_size s 0 = 0;
  fw_ptrs : forall i k, 0 <= i < N -> 10 <= k < 20 -> rd s (LIno i k) = 0;
}.

Lemma fresh_words_good N s : fresh_words N s -> fdTable s = ∅ -> pathCache s = ∅ -> good N s.
Proof using.
  intros [G Hn Hf Hx Hl Hlast Hm Hz Hp] Ef Ec. pose proof G as G'. geo G'.
  assert (Hi : inv N (fun _ => Free) (seqZ 1 (totalDataBlocks s - 1)) s).
  { constructor; [done | done | | apply NoDup_seqZ | |].
    - rewrite Hf. replace (totalDataBlocks s - 1) with (Z.of_nat (Z.to_nat (totalDataBlocks s - 2)) + 1) by lia.
      apply chain_seq; [intros; apply Hl; lia|].
      by replace (1 + Z.of_nat (Z.to_nat (totalDataBlocks s - 2))) with (totalDataBlocks s - 1) by lia.
    - intros b Hb. apply elem_of_seqZ in Hb. split; [lia | done].
    - intros [k|i k|b k] o V Hpt; [done| |by cbn in Hpt; case_decide]. left. cbn in V, Hpt.
      apply Hp; [lia|]. unfold ino_child in Hpt.
      destruct (Z.leb_spec 10 k), (Z.ltb_spec k 18), (Z.eqb_spec k 18), (Z.eqb_spec k 19); cbn in Hpt; (lia || done). }
  assert (Hu : forall i, in_use s i -> i = 0) by (intros i; unfold in_use, next_ino; rewrite Hx; lia).
  constructor.
  - by eexists _, _.
  - unfold next_ino. rewrite Hx. lia.
  - unfold is_dir. by rewrite Hm.
  - intros i ->%Hu. rewrite Hz. unfold MAX_SIZE, MAX_FILE_BLOCKS. lia.
  - intros d ->%Hu _. apply dir_ok_empty; [|done]. intros p Hpp. apply fbyte_no_pointers; [|done].
    intros k Hk. apply Hp; lia.
  - intros fd f. by rewrite Ef, lookup_empty.
  - intros p i. by rewrite Ec, lookup_empty.
Qed.

Lemma sb_valid N s v3 total : Forall (fun lv => valid N s lv.1) (sb_words v3 N total).
Proof using. repeat constructor; done. Qed.

Lemma root_valid N s t : 1 <= N -> Forall (fun lv => valid N s lv.1) (root_words t).
Proof using. intros. repeat constructor; cbn; lia. Qed.

Lemma init_words sizeBytes inodeCount s :
  init_ok sizeBytes inodeCount ->
  let N := inodes_of sizeBytes inodeCount in
  exists s', init sizeBytes inodeCount s = Some (tt, s') /\ fresh_words N s' /\ shape (zeros s sizeBytes N) s'.
Proof using.
  intros Hok N. pose proof (zeros_geo s sizeBytes inodeCount Hok) as G0. fold N in G0. cbn zeta in G0.
  set (s0 := zeros s sizeBytes N) in *. pose proof G0 as G0'. geo G0'.
  destruct Hok as [[Hs Hm] _ _]. set (total := data_blocks sizeBytes N). change (totalDataBlocks s0) with total in *.
  unfold init. fold (inodes_of sizeBytes inodeCount). fold N. fold (table_blocks N). fold (data_blocks sizeBytes N). fold total.
  rewrite (bind_ok _ _ s tt s0) by (unfold new_sab; by rewrite (proj2 (Z.leb_le _ _)), Hm).
  pose proof (sb_valid N s0 (sizeBytes / BLOCK_SIZE) total) as V1.
  set (ws1 := sb_words (sizeBytes / BLOCK_SIZE) N total) in *.
  lazymatch goal with |- exists s', ?m s0 = _ /\ _ =>
    lazymatch m with context [bind (setUint32 SB_DATA_BLOCKS total) (fun _ => ?k)] =>
      change m with (sets (map (fun lv => (addr s0 lv.1, lv.2)) ws1) k) end end.
  rewrite (sets_ok N _ s0 ws1 _ G0 V1 eq_refl). set (s1 := put_locs s0 ws1).
  assert (R1 : same_rest s0 s1) by apply same_rest_locs. assert (G1 : geometry N s1) by (by eapply same_rest_geo).
  assert (T1 : totalDataBlocks s1 = total) by (by rewrite (same_rest_total s0)).
  destruct (link_free_ok N (Z.to_nat (total - 2)) 1 s1 G1 ltac:(lia) ltac:(rewrite T1; lia)) as (s2 & E2 & R2 & Hrd2).
  rewrite (bind_ok _ _ _ _ _ E2), bind_get. assert (R02 : same_rest s0 s2) by exact (same_rest_trans _ _ _ R1 R2).
  assert (G2 : geometry N s2) by (by eapply same_rest_geo).
  assert (T2 : totalDataBlocks s2 = total) by (by rewrite (same_rest_total s0)).
  rewrite (bind_ok _ _ _ _ _ (set_at N s2 _ (LBlk (total - 1) 0) 0xffffffff G2 ltac:(cbn; lia) (block_addr s2 (total - 1)))).
  set (s3 := wrt s2 (LBlk (total - 1) 0) 0xffffffff). erewrite (bind_ok now _ s3) by done.
  set (t := clock (ticks s3)). set (s4 := set_ticks s3 (S (ticks s3))).
  assert (G4 : geometry N s4) by (apply (same_mem_geo N s3); [apply same_mem_ticks | by apply geometry_sab]).
  pose proof (root_valid N s4 t ltac:(lia)) as V4. cbn zeta. set (r := inodeTableOffset s2).
  assert (Ea : forall k, addr s4 (LIno 0 k) = r + 4 * k).
  { intros k. cbn [addr]. unfold inodeOffset. change (inodeTableOffset s4) with r. lia. }
  exists (put_locs s4 (root_words t)). split; [|split].
  - change (put_locs s4 (root_words t)) with (wrt (put_locs s4 (take 8 (root_words t))) (LIno 0 8) t).
    set (s5 := put_locs s4 (take 8 (root_words t))). assert (R5 : same_rest s4 s5) by apply same_rest_locs.
    rewrite <- (setUint32_wrt N s5 (LIno 0 8) t) by ((by eapply same_rest_geo) || (cbn; lia)).
    rewrite (same_rest_addr s4 s5) by done. unfold s5. 
    rewrite <- (sets_ok N (setUint32 (addr s4 (LIno 0 8)) t) s4 (take 8 (root_words t))
      (map (fun lv => (addr s4 lv.1, lv.2)) (take 8 (root_words t))) G4); [|by apply Forall_take | reflexivity].
    cbn [take root_words map fst snd]. rewrite !Ea. reflexivity.
  - assert (Hv : forall l, valid N s0 l -> valid N s4 l /\ valid N s2 l /\ valid N s1 l).
    { intros l V. split; [|split]; [change (valid N s2 l)|..]; by apply (same_rest_valid N s0). }
    assert (Hrd : forall l, valid N s0 l -> rd (put_locs s4 (root_words t)) l =
      last_loc (root_words t) l (if decide (LBlk (total - 1) 0 = l) then NIL else
        match l with
        | LBlk b k => if (k =? 0) && (1 <=? b) && (b <? 1 + Z.of_nat (Z.to_nat (total - 2))) then b + 1 else last_loc ws1 l 0
        | _ => last_loc ws1 l 0
        end)).
    { intros l V. destruct (Hv l V) as (V4' & V2 & V1'). rewrite (rd_locs N) by done.
      rewrite (same_mem_rd s3 s4) by apply same_mem_ticks. unfold s3. rewrite (rd_wrt N); [|done | cbn; lia | done].
      rewrite Hrd2 by done. unfold s1. rewrite (rd_locs N) by done.
      assert (E0 : rd s0 l = 0) by apply rd_zeros. by rewrite E0. }
    assert (T6 : totalDataBlocks (put_locs s4 (root_words t)) = total).
    { by rewrite (same_rest_total s4) by apply same_rest_locs. }
    constructor.
    + eapply same_rest_geo; [apply same_rest_locs | done].
    + rewrite Hrd by done. cbn -[uint]. apply uint_small. lia.
    + by rewrite Hrd by done.
    + by rewrite Hrd by done.
    + rewrite T6. intros b Hb. rewrite Hrd by (cbn; change (totalDataBlocks s0) with total; lia).
      rewrite last_loc_other by (repeat constructor; done). rewrite decide_False by (intros [=]; lia).
      by rewrite Z.eqb_refl, (proj2 (Z.leb_le _ _)), (proj2 (Z.ltb_lt _ _)) by lia.
    + rewrite T6. rewrite Hrd by (cbn; change (totalDataBlocks s0) with total; lia).
      rewrite last_loc_other by (repeat constructor; done). by rewrite decide_True.
    + by rewrite Hrd by (cbn; lia).
    + unfold file_size. by rewrite !Hrd by (cbn; lia).
    + intros i k Hin Hk. rewrite Hrd by (cbn; lia). 
      rewrite (last_loc_other (root_words t)) by (repeat constructor; cbn; intros [=]; lia).
      rewrite decide_False by done. apply last_loc_other. repeat constructor; done.
  - eapply shape_trans; [apply shape_rest, R02|]. eapply shape_trans; [apply shape_rest, (same_rest_wrt s2 (LBlk (total - 1) 0) 0xffffffff)|].
    eapply shape_trans; [apply (shape_ticks s3) | apply shape_rest, same_rest_locs].
Qed.

(** A new file system is good. *)
Lemma init_good sizeBytes inodeCount s :
  init_ok sizeBytes inodeCount -> unused_module s ->
  exists s', init sizeBytes inodeCount s = Some (tt, s') /\ good (inodes_of sizeBytes inodeCount) s'.
Proof using.
  intros Hok [Ef Ec]. destruct (init_words sizeBytes inodeCount s Hok) as (s' & E & W & Sh). exists s'. split; [done|].
  apply fresh_words_good; [done | |].
  - rewrite (sh_fds _ _ Sh). apply Ef.
  - rewrite (sh_cache _ _ Sh). apply Ec.
Qed.

End Init.
