(* ===== verification/SabMain.v ===== *)
(** * SABFS: the module as a whole

    The calls of the public functions as one type, the states that they reach
    from init, and what holds in all of them. *)

From Stdlib Require Import ZArith Lia Bool.
From stdpp Require Import base numbers functions list option gmap.
From S2P Require Import Prelude.
From S2P Require Import Bytes.
From S2P Require Import SabFs.
From S2P Require Import SabApi.
From S2P Require Import SabInv.
From S2P Require Import SabTree.
From S2P Require Import SabFile.
From S2P Require Import SabRw.
From S2P Require Import SabMeta.
From S2P Require Import SabFrame.
From S2P Require Import SabDir.
From S2P Require Import SabEntry.
From S2P Require Import SabGood.
From S2P Require Import SabSafe.
From S2P Require Import SabOps.
From S2P Require Import SabIo.
From S2P Require Import SabInit.

Local Open Scope Z_scope.

(** ** Calls *)

Inductive call :=
| Stat (path : str) | Lstat (path : str) | Open (path : str) (flags m : Z) | Close (fd : Z)
| Read (fd size count : Z) | Write (fd : Z) (buffer : list Z) (count : Z)
| Pread (fd size count offset : Z) | Pwrite (fd : Z) (buffer : list Z) (count offset : Z)
| Lseek (fd offset whence : Z) | Truncate (path : str) (length : Z) | Readdir (path : str)
| Mkdir (path : str) (m : Z) | Rmdir (path : str) | Unlink (path : str) | Symlink (target path : str)
| Readlink (path : str) | Link (oldPath newPath : str) | Rename (oldPath newPath : str)
| Chmod (path : str) (m : Z) | Chown (path : str) (u g : Z) | Utimes (path : str) (a m : Z) | Statfs
| ImportFile (path : str) (data : list Z) (m : Z) | ExportFile (path : str) | ClearCache.

Inductive answer :=
| ANum (r : Z) | ABool (b : bool) | AInode (r : option (Z * inode)) | ABytes (r : option (list Z))
| AName (r : option str) | AEntries (r : option (list dirent)) | AFs (r : statfs_result) | ANone.

Definition answer_with {A} (f : A -> answer) (m : M A) : M answer := bind m (fun a => ret (f a)).

Section Main.
Context `{B : Browser}.

Definition perform (c : call) : M answer :=
  match c with
  | Stat p => answer_with AInode (stat p)
  | Lstat p => answer_with AInode (lstat p)
  | Open p flags m => answer_with ANum (open p flags m)
  | Close fd => answer_with ANum (close fd)
  | Read fd size n => answer_with ABytes (read fd size n)
  | Write fd b n => answer_with ANum (write fd b n)
  | Pread fd size n o => answer_with ABytes (pread fd size n o)
  | Pwrite fd b n o => answer_with ANum (pwrite fd b n o)
  | Lseek fd o w => answer_with ANum (lseek fd o w)
  | Truncate p n => answer_with ANum (truncate p n)
  | Readdir p => answer_with AEntries (readdir p)
  | Mkdir p m => answer_with ANum (mkdir p m)
  | Rmdir p => answer_with ANum (rmdir p)
  | Unlink p => answer_with ANum (unlink p)
  | Symlink t p => answer_with ANum (symlink t p)
  | Readlink p => answer_with AName (readlink p)
  | Link p q => answer_with ANum (link p q)
  | Rename p q => answer_with ANum (rename p q)
  | Chmod p m => answer_with ANum (chmod p m)
  | Chown p u g => answer_with ANum (chown p u g)
  | Utimes p a m => answer_with ANum (utimes p a m)
  | Statfs => answer_with AFs statfs
  | ImportFile p d m => answer_with ABool (importFile p d m)
  | ExportFile p => answer_with ABytes (exportFile p)
  | ClearCache => answer_with (fun _ => ANone) clearCache
  end.

(** Calls that do not ask for more than the block map of a file can hold, for
    more than their buffer holds, nor for a negative offset. *)
Definition sensible (s : fs) (c : call) : Prop :=
  match c with
  | Write fd b n => write_fits s fd b n
  | Pwrite fd b n o => pwrite_fits s fd b n o
  | Read fd size n => read_fits s fd size n
  | Pread fd size n o => pread_fits s fd size n o
  | Truncate _ n => 0 <= n <= MAX_SIZE
  | Symlink t _ => Z.of_nat (length (encode t)) <= MAX_SIZE
  | ImportFile _ d _ => Z.of_nat (length d) <= MAX_SIZE
  | _ => True
  end.

Lemma perform_safe N s c : good N s -> sensible s c -> safe N (perform c) s (fun _ _ => True).
Proof using.
  intros G Hs.
  assert (Hret : forall A (f : A -> answer) (m : M A) Q, safe N m s Q -> safe N (answer_with f m) s (fun _ _ => True)).
  { intros A f m Q H. eapply safe_bind; [exact H|]. intros. by apply safe_ret. }
  destruct c; cbn [perform sensible] in *; eapply Hret;
    eauto using safe_stat, safe_lstat, safe_open, safe_close, safe_read, safe_write, safe_pread, safe_pwrite, safe_lseek,
      safe_truncate, safe_readdir, safe_mkdir, safe_rmdir, safe_unlink, safe_symlink, safe_readlink, safe_link, safe_rename,
      safe_chmod, safe_chown, safe_utimes, safe_statfs, safe_importFile, safe_exportFile, safe_clearCache.
Qed.

(** States of a module that was initialised with these parameters. *)
Inductive reachable (sizeBytes inodeCount : Z) : fs -> Prop :=
| reach_init s s' : unused_module s -> init sizeBytes inodeCount s = Some (tt, s') -> reachable sizeBytes inodeCount s'
| reach_call s s' c r :
    reachable sizeBytes inodeCount s -> sensible s c -> perform c s = Some (r, s') -> reachable sizeBytes inodeCount s'.

Lemma reachable_is_good sizeBytes inodeCount s :
  init_ok sizeBytes inodeCount -> reachable sizeBytes inodeCount s -> good (inodes_of sizeBytes inodeCount) s.
Proof using.
  intros Hok. induction 1 as [s s' Hu E | s s' c r _ IH Hs E].
  - destruct (init_good sizeBytes inodeCount s Hok Hu) as (s1 & E1 & G). rewrite E in E1. by injection E1 as <-.
  - destruct (perform_safe _ s c IH Hs) as (r1 & s1 & E1 & G & _). rewrite E in E1. by injection E1 as <- <-.
Qed.

Lemma reachable_step sizeBytes inodeCount s c :
  init_ok sizeBytes inodeCount -> reachable sizeBytes inodeCount s -> sensible s c ->
  exists s', reachable sizeBytes inodeCount s'  /\ exists r, perform c s = Some (r, s').
Proof using.
  intros Hok Hr Hs. destruct (perform_safe _ s c (reachable_is_good _ _ s Hok Hr) Hs) as (r & s' & E & _).
  exists s'. split; [by eapply reach_call | by exists r].
Qed.

(** C8: in every state that [sensible] calls of the public functions of the
    file system reach from init, each block belongs to at most one place of one file or
    to the free list, the free list is a list without repetition, all block
    pointers lie inside the data area, directory entries, open files and
    cached paths name allocated inodes, and no further sensible call throws an
    exception: it returns an answer.  A call is sensible when it does not write,
    truncate or link past the block map of a file ([MAX_SIZE]), does not read
    or write at a negative offset, and gives a buffer that holds what is read
    or written; the code checks none of this. *)
Theorem sabfs_invariant sizeBytes inodeCount s :
  init_ok sizeBytes inodeCount -> reachable sizeBytes inodeCount s ->
  let N := inodes_of sizeBytes inodeCount in
  good N s /\
  (forall ino fb ino' fb', in_use s ino -> in_use s ino' -> 0 <= fb < MAX_FILE_BLOCKS -> 0 <= fb' < MAX_FILE_BLOCKS ->
     map_block s ino fb <> 0 -> map_block s ino fb = map_block s ino' fb' -> ino = ino' /\ fb = fb') /\
  (exists fl, chain s (rd s SbFree) fl /\ NoDup fl /\
     forall ino fb, in_use s ino -> 0 <= fb < MAX_FILE_BLOCKS -> map_block s ino fb ∉ fl) /\
  forall c, sensible s c -> exists r s', perform c s = Some (r, s').
Proof using.
  intros Hok Hr N. pose proof (reachable_is_good _ _ s Hok Hr) as G. fold N in G. split; [done|].
  destruct (g_inv N s G) as (ow & fl & Hi). split; [|split].
  - intros ino fb ino' fb' Hu Hu' Hfb Hfb' Hnz E. eapply (map_block_inj N ow fl); eauto using good_bound.
  - exists fl. split; [apply Hi|]. split; [apply Hi|]. intros ino fb Hu Hfb Hin.
    destruct (inv_free _ _ _ _ Hi _ Hin) as [Hb Ho].
    destruct (map_block_owner N ow fl s Hi ino fb (good_bound N s ino G Hu) Hfb) as [|[_ Ho']]; [lia | congruence].
  - intros c Hs. destruct (perform_safe N s c G Hs) as (r & s' & E & _). eauto.
Qed.

End Main.

(** ** A browser for examples *)

(** Names are ASCII, so a code unit is a byte; the clock counts. *)
#[global] Instance ascii_browser : Browser := {| encode := fun s => s; decode := fun l => l; clock := Z.of_nat |}.

Definition blank : fs :=
  {| sab := fun _ => 0; byteLength := 0; inodeTableOffset := 0; dataBlocksOffset := 0; totalDataBlocks := 0;
     fdTable := ∅; nextFd := 3; pathCache := ∅; ticks := 0 |}.

Lemma blank_unused : unused_module blank.
Proof. by constructor. Qed.

Lemma small_init_ok : init_ok 65536 0.
Proof. split; vm_compute; (split; (done || (intros; discriminate))). Qed.

(** A directory is made, a file imported into it and moved out. *)
Lemma sabfs_invariant_witness :
  init_ok 65536 0 /\
  exists s, reachable 65536 0 s /\ good 4 s /\
    (forall c, sensible s c -> exists r s', perform c s = Some (r, s')).
Proof.
  split; [apply small_init_ok|]. pose proof small_init_ok as Hok.
  destruct (init_good 65536 0 blank Hok blank_unused) as (s0 & E0 & _).
  pose proof (reach_init 65536 0 blank s0 blank_unused E0) as R0.
  destruct (reachable_step 65536 0 s0 (Mkdir [47; 97] 0x1ff) Hok R0 I) as (s1 & R1 & _).
  destruct (reachable_step 65536 0 s1 (ImportFile [47; 97; 47; 98] [1; 2; 3] 0x1a4) Hok R1) as (s2 & R2 & _);
    [unfold sensible, MAX_SIZE, MAX_FILE_BLOCKS; cbn; lia|].
  destruct (reachable_step 65536 0 s2 (Rename [47; 97; 47; 98] [47; 99]) Hok R2 I) as (s3 & R3 & _).
  destruct (sabfs_invariant 65536 0 s3 Hok R3) as (G & _ & _ & Hc). exists s3. split; [done|]. split; [exact G | exact Hc].
Defined.

(** An empty file is open for reading and writing. *)
Definition sample_fs : fs :=
  match init 65536 0 blank with
  | Some (_, s0) => match perform (Open [47; 102] (Z.lor O_CREAT O_RDWR) 0x1a4) s0 with Some (_, s1) => s1 | None => s0 end
  | None => blank
  end.

Definition sample_file : file := {| f_ino := 1; f_path := [47; 102]; f_flags := Z.lor O_CREAT O_RDWR; f_pos := 0 |}.

Lemma sample_reachable : reachable 65536 0 sample_fs.
Proof.
  pose proof small_init_ok as Hok. destruct (init_good 65536 0 blank Hok blank_unused) as (s0 & E0 & _).
  pose proof (reach_init 65536 0 blank s0 blank_unused E0) as R0.
  destruct (reachable_step 65536 0 s0 (Open [47; 102] (Z.lor O_CREAT O_RDWR) 0x1a4) Hok R0 I) as (s1 & R1 & r & E1).
  unfold sample_fs. by rewrite E0, E1.
Qed.

Lemma sample_good : good 4 sample_fs.
Proof. apply (reachable_is_good 65536 0 sample_fs small_init_ok sample_reachable). Qed.

Lemma sample_open : fdTable sample_fs !! 3 = Some sample_file.
Proof. vm_compute. reflexivity. Qed.

Lemma sample_empty : file_size sample_fs 1 = 0.
Proof. vm_compute. reflexivity. Qed.
