(* ===== verification/SabSpec.v ===== *)
(** * SABFS: files are arrays of bytes

    [contents] is a file as a list of bytes.  read returns a part of it, write
    replaces a part of it and leaves all other files alone, and pread reads
    what pwrite wrote. *)

From Stdlib Require Import ZArith Lia Bool.
From stdpp Require Import base numbers functions list option gmap.
From S2P Require Import Prelude.
From S2P Require Import Bytes.
From S2P Require Import SabFs.
From S2P Require Import SabApi.
From S2P Require Import SabInv.
From S2P Require Import SabTree.
From S2P Require Import SabFile.
From S2P Require Import SabRw.
From S2P Require Import SabMeta.
From S2P Require Import SabFrame.
From S2P Require Import SabDir.
From S2P Require Import SabEntry.
From S2P Require Import SabGood.
From S2P Require Import SabSafe.
From S2P Require Import SabOps.
From S2P Require Import SabIo.
From S2P Require Import SabInit.
From S2P Require Import SabMain.

Local Open Scope Z_scope.

Definition contents (s : fs) (ino : Z) : list Z := fbytes s ino 0 (Z.to_nat (file_size s ino)).

(** The bytes [d] written at [pos]. *)
Definition overwrite (c : list Z) (pos : nat) (d : list Z) : list Z := take pos c ++ d ++ drop (pos + length d) c.

Section Spec.
Context `{B : Browser} (N : Z).

Lemma lookup_fbytes s ino p n i : fbytes s ino p n !! i = if decide (i < n)%nat then Some (fbyte s ino (p + Z.of_nat i)) else None.
Proof using.
  unfold fbytes. rewrite list_lookup_fmap. case_decide; [by rewrite lookup_seq_lt|].
  by rewrite lookup_seq_ge by lia.
Qed.

Lemma lookup_overwrite c pos d i :
  (pos <= length c)%nat ->
  overwrite c pos d !! i = if decide (pos <= i < pos + length d)%nat then d !! (i - pos)%nat else c !! i.
Proof using.
  intros Hp. unfold overwrite. destruct (decide (i < pos)%nat) as [H1 | H1].
  - rewrite lookup_app_l by (rewrite length_take; lia). rewrite lookup_take_lt by lia. by rewrite decide_False by lia.
  - rewrite lookup_app_r by (rewrite length_take; lia). rewrite length_take, Nat.min_l by lia.
    destruct (decide (i < pos + length d)%nat) as [H2 | H2].
    + rewrite lookup_app_l by lia. by rewrite decide_True by lia.
    + rewrite lookup_app_r by lia. rewrite decide_False by lia. rewrite lookup_drop. f_equal. lia.
Qed.

(** ** What the calls do *)

(** After [now] and writeInode with times only. *)
Lemma put_times s ino ws :
  good N s -> in_use s ino -> Forall (fun kv => 6 <= kv.1 < 9) ws ->
  let s' := put_words s ino ws in
  (forall i, 0 <= i < N -> file_size s' i = file_size s i) /\
  (forall i p, 0 <= i < N -> file_pos p -> fbyte s' i p = fbyte s i p) /\ shape s s'.
Proof using.
  intros G Hu Hws s'. pose proof (good_bound N s ino G Hu) as Hino. destruct (g_inv N s G) as (ow & fl & Hi).
  assert (Hm : meta_words ino ws).
  { eapply Forall_impl; [exact Hws|]. cbn. intros kv Hk. split; [lia|]. apply attr_child. unfold is_attr. lia. }
  destruct (put_meta N ow fl s ino ws Hi Hino Hm) as [_ Hb].
  destruct (put_elsewhere N ow fl s ino ws Hi Hino (meta_harmless ino ws Hm)) as [_ El]. split; [|split; [done | apply El]].
  intros i Hii. destruct (decide (i = ino)) as [-> | Hne]; [|by eapply elsewhere_size].
  unfold file_size, s'. rewrite !(rd_put N) by (apply Hi || done || (eapply Forall_impl; [exact Hm | by intros kv []]) || (cbn; lia)).
  rewrite Z.eqb_refl, !last_word_None; [done|..]; (eapply Forall_impl; [exact Hws|]; cbn; intros; lia).
Qed.

Lemma read_ok s fd f bsize count :
  good N s -> fdTable s !! fd = Some f -> 0 <= count -> read_fits s fd bsize count ->
  let size := file_size s (f_ino f) in
  let n := Z.max 0 (Z.min count (size - f_pos f)) in
  exists s', read fd bsize count s = Some (Some (fbytes s (f_ino f) (f_pos f) (Z.to_nat n)), s') /\ good N s' /\ ext s s' /\
    (forall i, 0 <= i < N -> file_size s' i = file_size s i) /\
    (forall i p, 0 <= i < N -> file_pos p -> fbyte s' i p = fbyte s i p) /\
    fdTable s' = <[fd := at_pos f (f_pos f + n)]> (fdTable s).
Proof using.
  intros G Ef Hc Hfit size n. destruct (safe_read N s fd bsize count G Hfit) as (r & s' & E & G' & X & _).
  enough (H : exists s1, read fd bsize count s = Some (Some (fbytes s (f_ino f) (f_pos f) (Z.to_nat n)), s1) /\
    (forall i, 0 <= i < N -> file_size s1 i = file_size s i) /\
    (forall i p, 0 <= i < N -> file_pos p -> fbyte s1 i p = fbyte s i p) /\
    fdTable s1 = <[fd := at_pos f (f_pos f + n)]> (fdTable s)).
  { destruct H as (s1 & E1 & H). rewrite E in E1. injection E1 as -> ->. by exists s1. }
  clear r s' E G' X. specialize (Hfit f Ef). fold size in Hfit. destruct (g_fds N s G fd f Ef) as [Hu Hd Hp]. pose proof (good_bound N s _ G Hu) as Hb.
  pose proof (g_size N s G _ Hu) as Hz. destruct (g_inv N s G) as (ow & fl & Hi). unfold read. rewrite bind_get, Ef.
  rewrite (bind_ok _ _ _ _ _ (readInode_ok N s _ (good_geo N s G) Hb)).
  change (isize (inode_at s (f_ino f))) with size. rewrite Z.geb_leb. fold size in Hz.
  destruct (Z.leb_spec size (f_pos f)) as [Hge | Hlt].
  { exists s. replace n with 0 by lia. split_and!; [done | done | done|]. rewrite insert_id; [done|]. rewrite Ef. f_equal.
    destruct f. unfold at_pos. cbn. f_equal. lia. }
  set (m := Z.min count (size - f_pos f)) in *. assert (En : n = m) by (unfold n; lia). rewrite En.
  erewrite bind_ok by (apply (read_loop_ok N ow fl); [done | lia | done | done | unfold MAX_SIZE in Hz; lia | lia | unfold loops; lia |
    intros; apply loops_enough; lia]).
  rewrite Z.add_0_r, Z.sub_0_r, Z.max_r by lia. set (s1 := set_fds s (<[fd := at_pos f (f_pos f + m)]> (fdTable s)) (nextFd s)).
  rewrite (bind_ok _ _ s tt s1) by (unfold set_pos; by rewrite Ef). erewrite (bind_ok now _ s1) by done.
  set (s2 := set_ticks s1 (S (ticks s1))).
  assert (Hm2 : same_mem s s2) by done.
  destruct (good_mem N s s2 G Hm2) as [G2 X2].
  { intros fd' f'. cbn. rewrite lookup_insert_Some. intros [[_ <-] | [_ E']]; [|by eapply (g_fds N s G)].
    split; cbn; [done | done | lia]. }
  { apply G. }
  assert (Hu2 : in_use s2 (f_ino f)) by (by eapply ext_in_use).
  rewrite (bind_ok _ _ _ _ _ (writeInode_ok N s2 (f_ino f) _ (good_geo N s2 G2) Hb)).
  destruct (put_times s2 (f_ino f) (props_words [Atime (clock (ticks s1))]) G2 Hu2) as (Hs2 & Hb2 & Sh2); [repeat constructor; cbn; lia|].
  eexists. split; [done|]. split_and!.
  - intros i Hii. rewrite Hs2 by done. by apply same_mem_size.
  - intros i p Hii Hpp. rewrite Hb2 by done. by apply same_mem_byte.
  - by rewrite (sh_fds _ _ Sh2).
Qed.

(** The first [w] bytes of the buffer are at [pos] in the file, and its size
    covers them; nothing else changed. *)
Record stored (s s' : fs) (ino : Z) (buffer : list Z) (pos w : Z) : Prop := {
  sd_bytes : forall i p, 0 <= i < N -> file_pos p ->
    fbyte s' i p = if decide (i = ino /\ pos <= p < pos + w) then nth (Z.to_nat (p - pos)) buffer 0 else fbyte s i p;
  sd_size : file_size s' ino = Z.max (file_size s ino) (pos + w);
  sd_sizes : forall i, 0 <= i < N -> i <> ino -> file_size s' i = file_size s i;
}.

Lemma stored_mem s0 s s' s1 ino buffer pos w :
  same_mem s0 s -> same_mem s' s1 -> stored s s' ino buffer pos w -> stored s0 s1 ino buffer pos w.
Proof using.
  intros Hm Hm' [Hb Hs Hss]. split.
  - intros i p Hi Hp. rewrite (same_mem_byte s' s1), Hb, (same_mem_byte s0 s) by done. done.
  - by rewrite (same_mem_size s' s1), Hs, (same_mem_size s0 s) by done.
  - intros i Hi Hne. by rewrite (same_mem_size s' s1), Hss, (same_mem_size s0 s) by done.
Qed.

(** [n] blocks of the free list [fl] were used at most. *)
Definition used (s' : fs) (fl : list Z) (n : Z) : Prop :=
  exists ow' fl', inv N ow' fl' s' /\ Z.of_nat (length fl) <= n + Z.of_nat (length fl').

(** The words that write leaves in the inode. *)
Lemma put_written s ino t pos :
  good N s -> in_use s ino -> 0 <= pos <= MAX_SIZE ->
  let size := file_size s ino in
  let s' := put_words s ino (props_words (if pos >? size then [Size pos; Mtime t; Ctime t] else [Mtime t; Ctime t])) in
  file_size s' ino = Z.max size pos /\ (forall i, 0 <= i < N -> i <> ino -> file_size s' i = file_size s i) /\
  (forall i p, 0 <= i < N -> file_pos p -> fbyte s' i p = fbyte s i p) /\ shape s s'.
Proof using.
  intros G Hu Hp size s'. unfold s'. pose proof (good_bound N s ino G Hu) as Hino. destruct (g_inv N s G) as (ow & fl & Hi).
  destruct (Z.gtb_spec pos size) as [Hgt | Hle].
  - set (ws := props_words [Size pos; Mtime t; Ctime t]). assert (Hm : meta_words ino ws) by (repeat constructor; cbn; lia).
    destruct (put_meta N ow fl s ino ws Hi Hino Hm) as [_ Hb].
    destruct (put_elsewhere N ow fl s ino ws Hi Hino (meta_harmless ino ws Hm)) as [_ El].
    split_and!; [|intros; by eapply elsewhere_size | done | apply El].
    rewrite Z.max_r by lia. apply (size_put N); [apply Hi | done | repeat constructor; cbn; lia | done | done|].
    unfold MAX_SIZE, MAX_FILE_BLOCKS in Hp. lia.
  - destruct (put_times s ino (props_words [Mtime t; Ctime t]) G Hu) as (Hs & Hb & Sh); [repeat constructor; cbn; lia|].
    split_and!; [rewrite Hs by done; unfold size in *; lia | intros; by apply Hs | done | done].
Qed.

Lemma write_ok ow fl s fd f buffer count :
  good N s -> inv N ow fl s -> fdTable s !! fd = Some f -> write_fits s fd buffer count ->
  let pos := write_pos s f in
  exists w s', write fd buffer count s = Some (w, s') /\ good N s' /\ ext s s' /\ 0 <= w <= count /\
    (w = count \/ Z.of_nat (length fl) < 3 * span pos count 0) /\ stored s s' (f_ino f) buffer pos w /\
    fdTable s' = <[fd := at_pos f (pos + w)]> (fdTable s) /\ used s' fl (if 0 <? count then 3 * span pos count 0 else 0).
Proof using.
  intros G Hi Ef Hfit pos. destruct (safe_write N s fd buffer count G Hfit) as (r & s' & E & G' & X & _).
  enough (H : exists w s1, write fd buffer count s = Some (w, s1) /\ 0 <= w <= count /\
    (w = count \/ Z.of_nat (length fl) < 3 * span pos count 0) /\ stored s s1 (f_ino f) buffer pos w /\
    fdTable s1 = <[fd := at_pos f (pos + w)]> (fdTable s) /\ used s1 fl (if 0 <? count then 3 * span pos count 0 else 0)).
  { destruct H as (w & s1 & E1 & H). rewrite E in E1. injection E1 as -> ->. exists w, s1. by repeat (split; [done|]); apply H. }
  clear r s' E G' X. destruct (g_fds N s G fd f Ef) as [Hu Hd Hp]. destruct (Hfit f Ef) as [Hc Hmax]. fold pos in Hmax.
  pose proof (good_bound N s _ G Hu) as Hb.
  assert (Hp0 : 0 <= pos) by (unfold pos, write_pos; destruct (flag_set _ _); [apply size_nonneg | done]).
  unfold write. rewrite bind_get, Ef. rewrite (bind_ok _ _ s pos s).
  2:{ unfold pos, write_pos. destruct (flag_set _ _); [|done].
      by rewrite (bind_ok _ _ _ _ _ (readInode_ok N s _ (good_geo N s G) Hb)). }
  destruct (write_loop_ok N ow fl s (f_ino f) pos count (loops count) 0 buffer)
    as (w & s1 & ow1 & fl1 & E1 & Hi1 & Mk & Hw & [Hcnt Hused] & W); [done | done | done | done | lia | lia | unfold loops; lia | intros; apply loops_enough; lia|].
  rewrite (bind_ok _ _ _ _ _ E1). exists w. destruct (good_wrote N ow1 fl1 s s1 (f_ino f) pos 0 w buffer G Hi1 Hu Hd Mk W) as [G1 X1].
  destruct Mk as (R1 & Mm & _). assert (Ef1 : fdTable s1 !! fd = Some f) by (rewrite R1; done).
  set (s2 := set_fds s1 (<[fd := at_pos f (pos + w)]> (fdTable s1)) (nextFd s1)).
  rewrite (bind_ok _ _ s1 tt s2) by (unfold set_pos; by rewrite Ef1). set (s3 := set_ticks s2 (S (ticks s2))).
  assert (Hm3 : same_mem s1 s3) by done. assert (Hm2 : same_mem s1 s2) by done.
  destruct (good_mem N s1 s3 G1 Hm3) as [G3 X3].
  { intros fd' f'. cbn. rewrite lookup_insert_Some. intros [[_ <-] | [_ E']]; [|by eapply (g_fds N s1 G1)].
    destruct (g_fds N s1 G1 fd f Ef1). split; cbn; [done | done | lia]. }
  { apply G1. }
  rewrite (bind_ok _ _ _ _ _ (readInode_ok N s2 _ (same_mem_geo N s1 s2 Hm2 (good_geo N s1 G1)) Hb)).
  erewrite (bind_ok now _ s2) by done. fold s3.
  rewrite (bind_ok _ _ _ _ _ (writeInode_ok N s3 (f_ino f) _ (good_geo N s3 G3) Hb)). eexists. split; [done|]. split; [lia|].
  split; [done|]. change (isize (inode_at s2 (f_ino f))) with (file_size s3 (f_ino f)).
  assert (Hu3 : in_use s3 (f_ino f)) by exact (ext_in_use _ _ _ X3 (ext_in_use _ _ _ X1 Hu)).
  destruct (put_written s3 (f_ino f) (clock (ticks s2)) (pos + w) G3 Hu3 ltac:(lia)) as (Sz & Szs & Hby & Sh).
  assert (Es : forall i, 0 <= i < N -> file_size s3 i = file_size s i).
  { intros i Hii. rewrite (same_mem_size s1 s3) by done. unfold file_size. by rewrite !Mm by (done || (cbn; lia)). }
  split; [split|split].
  - intros i p Hii Hpp. rewrite Hby by done. rewrite (same_mem_byte s1 s3), W by done. by rewrite Z.add_0_r.
  - by rewrite Sz, Es.
  - intros i Hii Hne. by rewrite Szs, Es.
  - rewrite (sh_fds _ _ Sh). cbn. by rewrite R1.
  - exists ow1, fl1. split; [|done]. apply put_meta; [by apply (same_mem_inv N ow1 fl1 s1) | done|].
    destruct (_ >? _); repeat constructor; cbn; lia.
Qed.

(** ** Files as lists *)

Lemma length_contents s i : length (contents s i) = Z.to_nat (file_size s i).
Proof using. apply length_fbytes. Qed.

Lemma lookup_contents s ino i :
  contents s ino !! i = if decide (Z.of_nat i < file_size s ino) then Some (fbyte s ino (Z.of_nat i)) else None.
Proof using.
  unfold contents. rewrite lookup_fbytes. pose proof (size_nonneg s ino). repeat case_decide; try done; lia.
Qed.

(** The bytes that a read of [count] bytes at [p] finds. *)
Lemma fbytes_contents s ino p count :
  0 <= p -> 0 <= count ->
  fbytes s ino p (Z.to_nat (Z.max 0 (Z.min count (file_size s ino - p)))) =
    take (Z.to_nat count) (drop (Z.to_nat p) (contents s ino)).
Proof using.
  intros Hp Hc. pose proof (size_nonneg s ino). apply list_eq. intros k. rewrite lookup_fbytes, lookup_take.
  case_decide as Hk.
  - rewrite decide_True by lia. rewrite lookup_drop, lookup_contents, decide_True by lia. f_equal. f_equal. lia.
  - case_decide; [|done]. rewrite lookup_drop, lookup_contents, decide_False by lia. done.
Qed.

Lemma contents_same s s' i :
  good N s -> in_use s i -> file_size s' i = file_size s i -> (forall p, file_pos p -> fbyte s' i p = fbyte s i p) ->
  contents s' i = contents s i.
Proof using.
  intros G Hu Es Eb. apply list_eq. intros k. rewrite !lookup_contents, Es. case_decide; [|done]. f_equal. apply Eb.
  pose proof (g_size N s G i Hu). unfold file_pos, MAX_SIZE in *. lia.
Qed.

Lemma stored_contents s s' ino buffer pos w :
  good N s -> in_use s ino -> stored s s' ino buffer pos w -> 0 <= pos <= file_size s ino ->
  0 <= w <= Z.of_nat (length buffer) -> pos + w <= MAX_SIZE ->
  contents s' ino = overwrite (contents s ino) (Z.to_nat pos) (take (Z.to_nat w) buffer).
Proof using.
  intros G Hu [Hb Hs _] Hp Hw Hmax. pose proof (good_bound N s _ G Hu) as Hino. pose proof (g_size N s G _ Hu) as Hz.
  apply list_eq. intros k. rewrite lookup_overwrite by (rewrite length_contents; lia). rewrite length_take.
  replace (Z.to_nat w `min` length buffer)%nat with (Z.to_nat w) by lia. rewrite !lookup_contents, Hs.
  destruct (decide (Z.to_nat pos <= k < Z.to_nat pos + Z.to_nat w)%nat) as [Hin | Hout].
  - rewrite decide_True by lia. rewrite Hb, decide_True by (done || lia || (unfold file_pos, MAX_SIZE in *; lia)).
    rewrite lookup_take_lt, nth_lookup by lia. replace (Z.to_nat (Z.of_nat k - pos)) with (k - Z.to_nat pos)%nat by lia.
    destruct (lookup_lt_is_Some_2 buffer (k - Z.to_nat pos)) as [x Ex]; [lia|]. by rewrite Ex.
  - destruct (decide (Z.of_nat k < file_size s ino)) as [Hlt | Hge].
    + rewrite decide_True by lia. by rewrite Hb, decide_False by (done || lia || (unfold file_pos, MAX_SIZE in *; lia)).
    + by rewrite decide_False by lia.
Qed.

(** C9: write at a position up to the end of the file replaces the bytes of
    the file there by those of the buffer, appending what goes past the end,
    changes no other file, moves the position by what it reports, and
    reports less than was asked only if fewer than three free blocks per
    block touched were left. *)
Theorem write_overwrites s fd f buffer count :
  good N s -> fdTable s !! fd = Some f -> write_fits s fd buffer count ->
  let pos := write_pos s f in
  pos <= file_size s (f_ino f) ->
  exists w s' st,
    write fd buffer count s = Some (w, s') /\ good N s' /\ 0 <= w <= count /\
    contents s' (f_ino f) = overwrite (contents s (f_ino f)) (Z.to_nat pos) (take (Z.to_nat w) buffer) /\
    (forall i, in_use s i -> i <> f_ino f -> contents s' i = contents s i) /\
    fdTable s' = <[fd := at_pos f (pos + w)]> (fdTable s) /\
    statfs s = Some (st, s) /\ (w = count \/ sf_bfree st < 3 * span pos count 0).
Proof using.
  intros G Ef Hfit pos Hpos. destruct (g_inv N s G) as (ow & fl & Hi). destruct (Hfit f Ef) as [Hc Hmax].
  destruct (g_fds N s G fd f Ef) as [Hu _ Hp].
  destruct (write_ok ow fl s fd f buffer count G Hi Ef Hfit) as (w & s' & E & G' & X & Hw & Hcnt & Wr & Hfd & _). fold pos in Hcnt, Wr, Hmax.
  assert (Hp0 : 0 <= pos) by (unfold pos, write_pos; destruct (flag_set _ _); [apply size_nonneg | done]).
  eexists w, s', _. split; [done|]. split; [done|]. split; [done|]. split; [apply stored_contents; (done || lia)|].
  split; [|split; [exact Hfd|]; split; [by apply (statfs_ok N ow fl) | done]].
  intros i Hui Hne. pose proof (good_bound N s i G Hui). apply contents_same; [done | done | by apply Wr|]. intros p Hpp.
  rewrite (sd_bytes _ _ _ _ _ _ Wr) by done. by rewrite decide_False by tauto.
Qed.

(** C10: read returns the bytes of the file from the position of the
    descriptor on, at most as many as asked for, advances the position by
    their number, and changes the contents of no file; the caller's buffer of
    [size] bytes has to hold the bytes that there are. *)
Theorem read_returns_contents s fd f size count :
  good N s -> fdTable s !! fd = Some f -> 0 <= count -> read_fits s fd size count ->
  let l := take (Z.to_nat count) (drop (Z.to_nat (f_pos f)) (contents s (f_ino f))) in
  exists s',
    read fd size count s = Some (Some l, s') /\ good N s' /\ (forall i, in_use s i -> contents s' i = contents s i) /\
    fdTable s' = <[fd := at_pos f (f_pos f + Z.of_nat (length l))]> (fdTable s).
Proof using.
  intros G Ef Hc Hfit l. destruct (read_ok s fd f size count G Ef Hc Hfit) as (s' & E & G' & _ & Hs & Hb & Hf).
  destruct (g_fds N s G fd f Ef) as [Hu _ Hp]. pose proof (size_nonneg s (f_ino f)).
  set (n := Z.max 0 (Z.min count (file_size s (f_ino f) - f_pos f))) in *.
  assert (El : fbytes s (f_ino f) (f_pos f) (Z.to_nat n) = l) by (by apply fbytes_contents).
  rewrite El in E. exists s'. split; [done|]. split; [done|]. split.
  - intros i Hui. pose proof (good_bound N s i G Hui). apply contents_same; [done | done | by apply Hs|]. intros. by apply Hb.
  - rewrite Hf. do 2 f_equal. rewrite <- El, length_fbytes. lia.
Qed.

Lemma good_at_pos s fd f pos :
  good N s -> fdTable s !! fd = Some f -> 0 <= pos ->
  let s' := set_fds s (<[fd := at_pos f pos]> (fdTable s)) (nextFd s) in
  set_pos fd pos s = Some (tt, s') /\ good N s' /\ fdTable s' !! fd = Some (at_pos f pos).
Proof using.
  intros G Ef Hp s'. destruct (safe_set_pos N s fd pos G Hp) as (a & s1 & E & G1 & _).
  assert (Es : set_pos fd pos s = Some (tt, s')) by (unfold set_pos; by rewrite Ef).
  rewrite Es in E. injection E as <- <-. split; [done|]. split; [done|]. cbn. by rewrite lookup_insert_eq.
Qed.

Lemma at_pos_back f p : at_pos (at_pos f p) (f_pos f) = f.
Proof using. by destruct f. Qed.

Lemma with_pos_ok {A} (err : A) (m : M A) s fd f offset a s2 q :
  good N s -> fdTable s !! fd = Some f -> 0 <= offset ->
  m (set_fds s (<[fd := at_pos f offset]> (fdTable s)) (nextFd s)) = Some (a, s2) -> good N s2 ->
  fdTable s2 !! fd = Some (at_pos f q) ->
  exists s3, with_pos fd offset err m s = Some (a, s3) /\ good N s3 /\ same_mem s2 s3 /\ fdTable s3 !! fd = Some f.
Proof using.
  intros G Ef Ho Em G2 Ef2. unfold with_pos. rewrite bind_get, Ef.
  destruct (good_at_pos s fd f offset G Ef Ho) as (E1 & _ & _). rewrite (bind_ok _ _ _ _ _ E1), (bind_ok _ _ _ _ _ Em).
  destruct (good_at_pos s2 fd _ (f_pos f) G2 Ef2 (fo_pos _ _ (g_fds N s G fd f Ef))) as (E3 & G3 & Ef3).
  rewrite at_pos_back in E3, G3, Ef3. rewrite (bind_ok _ _ _ _ _ E3). eexists. split; [done|]. split; [done|].
  split; [apply same_mem_fds | done].
Qed.

Lemma pwrite_ok ow fl s fd f data offset :
  good N s -> inv N ow fl s -> fdTable s !! fd = Some f -> 0 <= offset ->
  let n := Z.of_nat (length data) in
  let pos := write_pos s (at_pos f offset) in
  pos + n <= MAX_SIZE ->
  exists w s', pwrite fd data n offset s = Some (w, s') /\ good N s' /\ ext s s' /\ fdTable s' !! fd = Some f /\ 0 <= w <= n /\
    (w = n \/ Z.of_nat (length fl) < 3 * span pos n 0) /\ stored s s' (f_ino f) data pos w /\
    used s' fl (if 0 <? n then 3 * span pos n 0 else 0).
Proof using.
  intros G Hi Ef Ho n pos Hmax. destruct (good_at_pos s fd f offset G Ef Ho) as (_ & G1 & Ef1).
  set (s1 := set_fds s _ _) in *. assert (Hm1 : same_mem s s1) by apply same_mem_fds.
  assert (Hi1 : inv N ow fl s1) by (by apply (same_mem_inv N ow fl s)).
  assert (Ep : write_pos s1 (at_pos f offset) = pos) by (by apply same_mem_write_pos).
  assert (Hfit : pwrite_fits s fd data n offset).
  { split; [done|]. intros f' E. rewrite Ef in E. injection E as <-. fold pos. lia. }
  destruct (safe_pwrite N s fd data n offset G Hfit) as (a & s' & E & _ & X & _).
  destruct (write_ok ow fl s1 fd (at_pos f offset) data n G1 Hi1 Ef1) as (w & s2 & E2 & G2 & _ & Hw & Hcnt & Wr & Hfd & Hus).
  { intros f' E'. rewrite Ef1 in E'. injection E' as <-. rewrite Ep. lia. }
  rewrite Ep in Hcnt, Wr, Hfd, Hus.
  destruct (with_pos_ok (-1) (write fd data n) s fd f offset w s2 (pos + w) G Ef Ho E2 G2) as (s3 & E3 & G3 & Hm3 & Ef3).
  { rewrite Hfd. by rewrite lookup_insert_eq. }
  unfold pwrite in E. rewrite E3 in E. injection E as <- <-.
  exists w, s3. split; [done|]. split; [done|]. split; [done|]. split; [done|]. split; [done|]. split; [done|].
  split; [by eapply stored_mem|]. destruct Hus as (ow' & fl' & Hi' & Hl). exists ow', fl'.
  split; [by apply (same_mem_inv N ow' fl' s2) | done].
Qed.

Lemma fbytes_mem s s' ino p n : same_mem s s' -> fbytes s' ino p n = fbytes s ino p n.
Proof using.
  intros Hm. apply list_eq. intros k. rewrite !lookup_fbytes. case_decide; [|done]. f_equal. by apply same_mem_byte.
Qed.

Lemma pread_ok s fd f size count offset :
  good N s -> fdTable s !! fd = Some f -> 0 <= count -> pread_fits s fd size count offset ->
  let n := Z.max 0 (Z.min count (file_size s (f_ino f) - offset)) in
  exists s', pread fd size count offset s = Some (Some (fbytes s (f_ino f) offset (Z.to_nat n)), s') /\ good N s' /\
    fdTable s' !! fd = Some f /\ (forall i, 0 <= i < N -> file_size s' i = file_size s i) /\
    (forall i p, 0 <= i < N -> file_pos p -> fbyte s' i p = fbyte s i p).
Proof using.
  intros G Ef Hc [Ho Hfit] n. destruct (good_at_pos s fd f offset G Ef Ho) as (_ & G1 & Ef1).
  set (s1 := set_fds s _ _) in *. assert (Hm1 : same_mem s s1) by apply same_mem_fds.
  assert (Hfit1 : read_fits s1 fd size count).
  { intros f1 E. rewrite Ef1 in E. injection E as <-. cbn [f_ino f_pos at_pos]. rewrite (same_mem_size s s1) by done. by apply Hfit. }
  destruct (read_ok s1 fd (at_pos f offset) size count G1 Ef1 Hc Hfit1) as (s2 & E2 & G2 & _ & Hs2 & Hb2 & Ef2).
  assert (exists q, fdTable s2 !! fd = Some (at_pos f q)) as (q & Efq) by (rewrite Ef2, lookup_insert_eq; by eexists).
  destruct (with_pos_ok None (read fd size count) s fd f offset _ s2 q G Ef Ho E2 G2 Efq) as (s3 & E3 & G3 & Hm3 & Ef3).
  exists s3. split; [|split; [done|]; split; [done|]; split].
  - unfold pread. rewrite E3. cbn [f_ino f_pos at_pos].
    rewrite (fbytes_mem s s1), (same_mem_size s s1) by exact Hm1. reflexivity.
  - intros i Hi. by rewrite (same_mem_size s2 s3), Hs2, (same_mem_size s s1).
  - intros i p Hi Hp. by rewrite (same_mem_byte s2 s3), Hb2, (same_mem_byte s s1).
Qed.

(** The bytes that were written, read back in a state with the same bytes. *)
Lemma stored_read s s' s2 ino buffer pos w n :
  stored s s' ino buffer pos w -> 0 <= ino < N -> 0 <= pos -> w = Z.of_nat (length buffer) -> pos + w <= MAX_SIZE ->
  file_size s2 ino = file_size s' ino -> (forall p, file_pos p -> fbyte s2 ino p = fbyte s' ino p) ->
  n = Z.max 0 (Z.min w (file_size s2 ino - pos)) -> fbytes s2 ino pos (Z.to_nat n) = buffer.
Proof using.
  intros [Hb Hs _] Hi Hp Hw Hmax Es Eb ->. replace (Z.to_nat _) with (length buffer) by lia.
  apply list_eq. intros k. rewrite lookup_fbytes. case_decide; [|by rewrite lookup_ge_None_2 by lia].
  assert (Hf : file_pos (pos + Z.of_nat k)) by (unfold file_pos, MAX_SIZE in *; lia).
  rewrite Eb, Hb by done. rewrite decide_True by (split; [done | lia]). rewrite nth_lookup.
  replace (Z.to_nat (pos + Z.of_nat k - pos)) with k by lia.
  destruct (lookup_lt_is_Some_2 buffer k) as [x Ex]; [done|]. by rewrite Ex.
Qed.

(** C11: pread returns what pwrite wrote.  The data go to the offset, or to the
    end of the file if the descriptor was opened with O_APPEND; reading as many
    bytes from where they went gives them back, whatever was in the file before
    and wherever the offset is, if the file stays within the block map
    ([MAX_SIZE]) and there were three free blocks for every block touched; both
    calls leave the position of the descriptor as it was. *)
Theorem pwrite_pread s fd f data offset st :
  good N s -> fdTable s !! fd = Some f ->
  let n := Z.of_nat (length data) in
  let pos := if flag_set (f_flags f) O_APPEND then file_size s (f_ino f) else offset in
  0 <= offset -> pos + n <= MAX_SIZE -> statfs s = Some (st, s) -> 3 * span pos n 0 <= sf_bfree st ->
  exists s1 s2,
    pwrite fd data n offset s = Some (n, s1) /\ fdTable s1 !! fd = Some f /\
    pread fd n n pos s1 = Some (Some data, s2) /\ fdTable s2 !! fd = Some f.
Proof using.
  intros G Ef n pos Ho Hmax Est Hfree. destruct (g_inv N s G) as (ow & fl & Hi). rewrite (statfs_ok N ow fl) in Est by done.
  injection Est as <-. cbn [sf_bfree] in Hfree. destruct (g_fds N s G fd f Ef) as [Hu _ _]. pose proof (good_bound N s _ G Hu) as Hb.
  assert (Ep : write_pos s (at_pos f offset) = pos) by done.
  assert (Hp : 0 <= pos) by (unfold pos; destruct (flag_set _ _); [apply size_nonneg | done]).
  destruct (pwrite_ok ow fl s fd f data offset G Hi Ef Ho ltac:(by rewrite Ep)) as (w & s1 & E1 & G1 & _ & Ef1 & Hw & Hcnt & Wr & _).
  fold n in E1, Hw, Hcnt. rewrite Ep in Hcnt, Wr. assert (w = n) as -> by lia.
  destruct (pread_ok s1 fd f n n pos G1 Ef1 ltac:(lia)) as (s2 & E2 & _ & Ef2 & _); [by apply fits_pread|].
  exists s1, s2. rewrite (stored_read s s1 s1 (f_ino f) data pos n) in E2 by (done || lia). done.
Qed.

End Spec.

(** ** Examples *)

Lemma sample_fits offset : 0 <= offset <= 4096 -> offset + 3 <= MAX_SIZE.
Proof. unfold MAX_SIZE, MAX_FILE_BLOCKS. lia. Qed.

Lemma write_overwrites_witness :
  write_fits sample_fs 3 [1; 2; 3] 3 /\
  exists w s', write 3 [1; 2; 3] 3 sample_fs = Some (w, s') /\
    contents s' 1 = overwrite (contents sample_fs 1) 0 (take (Z.to_nat w) [1; 2; 3]).
Proof.
  assert (Hf : write_fits sample_fs 3 [1; 2; 3] 3).
  { intros f E. rewrite sample_open in E. injection E as <-. split; [cbn; lia|].
    change (write_pos sample_fs sample_file) with 0. apply (sample_fits 0). lia. }
  split; [exact Hf|].
  destruct (write_overwrites 4 sample_fs 3 sample_file [1; 2; 3] 3 sample_good sample_open Hf)
    as (w & s' & st & E & _ & _ & Hc & _); [change (write_pos sample_fs sample_file) with 0; apply size_nonneg|].
  exists w, s'. split; [exact E | exact Hc].
Defined.

Lemma sample_statfs :
  statfs sample_fs = Some ({| sf_blocks := 14; sf_bfree := 12; sf_files := 4; sf_ffree := 2; sf_namelen := 255 |}, sample_fs).
Proof.
  destruct (g_inv 4 sample_fs sample_good) as (ow & fl & Hi). rewrite (statfs_ok 4 ow fl sample_fs Hi). f_equal. f_equal.
  assert (E : match statfs sample_fs with Some (r, _) => r | None => {| sf_blocks := 0; sf_bfree := 0; sf_files := 0; sf_ffree := 0; sf_namelen := 0 |} end
    = {| sf_blocks := 14; sf_bfree := 12; sf_files := 4; sf_ffree := 2; sf_namelen := 255 |}) by (vm_compute; reflexivity).
  by rewrite (statfs_ok 4 ow fl sample_fs Hi) in E.
Qed.

(** Three bytes across the boundary of two blocks of an empty file. *)
Lemma pwrite_pread_witness :
  exists s1 s2, pwrite 3 [7; 8; 9] 3 4095 sample_fs = Some (3, s1) /\ pread 3 3 3 4095 s1 = Some (Some [7; 8; 9], s2).
Proof.
  destruct (pwrite_pread 4 sample_fs 3 sample_file [7; 8; 9] 4095
    {| sf_blocks := 14; sf_bfree := 12; sf_files := 4; sf_ffree := 2; sf_namelen := 255 |} sample_good sample_open)
    as (s1 & s2 & E1 & _ & E2 & _); [lia | apply (sample_fits 4095); lia | | cbn; vm_compute; discriminate |].
  - apply sample_statfs.
  - exists s1, s2. split; [exact E1 | exact E2].
Defined.

Lemma statfs_bfree `{B : Browser} N ow fl s st :
  inv N ow fl s -> statfs s = Some (st, s) -> sf_bfree st = Z.of_nat (length fl).
Proof. intros Hi. rewrite (statfs_ok N ow fl) by done. by intros [= <-]. Qed.

(** What is read of the bytes that were written into an empty file. *)
Lemma written_contents `{B : Browser} N s s1 ino data :
  good N s -> in_use s ino -> file_size s ino = 0 -> Z.of_nat (length data) <= MAX_SIZE ->
  stored N s s1 ino data 0 (Z.of_nat (length data)) -> contents s1 ino = data.
Proof.
  intros G Hu Hz Hm Wr. rewrite (stored_contents N s s1 ino data 0 (Z.of_nat (length data))) by (done || lia).
  rewrite Nat2Z.id, firstn_all. unfold overwrite. change (Z.to_nat 0) with 0%nat.
  rewrite take_0, (drop_ge (contents s ino)); [by rewrite app_nil_r|]. rewrite length_contents. lia.
Qed.

(** The sample with three bytes in its file. *)
Lemma sample_written :
  exists s1, pwrite 3 [7; 8; 9] 3 0 sample_fs = Some (3, s1) /\ good 4 s1 /\ fdTable s1 !! 3 = Some sample_file /\
    contents s1 1 = [7; 8; 9].
Proof.
  destruct (g_inv 4 sample_fs sample_good) as (ow & fl & Hi).
  pose proof (statfs_bfree 4 ow fl sample_fs _ Hi sample_statfs) as Hfree. cbn [sf_bfree] in Hfree.
  destruct (pwrite_ok 4 ow fl sample_fs 3 sample_file [7; 8; 9] 0 sample_good Hi sample_open ltac:(lia))
    as (w & s1 & E1 & G1 & _ & Ef1 & Hw & Hcnt & Wr & _); [apply (sample_fits 0); lia|].
  change (write_pos sample_fs (at_pos sample_file 0)) with 0 in Hcnt, Wr. change (Z.of_nat (length [7; 8; 9])) with 3 in *.
  assert (w = 3) as ->.
  { destruct Hcnt as [Hcnt | Hcnt]; [done|]. rewrite <- Hfree in Hcnt. change (span 0 3 0) with 1 in Hcnt. lia. }
  exists s1. split; [exact E1|]. split; [exact G1|]. split; [exact Ef1|].
  refine (written_contents 4 sample_fs s1 1 [7; 8; 9] sample_good _ _ _ Wr);
    [exact (fo_ino _ _ (g_fds 4 sample_fs sample_good 3 sample_file sample_open)) | vm_compute; reflexivity
    | apply (sample_fits 0); lia].
Qed.

(** Three bytes are written at the beginning of a file, and the first two are
    read into a buffer of two. *)
Lemma read_returns_contents_witness :
  exists s1 s2, pwrite 3 [7; 8; 9] 3 0 sample_fs = Some (3, s1) /\ good 4 s1 /\
    read 3 2 2 s1 = Some (Some [7; 8], s2) /\ good 4 s2.
Proof.
  destruct sample_written as (s1 & E1 & G1 & Ef1 & Ec).
  destruct (read_returns_contents 4 s1 3 sample_file 2 2 G1 Ef1 ltac:(lia) ltac:(by apply fits_read)) as (s2 & E2 & G2 & _).
  exists s1, s2. split; [exact E1|]. split; [exact G1|]. split; [|exact G2].
  change (f_ino sample_file) with 1 in E2. rewrite Ec in E2. exact E2.
Defined.
