(* ===== verification/SabDirSpec.v ===== *)
(** * SABFS: a directory is a map from names to inodes

    What lookupInDir finds after addDirEntry and removeDirEntry. *)

From Stdlib Require Import ZArith Lia Bool.
From stdpp Require Import base numbers functions list option gmap.
From S2P Require Import Prelude.
From S2P Require Import Bytes.
From S2P Require Import SabFs.
From S2P Require Import SabApi.
From S2P Require Import SabInv.
From S2P Require Import SabTree.
From S2P Require Import SabFile.
From S2P Require Import SabRw.
From S2P Require Import SabMeta.
From S2P Require Import SabFrame.
From S2P Require Import SabDir.
From S2P Require Import SabEntry.
From S2P Require Import SabGood.
From S2P Require Import SabSafe.
From S2P Require Import SabOps.
From S2P Require Import SabIo.
From S2P Require Import SabInit.
From S2P Require Import SabMain.

Local Open Scope Z_scope.

Section DirSpec.
Context `{B : Browser} (N : Z).

(** The inode under a name, -1 for none. *)
Definition named (s : fs) (d : Z) (name : str) : Z :=
  match find_name s d name with Some j => ent_ino s d j | None => -1 end.

Lemma lookup_named s d name :
  good N s -> in_use s d -> is_dir s d = true -> lookupInDir d name s = Some (named s d name, s).
Proof using.
  intros G Hu Hd. destruct (g_inv N s G) as (ow & fl & Hi).
  rewrite (lookupInDir_ok N ow fl (next_ino s)) by (done || (by eapply (good_bound N)) || (intros; by apply (good_dir N))).
  by rewrite Hd.
Qed.

(** Entries that a longer search would see in addition do not match. *)
Lemma scan_extend {A} (g : Z -> option A) n m j :
  (n <= m)%nat -> (forall i, j + Z.of_nat n <= i < j + Z.of_nat m -> g i = None) -> scan g m j = scan g n j.
Proof using.
  intros Hnm Hg. replace m with (n + (m - n))%nat by lia. rewrite scan_app. destruct (scan g n j); [done|].
  apply scan_None. intros i Hi. apply Hg. lia.
Qed.

Definition pick (s : fs) (d : Z) (name : str) (j : Z) : option Z := if ent_match s d name j then Some j else None.

Lemma slots_pos s d i : good N s -> in_use s d -> is_dir s d = true -> 0 <= i < Z.of_nat (slots s d) -> ent_pos i.
Proof using.
  intros G Hu Hd Hi0. destruct (g_inv N s G) as (ow & fl & Hi).
  pose proof (num_blocks_bound N ow fl _ s d Hi (good_bound N s d G Hu) (good_dir N s d G Hu Hd)).
  unfold ent_pos, slots in *. lia.
Qed.

Lemma slots_mono s s' d : file_size s d <= file_size s' d -> (slots s d <= slots s' d)%nat.
Proof using.
  intros Hs. unfold slots. pose proof (num_blocks_mono (file_size s d) (file_size s' d) Hs (size_nonneg s d)). lia.
Qed.

(** The same entries match, except for entry [j]. *)
Lemma match_other s s' d j sz name i :
  good N s -> in_use s d -> is_dir s d = true -> dir_change N s s' d j sz -> ent_pos i -> i <> j ->
  ent_match s' d name i = ent_match s d name i.
Proof using.
  intros G Hu Hd C Hi Hne. unfold ent_match. rewrite (dc_ino N s s' d j sz) by done.
  destruct (Z.eqb_spec (ent_ino s d i) 0) as [|Hnz]; [done|]. cbn [negb andb]. f_equal.
  apply (dc_str N s s' d j sz); [done | done | done|]. by apply (dir_entries _ _ _ (good_dir N s d G Hu Hd) i Hi Hnz).
Qed.

Lemma match_tail s d name i :
  good N s -> in_use s d -> is_dir s d = true -> ent_pos i -> Z.of_nat (slots s d) <= i -> ent_match s d name i = false.
Proof using.
  intros G Hu Hd Hi Hge. unfold ent_match. destruct (g_inv N s G) as (ow & fl & Hv).
  pose proof (num_blocks_bound N ow fl _ s d Hv (good_bound N s d G Hu) (good_dir N s d G Hu Hd)).
  rewrite (dir_tail _ _ _ (good_dir N s d G Hu Hd)); [done | done | unfold slots in Hge; lia].
Qed.

(** A name that entry [j] has neither before nor after is found where it was. *)
Lemma find_other s s' d j sz name :
  good N s -> good N s' -> in_use s d -> in_use s' d -> is_dir s d = true -> is_dir s' d = true ->
  dir_change N s s' d j sz -> file_size s d <= sz ->
  ent_match s d name j = false -> ent_match s' d name j = false ->
  find_name s' d name = find_name s d name.
Proof using.
  intros G G' Hu Hu' Hd Hd' C Hsz Hj Hj'.
  assert (Hm : forall i, ent_pos i -> ent_match s' d name i = ent_match s d name i).
  { intros i Hi. destruct (decide (i = j)) as [-> | Hne]; [congruence | by eapply match_other]. }
  assert (Hsl : (slots s d <= slots s' d)%nat) by (apply slots_mono; by rewrite (dc_size _ _ _ _ _ _ C)).
  unfold find_name. rewrite (scan_extend _ (slots s d)); [|done|].
  - apply scan_ext. intros i Hi. rewrite Hm; [done|]. apply (slots_pos s d); [done | done | done | lia].
  - intros i Hi. assert (ent_pos i) by (apply (slots_pos s' d); [done | done | done | lia]). rewrite Hm by done.
    by rewrite match_tail by (done || lia).
Qed.

Lemma named_other s s' d j sz name :
  good N s -> good N s' -> in_use s d -> in_use s' d -> is_dir s d = true -> is_dir s' d = true ->
  dir_change N s s' d j sz -> file_size s d <= sz ->
  ent_match s d name j = false -> ent_match s' d name j = false -> named s' d name = named s d name.
Proof using.
  intros G G' Hu Hu' Hd Hd' C Hsz Hj Hj'. unfold named. rewrite (find_other s s' d j sz) by done.
  destruct (find_name s d name) as [i|] eqn:E; [|done]. apply (dc_ino N s s' d j sz); [done | |].
  - by destruct (find_name_entry N s d name i G Hu Hd E).
  - intros ->. apply scan_Some in E as (k & _ & E & _). destruct (ent_match s d name k) eqn:Ek; [|done].
    injection E as ->. congruence.
Qed.

(** An unused entry matches nothing. *)
Lemma match_unused s d name j : ent_ino s d j = 0 -> ent_match s d name j = false.
Proof using. intros E. unfold ent_match. by rewrite E. Qed.

(** The first entry of the blocks beyond the size. *)
Lemma tail_entry s d :
  good N s -> in_use s d -> is_dir s d = true ->
  let j := Z.of_nat (slots s d) in ent_pos j /\ ent_ino s d j = 0.
Proof using.
  intros G Hu Hd j. destruct (g_inv N s G) as (ow & fl & Hi).
  pose proof (num_blocks_bound N ow fl _ s d Hi (good_bound N s d G Hu) (good_dir N s d G Hu Hd)).
  assert (Hj : ent_pos j) by (unfold ent_pos, j, slots; lia). split; [done|].
  apply (dir_tail _ _ _ (good_dir N s d G Hu Hd)); [done | unfold j, slots; lia].
Qed.

Lemma scan_hit {A} (g : Z -> option A) n j i : j <= i < j + Z.of_nat n -> g i <> None -> scan g n j <> None.
Proof using. intros Hi Hg E. apply Hg. by apply (proj1 (scan_None g n j) E). Qed.

(** There is an unused entry within reach of addDirEntry. *)
Lemma room s d : good N s -> in_use s d -> is_dir s d = true -> scan (unused s d) (128 + slots s d) 0 <> None.
Proof using.
  intros G Hu Hd. destruct (tail_entry s d G Hu Hd) as [Hj E0]. apply (scan_hit _ _ _ (Z.of_nat (slots s d))); [lia|].
  unfold unused. by rewrite E0.
Qed.

Lemma unnamed s d name i :
  good N s -> in_use s d -> is_dir s d = true -> named s d name = -1 -> ent_pos i -> ent_match s d name i = false.
Proof using.
  intros G Hu Hd Hno Hi. destruct (decide (i < Z.of_nat (slots s d))) as [Hlt|]; [|apply match_tail; (done || lia)].
  unfold named in Hno. destruct (find_name s d name) as [k|] eqn:E.
  { assert (0 <= ent_ino s d k) by apply (load_le_range _ _ 4). lia. }
  unfold find_name in E. rewrite scan_None in E. specialize (E i ltac:(unfold ent_pos in Hi; lia)).
  by destruct (ent_match s d name i).
Qed.

(** The new entry is found, and the others as before. *)
Lemma named_added s s' d j ino type name :
  good N s -> good N s' -> in_use s d -> in_use s' d -> is_dir s d = true -> is_dir s' d = true ->
  new_entry N s s' d j ino type (encode name) -> ent_pos j -> ent_ino s d j = 0 -> ino <> 0 ->
  decode (encode name) = name -> named s d name = -1 ->
  named s' d name = ino /\ forall other, other <> name -> named s' d other = named s d other.
Proof using.
  intros G G' Hu Hu' Hd Hd' [C I _ _ Sn _] Hj E0 Hnz Hdec Hno. rewrite Hdec in Sn. split.
  - assert (Ef : find_name s' d name = Some j); [|unfold named; by rewrite Ef].
    apply scan_Some. exists j. split.
    { pose proof (num_blocks_entry j (file_size s' d) ltac:(unfold ent_pos in Hj; lia)) as Hs.
      rewrite (dc_size _ _ _ _ _ _ C) in Hs. unfold slots. rewrite (dc_size _ _ _ _ _ _ C). unfold ent_pos in Hj. lia. }
    split.
    + unfold ent_match. rewrite I, (proj2 (Z.eqb_neq ino 0)) by done. cbn [negb andb]. unfold str_eqb.
      by rewrite bool_decide_true.
    + intros i Hi. rewrite (match_other s s' d j _ name i G Hu Hd C); [|unfold ent_pos in *; lia | lia].
      rewrite (unnamed s d name i); [done.. | unfold ent_pos in *; lia].
  - intros other Hne. apply (named_other s s' d j _ other G G' Hu Hu' Hd Hd' C); [lia | by apply match_unused|].
    unfold ent_match. rewrite Sn. unfold str_eqb. rewrite bool_decide_false by congruence. apply andb_false_r.
Qed.

(** Nothing in the directory changed. *)
Lemma named_kept s s' d name :
  good N s -> good N s' -> in_use s d -> in_use s' d -> is_dir s d = true -> is_dir s' d = true ->
  keeps N s s' -> named s' d name = named s d name.
Proof using.
  intros G G' Hu Hu' Hd Hd' K. destruct (tail_entry s d G Hu Hd) as [Hj E0]. pose proof (good_bound N s d G Hu) as Hdb.
  apply (named_other s s' d (Z.of_nat (slots s d)) (file_size s d)); try done.
  - by apply keeps_dir_change.
  - by apply match_unused.
  - apply match_unused. by rewrite (keeps_ent_ino N s s').
Qed.

(** C12: addDirEntry either enters the name, after which lookupInDir finds the
    inode under it, or fails because the name has more than 24 bytes or fewer
    than three blocks are free; in both cases every other name is found as
    before.  The name had not been there, and decoding undoes encoding. *)
Theorem add_then_lookup s d name ino type :
  good N s -> in_use s d -> is_dir s d = true -> in_use s ino -> ino <> 0 -> 0 <= type < 2 ^ 16 ->
  decode (encode name) = name -> lookupInDir d name s = Some (-1, s) ->
  exists r s' st,
    addDirEntry d name ino type s = Some (r, s') /\ good N s' /\ statfs s = Some (st, s) /\
    lookupInDir d name s' = Some (if r : bool then ino else -1, s') /\
    (r = false -> 24 < Z.of_nat (length (encode name)) \/ sf_bfree st < 3) /\
    forall other, other <> name -> exists v, lookupInDir d other s = Some (v, s) /\ lookupInDir d other s' = Some (v, s').
Proof using.
  intros G Hu Hd Hin Hnz Hty Hdec Hno. destruct (g_inv N s G) as (ow & fl & Hi). pose proof (good_bound N s d G Hu) as Hdb.
  pose proof (good_bound N s ino G Hin) as Hib. pose proof (good_geo N s G) as Geo. geo Geo.
  destruct (safe_addDirEntry N s d name ino type G Hu Hin Hty) as (r & s' & E & G' & X & _).
  pose proof (ext_in_use s s' d X Hu) as Hu'. pose proof (ext_is_dir s s' d true X Hu Hd) as Hd'.
  destruct (addDirEntry_ok N ow fl (next_ino s) s d name ino type Hi Hdb (good_dir N s d G Hu) ltac:(lia) Hty)
    as (r1 & s1 & ow1 & fl1 & E1 & _ & Hr). rewrite E in E1. injection E1 as <- <-. rewrite Hd in Hr. cbn [andb] in Hr.
  pose proof (num_blocks_bound N ow fl _ s d Hi Hdb (good_dir N s d G Hu Hd)) as Hnb.
  rewrite (lookup_named s d name G Hu Hd) in Hno. injection Hno as Hno.
  pose proof (statfs_ok N ow fl s Hi) as Est. pose proof (fun n => lookup_named s' d n G' Hu' Hd') as L'.
  pose proof (fun n => lookup_named s d n G Hu Hd) as L.
  eexists r, s', _. split; [exact E|]. split; [exact G'|]. split; [exact Est|]. rewrite L'. cbn [sf_bfree]. clear Est.
  destruct r; unfold add_result in Hr.
  - destruct Hr as (j & Ej & Ne). destruct (_ <=? _); [|done]. apply scan_Some in Ej as (j' & Hj & Eu & _).
    unfold unused in Eu. destruct (Z.eqb_spec (ent_ino s d j') 0) as [E0|]; [|done]. injection Eu as ->.
    destruct (named_added s s' d j ino type name) as [-> Ho]; try done; [unfold ent_pos, slots in *; lia|].
    split; [done|]. split; [done|]. intros other Hne. exists (named s d other). by rewrite L, L', Ho.
  - destruct Hr as [K Hwhy]. split; [do 2 f_equal; rewrite <- Hno; by apply named_kept|]. split.
    + intros _. destruct (Z.leb_spec (Z.of_nat (length (encode name))) 24) as [Hle|]; [|by left]. right.
      destruct Hwhy as [En | Hlt]; [by destruct (room s d G Hu Hd) | lia].
    + intros other _. exists (named s d other). rewrite L, L'. split; [done|]. do 2 f_equal. by apply named_kept.
Qed.

(** C13: removeDirEntry returns the inode that lookupInDir finds under the
    name, -1 if there is none; afterwards the name is not found unless it
    had been entered twice, and every other name is found as before. *)
Theorem remove_then_lookup s d name :
  good N s -> in_use s d -> is_dir s d = true ->
  exists v s',
    lookupInDir d name s = Some (v, s) /\ removeDirEntry d name s = Some (v, s') /\ good N s' /\
    ((forall i j, ent_pos i -> ent_pos j -> ent_match s d name i = true -> ent_match s d name j = true -> i = j) ->
       lookupInDir d name s' = Some (-1, s')) /\
    forall other, other <> name -> exists v, lookupInDir d other s = Some (v, s) /\ lookupInDir d other s' = Some (v, s').
Proof using.
  intros G Hu Hd. destruct (g_inv N s G) as (ow & fl & Hi). pose proof (good_bound N s d G Hu) as Hdb.
  destruct (safe_removeDirEntry N s d name G Hu) as (r & s' & E & G' & X & _).
  pose proof (ext_in_use s s' d X Hu) as Hu'. pose proof (ext_is_dir s s' d true X Hu Hd) as Hd'.
  pose proof (removeDirEntry_ok N ow fl (next_ino s) s d name Hi Hdb (good_dir N s d G Hu)) as E1. rewrite Hd, E in E1.
  pose proof (fun n => lookup_named s' d n G' Hu' Hd') as L'. pose proof (fun n => lookup_named s d n G Hu Hd) as L.
  exists (named s d name), s'. split; [exact (L name)|]. rewrite L'. unfold named at 1.
  destruct (find_name s d name) as [j|] eqn:Ef; injection E1 as -> ->.
  2:{ split; [done|]. split; [done|]. split; [intros _; unfold named; by rewrite Ef|]. intros other _. eexists. by rewrite L. }
  split; [done|]. split; [done|]. destruct (find_name_entry N s d name j G Hu Hd Ef) as (Hj & _ & Hnz & Hmp & Hn).
  destruct (removed_ok N ow fl s d j Hi Hdb Hj Hmp) as (_ & C & E0).
  assert (Hmj : ent_match s d name j = true).
  { unfold ent_match. rewrite (proj2 (Z.eqb_neq _ 0)), Hn by done. cbn [negb andb]. unfold str_eqb. by rewrite bool_decide_true. }
  split.
  - intros Huniq. unfold named. replace (find_name (removed s d j) d name) with (@None Z); [done|]. symmetry.
    apply scan_None. intros i Hin. assert (Hip : ent_pos i) by (apply (slots_pos (removed s d j) d); [done | done | done | lia]).
    destruct (decide (i = j)) as [-> | Hne]; [by rewrite match_unused|].
    rewrite (match_other s _ d j _ name i G Hu Hd C) by done.
    destruct (ent_match s d name i) eqn:Em; [|done]. exfalso. by apply Hne, Huniq.
  - intros other Hne. exists (named s d other). rewrite L, L'. split; [done|]. do 2 f_equal.
    apply (named_other s _ d j _ other G G' Hu Hu' Hd Hd' C); [lia | | by apply match_unused].
    unfold ent_match. rewrite Hn. unfold str_eqb. rewrite bool_decide_false by congruence. apply andb_false_r.
Qed.

End DirSpec.

(** ** Examples *)

Lemma sample_uses i : i = 0 \/ i = 1 -> in_use sample_fs i.
Proof.
  assert (E : next_ino sample_fs = 2) by (vm_compute; reflexivity). unfold in_use. rewrite E. lia.
Qed.

Lemma sample_root : is_dir sample_fs 0 = true.
Proof. apply sample_good. Qed.

Lemma sample_named name v : named sample_fs 0 name = v -> lookupInDir 0 name sample_fs = Some (v, sample_fs).
Proof. intros <-. apply (lookup_named 4); [apply sample_good | apply sample_uses; auto | apply sample_root]. Qed.

Lemma answer_eq {A} (a b : A) (s s' : fs) : Some (a, s) = Some (b, s') -> a = b.
Proof. by intros [= -> _]. Qed.

(** A second name for the file of the sample. *)
Lemma add_then_lookup_witness :
  exists r s', addDirEntry 0 [103] 1 DT_REG sample_fs = Some (r, s') /\
    lookupInDir 0 [103] s' = Some (if r : bool then 1 else -1, s').
Proof.
  destruct (add_then_lookup 4 sample_fs 0 [103] 1 DT_REG sample_good (sample_uses 0 ltac:(auto)) sample_root
    (sample_uses 1 ltac:(auto)) ltac:(done) ltac:(unfold DT_REG; lia) eq_refl) as (r & s' & st & E & _ & _ & L & _).
  - apply sample_named. vm_compute. reflexivity.
  - exists r, s'. split; [exact E | exact L].
Defined.

Lemma remove_then_lookup_witness :
  exists s', removeDirEntry 0 [102] sample_fs = Some (1, s') /\ good 4 s'.
Proof.
  destruct (remove_then_lookup 4 sample_fs 0 [102] sample_good (sample_uses 0 ltac:(auto)) sample_root)
    as (v & s' & L & E & G & _).
  assert (Ev : named sample_fs 0 [102] = 1) by (vm_compute; reflexivity).
  rewrite (sample_named [102] 1 Ev) in L. apply answer_eq in L. subst v. exists s'. split; [exact E | exact G].
Defined.
