(* ===== verification/SabRuns.v ===== *)
(** * SABFS: runs that a POSIX file system would not have

    Sequences of calls from a fresh file system, with their answers computed:
    a rename that fails loses the file, a file that is shortened and
    lengthened again shows its old bytes, a path in another spelling outlives
    unlink in the cache, O_EXCL has no effect, a file created through a
    symbolic link that leads nowhere gets the name of the link, and a write
    behind the block map goes to the file that the writer chooses. *)

From Stdlib Require Import ZArith Lia Bool.
From stdpp Require Import base numbers functions list option gmap.
From S2P Require Import Prelude.
From S2P Require Import SabFs.
From S2P Require Import SabApi.
From S2P Require Import SabMain.

Local Open Scope Z_scope.

(** The answers of a sequence of calls; [None] is an exception. *)
Fixpoint answers `{Browser} (cs : list call) (s : fs) : option (list answer) :=
  match cs with
  | [] => Some []
  | c :: cs => match perform c s with Some (r, s') => (cons r) <$> answers cs s' | None => None end
  end.

Definition fresh_answers (cs : list call) : option (list answer) :=
  match init 65536 0 blank with Some (_, s) => answers cs s | None => None end.

(** "/a", "//a" and a name of 25 bytes. *)
Definition path_a : str := [47; 97].
Definition path_a' : str := [47; 47; 97].
Definition long_path : str := 47 :: replicate 25 98.

(** The name has room in MAX_NAME_LEN but not in a directory entry; the root
    is empty afterwards. *)
Lemma rename_loses_file :
  fresh_answers [ImportFile path_a [1; 2; 3] 0x1a4; Rename path_a long_path; Readdir [47]; ClearCache; ExportFile path_a]
    = Some [ABool true; ANum (-1); AEntries (Some []); ANone; ABytes None].
Proof. vm_compute. reflexivity. Qed.

Lemma truncate_keeps_bytes :
  fresh_answers [ImportFile path_a [1; 2; 3] 0x1a4; Truncate path_a 0; ExportFile path_a; Truncate path_a 3; ExportFile path_a]
    = Some [ABool true; ANum 0; ABytes (Some []); ANum 0; ABytes (Some [1; 2; 3])].
Proof. vm_compute. reflexivity. Qed.

Lemma unlinked_path_stays_cached :
  fresh_answers [ImportFile path_a [1; 2; 3] 0x1a4; ExportFile path_a'; Unlink path_a; ExportFile path_a; ExportFile path_a']
    = Some [ABool true; ABytes (Some [1; 2; 3]); ANum 0; ABytes None; ABytes (Some [1; 2; 3])].
Proof. vm_compute. reflexivity. Qed.

Lemma exclusive_create_opens_existing :
  fresh_answers [ImportFile path_a [1; 2; 3] 0x1a4; Open path_a (Z.lor O_CREAT O_EXCL) 0x1a4]
    = Some [ABool true; ANum 4].
Proof. vm_compute. reflexivity. Qed.

(** Two entries with the name of a symbolic link that leads nowhere. *)
Lemma create_through_dangling_link :
  fresh_answers [Symlink [47; 120] path_a; Open path_a O_CREAT 0x1a4; Readdir [47]]
    = Some [ANum 0; ANum 3;
            AEntries (Some [{| d_name := [97]; d_ino := 1; d_type := DT_LNK |}; {| d_name := [97]; d_ino := 2; d_type := DT_REG |}])].
Proof. vm_compute. reflexivity. Qed.

(** The first block behind the direct and the indirect blocks, and the first
    one that the block map has no place for. *)
Definition first_double : Z := (DIRECT_BLOCKS + PTRS_PER_BLOCK) * BLOCK_SIZE.
Definition past_map : Z := (DIRECT_BLOCKS + PTRS_PER_BLOCK + PTRS_PER_BLOCK * PTRS_PER_BLOCK) * BLOCK_SIZE.
Definition path_b : str := [47; 98].

(** No function checks that a position is within the block map: behind it the
    pointers are read from the next blocks, which hold what the writer put
    there, here the number 2 of the block of the other file. *)
Lemma write_past_block_map :
  fresh_answers [ImportFile path_b [1; 2; 3] 0x1a4; Open path_a (Z.lor O_CREAT O_RDWR) 0x1a4;
                 Pwrite 4 [2; 0; 0; 0] 4 first_double; Lseek 4 past_map 0; Write 4 [7; 8; 9] 3; ExportFile path_b]
    = Some [ABool true; ANum 4; ANum 4; ANum past_map; ANum 3; ABytes (Some [7; 8; 9])].
Proof. vm_compute. reflexivity. Qed.

(** A buffer that is too short ends in an exception, unless the file has a hole. *)
Lemma short_buffer_throws :
  fresh_answers [ImportFile path_a [1; 2; 3] 0x1a4; Open path_a O_RDONLY 0x1a4; Read 4 2 3] = None.
Proof. vm_compute. reflexivity. Qed.
