(* ===== verification/NineBackend.v ===== *)
(** * The 9p backend on SABFS (hw/9pfs/9p-sabfs-backend.c)

    The operations of [sabfs_ops], with the JavaScript functions through which
    they call the module.  [host] is what they share: the module, which may
    be missing, the array of directory entries that the bridge keeps in
    globalThis, and errno.  A C string is the list of its bytes.

    [None] is an exception of the module, which none of these functions
    catches.  File offsets reach the module as doubles; they are integers
    here, since the largest file has little more than 2^32 bytes. *)

From Stdlib Require Import ZArith Lia Bool.
From Stdlib Require SpecFloat.
From stdpp Require Import base numbers functions list option gmap.
From S2P Require Import Prelude.
From S2P Require Import SabFs.
From S2P Require Import SabApi.

Local Open Scope Z_scope.

(** ** Computations *)

Definition St (S A : Type) : Type := S -> option (A * S).

Definition cret {S A} (x : A) : St S A := fun s => Some (x, s).
Definition cbind {S A B} (m : St S A) (f : A -> St S B) : St S B :=
  fun s => match m s with Some (x, s') => f x s' | None => None end.

Declare Scope c_scope.
Delimit Scope c_scope with c.
Notation "x <- m ;; k" := (cbind m (fun x => k)) (at level 100, m at next level, right associativity) : c_scope.
Notation "m ;; k" := (cbind m (fun _ => k)) (at level 100, right associativity) : c_scope.
Local Open Scope c_scope.

(** Emscripten's conversion of a C string. *)
Class Emscripten := { UTF8ToString : list Z -> str }.

Inductive error := ENOENT | EBADF | EINVAL | EPERM | ENOTSUP | ENOMEM | EIO.

Record host := {
  js : option fs;
  readdir_entries : option (list dirent);
  errno : option error;
}.

Definition set_js (h : host) (s : fs) : host :=
  {| js := Some s; readdir_entries := readdir_entries h; errno := errno h |}.
Definition set_entries (h : host) (l : list dirent) : host :=
  {| js := js h; readdir_entries := Some l; errno := errno h |}.
Definition set_errno (e : error) : St host unit :=
  fun h => Some (tt, {| js := js h; readdir_entries := readdir_entries h; errno := Some e |}).

(** Calls the module, or returns [undef] when it is not loaded. *)
Definition js_call {A} (undef : A) (m : M A) : St host A :=
  fun h => match js h with
           | None => Some (undef, h)
           | Some s => match m s with Some (a, s') => Some (a, set_js h s') | None => None end
           end.

(** A size_t, or another unsigned int, as an int of C or of JavaScript. *)
Definition as_int (x : Z) : Z := sint 32 x.

(** A call with a typed array of [count] bytes: the size_t reaches JavaScript as
    an int, and an array of negative length throws. *)
Definition js_array {A} (undef : A) (count : Z) (m : Z -> M A) : St host A :=
  js_call undef (if as_int count <? 0 then throw else m (as_int count)).

Lemma as_int_small x : 0 <= x < 2 ^ 31 -> as_int x = x.
Proof. intros Hx. apply sint_small; lia. Qed.

Lemma js_array_small {A} (undef : A) count m :
  0 <= count < 2 ^ 31 -> js_array undef count m = js_call undef (m count).
Proof. intros Hc. unfold js_array. by rewrite as_int_small, (proj2 (Z.ltb_ge count 0)) by lia. Qed.

(** ** Strings *)

Definition PATH_MAX : Z := 4096.

(** snprintf with "%s/%s", and strncpy into an array that was zero. *)
Definition snprintf_path (dir name : list Z) : list Z := take (Z.to_nat (PATH_MAX - 1)) (dir ++ SLASH :: name).
Definition strncpy_path (p : list Z) : list Z := take (Z.to_nat (PATH_MAX - 1)) p.

(** ** JavaScript bindings *)

(** The words that stat and lstat leave in the memory of the caller. *)
Record stat_words := {
  w_mode : Z; w_nlink : Z; w_uid : Z; w_gid : Z; w_size_lo : Z; w_size_hi : Z; w_atime : Z; w_mtime : Z; w_ctime : Z;
  w_ino : Z; w_blocks : Z;
}.

Definition put_stat (st : Z * inode) : stat_words :=
  let '(ino, i) := st in
  {| w_mode := uint 32 (mode i); w_nlink := uint 32 (if nlink i =? 0 then 1 else nlink i); w_uid := uint 32 (uid i);
     w_gid := uint 32 (gid i); w_size_lo := uint 32 (Z.land (isize i) 0xffffffff);
     w_size_hi := uint 32 (isize i / 0x100000000); w_atime := uint 32 (atime i); w_mtime := uint 32 (mtime i);
     w_ctime := uint 32 (ctime i); w_ino := uint 32 ino; w_blocks := uint 32 (iblocks i) |}.

Section Backend.
Context `{B : Browser} `{E : Emscripten}.

Definition sabfs_be_js_stat (path : list Z) : St host (option stat_words) :=
  st <- js_call None (stat (UTF8ToString path)) ;; cret (option_map put_stat st).

Definition sabfs_be_js_lstat (path : list Z) : St host (option stat_words) :=
  st <- js_call None (lstat (UTF8ToString path)) ;; cret (option_map put_stat st).

Definition sabfs_be_js_open (path : list Z) (flags m : Z) : St host Z :=
  js_call (-1) (open (UTF8ToString path) flags m).

Definition sabfs_be_js_close (fd : Z) : St host Z := js_call (-1) (close fd).

(** The bytes that reach the buffer; their number is the result, [None] the
    result -1. *)
Definition sabfs_be_js_pread (fd count offset : Z) : St host (option (list Z)) :=
  js_array None count (fun n => pread fd n n offset).

Definition sabfs_be_js_pwrite (fd : Z) (buf : list Z) (offset : Z) : St host Z :=
  js_array (-1) (Z.of_nat (length buf)) (fun n => pwrite fd buf n offset).

Definition sabfs_be_js_mkdir (path : list Z) (m : Z) : St host Z := js_call (-1) (mkdir (UTF8ToString path) m).
Definition sabfs_be_js_rmdir (path : list Z) : St host Z := js_call (-1) (rmdir (UTF8ToString path)).
Definition sabfs_be_js_unlink (path : list Z) : St host Z := js_call (-1) (unlink (UTF8ToString path)).
Definition sabfs_be_js_rename (oldpath newpath : list Z) : St host Z :=
  js_call (-1) (rename (UTF8ToString oldpath) (UTF8ToString newpath)).
Definition sabfs_be_js_symlink (target linkpath : list Z) : St host Z :=
  js_call (-1) (symlink (UTF8ToString target) (UTF8ToString linkpath)).

(** The bytes of the target, as many as fit; an empty one is an error. *)
Definition sabfs_be_js_readlink (path : list Z) (bufsiz : Z) : St host (option (list Z)) :=
  target <- js_call None (readlink (UTF8ToString path)) ;;
  cret (match target with
        | None | Some [] => None
        | Some t => let bytes := encode t in
                    Some (take (Z.to_nat (Z.min (Z.of_nat (length bytes)) bufsiz)) bytes)
        end).

Definition sabfs_be_js_link (oldpath newpath : list Z) : St host Z :=
  js_call (-1) (link (UTF8ToString oldpath) (UTF8ToString newpath)).
Definition sabfs_be_js_chmod (path : list Z) (m : Z) : St host Z := js_call (-1) (chmod (UTF8ToString path) m).
Definition sabfs_be_js_chown (path : list Z) (u g : Z) : St host Z := js_call (-1) (chown (UTF8ToString path) u g).
Definition sabfs_be_js_truncate (path : list Z) (length : Z) : St host Z :=
  js_call (-1) (truncate (UTF8ToString path) length).

(** The times are rounded down by the module. *)
Definition sabfs_be_js_utimes (path : list Z) (atime mtime : Z) : St host Z :=
  js_call (-1) (utimes (UTF8ToString path) atime mtime).

Definition sabfs_be_js_readdir_count (path : list Z) : St host Z :=
  entries <- js_call None (readdir (UTF8ToString path)) ;;
  match entries with
  | None => cret (-1)
  | Some l => fun h => Some (Z.of_nat (length l), set_entries h l)
  end.

(** The name, the inode and the type; a negative index throws. *)
Definition sabfs_be_js_readdir_entry (idx name_size : Z) : St host (option (list Z * Z * Z)) :=
  fun h =>
    match readdir_entries h with
    | None => Some (None, h)
    | Some l =>
        if idx >=? Z.of_nat (length l) then Some (None, h)
        else if idx <? 0 then None
        else match l !! Z.to_nat idx with
             | None => None
             | Some e =>
                 let nameBytes := encode (d_name e) in
                 let len := Z.min (Z.of_nat (length nameBytes)) (name_size - 1) in
                 Some (Some (take (Z.to_nat len) nameBytes, uint 32 (d_ino e), uint 32 (d_type e)), h)
             end
    end.

Definition sabfs_be_js_statfs : St host (option statfs_result) :=
  js_call None (SabFs.bind statfs (fun r => SabFs.ret (Some r))).

Definition sabfs_be_js_is_available : St host bool := fun h => Some (match js h with Some _ => true | None => false end, h).

(** ** The operations *)

Record SabfsFileState := { fs_fd : Z; fs_path : list Z }.
Record SabfsDirState := { ds_path : list Z; ds_count : Z; ds_pos : Z }.

Record FsCred := { fc_uid : Z; fc_gid : Z; fc_mode : Z }.

Record c_stat := {
  st_mode : Z; st_nlink : Z; st_uid : Z; st_gid : Z; st_size : Z; st_atime : Z; st_mtime : Z; st_ctime : Z;
  st_ino : Z; st_blocks : Z; st_blksize : Z;
}.

Definition fill_stat (w : stat_words) : c_stat :=
  {| st_mode := w_mode w; st_nlink := w_nlink w; st_uid := w_uid w; st_gid := w_gid w;
     st_size := sint 64 (w_size_lo w + Z.shiftl (w_size_hi w) 32); st_atime := w_atime w; st_mtime := w_mtime w;
     st_ctime := w_ctime w; st_ino := w_ino w; st_blocks := w_blocks w; st_blksize := 4096 |}.


(** errno is set and [r] returned. *)
Definition fail {A} (e : error) (r : A) : St host A := set_errno e ;; cret r.

Definition sabfs_init : St host Z :=
  ok <- sabfs_be_js_is_available ;; cret (if ok : bool then 0 else -1).

Definition sabfs_lstat (path : list Z) : St host (option c_stat) :=
  r <- sabfs_be_js_lstat path ;;
  match r with None => fail ENOENT None | Some w => cret (Some (fill_stat w)) end.

Definition sabfs_readlink (path : list Z) (bufsz : Z) : St host (option (list Z)) :=
  r <- sabfs_be_js_readlink path bufsz ;;
  match r with None => fail EINVAL None | Some l => cret (Some l) end.

Definition sabfs_close (fs : option SabfsFileState) : St host (Z * option SabfsFileState) :=
  match fs with
  | Some state => sabfs_be_js_close (fs_fd state) ;; cret (0, None)
  | None => cret (0, None)
  end.

Definition sabfs_closedir (fs : option SabfsDirState) : St host (Z * option SabfsDirState) := cret (0, None).

(** [fs] keeps its value when the call fails. *)
Definition sabfs_open (path : list Z) (flags : Z) (fs : option SabfsFileState) : St host (Z * option SabfsFileState) :=
  fd <- sabfs_be_js_open path flags 0 ;;
  if fd <? 0 then fail ENOENT (-1, fs)
  else cret (0, Some {| fs_fd := fd; fs_path := strncpy_path path |}).

Definition sabfs_opendir (path : list Z) (fs : option SabfsDirState) : St host (Z * option SabfsDirState) :=
  count <- sabfs_be_js_readdir_count path ;;
  if count <? 0 then fail ENOENT (-1, fs)
  else cret (0, Some {| ds_path := strncpy_path path; ds_count := count; ds_pos := 0 |}).

Definition sabfs_rewinddir (fs : option SabfsDirState) : St host (option SabfsDirState) :=
  match fs with
  | None => cret None
  | Some state =>
      count <- sabfs_be_js_readdir_count (ds_path state) ;;
      cret (Some {| ds_path := ds_path state; ds_count := count; ds_pos := 0 |})
  end.

Definition sabfs_telldir (fs : option SabfsDirState) : Z := match fs with Some state => ds_pos state | None => 0 end.

(** sizeof(entry.d_name). *)
Definition D_NAME_SIZE : Z := 256.

Definition sabfs_readdir (fs : option SabfsDirState) : St host (option (list Z * Z * Z) * option SabfsDirState) :=
  match fs with
  | None => cret (None, None)
  | Some state =>
      if ds_pos state >=? ds_count state then cret (None, fs)
      else
        r <- sabfs_be_js_readdir_entry (ds_pos state) D_NAME_SIZE ;;
        match r with
        | None => cret (None, fs)
        | Some e => cret (Some e, Some {| ds_path := ds_path state; ds_count := ds_count state; ds_pos := ds_pos state + 1 |})
        end
  end.

(** The offset becomes an int. *)
Definition sabfs_seekdir (fs : option SabfsDirState) (off : Z) : option SabfsDirState :=
  option_map (fun state => {| ds_path := ds_path state; ds_count := ds_count state; ds_pos := as_int off |}) fs.

(** The buffers of [iov] are given by their lengths; the bytes that reached
    each are returned. *)
Fixpoint preadv_loop (fd offset : Z) (iov : list Z) (total : Z) : St host (Z * list (list Z)) :=
  match iov with
  | [] => cret (total, [])
  | len :: iov =>
      r <- sabfs_be_js_pread fd len (offset + total) ;;
      match r with
      | None => cret (if total =? 0 then -1 else total, [])
      | Some l =>
          let ret := Z.of_nat (length l) in
          if ret =? 0 then cret (total, [])
          else if ret <? len then cret (total + ret, [l])
          else
            rest <- preadv_loop fd offset iov (total + ret) ;;
            cret (rest.1, l :: rest.2)
      end
  end.

Definition sabfs_preadv (fs : option SabfsFileState) (iov : list Z) (offset : Z) : St host (Z * list (list Z)) :=
  match fs with
  | None => fail EBADF (-1, [])
  | Some state => preadv_loop (fs_fd state) offset iov 0
  end.

Fixpoint pwritev_loop (fd offset : Z) (iov : list (list Z)) (total : Z) : St host Z :=
  match iov with
  | [] => cret total
  | buf :: iov =>
      ret <- sabfs_be_js_pwrite fd buf (offset + total) ;;
      if ret <? 0 then cret (if total =? 0 then -1 else total)
      else if ret <? Z.of_nat (length buf) then cret (total + ret)
      else pwritev_loop fd offset iov (total + ret)
  end.

Definition sabfs_pwritev (fs : option SabfsFileState) (iov : list (list Z)) (offset : Z) : St host Z :=
  match fs with
  | None => fail EBADF (-1)
  | Some state => pwritev_loop (fs_fd state) offset iov 0
  end.

Definition sabfs_chmod (path : list Z) (credp : FsCred) : St host Z := sabfs_be_js_chmod path (as_int (fc_mode credp)).

Definition sabfs_mknod (path name : list Z) (credp : FsCred) : St host Z :=
  fd <- sabfs_be_js_open (snprintf_path path name) (Z.lor 0x40 0x200) (as_int (fc_mode credp)) ;;
  if fd <? 0 then fail EPERM (-1) else sabfs_be_js_close fd ;; cret 0.

Definition sabfs_mkdir (path name : list Z) (credp : FsCred) : St host Z :=
  sabfs_be_js_mkdir (snprintf_path path name) (as_int (fc_mode credp)).

Definition stat_path (path : list Z) : St host (option c_stat) :=
  r <- sabfs_be_js_stat path ;;
  match r with None => fail ENOENT None | Some w => cret (Some (fill_stat w)) end.

(** The type of the fid tells which state it has. *)
Definition sabfs_fstat (fid : option SabfsDirState + option SabfsFileState) : St host (option c_stat) :=
  match fid with
  | inl None | inr None => fail EBADF None
  | inl (Some state) => stat_path (ds_path state)
  | inr (Some state) => stat_path (fs_path state)
  end.

Definition sabfs_open2 (dir name : list Z) (flags : Z) (credp : FsCred) (fs : option SabfsFileState) :
  St host (Z * option SabfsFileState) :=
  let path := snprintf_path dir name in
  fd <- sabfs_be_js_open path (Z.lor flags 0x40) (as_int (fc_mode credp)) ;;
  if fd <? 0 then fail ENOENT (-1, fs)
  else cret (0, Some {| fs_fd := fd; fs_path := strncpy_path path |}).

Definition sabfs_symlink (oldpath dir name : list Z) : St host Z := sabfs_be_js_symlink oldpath (snprintf_path dir name).

Definition sabfs_link (oldpath newdir name : list Z) : St host Z := sabfs_be_js_link oldpath (snprintf_path newdir name).

Definition sabfs_truncate (path : list Z) (size : Z) : St host Z := sabfs_be_js_truncate path size.

Definition sabfs_rename (oldpath newpath : list Z) : St host Z := sabfs_be_js_rename oldpath newpath.

Definition sabfs_chown (path : list Z) (credp : FsCred) : St host Z :=
  sabfs_be_js_chown path (as_int (fc_uid credp)) (as_int (fc_gid credp)).

(** tv_sec + tv_nsec / 1e9 in doubles, rounded down. *)
Definition double_of_Z (z : Z) : SpecFloat.spec_float := SpecFloat.binary_normalize 53 1024 z 0 false.

Definition floor_double (f : SpecFloat.spec_float) : Z :=
  match f with
  | SpecFloat.S754_finite s m e =>
      let v := if s : bool then Zneg m else Zpos m in if 0 <=? e then v * 2 ^ e else v / 2 ^ (- e)
  | _ => 0
  end.

Definition seconds (tv_sec tv_nsec : Z) : Z :=
  floor_double
    (SpecFloat.SFadd 53 1024 (double_of_Z tv_sec)
       (SpecFloat.SFdiv 53 1024 (double_of_Z tv_nsec) (double_of_Z 1000000000))).

Definition sabfs_utimensat (path : list Z) (ts0 ts1 : Z * Z) : St host Z :=
  sabfs_be_js_utimes path (seconds ts0.1 ts0.2) (seconds ts1.1 ts1.2).

Definition sabfs_remove (path : list Z) : St host Z :=
  r <- sabfs_be_js_unlink path ;;
  if r =? 0 then cret 0 else sabfs_be_js_rmdir path.

Definition sabfs_fsync : St host Z := cret 0.

Record c_statfs := {
  f_type : Z; f_bsize : Z; f_blocks : Z; f_bfree : Z; f_bavail : Z; f_files : Z; f_ffree : Z; f_namelen : Z;
}.

Definition sabfs_statfs : St host c_statfs :=
  r <- sabfs_be_js_statfs ;;
  let '(bsize, blocks, bfree, files, ffree) :=
    match r with
    | None => (4096, 1024 * 1024, 512 * 1024, 65536, 32768)
    | Some st => (BLOCK_SIZE, uint 32 (sf_blocks st), uint 32 (sf_bfree st), uint 32 (sf_files st), uint 32 (sf_ffree st))
    end in
  cret {| f_type := 0x53414246; f_bsize := bsize; f_blocks := blocks; f_bfree := bfree; f_bavail := bfree;
          f_files := files; f_ffree := ffree; f_namelen := 255 |}.

Definition sabfs_lgetxattr : St host Z := fail ENOTSUP (-1).
Definition sabfs_llistxattr : St host Z := fail ENOTSUP (-1).
Definition sabfs_lsetxattr : St host Z := fail ENOTSUP (-1).
Definition sabfs_lremovexattr : St host Z := fail ENOTSUP (-1).

(** [data] up to its last slash, unless that is at the start. *)
Definition parent_of (data : list Z) : list Z :=
  let p := before_last_slash data in if existsb (Z.eqb SLASH) data && nonempty p then p else [SLASH].

Definition sabfs_name_to_path (dir_path : option (list Z)) (name : list Z) : list Z :=
  match dir_path with
  | Some dir =>
      if str_eqb name [DOT] then dir
      else if str_eqb name [DOT; DOT] then parent_of dir
      else dir ++ SLASH :: name
  | None => name
  end.

Definition sabfs_renameat (olddir old_name newdir new_name : list Z) : St host Z :=
  sabfs_be_js_rename (snprintf_path olddir old_name) (snprintf_path newdir new_name).

Definition sabfs_unlinkat (dir name : list Z) (removedir : bool) : St host Z :=
  let path := snprintf_path dir name in
  if removedir then sabfs_be_js_rmdir path else sabfs_be_js_unlink path.

End Backend.
