(* ===== verification/NineElf.v ===== *)
(** * SABFS for the 9p server (hw/9pfs/9p-sabfs.c)

    Files that the guest executes are cached in the memory of the emulator:
    [elf_cache] has 32 files, [elf_cache_fds] 256 descriptors on them.
    [sabfs_fd_map] sends the descriptors of the 9p server to those of the
    module.  [nine] is the state of the file, [NineBackend.host] the module
    under it.

    [None] is undefined behaviour, an exception of the module (the handlers
    around the calls return -1, with the file system in an unknown state), or
    a loop that did not end.  size_t has 32 bits.  Messages are left out. *)

From Stdlib Require Import ZArith Lia Bool.
From stdpp Require Import base numbers functions list option gmap.
From S2P Require Import Prelude.
From S2P Require Import SabFs.
From S2P Require Import SabApi.
From S2P Require Import NineBackend.

Local Open Scope Z_scope.
Local Open Scope c_scope.

Definition SABFS_PREFIX : list Z := [47; 112; 97; 99; 107].
Definition ELF_CACHE_MAX_FILES : nat := 32.
Definition ELF_CACHE_MAX_FILE_SIZE : Z := 16 * 1024 * 1024.
Definition ELF_CACHE_MAX_FDS : Z := 256.
Definition SABFS_MAX_FDS : Z := 256.
Definition SABFS_FD_BASE : Z := 20000.
Definition ELF_CACHE_FD_BASE : Z := 30000.

(** ** State *)

(** The bytes at [e_data], which is NULL for [None]. *)
Record ElfCacheEntry := {
  e_path : list Z;
  e_data : option (list Z);
  e_size : Z;
  e_mode : Z;
  e_refcount : Z;
  e_active : bool;
}.

Record ElfCacheFd := { cache_idx : nat; c_offset : Z; c_active : bool }.

Record nine := {
  base : host;
  elf_cache : list ElfCacheEntry;
  elf_cache_fds : list ElfCacheFd;
  elf_cache_next_fd : Z;
  elf_cache_initialized : bool;
  sabfs_fd_map : list Z;
  sabfs_initialized : bool;
  sabfs_available : bool;
}.

Definition set_base (s : nine) (h : host) : nine :=
  {| base := h; elf_cache := elf_cache s; elf_cache_fds := elf_cache_fds s; elf_cache_next_fd := elf_cache_next_fd s;
     elf_cache_initialized := elf_cache_initialized s; sabfs_fd_map := sabfs_fd_map s;
     sabfs_initialized := sabfs_initialized s; sabfs_available := sabfs_available s |}.
Definition set_elf (s : nine) (c : list ElfCacheEntry) (f : list ElfCacheFd) (n : Z) : nine :=
  {| base := base s; elf_cache := c; elf_cache_fds := f; elf_cache_next_fd := n;
     elf_cache_initialized := elf_cache_initialized s; sabfs_fd_map := sabfs_fd_map s; sabfs_initialized := sabfs_initialized s; sabfs_available := sabfs_available s |}.
Definition set_map (s : nine) (m : list Z) : nine :=
  {| base := base s; elf_cache := elf_cache s; elf_cache_fds := elf_cache_fds s; elf_cache_next_fd := elf_cache_next_fd s;
     elf_cache_initialized := elf_cache_initialized s; sabfs_fd_map := m;
     sabfs_initialized := sabfs_initialized s; sabfs_available := sabfs_available s |}.
Definition set_cached (s : nine) (i : nat) (e : ElfCacheEntry) : nine :=
  set_elf s (<[i := e]> (elf_cache s)) (elf_cache_fds s) (elf_cache_next_fd s).
Definition set_cfd (s : nine) (i : nat) (f : ElfCacheFd) : nine :=
  set_elf s (elf_cache s) (<[i := f]> (elf_cache_fds s)) (elf_cache_next_fd s).

Definition lift {A} (m : St host A) : St nine A :=
  fun s => match m (base s) with Some (a, h) => Some (a, set_base s h) | None => None end.

(** The zeroed variables of the program. *)
Definition no_entry : ElfCacheEntry :=
  {| e_path := []; e_data := None; e_size := 0; e_mode := 0; e_refcount := 0; e_active := false |}.
Definition no_cfd : ElfCacheFd := {| cache_idx := 0; c_offset := 0; c_active := false |}.

Definition nine_start (h : host) : nine :=
  {| base := h; elf_cache := replicate ELF_CACHE_MAX_FILES no_entry;
     elf_cache_fds := replicate (Z.to_nat ELF_CACHE_MAX_FDS) no_cfd; elf_cache_next_fd := ELF_CACHE_FD_BASE;
     elf_cache_initialized := false; sabfs_fd_map := replicate (Z.to_nat SABFS_MAX_FDS) 0;
     sabfs_initialized := false; sabfs_available := false |}.

(** ** The cache *)

Definition elf_cache_init : St nine unit :=
  fun s =>
    if elf_cache_initialized s then Some (tt, s)
    else Some (tt,
      {| base := base s;
         elf_cache := (fun e => {| e_path := []; e_data := None; e_size := 0; e_mode := e_mode e;
                                   e_refcount := e_refcount e; e_active := false |}) <$> elf_cache s;
         elf_cache_fds := (fun f => {| cache_idx := cache_idx f; c_offset := c_offset f; c_active := false |}) <$> elf_cache_fds s;
         elf_cache_next_fd := elf_cache_next_fd s; elf_cache_initialized := true; sabfs_fd_map := sabfs_fd_map s;
         sabfs_initialized := sabfs_initialized s; sabfs_available := sabfs_available s |}).

(** The first index at which [p] holds. *)
Fixpoint first_index {A} (p : A -> bool) (l : list A) : option nat :=
  match l with
  | [] => None
  | x :: l => if p x then Some O else S <$> first_index p l
  end.

Definition elf_cache_find (path : list Z) (s : nine) : option nat :=
  first_index (fun e => e_active e && str_eqb (e_path e) path) (elf_cache s).

Definition elf_cache_find_free : St nine (option nat) :=
  fun s =>
    match first_index (fun e => negb (e_active e)) (elf_cache s) with
    | Some i => Some (Some i, s)
    | None =>
        match first_index (fun e => e_refcount e =? 0) (elf_cache s) with
        | Some i =>
            match elf_cache s !! i with
            | Some e =>
                Some (Some i, set_cached s i {| e_path := e_path e; e_data := None; e_size := e_size e; e_mode := e_mode e;
                                                e_refcount := e_refcount e; e_active := false |})
            | None => None
            end
        | None => Some (None, s)
        end
    end.

Section Nine.
Context `{B : Browser} `{E : Emscripten}.

(** The arrays are views of the memory, made in a try block: a negative length
    gives -1. *)
Definition sabfs_js_pread (fd count offset : Z) : St host (option (list Z)) :=
  js_call None (if as_int count <? 0 then SabFs.ret None else pread fd (as_int count) (as_int count) offset).

Definition sabfs_js_pwrite (fd : Z) (buf : list Z) (offset : Z) : St host Z :=
  let count := as_int (Z.of_nat (length buf)) in
  js_call (-1) (if count <? 0 then SabFs.ret (-1) else pwrite fd buf count offset).

(** The bytes of the file in SABFS; [None] is the result -1. *)
Definition elf_cache_sabfs_preload (path : list Z) (max_size : Z) : St host (option (list Z)) :=
  available <- sabfs_be_js_is_available ;;
  if negb available then cret None
  else
    let sabfs_path := take 511 (SABFS_PREFIX ++ path) in
    st <- sabfs_be_js_stat sabfs_path ;;
    match st with
    | None => cret None
    | Some w =>
        let file_size := uint 32 (w_size_lo w + Z.shiftl (w_size_hi w) 32) in
        if file_size >? max_size then cret None
        else
          fd <- sabfs_be_js_open sabfs_path O_RDONLY 0 ;;
          if fd <? 0 then cret None
          else
            r <- sabfs_js_pread fd file_size 0 ;;
            sabfs_be_js_close fd ;;
            cret r
    end.

(** What the system calls on the host's file answer: its size, whether it
    opens, and one result per read. *)
Inductive read_result := ReadEintr | ReadError | ReadBytes (l : list Z).

Record posix_file := { p_stat : option Z; p_open : bool; p_reads : list read_result }.

(** read returns at most the bytes that are asked for; bytes past the end of
    the buffer of [max_size] bytes are undefined behaviour. *)
Fixpoint posix_read_loop (max_size st_size : Z) (reads : list read_result) (buf : list Z) : option (option (list Z)) :=
  let total_read := Z.of_nat (length buf) in
  if total_read <? st_size then
    match reads with
    | [] => None
    | ReadEintr :: reads => posix_read_loop max_size st_size reads buf
    | ReadError :: _ => Some None
    | ReadBytes [] :: _ => Some (Some buf)
    | ReadBytes l :: reads =>
        let buf := buf ++ take (Z.to_nat (uint 32 (st_size - total_read))) l in
        if Z.of_nat (length buf) >? max_size then None else posix_read_loop max_size st_size reads buf
    end
  else Some (Some buf).

Definition starts_with (prefix p : list Z) : bool := str_eqb (take (length prefix) p) prefix.

(** "/bin/", "/lib/", "/usr/", "/sbin/", "/etc/", "/opt/". *)
Definition container_dirs : list (list Z) :=
  [[47; 98; 105; 110; 47]; [47; 108; 105; 98; 47]; [47; 117; 115; 114; 47]; [47; 115; 98; 105; 110; 47];
   [47; 101; 116; 99; 47]; [47; 111; 112; 116; 47]].

(** "/mnt/wasi1". *)
Definition MNT : list Z := [47; 109; 110; 116; 47; 119; 97; 115; 105; 49].

Definition host_path (path : list Z) : list Z :=
  take 511 (if existsb (fun d => starts_with d path) container_dirs then MNT ++ path else path).

Definition elf_cache_posix_preload (posix : list Z -> posix_file) (path : list Z) (max_size : Z) : St host (option (list Z)) :=
  sabfs_result <- elf_cache_sabfs_preload path max_size ;;
  match sabfs_result with
  | Some l => cret (Some l)
  | None =>
      let f := posix (host_path path) in
      match p_stat f with
      | None => cret None
      | Some st_size =>
          if uint 32 st_size >? max_size then cret None
          else if negb (p_open f) then cret None
          else fun h => match posix_read_loop max_size st_size (p_reads f) [] with Some r => Some (r, h) | None => None end
      end
  end.

(** What realloc(buf, size) may do: shrink the block, which may move; fail and
    keep the block; or, for size zero and depending on the allocator, free
    the block and return NULL. *)
Inductive realloc_result := Shrunk | Kept | Freed.

(** data, which becomes buf when realloc returned NULL; the value of buf is
    indeterminate once the block is freed. *)
Definition shrink_buffer (r : realloc_result) (buf : list Z) (size : Z) : option (list Z) :=
  match r with
  | Shrunk => Some (take (Z.to_nat size) buf)
  | Kept => Some buf
  | Freed => None
  end.

(** [mem]: malloc succeeds; [r]: what realloc does. *)
Definition elf_cache_preload (posix : list Z -> posix_file) (mem : bool) (r : realloc_result) (path : list Z) : St nine Z :=
  elf_cache_init ;;
  found <- (fun s => Some (elf_cache_find path s, s)) ;;
  match found with
  | Some _ => cret 0
  | None =>
      idx <- elf_cache_find_free ;;
      match idx with
      | None => cret (-1)
      | Some idx =>
          if negb mem then cret (-1)
          else
            loaded <- lift (elf_cache_posix_preload posix path ELF_CACHE_MAX_FILE_SIZE) ;;
            match loaded with
            | None => cret (-1)
            | Some buf =>
                let size := Z.of_nat (length buf) in
                fun s =>
                  match shrink_buffer r buf size with
                  | None => None
                  | Some data =>
                      Some (0, set_cached s idx
                        {| e_path := take 255 path; e_data := Some data; e_size := size; e_mode := 0x81ed;
                           e_refcount := 0; e_active := true |})
                  end
            end
      end
  end.

Definition elf_cache_is_cached (path : list Z) : St nine bool :=
  elf_cache_init ;; fun s => Some (match elf_cache_find path s with Some _ => true | None => false end, s).

(** The descriptor of the slot of [fd], if it is one of the cache. *)
Definition cfd_of (fd : Z) (s : nine) : option ElfCacheFd :=
  if fd <? ELF_CACHE_FD_BASE then None
  else if fd - ELF_CACHE_FD_BASE >=? ELF_CACHE_MAX_FDS then None
  else elf_cache_fds s !! Z.to_nat (fd - ELF_CACHE_FD_BASE).

Definition elf_cache_is_cache_fd (fd : Z) (s : nine) : bool :=
  match cfd_of fd s with Some f => c_active f | None => false end.

Definition elf_cache_open (path : list Z) : St nine Z :=
  elf_cache_init ;;
  fun s =>
    match elf_cache_find path s with
    | None => Some (-1, s)
    | Some idx =>
        let fd_idx := elf_cache_next_fd s - ELF_CACHE_FD_BASE in
        match (if fd_idx >=? ELF_CACHE_MAX_FDS
               then first_index (fun f => negb (c_active f)) (elf_cache_fds s) else Some (Z.to_nat fd_idx)) with
        | None => Some (-1, s)
        | Some fd_idx =>
            match elf_cache s !! idx with
            | None => None
            | Some e =>
                let fd := ELF_CACHE_FD_BASE + Z.of_nat fd_idx in
                Some (fd, set_elf s
                  (<[idx := {| e_path := e_path e; e_data := e_data e; e_size := e_size e; e_mode := e_mode e;
                               e_refcount := uint 32 (e_refcount e + 1); e_active := e_active e |}]> (elf_cache s))
                  (<[fd_idx := {| cache_idx := idx; c_offset := 0; c_active := true |}]> (elf_cache_fds s))
                  (fd + 1))
            end
        end
    end.

(** The open file and its entry; [err] if the descriptor is not active. *)
Definition with_cfd {A} (err : A) (fd : Z) (k : ElfCacheFd -> ElfCacheEntry -> St nine A) : St nine A :=
  fun s =>
    if negb (elf_cache_is_cache_fd fd s) then Some (err, s)
    else match cfd_of fd s with
         | None => None
         | Some f => match elf_cache s !! cache_idx f with None => None | Some e => k f e s end
         end.

(** memcpy of [n] bytes at [offset] of the data. *)
Definition copy_from (e : ElfCacheEntry) (offset n : Z) : option (list Z) :=
  match e_data e with
  | None => None
  | Some data =>
      if (0 <=? offset) && (offset + n <=? Z.of_nat (length data)) then Some (take (Z.to_nat n) (drop (Z.to_nat offset) data))
      else None
  end.

(** The bytes read; [None] is the result -1. *)
Definition elf_cache_pread (fd count offset : Z) : St nine (option (list Z)) :=
  with_cfd None fd (fun f e =>
    if negb (e_active e) then cret None
    else if offset >=? e_size e then cret (Some [])
    else
      let available := uint 32 (e_size e - offset) in
      let to_read := if count <? available then count else available in
      fun s => match copy_from e offset to_read with Some l => Some (Some l, s) | None => None end).

Definition elf_cache_read (fd count : Z) : St nine (option (list Z)) :=
  with_cfd None fd (fun f e =>
    ret <- elf_cache_pread fd count (c_offset f) ;;
    match ret with
    | Some (x :: l) =>
        fun s => Some (ret, set_cfd s (Z.to_nat (fd - ELF_CACHE_FD_BASE))
          {| cache_idx := cache_idx f; c_offset := c_offset f + Z.of_nat (length (x :: l)); c_active := c_active f |})
    | _ => cret ret
    end).

(** off_t has 64 bits; overflow is undefined. *)
Definition elf_cache_lseek (fd offset whence : Z) : St nine Z :=
  with_cfd (-1) fd (fun f e =>
    match (if whence =? 0 then Some offset
           else if whence =? 1 then Some (c_offset f + offset)
           else if whence =? 2 then Some (e_size e + offset) else None) with
    | None => cret (-1)
    | Some new_offset =>
        if negb ((- 2 ^ 63 <=? new_offset) && (new_offset <? 2 ^ 63)) then (fun _ => None)
        else if new_offset <? 0 then cret (-1)
        else fun s => Some (new_offset, set_cfd s (Z.to_nat (fd - ELF_CACHE_FD_BASE))
               {| cache_idx := cache_idx f; c_offset := new_offset; c_active := c_active f |})
    end).

(** Mode, size, inode, links, block size and blocks of 512 bytes. *)
Definition cached_stat (idx : nat) (e : ElfCacheEntry) : Z * Z * Z * Z * Z * Z :=
  (e_mode e, e_size e, 1000000 + Z.of_nat idx, 1, 4096, (e_size e + 511) / 512).

Definition elf_cache_fstat (fd : Z) : St nine (option (Z * Z * Z * Z * Z * Z)) :=
  with_cfd None fd (fun f e => cret (Some (cached_stat (cache_idx f) e))).

Definition elf_cache_stat (path : list Z) : St nine (option (Z * Z * Z * Z * Z * Z)) :=
  elf_cache_init ;;
  fun s =>
    match elf_cache_find path s with
    | None => Some (None, s)
    | Some idx => match elf_cache s !! idx with Some e => Some (Some (cached_stat idx e), s) | None => None end
    end.

Definition elf_cache_close (fd : Z) : St nine Z :=
  with_cfd (-1) fd (fun f e s =>
    let s := set_cfd s (Z.to_nat (fd - ELF_CACHE_FD_BASE))
               {| cache_idx := cache_idx f; c_offset := c_offset f; c_active := false |} in
    if e_refcount e >? 0 then
      Some (0, set_cached s (cache_idx f)
        {| e_path := e_path e; e_data := e_data e; e_size := e_size e; e_mode := e_mode e;
           e_refcount := e_refcount e - 1; e_active := e_active e |})
    else Some (0, s)).

(** As for preadv of the backend, buffers are given by their lengths. *)
Fixpoint cached_preadv_loop (e : ElfCacheEntry) (cur_offset : Z) (iov : list Z) : option (list (list Z)) :=
  match iov with
  | [] => Some []
  | iov_len :: iov =>
      if cur_offset <? e_size e then
        let available := uint 32 (e_size e - cur_offset) in
        let to_read := if iov_len <? available then iov_len else available in
        match copy_from e cur_offset to_read with
        | None => None
        | Some l =>
            if to_read <? iov_len then Some [l]
            else (cons l) <$> cached_preadv_loop e (cur_offset + to_read) iov
        end
      else Some []
  end.

Definition elf_cache_preadv (fd : Z) (iov : list Z) (offset : Z) : St nine (Z * list (list Z)) :=
  with_cfd (-1, []) fd (fun f e =>
    if negb (e_active e) then cret (-1, [])
    else if offset >=? e_size e then cret (0, [])
    else fun s => match cached_preadv_loop e offset iov with
                  | Some ls => Some (Z.of_nat (length (concat ls)), ls, s)
                  | None => None
                  end).

(** ** Descriptors of the server and of the module *)

Definition sabfs_js_is_ready : St host bool :=
  fun h => match js h with
           | None => Some (false, h)
           | Some _ => (st <- js_call None (stat SABFS_PREFIX) ;; cret (match st with Some _ => true | None => false end)) h
           end.

Definition sabfs_fd_map_init : St nine unit := fun s => Some (tt, set_map s (replicate (Z.to_nat SABFS_MAX_FDS) (-1))).

Definition sabfs_fd_to_index (fd : Z) : Z :=
  if (SABFS_FD_BASE <=? fd) && (fd <? ELF_CACHE_FD_BASE) then fd - SABFS_FD_BASE
  else if (0 <=? fd) && (fd <? SABFS_MAX_FDS) then fd
  else -1.

(** The index when it is one of the array. *)
Definition map_index (fd : Z) : option nat :=
  let idx := sabfs_fd_to_index fd in
  if (0 <=? idx) && (idx <? SABFS_MAX_FDS) then Some (Z.to_nat idx) else None.

Definition sabfs_fd_map_add (posix_fd sabfs_fd : Z) : St nine unit :=
  fun s => match map_index posix_fd with
           | Some i => Some (tt, set_map s (<[i := sabfs_fd]> (sabfs_fd_map s)))
           | None => Some (tt, s)
           end.

Definition sabfs_fd_map_get (posix_fd : Z) (s : nine) : Z :=
  match map_index posix_fd with Some i => default (-1) (sabfs_fd_map s !! i) | None => -1 end.

Definition sabfs_fd_map_remove (posix_fd : Z) : St nine unit :=
  match map_index posix_fd with
  | None => cret tt
  | Some i =>
      fd <- (fun s => Some (sabfs_fd_map_get posix_fd s, s)) ;;
      (if fd >=? 0 then lift (sabfs_be_js_close fd) else cret (-1)) ;;
      fun s => Some (tt, set_map s (<[i := -1]> (sabfs_fd_map s)))
  end.

Definition total_len (lens : list Z) : Z := uint 32 (foldr Z.add 0 lens).

(** The bytes read are copied to one buffer after the other. *)
Fixpoint scatter (buf : list Z) (iov : list Z) : list (list Z) :=
  match iov with
  | [] => []
  | iov_len :: iov =>
      if nonempty buf then take (Z.to_nat iov_len) buf :: scatter (drop (Z.to_nat iov_len) buf) iov else []
  end.

Definition sabfs_preadv (mem : bool) (posix_fd : Z) (iov : list Z) (offset : Z) : St nine (Z * list (list Z)) :=
  sabfs_fd <- (fun s => Some (sabfs_fd_map_get posix_fd s, s)) ;;
  if sabfs_fd <? 0 then lift (fail EBADF (-1, []))
  else if negb mem then lift (fail ENOMEM (-1, []))
  else
    r <- lift (sabfs_js_pread sabfs_fd (total_len iov) offset) ;;
    cret (match r with None => (-1, []) | Some buf => (Z.of_nat (length buf), scatter buf iov) end).

(** The copies overrun the buffer when the sum of the lengths wraps. *)
Definition sabfs_pwritev (mem : bool) (posix_fd : Z) (iov : list (list Z)) (offset : Z) : St nine Z :=
  sabfs_fd <- (fun s => Some (sabfs_fd_map_get posix_fd s, s)) ;;
  if sabfs_fd <? 0 then lift (fail EBADF (-1))
  else if negb mem then lift (fail ENOMEM (-1))
  else
    let total := total_len ((fun b => Z.of_nat (length b)) <$> iov) in
    if Z.of_nat (length (concat iov)) >? total then (fun _ => None)
    else lift (sabfs_js_pwrite sabfs_fd (concat iov) offset).

Definition sabfs_should_handle (path : option (list Z)) (s : nine) : bool :=
  sabfs_available s && match path with None => false | Some p => starts_with SABFS_PREFIX p end.

Definition sabfs_init : St nine Z :=
  fun s =>
    if sabfs_initialized s then Some (if sabfs_available s then 0 else -1, s)
    else
      let ok := match js (base s) with Some _ => true | None => false end in
      Some (if ok then 0 else -1,
            {| base := base s; elf_cache := elf_cache s; elf_cache_fds := elf_cache_fds s;
               elf_cache_next_fd := elf_cache_next_fd s; elf_cache_initialized := elf_cache_initialized s;
               sabfs_fd_map := replicate (Z.to_nat SABFS_MAX_FDS) (-1); sabfs_initialized := true; sabfs_available := ok |}).

Definition sabfs_is_ready : St nine bool :=
  sabfs_init ;; fun s => if sabfs_available s then lift sabfs_js_is_ready s else Some (false, s).

(** [m] if the module was there at initialisation; [e] is errno otherwise. *)
Definition if_available {A} (e : error) (err : A) (m : St host A) : St nine A :=
  fun s => if negb (sabfs_available s) then lift (fail e err) s else lift m s.

Definition sabfs_open (path : list Z) (flags m : Z) : St nine Z :=
  if_available ENOENT (-1) (fd <- sabfs_be_js_open path flags m ;; if fd <? 0 then fail ENOENT fd else cret fd).

Definition sabfs_close (fd : Z) : St nine Z := if_available EBADF (-1) (sabfs_be_js_close fd).

Definition sabfs_pread (fd count offset : Z) : St nine (option (list Z)) :=
  if_available EBADF None
    (r <- sabfs_js_pread fd count offset ;; match r with None => fail EIO None | Some l => cret (Some l) end).

Definition sabfs_pwrite (fd : Z) (buf : list Z) (offset : Z) : St nine Z :=
  if_available EBADF (-1) (r <- sabfs_js_pwrite fd buf offset ;; if r <? 0 then fail EIO r else cret r).

(** Mode, size, inode, links, block size and blocks. *)
Definition sabfs_stat (path : list Z) : St nine (option (Z * Z * Z * Z * Z * Z)) :=
  if_available ENOENT None
    (r <- sabfs_be_js_stat path ;;
     match r with
     | None => fail ENOENT None
     | Some w =>
         let size := sint 64 (w_size_lo w + Z.shiftl (w_size_hi w) 32) in
         cret (Some (w_mode w, size, w_ino w, 1, 4096, Z.quot (size + 511) 512))
     end).

Definition sabfs_fstat (fd : Z) : St nine (option (Z * Z * Z * Z * Z * Z)) := lift (fail EBADF None).

End Nine.
