(* ===== verification/NineOk.v ===== *)
(** * The 9p backend never fails on a sound file system

    [serve] is the table [sabfs_ops] of the backend.  In a host whose file
    system satisfies the invariant every operation returns and leaves such a
    host: the functions of the module do not throw, and what the backend adds
    to them keeps within its arrays. *)

From Stdlib Require Import ZArith Lia Bool.
From stdpp Require Import base numbers functions list option gmap.
From S2P Require Import Prelude.
From S2P Require Import SabFs.
From S2P Require Import SabApi.
From S2P Require Import SabInv.
From S2P Require Import SabTree.
From S2P Require Import SabGood.
From S2P Require Import SabSafe.
From S2P Require Import SabOps.
From S2P Require Import SabIo.
From S2P Require Import SabInit.
From S2P Require Import SabMain.
From S2P Require Import SabSpec.
From S2P Require Import NineBackend.

Local Open Scope Z_scope.
Local Open Scope c_scope.

(** ** The table of operations *)

Inductive request :=
| QInit | QLstat (path : list Z) | QReadlink (path : list Z) (bufsz : Z)
| QClose (fs : option SabfsFileState) | QClosedir (fs : option SabfsDirState)
| QOpen (path : list Z) (flags : Z) (fs : option SabfsFileState) | QOpendir (path : list Z) (fs : option SabfsDirState)
| QRewinddir (fs : option SabfsDirState) | QTelldir (fs : option SabfsDirState) | QReaddir (fs : option SabfsDirState)
| QSeekdir (fs : option SabfsDirState) (off : Z)
| QPreadv (fs : option SabfsFileState) (iov : list Z) (offset : Z)
| QPwritev (fs : option SabfsFileState) (iov : list (list Z)) (offset : Z)
| QChmod (path : list Z) (credp : FsCred) | QMknod (path name : list Z) (credp : FsCred)
| QMkdir (path name : list Z) (credp : FsCred) | QFstat (fid : option SabfsDirState + option SabfsFileState)
| QOpen2 (dir name : list Z) (flags : Z) (credp : FsCred) (fs : option SabfsFileState)
| QSymlink (oldpath dir name : list Z) | QLink (oldpath newdir name : list Z) | QTruncate (path : list Z) (size : Z)
| QRename (oldpath newpath : list Z) | QChown (path : list Z) (credp : FsCred)
| QUtimensat (path : list Z) (ts0 ts1 : Z * Z) | QRemove (path : list Z) | QFsync | QStatfs
| QLgetxattr | QLlistxattr | QLsetxattr | QLremovexattr | QNameToPath (dir : option (list Z)) (name : list Z)
| QRenameat (olddir old_name newdir new_name : list Z) | QUnlinkat (dir name : list Z) (removedir : bool).

Inductive reply :=
| PNum (r : Z) | PStat (r : option c_stat) | PBytes (r : option (list Z)) | PFile (r : Z * option SabfsFileState)
| PDir (r : Z * option SabfsDirState) | PEntry (r : option (list Z * Z * Z) * option SabfsDirState)
| PRead (r : Z * list (list Z)) | PStatfs (r : c_statfs) | PPath (p : list Z).

Definition reply_with {A} (f : A -> reply) (m : St host A) : St host reply := x <- m ;; cret (f x).

Section Ok.
Context `{B : Browser} `{E : Emscripten} (N : Z).

Definition serve (q : request) : St host reply :=
  match q with
  | QInit => reply_with PNum sabfs_init
  | QLstat p => reply_with PStat (sabfs_lstat p)
  | QReadlink p n => reply_with PBytes (sabfs_readlink p n)
  | QClose fs => reply_with PFile (sabfs_close fs)
  | QClosedir fs => reply_with PDir (sabfs_closedir fs)
  | QOpen p flags fs => reply_with PFile (sabfs_open p flags fs)
  | QOpendir p fs => reply_with PDir (sabfs_opendir p fs)
  | QRewinddir fs => reply_with (fun d => PDir (0, d)) (sabfs_rewinddir fs)
  | QTelldir fs => cret (PNum (sabfs_telldir fs))
  | QReaddir fs => reply_with PEntry (sabfs_readdir fs)
  | QSeekdir fs off => cret (PDir (0, sabfs_seekdir fs off))
  | QPreadv fs iov offset => reply_with PRead (sabfs_preadv fs iov offset)
  | QPwritev fs iov offset => reply_with PNum (sabfs_pwritev fs iov offset)
  | QChmod p c => reply_with PNum (sabfs_chmod p c)
  | QMknod p n c => reply_with PNum (sabfs_mknod p n c)
  | QMkdir p n c => reply_with PNum (sabfs_mkdir p n c)
  | QFstat fid => reply_with PStat (sabfs_fstat fid)
  | QOpen2 d n flags c fs => reply_with PFile (sabfs_open2 d n flags c fs)
  | QSymlink o d n => reply_with PNum (sabfs_symlink o d n)
  | QLink o d n => reply_with PNum (sabfs_link o d n)
  | QTruncate p size => reply_with PNum (sabfs_truncate p size)
  | QRename o n => reply_with PNum (sabfs_rename o n)
  | QChown p c => reply_with PNum (sabfs_chown p c)
  | QUtimensat p t0 t1 => reply_with PNum (sabfs_utimensat p t0 t1)
  | QRemove p => reply_with PNum (sabfs_remove p)
  | QFsync => reply_with PNum sabfs_fsync
  | QStatfs => reply_with PStatfs sabfs_statfs
  | QLgetxattr => reply_with PNum sabfs_lgetxattr
  | QLlistxattr => reply_with PNum sabfs_llistxattr
  | QLsetxattr => reply_with PNum sabfs_lsetxattr
  | QLremovexattr => reply_with PNum sabfs_lremovexattr
  | QNameToPath d n => cret (PPath (sabfs_name_to_path d n))
  | QRenameat od on nd nn => reply_with PNum (sabfs_renameat od on nd nn)
  | QUnlinkat d n r => reply_with PNum (sabfs_unlinkat d n r)
  end.

(** ** Rules *)

Definition hgood (h : host) : Prop := forall s, js h = Some s -> good N s.

Definition hsafe {A} (m : St host A) (h : host) (Q : A -> host -> Prop) : Prop :=
  exists a h', m h = Some (a, h') /\ hgood h' /\ Q a h'.

Lemma hsafe_ret {A} (a : A) h (Q : A -> host -> Prop) : hgood h -> Q a h -> hsafe (cret a) h Q.
Proof using. intros G Ha. by exists a, h. Qed.

Lemma cbind_ok {S A C} (m : St S A) (f : A -> St S C) s a s' : m s = Some (a, s') -> cbind m f s = f a s'.
Proof using. intros E1. unfold cbind. by rewrite E1. Qed.

Lemma hsafe_bind {A C} (m : St host A) (f : A -> St host C) h Q R :
  hsafe m h Q -> (forall a h', hgood h' -> Q a h' -> hsafe (f a) h' R) -> hsafe (cbind m f) h R.
Proof using.
  intros (a & h' & E1 & G & Ha) Hf. destruct (Hf a h' G Ha) as (b & h2 & E2 & G2 & Hb).
  exists b, h2. by rewrite (cbind_ok _ _ _ _ _ E1).
Qed.

Lemma hsafe_call {A} (u : A) (m : M A) h Q :
  hgood h -> (forall s, js h = Some s -> safe N m s Q) -> hsafe (js_call u m) h (fun a h' =>
    js h = None \/ exists s s', js h = Some s /\ js h' = Some s' /\ Q a s').
Proof using.
  intros G Hm. unfold js_call. destruct (js h) as [s|] eqn:Es.
  - destruct (Hm s eq_refl) as (a & s' & E1 & G' & _ & Ha). exists a, (set_js h s'). rewrite Es, E1.
    split; [done|]. split; [|right; by exists s, s']. intros s2 E2. cbn in E2. by injection E2 as <-.
  - exists u, h. rewrite Es. split; [done|]. split; [done | by left].
Qed.

Lemma hsafe_fail {A} e (r : A) h (Q : A -> host -> Prop) : hgood h -> (forall h', Q r h') -> hsafe (fail e r) h Q.
Proof using. intros G HQ. by eexists r, _. Qed.

Lemma hsafe_mono {A} (m : St host A) h (Q R : A -> host -> Prop) :
  hsafe m h Q -> (forall a h', Q a h' -> R a h') -> hsafe m h R.
Proof using. intros (a & h' & E1 & G & Ha) HR. exists a, h'. auto. Qed.

Lemma hsafe_js {A} (u : A) (m : M A) h :
  hgood h -> (forall s, good N s -> safe N m s (fun _ _ => True)) -> hsafe (js_call u m) h (fun _ _ => True).
Proof using.
  intros G Hm. eapply hsafe_mono; [apply hsafe_call; [done|]|done]. intros s Es. apply Hm. by apply G.
Qed.

(** ** The bridge and the loops *)

(** Lengths that are not negative as an int. *)
Definition int_size (n : Z) : Prop := 0 <= n < 2 ^ 31.

Lemma hsafe_preadv_loop fd offset iov total h :
  hgood h -> Forall int_size iov -> 0 <= offset + total -> hsafe (preadv_loop fd offset iov total) h (fun _ _ => True).
Proof using.
  intros G Hl. revert total h G. induction Hl as [|len iov Hlen Hl IH]; intros total h G Ho; cbn [preadv_loop]; [by apply hsafe_ret|].
  unfold sabfs_be_js_pread. rewrite js_array_small by done.
  eapply hsafe_bind; [by apply hsafe_js; [|intros; apply safe_pread, fits_pread]|]. intros [l|] h1 G1 _; [|by apply hsafe_ret].
  cbn zeta. destruct (_ =? 0); [by apply hsafe_ret|]. destruct (_ <? _); [by apply hsafe_ret|].
  eapply hsafe_bind; [apply IH; [done | lia]|]. intros r h2 G2 _. by apply hsafe_ret.
Qed.

(** The data fit where they go: at the offset, or at the end of a file that
    was opened for appending. *)
Definition writev_fits (h : host) (fd offset n : Z) : Prop :=
  0 <= offset /\ forall s f, js h = Some s -> fdTable s !! fd = Some f -> write_pos s (at_pos f offset) + n <= MAX_SIZE.

Lemma length_concat_cons (b : list Z) iov :
  Z.of_nat (length (concat (b :: iov))) = Z.of_nat (length b) + Z.of_nat (length (concat iov)).
Proof using. cbn. rewrite length_app. lia. Qed.

(** A pwrite of the whole buffer. *)
Lemma pwrite_step h fd b offset n :
  hgood h -> int_size (Z.of_nat (length b)) -> writev_fits h fd offset (Z.of_nat (length b) + n) -> 0 <= n ->
  hsafe (sabfs_be_js_pwrite fd b offset) h (fun w h' =>
    w < 0 \/ (w <= Z.of_nat (length b) /\ writev_fits h' fd (offset + w) (Z.of_nat (length b) - w + n))).
Proof using.
  intros G Hint [Ho Hfit] Hn. unfold sabfs_be_js_pwrite. rewrite js_array_small by done. unfold js_call, hsafe. destruct (js h) as [s|] eqn:Es.
  2:{ exists (-1), h. split; [done|]. split; [done | left; lia]. }
  pose proof (G s Es) as Gs. destruct (fdTable s !! fd) as [f|] eqn:Ef.
  2:{ exists (-1), (set_js h s). unfold pwrite, with_pos, SabFs.bind, SabFs.get. rewrite Ef. split; [done|].
      split; [|left; lia]. intros s2 E2. by injection E2 as <-. }
  destruct (g_inv N s Gs) as (ow & fl & Hi). specialize (Hfit s f eq_refl Ef).
  destruct (pwrite_ok N ow fl s fd f b offset Gs Hi Ef Ho ltac:(lia)) as (w & s' & E1 & G' & _ & Ef' & Hw & _ & [_ Hsz _] & _).
  exists w, (set_js h s'). rewrite E1. split; [done|]. split; [intros s2 E2; by injection E2 as <-|]. right.
  split; [lia|]. split; [lia|]. intros s2 f2 E2 Ef2. injection E2 as <-. rewrite Ef' in Ef2. injection Ef2 as <-.
  unfold write_pos in *. cbn in *. destruct (flag_set _ _); [rewrite Hsz|]; lia.
Qed.

Lemma hsafe_pwritev_loop fd offset iov total h :
  hgood h -> Forall (fun b => int_size (Z.of_nat (length b))) iov ->
  writev_fits h fd (offset + total) (Z.of_nat (length (concat iov))) ->
  hsafe (pwritev_loop fd offset iov total) h (fun _ _ => True).
Proof using.
  intros G Hl. revert total h G. induction Hl as [|b iov Hint Hl IH]; intros total h G Hfit; cbn [pwritev_loop]; [by apply hsafe_ret|].
  rewrite length_concat_cons in Hfit. eapply hsafe_bind; [apply pwrite_step; [done | done | exact Hfit | lia]|]. intros w h1 G1 Hw.
  destruct (Z.ltb_spec w 0); [by apply hsafe_ret|]. destruct Hw as [|[Hw Hfit1]]; [lia|].
  destruct (Z.ltb_spec w (Z.of_nat (length b))); [by apply hsafe_ret|]. apply IH; [done|].
  replace (offset + (total + w)) with (offset + total + w) by lia.
  by replace (Z.of_nat (length b) - w + Z.of_nat (length (concat iov))) with (Z.of_nat (length (concat iov))) in Hfit1 by lia.
Qed.

Lemma hsafe_readdir_count p h :
  hgood h -> hsafe (sabfs_be_js_readdir_count p) h (fun n h' => 0 <= n -> n = Z.of_nat (length (default [] (readdir_entries h')))).
Proof using.
  intros G. eapply hsafe_bind; [by apply hsafe_js; [|intros; apply safe_readdir]|]. intros [l|] h1 G1 _.
  - exists (Z.of_nat (length l)), (set_entries h1 l). split; [done|]. by split.
  - apply hsafe_ret; [done | lia].
Qed.

Lemma hsafe_readdir_entry idx n h :
  hgood h -> 0 <= idx -> hsafe (sabfs_be_js_readdir_entry idx n) h (fun _ _ => True).
Proof using.
  intros G Hi. unfold hsafe, sabfs_be_js_readdir_entry. destruct (readdir_entries h) as [l|]; [|by exists None, h].
  rewrite Z.geb_leb. destruct (Z.leb_spec (Z.of_nat (length l)) idx); [by exists None, h|].
  rewrite (proj2 (Z.ltb_ge idx 0)) by done. destruct (lookup_lt_is_Some_2 l (Z.to_nat idx)) as [e Ee]; [lia|]. rewrite Ee.
  by eexists _, h.
Qed.

(** Requests that stay within the range of the module: offsets are not
    negative, buffers smaller than 2 GB and files not larger than their block
    map. *)
Definition allowed (h : host) (q : request) : Prop :=
  match q with
  | QPreadv _ iov offset => Forall int_size iov /\ 0 <= offset
  | QPwritev (Some state) iov offset =>
      Forall (fun b => int_size (Z.of_nat (length b))) iov /\
      writev_fits h (fs_fd state) offset (Z.of_nat (length (concat iov)))
  | QReaddir (Some state) => 0 <= ds_pos state
  | QSymlink oldpath _ _ => Z.of_nat (length (encode (UTF8ToString oldpath))) <= MAX_SIZE
  | QTruncate _ size => 0 <= size <= MAX_SIZE
  | _ => True
  end.

(** ** Every operation *)

Lemma safe_any {A} (m : M A) s Q : safe N m s Q -> safe N m s (fun _ _ => True).
Proof using. intros H. by eapply safe_mono. Qed.

Ltac hjs := apply hsafe_js; [done | intros; eauto using safe_stat, safe_lstat, safe_open, safe_close, safe_pread,
  safe_truncate, safe_readdir, safe_mkdir, safe_rmdir, safe_unlink, safe_symlink, safe_readlink, safe_link, safe_rename,
  safe_chmod, safe_chown, safe_utimes, safe_any].

Ltac hend := repeat case_match; (apply hsafe_ret || apply hsafe_fail); done.

(** The rest of an operation after its call of the module. *)
Ltac hcall := eapply hsafe_bind; [by hjs | intros ? ? ? _].

Lemma hsafe_statfs h : hgood h -> hsafe sabfs_statfs h (fun _ _ => True).
Proof using.
  intros G. eapply hsafe_bind; [apply hsafe_js; [done|] | intros; hend]. intros s Gs.
  eapply safe_bind; [by apply safe_statfs | intros; by apply safe_ret].
Qed.

Lemma hsafe_stat_path p h : hgood h -> hsafe (stat_path p) h (fun _ _ => True).
Proof using. intros G. eapply hsafe_bind with (Q := fun _ _ => True); [hcall; by apply hsafe_ret | intros; hend]. Qed.

Lemma serve_safe h q : hgood h -> allowed h q -> hsafe (serve q) h (fun _ _ => True).
Proof using.
  intros G Ha.
  assert (Hr : forall A (f : A -> reply) (m : St host A) Q, hsafe m h Q -> hsafe (reply_with f m) h (fun _ _ => True)).
  { intros A f m Q Hm. eapply hsafe_bind; [exact Hm|]. intros. by apply hsafe_ret. }
  destruct q; cbn [serve allowed] in *; try (by apply hsafe_ret); apply (Hr _ _ _ (fun _ _ => True)).
  all: try (by hjs).
  all: try (by (apply hsafe_ret || apply hsafe_fail)).
  - eapply hsafe_bind with (Q := fun _ _ => True); [hcall; by apply hsafe_ret | intros; hend].
  - eapply hsafe_bind with (Q := fun _ _ => True); [hcall; by apply hsafe_ret | intros; hend].
  - destruct fs; [hcall|]; hend.
  - hcall. hend.
  - eapply hsafe_bind; [by apply hsafe_readdir_count|]. intros. hend.
  - destruct fs; [eapply hsafe_bind; [by apply hsafe_readdir_count|]; intros|]; hend.
  - unfold sabfs_readdir. destruct fs; [|hend]. case_match; [hend|].
    eapply hsafe_bind; [by apply hsafe_readdir_entry|]. intros. hend.
  - destruct fs; [|hend]. destruct Ha. apply hsafe_preadv_loop; [done | done | lia].
  - destruct fs; [|hend]. destruct Ha. apply hsafe_pwritev_loop; [done | done | by rewrite Z.add_0_r].
  - hcall. case_match; [hend|]. hcall. hend.
  - unfold sabfs_fstat. destruct fid as [[]|[]]; try hend; by apply hsafe_stat_path.
  - hcall. hend.
  - hcall. case_match; [hend | hjs].
  - by apply hsafe_statfs.
  - unfold sabfs_unlinkat. case_match; hjs.
Qed.
(** Hosts that requests reach after the module was used in any way. *)
Inductive served (sizeBytes inodeCount : Z) : host -> Prop :=
| served_start h : (forall s, js h = Some s -> reachable sizeBytes inodeCount s) -> served sizeBytes inodeCount h
| served_next h q r h' :
    served sizeBytes inodeCount h -> allowed h q -> serve q h = Some (r, h') -> served sizeBytes inodeCount h'.

End Ok.

Lemma served_good `{B : Browser} `{E : Emscripten} sizeBytes inodeCount h :
  init_ok sizeBytes inodeCount -> served sizeBytes inodeCount h -> hgood (inodes_of sizeBytes inodeCount) h.
Proof.
  intros Hok. induction 1 as [h Hr | h q r h' _ IH Ha Es].
  - intros s Es. apply (reachable_is_good sizeBytes inodeCount); [done | by apply Hr].
  - destruct (serve_safe _ h q IH Ha) as (r1 & h1 & E1 & G & _). rewrite Es in E1. by injection E1 as <- <-.
Qed.


(** ** An example *)

Lemma some_eq {A} (x y : A) : Some x = Some y -> x = y.
Proof. by intros [= ->]. Qed.

#[global] Instance ascii_emscripten : Emscripten := {| UTF8ToString := fun l => l |}.

Definition sample_host : host := {| js := Some sample_fs; readdir_entries := None; errno := None |}.

