(* ===== verification/NineVec.v ===== *)
(** * Vectored reads and writes of the 9p server

    9p-sabfs-backend.c calls the module for one buffer after the other,
    9p-sabfs.c copies between the buffers and one block of memory.  Both write
    the concatenation of the buffers and read what is in the file, the first
    up to an empty buffer. *)

From Stdlib Require Import ZArith Lia Bool.
From stdpp Require Import base numbers functions list option gmap.
From S2P Require Import Prelude.
From S2P Require Import SabFs.
From S2P Require Import SabApi.
From S2P Require Import SabInv.
From S2P Require Import SabTree.
From S2P Require Import SabRw.
From S2P Require Import SabGood.
From S2P Require Import SabSafe.
From S2P Require Import SabIo.
From S2P Require Import SabMain.
From S2P Require Import SabSpec.
From S2P Require Import NineBackend.
From S2P Require Import NineElf.
From S2P Require Import NineOk.

Local Open Scope Z_scope.

(** ** Buffers *)

Definition sum_len (lens : list Z) : Z := foldr Z.add 0 lens.

Lemma sum_len_nonneg lens : Forall (Z.le 0) lens -> 0 <= sum_len lens.
Proof. induction 1; cbn; [lia | unfold sum_len in *; lia]. Qed.

(** The buffers before the first empty one. *)
Fixpoint before_empty (lens : list Z) : list Z :=
  match lens with
  | [] => []
  | len :: lens => if 0 <? len then len :: before_empty lens else []
  end.

Lemma before_empty_pos lens : Forall (Z.lt 0) (before_empty lens).
Proof. induction lens as [|len lens IH]; [constructor|]. cbn. destruct (Z.ltb_spec 0 len); by constructor. Qed.

Lemma positive_le lens : Forall (Z.lt 0) lens -> Forall (Z.le 0) lens.
Proof. intros Hl. eapply Forall_impl; [exact Hl|]. cbn. lia. Qed.

Lemma before_empty_all lens : Forall (Z.lt 0) lens -> before_empty lens = lens.
Proof. induction 1 as [|len lens Hp Hl IH]; [done|]. cbn. by rewrite (proj2 (Z.ltb_lt 0 len) Hp), IH. Qed.

Lemma before_empty_sum lens : Forall (Z.le 0) lens -> 0 <= sum_len (before_empty lens) <= sum_len lens.
Proof.
  intros Hl. induction Hl as [|len lens Hp Hl IH]; cbn; [lia|]. pose proof (sum_len_nonneg lens Hl).
  unfold sum_len in *. destruct (Z.ltb_spec 0 len); cbn; lia.
Qed.

Lemma scatter_nil lens : scatter [] lens = [].
Proof. by destruct lens. Qed.

Lemma concat_scatter data lens :
  Forall (Z.le 0) lens -> concat (scatter data lens) = take (Z.to_nat (sum_len lens)) data.
Proof.
  intros Hl. revert data. induction Hl as [|len lens Hp Hl IH]; intros data; cbn [scatter sum_len foldr]; [done|].
  destruct data as [|x data]; [cbn; by rewrite take_nil|]. cbn [nonempty concat]. rewrite IH. pose proof (sum_len_nonneg lens Hl).
  fold (sum_len lens). rewrite Z2Nat.inj_add by lia. by rewrite take_take_drop.
Qed.

(** Chunks of what is in the file, when all of the first buffer is filled. *)
Lemma scatter_cons c p len lens :
  0 < len -> Forall (Z.lt 0) lens ->
  let data := take (Z.to_nat (sum_len (len :: lens))) (drop p c) in
  let l := take (Z.to_nat len) (drop p c) in
  scatter data (len :: lens) =
    if decide (length l = O) then []
    else if decide (Z.of_nat (length l) < len) then [l]
    else l :: scatter (take (Z.to_nat (sum_len lens)) (drop (p + Z.to_nat len) c)) lens.
Proof.
  intros Hp Hl data l. pose proof (sum_len_nonneg lens (positive_le _ Hl)) as Hs.
  assert (Ed : data = l ++ take (Z.to_nat (sum_len lens)) (drop (p + Z.to_nat len) c)).
  { unfold data, l. cbn [sum_len foldr]. fold (sum_len lens). rewrite Z2Nat.inj_add by lia.
    by rewrite <- take_take_drop, drop_drop. }
  assert (Hll : length l = Nat.min (Z.to_nat len) (length c - p)) by (unfold l; by rewrite length_take, length_drop).
  cbn [scatter]. case_decide as H0.
  { assert (data = []) as ->; [|done]. apply nil_length_inv. unfold data. rewrite length_take, length_drop. lia. }
  assert (nonempty data = true) as ->. { rewrite Ed. destruct l; [done | done]. }
  case_decide as H1.
  - assert (drop (p + Z.to_nat len) c = []) as En by (apply drop_ge; lia). rewrite En, take_nil, app_nil_r in Ed. rewrite Ed.
    rewrite take_ge, drop_ge by lia. by rewrite scatter_nil.
  - rewrite Ed. rewrite take_app_length', drop_app_length' by lia. done.
Qed.

Section Vec.
Context `{B : Browser} `{E : Emscripten} (N : Z).

(** ** Reading *)

(** The bytes of the file that [lens] ask for. *)
Definition file_part (s : fs) (ino offset : Z) (lens : list Z) : list Z :=
  take (Z.to_nat (sum_len lens)) (drop (Z.to_nat offset) (contents s ino)).

Lemma pread_contents s fd f count offset :
  good N s -> fdTable s !! fd = Some f -> 0 <= count -> 0 <= offset ->
  exists s', pread fd count count offset s = Some (Some (take (Z.to_nat count) (drop (Z.to_nat offset) (contents s (f_ino f)))), s') /\
    good N s' /\ fdTable s' !! fd = Some f /\ forall i, in_use s i -> contents s' i = contents s i.
Proof using.
  intros G Ef Hc Ho. destruct (pread_ok N s fd f count count offset G Ef Hc) as (s' & E1 & G' & Ef' & Hs & Hb); [by apply fits_pread|].
  exists s'. rewrite <- fbytes_contents by done. split; [done|]. split; [done|]. split; [done|].
  intros i Hu. pose proof (good_bound N s i G Hu). apply (contents_same N); [done | done | by apply Hs|]. intros. by apply Hb.
Qed.

(** The loop of the backend ends at an empty buffer. *)
Lemma preadv_loop_ok h s fd f offset lens total :
  js h = Some s -> good N s -> fdTable s !! fd = Some f -> 0 <= total -> 0 <= offset + total -> Forall int_size lens ->
  let data := file_part s (f_ino f) (offset + total) (before_empty lens) in
  exists h', preadv_loop fd offset lens total h =
    Some ((total + Z.of_nat (length data), scatter data (before_empty lens)), h').
Proof using.
  intros Ej G Ef Ht Ho Hl. revert h s total Ej G Ef Ht Ho.
  induction Hl as [|len lens0 Hint Hl0 IH]; intros h s total Ej G Ef Ht Ho data.
  { exists h. unfold data, file_part. cbn. by rewrite Z.add_0_r. }
  cbn [preadv_loop]. unfold sabfs_be_js_pread. rewrite js_array_small by done. destruct Hint as [Hlen _].
  destruct (pread_contents s fd f len (offset + total) G Ef Hlen Ho) as (s1 & E1 & G1 & Ef1 & Hc1).
  unfold data. clear data. cbn [before_empty]. destruct (Z.ltb_spec 0 len) as [Hp | Hz].
  2:{ assert (len = 0) as -> by lia. cbn [take Z.to_nat] in E1. exists (set_js h s1).
      rewrite (cbind_ok _ _ _ (Some []) (set_js h s1)) by (unfold js_call; by rewrite Ej, E1).
      unfold file_part. cbn. change (Z.to_nat 0) with 0%nat. rewrite take_0. cbn [length].
      change (Z.of_nat 0) with 0. by rewrite Z.add_0_r. }
  set (lens := before_empty lens0) in *. pose proof (before_empty_pos lens0) as Hl. fold lens in Hl.
  set (data := file_part s (f_ino f) (offset + total) (len :: lens)).
  set (c := contents s (f_ino f)) in *. set (p := Z.to_nat (offset + total)) in *. set (l := take (Z.to_nat len) (drop p c)) in *.
  rewrite (cbind_ok _ _ _ (Some l) (set_js h s1)) by (unfold js_call; by rewrite Ej, E1). cbv beta iota zeta.
  pose proof (scatter_cons c p len lens Hp Hl) as Hsc. cbv zeta in Hsc. fold l in Hsc.
  assert (Hll : length l = Nat.min (Z.to_nat len) (length c - p)) by (unfold l; by rewrite length_take, length_drop).
  pose proof (sum_len_nonneg lens (positive_le _ Hl)). assert (Hd : length data = Nat.min (Z.to_nat (len + sum_len lens)) (length c - p)).
  { unfold data, file_part. by rewrite length_take, length_drop. }
  change (take (Z.to_nat (sum_len (len :: lens))) (drop p c)) with data in Hsc. rewrite Hsc.
  destruct (Z.eqb_spec (Z.of_nat (length l)) 0) as [H0 | H0].
  { rewrite decide_True by lia. exists (set_js h s1). by replace (total + Z.of_nat (length data)) with total by lia. }
  rewrite decide_False by lia. destruct (Z.ltb_spec (Z.of_nat (length l)) len) as [H1 | H1].
  { rewrite decide_True by lia. exists (set_js h s1). by replace (length data) with (length l) by lia. }
  rewrite decide_False by lia.
  destruct (IH (set_js h s1) s1 (total + Z.of_nat (length l)) eq_refl G1 Ef1 ltac:(lia) ltac:(lia)) as (h' & E2).
  rewrite (cbind_ok _ _ _ _ _ E2). exists h'. unfold cret. cbn [fst snd].
  assert (Er : file_part s1 (f_ino f) (offset + (total + Z.of_nat (length l))) lens =
    take (Z.to_nat (sum_len lens)) (drop (p + Z.to_nat len) c)).
  { unfold file_part. rewrite Hc1 by (by eapply (g_fds N s G)). do 2 f_equal. unfold p. lia. }
  rewrite Er, length_take, length_drop. replace (total + Z.of_nat (length data)) with
    (total + Z.of_nat (length l) + Z.of_nat (Z.to_nat (sum_len lens) `min` (length c - (p + Z.to_nat len)))) by lia. done.
Qed.

(** Descriptors: [fd] of the module, as the two implementations find it. *)
Definition opened_as (h : host) (z : nine) (posix_fd fd : Z) (f : file) (s : fs) : Prop :=
  js h = Some s /\ base z = h /\ sabfs_fd_map_get posix_fd z = fd /\ 0 <= fd /\ fdTable s !! fd = Some f.

Lemma linear_preadv_ok z s posix_fd fd f offset lens :
  opened_as (base z) z posix_fd fd f s -> good N s -> 0 <= offset -> Forall (Z.le 0) lens -> sum_len lens < 2 ^ 31 ->
  let data := file_part s (f_ino f) offset lens in
  exists z', NineElf.sabfs_preadv true posix_fd lens offset z = Some ((Z.of_nat (length data), scatter data lens), z').
Proof using.
  intros (Ej & _ & Em & Hfd & Ef) G Ho Hl Hs data. unfold NineElf.sabfs_preadv.
  rewrite (cbind_ok _ _ _ fd z) by (by rewrite Em). rewrite (proj2 (Z.ltb_ge fd 0)) by done. cbn [negb].
  pose proof (sum_len_nonneg lens Hl). unfold total_len. rewrite uint_small by (unfold sum_len in *; lia). fold (sum_len lens).
  destruct (pread_contents s fd f (sum_len lens) offset G Ef ltac:(lia) Ho) as (s1 & E1 & _).
  rewrite (cbind_ok _ _ _ (Some data) (set_base z (set_js (base z) s1))); [by eexists|].
  unfold lift, sabfs_js_pread, js_call. by rewrite Ej, as_int_small, (proj2 (Z.ltb_ge _ _)), E1 by lia.
Qed.

(** ** Writing *)

(** The bytes of [data] are in the file at [pos]; other bytes and files are as
    they were. *)
Record saved (s s' : fs) (ino : Z) (data : list Z) (pos : Z) : Prop := {
  sv_bytes : forall p, file_pos p ->
    fbyte s' ino p = if decide (pos <= p < pos + Z.of_nat (length data)) then nth (Z.to_nat (p - pos)) data 0 else fbyte s ino p;
  sv_size : data <> [] -> pos + Z.of_nat (length data) <= file_size s' ino;
  sv_grow : file_size s ino <= file_size s' ino;
  sv_others : forall i, 0 <= i < N -> i <> ino ->
    file_size s' i = file_size s i /\ forall p, file_pos p -> fbyte s' i p = fbyte s i p;
}.

Lemma saved_refl s ino pos : saved s s ino [] pos.
Proof using. split; [|done | lia | done]. intros p _. cbn. by rewrite decide_False by lia. Qed.

Lemma stored_saved s s' ino data pos :
  0 <= ino < N -> stored N s s' ino data pos (Z.of_nat (length data)) -> saved s s' ino data pos.
Proof using.
  intros Hi [Hb Hs Hss]. split; [|lia | lia |].
  - intros p Hp. rewrite Hb by done. by repeat case_decide; [|tauto|tauto|].
  - intros i Hii Hne. split; [by apply Hss|]. intros p Hp. rewrite Hb by done. by rewrite decide_False by tauto.
Qed.

Lemma saved_trans s s1 s2 ino d1 d2 pos :
  saved s s1 ino d1 pos -> saved s1 s2 ino d2 (pos + Z.of_nat (length d1)) -> saved s s2 ino (d1 ++ d2) pos.
Proof using.
  intros [B1 S1 G1 O1] [B2 S2 G2 O2]. split; [| | lia |].
  - intros p Hp. rewrite B2, B1 by done. rewrite length_app. repeat case_decide; try done; try (exfalso; lia).
    + rewrite app_nth2 by lia. f_equal. lia.
    + by rewrite app_nth1 by lia.
  - intros Hne. rewrite length_app. destruct (decide (d2 = [])) as [-> | H2]; [|specialize (S2 H2); lia].
    rewrite app_nil_r in Hne. specialize (S1 Hne). cbn. lia.
  - intros i Hi Hne. destruct (O1 i Hi Hne) as [E1 F1], (O2 i Hi Hne) as [E2 F2]. split; [by rewrite E2|].
    intros p Hp. by rewrite F2, F1.
Qed.

Lemma saved_part s s' ino data pos lens :
  saved s s' ino data pos -> 0 <= pos -> pos + Z.of_nat (length data) <= MAX_SIZE -> sum_len lens = Z.of_nat (length data) ->
  file_part s' ino pos lens = data.
Proof using.
  intros [Hb Hs _ _] Hp Hmax Hl. unfold file_part. rewrite Hl, Nat2Z.id. pose proof (size_nonneg s' ino).
  destruct (decide (data = [])) as [-> | Hne]; [done|]. specialize (Hs Hne). apply list_eq. intros k.
  rewrite lookup_take. case_decide; [|by rewrite lookup_ge_None_2 by lia].
  rewrite lookup_drop, lookup_contents, decide_True by lia.
  rewrite Hb by (unfold file_pos, MAX_SIZE in *; lia). rewrite decide_True by lia. rewrite nth_lookup.
  replace (Z.to_nat (Z.of_nat (Z.to_nat pos + k) - pos)) with k by lia.
  destruct (lookup_lt_is_Some_2 data k) as [x Ex]; [done|]. by rewrite Ex.
Qed.

(** Blocks that the buffers overlap, one buffer after the other. *)
Fixpoint blocks_touched (pos : Z) (iov : list (list Z)) : Z :=
  match iov with
  | [] => 0
  | b :: iov =>
      (if 0 <? Z.of_nat (length b) then span pos (Z.of_nat (length b)) 0 else 0) +
      blocks_touched (pos + Z.of_nat (length b)) iov
  end.

Lemma blocks_touched_nonneg p l : 0 <= blocks_touched p l.
Proof using.
  revert p. induction l as [|b l IHl]; intros p; cbn [blocks_touched]; [lia|]. specialize (IHl (p + Z.of_nat (length b))).
  destruct (Z.ltb_spec 0 (Z.of_nat (length b))); [|lia]. unfold span.
  assert ((p + 0) / 4096 <= (p + Z.of_nat (length b) - 1) / 4096) by (apply Z.div_le_mono; lia). lia.
Qed.

(** A write that finds the blocks it needs; it goes to the end of a file that
    was opened for appending. *)
Lemma pwrite_whole ow fl s fd f data offset :
  good N s -> inv N ow fl s -> fdTable s !! fd = Some f -> 0 <= offset ->
  let pos := write_pos s (at_pos f offset) in
  let n := Z.of_nat (length data) in
  let need := if 0 <? n then 3 * span pos n 0 else 0 in
  pos + n <= MAX_SIZE -> need <= Z.of_nat (length fl) ->
  exists s' ow' fl', pwrite fd data n offset s = Some (n, s') /\ good N s' /\ fdTable s' !! fd = Some f /\
    saved s s' (f_ino f) data pos /\ write_pos s' (at_pos f (offset + n)) = pos + n /\
    inv N ow' fl' s' /\ Z.of_nat (length fl) <= need + Z.of_nat (length fl').
Proof using.
  intros G Hi Ef Ho pos n need Hmax Hneed. destruct (g_fds N s G fd f Ef) as [Hu _ _]. pose proof (good_bound N s _ G Hu) as Hb.
  destruct (pwrite_ok N ow fl s fd f data offset G Hi Ef Ho Hmax)
    as (w & s1 & E1 & G1 & _ & Ef1 & Hw & Hcnt & Wr & ow' & fl' & Hi' & Hl).
  fold n pos in E1, Hw, Hcnt, Hl, Wr. fold need in Hl.
  assert (w = n) as ->. { destruct Hcnt as [|Hc]; [done|]. unfold need in Hneed. destruct (Z.ltb_spec 0 n); lia. }
  exists s1, ow', fl'. split; [done|]. split; [done|]. split; [done|]. split; [by apply stored_saved|]. split; [|by split].
  pose proof (sd_size _ _ _ _ _ _ _ Wr) as Hs. unfold pos, write_pos in *. cbn [f_flags f_ino f_pos at_pos] in *.
  destruct (flag_set _ _); [rewrite Hs|]; lia.
Qed.

Lemma pwritev_loop_ok ow fl h s fd f offset iov total :
  js h = Some s -> good N s -> inv N ow fl s -> fdTable s !! fd = Some f ->
  let n := Z.of_nat (length (concat iov)) in
  let pos := write_pos s (at_pos f (offset + total)) in
  0 <= offset + total -> pos + n <= MAX_SIZE -> n < 2 ^ 31 -> 3 * blocks_touched pos iov <= Z.of_nat (length fl) ->
  exists h' s', pwritev_loop fd offset iov total h = Some (total + n, h') /\ h' = set_js h s' /\ good N s' /\
    fdTable s' !! fd = Some f /\ saved s s' (f_ino f) (concat iov) pos.
Proof using.
  revert ow fl h s total. induction iov as [|b iov IH]; intros ow fl h s total Ej G Hi Ef n pos Ho Hmax Hn Hfree.
  { exists h, s. unfold n. cbn. rewrite Z.add_0_r. split; [done|]. split; [destruct h; cbn in Ej; by rewrite Ej|].
    split; [done|]. split; [done | apply saved_refl]. }
  cbn [pwritev_loop blocks_touched] in *. unfold n in *. rewrite length_concat_cons in *. set (nb := Z.of_nat (length b)) in *.
  pose proof (blocks_touched_nonneg (pos + nb) iov).
  destruct (pwrite_whole ow fl s fd f b (offset + total) G Hi Ef Ho) as (s1 & ow1 & fl1 & E1 & G1 & Ef1 & Sv & Hp1 & Hi1 & Hl1);
    [fold nb pos; lia | fold nb pos; destruct (0 <? nb); lia |]. fold nb pos in E1, Hl1, Hp1, Sv.
  unfold sabfs_be_js_pwrite. rewrite js_array_small by (fold nb; lia).
  rewrite (cbind_ok _ _ _ nb (set_js h s1)) by (unfold js_call; fold nb; by rewrite Ej, E1).
  rewrite (proj2 (Z.ltb_ge nb 0)), Z.ltb_irrefl by lia.
  replace (offset + total + nb) with (offset + (total + nb)) in * by lia.
  destruct (IH ow1 fl1 (set_js h s1) s1 (total + nb) eq_refl G1 Hi1 Ef1) as (h2 & s2 & E2 & -> & G2 & Ef2 & Sv2);
    [lia | lia | lia | rewrite Hp1; destruct (0 <? nb); lia |].
  exists (set_js h s2), s2. rewrite E2. split; [do 2 f_equal; lia|]. split; [done|]. split; [done|]. split; [done|].
  rewrite Hp1 in Sv2. cbn [concat]. eapply saved_trans; [exact Sv | exact Sv2].
Qed.

Lemma linear_pwritev_ok ow fl z s posix_fd fd f iov offset :
  opened_as (base z) z posix_fd fd f s -> good N s -> inv N ow fl s ->
  let n := Z.of_nat (length (concat iov)) in
  let pos := write_pos s (at_pos f offset) in
  0 <= offset -> pos + n <= MAX_SIZE -> n < 2 ^ 31 -> 3 * span pos n 0 <= Z.of_nat (length fl) ->
  exists s', NineElf.sabfs_pwritev true posix_fd iov offset z = Some (n, set_base z (set_js (base z) s')) /\ good N s' /\
    fdTable s' !! fd = Some f /\ saved s s' (f_ino f) (concat iov) pos.
Proof using.
  intros (Ej & _ & Em & Hfd & Ef) G Hi n pos Ho Hmax Hn Hfree. unfold NineElf.sabfs_pwritev.
  rewrite (cbind_ok _ _ _ fd z) by (by rewrite Em). rewrite (proj2 (Z.ltb_ge fd 0)) by done. cbn [negb].
  assert (Es : sum_len ((fun b => Z.of_nat (length b)) <$> iov) = n).
  { unfold n. clear. induction iov as [|b iov IH]; [done|]. rewrite length_concat_cons, <- IH. done. }
  unfold total_len. fold (sum_len ((fun b : list Z => Z.of_nat (length b)) <$> iov)). rewrite Es, uint_small by lia.
  rewrite Z.gtb_ltb, Z.ltb_irrefl. destruct (pwrite_whole ow fl s fd f (concat iov) offset G Hi Ef Ho Hmax)
    as (s1 & ow1 & fl1 & E1 & G1 & Ef1 & Sv & _); [fold n pos; destruct (0 <? n); lia|].
  exists s1. split; [|done]. unfold lift, sabfs_js_pwrite, js_call.
  by rewrite Ej, as_int_small, (proj2 (Z.ltb_ge _ _)), E1 by (fold n; lia).
Qed.

(** Both implementations read [data] back at [offset], for every list of
    buffers that has room for it and no more; the one of the backend up to the
    first empty buffer. *)
Definition reads_back (h : host) (z : nine) (posix_fd : Z) (state : SabfsFileState) (offset : Z) (data : list Z) : Prop :=
  forall lens, Forall (Z.le 0) lens -> sum_len lens = Z.of_nat (length data) ->
    let part := take (Z.to_nat (sum_len (before_empty lens))) data in
    concat (scatter data lens) = data /\ concat (scatter part (before_empty lens)) = part /\
    (exists h', NineBackend.sabfs_preadv (Some state) lens offset h =
                  Some ((Z.of_nat (length part), scatter part (before_empty lens)), h')) /\
    (exists z', NineElf.sabfs_preadv true posix_fd lens offset (set_base z h) =
                  Some ((Z.of_nat (length data), scatter data lens), z')).

Lemma int_sizes lens : Forall (Z.le 0) lens -> sum_len lens < 2 ^ 31 -> Forall int_size lens.
Proof using.
  induction 1 as [|len lens Hp Hl IH]; [constructor|]. pose proof (sum_len_nonneg lens Hl). unfold sum_len in *. cbn.
  intros Hs. constructor; [split; lia | apply IH; lia].
Qed.

Lemma file_part_shorter s ino offset lens :
  Forall (Z.le 0) lens ->
  file_part s ino offset (before_empty lens) =
    take (Z.to_nat (sum_len (before_empty lens))) (file_part s ino offset lens).
Proof using.
  intros Hl. pose proof (before_empty_sum lens Hl). unfold file_part. rewrite take_take. f_equal. lia.
Qed.

Lemma concat_prefix data lens :
  let part := take (Z.to_nat (sum_len (before_empty lens))) data in
  concat (scatter part (before_empty lens)) = part.
Proof using.
  intros part. rewrite concat_scatter by apply positive_le, before_empty_pos. unfold part. by rewrite take_take, Nat.min_id.
Qed.

Lemma saved_reads_back s s' z posix_fd fd f path offset data :
  saved s s' (f_ino f) data offset -> opened_as (base z) z posix_fd fd f s -> good N s' -> fdTable s' !! fd = Some f ->
  0 <= offset -> offset + Z.of_nat (length data) <= MAX_SIZE -> Z.of_nat (length data) < 2 ^ 31 ->
  reads_back (set_js (base z) s') z posix_fd {| fs_fd := fd; fs_path := path |} offset data.
Proof using.
  intros Sv (Ej & _ & Em & Hfd & _) G' Ef' Ho Hmax Hn lens Hl Hs.
  pose proof (saved_part s s' (f_ino f) data offset lens Sv Ho Hmax Hs) as Ep. split_and!.
  - by rewrite concat_scatter, Hs, Nat2Z.id, firstn_all by done.
  - apply concat_prefix.
  - destruct (preadv_loop_ok (set_js (base z) s') s' fd f offset lens 0 eq_refl G' Ef') as (h' & E1);
      [lia | lia | by apply int_sizes; [|lia] |].
    rewrite Z.add_0_r, file_part_shorter, Ep in E1 by done. by exists h'.
  - destruct (linear_preadv_ok (set_base z (set_js (base z) s')) s' posix_fd fd f offset lens) as (z' & E1);
      [by split_and! | done | done | done | lia |]. rewrite Ep in E1. by exists z'.
Qed.

(** C18: preadv in the two implementations.  sabfs_preadv, which reads
    everything and distributes it, fills the buffers with the bytes of the
    file from the offset on, as many as there are and as the buffers take;
    preadv of the backend, which calls the module once per buffer, does the
    same with the buffers before the first empty one and leaves the others
    alone.  So both return the same when no buffer is empty.  The offset is not
    negative, and the buffers take less than 2 GB. *)
Theorem preadv_implementations_agree z s posix_fd fd f path offset lens :
  good N s -> opened_as (base z) z posix_fd fd f s -> 0 <= offset -> Forall (Z.le 0) lens -> sum_len lens < 2 ^ 31 ->
  let part l := take (Z.to_nat (sum_len l)) (drop (Z.to_nat offset) (contents s (f_ino f))) in
  exists bufs bufs' h' z',
    NineElf.sabfs_preadv true posix_fd lens offset z = Some ((Z.of_nat (length (part lens)), bufs), z') /\
    concat bufs = part lens /\
    NineBackend.sabfs_preadv (Some {| fs_fd := fd; fs_path := path |}) lens offset (base z) =
      Some ((Z.of_nat (length (part (before_empty lens))), bufs'), h') /\
    concat bufs' = part (before_empty lens) /\
    (Forall (Z.lt 0) lens -> before_empty lens = lens /\ bufs' = bufs).
Proof using.
  intros G Hop Ho Hl Hs part. pose proof Hop as (Ej & _ & _ & _ & Ef).
  destruct (preadv_loop_ok (base z) s fd f offset lens 0 Ej G Ef) as (h' & E1); [lia | lia | by apply int_sizes |].
  destruct (linear_preadv_ok z s posix_fd fd f offset lens Hop G Ho Hl Hs) as (z' & E2). rewrite Z.add_0_r in E1.
  exists (scatter (part lens) lens), (scatter (part (before_empty lens)) (before_empty lens)), h', z'.
  split; [exact E2|]. split; [|split; [exact E1|split]].
  - rewrite concat_scatter by done. unfold part. by rewrite take_take, Nat.min_id.
  - rewrite concat_scatter by apply positive_le, before_empty_pos. unfold part. by rewrite take_take, Nat.min_id.
  - intros Hp. by rewrite before_empty_all.
Qed.

(** C17: what pwritev wrote, by either implementation and from any buffers,
    preadv of either implementation reads back into any buffers of the same
    total length, the one of the backend only up to the first empty buffer.  The
    data go to the offset, or to the end of the file if it was opened with
    O_APPEND, and are read from where they went.  They are less than 2 GB, stay
    within the block map ([MAX_SIZE]), and there were three free blocks for
    every block that a buffer touches. *)
Theorem pwritev_preadv z s st posix_fd fd f path iov offset :
  good N s -> opened_as (base z) z posix_fd fd f s ->
  let n := Z.of_nat (length (concat iov)) in
  let pos := if flag_set (f_flags f) O_APPEND then file_size s (f_ino f) else offset in
  let state := {| fs_fd := fd; fs_path := path |} in
  0 <= offset -> pos + n <= MAX_SIZE -> n < 2 ^ 31 -> statfs s = Some (st, s) ->
  3 * blocks_touched pos iov <= sf_bfree st -> 3 * span pos n 0 <= sf_bfree st ->
  (exists h1, NineBackend.sabfs_pwritev (Some state) iov offset (base z) = Some (n, h1) /\
              reads_back h1 z posix_fd state pos (concat iov)) /\
  (exists z1, NineElf.sabfs_pwritev true posix_fd iov offset z = Some (n, z1) /\
              reads_back (base z1) z posix_fd state pos (concat iov)).
Proof using.
  intros G Hop n pos state Ho Hmax Hn Est Hb1 Hb2. pose proof Hop as (Ej & _ & _ & _ & Ef).
  assert (Hp : 0 <= pos) by (unfold pos; destruct (flag_set _ _); [apply size_nonneg | done]).
  destruct (g_inv N s G) as (ow & fl & Hi). rewrite (statfs_ok N ow fl) in Est by done. injection Est as <-. cbn [sf_bfree] in *.
  assert (Ep : write_pos s (at_pos f (offset + 0)) = pos) by (by rewrite Z.add_0_r).
  split.
  - destruct (pwritev_loop_ok ow fl (base z) s fd f offset iov 0 Ej G Hi Ef) as (h1 & s1 & E1 & -> & G1 & Ef1 & Sv);
      [lia | by rewrite Ep | done | by rewrite Ep |]. rewrite Ep in Sv.
    eexists. split; [exact E1|]. by eapply saved_reads_back.
  - destruct (linear_pwritev_ok ow fl z s posix_fd fd f iov offset Hop G Hi Ho Hmax Hn Hb2) as (s1 & E1 & G1 & Ef1 & Sv).
    eexists. split; [exact E1|]. by eapply saved_reads_back.
Qed.

End Vec.

(** ** Examples *)

(** Descriptor 5 of the server is the open file of the sample. *)
Definition sample_nine : nine :=
  {| base := sample_host; elf_cache := []; elf_cache_fds := []; elf_cache_next_fd := ELF_CACHE_FD_BASE;
     elf_cache_initialized := false; sabfs_fd_map := replicate 5 (-1) ++ [3]; sabfs_initialized := true;
     sabfs_available := true |}.

Lemma sample_opened : opened_as (base sample_nine) sample_nine 5 3 sample_file sample_fs.
Proof. split; [reflexivity|]. split; [reflexivity|]. split; [reflexivity|]. split; [lia | exact sample_open]. Qed.

(** With three bytes in the file, buffers of one byte and of three. *)
Lemma preadv_implementations_agree_witness :
  exists s1 bufs h' z', pwrite 3 [7; 8; 9] 3 0 sample_fs = Some (3, s1) /\ concat bufs = [8; 9] /\
    NineBackend.sabfs_preadv (Some {| fs_fd := 3; fs_path := [47; 102] |}) [1; 3] 1 (set_js sample_host s1) =
      Some ((2, bufs), h') /\
    NineElf.sabfs_preadv true 5 [1; 3] 1 (set_base sample_nine (set_js sample_host s1)) = Some ((2, bufs), z').
Proof.
  destruct sample_written as (s1 & E1 & G1 & Ef1 & Ec).
  destruct (preadv_implementations_agree 4 (set_base sample_nine (set_js sample_host s1)) s1 5 3 sample_file [47; 102] 1 [1; 3] G1)
    as (bufs & bufs' & h' & z' & E2 & E3 & E4 & _ & Ha); [| lia | repeat constructor; lia | cbn; lia |].
  { split; [reflexivity|]. split; [reflexivity|]. split; [reflexivity|]. split; [lia | exact Ef1]. }
  change (f_ino sample_file) with 1 in *. rewrite Ec in E2, E3, E4. destruct Ha as [_ ->]; [repeat constructor; lia|].
  exists s1, bufs, h', z'. split; [exact E1|]. split; [exact E3|]. split; [exact E4 | exact E2].
Defined.

(** Three bytes in two buffers across the end of a block, read into two other
    buffers. *)
Lemma pwritev_preadv_witness :
  exists h1 h2,
    NineBackend.sabfs_pwritev (Some {| fs_fd := 3; fs_path := [47; 102] |}) [[7]; [8; 9]] 4095 sample_host = Some (3, h1) /\
    NineBackend.sabfs_preadv (Some {| fs_fd := 3; fs_path := [47; 102] |}) [2; 1] 4095 h1 = Some ((3, [[7; 8]; [9]]), h2).
Proof.
  destruct (pwritev_preadv 4 sample_nine sample_fs
    {| sf_blocks := 14; sf_bfree := 12; sf_files := 4; sf_ffree := 2; sf_namelen := 255 |} 5 3 sample_file [47; 102]
    [[7]; [8; 9]] 4095 sample_good sample_opened)
    as [(h1 & E1 & Hr) _]; [lia | apply (sample_fits 4095); lia | cbn; lia | apply sample_statfs | vm_compute; discriminate
    | vm_compute; discriminate |].
  destruct (Hr [2; 1]) as (_ & _ & (h2 & E2) & _); [repeat constructor; lia | reflexivity |].
  exists h1, h2. split; [exact E1 | exact E2].
Defined.
