(* ===== verification/NineCache.v ===== *)
(** * The cache of executables is safe

    [cache_op] are the functions of the ELF cache of 9p-sabfs.c.  Whatever
    calls are made, reference counts cover the descriptors in use, so that a
    file is never evicted while a descriptor reads it, and no call reads
    outside the data of a file.  The counts need not be exact: a descriptor
    whose slot is given out again is lost without being counted down. *)

From Stdlib Require Import ZArith Lia Bool.
From stdpp Require Import base numbers functions list option gmap.
From S2P Require Import Prelude.
From S2P Require Import SabFs.
From S2P Require Import SabApi.
From S2P Require Import SabFile.
From S2P Require Import SabGood.
From S2P Require Import SabSafe.
From S2P Require Import SabOps.
From S2P Require Import SabIo.
From S2P Require Import SabMain.
From S2P Require Import NineBackend.
From S2P Require Import NineElf.
From S2P Require Import NineOk.

Local Open Scope Z_scope.

(** ** Searches and counts *)

Lemma first_index_Some {A} (p : A -> bool) l i :
  first_index p l = Some i -> exists x, l !! i = Some x /\ p x = true.
Proof.
  revert i. induction l as [|x l IH]; intros i; cbn; [done|]. destruct (p x) eqn:Ex.
  - intros [= <-]. by exists x.
  - destruct (first_index p l) as [j|]; [|done]. intros [= <-]. by apply IH.
Qed.

Lemma first_index_None {A} (p : A -> bool) l i x : first_index p l = None -> l !! i = Some x -> p x = false.
Proof.
  revert i. induction l as [|y l IH]; intros i; cbn; [done|]. destruct (p y) eqn:Ey; [done|].
  destruct (first_index p l); [done|]. destruct i; cbn; [by intros _ [= <-] | by apply IH].
Qed.

(** Whether the descriptor is in use on entry [i], and the number of those. *)
Definition on_entry (i : nat) (f : ElfCacheFd) : bool := c_active f && Nat.eqb (cache_idx f) i.

Definition held (fds : list ElfCacheFd) (i : nat) : Z := Z.of_nat (length (List.filter (on_entry i) fds)).

Lemma held_insert fds i j f f' :
  fds !! j = Some f -> held (<[j := f']> fds) i + Z.b2z (on_entry i f) = held fds i + Z.b2z (on_entry i f').
Proof.
  unfold held. revert j. induction fds as [|g fds IH]; intros j; [done|]. destruct j as [|j].
  - intros [= ->]. change (<[O := f']> (f :: fds)) with (f' :: fds). cbn [List.filter].
    destruct (on_entry i f), (on_entry i f'); cbn [length Z.b2z]; lia.
  - intros Hj. specialize (IH j Hj). change (<[S j := f']> (g :: fds)) with (g :: <[j := f']> fds). cbn [List.filter].
    destruct (on_entry i g); cbn [length]; lia.
Qed.

Lemma held_pos fds i j f : fds !! j = Some f -> on_entry i f = true -> 1 <= held fds i.
Proof.
  unfold held. revert j. induction fds as [|g fds IH]; intros j; [done|]. destruct j as [|j]; cbn.
  - intros [= ->] ->. cbn. lia.
  - intros Hj Hf. specialize (IH j Hj Hf). destruct (on_entry i g); cbn; lia.
Qed.

Lemma held_none fds i : (forall j f, fds !! j = Some f -> c_active f = false) -> held fds i = 0.
Proof.
  unfold held. intros H. induction fds as [|g fds IH]; [done|]. cbn. unfold on_entry at 1.
  rewrite (H O g eq_refl). cbn. apply IH. intros j f Hj. by apply (H (S j)).
Qed.

(** ** The functions *)

Inductive cache_op :=
| CPreload (posix : list Z -> posix_file) (mem : bool) (r : realloc_result) (path : list Z) | CIsCached (path : list Z) | COpen (path : list Z)
| CPread (fd count offset : Z) | CRead (fd count : Z) | CLseek (fd offset whence : Z) | CFstat (fd : Z)
| CStat (path : list Z) | CClose (fd : Z) | CPreadv (fd : Z) (iov : list Z) (offset : Z).

Inductive cache_reply :=
| KNum (r : Z) | KBool (b : bool) | KBytes (r : option (list Z)) | KStat (r : option (Z * Z * Z * Z * Z * Z))
| KRead (r : Z * list (list Z)).

Definition kreply {A} (f : A -> cache_reply) (m : St nine A) : St nine cache_reply := cbind m (fun x => cret (f x)).

(** The data that a descriptor reads. *)
Definition cached_file (s : nine) (fd : Z) : option (list Z) :=
  match cfd_of fd s with
  | Some f => if c_active f then match elf_cache s !! cache_idx f with Some e => e_data e | None => None end else None
  | None => None
  end.

Section Cache.
Context `{B : Browser} `{E : Emscripten} (N : Z).

Definition cache_perform (op : cache_op) : St nine cache_reply :=
  match op with
  | CPreload posix mem r path => kreply KNum (elf_cache_preload posix mem r path)
  | CIsCached path => kreply KBool (elf_cache_is_cached path)
  | COpen path => kreply KNum (elf_cache_open path)
  | CPread fd count offset => kreply KBytes (elf_cache_pread fd count offset)
  | CRead fd count => kreply KBytes (elf_cache_read fd count)
  | CLseek fd offset whence => kreply KNum (elf_cache_lseek fd offset whence)
  | CFstat fd => kreply KStat (elf_cache_fstat fd)
  | CStat path => kreply KStat (elf_cache_stat path)
  | CClose fd => kreply KNum (elf_cache_close fd)
  | CPreadv fd iov offset => kreply KRead (elf_cache_preadv fd iov offset)
  end.

(** The reads of a file, of which [need] bytes are wanted, come to an end: the
    bytes, the end of the file or an error. *)
Fixpoint reads_end (need : Z) (reads : list read_result) : bool :=
  if need <=? 0 then true
  else
    match reads with
    | [] => false
    | ReadEintr :: reads => reads_end need reads
    | ReadError :: _ => true
    | ReadBytes l :: reads => match l with [] => true | _ => reads_end (need - Z.of_nat (length l)) reads end
    end.

(** What the host's system calls do: sizes are below 4 GB, and read is not
    interrupted for ever. *)
Definition posix_answers (posix : list Z -> posix_file) : Prop :=
  forall p size, p_stat (posix p) = Some size -> 0 <= size < 2 ^ 32 /\ reads_end size (p_reads (posix p)) = true.

(** Offsets are not negative and do not overflow; realloc does not free a block
    that it is asked to make empty. *)
Definition cache_allowed (s : nine) (op : cache_op) : Prop :=
  match op with
  | CPreload posix _ r _ => posix_answers posix /\ r <> Freed
  | CPread _ count offset => 0 <= count /\ 0 <= offset
  | CRead _ count => 0 <= count
  | CLseek fd offset _ =>
      - 2 ^ 63 <= offset /\ forall f e, cfd_of fd s = Some f -> elf_cache s !! cache_idx f = Some e ->
        Z.max (c_offset f) (e_size e) + offset < 2 ^ 63
  | CPreadv _ iov offset => Forall (Z.le 0) iov /\ 0 <= offset
  | _ => True
  end.

(** ** The invariant *)

(** [n]: the number of calls so far, which bounds the counts. *)
Record entry_ok (n : Z) (fds : list ElfCacheFd) (i : nat) (e : ElfCacheEntry) : Prop := {
  en_held : held fds i <= e_refcount e;
  en_count : e_refcount e <= n;
  en_used : 0 < held fds i -> e_active e = true;
  en_data : e_active e = true ->
    exists d, e_data e = Some d /\ e_size e = Z.of_nat (length d) /\ Z.of_nat (length d) <= ELF_CACHE_MAX_FILE_SIZE;
}.

Record cache_ok (n : Z) (s : nine) : Prop := {
  ck_host : hgood N (base s);
  ck_files : length (elf_cache s) = ELF_CACHE_MAX_FILES;
  ck_fds : length (elf_cache_fds s) = Z.to_nat ELF_CACHE_MAX_FDS;
  ck_next : ELF_CACHE_FD_BASE <= elf_cache_next_fd s <= ELF_CACHE_FD_BASE + ELF_CACHE_MAX_FDS;
  ck_entries : forall i e, elf_cache s !! i = Some e -> entry_ok n (elf_cache_fds s) i e;
  ck_slots : forall j f, elf_cache_fds s !! j = Some f -> c_active f = true ->
    0 <= c_offset f /\ (cache_idx f < ELF_CACHE_MAX_FILES)%nat;
  ck_init : elf_cache_initialized s = false -> forall j f, elf_cache_fds s !! j = Some f -> c_active f = false;
}.

(** Descriptors that are not closed or given out again read the same data. *)
Definition keeps_files (except : Z -> Prop) (s s' : nine) : Prop :=
  forall fd d, cached_file s fd = Some d -> except fd \/ cached_file s' fd = Some d.

Definition csafe {A} (m : St nine A) (n : Z) (s : nine) (except : A -> Z -> Prop) (Q : A -> nine -> Prop) : Prop :=
  exists a s', m s = Some (a, s') /\ cache_ok n s' /\ keeps_files (except a) s s' /\ Q a s'.

Definition nothing {A} (_ : A) (_ : Z) : Prop := False.

Lemma keeps_files_refl (ex : Z -> Prop) s : keeps_files ex s s.
Proof using. intros fd d H. by right. Qed.

Lemma csafe_ret {A} (a : A) n s ex (Q : A -> nine -> Prop) : cache_ok n s -> Q a s -> csafe (cret a) n s ex Q.
Proof using. intros Ck HQ. exists a, s. split; [done|]. split; [done|]. split; [apply keeps_files_refl | done]. Qed.

Lemma csafe_bind {A C} (m : St nine A) (f : A -> St nine C) n n' s ex Q R :
  csafe m n s nothing Q -> (forall a s', cache_ok n s' -> Q a s' -> csafe (f a) n' s' ex R) -> csafe (cbind m f) n' s ex R.
Proof using.
  intros (a & s1 & E1 & C1 & K1 & Ha) Hf. destruct (Hf a s1 C1 Ha) as (b & s2 & E2 & C2 & K2 & Hb).
  exists b, s2. rewrite (cbind_ok _ _ _ _ _ E1). split; [done|]. split; [done|]. split; [|done].
  intros fd d Hd. destruct (K1 fd d Hd) as [[]|Hd1]. by apply K2.
Qed.

Lemma cache_ok_mono n n' s : n <= n' -> cache_ok n s -> cache_ok n' s.
Proof using.
  intros Hn [H1 H2 H3 H4 H5 H6 H7]. split; try done. intros i e He. destruct (H5 i e He). split; try done. lia.
Qed.

(** ** Changes of the arrays *)

Lemma cfd_of_lookup fd s f :
  cfd_of fd s = Some f ->
  ELF_CACHE_FD_BASE <= fd < ELF_CACHE_FD_BASE + ELF_CACHE_MAX_FDS /\ elf_cache_fds s !! Z.to_nat (fd - ELF_CACHE_FD_BASE) = Some f.
Proof using.
  unfold cfd_of. rewrite Z.geb_leb. destruct (Z.ltb_spec fd ELF_CACHE_FD_BASE); [done|].
  destruct (Z.leb_spec ELF_CACHE_MAX_FDS (fd - ELF_CACHE_FD_BASE)); [done|]. intros Hf. split; [lia | done].
Qed.

Lemma cfd_of_in fd s :
  ELF_CACHE_FD_BASE <= fd < ELF_CACHE_FD_BASE + ELF_CACHE_MAX_FDS ->
  cfd_of fd s = elf_cache_fds s !! Z.to_nat (fd - ELF_CACHE_FD_BASE).
Proof using.
  intros H. unfold cfd_of. rewrite Z.geb_leb. by rewrite (proj2 (Z.ltb_ge _ _)), (proj2 (Z.leb_gt _ _)) by lia.
Qed.

Lemma cached_file_Some s fd d :
  cached_file s fd = Some d ->
  exists f e, cfd_of fd s = Some f /\ c_active f = true /\ elf_cache s !! cache_idx f = Some e /\ e_data e = Some d.
Proof using.
  unfold cached_file. intros H. destruct (cfd_of fd s) as [f|] eqn:Ef; [|done]. destruct (c_active f) eqn:Ea; [|done].
  destruct (elf_cache s !! cache_idx f) as [e|] eqn:Ee; [|done]. by exists f, e.
Qed.

Lemma active_held s fd f : cfd_of fd s = Some f -> c_active f = true -> 1 <= held (elf_cache_fds s) (cache_idx f).
Proof using.
  intros Hf Ha. destruct (cfd_of_lookup fd s f Hf) as [_ Hj]. eapply held_pos; [exact Hj|].
  unfold on_entry. by rewrite Ha, Nat.eqb_refl.
Qed.

(** An entry that nobody reads, or whose data stay. *)
Lemma set_cached_ok n s i e e' :
  cache_ok n s -> elf_cache s !! i = Some e -> entry_ok n (elf_cache_fds s) i e' ->
  held (elf_cache_fds s) i = 0 \/ e_data e' = e_data e ->
  cache_ok n (set_cached s i e') /\ keeps_files (fun _ => False) s (set_cached s i e').
Proof using.
  intros [H1 H2 H3 H4 H5 H6 H7] Hi He' Hd. pose proof (lookup_lt_Some _ _ _ Hi) as Hlt. split.
  - split; try done; cbn.
    + by rewrite length_insert.
    + intros k e0. rewrite list_lookup_insert_Some. intros [(<- & <- & _) | [_ Hk]]; [done | by apply H5].
  - intros fd d Hfd. right. destruct (cached_file_Some s fd d Hfd) as (f & e0 & Hf & Ha & He0 & Hd0).
    unfold cached_file. change (cfd_of fd (set_cached s i e')) with (cfd_of fd s). rewrite Hf, Ha. cbn.
    destruct (decide (cache_idx f = i)) as [<- | Hne]; [|by rewrite list_lookup_insert_ne, He0].
    rewrite list_lookup_insert_eq by done. rewrite Hi in He0. injection He0 as <-.
    pose proof (active_held s fd f Hf Ha). destruct Hd as [Hd | ->]; [lia | done].
Qed.

(** A descriptor is moved. *)
Lemma set_offset_ok n s fd f o :
  cache_ok n s -> cfd_of fd s = Some f -> 0 <= o ->
  let s' := set_cfd s (Z.to_nat (fd - ELF_CACHE_FD_BASE)) {| cache_idx := cache_idx f; c_offset := o; c_active := c_active f |} in
  cache_ok n s' /\ keeps_files (fun _ => False) s s'.
Proof using.
  intros [H1 H2 H3 H4 H5 H6 H7] Hf Ho s'. destruct (cfd_of_lookup fd s f Hf) as [Hr Hj].
  pose proof (lookup_lt_Some _ _ _ Hj) as Hlt. set (j := Z.to_nat (fd - ELF_CACHE_FD_BASE)) in *. split.
  - split; try done; cbn.
    + by rewrite length_insert.
    + intros i e He. destruct (H5 i e He) as [E1 E2 E3 E4].
      pose proof (held_insert (elf_cache_fds s) i j f {| cache_idx := cache_idx f; c_offset := o; c_active := c_active f |} Hj) as Eh.
      change (on_entry i {| cache_idx := cache_idx f; c_offset := o; c_active := c_active f |}) with (on_entry i f) in Eh.
      split; [lia | done | intros; apply E3; lia | done].
    + intros k f0. rewrite list_lookup_insert_Some. intros [(_ & <- & _) | [_ Hk]]; [|by apply (H6 k f0)].
      cbn. intros Ha. split; [done | by apply (H6 j f)].
    + intros Hi k f0. rewrite list_lookup_insert_Some. intros [(_ & <- & _) | [_ Hk]]; [by apply (H7 Hi j f) | by apply (H7 Hi k f0)].
  - intros fd' d Hd. right. destruct (cached_file_Some s fd' d Hd) as (f' & e & Hf' & Ha & He & Ed).
    destruct (cfd_of_lookup fd' s f' Hf') as [Hr' Hj']. unfold cached_file. rewrite cfd_of_in by done.
    unfold s'. cbn [set_cfd set_elf elf_cache elf_cache_fds].
    destruct (decide (Z.to_nat (fd' - ELF_CACHE_FD_BASE) = j)) as [Ej | Hne].
    + rewrite Ej, Hj in Hj'. injection Hj' as <-. rewrite Ej, list_lookup_insert_eq by done.
      cbn [c_active cache_idx]. by rewrite Ha, He.
    + rewrite list_lookup_insert_ne by done. by rewrite Hj', Ha, He.
Qed.

(** ** The functions that only look *)

Lemma csafe_eq {A} (m : St nine A) n s a ex (Q : A -> nine -> Prop) : cache_ok n s -> m s = Some (a, s) -> Q a s -> csafe m n s ex Q.
Proof using. intros Ck Em Ha. exists a, s. split; [done|]. split; [done|]. split; [apply keeps_files_refl | done]. Qed.

Lemma csafe_init n s : cache_ok n s -> csafe elf_cache_init n s nothing (fun _ s' => elf_cache_initialized s' = true).
Proof using.
  intros Ck. unfold csafe, elf_cache_init. destruct (elf_cache_initialized s) eqn:Ei.
  { exists tt, s. by split_and!; [| |apply keeps_files_refl|]. }
  destruct Ck as [H1 H2 H3 H4 H5 H6 H7]. eexists tt, _. split; [done|]. split; [|split; [|done]].
  - assert (Hn : forall j f, ((fun f => {| cache_idx := cache_idx f; c_offset := c_offset f; c_active := false |}) <$>
        elf_cache_fds s) !! j = Some f -> c_active f = false).
    { intros j f. rewrite list_lookup_fmap, fmap_Some. by intros (f0 & _ & ->). }
    split; cbn; [done | by rewrite length_fmap | by rewrite length_fmap | done | | |done].
    + intros i e. rewrite list_lookup_fmap, fmap_Some. intros (e0 & He0 & ->). destruct (H5 i e0 He0) as [E1 E2 _ _].
      rewrite (held_none (elf_cache_fds s) i (H7 Ei)) in E1.
      split; cbn; [| done | | done]; rewrite (held_none _ i Hn); [done | lia].
    + intros j f Hj Ha. by rewrite (Hn j f Hj) in Ha.
  - intros fd d Hd. destruct (cached_file_Some s fd d Hd) as (f & e & Hf & Ha & _).
    destruct (cfd_of_lookup fd s f Hf) as [_ Hj]. by rewrite (H7 Ei _ _ Hj) in Ha.
Qed.

Lemma find_Some path s i :
  elf_cache_find path s = Some i -> exists e, elf_cache s !! i = Some e /\ e_active e = true /\ e_path e = path.
Proof using.
  intros H. apply first_index_Some in H as (e & He & Hp). exists e. apply andb_true_iff in Hp as [Ha Hs].
  unfold str_eqb in Hs. by case_bool_decide.
Qed.

(** An active descriptor has an active entry with its data. *)
Lemma active_entry n s fd f :
  cache_ok n s -> cfd_of fd s = Some f -> c_active f = true ->
  exists e d, elf_cache s !! cache_idx f = Some e /\ e_active e = true /\ e_data e = Some d /\ e_size e = Z.of_nat (length d) /\
    Z.of_nat (length d) <= ELF_CACHE_MAX_FILE_SIZE /\ 0 <= c_offset f.
Proof using.
  intros Ck Ef Ea. destruct (cfd_of_lookup fd s f Ef) as [_ Hj]. destruct (ck_slots _ _ Ck _ _ Hj Ea) as [Ho Hlt].
  rewrite <- (ck_files _ _ Ck) in Hlt. destruct (lookup_lt_is_Some_2 _ _ Hlt) as [e He].
  destruct (ck_entries _ _ Ck _ _ He) as [_ _ Hu Hd]. pose proof (active_held s fd f Ef Ea).
  destruct (Hd (Hu ltac:(lia))) as (d & Ed & Es & Hmax). exists e, d. split_and!; try done. apply Hu. lia.
Qed.

Lemma csafe_with_cfd {A} (err : A) fd k n n' s ex Q :
  cache_ok n s -> n <= n' -> Q err s ->
  (forall f e d, cfd_of fd s = Some f -> c_active f = true -> elf_cache s !! cache_idx f = Some e -> e_active e = true ->
     e_data e = Some d -> e_size e = Z.of_nat (length d) -> Z.of_nat (length d) <= ELF_CACHE_MAX_FILE_SIZE ->
     csafe (k f e) n' s ex Q) ->
  csafe (with_cfd err fd k) n' s ex Q.
Proof using.
  intros Ck Hn Herr Hk. unfold csafe, with_cfd, elf_cache_is_cache_fd.
  destruct (cfd_of fd s) as [f|] eqn:Ef; [destruct (c_active f) eqn:Ea|]; cbn [negb].
  2,3: exists err, s; split_and!; [done | by eapply cache_ok_mono | apply keeps_files_refl | done].
  destruct (active_entry n s fd f Ck Ef Ea) as (e & d & He & Hea & Ed & Es & Hm & _). rewrite He. by apply (Hk f e d).
Qed.

(** ** Reading *)

Lemma copy_from_ok e d offset n :
  e_data e = Some d -> 0 <= offset -> offset + n <= Z.of_nat (length d) ->
  copy_from e offset n = Some (take (Z.to_nat n) (drop (Z.to_nat offset) d)).
Proof using. intros Ed Ho Hn. unfold copy_from. by rewrite Ed, (proj2 (Z.leb_le _ _)), (proj2 (Z.leb_le _ _)). Qed.

(** What is left of the data at an offset before the end. *)
Lemma to_read_ok e (d : list Z) offset count :
  e_size e = Z.of_nat (length d) -> Z.of_nat (length d) <= ELF_CACHE_MAX_FILE_SIZE -> 0 <= count -> 0 <= offset < e_size e ->
  let available := uint 32 (e_size e - offset) in
  (if count <? available then count else available) = Z.min count (Z.of_nat (length d) - offset).
Proof using.
  intros Es Hm Hc Ho. unfold ELF_CACHE_MAX_FILE_SIZE in Hm. rewrite Es, uint_small by lia. cbn zeta.
  destruct (Z.ltb_spec count (Z.of_nat (length d) - offset)); lia.
Qed.

Lemma take_min_drop (d : list Z) offset count :
  0 <= offset -> 0 <= count ->
  take (Z.to_nat (Z.min count (Z.of_nat (length d) - offset))) (drop (Z.to_nat offset) d) =
    take (Z.to_nat count) (drop (Z.to_nat offset) d).
Proof using.
  intros Ho Hc. destruct (Z.min_spec count (Z.of_nat (length d) - offset)) as [[_ ->] | [Hle ->]]; [done|].
  rewrite !take_ge; [done | rewrite length_drop; lia..].
Qed.

Lemma pread_active n s fd count offset :
  cache_ok n s -> 0 <= count -> 0 <= offset -> elf_cache_is_cache_fd fd s = true ->
  exists d, cached_file s fd = Some d /\
    elf_cache_pread fd count offset s = Some (Some (take (Z.to_nat count) (drop (Z.to_nat offset) d)), s).
Proof using.
  intros Ck Hc Ho Hfd. pose proof Hfd as Ha. unfold elf_cache_is_cache_fd in Ha. destruct (cfd_of fd s) as [f|] eqn:Ef; [|done].
  destruct (active_entry n s fd f Ck Ef Ha) as (e & d & He & Hea & Ed & Es & Hm & _). exists d. split.
  { unfold cached_file. by rewrite Ef, Ha, He. }
  unfold elf_cache_pread, with_cfd. rewrite Hfd, Ef, He, Hea. cbn [negb]. rewrite Z.geb_leb.
  destruct (Z.leb_spec (e_size e) offset) as [Hge | Hlt].
  { rewrite drop_ge by lia. by rewrite take_nil. }
  cbv zeta. rewrite (to_read_ok e d) by (done || lia). rewrite (copy_from_ok e d) by (done || lia). by rewrite take_min_drop by lia.
Qed.

Lemma csafe_pread n s fd count offset :
  cache_ok n s -> 0 <= count -> 0 <= offset -> csafe (elf_cache_pread fd count offset) n s nothing (fun _ _ => True).
Proof using.
  intros Ck Hc Ho. destruct (elf_cache_is_cache_fd fd s) eqn:Hfd.
  - destruct (pread_active n s fd count offset Ck Hc Ho Hfd) as (d & _ & E1). by eapply csafe_eq.
  - eapply csafe_eq; [done | unfold elf_cache_pread, with_cfd; by rewrite Hfd | done].
Qed.

Lemma csafe_read n s fd count : cache_ok n s -> 0 <= count -> csafe (elf_cache_read fd count) n s nothing (fun _ _ => True).
Proof using.
  intros Ck Hc. apply (csafe_with_cfd _ _ _ n); [done | done | done|]. intros f e d Ef Ha He Hea Ed Es Hm.
  destruct (active_entry n s fd f Ck Ef Ha) as (_ & _ & _ & _ & _ & _ & _ & Ho).
  destruct (pread_active n s fd count (c_offset f) Ck Hc Ho) as (d' & _ & E1).
  { unfold elf_cache_is_cache_fd. by rewrite Ef. }
  unfold csafe. rewrite (cbind_ok _ _ _ _ _ E1). destruct (take _ _) as [|x l].
  - by apply csafe_ret.
  - destruct (set_offset_ok n s fd f (c_offset f + Z.of_nat (length (x :: l))) Ck Ef ltac:(lia)) as [Ck' K'].
    eexists _, _. split; [done|]. split; [exact Ck'|]. split; [exact K' | done].
Qed.

Lemma csafe_lseek n s fd offset whence :
  cache_ok n s -> cache_allowed s (CLseek fd offset whence) -> csafe (elf_cache_lseek fd offset whence) n s nothing (fun _ _ => True).
Proof using.
  intros Ck [Hlo Hhi]. apply (csafe_with_cfd _ _ _ n); [done | done | done|]. intros f e d Ef Ha He Hea Ed Es Hm.
  destruct (active_entry n s fd f Ck Ef Ha) as (_ & _ & _ & _ & _ & _ & _ & Ho). specialize (Hhi f e Ef He).
  assert (Hr : forall o, o = offset \/ o = c_offset f + offset \/ o = e_size e + offset ->
    negb ((- 2 ^ 63 <=? o) && (o <? 2 ^ 63)) = false).
  { intros o Hor. rewrite (proj2 (Z.leb_le _ _)), (proj2 (Z.ltb_lt _ _)) by lia. done. }
  destruct (if whence =? 0 then _ else _) as [o|] eqn:Eo; [|by apply csafe_ret].
  rewrite Hr by (repeat case_match; simplify_eq; auto). destruct (Z.ltb_spec o 0); [by apply csafe_ret|].
  destruct (set_offset_ok n s fd f o Ck Ef) as [Ck' K']; [done|]. eexists _, _. split; [done|]. split; [exact Ck'|].
  split; [exact K' | done].
Qed.

Lemma cached_preadv_ok e d offset iov :
  e_data e = Some d -> e_size e = Z.of_nat (length d) -> Z.of_nat (length d) <= ELF_CACHE_MAX_FILE_SIZE ->
  0 <= offset -> Forall (Z.le 0) iov -> exists ls, cached_preadv_loop e offset iov = Some ls.
Proof using.
  intros Ed Es Hm Ho Hl. revert offset Ho. induction Hl as [|len iov Hp Hl IH]; intros offset Ho; cbn [cached_preadv_loop]; [by eexists|].
  destruct (Z.ltb_spec offset (e_size e)) as [Hlt | Hge]; [|by eexists]. cbv zeta.
  rewrite (to_read_ok e d) by (done || lia). rewrite (copy_from_ok e d) by (done || lia).
  destruct (_ <? len); [by eexists|]. destruct (IH (offset + Z.min len (Z.of_nat (length d) - offset))) as [ls ->]; [lia | by eexists].
Qed.

Lemma csafe_preadv n s fd iov offset :
  cache_ok n s -> Forall (Z.le 0) iov -> 0 <= offset -> csafe (elf_cache_preadv fd iov offset) n s nothing (fun _ _ => True).
Proof using.
  intros Ck Hl Ho. apply (csafe_with_cfd _ _ _ n); [done | done | done|]. intros f e d Ef Ha He Hea Ed Es Hm.
  rewrite Hea. cbn [negb]. destruct (_ >=? _); [by apply csafe_ret|].
  destruct (cached_preadv_ok e d offset iov Ed Es Hm Ho Hl) as [ls Els].
  eapply csafe_eq; [done | by rewrite Els | done].
Qed.

Lemma csafe_stat n s path : cache_ok n s -> csafe (elf_cache_stat path) n s nothing (fun _ _ => True).
Proof using.
  intros Ck. eapply csafe_bind; [by apply csafe_init|]. intros [] s' Ck' _. destruct (elf_cache_find path s') as [i|] eqn:Ef.
  - destruct (find_Some path s' i Ef) as (e & He & _). eapply csafe_eq; [done | by rewrite Ef, He | done].
  - eapply csafe_eq; [done | by rewrite Ef | done].
Qed.

Lemma csafe_is_cached n s path : cache_ok n s -> csafe (elf_cache_is_cached path) n s nothing (fun _ _ => True).
Proof using.
  intros Ck. eapply csafe_bind; [by apply csafe_init|]. intros [] s' Ck' _. by eapply csafe_eq.
Qed.

(** ** Opening and closing *)

(** Slot [j] and the count of entry [i] change together. *)
Lemma set_slot_ok n n' s j f f' i e r next :
  cache_ok n s -> n <= n' -> elf_cache_fds s !! j = Some f -> elf_cache s !! i = Some e ->
  (forall k, k <> i -> on_entry k f' = false) -> (c_active f' = true -> e_active e = true /\ 0 <= c_offset f' /\ cache_idx f' = i) ->
  held (<[j := f']> (elf_cache_fds s)) i <= r <= n' ->
  ELF_CACHE_FD_BASE <= next <= ELF_CACHE_FD_BASE + ELF_CACHE_MAX_FDS ->
  (elf_cache_initialized s = false -> c_active f' = false) ->
  let e' := {| e_path := e_path e; e_data := e_data e; e_size := e_size e; e_mode := e_mode e; e_refcount := r;
               e_active := e_active e |} in
  let s' := set_elf s (<[i := e']> (elf_cache s)) (<[j := f']> (elf_cache_fds s)) next in
  cache_ok n' s' /\ keeps_files (fun fd => fd = ELF_CACHE_FD_BASE + Z.of_nat j) s s'.
Proof using.
  intros [H1 H2 H3 H4 H5 H6 H7] Hn Hj Hi Hk Hf' Hr Hnext Hin e' s'.
  pose proof (lookup_lt_Some _ _ _ Hj) as Hjl. pose proof (lookup_lt_Some _ _ _ Hi) as Hil. split.
  - split; try done; cbn [s' set_elf elf_cache elf_cache_fds].
    + by rewrite length_insert.
    + by rewrite length_insert.
    + intros k e0. rewrite list_lookup_insert_Some. pose proof (held_insert (elf_cache_fds s) k j f f' Hj) as Eh.
      intros [(<- & <- & _) | [Hne He0]].
      * destruct (H5 i e Hi) as [E1 E2 E3 E4]. split; cbn [e' e_refcount e_active e_data e_size]; [lia | lia | | done].
        intros Hh. destruct (c_active f') eqn:Ea; [by apply Hf'|]. apply E3.
        assert (on_entry i f' = false) as Ho by (unfold on_entry; by rewrite Ea). rewrite Ho in Eh. cbn [Z.b2z] in Eh.
        destruct (on_entry i f); cbn [Z.b2z] in Eh; lia.
      * destruct (H5 k e0 He0) as [E1 E2 E3 E4]. rewrite (Hk k) in Eh by done. cbn [Z.b2z] in Eh.
        assert (0 <= Z.b2z (on_entry k f)) by (by destruct (on_entry k f)).
        split; [lia | lia | intros; apply E3; lia | done].
    + intros k f0. rewrite list_lookup_insert_Some. intros [(_ & <- & _) | [_ Hk0]]; [|by apply (H6 k f0)].
      intros Ha. destruct (Hf' Ha) as (_ & Ho & ->). split; [done | by rewrite <- H2].
    + intros Hinit k f0. rewrite list_lookup_insert_Some. intros [(_ & <- & _) | [_ Hk0]]; [by apply Hin | by apply (H7 Hinit k f0)].
  - intros fd d Hd. destruct (cached_file_Some s fd d Hd) as (f0 & e0 & Hf0 & Ha & He0 & Ed).
    destruct (cfd_of_lookup fd s f0 Hf0) as [Hfr Hfj].
    destruct (decide (Z.to_nat (fd - ELF_CACHE_FD_BASE) = j)) as [Ej | Hne]; [left; lia | right].
    unfold cached_file. rewrite cfd_of_in by done. unfold s'. cbn [set_elf elf_cache elf_cache_fds].
    rewrite list_lookup_insert_ne, Hfj, Ha by done. destruct (decide (cache_idx f0 = i)) as [Ei | Hni].
    + rewrite Ei, list_lookup_insert_eq by done. rewrite Ei, Hi in He0. by injection He0 as <-.
    + by rewrite list_lookup_insert_ne, He0.
Qed.

Lemma csafe_close n s fd : cache_ok n s -> csafe (elf_cache_close fd) n s (fun _ fd' => fd' = fd) (fun _ _ => True).
Proof using.
  intros Ck. apply (csafe_with_cfd _ _ _ n); [done | done | done|]. intros f e d Ef Ha He Hea Ed Es Hm.
  destruct (cfd_of_lookup fd s f Ef) as [Hr Hj]. pose proof (active_held s fd f Ef Ha) as Hh.
  destruct (ck_entries _ _ Ck _ _ He) as [E1 E2 _ _]. unfold csafe. rewrite Z.gtb_ltb, (proj2 (Z.ltb_lt _ _)) by lia.
  set (j := Z.to_nat (fd - ELF_CACHE_FD_BASE)) in *. set (f' := {| cache_idx := cache_idx f; c_offset := c_offset f; c_active := false |}).
  pose proof (held_insert (elf_cache_fds s) (cache_idx f) j f f' Hj) as Eh. unfold on_entry in Eh. cbn [f' c_active andb] in Eh.
  rewrite Ha, Nat.eqb_refl in Eh. cbn [andb Z.b2z] in Eh.
  destruct (set_slot_ok n n s j f f' (cache_idx f) e (e_refcount e - 1) (elf_cache_next_fd s) Ck) as [Ck' K'];
    [done | done | done | done | done | lia | apply Ck | done |].
  eexists 0, _. split; [reflexivity|]. split; [exact Ck'|]. split; [|done]. intros fd' d' Hd'.
  destruct (K' fd' d' Hd') as [-> | Hk]; [left; lia | by right].
Qed.

(** The slot that open chooses. *)
Definition open_slot (s : nine) : option nat :=
  let fd_idx := elf_cache_next_fd s - ELF_CACHE_FD_BASE in
  if fd_idx >=? ELF_CACHE_MAX_FDS then first_index (fun f => negb (c_active f)) (elf_cache_fds s) else Some (Z.to_nat fd_idx).

Lemma open_slot_ok n s j : cache_ok n s -> open_slot s = Some j -> exists f, elf_cache_fds s !! j = Some f.
Proof using.
  intros Ck. unfold open_slot. rewrite Z.geb_leb. destruct (Z.leb_spec ELF_CACHE_MAX_FDS (elf_cache_next_fd s - ELF_CACHE_FD_BASE)).
  - intros Hj. apply first_index_Some in Hj as (f & Hf & _). by exists f.
  - intros [= <-]. apply lookup_lt_is_Some_2. rewrite (ck_fds _ _ Ck). destruct (ck_next _ _ Ck). lia.
Qed.

(** The descriptor reads the data that the cache has under the path. *)
Lemma open_reads n s path i e j :
  cache_ok n s -> elf_cache_initialized s = true -> elf_cache_find path s = Some i -> elf_cache s !! i = Some e ->
  open_slot s = Some j ->
  exists s', elf_cache_open path s = Some (ELF_CACHE_FD_BASE + Z.of_nat j, s') /\
    cached_file s' (ELF_CACHE_FD_BASE + Z.of_nat j) = e_data e.
Proof using.
  intros Ck Hi Ef He Ej. destruct (open_slot_ok n s j Ck Ej) as [f Hj]. pose proof (lookup_lt_Some _ _ _ Hj) as Hjl.
  rewrite (ck_fds _ _ Ck) in Hjl. unfold elf_cache_open, cbind, elf_cache_init. rewrite Hi, Ef. fold (open_slot s). rewrite Ej, He.
  eexists. split; [done|]. unfold cached_file. rewrite cfd_of_in by (unfold ELF_CACHE_MAX_FDS in *; lia).
  cbn [set_elf elf_cache elf_cache_fds]. replace (Z.to_nat (ELF_CACHE_FD_BASE + Z.of_nat j - ELF_CACHE_FD_BASE)) with j by lia.
  rewrite list_lookup_insert_eq by (by eapply lookup_lt_Some). cbn [c_active cache_idx].
  by rewrite list_lookup_insert_eq by (by eapply lookup_lt_Some).
Qed.

Lemma csafe_open n s path :
  cache_ok n s -> n + 1 < 2 ^ 32 -> csafe (elf_cache_open path) (n + 1) s (fun r fd => r = fd) (fun _ _ => True).
Proof using.
  intros Ck Hn. eapply csafe_bind; [by apply csafe_init|]. intros [] s1 Ck1 Hinit. unfold csafe.
  pose proof (cache_ok_mono n (n + 1) s1 ltac:(lia) Ck1) as Ck2.
  destruct (elf_cache_find path s1) as [i|] eqn:Ef.
  2:{ exists (-1), s1. split_and!; [done | done | apply keeps_files_refl | done]. }
  destruct (find_Some path s1 i Ef) as (e & He & Hea & Hp). fold (open_slot s1).
  destruct (open_slot s1) as [j|] eqn:Ej.
  2:{ exists (-1), s1. split_and!; [done | done | apply keeps_files_refl | done]. }
  destruct (open_slot_ok n s1 j Ck1 Ej) as [f Hj]. rewrite He. pose proof (lookup_lt_Some _ _ _ Hj) as Hjl.
  rewrite (ck_fds _ _ Ck1) in Hjl. destruct (ck_entries _ _ Ck1 _ _ He) as [E1 E2 _ _].
  set (f' := {| cache_idx := i; c_offset := 0; c_active := true |}).
  pose proof (held_insert (elf_cache_fds s1) i j f f' Hj) as Eh.
  assert (Hb : forall x, 0 <= Z.b2z x <= 1) by (intros []; cbn; lia).
  pose proof (Hb (on_entry i f)). pose proof (Hb (on_entry i f')). assert (0 <= held (elf_cache_fds s1) i) by (unfold held; lia).
  rewrite uint_small by lia.
  destruct (set_slot_ok n (n + 1) s1 j f f' i e (e_refcount e + 1) (ELF_CACHE_FD_BASE + Z.of_nat j + 1) Ck1) as [Ck' K'];
    [lia | done | done | | done | lia | unfold ELF_CACHE_MAX_FDS in *; lia | by rewrite Hinit|].
  { intros k Hk. unfold on_entry. cbn. by apply Nat.eqb_neq. }
  eexists (ELF_CACHE_FD_BASE + Z.of_nat j), _. split; [reflexivity|]. split; [exact Ck'|]. split; [|done].
  intros fd d Hd. destruct (K' fd d Hd) as [-> | Hk]; [by left | by right].
Qed.

(** ** Loading *)

Lemma read_loop_length n size i pos toRead d s l s' :
  read_loop n size i pos toRead d s = Some (l, s') -> Z.of_nat (length l) <= Z.max 0 (toRead - d).
Proof using.
  revert d s l s'. induction n as [|n IH]; intros d s l s'; [done|]. cbn [read_loop].
  destruct (Z.ltb_spec d toRead) as [Hlt | Hge]; [|intros [= <- <-]; cbn; lia].
  unfold SabFs.bind at 1. destruct (getBlockNum i _ s) as [[b s1]|]; [|done]. rewrite bind_get.
  pose proof (Z.mod_pos_bound (pos + d) BLOCK_SIZE ltac:(done)) as Hmod.
  set (c := Z.min (toRead - d) (BLOCK_SIZE - (pos + d) mod BLOCK_SIZE)). assert (Hc : 0 < c <= toRead - d) by lia.
  unfold SabFs.bind. match goal with |- context [match ?m s1 with _ => _ end] => destruct (m s1) as [[l1 s2]|] eqn:E1 end; [|done].
  assert (Hl1 : Z.of_nat (length l1) <= c).
  { destruct (b =? -1); cbn in E1; [injection E1 as <- _; rewrite length_replicate; lia|].
    destruct (_ >? size) in E1; [done|]. injection E1 as <- _. unfold bytes_at. rewrite length_map, length_seq. lia. }
  destruct (read_loop n size i pos toRead (d + c) s2) as [[l2 s3]|] eqn:E2; [|done]. intros [= <- <-].
  apply IH in E2. rewrite length_app. lia.
Qed.

Lemma pread_length fd size count offset s l s' :
  pread fd size count offset s = Some (Some l, s') -> Z.of_nat (length l) <= Z.max 0 count.
Proof using.
  unfold pread, with_pos. rewrite bind_get. destruct (fdTable s !! fd) as [f|]; [|done].
  unfold SabFs.bind at 1. destruct (set_pos fd offset s) as [[[] s1]|]; [|done].
  unfold SabFs.bind at 1. destruct (read fd size count s1) as [[r s2]|] eqn:Er; [|done]. unfold SabFs.bind.
  destruct (set_pos fd (f_pos f) s2) as [[[] s3]|]; [|done]. intros [= -> <-]. revert Er. unfold read. rewrite bind_get.
  destruct (fdTable s1 !! fd) as [f1|]; [|done]. unfold SabFs.bind at 1.
  destruct (readInode (f_ino f1) s1) as [[i s4]|]; [|done]. destruct (_ >=? _); [intros [= <- _]; cbn; lia|].
  unfold SabFs.bind at 1. destruct (read_loop _ _ _ _ _ _ _) as [[l5 s5]|] eqn:El; [|done].
  unfold SabFs.bind. destruct (set_pos fd _ s5) as [[[] s6]|]; [|done]. destruct (now s6) as [[t s7]|]; [|done].
  destruct (writeInode _ _ s7) as [[[] s8]|]; [|done]. intros [= <- _]. apply read_loop_length in El. lia.
Qed.

(** At most the bytes that fit. *)
Definition fits (r : option (list Z)) : Prop := forall l, r = Some l -> Z.of_nat (length l) <= ELF_CACHE_MAX_FILE_SIZE.

Lemma hsafe_pread fd count h :
  hgood N h -> 0 <= count <= ELF_CACHE_MAX_FILE_SIZE -> hsafe N (sabfs_js_pread fd count 0) h (fun r _ => fits r).
Proof using.
  intros G Hc. destruct (hsafe_js N None (pread fd count count 0) h G) as (r & h' & E1 & G' & _);
    [intros; by apply safe_pread, fits_pread|].
  exists r, h'. split; [unfold sabfs_js_pread; by rewrite as_int_small, (proj2 (Z.ltb_ge _ _)) by (unfold ELF_CACHE_MAX_FILE_SIZE in *; lia)|]. split; [done|]. intros l ->. unfold js_call in E1. destruct (js h) as [s|]; [|done].
  destruct (pread fd count count 0 s) as [[r1 s1]|] eqn:Ep; [|done]. injection E1 as -> <-. apply pread_length in Ep. lia.
Qed.

Lemma hsafe_sabfs_preload path h :
  hgood N h -> hsafe N (elf_cache_sabfs_preload path ELF_CACHE_MAX_FILE_SIZE) h (fun r _ => fits r).
Proof using.
  intros G. unfold elf_cache_sabfs_preload. eapply hsafe_bind with (Q := fun _ _ => True); [by eexists _, h|].
  intros a h1 G1 _. destruct (negb a); [by apply hsafe_ret|].
  eapply hsafe_bind with (Q := fun _ _ => True).
  { eapply hsafe_bind; [apply hsafe_js; [done | intros; by apply safe_stat] | intros; by apply hsafe_ret]. }
  intros [w|] h2 G2 _; [|by apply hsafe_ret]. cbv zeta. rewrite Z.gtb_ltb.
  destruct (Z.ltb_spec ELF_CACHE_MAX_FILE_SIZE (uint 32 (w_size_lo w + w_size_hi w ≪ 32))); [by apply hsafe_ret|].
  eapply hsafe_bind; [apply hsafe_js; [done | intros; eapply safe_any; by apply safe_open]|]. intros fd h3 G3 _.
  destruct (fd <? 0); [by apply hsafe_ret|]. pose proof (uint_range 32 (w_size_lo w + w_size_hi w ≪ 32) ltac:(lia)).
  eapply hsafe_bind; [apply hsafe_pread; [done | lia]|]. intros r h4 G4 Hr.
  eapply hsafe_bind; [apply hsafe_js; [done | intros; by apply safe_close]|]. intros c h5 G5 _. by apply hsafe_ret.
Qed.

(** The loop ends within the buffer. *)
Lemma posix_loop_returns size reads buf :
  0 <= size <= ELF_CACHE_MAX_FILE_SIZE -> Z.of_nat (length buf) <= size ->
  reads_end (size - Z.of_nat (length buf)) reads = true ->
  exists r, posix_read_loop ELF_CACHE_MAX_FILE_SIZE size reads buf = Some r /\ fits r.
Proof using.
  intros Hs. assert (Hfit : forall b, Z.of_nat (length b) <= size -> fits (Some b)) by (intros b Hb l [= <-]; lia).
  revert buf. induction reads as [|x reads IH]; intros buf Hb; cbn [posix_read_loop reads_end];
    destruct (Z.ltb_spec (Z.of_nat (length buf)) size) as [Hlt | Hge].
  1,3: rewrite (proj2 (Z.leb_gt _ _)) by lia. 3,4: intros _; exists (Some buf); split; [done | by apply Hfit].
  - done.
  - destruct x as [| |[|c l]]; intros He.
    + by apply IH.
    + exists None. by split.
    + exists (Some buf). split; [done | by apply Hfit].
    + cbv zeta. unfold ELF_CACHE_MAX_FILE_SIZE in Hs. rewrite uint_small by lia.
      set (t := take (Z.to_nat (size - Z.of_nat (length buf))) (c :: l)).
      assert (Ht : length t = Nat.min (Z.to_nat (size - Z.of_nat (length buf))) (length (c :: l))) by apply length_take.
      assert (Ha : length (buf ++ t) = (length buf + length t)%nat) by apply length_app.
      rewrite Z.gtb_ltb, (proj2 (Z.ltb_ge _ _)) by (unfold ELF_CACHE_MAX_FILE_SIZE; lia). apply IH; [lia|].
      destruct (decide (Z.of_nat (length (c :: l)) <= size - Z.of_nat (length buf))) as [Hle | Hgt].
      * by replace (size - Z.of_nat (length (buf ++ t))) with (size - Z.of_nat (length buf) - Z.of_nat (length (c :: l))) by lia.
      * replace (size - Z.of_nat (length (buf ++ t))) with 0 by lia. by destruct reads.
Qed.

Lemma hsafe_posix_preload posix path h :
  posix_answers posix -> hgood N h -> hsafe N (elf_cache_posix_preload posix path ELF_CACHE_MAX_FILE_SIZE) h (fun r _ => fits r).
Proof using.
  intros Hp G. eapply hsafe_bind; [by apply hsafe_sabfs_preload|]. intros [l|] h1 G1 Hr; [by apply hsafe_ret|].
  cbv zeta. specialize (Hp (host_path path)). destruct (p_stat _) as [size|]; [|by apply hsafe_ret]. rewrite Z.gtb_ltb.
  destruct (Hp size eq_refl) as [Hs He]. rewrite uint_small by done.
  destruct (Z.ltb_spec ELF_CACHE_MAX_FILE_SIZE size); [by apply hsafe_ret|]. destruct (negb _); [by apply hsafe_ret|].
  destruct (posix_loop_returns size (p_reads (posix (host_path path))) []) as (r & Er & Hf); [lia | cbn; lia | by rewrite Z.sub_0_r |].
  exists r, h1. rewrite Er. by split_and!.
Qed.

Lemma shrink_length r (buf : list Z) :
  r <> Freed -> shrink_buffer r buf (Z.of_nat (length buf)) = Some buf.
Proof using. destruct r; cbn; [by rewrite Nat2Z.id, firstn_all | done | done]. Qed.

Lemma csafe_lift {A} (m : St host A) n s Q :
  cache_ok n s -> hsafe N m (base s) Q ->
  csafe (lift m) n s nothing (fun a s' => (exists h', Q a h') /\ elf_cache s' = elf_cache s /\ elf_cache_fds s' = elf_cache_fds s).
Proof using.
  intros Ck (a & h' & E1 & G' & Ha). exists a, (set_base s h'). unfold lift. rewrite E1. split; [done|].
  split; [destruct Ck; by split|]. split; [by right|]. split; [by exists h' | done].
Qed.

(** A slot that nobody uses. *)
Definition free_slot (r : option nat) (s : nine) : Prop :=
  forall i, r = Some i -> exists e, elf_cache s !! i = Some e /\ e_active e = false.

Lemma csafe_find_free n s : cache_ok n s -> csafe elf_cache_find_free n s nothing free_slot.
Proof using.
  intros Ck. unfold csafe, elf_cache_find_free. destruct (first_index _ (elf_cache s)) as [i|] eqn:Ef.
  { apply first_index_Some in Ef as (e & He & Ha). exists (Some i), s. split_and!; [done | done | apply keeps_files_refl|].
    intros k [= <-]. exists e. split; [done | by apply negb_true_iff]. }
  destruct (first_index (fun e => e_refcount e =? 0) (elf_cache s)) as [i|] eqn:Eg.
  2:{ exists None, s. split_and!; [done | done | apply keeps_files_refl | by intros k [=]]. }
  apply first_index_Some in Eg as (e & He & Hr). rewrite He. apply Z.eqb_eq in Hr.
  destruct (ck_entries _ _ Ck _ _ He) as [E1 E2 _ _]. assert (0 <= held (elf_cache_fds s) i) by (unfold held; lia).
  match goal with |- context [set_cached s i ?e'] => destruct (set_cached_ok n s i e e' Ck He) as [Ck' K'] end;
    [split; cbn; [lia | lia | lia | done] | left; lia |].
  eexists (Some i), _. split; [done|]. split; [exact Ck'|]. split; [exact K'|]. intros k [= <-]. eexists. cbn [set_cached set_elf elf_cache].
  split; [by rewrite list_lookup_insert_eq by (by eapply lookup_lt_Some) | done].
Qed.

Lemma csafe_preload n s posix mem r path :
  cache_ok n s -> 0 <= n -> posix_answers posix -> r <> Freed ->
  csafe (elf_cache_preload posix mem r path) n s nothing (fun _ _ => True).
Proof using.
  intros Ck Hn Hp Hr. unfold elf_cache_preload. eapply csafe_bind; [by apply csafe_init|]. intros [] s1 Ck1 _.
  eapply csafe_bind; [by apply (csafe_eq _ _ _ (elf_cache_find path s1) _ (fun _ _ => True))|]. intros [i|] s2 Ck2 _; [by apply csafe_ret|].
  eapply csafe_bind; [by apply csafe_find_free|]. intros [i|] s3 Ck3 Hfree; [|by apply csafe_ret].
  destruct (Hfree i eq_refl) as (e & He & Ha). destruct mem; [cbn [negb] | by apply csafe_ret].
  eapply csafe_bind; [apply csafe_lift; [done | by apply hsafe_posix_preload, Ck3]|].
  intros [data|] s4 Ck4 ([h Hf] & Ee & Ed); [|by apply csafe_ret]. unfold csafe. rewrite <- Ee in He.
  cbv zeta. rewrite (shrink_length r data Hr).
  destruct (ck_entries _ _ Ck4 _ _ He) as [_ _ Hu _]. assert (held (elf_cache_fds s4) i = 0) as Hh.
  { unfold held in *. destruct (List.filter _ _); [done|]. rewrite Hu in Ha by (cbn; lia). done. }
  match goal with |- context [set_cached s4 i ?e'] => destruct (set_cached_ok n s4 i e e' Ck4 He) as [Ck' K'] end;
    [split; cbn [e_refcount e_active e_data e_size]; [lia | lia | done | exists data; split_and!; [done | done | by apply Hf]] | by left |].
  eexists 0, _. split; [done|]. split; [exact Ck'|]. by split.
Qed.

(** ** Every sequence of calls *)

(** The descriptors that a call may end: the one closed, the one returned. *)
Definition ends (op : cache_op) (r : cache_reply) (fd : Z) : Prop :=
  op = CClose fd \/ exists path, op = COpen path /\ r = KNum fd.

Lemma csafe_reply {A} (f : A -> cache_reply) (m : St nine A) n s (ex : A -> Z -> Prop) (ex' : cache_reply -> Z -> Prop) Q :
  csafe m n s ex Q -> (forall a fd, ex a fd -> ex' (f a) fd) -> csafe (kreply f m) n s ex' (fun _ _ => True).
Proof using.
  intros (a & s' & E1 & Ck & K & _) Hex. exists (f a), s'. unfold kreply. rewrite (cbind_ok _ _ _ _ _ E1). split; [done|].
  split; [done|]. split; [|done]. intros fd d Hd. destruct (K fd d Hd); [left; by apply Hex | by right].
Qed.

Lemma csafe_perform n s op :
  cache_ok n s -> 0 <= n -> n + 1 < 2 ^ 32 -> cache_allowed s op -> csafe (cache_perform op) (n + 1) s (ends op) (fun _ _ => True).
Proof using.
  intros Ck0 Hn0 Hn Ha. pose proof (cache_ok_mono n (n + 1) s ltac:(lia) Ck0) as Ck.
  destruct op; cbn [cache_perform cache_allowed] in *.
  - eapply csafe_reply; [by apply csafe_preload; [| lia | apply Ha..] | done].
  - eapply csafe_reply; [by apply csafe_is_cached | done].
  - eapply csafe_reply; [by apply csafe_open|]. cbn. intros a fd ->. right. by exists path.
  - eapply csafe_reply; [apply csafe_pread; [done | apply Ha | apply Ha] | done].
  - eapply csafe_reply; [by apply csafe_read | done].
  - eapply csafe_reply; [by apply csafe_lseek | done].
  - eapply csafe_reply with (ex := nothing) (Q := fun _ _ => True); [|done].
    apply (csafe_with_cfd _ _ _ (n + 1)); [done | done | done|]. intros. by apply csafe_ret.
  - eapply csafe_reply; [by apply csafe_stat | done].
  - eapply csafe_reply; [by apply csafe_close|]. cbn. intros a fd' ->. by left.
  - eapply csafe_reply; [apply csafe_preadv; [done | apply Ha | apply Ha] | done].
Qed.

(** States after [n] calls. *)
Inductive cache_reachable (h : host) : Z -> nine -> Prop :=
| cache_start : cache_reachable h 0 (nine_start h)
| cache_next n s op r s' :
    cache_reachable h n s -> cache_allowed s op -> cache_perform op s = Some (r, s') -> cache_reachable h (n + 1) s'.

Lemma start_ok h : hgood N h -> cache_ok 0 (nine_start h).
Proof using.
  intros G. assert (Hno : forall j f, replicate (Z.to_nat ELF_CACHE_MAX_FDS) no_cfd !! j = Some f -> c_active f = false).
  { intros j f. rewrite lookup_replicate. by intros [-> _]. }
  split; cbn [nine_start elf_cache elf_cache_fds elf_cache_next_fd base]; [done | by rewrite length_replicate | by rewrite length_replicate | | | | done].
  - unfold ELF_CACHE_MAX_FDS. lia.
  - intros i e. rewrite lookup_replicate. intros [-> _]. split; cbn; [| lia | | done]; rewrite held_none by done; lia.
  - intros j f Hj Ha. by rewrite (Hno j f Hj) in Ha.
Qed.

Lemma cache_reachable_ok h n s : hgood N h -> cache_reachable h n s -> 0 <= n /\ (n < 2 ^ 32 -> cache_ok n s).
Proof using.
  intros G. induction 1 as [|n s op r s' _ [IHn IH] Ha E1]; [split; [lia | intros; by apply start_ok]|]. split; [lia|]. intros Hn.
  destruct (csafe_perform n s op (IH ltac:(lia)) IHn Hn Ha) as (r1 & s1 & E2 & Ck & _). rewrite E1 in E2. by injection E2 as <- <-.
Qed.

(** C15: after any calls of the cache of executables (fewer than 2^32), every
    further call returns: none reads outside the data of a file or data that
    were freed, none dereferences a null pointer.  A descriptor in use has a
    file, pread returns the bytes of that file at the offset, and the file
    of a descriptor stays the same until the descriptor is closed or its
    number is returned by open again.  The calls are those of [cache_allowed]:
    counts and offsets are not negative, lseek stays below 2^63, and when a file
    is loaded the host's files are smaller than 4 GB, reading them ends, and
    realloc does not free the block. *)
Theorem elf_cache_safe h n s :
  hgood N h -> cache_reachable h n s -> n + 1 < 2 ^ 32 ->
  (forall fd, elf_cache_is_cache_fd fd s = true -> exists d, cached_file s fd = Some d /\
     forall count offset, 0 <= count -> 0 <= offset ->
       elf_cache_pread fd count offset s = Some (Some (take (Z.to_nat count) (drop (Z.to_nat offset) d)), s)) /\
  forall op, cache_allowed s op ->
    exists r s', cache_perform op s = Some (r, s') /\
      forall fd d, cached_file s fd = Some d -> ends op r fd \/ cached_file s' fd = Some d.
Proof using.
  intros G Hr Hn. destruct (cache_reachable_ok h n s G Hr) as [Hn0 Ck]. specialize (Ck ltac:(lia)). split.
  - intros fd Hfd. destruct (pread_active n s fd 0 0 Ck ltac:(lia) ltac:(lia) Hfd) as (d & Hd & _). exists d. split; [done|].
    intros count offset Hc Ho. destruct (pread_active n s fd count offset Ck Hc Ho Hfd) as (d' & Hd' & E1). congruence.
  - intros op Ha. destruct (csafe_perform n s op Ck Hn0 Hn Ha) as (r & s' & E1 & _ & K & _). by exists r, s'.
Qed.

End Cache.

(** ** An example *)

(** A host without the module, whose file comes in two reads. *)
Definition bare_host : host := {| js := None; readdir_entries := None; errno := None |}.

Definition tiny_posix (_ : list Z) : posix_file :=
  {| p_stat := Some 3; p_open := true; p_reads := [ReadEintr; ReadBytes [1; 2]; ReadBytes [3]] |}.

Lemma tiny_answers : posix_answers tiny_posix.
Proof. intros p size [= <-]. split; [lia | reflexivity]. Qed.

Lemma tiny_allowed s : cache_allowed s (CPreload tiny_posix true Shrunk [47; 97]).
Proof. split; [exact tiny_answers | discriminate]. Qed.

Definition tiny_ops : list cache_op := [CPreload tiny_posix true Shrunk [47; 97]; COpen [47; 97]].

Fixpoint cache_run (ops : list cache_op) (s : nine) : option (list cache_reply * nine) :=
  match ops with
  | [] => Some ([], s)
  | op :: ops =>
      match cache_perform op s with
      | Some (r, s') => match cache_run ops s' with Some (rs, s2) => Some (r :: rs, s2) | None => None end
      | None => None
      end
  end.

(** The file is loaded and opened; descriptor 30000 reads it. *)
Lemma elf_cache_safe_witness :
  exists s, cache_run tiny_ops (nine_start bare_host) = Some ([KNum 0; KNum 30000], s) /\
    elf_cache_pread 30000 5 1 s = Some (Some [2; 3], s).
Proof.
  destruct (cache_run tiny_ops (nine_start bare_host)) as [[rs s]|] eqn:Er; [|vm_compute in Er; discriminate].
  unfold tiny_ops in Er. cbn [cache_run] in Er.
  destruct (cache_perform (CPreload tiny_posix true Shrunk [47; 97]) (nine_start bare_host)) as [[r1 s1]|] eqn:E1; [|discriminate].
  destruct (cache_perform (COpen [47; 97]) s1) as [[r2 s2]|] eqn:E2; [|discriminate].
  assert (R2 : cache_reachable bare_host (0 + 1 + 1) s2).
  { refine (cache_next bare_host _ s1 (COpen [47; 97]) r2 s2 _ I E2).
    exact (cache_next bare_host 0 _ (CPreload tiny_posix true Shrunk [47; 97]) r1 s1 (cache_start bare_host)
      (tiny_allowed _) E1). }
  destruct (elf_cache_safe 0 bare_host (0 + 1 + 1) s2) as [Hp _]; [intros s0 [=] | exact R2 | lia |].
  vm_compute in E1. injection E1 as <- <-. vm_compute in E2. injection E2 as <- <-. injection Er as <- <-.
  eexists. split; [reflexivity|]. destruct (Hp 30000 ltac:(reflexivity)) as (d & Hd & Hread).
  rewrite Hread by lia. vm_compute in Hd. by injection Hd as <-.
Defined.

(** After the last slot open looks for a free one, and then takes the slot
    behind it without looking: descriptor 30001 is returned twice. *)
Lemma open_reuses_descriptor :
  let ops := tiny_ops ++ replicate 255 (COpen [47; 97]) ++ [CClose 30000; COpen [47; 97]; COpen [47; 97]] in
  match cache_run ops (nine_start bare_host) with
  | Some (rs, s) => rs !! 2%nat = Some (KNum 30001) /\ rs !! 259%nat = Some (KNum 30001)
  | None => False
  end.
Proof. vm_compute. split; reflexivity. Qed.
