(* ===== verification/NineLoad.v ===== *)
(** * Executables are cached as they were in SABFS

    The path through all layers: elf_cache_preload asks the module for the
    file under /pack, elf_cache_open gives a descriptor on the copy, and
    elf_cache_pread reads what the file system had when the copy was made. *)

From Stdlib Require Import ZArith Lia Bool.
From stdpp Require Import base numbers functions list option gmap.
From S2P Require Import Prelude.
From S2P Require Import SabFs.
From S2P Require Import SabApi.
From S2P Require Import SabInv.
From S2P Require Import SabTree.
From S2P Require Import SabFile.
From S2P Require Import SabRw.
From S2P Require Import SabMeta.
From S2P Require Import SabFrame.
From S2P Require Import SabDir.
From S2P Require Import SabGood.
From S2P Require Import SabSafe.
From S2P Require Import SabOps.
From S2P Require Import SabIo.
From S2P Require Import SabInit.
From S2P Require Import SabMain.
From S2P Require Import SabSpec.
From S2P Require Import NineBackend.
From S2P Require Import NineElf.
From S2P Require Import NineOk.
From S2P Require Import NineVec.
From S2P Require Import NineCache.

Local Open Scope Z_scope.

Section Load.
Context `{B : Browser} `{E : Emscripten} (N : Z).

(** ** stat and open of the module *)

(** The same files, and the path resolves to [ino]. *)
Record resolved (s s' : fs) (path : str) (ino : Z) : Prop := {
  rv_good : good N s';
  rv_use : in_use s' ino;
  rv_later : ext s s';
  rv_files : forall i, in_use s i -> contents s' i = contents s i;
  rv_path : pathCache s' !! path = Some ino;
  rv_dir : is_dir s' ino = is_dir s ino;
}.

Lemma mem_contents s s' i : same_mem s s' -> contents s' i = contents s i.
Proof using. intros Hm. unfold contents. by rewrite (same_mem_size s s'), (fbytes_mem s s'). Qed.

Lemma resolvePath_ok s path ino s' :
  good N s -> resolvePath path s = Some (ino, s') -> ino <> -1 ->
  same_mem s s' /\ in_use s ino /\ pathCache s' !! path = Some ino /\ nextFd s' = nextFd s.
Proof using.
  intros G. unfold resolvePath. rewrite bind_get. destruct (pathCache s !! path) as [i|] eqn:Ec.
  { intros [= <- <-] _. split; [apply same_mem_refl|]. split; [by eapply (g_cache N s G) | by split]. }
  destruct (looks_resolve N s true MAX_DEPTH path G) as (r & E1 & Hr). rewrite (bind_ok _ _ _ _ _ E1).
  destruct (Z.eqb_spec r (-1)) as [-> | Hne]; cbn [negb]; [intros E2 Hn; exfalso; apply Hn; by injection E2 as <- _|].
  intros [= <- <-] _.
  destruct Hr as [|Hr]; [done|]. split; [apply same_mem_cache|]. split; [done|]. split; [cbn; by rewrite lookup_insert_eq | done].
Qed.

Lemma same_mem_inode s s' i : same_mem s s' -> inode_at s' i = inode_at s i.
Proof using. intros Hm. unfold inode_at, ino_words. rewrite (same_mem_size s s') by done. rewrite !(same_mem_rd s s') by done.
  f_equal. apply map_ext. intros. by apply same_mem_rd. Qed.

Lemma stat_answer {A C S} (a a' : A) (c c' : C) (s s' : S) :
  Some (Some (a, c), s) = Some (Some (a', c'), s') -> a = a' /\ c = c' /\ s = s'.
Proof using. by intros [= -> -> ->]. Qed.

Lemma open_answer {A S} (a a' : A) (s s' : S) : Some (a, s) = Some (a', s') -> a = a' /\ s = s'.
Proof using. by intros [= -> ->]. Qed.

Lemma stat_ok s path ino i s1 :
  good N s -> stat path s = Some (Some (ino, i), s1) ->
  i = inode_at s ino /\ in_use s ino /\ resolved s s1 path ino /\ nextFd s1 = nextFd s.
Proof using.
  intros G Est. destruct (safe_stat N s path G) as (a & s2 & E2 & G1 & X1 & _). rewrite Est in E2. injection E2 as <- <-.
  destruct (safe_resolvePath N s path G) as (r & s0 & E0 & G0 & X0 & Hr). unfold stat in Est. rewrite (bind_ok _ _ _ _ _ E0) in Est.
  destruct (Z.eqb_spec r (-1)) as [-> | Hne]; [done|]. destruct (resolvePath_ok s path r s0 G E0 Hne) as (Hm & Hu & Hc & Hnx).
  destruct Hr as [|Hu0]; [done|]. pose proof (good_bound N s0 r G0 Hu0) as Hb.
  rewrite (bind_ok _ _ _ _ _ (readInode_ok N s0 r (good_geo N s0 G0) Hb)) in Est.
  set (s3 := set_ticks s0 (S (ticks s0))) in *. assert (Hm3 : same_mem s0 s3) by apply same_mem_ticks.
  rewrite (bind_ok now _ s0 (clock (ticks s0)) s3) in Est by done.
  destruct (good_ticks N s0 (S (ticks s0)) G0) as [G3 X3]. fold s3 in G3, X3. assert (Hu3 : in_use s3 r) by (by eapply ext_in_use).
  rewrite (bind_ok _ _ _ _ _ (writeInode_ok N s3 r _ (good_geo N s3 G3) Hb)) in Est.
  apply stat_answer in Est as (-> & <- & Es1).
  destruct (put_times N s3 ino (props_words [Atime (clock (ticks s0))]) G3 Hu3) as (Hs & Hby & Sh); [repeat constructor; cbn; lia|].
  rewrite Es1 in Hs, Hby, Sh.
  split; [by apply same_mem_inode|]. split; [done|]. split; [|rewrite (sh_next _ _ Sh); exact Hnx]. split.
  - done.
  - by eapply ext_in_use.
  - done.
  - intros k Hk. pose proof (good_bound N s k G Hk) as Hkb.
    assert (Hk3 : in_use s3 k) by exact (ext_in_use _ _ _ X3 (ext_in_use _ _ _ X0 Hk)).
    rewrite (contents_same N s3 s1 k G3 Hk3 (Hs k Hkb)) by (intros; by apply Hby).
    by rewrite (mem_contents s0 s3), (mem_contents s s0).
  - by rewrite (sh_cache _ _ Sh).
  - by apply X1.
Qed.

Lemma open_cached s path ino :
  good N s -> pathCache s !! path = Some ino -> in_use s ino -> is_dir s ino = false ->
  let f := {| f_ino := ino; f_path := path; f_flags := O_RDONLY; f_pos := 0 |} in
  exists s', open path O_RDONLY 0 s = Some (nextFd s, s') /\ good N s' /\ same_mem s s' /\ fdTable s' !! nextFd s = Some f.
Proof using.
  intros G Hc Hu Hd f. destruct (safe_open N s path O_RDONLY 0 G) as (fd & s' & E1 & G' & _ & _).
  pose proof (good_bound N s ino G Hu) as Hb. set (s1 := set_fds s (<[nextFd s := f]> (fdTable s)) (nextFd s + 1)).
  assert (E2 : open path O_RDONLY 0 s = Some (nextFd s, s1)).
  { unfold open. change (flag_set O_RDONLY O_NOFOLLOW) with false. unfold resolvePath.
    rewrite (bind_ok _ _ s ino s) by (by rewrite bind_get, Hc).
    assert (Hne : ino <> -1) by lia. rewrite (proj2 (Z.eqb_neq _ _) Hne). rewrite (bind_ok _ _ s ino s) by done.
    rewrite (proj2 (Z.eqb_neq _ _) Hne).
    rewrite (bind_ok _ _ _ _ _ (readInode_ok N s ino (good_geo N s G) Hb)).
    change (is_type (mode (inode_at s ino)) S_IFDIR) with (is_dir s ino). rewrite Hd. reflexivity. }
  rewrite E2 in E1. apply open_answer in E1 as [_ <-]. exists s1. split; [exact E2|]. split; [done|].
  split; [apply same_mem_fds|]. cbn [s1 set_fds fdTable]. by rewrite lookup_insert_eq.
Qed.

(** ** The cache *)

(** The path under which elf_cache_sabfs_preload looks. *)
Definition packed (path : list Z) : str := UTF8ToString (take 511 (SABFS_PREFIX ++ path)).

Lemma small_size_words size :
  0 <= size <= ELF_CACHE_MAX_FILE_SIZE ->
  uint 32 (uint 32 (Z.land size 0xffffffff) + Z.shiftl (uint 32 (size / 0x100000000)) 32) = size.
Proof using.
  unfold ELF_CACHE_MAX_FILE_SIZE. intros Hs. change 0xffffffff with (Z.ones 32). rewrite Z.land_ones by lia.
  rewrite Z.mod_small, Z.div_small by lia. rewrite (uint_small 32 size), (uint_small 32 0) by lia.
  cbn [Z.shiftl]. rewrite Z.add_0_r. apply uint_small. lia.
Qed.

Lemma sabfs_preload_ok h s path ino i s1 :
  js h = Some s -> good N s -> 0 <= nextFd s -> stat (packed path) s = Some (Some (ino, i), s1) ->
  is_dir s ino = false -> isize i <= ELF_CACHE_MAX_FILE_SIZE ->
  exists h', elf_cache_sabfs_preload path ELF_CACHE_MAX_FILE_SIZE h = Some (Some (contents s ino), h') /\ hgood N h'.
Proof using.
  intros Ej G Hfd Est Hd Hmax. destruct (hsafe_sabfs_preload N path h) as (r & h' & Er & G' & _).
  { intros s0 E0. rewrite Ej in E0. by injection E0 as <-. }
  exists h'. split; [|done]. rewrite Er. do 2 f_equal. revert Er.
  destruct (stat_ok s _ ino i s1 G Est) as (-> & Hu & [G1 Hu1 X1 Hc1 Hp1 Hd1] & Hn1).
  change (isize (inode_at s ino)) with (file_size s ino) in Hmax. pose proof (size_nonneg s ino) as Hs0.
  destruct (open_cached s1 _ ino G1 Hp1 Hu1) as (s2 & E2 & G2 & Hm2 & Ef2); [by rewrite Hd1|].
  destruct (pread_contents N s2 (nextFd s1) _ (file_size s ino) 0 G2 Ef2) as (s3 & E3 & G3 & _); [lia | lia |].
  unfold elf_cache_sabfs_preload. rewrite (cbind_ok _ _ h true h) by (unfold sabfs_be_js_is_available; by rewrite Ej).
  cbn [negb]. cbv zeta. rewrite (cbind_ok _ _ h (Some (put_stat (ino, inode_at s ino))) (set_js h s1)).
  2:{ unfold sabfs_be_js_stat, cbind, js_call. fold (packed path). by rewrite Ej, Est. }
  cbn [put_stat w_size_lo w_size_hi]. change (isize (inode_at s ino)) with (file_size s ino).
  rewrite small_size_words by lia. rewrite Z.gtb_ltb, (proj2 (Z.ltb_ge _ _)) by lia.
  rewrite (cbind_ok _ _ _ (nextFd s1) (set_js h s2)).
  2:{ unfold sabfs_be_js_open, js_call. fold (packed path). cbn [js set_js]. by rewrite E2. }
  rewrite (proj2 (Z.ltb_ge _ _)) by lia. unfold sabfs_js_pread, cbind, js_call. cbn [js set_js f_ino] in *.
  rewrite as_int_small by (unfold ELF_CACHE_MAX_FILE_SIZE in Hmax; lia). rewrite (proj2 (Z.ltb_ge _ _)), E3 by lia.
  rewrite Z2Nat.inj_0, drop_0, (mem_contents s1 s2), Hc1 by done.
  rewrite take_ge by (rewrite length_contents; lia). unfold sabfs_be_js_close, js_call. cbn [js set_js].
  destruct (close (nextFd s1) s3) as [[? ?]|]; [|done]. intros Er. by injection Er as <- _.
Qed.

Lemma first_index_exists {A} (p : A -> bool) l i x : l !! i = Some x -> p x = true -> exists j, first_index p l = Some j.
Proof using.
  intros Hi Hp. destruct (first_index p l) as [j|] eqn:Ef; [by exists j|]. by rewrite (first_index_None p l i x Ef Hi) in Hp.
Qed.

(** After elf_cache_init the file is still not cached and there is room. *)
Lemma init_room n s path :
  cache_ok N n s -> elf_cache_find path s = None ->
  (exists i e, elf_cache s !! i = Some e /\ e_active e = false) ->
  (exists j f, elf_cache_fds s !! j = Some f /\ c_active f = false) ->
  exists s', elf_cache_init s = Some (tt, s') /\ cache_ok N n s' /\ base s' = base s /\ elf_cache_initialized s' = true /\
    elf_cache_find path s' = None /\ (exists i, first_index (fun e => negb (e_active e)) (elf_cache s') = Some i) /\
    (exists j f, elf_cache_fds s' !! j = Some f /\ c_active f = false).
Proof using.
  intros Ck Hf (i & e & He & Ha) (j & f & Hj & Hfa). destruct (csafe_init N n s Ck) as ([] & s' & E1 & Ck' & _ & Hi).
  exists s'. split; [done|]. split; [done|]. unfold elf_cache_init in E1. destruct (elf_cache_initialized s) eqn:Ei.
  - injection E1 as <-. split_and!; try done; [|by exists j, f]. eapply first_index_exists; [exact He | by rewrite Ha].
  - injection E1 as <-. cbn [base elf_cache elf_cache_fds elf_cache_initialized]. split; [done|]. split; [done|]. split_and!.
    + unfold elf_cache_find. cbn [elf_cache]. destruct (first_index _ _) as [k|] eqn:Ek; [|done].
      apply first_index_Some in Ek as (e' & He' & Hp). rewrite list_lookup_fmap, fmap_Some in He'. by destruct He' as (e0 & _ & ->).
    + eapply first_index_exists; [by rewrite list_lookup_fmap, He | done].
    + eexists j, _. split; [by rewrite list_lookup_fmap, Hj | done].
Qed.

(** The entry just made is the one that is found. *)
Lemma find_new s path i e :
  elf_cache_find path s = None -> (i < length (elf_cache s))%nat -> e_active e = true -> e_path e = path ->
  elf_cache_find path (set_cached s i e) = Some i.
Proof using.
  intros Hf Hi Ha Hp. unfold elf_cache_find. cbn [set_cached set_elf elf_cache].
  destruct (first_index_exists (fun e => e_active e && str_eqb (e_path e) path) (<[i := e]> (elf_cache s)) i e) as [k Ek].
  { by rewrite list_lookup_insert_eq. }
  { rewrite Ha, Hp. unfold str_eqb. by rewrite bool_decide_true. }
  rewrite Ek. f_equal. apply first_index_Some in Ek as (e' & He' & Hp'). apply list_lookup_insert_Some in He' as [[-> _] | [_ He']]; [done|].
  by rewrite (first_index_None _ _ k e' Hf He') in Hp'.
Qed.

Lemma open_slot_exists s j f :
  length (elf_cache_fds s) = Z.to_nat ELF_CACHE_MAX_FDS -> elf_cache_fds s !! j = Some f -> c_active f = false ->
  exists k, open_slot s = Some k.
Proof using.
  intros Hl Hj Ha. unfold open_slot. destruct (_ >=? _); [|by eexists]. eapply first_index_exists; [exact Hj | by rewrite Ha].
Qed.

(** open gives a descriptor, and pread on it returns the bytes of [d]. *)
Definition reads_as (z : nine) (path d : list Z) : Prop :=
  exists fd z', elf_cache_open path z = Some (fd, z') /\ 0 <= fd /\
    forall count offset, 0 <= count -> 0 <= offset ->
      elf_cache_pread fd count offset z' = Some (Some (take (Z.to_nat count) (drop (Z.to_nat offset) d)), z').

Lemma found_reads_as n z path k e d j f :
  cache_ok N n z -> n + 1 < 2 ^ 32 -> elf_cache_initialized z = true -> elf_cache_find path z = Some k ->
  elf_cache z !! k = Some e -> e_data e = Some d -> elf_cache_fds z !! j = Some f -> c_active f = false -> reads_as z path d.
Proof using.
  intros Ck Hn Hi Hf He Ed Hj Ha. destruct (open_slot_exists z j f (ck_fds N n z Ck) Hj Ha) as [m Em].
  destruct (open_reads N n z path k e m Ck Hi Hf He Em) as (z2 & E3 & Hc). rewrite Ed in Hc.
  destruct (csafe_open N n z path Ck ltac:(lia)) as (fd & z2' & E4 & Ck2 & _). rewrite E3 in E4.
  apply open_answer in E4 as [<- <-]. exists (ELF_CACHE_FD_BASE + Z.of_nat m), z2. split; [exact E3|].
  split; [unfold ELF_CACHE_FD_BASE; lia|]. intros count offset Hcount Ho.
  destruct (pread_active N (n + 1) z2 (ELF_CACHE_FD_BASE + Z.of_nat m) count offset Ck2 Hcount Ho) as (d' & Hd2 & E5).
  { destruct (cached_file_Some z2 _ _ Hc) as (f2 & _ & Ef2 & Ha2 & _). unfold elf_cache_is_cache_fd. by rewrite Ef2. }
  rewrite Hc in Hd2. by injection Hd2 as <-.
Qed.

(** A file that SABFS has is copied into a free entry. *)
Lemma preload_new n z s path ino i s1 posix r :
  cache_ok N n z -> 0 <= n -> posix_answers posix -> r <> Freed -> js (base z) = Some s -> 0 <= nextFd s ->
  stat (packed path) s = Some (Some (ino, i), s1) -> is_dir s ino = false -> isize i <= ELF_CACHE_MAX_FILE_SIZE ->
  Z.of_nat (length path) <= 255 -> elf_cache_find path z = None ->
  (exists k e, elf_cache z !! k = Some e /\ e_active e = false) ->
  (exists j f, elf_cache_fds z !! j = Some f /\ c_active f = false) ->
  exists z1 k e, elf_cache_preload posix true r path z = Some (0, z1) /\ cache_ok N n z1 /\ elf_cache_initialized z1 = true /\
    elf_cache_find path z1 = Some k /\ elf_cache z1 !! k = Some e /\ e_data e = Some (contents s ino) /\
    exists j f, elf_cache_fds z1 !! j = Some f /\ c_active f = false.
Proof using.
  intros Ck Hn0 Hpx Hre Ej Hfd Est Hd Hmax Hlen Hf Hroom Hslot. pose proof (ck_host N n z Ck s Ej) as Gs.
  destruct (csafe_preload N n z posix true r path Ck Hn0 Hpx Hre) as (v & z1 & E1 & Ck1 & _).
  destruct (init_room n z path Ck Hf Hroom Hslot) as (z0 & E0 & Ck0 & Eb & Hi0 & Hf0 & [k Ek] & j & f & Hj & Hfa).
  rewrite <- Eb in Ej. destruct (sabfs_preload_ok (base z0) s path ino i s1 Ej Gs Hfd Est Hd Hmax) as (h1 & El & _).
  pose proof Ek as Ek'. apply first_index_Some in Ek' as (e & He & _). pose proof (lookup_lt_Some _ _ _ He) as Hlt.
  set (e' := {| e_path := take 255 path; e_data := Some (contents s ino); e_size := Z.of_nat (length (contents s ino));
                e_mode := 0x81ed; e_refcount := 0; e_active := true |}).
  assert (E2 : elf_cache_preload posix true r path z = Some (0, set_cached (set_base z0 h1) k e')).
  { unfold elf_cache_preload. rewrite (cbind_ok _ _ _ _ _ E0), (cbind_ok _ _ z0 None z0) by (by rewrite Hf0).
    rewrite (cbind_ok _ _ z0 (Some k) z0) by (unfold elf_cache_find_free; by rewrite Ek). cbn [negb].
    rewrite (cbind_ok _ _ z0 (Some (contents s ino)) (set_base z0 h1)); [cbv zeta; by rewrite shrink_length|].
    unfold lift, elf_cache_posix_preload. by rewrite (cbind_ok _ _ _ _ _ El). }
  rewrite E2 in E1. apply open_answer in E1 as [_ <-]. exists (set_cached (set_base z0 h1) k e'), k, e'.
  split; [exact E2|]. split; [exact Ck1|]. split; [exact Hi0|].
  split; [apply find_new; [exact Hf0 | exact Hlt | done | cbn; by rewrite take_ge by lia]|].
  split; [cbn; by rewrite list_lookup_insert_eq|]. split; [done|]. by exists j, f.
Qed.

(** C14: executables are read through the cache.  elf_cache_preload of a file
    that SABFS has under /pack and that is not cached copies it: it returns 0,
    elf_cache_open then returns a descriptor, and elf_cache_pread on it returns
    the bytes of the file in SABFS.  The file is at most 16 MB large, its path
    has at most 255 bytes, an entry and a slot for a descriptor are free, malloc
    succeeds, and realloc does not free the block.  If the path is cached,
    elf_cache_preload changes nothing and descriptors read the copy that was
    made then, whatever the file system has now. *)
Theorem cached_executable h n z path posix mem r :
  hgood N h -> cache_reachable h n z -> n + 2 < 2 ^ 32 -> posix_answers posix -> r <> Freed ->
  (exists j f, elf_cache_fds z !! j = Some f /\ c_active f = false) ->
  (forall s ino i s1,
     js (base z) = Some s -> 0 <= nextFd s -> stat (packed path) s = Some (Some (ino, i), s1) -> is_dir s ino = false ->
     isize i <= ELF_CACHE_MAX_FILE_SIZE -> Z.of_nat (length path) <= 255 -> elf_cache_find path z = None ->
     (exists k e, elf_cache z !! k = Some e /\ e_active e = false) ->
     exists z1, elf_cache_preload posix true r path z = Some (0, z1) /\ reads_as z1 path (contents s ino)) /\
  (forall k e,
     elf_cache_initialized z = true -> elf_cache_find path z = Some k -> elf_cache z !! k = Some e ->
     elf_cache_preload posix mem r path z = Some (0, z) /\ exists d, e_data e = Some d /\ reads_as z path d).
Proof using.
  intros G Hr Hn Hpx Hre Hslot. destruct (cache_reachable_ok N h n z G Hr) as [Hn0 Ck]. specialize (Ck ltac:(lia)). split.
  - intros s ino i s1 Ej Hfd Est Hd Hmax Hlen Hf Hroom.
    destruct (preload_new n z s path ino i s1 posix r Ck Hn0 Hpx Hre Ej Hfd Est Hd Hmax Hlen Hf Hroom Hslot)
      as (z1 & k & e & E1 & Ck1 & Hi & Hf1 & He & Ed & j & f & Hj & Ha).
    exists z1. split; [exact E1|]. by eapply (found_reads_as n z1 path k e _ j f); [| lia | ..].
  - intros k e Hi Hf He. destruct Hslot as (j & f & Hj & Ha). split.
    + unfold elf_cache_preload. rewrite (cbind_ok _ _ z tt z) by (unfold elf_cache_init; by rewrite Hi).
      by rewrite (cbind_ok _ _ z (Some k) z) by (by rewrite Hf).
    + pose proof Hf as Hf'. apply find_Some in Hf' as (e0 & He0 & Hact & _). rewrite He in He0. injection He0 as <-.
      destruct (en_data _ _ _ _ (ck_entries N n z Ck k e He) Hact) as (d & Ed & _). exists d. split; [done|].
      by eapply (found_reads_as n z path k e d j f); [| lia | ..].
Qed.

End Load.

(** ** An example *)

(** A file system with /pack/a, made by calls of the module. *)
Definition pack_calls : list call := [Mkdir [47; 112; 97; 99; 107] 0x1ff; ImportFile [47; 112; 97; 99; 107; 47; 97] [7; 8; 9] 0x1a4].

Fixpoint perform_all (l : list call) (s : fs) : fs :=
  match l with
  | [] => s
  | c :: l => match perform c s with Some (_, s') => perform_all l s' | None => s end
  end.

Definition pack_fs : fs := match init 65536 0 blank with Some (_, s) => perform_all pack_calls s | None => blank end.

Lemma perform_all_reachable l s :
  reachable 65536 0 s -> Forall (fun c => forall s, sensible s c) l -> reachable 65536 0 (perform_all l s).
Proof.
  intros Hr Hl. revert s Hr. induction Hl as [|c l Hc Hl IH]; intros s Hr; [done|]. cbn.
  destruct (perform c s) as [[r s']|] eqn:Ep; [|done]. apply IH. by eapply reach_call.
Qed.

Lemma pack_good : good 4 pack_fs.
Proof.
  apply (reachable_is_good 65536 0 pack_fs small_init_ok). unfold pack_fs.
  destruct (init_good 65536 0 blank small_init_ok blank_unused) as (s0 & E0 & _). rewrite E0. apply perform_all_reachable.
  - by eapply reach_init; [apply blank_unused|].
  - repeat constructor. intros s. cbn. unfold MAX_SIZE, MAX_FILE_BLOCKS. lia.
Qed.

Definition pack_host : host := {| js := Some pack_fs; readdir_entries := None; errno := None |}.

Lemma stat_summary (r : option (option (Z * inode) * fs)) (p : Z -> inode -> bool) :
  match r with Some (Some (ino, i), _) => p ino i | _ => false end = true ->
  exists ino i s, r = Some (Some (ino, i), s) /\ p ino i = true.
Proof. destruct r as [[[[ino i]|] s]|]; try discriminate. by exists ino, i, s. Qed.

Lemma cached_executable_witness :
  exists ino i s1 fd z1 z2,
    stat (packed [47; 97]) pack_fs = Some (Some (ino, i), s1) /\
    elf_cache_preload tiny_posix true Shrunk [47; 97] (nine_start pack_host) = Some (0, z1) /\ elf_cache_open [47; 97] z1 = Some (fd, z2) /\
    elf_cache_pread fd 2 1 z2 = Some (Some (take 2 (drop 1 (contents pack_fs ino))), z2).
Proof.
  assert (Hs : match stat (packed [47; 97]) pack_fs with
               | Some (Some (ino, i), _) => negb (is_dir pack_fs ino) && (isize i =? 3) | _ => false end = true)
    by (vm_compute; reflexivity).
  apply (stat_summary _ (fun ino i => negb (is_dir pack_fs ino) && (isize i =? 3))) in Hs as (ino & i & s1 & Est & Hs).
  apply andb_true_iff in Hs as [Hd Hi]. apply negb_true_iff in Hd. apply Z.eqb_eq in Hi.
  destruct (cached_executable 4 pack_host 0 (nine_start pack_host) [47; 97] tiny_posix true Shrunk) as [Hload _].
  - intros s E. rewrite <- (some_eq pack_fs s E). exact pack_good.
  - apply cache_start.
  - lia.
  - exact tiny_answers.
  - discriminate.
  - exists O, no_cfd. split; reflexivity.
  - destruct (Hload pack_fs ino i s1) as (z1 & E1 & fd & z2 & E2 & _ & Hp).
    + reflexivity.
    + assert (Hn : (0 <=? nextFd pack_fs) = true) by (vm_compute; reflexivity). by apply Z.leb_le.
    + exact Est.
    + exact Hd.
    + rewrite Hi. unfold ELF_CACHE_MAX_FILE_SIZE. lia.
    + cbn. lia.
    + reflexivity.
    + exists O, no_entry. split; reflexivity.
    + exists ino, i, s1, fd, z1, z2. split; [exact Est|]. split; [exact E1|]. split; [exact E2|]. apply (Hp 2 1); lia.
Defined.
